(* ===== verification/_CoqProject ===== *)
-Q . S2P
Prelude.v
Params.v
CString.v
State.v
Spinlock.v
PhysMem.v
Kalloc.v
Vm.v
VmInv.v
VmMap.v
VmLocal.v
VmGrow.v
VmCow.v
VmCopy.v
VmFree.v
ProcBase.v
SleepFine.v
Random.v
Queue.v
Sched.v
Sleeplock.v
Virtio.v
Bio.v
Blocks.v
Bytes.v
Log.v
LogCrash.v
Fs.v
FsRead.v
FsWrite.v
FsFile.v
FsWritei.v
Console.v
File.v
Pipes.v
Proc.v
Reap.v
NewSpace.v
Spawn.v
Fork.v
Exec.v
SysArgs.v
Sysproc.v
Sysfile.v
Syscall.v
Trap.v
TrapTick.v
Alarm.v
ProcLife.v
Main.v
Start.v
User.v
ULib.v
UPrintf.v
UProgs.v
Grep.v
GrepLines.v
UFilter.v
Umalloc.v
UmallocFree.v
UmallocAlloc.v
Sh.v
ShLex.v
ShTree.v
ShGram.v
ShParse.v
ShCorrect.v
ShPipe.v
Mkfs.v
MkfsInv.v
MkfsAppend.v
MkfsFiles.v
MkfsMain.v
MkfsImage.v
MkfsBoot.v
MkfsCorrect.v
