(* ===== verification/Prelude.v ===== *)
(** * Verification of the enhanced xv6-riscv kernel and its user programs

    A model of the kernel in src/src/kernel (xv6 for RISC-V with copy-on-write
    fork, alarms, system-call tracing and five schedulers) and theorems about
    it, of the programs in src/src/user that make it a system (the library, the
    shell and the commands), and of src/src/mkfs, which builds the disk they
    start from.  Every C function of the kernel proper and of those programs is
    a Rocq definition of the same name; source paths below are relative to
    src/src/.

    ** How the program is modelled

    - A kernel routine is a function of the monad [KM S] of this file, mostly of
      [K = KM kstate] (State.v).  It runs on one hart, on the state of the whole
      kernel, and returns a value, panics, faults (a bad dereference, an array
      index out of bounds), or is still waiting when the environment ends.
    - What other harts, other processes and devices do is a list of functions
      on the state, the environment.  One is consumed each time a routine gives
      up control: one turn of a spin loop, one switch to the scheduler or to a
      process ([swtch]), one wait for a device.  The theorems hold for every
      environment their hypotheses admit, most of them for all of them.  Where
      the interleaving of the harts between two lines of C is the point, the
      lines are modelled a second time as a step function over all harts:
      Module [Fine] of Spinlock.v for acquire and release, one memory access per
      step, and SleepFine.v for sleep and wakeup, one lock operation or access
      to a shared field per step.
    - Integers are [Z]; [u8] ... [i32] are the wrap-arounds of the C types,
      written where the C code stores or converts.
    - Memory is bytes.  Page tables, the free list, trapframes and user pages
      lie in the same physical memory, and pointers into it are addresses.  A
      pointer into a static array of structs (processes, buffers, inodes, files)
      is an index into a list; a null pointer is [None].
    - A C function that fills a caller's buffer returns the bytes it stored; one
      that reads a caller's buffer is given the bytes.
    - The addresses the linker and the assembly files fix, and what an
      uninitialised variable holds, are the fields of the class [Image]
      (Params.v); [ImageOK] states what the linker script guarantees of them.
      What the virtio device's registers read as is an argument of the driver.
    - A user program is a function of the same monad over any state with the
      system calls of the class [Sys] (User.v).  [exit] and a successful exec end
      it (outcome [Ended]); fork answers with 0 or a process number, and the
      definition is the process that got the answer.

    ** Files

    Foundations:
    - Prelude.v: this file; integers, the monad, loops, and the rules by which
      routines are executed symbolically ([bind_Ret], [while_runs], tactic
      [run]).
    - Params.v: kernel/param.h, kernel/memlayout.h, the macros of kernel/riscv.h.
    - State.v: kernel/proc.h, spinlock.h, queue.h, buf.h, file.h and the global
      variables, as the record [kstate].
    - CString.v: kernel/string.c.   PhysMem.v: loads and stores of RAM.
    - Bytes.v: little-endian fields of disk blocks.

    Memory:
    - Kalloc.v: kernel/kalloc.c.   Vm.v: kernel/vm.c.
    - VmInv.v: the invariant of all page tables and the allocator together;
      VmMap.v (mappages, uvmunmap), VmLocal.v (what is done to one address
      space leaves the tables of the others alone), VmGrow.v (uvmalloc,
      uvmdealloc), VmCow.v (uvmcopy), VmCopy.v (walkaddr, copyin, copyout),
      VmFree.v (freewalk, uvmfree): the theorems about vm.c.

    Processes:
    - Spinlock.v: kernel/spinlock.c, as used by the rest, and in Module [Fine]
      one memory access at a time.   Sleeplock.v: kernel/sleeplock.c.
    - ProcBase.v: sched, yield, sleep, wakeup, kill, either_copyin/copyout,
      update_time, tickets (kernel/proc.c).   Random.v: random().
    - SleepFine.v: sleep, wakeup, kill, yield, sched and the scheduler's visit of
      a process, under every interleaving of the harts.
    - Proc.v: allocproc, fork, exit, wait, waitx, growproc, ... (kernel/proc.c).
    - Queue.v: kernel/queue.c.   Sched.v: the five bodies of scheduler().
    - ProcLife.v: theorems about kill and about the priority scheduler.
    - Reap.v: theorems about proc_freepagetable, freeproc and wait.  NewSpace.v:
      proc_pagetable.  Spawn.v: allocproc.  Fork.v: fork.

    Disk and files:
    - Virtio.v: kernel/virtio_disk.c.   Bio.v: kernel/bio.c.
    - Blocks.v: the interface [Kern] of what the log and the file system use of
      the rest of the kernel, with two instances: the kernel itself
      ([kern_kstate]) and the sequential machine [mini], whose disk records
      every write.  Log.v (kernel/log.c) and Fs.v (kernel/fs.c) are written once
      against the interface, so the theorems about them on [mini] are about the
      code that runs in the kernel.
    - LogCrash.v: crashes and recovery.   FsRead.v, FsWrite.v: theorems about
      fs.c.   FsFile.v: the blocks of the files of a disk, each in one place of
      one file, and bmap, which keeps them apart.   FsWritei.v: writei.
    - File.v: kernel/file.c and kernel/pipe.c.   Pipes.v: theorems about pipes.

    Entry points:
    - Console.v: kernel/uart.c, console.c, printf.c, plic.c.
    - Exec.v: kernel/exec.c.   SysArgs.v, Syscall.v: kernel/syscall.c.
    - Sysproc.v: kernel/sysproc.c.   Sysfile.v: kernel/sysfile.c.
    - Trap.v: kernel/trap.c.   TrapTick.v, Alarm.v: theorems about the clock
      interrupt and the alarms.   Main.v: kernel/main.c.
    - Start.v: kernel/start.c and the timer's vector of kernel/kernelvec.S, on
      the machine-mode registers of kernel/riscv.h: booting into supervisor
      mode, and the timer interrupt the kernel does not see.

    User programs:
    - User.v: the system calls as the class [Sys] (user/user.h), the class
      [Streams] of what filters rely on, and the world [uworld] that has both.
    - ULib.v: user/ulib.c.   UPrintf.v: user/printf.c, with the reference
      [format].   UProgs.v: a Module for each of the small commands.
    - Grep.v: user/grep.c and the language of a pattern; GrepLines.v: theorems
      about it.   UFilter.v: theorems about cat and wc.
    - Umalloc.v: user/umalloc.c and the invariant of its heap; UmallocFree.v,
      UmallocAlloc.v: theorems about free and malloc.
    - Sh.v: user/sh.c.  ShLex.v: what spells a sequence of tokens, and peek and
      gettoken on it.  ShTree.v: command trees, what it is to run one, and how
      the shell's heap represents them.  ShGram.v: the grammar of command lines.
      ShParse.v: the parser against the grammar.  ShCorrect.v, ShPipe.v: the
      theorems about the shell.

    The image:
    - Mkfs.v: mkfs/mkfs.c, on a host given by the files it can open and the
      sectors it has room for.  MkfsInv.v: the invariant of an image under
      construction ([image_ok]: which place of which file every block belongs
      to).  MkfsAppend.v: the loop of iappend; MkfsFiles.v: iappend, ialloc and
      the bytes of a file; MkfsMain.v: the files one after the other.
    - MkfsImage.v, MkfsBoot.v: the finished image as fs.c reads it, on [mini];
      MkfsCorrect.v: the theorems.

    ** What the theorems show

    - Memory: kinit establishes the allocator's invariant; kalloc, kfree and the
      page-table routines keep it; the count of a page is the number of its
      users, so a page in use is never handed out and a shared page is freed
      with its last user.  mappages and uvmunmap refine insertion and deletion
      in the translation; uvmalloc is all or nothing; uvmcopy shares the
      parent's pages and undoes what it did when memory runs out; copyout
      breaks the sharing, so no other process sees the write; uvmfree gives back
      every page and every table of an address space.  Where the code
      fails (a user pointer without a page table) that is stated too.
    - Synchronisation: mutual exclusion of the spinlock in every interleaving;
      in every interleaving of sleepers, wakers and schedulers on any number of
      harts, nobody stays asleep, or goes to sleep, on a condition that has come
      true, and a process out of its waiting loop holds the lock; wakeup wakes
      exactly the sleepers on the channel.  A pipe is a queue: its writers and
      readers lose, repeat and reorder nothing, wait on a full or an empty ring,
      and leave nobody asleep who could go on.
    - Processes: fork gives the child the parent's memory copy-on-write, its
      files and its trapframe, or returns -1 with all memory as it was; wait
      reaps the first dead child of the table and gives back its slot, its
      trapframe and its whole address space; with live children only it goes to
      sleep.
    - Scheduling: a round-robin round runs exactly the processes that are
      runnable when it reaches them, in table order, whatever the running
      processes and the other harts do meanwhile; the multi-level queues are
      first-in first-out as long as remove_queue is not called, and what goes
      wrong when it is; the random
      generator has full period; the priority scheduler compares every candidate
      with the first runnable process, so it picks the last one below that one
      and not the smallest.
    - Crashes: whenever commit() is interrupted, and however often recovery is
      interrupted too, the disk after recovery is the one before the
      transaction or the one after it; log_write keeps the log within bounds.
    - Files: readi returns the bytes of the file and stores them where the
      caller asked; writei overwrites bytes of one file, growing it when it must,
      leaves every other file as it is, and writes no more distinct blocks than
      the chunks of filewrite reserve in the log; what is written is read back;
      balloc returns a free block, zeroed; iupdate and ilock are inverse;
      iget keeps one table entry per inode; dirlookup finds the first entry with
      the name; skipelem splits a path at its slashes.
    - Traps: a clock tick charges and wakes exactly the right processes; an
      alarm's handler is entered once, sigreturn restores all registers but a0,
      and the alarm goes off again after as many ticks.  Strings and printing:
      memmove, strncpy, safestrcpy, strncmp and printint meet their contracts.
    - User programs: the shell runs the command its grammar gives to the line it
      reads, whatever the spelling; the processes of a pipeline hold one end of
      the pipe each.  malloc and free keep every allocated block and a sorted,
      coalesced free list.  grep's matcher decides the language of its pattern;
      grep and wc treat their input the same however reads cut it into pieces.
    - The image: mkfs builds a file system that holds the files it was given,
      and the kernel's namei, ilock and readi find them there by name.

    ** Bounds and fuel

    [while_] runs up to 2^64 iterations; a theorem that a routine returns shows
    that its loops need fewer.  freewalk is called with 8 levels and an Sv39
    tree has 3.  digits_loop has 32 steps and a 32-bit number at most 32 digits
    in any base from 2 on.  fetch_args has MAXARG steps and fails, as the code
    does, when they are used up.  The endless loop of the scheduler is a chosen
    number of rounds ([rounds n]).  The shell's parser gets 4 levels of recursion
    per character of the line and 4 more, which every line needs at most;
    nulterminate and runcmd get one more than there are nodes, and a node's
    children are older than it.

    ** Not modelled

    - kernel/entry.S, trampoline.S, swtch.S and kernelvec of kernelvec.S:
      assembly that saves and restores registers.  A switch of context is a step
      of the environment (in SleepFine.v it is a step of the model); usertrap
      and kerneltrap start where the assembly calls them, and usertrapret
      returns what it jumps to.  kernel/ramdisk.c is not built.
    - The devices (virtio disk, UART, PLIC, CLINT): not code of the repository;
      they act in environment steps or through arguments.
    - The memory ordering of the hardware: [__sync_synchronize] does nothing
      here, and memory is sequentially consistent in Module [Fine] and in
      SleepFine.v.
    - The theorems about the log and the file system are about one thread of
      control on [mini]; concurrent transactions are not covered.

    - Test programs (user/usertests.c, grind.c, forktest.c, stressfs.c,
      alarmtest.c, schedulertest.c), which exercise the kernel.

    ** What is left to do

    Theorems about the UART ring, exit, exec, itrunc, sys_open and the
    descriptor allocation of the disk driver, whose code is modelled. *)

From stdpp Require Export base tactics numbers list gmap strings fin_maps.
From Stdlib Require Export ZArith Lia.

#[global] Open Scope Z_scope.
#[global] Set Default Goal Selector "!".

(** ** Machine integers

    A w-bit C integer is a [Z] in its range; every arithmetic result that is
    stored back into a C object goes through the wrap-around of its type. *)

Definition wrapu (w : Z) (x : Z) : Z := x mod 2 ^ w.
Definition wraps (w : Z) (x : Z) : Z := (x + 2 ^ (w - 1)) mod 2 ^ w - 2 ^ (w - 1).

Abbreviation u8 := (wrapu 8).
Abbreviation u16 := (wrapu 16).
Abbreviation u32 := (wrapu 32).
Abbreviation u64 := (wrapu 64).
Abbreviation i16 := (wraps 16).
Abbreviation i32 := (wraps 32).

(** C truth value of an integer expression, and the C value of a comparison. *)
Definition ctrue (x : Z) : bool := negb (x =? 0).
Definition cbool (b : bool) : Z := if b then 1 else 0.

(** The bytes of a string literal, without its NUL, and the characters of a C
    string: the bytes up to the NUL. *)
Definition bytes_of (s : string) : list Z :=
  (λ a, Z.of_nat (Ascii.nat_of_ascii a)) <$> String.list_ascii_of_string s.

Fixpoint cstring (l : list Z) : list Z :=
  match l with [] => [] | c :: l' => if c =? 0 then [] else c :: cstring l' end.

(** ** Outcomes and the kernel monad

    A kernel routine runs on one hart.  It is given the list of environment
    steps: what the other harts and processes do to the state while this
    routine spins, sleeps or has switched away.  One step is consumed each
    time the routine gives up control.

    - [Ret a e s]: the routine returned [a] with environment [e] left;
    - [Panic msg s]: the routine called [panic(msg)];
    - [Fault msg s]: the routine dereferenced a bad address or indexed an
      array out of its bounds;
    - [Blocked s]: the routine is still spinning or sleeping when the
      environment has no step left;
    - [Ended r s]: the program the routine belongs to has ended.  Only user
      programs end, with exit() or by a successful exec(). *)

Inductive ending :=
| Exited (status : Z)
| Execed (path : list Z) (argv : list (list Z)).

Inductive outcome (S A : Type) : Type :=
| Ret (a : A) (e : list (S → S)) (s : S)
| Panic (msg : string) (s : S)
| Fault (msg : string) (s : S)
| Blocked (s : S)
| Ended (r : ending) (s : S).
Arguments Ret {S A} a e s.
Arguments Panic {S A} msg s.
Arguments Fault {S A} msg s.
Arguments Blocked {S A} s.
Arguments Ended {S A} r s.

Definition KM (S A : Type) : Type := list (S → S) → S → outcome S A.

#[export] Instance KM_ret S : MRet (KM S) := λ A a e s, Ret a e s.
#[export] Instance KM_bind S : MBind (KM S) := λ A B f m e s,
  match m e s with
  | Ret a e' s' => f a e' s'
  | Panic msg s' => Panic msg s'
  | Fault msg s' => Fault msg s'
  | Blocked s' => Blocked s'
  | Ended r s' => Ended r s'
  end.

Section Monad.
Context {S : Type}.

Definition get : KM S S := λ e s, Ret s e s.
Definition gets {A} (f : S → A) : KM S A := λ e s, Ret (f s) e s.
Definition put (s' : S) : KM S () := λ e _, Ret () e s'.
Definition modify (f : S → S) : KM S () := λ e s, Ret () e (f s).
Definition panic {A} (msg : string) : KM S A := λ e s, Panic msg s.
Definition fault {A} (msg : string) : KM S A := λ e s, Fault msg s.
Definition blocked {A} : KM S A := λ e s, Blocked s.
Definition ended {A} (r : ending) : KM S A := λ e s, Ended r s.

(** Give up control for one environment step. *)
Definition interfere : KM S () := λ e s,
  match e with
  | [] => Blocked s
  | f :: e' => Ret () e' (f s)
  end.

(** [if(c) panic(msg);] and the check that an access is legal. *)
Definition panic_if (c : bool) (msg : string) : KM S () :=
  if c then panic msg else mret ().
Definition check (c : bool) (msg : string) : KM S () :=
  if c then mret () else fault msg.
Definition when (c : bool) (m : KM S ()) : KM S () :=
  if c then m else mret ().

(** [for(x in l) body(x);] *)
Fixpoint foreach {B} (l : list B) (body : B → KM S ()) : KM S () :=
  match l with
  | [] => mret ()
  | x :: l' => body x ;; foreach l' body
  end.

(** [for(x in l) body(x);] where the body may leave the loop with a value. *)
Fixpoint scan {B R} (l : list B) (body : B → KM S (option R)) : KM S (option R) :=
  match l with
  | [] => mret None
  | x :: l' => r ← body x; match r with Some v => mret (Some v) | None => scan l' body end
  end.

(** [for(;;)] loops.  One iteration maps the loop variables to either new
    loop variables or the value the loop is left with.  [loop_pow k] runs up
    to [2^k] iterations, so [while_] covers every loop of fewer than [2^64]
    iterations while its fuel stays a small term. *)
Fixpoint loop_pow {X R} (k : nat) (step : X → KM S (X + R)) (x : X) : KM S (X + R) :=
  match k with
  | O => step x
  | Datatypes.S k' =>
      y ← loop_pow k' step x;
      match y with
      | inl x' => loop_pow k' step x'
      | inr r => mret (inr r)
      end
  end.

Definition while_ {X R} (step : X → KM S (X + R)) (x : X) : KM S R :=
  y ← loop_pow 64 step x;
  match y with inl _ => blocked | inr r => mret r end.
End Monad.

#[global] Strategy 1000 [loop_pow].
Arguments while_ : simpl never.

(** ** Reasoning about routines *)

Section Rules.
Context {S : Type}.
Implicit Types (e : list (S → S)) (s : S).

(** Total correctness: the routine returns, and the result satisfies [Q]. *)
Definition wp {A} (m : KM S A) (Q : A → list (S → S) → S → Prop) e s : Prop :=
  match m e s with Ret a e' s' => Q a e' s' | _ => False end.

(** Partial correctness: if the routine returns, the result satisfies [Q]. *)
Definition wlp {A} (m : KM S A) (Q : A → list (S → S) → S → Prop) e s : Prop :=
  match m e s with Ret a e' s' => Q a e' s' | _ => True end.

Lemma bind_Ret {A B} (m : KM S A) (f : A → KM S B) e s a e' s' :
  m e s = Ret a e' s' → (m ≫= f) e s = f a e' s'.
Proof. intros H. unfold mbind, KM_bind. by rewrite H. Qed.

Lemma bind_Ret_inv {A B} (m : KM S A) (f : A → KM S B) e s b e' s' :
  (m ≫= f) e s = Ret b e' s' →
  ∃ a e1 s1, m e s = Ret a e1 s1 ∧ f a e1 s1 = Ret b e' s'.
Proof.
  unfold mbind, KM_bind. destruct (m e s) eqn:E; intros H; try discriminate. eauto 6.
Qed.

(** Symbolic execution: what each primitive does when it is run. *)
Lemma mret_run {A} (a : A) e s : (mret a : KM S A) e s = Ret a e s.
Proof. done. Qed.
Lemma mret_bind {A B} (a : A) (f : A → KM S B) e s : ((mret a : KM S A) ≫= f) e s = f a e s.
Proof. done. Qed.
Lemma get_bind {B} (f : S → KM S B) e s : (get ≫= f) e s = f s e s.
Proof. done. Qed.
Lemma gets_run {A} (g : S → A) e s : gets g e s = Ret (g s) e s.
Proof. done. Qed.
Lemma gets_bind {A B} (g : S → A) (f : A → KM S B) e s : (gets g ≫= f) e s = f (g s) e s.
Proof. done. Qed.
Lemma modify_run (g : S → S) e s : modify g e s = Ret () e (g s).
Proof. done. Qed.
Lemma modify_bind {B} (g : S → S) (f : () → KM S B) e s : (modify g ≫= f) e s = f () e (g s).
Proof. done. Qed.
Lemma bind_bind {A B C} (m : KM S A) (f : A → KM S B) (g : B → KM S C) e s :
  ((m ≫= f) ≫= g) e s = (m ≫= λ a, f a ≫= g) e s.
Proof. unfold mbind, KM_bind. by destruct (m e s). Qed.
Lemma panic_if_run c msg e s :
  panic_if c msg e s = if c then Panic msg s else Ret () e s.
Proof. by destruct c. Qed.
Lemma panic_if_bind {B} c msg (f : () → KM S B) e s :
  (panic_if c msg ≫= f) e s = if c then Panic msg s else f () e s.
Proof. by destruct c. Qed.
Lemma check_run c msg e s : check c msg e s = if c then Ret () e s else Fault msg s.
Proof. by destruct c. Qed.
Lemma check_bind {B} c msg (f : () → KM S B) e s :
  (check c msg ≫= f) e s = if c then f () e s else Fault msg s.
Proof. by destruct c. Qed.
Lemma when_run c m e s : when c m e s = if c then m e s else Ret () e s.
Proof. by destruct c. Qed.
Lemma when_bind {B} c m (f : () → KM S B) e s :
  (when c m ≫= f) e s = if c then (m ≫= f) e s else f () e s.
Proof. by destruct c. Qed.
Lemma panic_bind {A B} msg (f : A → KM S B) e s : (panic msg ≫= f) e s = Panic msg s.
Proof. done. Qed.
Lemma fault_bind {A B} msg (f : A → KM S B) e s : (fault msg ≫= f) e s = Fault msg s.
Proof. done. Qed.

Lemma ended_bind {A B} r (f : A → KM S B) e s : (ended r ≫= f) e s = Ended r s.
Proof. done. Qed.
Lemma bind_Ended {A B} (m : KM S A) (f : A → KM S B) e s r s' :
  m e s = Ended r s' → (m ≫= f) e s = Ended r s'.
Proof. intros H. unfold mbind, KM_bind. by rewrite H. Qed.

Lemma wp_bind {A B} (m : KM S A) (f : A → KM S B) Q e s :
  wp m (λ a, wp (f a) Q) e s → wp (m ≫= f) Q e s.
Proof. unfold wp, mbind, KM_bind. by destruct (m e s). Qed.

Lemma wlp_bind {A B} (m : KM S A) (f : A → KM S B) Q e s :
  wlp m (λ a, wlp (f a) Q) e s → wlp (m ≫= f) Q e s.
Proof. unfold wlp, mbind, KM_bind. by destruct (m e s). Qed.

Lemma wp_mono {A} (m : KM S A) (P Q : A → list (S → S) → S → Prop) e s :
  wp m P e s → (∀ a e' s', P a e' s' → Q a e' s') → wp m Q e s.
Proof. unfold wp. destruct (m e s); naive_solver. Qed.

Lemma wlp_mono {A} (m : KM S A) (P Q : A → list (S → S) → S → Prop) e s :
  wlp m P e s → (∀ a e' s', P a e' s' → Q a e' s') → wlp m Q e s.
Proof. unfold wlp. destruct (m e s); naive_solver. Qed.

Lemma wp_wlp {A} (m : KM S A) Q e s : wp m Q e s → wlp m Q e s.
Proof. unfold wp, wlp. by destruct (m e s). Qed.

Lemma wp_Ret {A} (m : KM S A) Q e s a e' s' :
  m e s = Ret a e' s' → Q a e' s' → wp m Q e s.
Proof. unfold wp. by intros ->. Qed.

Lemma wp_Ret_inv {A} (m : KM S A) Q e s :
  wp m Q e s → ∃ a e' s', m e s = Ret a e' s' ∧ Q a e' s'.
Proof. unfold wp. destruct (m e s); naive_solver. Qed.

Lemma wlp_Ret_inv {A} (m : KM S A) (Q : A → list (S → S) → S → Prop) e s a e' s' :
  wlp m Q e s → m e s = Ret a e' s' → Q a e' s'.
Proof. unfold wlp. intros H E. by rewrite E in H. Qed.

(** The loop rule for [foreach]: an invariant indexed by what is left to do. *)
Lemma foreach_wlp {B} (body : B → KM S ()) (I : list B → list (S → S) → S → Prop) l e s :
  I l e s →
  (∀ x l' e s, I (x :: l') e s → wlp (body x) (λ _ e s, I l' e s) e s) →
  wlp (foreach l body) (λ _ e s, I [] e s) e s.
Proof.
  intros HI Hb. revert e s HI. induction l as [|x l IH]; intros e s HI; [done|].
  simpl. apply wlp_bind. eapply wlp_mono; [by apply Hb|]. simpl. auto.
Qed.

Lemma foreach_wp {B} (body : B → KM S ()) (I : list B → list (S → S) → S → Prop) l e s :
  I l e s →
  (∀ x l' e s, I (x :: l') e s → wp (body x) (λ _ e s, I l' e s) e s) →
  wp (foreach l body) (λ _ e s, I [] e s) e s.
Proof.
  intros HI Hb. revert e s HI. induction l as [|x l IH]; intros e s HI; [done|].
  simpl. apply wp_bind. eapply wp_mono; [by apply Hb|]. simpl. auto.
Qed.

(** [for(i = 0; i < n; i++)], with an invariant indexed by [i]. *)
Lemma foreach_seqZ_wp (body : Z → KM S ()) (I : Z → list (S → S) → S → Prop) n e s :
  0 ≤ n → I 0 e s →
  (∀ i e s, 0 ≤ i < n → I i e s → wp (body i) (λ _, I (i + 1)) e s) →
  wp (foreach (seqZ 0 n) body) (λ _, I n) e s.
Proof.
  intros Hn HI Hb.
  assert (∀ k i e s, i + Z.of_nat k = n → 0 ≤ i → I i e s →
    wp (foreach (seqZ i (Z.of_nat k)) body) (λ _, I n) e s) as Hloop.
  { induction k as [|k IH]; intros i e0 s0 Hk Hi Hs.
    - cbn. unfold wp. cbn. by replace n with i by lia.
    - rewrite seqZ_cons by lia. cbn [foreach]. apply wp_bind.
      eapply wp_mono; [apply Hb; [lia|done]|]. cbv beta. intros _ e1 s1 H1.
      replace (Z.pred (Z.of_nat (Datatypes.S k))) with (Z.of_nat k) by lia. apply IH; [lia|lia|].
      by replace (Z.succ i) with (i + 1) by lia. }
  specialize (Hloop (Z.to_nat n) 0 e s). rewrite Z2Nat.id in Hloop by done. apply Hloop; [lia|lia|done].
Qed.

(** ** Loops

    [runs step x e s n r e' s']: started with loop variables [x], the loop is
    left after [n] further iterations with value [r]. *)
Inductive runs {X R} (step : X → KM S (X + R)) :
  X → list (S → S) → S → Z → R → list (S → S) → S → Prop :=
| runs_done x e s r e' s' :
    step x e s = Ret (inr r) e' s' → runs step x e s 1 r e' s'
| runs_step x e s x1 e1 s1 n r e' s' :
    step x e s = Ret (inl x1) e1 s1 →
    runs step x1 e1 s1 n r e' s' →
    runs step x e s (n + 1) r e' s'.

Lemma runs_pos {X R} (step : X → KM S (X + R)) x e s n r e' s' :
  runs step x e s n r e' s' → 1 ≤ n.
Proof. induction 1; lia. Qed.

Lemma loop_pow_runs {X R} (step : X → KM S (X + R)) k x e s n r e' s' :
  runs step x e s n r e' s' →
  (n ≤ 2 ^ Z.of_nat k → loop_pow k step x e s = Ret (inr r) e' s') ∧
  (2 ^ Z.of_nat k < n → ∃ x1 e1 s1,
     loop_pow k step x e s = Ret (inl x1) e1 s1 ∧
     runs step x1 e1 s1 (n - 2 ^ Z.of_nat k) r e' s').
Proof.
  revert x e s n. induction k as [|k IH]; intros x e s n H.
  - simpl. change (2 ^ Z.of_nat 0) with 1. split.
    + intros Hn. inversion H; subst; [done|].
      apply runs_pos in H1. lia.
    + intros Hn. inversion H; subst; [lia|].
      replace (n0 + 1 - 1) with n0 by lia. eauto 6.
  - rewrite Nat2Z.inj_succ, Z.pow_succ_r by lia.
    destruct (IH x e s n H) as [Hle Hgt]. simpl. split.
    + intros Hn. destruct (Z.le_gt_cases n (2 ^ Z.of_nat k)) as [Hc|Hc].
      * by rewrite (bind_Ret _ _ _ _ _ _ _ (Hle Hc)).
      * destruct Hgt as (x1 & e1 & s1 & E & H1); [lia|].
        rewrite (bind_Ret _ _ _ _ _ _ _ E).
        destruct (IH _ _ _ _ H1) as [Hle1 _]. apply Hle1. lia.
    + intros Hn. destruct Hgt as (x1 & e1 & s1 & E & H1); [lia|].
      rewrite (bind_Ret _ _ _ _ _ _ _ E).
      destruct (IH _ _ _ _ H1) as [_ Hgt1].
      destruct Hgt1 as (x2 & e2 & s2 & E2 & H2); [lia|].
      exists x2, e2, s2. split; [done|].
      by replace (n - 2 * 2 ^ Z.of_nat k) with (n - 2 ^ Z.of_nat k - 2 ^ Z.of_nat k) by lia.
Qed.

(** A loop that is left after fewer than [2^64] iterations returns its value. *)
Lemma while_runs {X R} (step : X → KM S (X + R)) x e s n r e' s' :
  runs step x e s n r e' s' → n ≤ 2 ^ 64 → while_ step x e s = Ret r e' s'.
Proof.
  intros H Hn. unfold while_.
  destruct (loop_pow_runs step 64 _ _ _ _ _ _ _ H) as [Hle _].
  by rewrite (bind_Ret _ _ _ _ _ _ _ (Hle Hn)).
Qed.

(** A loop whose first iteration panics or faults. *)
Lemma while_panic {X R} (step : X → KM S (X + R)) x e s msg s' :
  step x e s = Panic msg s' → while_ step x e s = Panic msg s'.
Proof.
  intros H. assert (∀ k, loop_pow k step x e s = Panic msg s') as Hk.
  { induction k as [|k IH]; [done|]. simpl. unfold mbind at 1, KM_bind at 1. by rewrite IH. }
  unfold while_. unfold mbind, KM_bind. by rewrite Hk.
Qed.

Lemma while_fault {X R} (step : X → KM S (X + R)) x e s msg s' :
  step x e s = Fault msg s' → while_ step x e s = Fault msg s'.
Proof.
  intros H. assert (∀ k, loop_pow k step x e s = Fault msg s') as Hk.
  { induction k as [|k IH]; [done|]. simpl. unfold mbind at 1, KM_bind at 1. by rewrite IH. }
  unfold while_. unfold mbind, KM_bind. by rewrite Hk.
Qed.

Lemma while_blocked {X R} (step : X → KM S (X + R)) x e s s' :
  step x e s = Blocked s' → while_ step x e s = Blocked s'.
Proof.
  intros H. assert (∀ k, loop_pow k step x e s = Blocked s') as Hk.
  { induction k as [|k IH]; [done|]. simpl. unfold mbind at 1, KM_bind at 1. by rewrite IH. }
  unfold while_. unfold mbind, KM_bind. by rewrite Hk.
Qed.

(** An invariant of every iteration holds when the loop is left. *)
Lemma loop_pow_wlp {X R} (step : X → KM S (X + R))
    (I : X → list (S → S) → S → Prop) (Q : R → list (S → S) → S → Prop) k x e s :
  I x e s →
  (∀ x e s, I x e s →
     wlp (step x) (λ y e s, match y with inl x' => I x' e s | inr r => Q r e s end) e s) →
  wlp (loop_pow k step x)
    (λ y e s, match y with inl x' => I x' e s | inr r => Q r e s end) e s.
Proof.
  intros HI Hs. revert x e s HI. induction k as [|k IH]; intros x e s HI; simpl; [by apply Hs|].
  apply wlp_bind. eapply wlp_mono; [by apply IH|].
  intros [x'|r] e' s' H; [by apply IH|done].
Qed.

Lemma while_wlp {X R} (step : X → KM S (X + R))
    (I : X → list (S → S) → S → Prop) (Q : R → list (S → S) → S → Prop) x e s :
  I x e s →
  (∀ x e s, I x e s →
     wlp (step x) (λ y e s, match y with inl x' => I x' e s | inr r => Q r e s end) e s) →
  wlp (while_ step x) Q e s.
Proof.
  intros HI Hs. unfold while_. apply wlp_bind.
  eapply wlp_mono; [by eapply loop_pow_wlp|]. by intros [x'|r] e' s' H.
Qed.
End Rules.

(** ** Record updates

    [r <| f := v |>] and [r <| f ::= g |>].  A record type declares once how a
    value is rebuilt from its fields ([Settable]); the setter of a field is
    found from that by instance search, and reduces to a constructor
    application, so that reading another field of an updated record computes. *)

Class Settable (R : Type) := rebuild : R → R.
Class Setter {R T : Type} (field : R → T) := set : (T → T) → R → R.
Arguments set {R T} field {_} _ _ : simpl never.

Ltac make_setter R T field :=
  exact (λ (g : T → T) (r : R),
    ltac:(let H := constr:(_ : Settable R) in
          let t := eval hnf in (@rebuild R H) in
          let b := eval cbv beta in (t r) in
          match b with
          | context C [field r] => let b' := context C [g (field r)] in exact b'
          end)).

#[export] Hint Extern 0 (@Setter ?R ?T ?field) => make_setter R T field : typeclass_instances.

Declare Scope record_scope.
Delimit Scope record_scope with rec.
#[global] Open Scope record_scope.
Notation "r <| f := v |>" := (set f (λ _, v) r)
  (at level 12, f at next level, left associativity, format "r <| f  :=  v |>") : record_scope.
Notation "r <| f ::= g |>" := (set f g r)
  (at level 12, f at next level, left associativity, format "r <| f  ::=  g |>") : record_scope.

(** Reduce record updates under projections. *)
Ltac rsimpl := cbn [set] in *.

(** ** Automation *)

Create HintDb kernel.
Create HintDb krun.
#[export] Hint Rewrite @mret_run @mret_bind @get_bind @gets_run @gets_bind @modify_run @modify_bind
  @bind_bind @panic_if_run @panic_if_bind @check_run @check_bind @when_run @when_bind
  @panic_bind @fault_bind @ended_bind : krun.

(** Run the primitives at the head of a routine. *)
Ltac krun := autorewrite with krun; cbv beta.
Tactic Notation "krun" "in" hyp(H) := autorewrite with krun in H; cbv beta in H.

#[export] Hint Resolve wp_wlp : kernel.

(** Run the first action of a routine whose result is known by [H]. *)
Ltac run H := rewrite (bind_Ret _ _ _ _ _ _ _ H).

(** Split a hypothesis [(m ≫= f) e s = Ret ..] into its two halves. *)
Ltac inv_bind H :=
  let a := fresh "a" in let e := fresh "e" in let s := fresh "s" in let E := fresh "E" in
  apply bind_Ret_inv in H as (a & e & s & E & H).

(** Turn boolean tests on [Z] and [nat] in the context into propositions. *)
Ltac breflect :=
  repeat match goal with
  | H : andb _ _ = true |- _ => apply andb_prop in H as [? ?]
  | H : andb _ _ = false |- _ => apply Bool.andb_false_iff in H
  | H : orb _ _ = false |- _ => apply Bool.orb_false_iff in H as [? ?]
  | H : orb _ _ = true |- _ => apply Bool.orb_true_iff in H
  | H : negb _ = true |- _ => apply Bool.negb_true_iff in H
  | H : negb _ = false |- _ => apply Bool.negb_false_iff in H
  | H : (_ =? _) = true |- _ => apply Z.eqb_eq in H
  | H : (_ =? _) = false |- _ => apply Z.eqb_neq in H
  | H : (_ <? _) = true |- _ => apply Z.ltb_lt in H
  | H : (_ <? _) = false |- _ => apply Z.ltb_ge in H
  | H : (_ <=? _) = true |- _ => apply Z.leb_le in H
  | H : (_ <=? _) = false |- _ => apply Z.leb_gt in H
  | H : bool_decide _ = true |- _ => apply bool_decide_eq_true in H
  | H : bool_decide _ = false |- _ => apply bool_decide_eq_false in H
  end.

(** [lia] with quotients and remainders. *)
Ltac zlia := Z.div_mod_to_equations; lia.

(** ** Lemmas on machine integers *)

Lemma wrapu_range w x : 0 ≤ w → 0 ≤ wrapu w x < 2 ^ w.
Proof. intros. unfold wrapu. apply Z.mod_pos_bound. by apply Z.pow_pos_nonneg. Qed.

Lemma wrapu_id w x : 0 ≤ x < 2 ^ w → wrapu w x = x.
Proof. apply Z.mod_small. Qed.

Lemma wrapu_wrapu w x : wrapu w (wrapu w x) = wrapu w x.
Proof. unfold wrapu. apply Z.mod_mod_divide. apply Z.divide_refl. Qed.

Lemma wraps_id w x : 0 < w → - 2 ^ (w - 1) ≤ x < 2 ^ (w - 1) → wraps w x = x.
Proof.
  intros Hw Hx. unfold wraps.
  assert (2 ^ w = 2 * 2 ^ (w - 1)).
  { rewrite <- Z.pow_succ_r by lia. f_equal; lia. }
  rewrite Z.mod_small; lia.
Qed.

Lemma wraps_range w x : 0 < w → - 2 ^ (w - 1) ≤ wraps w x < 2 ^ (w - 1).
Proof.
  intros Hw. unfold wraps.
  assert (2 ^ w = 2 * 2 ^ (w - 1)).
  { rewrite <- Z.pow_succ_r by lia. f_equal; lia. }
  assert (0 < 2 ^ (w - 1)) by (apply Z.pow_pos_nonneg; lia).
  pose proof (Z.mod_pos_bound (x + 2 ^ (w - 1)) (2 ^ w)). lia.
Qed.

(** Bitwise reasoning: two integers with the same bits are equal. *)
Lemma testbit_small n w i : 0 ≤ n < 2 ^ w → 0 ≤ w ≤ i → Z.testbit n i = false.
Proof.
  intros Hn Hi. rewrite <- (Z.mod_small n (2 ^ w)) by done.
  apply Z.mod_pow2_bits_high. lia.
Qed.

Lemma lor_range a b w : 0 ≤ a < 2 ^ w → 0 ≤ b < 2 ^ w → 0 ≤ w → 0 ≤ Z.lor a b < 2 ^ w.
Proof.
  intros Ha Hb Hw.
  assert (Z.lor a b = Z.lor a b mod 2 ^ w) as ->; [|by apply wrapu_range].
  apply Z.bits_inj'. intros i Hi.
  destruct (Z.lt_ge_cases i w).
  - by rewrite Z.mod_pow2_bits_low.
  - rewrite Z.mod_pow2_bits_high, Z.lor_spec, (testbit_small a w), (testbit_small b w) by lia.
    done.
Qed.

Lemma land_range a b w : 0 ≤ a < 2 ^ w → 0 ≤ w → 0 ≤ Z.land a b < 2 ^ w.
Proof.
  intros Ha Hw. split; [apply Z.land_nonneg; lia|].
  assert (Z.land a b = Z.land a b mod 2 ^ w) as ->; [|by apply wrapu_range].
  apply Z.bits_inj'. intros i Hi.
  destruct (Z.lt_ge_cases i w).
  - by rewrite Z.mod_pow2_bits_low.
  - rewrite Z.mod_pow2_bits_high, Z.land_spec, (testbit_small a w) by lia. done.
Qed.

(** A shifted value and a value below the shift do not overlap. *)
Lemma lor_add_shift a b n : 0 ≤ n → 0 ≤ b < 2 ^ n → Z.lor (a * 2 ^ n) b = a * 2 ^ n + b.
Proof.
  intros Hn Hb. rewrite Z.add_comm, Z.lor_comm. symmetry.
  rewrite Z.add_nocarry_lxor, Z.lxor_lor; [done| |].
  all: apply Z.bits_inj'; intros i Hi; rewrite Z.land_spec, Z.bits_0;
    destruct (Z.lt_ge_cases i n);
    [rewrite Z.mul_pow2_bits_low by lia; apply andb_false_r
    |rewrite (testbit_small b n) by lia; done].
Qed.

Lemma land_ones_mod a n : 0 ≤ n → Z.land a (2 ^ n - 1) = a mod 2 ^ n.
Proof.
  intros. replace (2 ^ n - 1) with (Z.ones n) by (rewrite Z.ones_equiv; lia).
  by apply Z.land_ones.
Qed.

(** [x & ~(2^n - 1)] rounds down to a multiple of [2^n]. *)
Lemma land_lnot_ones a n : 0 ≤ n → Z.land a (Z.lnot (2 ^ n - 1)) = a / 2 ^ n * 2 ^ n.
Proof.
  intros Hn. replace (2 ^ n - 1) with (Z.ones n) by (rewrite Z.ones_equiv; lia).
  rewrite <- Z.ldiff_land, Z.ldiff_ones_r, Z.shiftl_mul_pow2, Z.shiftr_div_pow2 by lia. done.
Qed.
