(* ===== verification/Params.v ===== *)
(** * Params: constants and address arithmetic

    kernel/param.h, kernel/memlayout.h and the Sv39 page-table macros of
    kernel/riscv.h, with the arithmetic facts the memory components use: a
    page-table entry keeps the physical page and the flags apart, and a
    virtual address below [MAXVA] is determined by its three table indices and
    its page offset. *)

From S2P Require Import Prelude.

(** ** kernel/param.h *)

Definition NPROC : nat := 64.
Definition NCPU : nat := 8.
Definition NOFILE : nat := 16.
Definition NFILE : nat := 100.
Definition NINODE : nat := 50.
Definition NDEV : Z := 10.
Definition ROOTDEV : Z := 1.
Definition MAXARG : nat := 32.
Definition MAXOPBLOCKS : Z := 10.
Definition LOGSIZE : Z := MAXOPBLOCKS * 3.
Definition NBUF : nat := 30.
Definition FSSIZE : Z := 2000.
Definition MAXPATH : Z := 128.
Definition MAXWAITTIME : Z := 64.

(** ** kernel/riscv.h: sstatus bits *)

Definition SSTATUS_SPP : Z := Z.shiftl 1 8.
Definition SSTATUS_SPIE : Z := Z.shiftl 1 5.
Definition SSTATUS_SIE : Z := Z.shiftl 1 1.

(** ** kernel/riscv.h: pages and page-table entries *)

Definition PGSIZE : Z := 4096.
Definition PGSHIFT : Z := 12.

Definition PGROUNDUP (sz : Z) : Z := Z.land (u64 (sz + PGSIZE - 1)) (Z.lnot (PGSIZE - 1)).
Definition PGROUNDDOWN (a : Z) : Z := Z.land a (Z.lnot (PGSIZE - 1)).

Definition PTE_V : Z := Z.shiftl 1 0.
Definition PTE_R : Z := Z.shiftl 1 1.
Definition PTE_W : Z := Z.shiftl 1 2.
Definition PTE_X : Z := Z.shiftl 1 3.
Definition PTE_U : Z := Z.shiftl 1 4.
Definition PTE_COW : Z := Z.shiftl 1 8.

Definition PA2PTE (pa : Z) : Z := u64 (Z.shiftl (Z.shiftr pa 12) 10).
Definition PTE2PA (pte : Z) : Z := u64 (Z.shiftl (Z.shiftr pte 10) 12).
Definition PTE_FLAGS (pte : Z) : Z := Z.land pte 1023.

Definition PXMASK : Z := 511.
Definition PXSHIFT (level : Z) : Z := PGSHIFT + 9 * level.
Definition PX (level va : Z) : Z := Z.land (Z.shiftr va (PXSHIFT level)) PXMASK.

Definition MAXVA : Z := Z.shiftl 1 (9 + 9 + 9 + 12 - 1).

(** ** kernel/memlayout.h *)

Definition UART0 : Z := 0x10000000.
Definition UART0_IRQ : Z := 10.
Definition VIRTIO0 : Z := 0x10001000.
Definition VIRTIO0_IRQ : Z := 1.
Definition PLIC : Z := 0x0c000000.
Definition KERNBASE : Z := 0x80000000.
Definition PHYSTOP : Z := KERNBASE + 128 * 1024 * 1024.
Definition TRAMPOLINE : Z := MAXVA - PGSIZE.
Definition KSTACK (p : Z) : Z := TRAMPOLINE - (p + 1) * 2 * PGSIZE.
Definition TRAPFRAME : Z := TRAMPOLINE - PGSIZE.

(** ** What the linker decides

    Symbols of kernel.ld and of the assembly files, whose values the C code
    only uses as addresses, and the content of uninitialised stack slots. *)
Class Image := {
  end_ : Z;                    (* first address after the kernel *)
  etext : Z;                   (* end of kernel text *)
  trampoline : Z;              (* trampoline.S *)
  uservec : Z;
  userret : Z;
  kernelvec : Z;               (* kernelvec.S *)
  forkret_addr : Z;
  usertrap_addr : Z;
  uninit : Z;                  (* what an uninitialised 32-bit local variable holds *)
}.

Class ImageOK `{Image} := {
  end_range : KERNBASE ≤ end_ ≤ PHYSTOP;
  etext_range : KERNBASE < etext < PHYSTOP;
  etext_aligned : etext mod PGSIZE = 0;
  trampoline_range : KERNBASE ≤ trampoline < PHYSTOP;
  trampoline_aligned : trampoline mod PGSIZE = 0;
}.

(** ** Address arithmetic *)

Lemma PGROUNDDOWN_spec a : PGROUNDDOWN a = a / 4096 * 4096.
Proof. unfold PGROUNDDOWN, PGSIZE. apply (land_lnot_ones a 12). lia. Qed.

Lemma PGROUNDUP_spec a :
  0 ≤ a → a + 4095 < 2 ^ 64 → PGROUNDUP a = (a + 4095) / 4096 * 4096.
Proof.
  intros. unfold PGROUNDUP, PGSIZE. rewrite wrapu_id by lia.
  replace (a + 4096 - 1) with (a + 4095) by lia. apply (land_lnot_ones _ 12). lia.
Qed.

Lemma PGROUNDDOWN_aligned a : a mod 4096 = 0 → PGROUNDDOWN a = a.
Proof. intros. rewrite PGROUNDDOWN_spec. zlia. Qed.

Lemma PGROUNDUP_aligned a : 0 ≤ a → a + 4095 < 2 ^ 64 → a mod 4096 = 0 → PGROUNDUP a = a.
Proof. intros. rewrite PGROUNDUP_spec by lia. zlia. Qed.

Lemma PX_spec level va : 0 ≤ level → PX level va = va / 2 ^ (12 + 9 * level) mod 512.
Proof.
  intros. unfold PX, PXSHIFT, PGSHIFT, PXMASK. rewrite Z.shiftr_div_pow2 by lia.
  apply (land_ones_mod _ 9). lia.
Qed.

Lemma PX_range level va : 0 ≤ level → 0 ≤ PX level va < 512.
Proof. intros. rewrite PX_spec by done. apply Z.mod_pos_bound. lia. Qed.

Lemma MAXVA_val : MAXVA = 2 ^ 38.
Proof. reflexivity. Qed.

(** The three indices and the page offset determine an address below [MAXVA]. *)
Lemma va_split va :
  0 ≤ va < MAXVA →
  va = PX 2 va * 2 ^ 30 + PX 1 va * 2 ^ 21 + PX 0 va * 2 ^ 12 + va mod 4096.
Proof.
  rewrite MAXVA_val. intros. rewrite !PX_spec by lia. simpl Z.add. simpl Z.mul.
  change (2 ^ 30) with 1073741824; change (2 ^ 21) with 2097152; change (2 ^ 12) with 4096.
  change (2 ^ 38) with 274877906944 in *. zlia.
Qed.

(** Addresses below MAXVA use half of a root table. *)
Lemma PX_low va : 0 ≤ va < MAXVA → PX 2 va < 256.
Proof.
  rewrite MAXVA_val, PX_spec by lia. simpl Z.add. simpl Z.mul. change (2 ^ 38) with 274877906944.
  change (2 ^ 30) with 1073741824. intros. zlia.
Qed.

Lemma PX_inj va va' :
  0 ≤ va < MAXVA → 0 ≤ va' < MAXVA → va mod 4096 = 0 → va' mod 4096 = 0 →
  PX 2 va = PX 2 va' → PX 1 va = PX 1 va' → PX 0 va = PX 0 va' → va = va'.
Proof.
  intros Hv Hv' Ha Ha' H2 H1 H0. rewrite (va_split va Hv), (va_split va' Hv').
  rewrite H2, H1, H0, Ha, Ha'. done.
Qed.

Lemma PA2PTE_val pa : 0 ≤ pa < 2 ^ 56 → PA2PTE pa = pa / 4096 * 1024.
Proof.
  intros. unfold PA2PTE. rewrite Z.shiftl_mul_pow2, Z.shiftr_div_pow2 by lia.
  change (2 ^ 12) with 4096; change (2 ^ 10) with 1024.
  change (2 ^ 56) with 72057594037927936 in *.
  apply wrapu_id. change (2 ^ 64) with 18446744073709551616. zlia.
Qed.

Lemma PTE2PA_val pte : 0 ≤ pte < 2 ^ 54 → PTE2PA pte = pte / 1024 * 4096.
Proof.
  intros. unfold PTE2PA. rewrite Z.shiftl_mul_pow2, Z.shiftr_div_pow2 by lia.
  change (2 ^ 12) with 4096; change (2 ^ 10) with 1024.
  change (2 ^ 54) with 18014398509481984 in *.
  apply wrapu_id. change (2 ^ 64) with 18446744073709551616. zlia.
Qed.

(** A PTE built from an aligned page address and flags. *)
Definition mkpte (pa flags : Z) : Z := Z.lor (PA2PTE pa) flags.

Lemma mkpte_val pa f : 0 ≤ pa < 2 ^ 56 → 0 ≤ f < 1024 → mkpte pa f = pa / 4096 * 1024 + f.
Proof.
  intros. unfold mkpte. rewrite PA2PTE_val by done. by apply (lor_add_shift _ _ 10).
Qed.

Lemma mkpte_pa pa f :
  0 ≤ pa < 2 ^ 56 → pa mod 4096 = 0 → 0 ≤ f < 1024 → PTE2PA (mkpte pa f) = pa.
Proof.
  intros Hpa Hal Hf. rewrite (mkpte_val pa f Hpa Hf). change (2 ^ 56) with 72057594037927936 in *.
  rewrite PTE2PA_val; change (2 ^ 54) with 18014398509481984; zlia.
Qed.

Lemma mkpte_flags pa f : 0 ≤ pa < 2 ^ 56 → 0 ≤ f < 1024 → PTE_FLAGS (mkpte pa f) = f.
Proof.
  intros Hpa Hf. rewrite mkpte_val by done. unfold PTE_FLAGS.
  rewrite (land_ones_mod _ 10) by lia. zlia.
Qed.

Lemma mkpte_range pa f : 0 ≤ pa < 2 ^ 56 → 0 ≤ f < 1024 → 0 ≤ mkpte pa f < 2 ^ 54.
Proof.
  intros Hpa Hf. rewrite mkpte_val by done. change (2 ^ 56) with 72057594037927936 in *.
  change (2 ^ 54) with 18014398509481984. zlia.
Qed.

(** Flag tests see only the flag bits. *)
Lemma land_flags pte b : 0 ≤ b < 1024 → Z.land pte b = Z.land (PTE_FLAGS pte) b.
Proof.
  intros Hb. unfold PTE_FLAGS. rewrite <- Z.land_assoc. f_equal.
  rewrite Z.land_comm, (land_ones_mod _ 10) by lia. symmetry. by apply Z.mod_small.
Qed.
