(* ===== verification/CString.v ===== *)
(** * CString: the byte-string routines of kernel/string.c

    Memory is a function from addresses to bytes.  Every routine is the loop
    of the C source, run on memory.  The theorems give each routine's effect
    as a formula on the final memory: [memmove] copies correctly whatever the
    overlap of its arguments, [strncpy] pads with NULs, [safestrcpy] always
    NUL-terminates, [strncmp] decides equality of the strings it scans. *)

From S2P Require Import Prelude.

Abbreviation memory := (Z → Z).

Definition mupd (m : memory) (a v : Z) : memory := λ x, if x =? a then v else m x.

(** [memset]: store the byte [c] at [dst, dst+n). *)
Fixpoint memset_loop (m : memory) (cdst c i : Z) (k : nat) : memory :=
  match k with
  | O => m
  | S k' => memset_loop (mupd m (cdst + i) c) cdst c (i + 1) k'
  end.

Definition memset (m : memory) (dst c n : Z) : memory :=
  memset_loop m dst (u8 c) 0 (Z.to_nat (u32 n)).

(** [memcmp]: difference of the first differing bytes, 0 when there is none. *)
Fixpoint memcmp_loop (m : memory) (s1 s2 : Z) (n : nat) : Z :=
  match n with
  | O => 0
  | S n' => if negb (m s1 =? m s2) then m s1 - m s2 else memcmp_loop m (s1 + 1) (s2 + 1) n'
  end.

Definition memcmp (m : memory) (v1 v2 n : Z) : Z := memcmp_loop m v1 v2 (Z.to_nat (u32 n)).

(** [memmove]: backward copy when the source starts below the destination and
    overlaps it, forward copy otherwise. *)
Fixpoint move_back (m : memory) (d s : Z) (n : nat) : memory :=
  match n with
  | O => m
  | S n' => move_back (mupd m (d - 1) (m (s - 1))) (d - 1) (s - 1) n'
  end.

Fixpoint move_forth (m : memory) (d s : Z) (n : nat) : memory :=
  match n with
  | O => m
  | S n' => move_forth (mupd m d (m s)) (d + 1) (s + 1) n'
  end.

Definition memmove (m : memory) (dst src n : Z) : memory :=
  let n := u32 n in
  if n =? 0 then m
  else if (src <? dst) && (dst <? src + n)
  then move_back m (dst + n) (src + n) (Z.to_nat n)
  else move_forth m dst src (Z.to_nat n).

Definition memcpy (m : memory) (dst src n : Z) : memory := memmove m dst src n.

(** [strncmp]: skip equal non-NUL characters, then compare. *)
Fixpoint strncmp_loop (m : memory) (p q : Z) (n : nat) : Z :=
  match n with
  | O => 0
  | S n' => if ctrue (m p) && (m p =? m q) then strncmp_loop m (p + 1) (q + 1) n'
            else m p - m q
  end.

Definition strncmp (m : memory) (p q n : Z) : Z := strncmp_loop m p q (Z.to_nat (u32 n)).

(** [strncpy]: the first loop copies up to and including the NUL, the second
    one fills what is left of the [n] bytes. *)
Fixpoint strncpy_fill (m : memory) (s : Z) (n : nat) : memory :=
  match n with
  | O => m
  | S n' => strncpy_fill (mupd m s 0) (s + 1) n'
  end.

Fixpoint strncpy_copy (m : memory) (s t : Z) (n : nat) : memory :=
  match n with
  | O => m
  | S n' =>
      let c := m t in
      let m' := mupd m s c in
      if ctrue c then strncpy_copy m' (s + 1) (t + 1) n' else strncpy_fill m' (s + 1) n'
  end.

Definition strncpy (m : memory) (s t n : Z) : memory := strncpy_copy m s t (Z.to_nat n).

(** [safestrcpy]: copy at most [n-1] characters, then store a NUL. *)
Fixpoint safestrcpy_copy (m : memory) (s t : Z) (n : nat) : memory :=
  match n with
  | O => mupd m s 0
  | S n' =>
      let c := m t in
      let m' := mupd m s c in
      if ctrue c then safestrcpy_copy m' (s + 1) (t + 1) n' else mupd m' (s + 1) 0
  end.

Definition safestrcpy (m : memory) (s t n : Z) : memory :=
  if n <=? 0 then m else safestrcpy_copy m s t (Z.to_nat (n - 1)).

(** [strlen]: the kernel's longest string buffer is a page (the argument
    strings of exec), so the scan is given [PGSIZE] = 4096 steps; [None] means
    that no NUL was found in a page. *)
Fixpoint strlen_loop (m : memory) (s n : Z) (k : nat) : option Z :=
  match k with
  | O => None
  | S k' => if ctrue (m (s + n)) then strlen_loop m s (i32 (n + 1)) k' else Some n
  end.

Definition strlen (m : memory) (s : Z) : option Z := strlen_loop m s 0 (Z.to_nat 4096).

(** ** Arrays

    Where the arguments of a routine are local arrays, the routine is run on a
    memory that holds them: one array at address 0 and another at address 65536;
    [buf_of m n] is the array of [n] bytes at address 0. *)
Definition two_bufs (a b : list Z) : memory := λ x,
  if x <? 65536 then default 0 (a !! Z.to_nat x) else default 0 (b !! Z.to_nat (x - 65536)).
Definition buf_of (m : memory) (n : nat) : list Z := (λ i, m (Z.of_nat i)) <$> seq 0 n.

(** ** What the loops compute *)

Lemma mupd_eq m a v : mupd m a v a = v.
Proof. unfold mupd. by rewrite Z.eqb_refl. Qed.

Lemma mupd_ne m a v x : x ≠ a → mupd m a v x = m x.
Proof. intros. unfold mupd. destruct (Z.eqb_spec x a); congruence. Qed.

Lemma memset_loop_spec m d c i k x :
  memset_loop m d c i k x =
  if (d + i <=? x) && (x <? d + i + Z.of_nat k) then c else m x.
Proof.
  revert m i. induction k as [|k IH]; intros m i; simpl memset_loop.
  - destruct (Z.leb_spec (d + i) x), (Z.ltb_spec x (d + i + Z.of_nat 0)); simpl; lia || done.
  - rewrite IH. unfold mupd. rewrite Nat2Z.inj_succ.
    destruct (Z.leb_spec (d + (i + 1)) x), (Z.ltb_spec x (d + (i + 1) + Z.of_nat k)),
      (Z.leb_spec (d + i) x), (Z.ltb_spec x (d + i + Z.succ (Z.of_nat k))),
      (Z.eqb_spec x (d + i)); simpl; lia || done.
Qed.

Lemma memset_spec m dst c n x :
  0 ≤ n < 2 ^ 32 →
  memset m dst c n x = if (dst <=? x) && (x <? dst + n) then u8 c else m x.
Proof.
  intros Hn. unfold memset. rewrite memset_loop_spec, (wrapu_id 32) by done.
  by rewrite Z.add_0_r, Z2Nat.id by lia.
Qed.

Lemma move_forth_spec m d s n x :
  (d ≤ s ∨ s + Z.of_nat n ≤ d) →
  move_forth m d s n x =
  if (d <=? x) && (x <? d + Z.of_nat n) then m (s + (x - d)) else m x.
Proof.
  revert m d s. induction n as [|n IH]; intros m d s Hov; simpl move_forth.
  - destruct (Z.leb_spec d x), (Z.ltb_spec x (d + Z.of_nat 0)); simpl; lia || done.
  - rewrite Nat2Z.inj_succ in *. rewrite IH by lia. unfold mupd.
    destruct (Z.leb_spec (d + 1) x), (Z.ltb_spec x (d + 1 + Z.of_nat n)),
      (Z.leb_spec d x), (Z.ltb_spec x (d + Z.succ (Z.of_nat n))); simpl; try lia.
    + destruct (Z.eqb_spec (s + 1 + (x - (d + 1))) d); [lia|]. f_equal; lia.
    + destruct (Z.eqb_spec x d); [lia|done].
    + destruct (Z.eqb_spec x d); [|lia]. f_equal; lia.
    + destruct (Z.eqb_spec x d); [lia|done].
Qed.

Lemma move_back_spec m d s n x :
  (s ≤ d ∨ d + Z.of_nat n ≤ s) →
  move_back m (d + Z.of_nat n) (s + Z.of_nat n) n x =
  if (d <=? x) && (x <? d + Z.of_nat n) then m (s + (x - d)) else m x.
Proof.
  revert m. induction n as [|n IH]; intros m Hov; simpl move_back.
  - destruct (Z.leb_spec d x), (Z.ltb_spec x (d + Z.of_nat 0)); simpl; lia || done.
  - rewrite Nat2Z.inj_succ in *.
    replace (d + Z.succ (Z.of_nat n) - 1) with (d + Z.of_nat n) by lia.
    replace (s + Z.succ (Z.of_nat n) - 1) with (s + Z.of_nat n) by lia.
    rewrite IH by lia. unfold mupd.
    destruct (Z.leb_spec d x), (Z.ltb_spec x (d + Z.of_nat n)),
      (Z.ltb_spec x (d + Z.succ (Z.of_nat n))); simpl; try lia.
    + destruct (Z.eqb_spec (s + (x - d)) (d + Z.of_nat n)); [lia|done].
    + destruct (Z.eqb_spec x (d + Z.of_nat n)); [|lia]. f_equal; lia.
    + destruct (Z.eqb_spec x (d + Z.of_nat n)); [lia|done].
    + destruct (Z.eqb_spec x (d + Z.of_nat n)); [lia|done].
Qed.

(** [memmove] reads the old contents everywhere, whatever the overlap.  Also
    the lemma the rest of the kernel uses. *)
Lemma memmove_spec m dst src n x :
  0 ≤ n < 2 ^ 32 →
  memmove m dst src n x =
  if (dst <=? x) && (x <? dst + n) then m (src + (x - dst)) else m x.
Proof.
  intros Hn. unfold memmove. rewrite (wrapu_id 32) by done.
  destruct (Z.eqb_spec n 0) as [->|Hz].
  { destruct (Z.leb_spec dst x), (Z.ltb_spec x (dst + 0)); simpl; lia || done. }
  destruct (Z.ltb_spec src dst), (Z.ltb_spec dst (src + n)); simpl.
  2-4: rewrite move_forth_spec; rewrite ?Z2Nat.id by lia; [done|lia].
  pose proof (move_back_spec m dst src (Z.to_nat n) x) as H'.
  rewrite !Z2Nat.id in H' by lia. apply H'. lia.
Qed.

(** ** Strings

    [cstr m a l]: the NUL-terminated string [l] is stored at [a]. *)
Definition cstr (m : memory) (a : Z) (l : list Z) : Prop :=
  Forall (λ c, 0 < c < 256) l ∧
  (∀ i : nat, (i < length l)%nat → m (a + Z.of_nat i) = l !!! i) ∧
  m (a + Z.of_nat (length l)) = 0.

Lemma cstr_nil m a : cstr m a [] ↔ m a = 0.
Proof.
  unfold cstr. simpl. rewrite Z.add_0_r. split; [naive_solver|].
  intros. split_and!; [constructor|intros; lia|done].
Qed.

Lemma cstr_cons m a c l : cstr m a (c :: l) ↔ m a = c ∧ 0 < c < 256 ∧ cstr m (a + 1) l.
Proof.
  unfold cstr. rewrite Forall_cons. cbn [length]. split.
  - intros ([Hc Hl] & Hi & H0). split_and!; try lia; try done.
    + specialize (Hi 0%nat). simpl in Hi. rewrite Z.add_0_r in Hi. apply Hi. lia.
    + intros i Hlt. specialize (Hi (S i)). simpl in Hi. rewrite <- Hi by lia. f_equal. lia.
    + rewrite <- H0. f_equal. lia.
  - intros (Hc & Hr & Hl & Hi & H0). split_and!; try lia; try done.
    + intros [|i] Hlt; simpl; [by rewrite Z.add_0_r|].
      rewrite <- Hi by lia. f_equal. lia.
    + rewrite <- H0. f_equal. lia.
Qed.

Lemma cstr_ext m m' a l :
  (∀ x, a ≤ x ≤ a + Z.of_nat (length l) → m' x = m x) → cstr m a l → cstr m' a l.
Proof.
  intros Hx (Hl & Hi & H0). split_and!; [done| |].
  - intros i Hlt. rewrite Hx by lia. auto.
  - rewrite Hx by lia. done.
Qed.

(** The byte of a NUL-padded copy of [l] at position [i]. *)
Definition padded (l : list Z) (i : Z) : Z :=
  if (0 <=? i) && (i <? Z.of_nat (length l)) then l !!! Z.to_nat i else 0.

Lemma padded_cons_0 c l : padded (c :: l) 0 = c.
Proof. done. Qed.

Lemma padded_cons_S c l i : 0 < i → padded (c :: l) i = padded l (i - 1).
Proof.
  intros Hi. unfold padded. cbn [length]. rewrite Nat2Z.inj_succ.
  destruct (Z.leb_spec 0 i), (Z.ltb_spec i (Z.succ (Z.of_nat (length l)))),
    (Z.leb_spec 0 (i - 1)), (Z.ltb_spec (i - 1) (Z.of_nat (length l))); simpl; try lia; try done.
  replace (Z.to_nat i) with (S (Z.to_nat (i - 1))) by lia. done.
Qed.

Lemma padded_nil i : padded [] i = 0.
Proof. unfold padded. cbn [length]. destruct (Z.leb_spec 0 i), (Z.ltb_spec i (Z.of_nat 0)); simpl; try done; exfalso; lia. Qed.

Lemma strncpy_fill_spec m s n x :
  strncpy_fill m s n x = if (s <=? x) && (x <? s + Z.of_nat n) then 0 else m x.
Proof.
  revert m s. induction n as [|n IH]; intros m s; simpl strncpy_fill.
  - destruct (Z.leb_spec s x), (Z.ltb_spec x (s + Z.of_nat 0)); simpl; lia || done.
  - rewrite IH, Nat2Z.inj_succ. unfold mupd.
    destruct (Z.leb_spec (s + 1) x), (Z.ltb_spec x (s + 1 + Z.of_nat n)),
      (Z.leb_spec s x), (Z.ltb_spec x (s + Z.succ (Z.of_nat n))),
      (Z.eqb_spec x s); simpl; lia || done.
Qed.

Lemma strncpy_copy_spec m s t l n x :
  cstr m t l → (s + Z.of_nat n ≤ t ∨ t + Z.of_nat (length l) < s) →
  strncpy_copy m s t n x =
  if (s <=? x) && (x <? s + Z.of_nat n) then padded l (x - s) else m x.
Proof.
  revert m s t l. induction n as [|n IH]; intros m s t l Hl Hov; simpl strncpy_copy.
  - destruct (Z.leb_spec s x), (Z.ltb_spec x (s + Z.of_nat 0)); simpl; lia || done.
  - rewrite Nat2Z.inj_succ in *. destruct l as [|c l].
    + apply cstr_nil in Hl. rewrite Hl. simpl. rewrite strncpy_fill_spec, padded_nil. unfold mupd.
      destruct (Z.leb_spec (s + 1) x), (Z.ltb_spec x (s + 1 + Z.of_nat n)),
        (Z.leb_spec s x), (Z.ltb_spec x (s + Z.succ (Z.of_nat n))),
        (Z.eqb_spec x s); simpl; lia || done.
    + apply cstr_cons in Hl as (Hc & Hr & Hl). cbn [length] in Hov. rewrite Nat2Z.inj_succ in Hov.
      rewrite Hc. assert (ctrue c = true) as -> by (unfold ctrue; destruct (Z.eqb_spec c 0); [lia|done]).
      rewrite (IH _ _ _ l); [| |lia].
      2:{ eapply cstr_ext; [|done]. intros y Hy. apply mupd_ne. lia. }
      unfold mupd.
      destruct (Z.leb_spec (s + 1) x), (Z.ltb_spec x (s + 1 + Z.of_nat n)),
        (Z.leb_spec s x), (Z.ltb_spec x (s + Z.succ (Z.of_nat n))),
        (Z.eqb_spec x s); simpl; try lia; try done.
      * rewrite padded_cons_S by lia. f_equal. lia.
      * subst x. by rewrite Z.sub_diag.
Qed.

(** [strncpy(s, t, n)] stores in [s] the string at [t], cut to [n] bytes
    and padded with NULs to exactly [n] bytes, and changes nothing else. *)
Theorem strncpy_correct m s t n l :
  cstr m t l → 0 ≤ n → (s + n ≤ t ∨ t + Z.of_nat (length l) < s) →
  ∀ x, strncpy m s t n x = if (s <=? x) && (x <? s + n) then padded l (x - s) else m x.
Proof.
  intros Hl Hn Hov x. unfold strncpy.
  rewrite (strncpy_copy_spec _ _ _ l); rewrite ?Z2Nat.id by lia; done.
Qed.

Lemma safestrcpy_copy_spec m s t l n x :
  cstr m t l → (s + Z.of_nat n < t ∨ t + Z.of_nat (length l) < s) →
  (s ≤ x < s + Z.min (Z.of_nat n) (Z.of_nat (length l)) →
     safestrcpy_copy m s t n x = padded l (x - s)) ∧
  (x = s + Z.min (Z.of_nat n) (Z.of_nat (length l)) → safestrcpy_copy m s t n x = 0) ∧
  (x < s ∨ s + Z.of_nat n < x → safestrcpy_copy m s t n x = m x).
Proof.
  revert m s t l. induction n as [|n IH]; intros m s t l Hl Hov; simpl safestrcpy_copy.
  { rewrite Z.min_l by lia. split_and!; intros Hx; [lia| |].
    - subst x. rewrite Z.add_0_r. apply mupd_eq.
    - apply mupd_ne. lia. }
  rewrite Nat2Z.inj_succ in *. destruct l as [|c l].
  - apply cstr_nil in Hl. rewrite Hl. simpl in *. split_and!; intros Hx; [lia| |].
    + replace x with s by lia. rewrite mupd_ne by lia. apply mupd_eq.
    + rewrite !mupd_ne by lia. done.
  - apply cstr_cons in Hl as (Hc & Hr & Hl). cbn [length] in *. rewrite Nat2Z.inj_succ in *.
    rewrite Hc. assert (ctrue c = true) as -> by (unfold ctrue; destruct (Z.eqb_spec c 0); [lia|done]).
    destruct (IH (mupd m s c) (s + 1) (t + 1) l) as (H1 & H2 & H3); [|lia|].
    { eapply cstr_ext; [|done]. intros y Hy. apply mupd_ne. lia. }
    split_and!; intros Hx.
    + destruct (decide (x = s)) as [->|Hne].
      * rewrite Z.sub_diag, H3 by lia. apply mupd_eq.
      * rewrite H1 by lia. rewrite padded_cons_S by lia. f_equal. lia.
    + apply H2. lia.
    + rewrite H3 by lia. apply mupd_ne. lia.
Qed.

(** [safestrcpy(s, t, n)] leaves at [s] a NUL-terminated string: the first
    [n-1] characters (or all) of the string at [t]; it writes nowhere outside
    the [n] bytes of the destination. *)
Theorem safestrcpy_correct m s t n l :
  cstr m t l → 0 < n → (s + n ≤ t ∨ t + Z.of_nat (length l) < s) →
  cstr (safestrcpy m s t n) s (take (Z.to_nat (n - 1)) l) ∧
  ∀ x, x < s ∨ s + n ≤ x → safestrcpy m s t n x = m x.
Proof.
  intros Hl Hn Hov. unfold safestrcpy. destruct (Z.leb_spec n 0); [lia|].
  assert (∀ x, _) as Hsp by exact (λ x, safestrcpy_copy_spec m s t l (Z.to_nat (n - 1)) x Hl ltac:(lia)).
  rewrite Z2Nat.id in Hsp by lia.
  split; [split_and!|].
  - apply Forall_take. by apply Hl.
  - intros i Hi. rewrite length_take in Hi. rewrite (proj1 (Hsp _)) by lia.
    unfold padded. replace (s + Z.of_nat i - s) with (Z.of_nat i) by lia.
    destruct (Z.leb_spec 0 (Z.of_nat i)), (Z.ltb_spec (Z.of_nat i) (Z.of_nat (length l)));
      simpl; try lia.
    rewrite Nat2Z.id, !list_lookup_total_alt, lookup_take_lt by lia. done.
  - apply (Hsp _). rewrite length_take. lia.
  - intros x Hx. apply (Hsp _). lia.
Qed.

Lemma strncmp_loop_zero m p q l1 l2 n :
  cstr m p l1 → cstr m q l2 → strncmp_loop m p q n = 0 ↔ take n l1 = take n l2.
Proof.
  revert p q l1 l2. induction n as [|n IH]; intros p q l1 l2 H1 H2; simpl strncmp_loop; [done|].
  destruct l1 as [|c1 l1], l2 as [|c2 l2]; rewrite ?cstr_nil, ?cstr_cons in *.
  - rewrite H1, H2. done.
  - destruct H2 as (Hc2 & Hr2 & _). rewrite H1, Hc2. simpl.
    split; [lia|]. simpl. congruence.
  - destruct H1 as (Hc1 & Hr1 & _). rewrite H2, Hc1. unfold ctrue.
    destruct (Z.eqb_spec c1 0); [lia|]. simpl. split; [lia|congruence].
  - destruct H1 as (Hc1 & Hr1 & H1), H2 as (Hc2 & Hr2 & H2). rewrite Hc1, Hc2. unfold ctrue.
    destruct (Z.eqb_spec c1 0); [lia|]. simpl. destruct (Z.eqb_spec c1 c2) as [->|Hne].
    + rewrite (IH _ _ _ _ H1 H2). split; congruence.
    + split; [lia|congruence].
Qed.

(** [strncmp(p, q, n)] is 0 exactly when the two strings agree on their
    first [n] characters (and end together if they end before). *)
Theorem strncmp_zero_iff m p q n l1 l2 :
  cstr m p l1 → cstr m q l2 → 0 ≤ n < 2 ^ 32 →
  strncmp m p q n = 0 ↔ take (Z.to_nat n) l1 = take (Z.to_nat n) l2.
Proof.
  intros H1 H2 Hn. unfold strncmp. rewrite (wrapu_id 32) by done. by apply strncmp_loop_zero.
Qed.

(** [memmove(dst, src, n)] copies correctly whatever the overlap: byte [i]
    of the destination becomes the old byte [i] of the source, and nothing
    outside the destination changes. *)
Theorem memmove_correct m dst src n :
  0 ≤ n < 2 ^ 32 →
  (∀ i, 0 ≤ i < n → memmove m dst src n (dst + i) = m (src + i)) ∧
  (∀ x, x < dst ∨ dst + n ≤ x → memmove m dst src n x = m x).
Proof.
  intros Hn. split; intros x Hx; rewrite memmove_spec by done.
  - destruct (Z.leb_spec dst (dst + x)), (Z.ltb_spec (dst + x) (dst + n)); simpl; try lia.
    f_equal. lia.
  - destruct (Z.leb_spec dst x), (Z.ltb_spec x (dst + n)); simpl; lia || done.
Qed.

(** ** Examples *)

(** "ab" at 100, "abc" at 200. *)
Definition ex_mem : memory := λ x,
  if x =? 100 then 97 else if x =? 101 then 98 else
  if x =? 200 then 97 else if x =? 201 then 98 else if x =? 202 then 99 else 0.

Lemma ex_ab : cstr ex_mem 100 [97; 98].
Proof. rewrite !cstr_cons, cstr_nil. done. Qed.
Lemma ex_abc : cstr ex_mem 200 [97; 98; 99].
Proof. rewrite !cstr_cons, cstr_nil. done. Qed.

Lemma memmove_correct_witness :
  memmove ex_mem 101 100 2 101 = 97 ∧ memmove ex_mem 101 100 2 102 = 98 ∧
  memmove ex_mem 101 100 2 103 = 0.
Proof.
  destruct (memmove_correct ex_mem 101 100 2) as [H1 H2]; [lia|]. split_and!.
  - exact (H1 0 ltac:(lia)).
  - exact (H1 1 ltac:(lia)).
  - apply H2. lia.
Defined.

Lemma strncpy_correct_witness :
  strncpy ex_mem 300 100 14 301 = 98 ∧ strncpy ex_mem 300 100 14 313 = 0.
Proof.
  pose proof (strncpy_correct ex_mem 300 100 14 [97; 98] ex_ab ltac:(lia) ltac:(simpl; lia)) as H.
  split; [exact (H 301)|exact (H 313)].
Defined.

Lemma safestrcpy_correct_witness :
  cstr (safestrcpy ex_mem 300 200 3) 300 [97; 98] ∧
  ∀ x, x < 300 ∨ 303 ≤ x → safestrcpy ex_mem 300 200 3 x = ex_mem x.
Proof. exact (safestrcpy_correct ex_mem 300 200 3 [97; 98; 99] ex_abc ltac:(lia) ltac:(simpl; lia)). Defined.

Lemma strncmp_zero_iff_witness : strncmp ex_mem 100 200 2 = 0 ∧ strncmp ex_mem 100 200 3 ≠ 0.
Proof.
  split.
  - by apply (strncmp_zero_iff ex_mem 100 200 2 [97; 98] [97; 98; 99] ex_ab ex_abc ltac:(lia)).
  - intros E. apply (strncmp_zero_iff ex_mem 100 200 3 [97; 98] [97; 98; 99] ex_ab ex_abc ltac:(lia)) in E.
    discriminate.
Defined.
