(* ===== verification/State.v ===== *)
(** * State: the kernel's data

    The structures of kernel/proc.h and kernel/spinlock.h and the kernel's
    global variables, gathered in one record [kstate]: the machine (harts,
    their CSRs, the spinlocks), physical memory, the page allocator, the
    process table, the scheduler queues and the clock.  [K] is the kernel
    monad over this state. *)

From S2P Require Import Prelude Params CString.

(** ** Lock and sleep-channel identities

    A lock is identified by the object that embeds it, a channel by the object
    whose address is slept on. *)

Inductive sleeplockid :=
| SLBuf (i : nat)            (* bcache.buf[i].lock *)
| SLInode (i : nat).         (* itable.inode[i].lock *)

Inductive lockid :=
| LKmem                      (* kmem.lock *)
| LPid                       (* pid_lock *)
| LWait                      (* wait_lock *)
| LTicks                     (* tickslock *)
| LProc (i : nat)            (* proc[i].lock *)
| LBcache                    (* bcache.lock *)
| LLog                       (* log.lock *)
| LItable                    (* itable.lock *)
| LFtable                    (* ftable.lock *)
| LPr                        (* pr.lock *)
| LCons                      (* cons.lock *)
| LUart                      (* uart_tx_lock *)
| LVdisk                     (* disk.vdisk_lock *)
| LPipe (pi : Z)             (* pi->lock *)
| LSleep (sl : sleeplockid). (* the spinlock inside a sleeplock *)

Inductive chan :=
| ChProc (i : nat)           (* &proc[i] *)
| ChTicks                    (* &ticks *)
| ChLog                      (* &log *)
| ChSleep (sl : sleeplockid) (* a sleeplock *)
| ChBuf (i : nat)            (* &bcache.buf[i] *)
| ChDiskFree                 (* &disk.free[0] *)
| ChPipeR (pi : Z)           (* &pi->nread *)
| ChPipeW (pi : Z)           (* &pi->nwrite *)
| ChConsR                    (* &cons.r *)
| ChUartR.                   (* &uart_tx_r *)

#[export] Instance sleeplockid_eq_dec : EqDecision sleeplockid.
Proof. solve_decision. Defined.
#[export] Instance lockid_eq_dec : EqDecision lockid.
Proof. solve_decision. Defined.
#[export] Instance chan_eq_dec : EqDecision chan.
Proof. solve_decision. Defined.

#[export] Instance sleeplockid_countable : Countable sleeplockid.
Proof.
  refine (inj_countable'
    (λ x, match x with SLBuf i => inl i | SLInode i => inr i end)
    (λ x, match x with inl i => SLBuf i | inr i => SLInode i end) _).
  by intros [].
Defined.

#[export] Instance lockid_countable : Countable lockid.
Proof.
  refine (inj_countable'
    (λ x, match x with
      | LKmem => inl 0%nat | LPid => inl 1%nat | LWait => inl 2%nat | LTicks => inl 3%nat
      | LBcache => inl 4%nat | LLog => inl 5%nat | LItable => inl 6%nat | LFtable => inl 7%nat
      | LCons => inl 8%nat | LUart => inl 9%nat | LVdisk => inl 10%nat | LPr => inl 11%nat
      | LProc i => inr (inl (inl i)) | LPipe pi => inr (inl (inr pi)) | LSleep sl => inr (inr sl) end)
    (λ x, match x with
      | inl 0%nat => LKmem | inl 1%nat => LPid | inl 2%nat => LWait | inl 3%nat => LTicks
      | inl 4%nat => LBcache | inl 5%nat => LLog | inl 6%nat => LItable | inl 7%nat => LFtable
      | inl 8%nat => LCons | inl 9%nat => LUart | inl 10%nat => LVdisk | inl _ => LPr
      | inr (inl (inl i)) => LProc i | inr (inl (inr pi)) => LPipe pi | inr (inr sl) => LSleep sl end) _).
  by intros [].
Defined.

(** ** Harts *)

(** Saved registers for kernel context switches. *)
Record context := Context_ {
  ctx_ra : Z; ctx_sp : Z;
  ctx_s : list Z;            (* s0 .. s11 *)
}.
#[export] Instance context_settable : Settable context :=
  λ c, Context_ (ctx_ra c) (ctx_sp c) (ctx_s c).

(** Per-CPU state. *)
Record cpu := Cpu {
  c_proc : option nat;       (* the process running on this cpu, or null *)
  c_context : context;       (* swtch() here to enter scheduler() *)
  c_noff : Z;                (* depth of push_off() nesting *)
  c_intena : bool;           (* were interrupts enabled before push_off()? *)
}.
#[export] Instance cpu_settable : Settable cpu :=
  λ c, Cpu (c_proc c) (c_context c) (c_noff c) (c_intena c).

(** The supervisor registers of a hart that the C code reads and writes. *)
Record csr := Csr {
  r_sstatus : Z; r_sepc : Z; r_scause : Z; r_stval : Z;
  r_stvec : Z; r_satp : Z; r_sip : Z;
}.
#[export] Instance csr_settable : Settable csr :=
  λ c, Csr (r_sstatus c) (r_sepc c) (r_scause c) (r_stval c) (r_stvec c) (r_satp c) (r_sip c).

Definition context0 : context := Context_ 0 0 (replicate 12 0).
Definition cpu0 : cpu := Cpu None context0 0 false.
Definition csr0 : csr := Csr 0 0 0 0 0 0 0.

(** The machine as the executing hart [tp] sees it.  A spinlock whose
    [locked] is 1 and whose [cpu] is hart [h] is the binding of the lock to
    [h]; a free lock (locked = 0, cpu = 0) has no binding. *)
Record machine := Machine {
  m_tp : nat;
  m_cpus : list cpu;
  m_csrs : list csr;
  m_locks : gmap lockid nat;
}.
#[export] Instance machine_settable : Settable machine :=
  λ m, Machine (m_tp m) (m_cpus m) (m_csrs m) (m_locks m).

(** ** Processes *)

Inductive procstate := UNUSED | USED | SLEEPING | RUNNABLE | RUNNING | ZOMBIE.
#[export] Instance procstate_eq_dec : EqDecision procstate.
Proof. solve_decision. Defined.

(** [struct trapframe] has 36 uint64 fields; field k is at byte offset 8k. *)
Definition tf_words : nat := 36.
Definition TF_kernel_satp : Z := 0.
Definition TF_kernel_sp : Z := 8.
Definition TF_kernel_trap : Z := 16.
Definition TF_epc : Z := 24.
Definition TF_kernel_hartid : Z := 32.
Definition TF_sp : Z := 48.
Definition TF_a0 : Z := 112.
Definition TF_a1 : Z := 120.
Definition TF_a2 : Z := 128.
Definition TF_a3 : Z := 136.
Definition TF_a4 : Z := 144.
Definition TF_a5 : Z := 152.
Definition TF_a7 : Z := 168.

Record proc := Proc {
  p_state : procstate;
  p_chan : option chan;
  p_killed : Z;
  p_xstate : Z;
  p_pid : Z;
  p_parent : option nat;
  p_kstack : Z;
  p_sz : Z;
  p_pagetable : Z;
  p_trapframe : Z;
  p_context : context;
  p_ofile : list (option nat);
  p_cwd : option nat;
  p_name : list Z;
  p_trace_mask : Z;
  p_max_alarm_ticks : Z;
  p_alarm_ticks : Z;
  p_handler : Z;
  p_alarm_trap : list Z;     (* the 36 words of a struct trapframe *)
  p_rtime : Z;
  p_ctime : Z;
  p_etime : Z;
  p_stime : Z;
  p_sched_ct : Z;
  p_curr_wait_time : Z;
  p_in_queue : Z;
  p_queue_position : Z;
  p_ticks_used : Z;
  p_queue_time : list Z;
  p_queue_entry : Z;
  p_static_priority : Z;
  p_niceness : Z;
  p_tickets : Z;
}.
#[export] Instance proc_settable : Settable proc :=
  λ p, Proc (p_state p) (p_chan p) (p_killed p) (p_xstate p) (p_pid p) (p_parent p)
    (p_kstack p) (p_sz p) (p_pagetable p) (p_trapframe p) (p_context p) (p_ofile p)
    (p_cwd p) (p_name p) (p_trace_mask p) (p_max_alarm_ticks p) (p_alarm_ticks p)
    (p_handler p) (p_alarm_trap p) (p_rtime p) (p_ctime p) (p_etime p) (p_stime p)
    (p_sched_ct p) (p_curr_wait_time p) (p_in_queue p) (p_queue_position p)
    (p_ticks_used p) (p_queue_time p) (p_queue_entry p) (p_static_priority p)
    (p_niceness p) (p_tickets p).

(** A zero-initialised [struct proc]. *)
Definition proc0 : proc :=
  Proc UNUSED None 0 0 0 None 0 0 0 0 context0 (replicate NOFILE None) None (replicate 16 0)
    0 0 0 0 (replicate tf_words 0) 0 0 0 0 0 0 0 0 0 (replicate 5 0) 0 0 0 0.

(** ** Scheduler queues (kernel/queue.h) *)

Record queues := Queues {
  q_max_ticks : list Z;
  q_size : list Z;
  q_back : list Z;
  q_sched : list (list (option nat));    (* struct proc *sched_queue[5][NPROC] *)
}.
#[export] Instance queues_settable : Settable queues :=
  λ q, Queues (q_max_ticks q) (q_size q) (q_back q) (q_sched q).

(** ** The file system's data *)

Definition BSIZE : Z := 1024.
Definition NDIRECT : nat := 12.
Definition NINDIRECT : nat := 256.

(** [struct buf] (kernel/buf.h); the LRU links are the list [f_lru]. *)
Record buf := Buf {
  b_valid : bool;            (* has data been read from disk? *)
  b_disk : bool;             (* does disk "own" buf? *)
  b_dev : Z;
  b_blockno : Z;
  b_refcnt : Z;
  b_data : list Z;           (* BSIZE bytes *)
}.
#[export] Instance buf_settable : Settable buf :=
  λ b, Buf (b_valid b) (b_disk b) (b_dev b) (b_blockno b) (b_refcnt b) (b_data b).

(** [struct log] (kernel/log.c), with its logheader. *)
Record log := Log {
  lg_start : Z; lg_size : Z; lg_outstanding : Z; lg_committing : bool; lg_dev : Z;
  lg_n : Z;                  (* lh.n *)
  lg_block : list Z;         (* lh.block[LOGSIZE] *)
}.
#[export] Instance log_settable : Settable log :=
  λ l, Log (lg_start l) (lg_size l) (lg_outstanding l) (lg_committing l) (lg_dev l) (lg_n l) (lg_block l).

(** [struct superblock] (kernel/fs.h). *)
Record superblock := Superblock {
  sb_magic : Z; sb_size : Z; sb_nblocks : Z; sb_ninodes : Z; sb_nlog : Z;
  sb_logstart : Z; sb_inodestart : Z; sb_bmapstart : Z;
}.

(** [struct inode] (kernel/file.h). *)
Record inode := Inode {
  i_dev : Z; i_inum : Z; i_ref : Z; i_valid : bool;
  i_type : Z; i_major : Z; i_minor : Z; i_nlink : Z; i_size : Z;
  i_addrs : list Z;          (* addrs[NDIRECT+1] *)
}.
#[export] Instance inode_settable : Settable inode :=
  λ i, Inode (i_dev i) (i_inum i) (i_ref i) (i_valid i) (i_type i) (i_major i) (i_minor i)
    (i_nlink i) (i_size i) (i_addrs i).

(** [struct file] (kernel/file.h). *)
Inductive ftype := FD_NONE | FD_PIPE | FD_INODE | FD_DEVICE.
#[export] Instance ftype_eq_dec : EqDecision ftype.
Proof. solve_decision. Defined.

Record file := File {
  fl_type : ftype; fl_ref : Z; fl_readable : bool; fl_writable : bool;
  fl_pipe : Z; fl_ip : nat; fl_off : Z; fl_major : Z;
}.
#[export] Instance file_settable : Settable file :=
  λ f, File (fl_type f) (fl_ref f) (fl_readable f) (fl_writable f) (fl_pipe f) (fl_ip f)
    (fl_off f) (fl_major f).

(** [struct pipe] (kernel/pipe.c), at the start of a page. *)
Record pipe := Pipe {
  pi_data : list Z; pi_nread : Z; pi_nwrite : Z; pi_readopen : bool; pi_writeopen : bool;
}.
#[export] Instance pipe_settable : Settable pipe :=
  λ p, Pipe (pi_data p) (pi_nread p) (pi_nwrite p) (pi_readopen p) (pi_writeopen p).

(** What a virtio descriptor points at: a command header, the data of a buffer,
    a status byte, or nothing. *)
Inductive daddr := DNull | DOp (i : nat) | DData (b : nat) | DStatus (i : nat).
Record desc := Desc { d_addr : daddr; d_len : Z; d_flags : Z; d_next : Z }.

(** [struct disk] (kernel/virtio_disk.c): the descriptor table, the two rings
    shared with the device, and the driver's own book-keeping.  The writes to
    the device's registers are recorded in order. *)
Record vdisk := Vdisk {
  vd_desc : list desc;             (* desc[NUM] *)
  vd_avail_ring : list Z;          (* avail->ring[NUM] *)
  vd_avail_idx : Z;                (* avail->idx, 16 bits *)
  vd_used_ring : list Z;           (* used->ring[].id, written by the device *)
  vd_used_dev : Z;                 (* used->idx, written by the device *)
  vd_free : list bool;
  vd_used_idx : Z;
  vd_info_b : list (option nat);   (* info[].b *)
  vd_info_status : list Z;         (* info[].status *)
  vd_ops : list (Z * Z);           (* ops[].type and .sector *)
  vd_pages : Z * Z * Z;            (* addresses of the desc, avail and used pages *)
  vd_mmio : list (Z * Z);          (* register writes: offset, value *)
}.
#[export] Instance vdisk_settable : Settable vdisk :=
  λ d, Vdisk (vd_desc d) (vd_avail_ring d) (vd_avail_idx d) (vd_used_ring d) (vd_used_dev d)
    (vd_free d) (vd_used_idx d) (vd_info_b d) (vd_info_status d) (vd_ops d) (vd_pages d) (vd_mmio d).

Record fsstate := FsState {
  f_disk : Z → list Z;             (* the device: block contents *)
  f_vdisk : vdisk;
  f_bufs : list buf;               (* bcache.buf[NBUF] *)
  f_lru : list nat;                (* from bcache.head.next to bcache.head.prev *)
  f_sleep : gmap sleeplockid Z;    (* held sleeplocks, with the holder's pid *)
  f_log : log;
  f_sb : superblock;
  f_inodes : list inode;           (* itable.inode[NINODE] *)
  f_files : list file;             (* ftable.file[NFILE] *)
  f_pipes : gmap Z pipe;           (* pipes, by the address of their page *)
}.
#[export] Instance fsstate_settable : Settable fsstate :=
  λ f, FsState (f_disk f) (f_vdisk f) (f_bufs f) (f_lru f) (f_sleep f) (f_log f) (f_sb f)
    (f_inodes f) (f_files f) (f_pipes f).

(** ** The console and the UART *)

(** The console's input buffer, the UART's transmit buffer and the device: the
    bytes received and not read yet, the answers of the next polls of
    LSR_TX_IDLE, the bytes sent, and the writes to control registers (of the
    UART and of the PLIC) by address. *)
Record console := Console {
  cons_buf : list Z; cons_r : Z; cons_w : Z; cons_e : Z;
  cons_dev : bool;                 (* devsw[CONSOLE] is connected *)
  tx_buf : list Z; tx_w : Z; tx_r : Z;
  ua_in : list Z;
  ua_idle : list bool;
  ua_out : list Z;
  ua_mmio : list (Z * Z);
  ua_panicked : bool;              (* panicked, of printf.c *)
  pr_locking : bool;               (* pr.locking, of printf.c *)
}.
#[export] Instance console_settable : Settable console :=
  λ c, Console (cons_buf c) (cons_r c) (cons_w c) (cons_e c) (cons_dev c) (tx_buf c) (tx_w c) (tx_r c)
    (ua_in c) (ua_idle c) (ua_out c) (ua_mmio c) (ua_panicked c) (pr_locking c).

(** ** The whole state *)

(** An argument of printf: a number or a string. *)
Inductive parg := PInt (z : Z) | PStr (bs : list Z).

Record kstate := KState {
  k_mach : machine;
  k_mem : memory;                        (* physical memory *)
  k_freelist : Z;                        (* kmem.freelist *)
  k_refCount : Z → Z;                    (* refCount[], by page index *)
  k_procs : list proc;                   (* proc[NPROC] *)
  k_initproc : option nat;
  k_nextpid : Z;
  k_lfsr : Z;                            (* unsigned short lfsr *)
  k_bit : Z;                             (* unsigned bit *)
  k_ticks : Z;
  k_queues : queues;
  k_first : bool;                        (* static int first, in forkret() *)
  k_kernel_pagetable : Z;
  k_out : list (string * list parg);     (* calls of printf: format, arguments *)
  k_fs : fsstate;
  k_cons : console;
  k_irq : list Z;                        (* answers of the next reads of PLIC_SCLAIM *)
  k_started : bool;                      (* started, of main.c *)
}.
#[export] Instance kstate_settable : Settable kstate :=
  λ s, KState (k_mach s) (k_mem s) (k_freelist s) (k_refCount s) (k_procs s)
    (k_initproc s) (k_nextpid s) (k_lfsr s) (k_bit s) (k_ticks s) (k_queues s)
    (k_first s) (k_kernel_pagetable s) (k_out s) (k_fs s) (k_cons s) (k_irq s) (k_started s).

Abbreviation K := (KM kstate).
Abbreviation env := (list (kstate → kstate)).

(** The newline character of the C format strings. *)
Definition nl : string := String.String (Ascii.ascii_of_nat 10) String.EmptyString.

(** [printf(fmt, args)] as the rest of the kernel sees it: a record of the call. *)
Definition printk (fmt : string) (args : list parg) : K () :=
  modify (λ s, s <| k_out ::= λ o, o ++ [(fmt, args)] |>).

(** ** The loaded kernel image

    Zero-initialised data, with the initial values the C source gives. *)
Definition queues0 : queues :=
  Queues (replicate 5 0) (replicate 5 0) (replicate 5 0) (replicate 5 (replicate NPROC None)).

Definition machine0 : machine := Machine 0 (replicate NCPU cpu0) (replicate NCPU csr0) ∅.

Definition buf0 : buf := Buf false false 0 0 0 (replicate (Z.to_nat BSIZE) 0).
Definition inode0 : inode := Inode 0 0 0 false 0 0 0 0 0 (replicate (S NDIRECT) 0).
Definition file0 : file := File FD_NONE 0 false false 0 0 0 0.
Definition desc0 : desc := Desc DNull 0 0 0.
Definition vdisk0 : vdisk :=
  Vdisk (replicate 8 desc0) (replicate 8 0) 0 (replicate 8 0) 0 (replicate 8 false) 0
    (replicate 8 None) (replicate 8 0) (replicate 8 (0, 0)) (0, 0, 0) [].
Definition fsstate0 : fsstate :=
  FsState (λ _, replicate (Z.to_nat BSIZE) 0) vdisk0 (replicate NBUF buf0) [] ∅
    (Log 0 0 0 false 0 0 (replicate (Z.to_nat LOGSIZE) 0)) (Superblock 0 0 0 0 0 0 0 0)
    (replicate NINODE inode0) (replicate NFILE file0) ∅.
Definition console0 : console :=
  Console (replicate 128 0) 0 0 0 false (replicate 32 0) 0 0 [] [] [] [] false false.

Definition kstate0 : kstate :=
  KState machine0 (λ _, 0) 0 (λ _, 0) (replicate NPROC proc0) None 1 0xACE1 0 0 queues0 true 0 []
    fsstate0 console0 [] false.

(** A small machine for examples: the kernel leaves 16 pages to the allocator. *)
Definition small_image : Image :=
  Build_Image (PHYSTOP - 16 * 4096) (KERNBASE + 4096) KERNBASE KERNBASE KERNBASE KERNBASE KERNBASE KERNBASE 0.

Lemma small_image_ok : @ImageOK small_image.
Proof. split; cbn; unfold PHYSTOP, KERNBASE, PGSIZE; try lia; reflexivity. Qed.
