(* ===== verification/Spinlock.v ===== *)
(** * Spinlock: kernel/spinlock.c and the hart registers it uses

    Interrupt masking ([push_off]/[pop_off]), the spinlocks, and the lemmas by
    which the other components run their critical sections: acquiring a free
    lock, releasing a held one, and that a matched pair restores the machine.

    Module [Fine] is a finer model of the same [acquire]/[release] code, one
    memory access per step and any interleaving of the harts, in which mutual
    exclusion is proved. *)

From S2P Require Import Prelude Params CString State.

(** ** Registers of the executing hart *)

Definition cpu_of (m : machine) : cpu := nth (m_tp m) (m_cpus m) cpu0.
Definition csr_of (m : machine) : csr := nth (m_tp m) (m_csrs m) csr0.
Definition upd_cpu (f : cpu → cpu) (m : machine) : machine := m <| m_cpus ::= alter f (m_tp m) |>.
Definition upd_csr (f : csr → csr) (m : machine) : machine := m <| m_csrs ::= alter f (m_tp m) |>.

Definition read_csr {A} (f : csr → A) : K A := gets (λ s, f (csr_of (k_mach s))).
Definition write_csr (f : csr → csr) : K () := modify (λ s, s <| k_mach ::= upd_csr f |>).
Definition read_cpu {A} (f : cpu → A) : K A := gets (λ s, f (cpu_of (k_mach s))).
Definition write_cpu (f : cpu → cpu) : K () := modify (λ s, s <| k_mach ::= upd_cpu f |>).

(** [cpuid()]: the hart id kept in tp. *)
Definition cpuid : K nat := gets (λ s, m_tp (k_mach s)).

(** [intr_get], [intr_on], [intr_off]: the SIE bit of sstatus. *)
Definition intr_enabled (m : machine) : bool := ctrue (Z.land (r_sstatus (csr_of m)) SSTATUS_SIE).
Definition intr_get : K bool := gets (λ s, intr_enabled (k_mach s)).
Definition intr_on : K () := write_csr (λ c, c <| r_sstatus ::= λ x, Z.lor x SSTATUS_SIE |>).
Definition intr_off : K () := write_csr (λ c, c <| r_sstatus ::= λ x, Z.land x (Z.lnot SSTATUS_SIE) |>).

(** ** push_off and pop_off *)

Definition push_off : K () :=
  old ← intr_get;
  intr_off;;
  noff ← read_cpu c_noff;
  when (noff =? 0) (write_cpu (λ c, c <| c_intena := old |>));;
  write_cpu (λ c, c <| c_noff ::= λ n, n + 1 |>).

Definition pop_off : K () :=
  on ← intr_get;
  panic_if on "pop_off - interruptible";;
  noff ← read_cpu c_noff;
  panic_if (noff <? 1) "pop_off";;
  write_cpu (λ c, c <| c_noff ::= λ n, n - 1 |>);;
  noff ← read_cpu c_noff;
  intena ← read_cpu c_intena;
  when ((noff =? 0) && intena) intr_on.

(** ** Spinlocks *)

Definition initlock (l : lockid) : K () := modify (λ s, s <| k_mach ::= set m_locks (delete l) |>).

Definition holding (l : lockid) : K bool :=
  gets (λ s, bool_decide (m_locks (k_mach s) !! l = Some (m_tp (k_mach s)))).

(** The test-and-set loop; each failed attempt lets the environment run. *)
Definition spin (l : lockid) : K () :=
  while_ (λ _ : (),
    locked ← gets (λ s, bool_decide (is_Some (m_locks (k_mach s) !! l)));
    if locked : bool then interfere;; mret (inl ())
    else modify (λ s, s <| k_mach ::= λ m, m <| m_locks ::= insert l (m_tp m) |> |>);;
         mret (inr ())) ().

Definition acquire (l : lockid) : K () :=
  push_off;;
  h ← holding l;
  panic_if h "acquire";;
  spin l.

Definition release (l : lockid) : K () :=
  h ← holding l;
  panic_if (negb h) "release";;
  modify (λ s, s <| k_mach ::= set m_locks (delete l) |>);;
  pop_off.

(** ** Effect on the machine *)

(** The machine is usable: the executing hart exists, its nesting depth is not
    negative, and interrupts are off inside a [push_off]. *)
Definition wf_mach (m : machine) : Prop :=
  (m_tp m < length (m_cpus m))%nat ∧ (m_tp m < length (m_csrs m))%nat ∧
  0 ≤ c_noff (cpu_of m) ∧ (0 < c_noff (cpu_of m) → intr_enabled m = false).

(** [mpush]/[mpop] are what [push_off]/[pop_off] do, [mlock]/[munlock] what
    [acquire]/[release] of a free/held lock do. *)
Definition mpush (m : machine) : machine :=
  upd_cpu (λ c, (if c_noff c =? 0 then c <| c_intena := intr_enabled m |> else c)
                  <| c_noff ::= λ n, n + 1 |>)
    (upd_csr (λ c, c <| r_sstatus ::= λ x, Z.land x (Z.lnot SSTATUS_SIE) |>) m).

Definition mpop (m : machine) : machine :=
  (if (c_noff (cpu_of m) - 1 =? 0) && c_intena (cpu_of m)
   then upd_csr (λ c, c <| r_sstatus ::= λ x, Z.lor x SSTATUS_SIE |>) else λ m, m)
  (upd_cpu (λ c, c <| c_noff ::= λ n, n - 1 |>) m).

Definition mlock (l : lockid) (m : machine) : machine :=
  mpush m <| m_locks ::= insert l (m_tp m) |>.
Definition munlock (l : lockid) (m : machine) : machine :=
  mpop (m <| m_locks ::= delete l |>).

(** What a matched [push_off]/[pop_off] leaves behind: outside any nesting the
    saved [intena] is refreshed, everything else is restored. *)
Definition settle (m : machine) : machine :=
  if c_noff (cpu_of m) =? 0 then upd_cpu (λ c, c <| c_intena := intr_enabled m |>) m else m.

(** A lock no hart holds. *)
Definition lock_free (l : lockid) (m : machine) : Prop := m_locks m !! l = None.

Lemma nth_alter {A} (f : A → A) i (l : list A) d :
  (i < length l)%nat → nth i (alter f i l) d = f (nth i l d).
Proof.
  intros Hi. revert i Hi. induction l as [|x l IH]; intros [|i] Hi; simpl in *; try lia; [done|].
  apply IH. lia.
Qed.

Lemma cpu_of_upd_cpu f m : (m_tp m < length (m_cpus m))%nat → cpu_of (upd_cpu f m) = f (cpu_of m).
Proof. intros. unfold cpu_of, upd_cpu. cbn. by apply nth_alter. Qed.

Lemma csr_of_upd_csr f m : (m_tp m < length (m_csrs m))%nat → csr_of (upd_csr f m) = f (csr_of m).
Proof. intros. unfold csr_of, upd_csr. cbn. by apply nth_alter. Qed.

Lemma cpu_of_upd_csr f m : cpu_of (upd_csr f m) = cpu_of m.
Proof. done. Qed.
Lemma csr_of_upd_cpu f m : csr_of (upd_cpu f m) = csr_of m.
Proof. done. Qed.

Lemma alter_alter {A} (f g : A → A) i (l : list A) :
  alter f i (alter g i l) = alter (λ x, f (g x)) i l.
Proof. revert i. induction l as [|x l IH]; intros [|i]; simpl; [done..|]. f_equal. apply IH. Qed.

Lemma alter_ext_nth {A} (f g : A → A) i (l : list A) d :
  f (nth i l d) = g (nth i l d) → alter f i l = alter g i l.
Proof.
  revert i. induction l as [|x l IH]; intros [|i] H; simpl in *; [done..|by f_equal|].
  f_equal. by apply IH.
Qed.

Lemma alter_id_nth {A} (f : A → A) i (l : list A) d :
  f (nth i l d) = nth i l d → alter f i l = l.
Proof.
  revert i. induction l as [|x l IH]; intros [|i] H; simpl in *; [done..|by f_equal|].
  f_equal. by apply IH.
Qed.

Lemma sie_clear_bit x : ctrue (Z.land (Z.land x (Z.lnot SSTATUS_SIE)) SSTATUS_SIE) = false.
Proof.
  unfold ctrue. rewrite <- Z.land_assoc. replace (Z.land _ SSTATUS_SIE) with 0 by done.
  by rewrite Z.land_0_r.
Qed.

Lemma sie_restore_on x :
  ctrue (Z.land x SSTATUS_SIE) = true → Z.lor (Z.land x (Z.lnot SSTATUS_SIE)) SSTATUS_SIE = x.
Proof.
  unfold ctrue. intros H. breflect. unfold SSTATUS_SIE in *. change (Z.shiftl 1 1) with (2 ^ 1) in *.
  apply Z.bits_inj'. intros i Hi. rewrite Z.lor_spec, Z.land_spec, Z.lnot_spec by done.
  destruct (Z.eq_dec i 1) as [->|Hn].
  - rewrite Z.pow2_bits_true by lia. rewrite orb_true_r. destruct (Z.testbit x 1) eqn:E; [done|].
    exfalso. apply H. apply Z.bits_inj'. intros j Hj. rewrite Z.land_spec, Z.bits_0.
    destruct (Z.eq_dec j 1) as [->|]; [by rewrite E|]. rewrite Z.pow2_bits_false by lia.
    apply andb_false_r.
  - rewrite Z.pow2_bits_false by lia. simpl. by rewrite andb_true_r, orb_false_r.
Qed.

Lemma sie_restore_off x :
  ctrue (Z.land x SSTATUS_SIE) = false → Z.land x (Z.lnot SSTATUS_SIE) = x.
Proof.
  unfold ctrue. intros H. breflect. unfold SSTATUS_SIE in *. change (Z.shiftl 1 1) with (2 ^ 1) in *.
  apply Z.bits_inj'. intros i Hi. rewrite Z.land_spec, Z.lnot_spec by done.
  destruct (Z.eq_dec i 1) as [->|Hn].
  - assert (Z.testbit (Z.land x (2 ^ 1)) 1 = false) as E by (by rewrite H, Z.bits_0).
    rewrite Z.land_spec, Z.pow2_bits_true, andb_true_r in E by lia. by rewrite E.
  - rewrite Z.pow2_bits_false by lia. by rewrite andb_true_r.
Qed.

Section MachineLemmas.
Implicit Types (m : machine) (s : kstate) (e : env).

Lemma mpush_cpu m : wf_mach m →
  cpu_of (mpush m) = (if c_noff (cpu_of m) =? 0 then cpu_of m <| c_intena := intr_enabled m |>
                      else cpu_of m) <| c_noff ::= λ n, n + 1 |>.
Proof. intros (Hc & _). unfold mpush. rewrite cpu_of_upd_cpu by done. by rewrite cpu_of_upd_csr. Qed.

Lemma mpush_csr m : wf_mach m →
  csr_of (mpush m) = csr_of m <| r_sstatus ::= λ x, Z.land x (Z.lnot SSTATUS_SIE) |>.
Proof. intros (_ & Hc & _). unfold mpush. rewrite csr_of_upd_cpu. by rewrite csr_of_upd_csr. Qed.

Lemma mpush_noff m : wf_mach m → c_noff (cpu_of (mpush m)) = c_noff (cpu_of m) + 1.
Proof. intros Hwf. rewrite mpush_cpu by done. by destruct (_ =? 0). Qed.

Lemma mpush_intr m : wf_mach m → intr_enabled (mpush m) = false.
Proof. intros Hwf. unfold intr_enabled. rewrite mpush_csr by done. cbn. apply sie_clear_bit. Qed.

Lemma wf_mpush m : wf_mach m → wf_mach (mpush m).
Proof.
  intros Hwf. pose proof (mpush_noff m Hwf) as Hn. pose proof (mpush_intr m Hwf) as Hf.
  destruct Hwf as (Ht & Hc & H0 & Hi). unfold wf_mach. split_and!; [| |lia|done].
  all: unfold mpush, upd_cpu, upd_csr, set; cbn [m_cpus m_csrs m_tp]; by rewrite length_alter.
Qed.

Lemma mlock_cpu l m : cpu_of (mlock l m) = cpu_of (mpush m).
Proof. done. Qed.
Lemma mlock_csr l m : csr_of (mlock l m) = csr_of (mpush m).
Proof. done. Qed.
Lemma mlock_tp l m : m_tp (mlock l m) = m_tp m.
Proof. done. Qed.
Lemma mlock_locks l m : m_locks (mlock l m) = <[l := m_tp m]> (m_locks m).
Proof. done. Qed.

Lemma wf_mlock l m : wf_mach m → wf_mach (mlock l m).
Proof. apply wf_mpush. Qed.

Lemma mlock_intr l m : wf_mach m → intr_enabled (mlock l m) = false.
Proof. apply mpush_intr. Qed.

Lemma mlock_noff l m : wf_mach m → c_noff (cpu_of (mlock l m)) = c_noff (cpu_of m) + 1.
Proof. apply mpush_noff. Qed.

Lemma mlock_proc l m : wf_mach m → c_proc (cpu_of (mlock l m)) = c_proc (cpu_of m).
Proof. intros Hwf. rewrite mlock_cpu, mpush_cpu by done. by destruct (_ =? 0). Qed.

Lemma mlock_free l l' m : l ≠ l' → lock_free l' m → lock_free l' (mlock l m).
Proof. intros Hne Hf. unfold lock_free. rewrite mlock_locks. by rewrite lookup_insert_ne. Qed.

Lemma settle_locks m : m_locks (settle m) = m_locks m.
Proof. unfold settle. by destruct (_ =? 0). Qed.
Lemma settle_tp m : m_tp (settle m) = m_tp m.
Proof. unfold settle. by destruct (_ =? 0). Qed.
Lemma settle_csr m : csr_of (settle m) = csr_of m.
Proof. unfold settle. by destruct (_ =? 0). Qed.
Lemma settle_intr m : intr_enabled (settle m) = intr_enabled m.
Proof. unfold intr_enabled. by rewrite settle_csr. Qed.
Lemma settle_noff m : wf_mach m → c_noff (cpu_of (settle m)) = c_noff (cpu_of m).
Proof. intros (Ht & _). unfold settle. destruct (_ =? 0); [|done]. by rewrite cpu_of_upd_cpu. Qed.
Lemma settle_proc m : wf_mach m → c_proc (cpu_of (settle m)) = c_proc (cpu_of m).
Proof. intros (Ht & _). unfold settle. destruct (_ =? 0); [|done]. by rewrite cpu_of_upd_cpu. Qed.
Lemma settle_free l m : lock_free l m → lock_free l (settle m).
Proof. unfold lock_free. by rewrite settle_locks. Qed.

Lemma wf_settle m : wf_mach m → wf_mach (settle m).
Proof.
  intros Hwf. unfold wf_mach. rewrite settle_noff, settle_intr, settle_tp by done.
  destruct Hwf as (Ht & Hc & H0 & Hi). split_and!; try done.
  all: unfold settle; destruct (_ =? 0); [|done]; unfold upd_cpu, set; cbn [m_cpus m_csrs m_tp];
    by rewrite ?length_alter.
Qed.

Lemma settle_nested m : 0 < c_noff (cpu_of m) → settle m = m.
Proof. intros. unfold settle. destruct (Z.eqb_spec (c_noff (cpu_of m)) 0); [lia|done]. Qed.

Lemma settle_mlock l m : wf_mach m → settle (mlock l m) = mlock l m.
Proof.
  intros Hwf. apply settle_nested. rewrite mlock_noff by done. destruct Hwf as (_&_&?&_). lia.
Qed.

Lemma settle_settle m : wf_mach m → settle (settle m) = settle m.
Proof.
  intros Hwf. unfold settle at 1. rewrite settle_noff, settle_intr by done.
  unfold settle. destruct (c_noff (cpu_of m) =? 0) eqn:E; [|done].
  unfold upd_cpu, set. cbn [m_cpus m_csrs m_tp]. rewrite alter_alter. done.
Qed.

(** A matched pair restores the machine. *)
Lemma mpop_mpush m : wf_mach m → mpop (mpush m) = settle m.
Proof.
  intros Hwf. pose proof Hwf as (Ht & Hc & H0 & Hi).
  unfold mpop. rewrite mpush_cpu by done.
  unfold settle, mpush, upd_cpu, upd_csr, intr_enabled, cpu_of, csr_of in *.
  destruct m as [tp cs rs ls]. unfold set in *. cbn [m_cpus m_csrs m_tp m_locks c_noff c_intena c_proc r_sstatus] in *.
  destruct (Z.eqb_spec (c_noff (nth tp cs cpu0)) 0) as [E|E]; cbn [c_noff c_intena c_proc].
  - rewrite E. change (0 + 1 - 1 =? 0) with true. cbn [andb].
    destruct (ctrue (Z.land (r_sstatus (nth tp rs csr0)) SSTATUS_SIE)) eqn:Ei;
      cbn [m_cpus m_csrs m_tp m_locks]; rewrite !alter_alter; f_equal.
    1,3: apply (alter_ext_nth _ _ _ _ cpu0); rewrite E; destruct (nth tp cs cpu0); cbn in *; by subst.
    all: apply (alter_id_nth _ _ _ csr0); destruct (nth tp rs csr0); cbn in *; f_equal.
    + by apply sie_restore_on.
    + by apply sie_restore_off.
  - destruct (Z.eqb_spec (c_noff (nth tp cs cpu0) + 1 - 1) 0); [lia|]. cbn [andb m_cpus m_csrs m_tp m_locks].
    rewrite !alter_alter. f_equal.
    + apply (alter_id_nth _ _ _ cpu0). destruct (Z.eqb_spec (c_noff (nth tp cs cpu0)) 0); [lia|].
      destruct (nth tp cs cpu0); cbn in *. f_equal. lia.
    + apply (alter_id_nth _ _ _ csr0). destruct (nth tp rs csr0); cbn in *. f_equal.
      apply sie_restore_off. apply Hi. lia.
Qed.

Lemma munlock_mlock l m : wf_mach m → lock_free l m → munlock l (mlock l m) = settle m.
Proof.
  intros Hwf Hf. rewrite <- mpop_mpush by done. unfold munlock. f_equal.
  unfold mlock, set. cbn [m_locks m_tp m_cpus m_csrs].
  change (m_locks (mpush m)) with (m_locks m). rewrite delete_insert_id by done. done.
Qed.

(** What [munlock] does to each part of the machine. *)
Lemma mpop_tp m : m_tp (mpop m) = m_tp m.
Proof. unfold mpop. by destruct (_ && _). Qed.
Lemma mpop_locks m : m_locks (mpop m) = m_locks m.
Proof. unfold mpop. by destruct (_ && _). Qed.
Lemma mpop_cpu m : wf_mach m → cpu_of (mpop m) = cpu_of m <| c_noff ::= λ n, n - 1 |>.
Proof.
  intros (Ht & _). unfold mpop.
  destruct (_ && _); [rewrite cpu_of_upd_csr|]; by rewrite cpu_of_upd_cpu.
Qed.
Lemma munlock_tp l m : m_tp (munlock l m) = m_tp m.
Proof. unfold munlock. by rewrite mpop_tp. Qed.
Lemma munlock_locks l m : m_locks (munlock l m) = delete l (m_locks m).
Proof. unfold munlock. by rewrite mpop_locks. Qed.
Lemma munlock_cpu l m : wf_mach m → cpu_of (munlock l m) = cpu_of m <| c_noff ::= λ n, n - 1 |>.
Proof. intros Hwf. unfold munlock. by rewrite mpop_cpu. Qed.

Lemma wf_munlock l m : wf_mach m → 0 < c_noff (cpu_of m) → wf_mach (munlock l m).
Proof.
  intros Hwf Hn. unfold wf_mach. rewrite munlock_cpu, munlock_tp by done.
  destruct Hwf as (Ht & Hc & H0 & Hi). specialize (Hi Hn).
  split_and!; [| |change (0 ≤ c_noff (cpu_of m) - 1); lia|].
  - unfold munlock, mpop, upd_cpu, upd_csr, set. destruct (_ && _); cbn; by rewrite length_alter.
  - unfold munlock, mpop, upd_cpu, upd_csr, set. destruct (_ && _); cbn; by rewrite ?length_alter.
  - change (0 < c_noff (cpu_of m) - 1 → intr_enabled (munlock l m) = false).
    intros Hn1. unfold munlock, mpop.
    change (cpu_of (m <| m_locks ::= delete l |>)) with (cpu_of m).
    destruct (Z.eqb_spec (c_noff (cpu_of m) - 1) 0); [lia|]. exact Hi.
Qed.

Lemma k_mach_upd f s : k_mach (s <| k_mach ::= f |>) = f (k_mach s).
Proof. done. Qed.

Lemma k_mach_upd2 f g s : s <| k_mach ::= f |> <| k_mach ::= g |> = s <| k_mach ::= λ m, g (f m) |>.
Proof. done. Qed.

Lemma k_mach_ext f g s : f (k_mach s) = g (k_mach s) → s <| k_mach ::= f |> = s <| k_mach ::= g |>.
Proof. intros H. unfold set. by rewrite H. Qed.

Lemma upd_cpu_ext f g m : f (cpu_of m) = g (cpu_of m) → upd_cpu f m = upd_cpu g m.
Proof. intros H. unfold upd_cpu, set. f_equal. by apply (alter_ext_nth _ _ _ _ cpu0). Qed.

Lemma upd_cpu_upd_cpu f g m : upd_cpu f (upd_cpu g m) = upd_cpu (λ c, f (g c)) m.
Proof. unfold upd_cpu, set. cbn [m_tp m_cpus m_csrs m_locks]. by rewrite alter_alter. Qed.

Lemma read_cpu_bind {A B} (f : cpu → A) (k : A → K B) e s :
  (read_cpu f ≫= k) e s = k (f (cpu_of (k_mach s))) e s.
Proof. done. Qed.
Lemma write_cpu_run f e s : write_cpu f e s = Ret () e (s <| k_mach ::= upd_cpu f |>).
Proof. done. Qed.
Lemma write_cpu_bind {B} f (k : () → K B) e s :
  (write_cpu f ≫= k) e s = k () e (s <| k_mach ::= upd_cpu f |>).
Proof. done. Qed.
Lemma read_csr_bind {A B} (f : csr → A) (k : A → K B) e s :
  (read_csr f ≫= k) e s = k (f (csr_of (k_mach s))) e s.
Proof. done. Qed.
Lemma write_csr_run f e s : write_csr f e s = Ret () e (s <| k_mach ::= upd_csr f |>).
Proof. done. Qed.
Lemma write_csr_bind {B} f (k : () → K B) e s :
  (write_csr f ≫= k) e s = k () e (s <| k_mach ::= upd_csr f |>).
Proof. done. Qed.
Lemma intr_get_bind {B} (k : bool → K B) e s :
  (intr_get ≫= k) e s = k (intr_enabled (k_mach s)) e s.
Proof. done. Qed.
Lemma holding_bind {B} l (k : bool → K B) e s :
  (holding l ≫= k) e s =
  k (bool_decide (m_locks (k_mach s) !! l = Some (m_tp (k_mach s)))) e s.
Proof. done. Qed.
#[local] Hint Rewrite @read_cpu_bind write_cpu_run @write_cpu_bind @read_csr_bind write_csr_run
  @write_csr_bind @intr_get_bind @holding_bind k_mach_upd k_mach_upd2 : krun.

(** [acquire] of a free lock and [release] of a held one as equations. *)
Lemma push_off_Ret e s : wf_mach (k_mach s) →
  push_off e s = Ret () e (s <| k_mach ::= mpush |>).
Proof.
  intros (Ht & Hc & H0 & Hi). unfold push_off, intr_off. krun.
  rewrite cpu_of_upd_csr. unfold mpush.
  destruct (c_noff (cpu_of (k_mach s)) =? 0) eqn:E; f_equal; apply k_mach_ext;
    rewrite ?upd_cpu_upd_cpu; apply upd_cpu_ext; by rewrite cpu_of_upd_csr, E.
Qed.

Lemma pop_off_Ret e s : wf_mach (k_mach s) → 0 < c_noff (cpu_of (k_mach s)) →
  pop_off e s = Ret () e (s <| k_mach ::= mpop |>).
Proof.
  intros (Ht & Hc & H0 & Hi) Hn. unfold pop_off, intr_on. krun.
  rewrite Hi by done. destruct (Z.ltb_spec (c_noff (cpu_of (k_mach s))) 1); [lia|].
  krun. rewrite !cpu_of_upd_cpu by done. unfold mpop.
  change (c_noff (cpu_of (k_mach s) <| c_noff ::= λ n, n - 1 |>)) with (c_noff (cpu_of (k_mach s)) - 1).
  change (c_intena (cpu_of (k_mach s) <| c_noff ::= λ n, n - 1 |>)) with (c_intena (cpu_of (k_mach s))).
  destruct (_ && _) eqn:E; f_equal; apply k_mach_ext; cbv beta; by rewrite E.
Qed.

Lemma acquire_free l e s : wf_mach (k_mach s) → lock_free l (k_mach s) →
  acquire l e s = Ret () e (s <| k_mach ::= mlock l |>).
Proof.
  intros Hwf Hf. unfold acquire. run (push_off_Ret e s Hwf). krun.
  assert (m_locks (mpush (k_mach s)) !! l = None) as Hl by exact Hf.
  rewrite (bool_decide_false (m_locks (mpush (k_mach s)) !! l = Some (m_tp (mpush (k_mach s)))))
    by (rewrite Hl; discriminate).
  unfold spin. eapply while_runs; [apply runs_done|lia]. krun.
  rewrite bool_decide_false by (rewrite Hl; by intros [? [=]]). by krun.
Qed.

Lemma release_held l e s : wf_mach (k_mach s) → 0 < c_noff (cpu_of (k_mach s)) →
  m_locks (k_mach s) !! l = Some (m_tp (k_mach s)) →
  release l e s = Ret () e (s <| k_mach ::= munlock l |>).
Proof.
  intros Hwf Hn Hl. unfold release. krun. rewrite bool_decide_true by done. cbn [negb].
  by rewrite pop_off_Ret.
Qed.

(** The end of a critical section: whatever the section did to the rest of the
    state, releasing leaves the machine as it was before the [acquire]. *)
Lemma release_after l e s m :
  k_mach s = mlock l m → wf_mach m → lock_free l m →
  release l e s = Ret () e (s <| k_mach := settle m |>).
Proof.
  intros Hm Hwf Hf.
  rewrite release_held; rewrite ?Hm.
  - f_equal. unfold set. rewrite Hm. by rewrite munlock_mlock.
  - by apply wf_mlock.
  - rewrite mlock_noff by done. destruct Hwf as (_&_&?&_). lia.
  - rewrite mlock_locks, mlock_tp. apply lookup_insert_eq.
Qed.
End MachineLemmas.

#[export] Hint Rewrite @read_cpu_bind write_cpu_run @write_cpu_bind @read_csr_bind write_csr_run
  @write_csr_bind @intr_get_bind @holding_bind k_mach_upd k_mach_upd2 : krun.
#[export] Hint Resolve wf_mlock wf_settle settle_free mlock_free : kernel.

(** Run an [acquire] of a free lock, or the matching [release]. *)
Ltac run_acquire :=
  rewrite (bind_Ret _ _ _ _ _ _ _ (acquire_free _ _ _ ltac:(eauto with kernel) ltac:(eauto with kernel))).

(** ** Mutual exclusion, one memory access at a time

    One lock and any number of harts.  Each hart runs the code of [acquire]
    and [release]; a step is one access to [lk->locked] or [lk->cpu] by one
    hart, in any order.  [holding] is the two reads it is in C, so its answer
    can be stale with respect to the other harts. *)
Module Fine.

Inductive pc :=
| Idle               (* does not use the lock *)
| AcqHoldLocked      (* acquire: holding() reads lk->locked *)
| AcqHoldCpu         (* acquire: holding() reads lk->cpu *)
| AcqSwap            (* acquire: the test-and-set loop *)
| AcqSetCpu          (* acquire: lk->cpu = mycpu() *)
| Crit               (* in the critical section *)
| RelHoldLocked      (* release: holding() reads lk->locked *)
| RelHoldCpu         (* release: holding() reads lk->cpu *)
| RelClearCpu        (* release: lk->cpu = 0 *)
| RelUnlock          (* release: lk->locked = 0 *)
| Panicked.

Record state := State {
  locked : bool;
  lcpu : option nat;
  at_ : nat → pc;
}.

Definition goto (s : state) (h : nat) (p : pc) : state :=
  State (locked s) (lcpu s) (λ h', if decide (h' = h) then p else at_ s h').

Definition with_locked (s : state) (b : bool) : state := State b (lcpu s) (at_ s).
Definition with_lcpu (s : state) (c : option nat) : state := State (locked s) c (at_ s).

Inductive step : state → state → Prop :=
| call_acquire s h : at_ s h = Idle → step s (goto s h AcqHoldLocked)
| acq_hold_locked s h : at_ s h = AcqHoldLocked →
    step s (goto s h (if locked s then AcqHoldCpu else AcqSwap))
| acq_hold_cpu s h : at_ s h = AcqHoldCpu →
    step s (goto s h (if decide (lcpu s = Some h) then Panicked else AcqSwap))
| acq_swap s h : at_ s h = AcqSwap →
    step s (goto (with_locked s true) h (if locked s then AcqSwap else AcqSetCpu))
| acq_set_cpu s h : at_ s h = AcqSetCpu →
    step s (goto (with_lcpu s (Some h)) h Crit)
| call_release s h : at_ s h = Crit → step s (goto s h RelHoldLocked)
| rel_hold_locked s h : at_ s h = RelHoldLocked →
    step s (goto s h (if locked s then RelHoldCpu else Panicked))
| rel_hold_cpu s h : at_ s h = RelHoldCpu →
    step s (goto s h (if decide (lcpu s = Some h) then RelClearCpu else Panicked))
| rel_clear_cpu s h : at_ s h = RelClearCpu →
    step s (goto (with_lcpu s None) h RelUnlock)
| rel_unlock s h : at_ s h = RelUnlock →
    step s (goto (with_locked s false) h Idle).

(** [initlock], with every hart outside. *)
Definition init : state := State false None (λ _, Idle).

Inductive reachable : state → Prop :=
| reach_init : reachable init
| reach_step s s' : reachable s → step s s' → reachable s'.

(** Between the successful swap and the unlock a hart owns [locked]; between
    the two writes of [lk->cpu] it also owns that field. *)
Definition owns (p : pc) : bool :=
  match p with
  | AcqSetCpu | Crit | RelHoldLocked | RelHoldCpu | RelClearCpu | RelUnlock => true
  | _ => false
  end.
Definition named (p : pc) : bool :=
  match p with Crit | RelHoldLocked | RelHoldCpu | RelClearCpu => true | _ => false end.

Record inv (s : state) : Prop := Inv {
  inv_locked : ∀ h, owns (at_ s h) = true → locked s = true;
  inv_unique : ∀ h h', owns (at_ s h) = true → owns (at_ s h') = true → h = h';
  inv_cpu : ∀ h, lcpu s = Some h ↔ named (at_ s h) = true;
  inv_panic : ∀ h, at_ s h ≠ Panicked;
}.

Lemma named_owns p : named p = true → owns p = true.
Proof. by destruct p. Qed.

(** A step that moves hart [h] and keeps what it owns keeps the invariant. *)
Lemma inv_goto_same s h p :
  inv s → owns p = owns (at_ s h) → named p = named (at_ s h) → p ≠ Panicked → inv (goto s h p).
Proof.
  intros [Hl Hu Hc Hp] Ho Hn Hpn. split; cbn.
  - intros h'. case_decide; subst; rewrite ?Ho; eauto.
  - intros h1 h2. repeat case_decide; subst; rewrite ?Ho; eauto.
  - intros h'. rewrite Hc. case_decide; subst; rewrite ?Hn; done.
  - intros h'. case_decide; subst; [done|apply Hp].
Qed.

Lemma inv_step s s' : inv s → step s s' → inv s'.
Proof.
  intros HI Hs. pose proof HI as [Hl Hu Hc Hp]. inversion Hs as [? h E|? h E|? h E|? h E|? h E|? h E|? h E|? h E|? h E|? h E];
    subst; clear Hs.
  - apply inv_goto_same; rewrite ?E; done.
  - apply inv_goto_same; rewrite ?E; by destruct (locked s).
  - case_decide as Hd; [apply Hc in Hd; by rewrite E in Hd|].
    apply inv_goto_same; rewrite ?E; done.
  - destruct (locked s) eqn:El.
    + replace (with_locked s true) with s by (destruct s; cbn in *; by subst).
      apply inv_goto_same; rewrite ?E; done.
    + assert (∀ h', owns (at_ s h') = false) as Hno.
      { intros h'. destruct (owns (at_ s h')) eqn:Eo; [|done]. apply Hl in Eo. congruence. }
      split; cbn.
      * done.
      * intros h1 h2. repeat case_decide; subst; rewrite ?Hno; done.
      * intros h'. rewrite Hc. case_decide; subst; [by rewrite E|done].
      * intros h'. case_decide; subst; [done|apply Hp].
  - assert (∀ h', h' ≠ h → owns (at_ s h') = false) as Hno.
    { intros h' Hne. destruct (owns (at_ s h')) eqn:Eo; [|done].
      destruct Hne. apply Hu; [done|by rewrite E]. }
    assert (locked s = true) as Hlk by (apply (Hl h); by rewrite E).
    split; cbn.
    + done.
    + intros h1 h2. repeat case_decide; subst; rewrite ?Hno by done; done.
    + intros h'. case_decide as Hd; [by subst|].
      split; [congruence|]. intros Hn. apply named_owns in Hn. by rewrite Hno in Hn.
    + intros h'. case_decide; subst; [done|apply Hp].
  - apply inv_goto_same; rewrite ?E; done.
  - rewrite (Hl h) by (by rewrite E). apply inv_goto_same; rewrite ?E; done.
  - case_decide as Hd; [|destruct Hd; apply Hc; by rewrite E].
    apply inv_goto_same; rewrite ?E; done.
  - assert (∀ h', h' ≠ h → named (at_ s h') = false) as Hno.
    { intros h' Hne. destruct (named (at_ s h')) eqn:Eo; [|done].
      destruct Hne. apply named_owns in Eo. apply Hu; [done|by rewrite E]. }
    split; cbn.
    + intros h'. case_decide; subst; [|eauto]. intros _. apply (Hl h). by rewrite E.
    + intros h1 h2. repeat case_decide; subst; intros; try done; apply Hu; rewrite ?E; done.
    + intros h'. case_decide as Hd; [by subst|]. by rewrite Hno.
    + intros h'. case_decide; subst; [done|apply Hp].
  - assert (∀ h', h' ≠ h → owns (at_ s h') = false) as Hno.
    { intros h' Hne. destruct (owns (at_ s h')) eqn:Eo; [|done].
      destruct Hne. apply Hu; [done|by rewrite E]. }
    split; cbn.
    + intros h'. case_decide; [done|]. by rewrite Hno.
    + intros h1 h2. repeat case_decide; subst; rewrite ?Hno by done; done.
    + intros h'. rewrite Hc. case_decide; subst; [by rewrite E|done].
    + intros h'. case_decide; subst; [done|apply Hp].
Qed.

Lemma reachable_inv s : reachable s → inv s.
Proof.
  induction 1 as [|s s' _ IH Hs]; [|by eapply inv_step].
  split; cbn; try done.
Qed.

(** C15: mutual exclusion of [acquire]/[release] under every interleaving of
    the harts' memory accesses: two harts are never both in the critical
    section, no hart ever runs into the panics of [acquire] and [release]
    although [holding] reads the lock in two steps, and a hart inside always
    finds the lock marked with its own cpu. *)
Theorem spinlock_mutual_exclusion s :
  reachable s →
  (∀ h h', at_ s h = Crit → at_ s h' = Crit → h = h') ∧
  (∀ h, at_ s h ≠ Panicked) ∧
  (∀ h, at_ s h = Crit → locked s = true ∧ lcpu s = Some h).
Proof.
  intros Hr. apply reachable_inv in Hr as [Hl Hu Hc Hp]. split_and!; [|done|].
  - intros h h' E E'. apply Hu; by rewrite ?E, ?E'.
  - intros h E. split; [apply (Hl h); by rewrite E|]. apply Hc. by rewrite E.
Qed.


Lemma spinlock_mutual_exclusion_witness :
  ∃ s, reachable s ∧ at_ s 1%nat = Crit ∧ at_ s 0%nat = AcqSwap ∧ locked s = true ∧ lcpu s = Some 1%nat.
Proof.
  assert (Hr : reachable (goto (goto (goto (goto (with_lcpu (goto (with_locked (goto (goto init 1
    AcqHoldLocked) 1 AcqSwap) true) 1 AcqSetCpu) (Some 1%nat)) 1 Crit) 0 AcqHoldLocked) 0 AcqHoldCpu)
    0 AcqSwap)).
  { eapply reach_step; [|by apply acq_hold_cpu].
    eapply reach_step; [|by apply acq_hold_locked].
    eapply reach_step; [|by apply call_acquire].
    eapply reach_step; [|by apply acq_set_cpu].
    eapply reach_step; [|by apply acq_swap].
    eapply reach_step; [|by apply acq_hold_locked].
    eapply reach_step; [apply reach_init|by apply call_acquire]. }
  refine (ex_intro _ _ (conj Hr (conj eq_refl (conj eq_refl _)))).
  exact (proj2 (proj2 (spinlock_mutual_exclusion _ Hr)) 1%nat eq_refl).
Defined.
End Fine.
