(* ===== verification/PhysMem.v ===== *)
(** * PhysMem: kernel loads and stores

    The kernel reads and writes RAM through the direct map: an access outside
    RAM (a null pointer in particular) faults.  Multi-byte objects are stored
    in little-endian order, byte by byte, so that the same memory holds
    page-table entries, free-list links, trapframes and user data. *)

From S2P Require Import Prelude Params CString State.

Fixpoint le_load (m : memory) (a : Z) (n : nat) : Z :=
  match n with
  | O => 0
  | S n' => m a + 256 * le_load m (a + 1) n'
  end.

Fixpoint le_store (m : memory) (a v : Z) (n : nat) : memory :=
  match n with
  | O => m
  | S n' => le_store (mupd m a (v mod 256)) (a + 1) (v / 256) n'
  end.

Abbreviation le64 := (λ m a, le_load m a 8).

Definition in_ram (a n : Z) : bool := (KERNBASE <=? a) && (a + n <=? PHYSTOP).

Definition ld8 (a : Z) : K Z := check (in_ram a 1) "load";; gets (λ s, k_mem s a).
Definition st8 (a v : Z) : K () := check (in_ram a 1) "store";; modify (λ s, s <| k_mem ::= λ m, mupd m a (u8 v) |>).
Definition ld64 (a : Z) : K Z := check (in_ram a 8) "load";; gets (λ s, le_load (k_mem s) a 8).
Definition st64 (a v : Z) : K () :=
  check (in_ram a 8) "store";; modify (λ s, s <| k_mem ::= λ m, le_store m a v 8 |>).

(** [memset] and [memmove] on kernel addresses. *)
Definition kmemset (dst c n : Z) : K () :=
  check ((n =? 0) || in_ram dst n) "memset";; modify (λ s, s <| k_mem ::= λ m, memset m dst c n |>).
Definition kmemmove (dst src n : Z) : K () :=
  check ((n =? 0) || (in_ram dst n && in_ram src n)) "memmove";;
  modify (λ s, s <| k_mem ::= λ m, memmove m dst src n |>).

(** ** Loads after stores *)

Lemma le_load_ext m m' a n :
  (∀ x, a ≤ x < a + Z.of_nat n → m' x = m x) → le_load m' a n = le_load m a n.
Proof.
  revert a. induction n as [|n IH]; intros a H; simpl; [done|]. rewrite H by lia.
  rewrite IH; [done|]. intros x Hx. apply H. lia.
Qed.

Lemma le_store_other m a v n x :
  x < a ∨ a + Z.of_nat n ≤ x → le_store m a v n x = m x.
Proof.
  revert m a v. induction n as [|n IH]; intros m a v H; simpl; [done|].
  rewrite IH by lia. apply mupd_ne. lia.
Qed.

Lemma le_load_store m a v n : le_load (le_store m a v n) a n = v mod 256 ^ Z.of_nat n.
Proof.
  revert m a v. induction n as [|n IH]; intros m a v.
  { simpl. by rewrite Z.mod_1_r. }
  cbn [le_load le_store]. rewrite le_store_other by lia. rewrite mupd_eq, IH.
  rewrite Nat2Z.inj_succ, Z.pow_succ_r by lia.
  rewrite Z.rem_mul_r by (try apply Z.pow_nonzero; lia). lia.
Qed.

Lemma le_load_store_ne m a v n a' n' :
  a' + Z.of_nat n' ≤ a ∨ a + Z.of_nat n ≤ a' →
  le_load (le_store m a v n) a' n' = le_load m a' n'.
Proof. intros H. apply le_load_ext. intros x Hx. apply le_store_other. lia. Qed.

Lemma le_load_zero m a n : (∀ x, a ≤ x < a + Z.of_nat n → m x = 0) → le_load m a n = 0.
Proof.
  revert a. induction n as [|n IH]; intros a H; simpl; [done|].
  rewrite H, IH by (intros; try apply H; lia). done.
Qed.

Lemma le_load_range m a n :
  (∀ x, 0 ≤ m x < 256) → 0 ≤ le_load m a n < 256 ^ Z.of_nat n.
Proof.
  intros H. revert a. induction n as [|n IH]; intros a; [simpl; lia|].
  cbn [le_load]. rewrite Nat2Z.inj_succ, Z.pow_succ_r by lia.
  specialize (IH (a + 1)). specialize (H a). lia.
Qed.

Arguments le_load : simpl never.
Arguments le_store : simpl never.

(** Conversion never needs to run the loops. *)
#[global] Strategy 500 [memset memmove le_load le_store].

(** ** Running the accesses *)

Lemma k_mem_upd2 f g (s : kstate) :
  s <| k_mem ::= f |> <| k_mem ::= g |> = s <| k_mem ::= λ m, g (f m) |>.
Proof. reflexivity. Qed.

Section Run.
Implicit Types (s : kstate) (e : env).

Lemma ld64_run a e s : in_ram a 8 = true → ld64 a e s = Ret (le_load (k_mem s) a 8) e s.
Proof. intros H. unfold ld64. krun. by rewrite H. Qed.
Lemma st64_run a v e s :
  in_ram a 8 = true → st64 a v e s = Ret () e (s <| k_mem ::= λ m, le_store m a v 8 |>).
Proof. intros H. unfold st64. krun. by rewrite H. Qed.
Lemma kmemset_run a c n e s :
  in_ram a n = true → kmemset a c n e s = Ret () e (s <| k_mem ::= λ m, memset m a c n |>).
Proof. intros H. unfold kmemset. krun. by rewrite H, orb_true_r. Qed.
Lemma kmemmove_run a b n e s :
  in_ram a n = true → in_ram b n = true →
  kmemmove a b n e s = Ret () e (s <| k_mem ::= λ m, memmove m a b n |>).
Proof. intros H1 H2. unfold kmemmove. krun. by rewrite H1, H2, orb_true_r. Qed.
End Run.

Lemma in_ram_spec a n : in_ram a n = true ↔ KERNBASE ≤ a ∧ a + n ≤ PHYSTOP.
Proof. unfold in_ram. rewrite andb_true_iff, !Z.leb_le. done. Qed.

Lemma PHYSTOP_val : PHYSTOP = 0x88000000.
Proof. reflexivity. Qed.
Lemma KERNBASE_val : KERNBASE = 0x80000000.
Proof. reflexivity. Qed.
