(* ===== verification/Kalloc.v ===== *)
(** * Kalloc: the physical page allocator (kernel/kalloc.c)

    The free list is threaded through the free pages themselves; every page
    has a reference count so that copy-on-write processes can share it.

    The invariant [kmem_inv l]: the free list is the chain [l] of distinct
    managed pages, and a managed page is on it exactly when its reference count
    is 0.  The theorems: [kinit] establishes it, [kalloc], [kfree] and [refInc]
    keep it; [kalloc] hands out a page nobody references, filled with junk;
    [kfree] takes a page back only when its last reference goes. *)

From S2P Require Import Prelude Params CString State Spinlock PhysMem.

Section Kalloc.
Context `{!Image}.

(** [refIdx(a)]: the index of a page in [refCount[]]; out of the array faults. *)
Definition refIdx (a : Z) : Z := u64 (a - KERNBASE) / PGSIZE.
Definition NREF : Z := (PHYSTOP - KERNBASE) / PGSIZE.

Definition fupd (f : Z → Z) (i v : Z) : Z → Z := λ j, if j =? i then v else f j.

Definition ref_get (a : Z) : K Z :=
  check (refIdx a <? NREF) "refCount";; gets (λ s, k_refCount s (refIdx a)).
Definition ref_set (a v : Z) : K () :=
  check (refIdx a <? NREF) "refCount";;
  modify (λ s, s <| k_refCount ::= λ f, fupd f (refIdx a) (i32 v) |>).

Definition kfree (pa : Z) : K () :=
  panic_if (negb (pa mod PGSIZE =? 0) || (pa <? end_) || (PHYSTOP <=? pa)) "kfree";;
  n ← ref_get pa;
  ref_set pa (n - 1);;
  n ← ref_get pa;
  when (n =? 0) (
    kmemset pa 1 PGSIZE;;
    acquire LKmem;;
    head ← gets k_freelist;
    st64 pa head;;
    modify (λ s, s <| k_freelist := pa |>);;
    release LKmem).

Definition kalloc : K Z :=
  acquire LKmem;;
  r ← gets k_freelist;
  when (ctrue r) (next ← ld64 r; modify (λ s, s <| k_freelist := next |>));;
  release LKmem;;
  when (ctrue r) (
    kmemset r 5 PGSIZE;;
    n ← ref_get r;
    ref_set r (n + 1));;
  mret r.

Definition refInc (pa : Z) : K () :=
  n ← ref_get pa;
  ref_set pa (n + 1).

Definition freerange (pa_start pa_end : Z) : K () :=
  while_ (λ p,
    if p + PGSIZE <=? pa_end then
      ref_set p 1;;
      kfree p;;
      mret (inl (p + PGSIZE))
    else mret (inr ())) (PGROUNDUP pa_start).

Definition kinit : K () :=
  initlock LKmem;;
  freerange end_ PHYSTOP.

(** ** The invariant *)

(** A page the allocator manages. *)
Definition page (p : Z) : Prop := p mod PGSIZE = 0 ∧ end_ ≤ p ∧ p < PHYSTOP.

(** The free list starting at [h] consists of the pages [l]. *)
Fixpoint chain (m : memory) (h : Z) (l : list Z) : Prop :=
  match l with
  | [] => h = 0
  | p :: l' => h = p ∧ chain m (le_load m p 8) l'
  end.

Definition refs (s : kstate) (p : Z) : Z := k_refCount s (refIdx p).

Record kmem_inv (l : list Z) (s : kstate) : Prop := KmemInv {
  ki_chain : chain (k_mem s) (k_freelist s) l;
  ki_nodup : NoDup l;
  ki_page : Forall page l;
  ki_refs : ∀ p, page p → 0 ≤ refs s p < 2 ^ 31 - 1;
  ki_free : ∀ p, page p → p ∈ l ↔ refs s p = 0;
}.

(** The machine can enter the allocator. *)
Definition kmem_ready (s : kstate) : Prop :=
  wf_mach (k_mach s) ∧ lock_free LKmem (k_mach s).

Context `{!ImageOK}.

Lemma page_bounds p : page p → KERNBASE ≤ p ∧ p + PGSIZE ≤ PHYSTOP ∧ p mod 4096 = 0.
Proof.
  intros (Ha & H1 & H2). pose proof end_range. unfold PGSIZE in *.
  rewrite PHYSTOP_val in *. split_and!; [lia|zlia|done].
Qed.

Lemma page_in_ram p n : page p → 0 ≤ n ≤ PGSIZE → in_ram p n = true.
Proof. intros Hp Hn. apply page_bounds in Hp. apply in_ram_spec. lia. Qed.

Lemma page_nonzero p : page p → p ≠ 0.
Proof. intros Hp. apply page_bounds in Hp. rewrite KERNBASE_val in Hp. lia. Qed.

Lemma refIdx_page p : page p → refIdx p = (p - KERNBASE) / 4096 ∧ 0 ≤ refIdx p < NREF.
Proof.
  intros Hp. apply page_bounds in Hp as (H1 & H2 & H3). unfold refIdx, NREF, PGSIZE in *.
  rewrite PHYSTOP_val, KERNBASE_val in *. rewrite (wrapu_id 64) by lia. split; [done|].
  change ((2281701376 - 2147483648) / 4096) with 32768. zlia.
Qed.

Lemma refIdx_inj p q : page p → page q → refIdx p = refIdx q → p = q.
Proof.
  intros Hp Hq. pose proof (page_bounds p Hp) as (?&?&?). pose proof (page_bounds q Hq) as (?&?&?).
  destruct (refIdx_page p Hp) as [-> _], (refIdx_page q Hq) as [-> _].
  rewrite PHYSTOP_val, KERNBASE_val in *. zlia.
Qed.

(** Different pages do not overlap. *)
Lemma page_disjoint p q : page p → page q → p ≠ q → p + PGSIZE ≤ q ∨ q + PGSIZE ≤ p.
Proof.
  intros Hp Hq Hne. pose proof (page_bounds p Hp) as (?&?&?). pose proof (page_bounds q Hq) as (?&?&?).
  unfold PGSIZE in *. zlia.
Qed.

Lemma fupd_eq f i v : fupd f i v i = v.
Proof. unfold fupd. by rewrite Z.eqb_refl. Qed.
Lemma fupd_ne f i v j : j ≠ i → fupd f i v j = f j.
Proof. intros. unfold fupd. by destruct (Z.eqb_spec j i). Qed.

(** The chain depends only on the first word of its own pages. *)
Lemma chain_ext m m' h l :
  (∀ p, p ∈ l → le_load m' p 8 = le_load m p 8) → chain m h l → chain m' h l.
Proof.
  revert h. induction l as [|p l IH]; intros h Hx; simpl; [done|].
  intros [-> Hc]. split; [done|]. rewrite Hx by (by left).
  apply IH; [|done]. intros q Hq. apply Hx. by right.
Qed.

Lemma ref_get_run p e s : page p → ref_get p e s = Ret (refs s p) e s.
Proof.
  intros Hp. unfold ref_get. krun. destruct (refIdx_page p Hp) as [_ [_ Hlt]].
  by destruct (Z.ltb_spec (refIdx p) NREF); [|lia].
Qed.

Lemma ref_set_run p v e s : page p →
  ref_set p v e s = Ret () e (s <| k_refCount ::= λ f, fupd f (refIdx p) (i32 v) |>).
Proof.
  intros Hp. unfold ref_set. krun. destruct (refIdx_page p Hp) as [_ [_ Hlt]].
  by destruct (Z.ltb_spec (refIdx p) NREF); [|lia].
Qed.

(** The states after [kalloc] took page [p], after the last [kfree] of [p], and
    after a change of the count of [p]. *)
Definition st_ref (p v : Z) (s : kstate) : kstate :=
  s <| k_refCount ::= λ f, fupd f (refIdx p) v |>.
Definition st_settle (s : kstate) : kstate := s <| k_mach ::= settle |>.
Definition st_alloc (p : Z) (s : kstate) : kstate :=
  st_ref p (refs s p + 1)
    (st_settle s <| k_freelist := le_load (k_mem s) p 8 |> <| k_mem ::= λ m, memset m p 5 PGSIZE |>).
Definition st_free (p : Z) (s : kstate) : kstate :=
  st_ref p (refs s p - 1)
    (st_settle s <| k_freelist := p |>
       <| k_mem ::= λ m, le_store (memset m p 1 PGSIZE) p (k_freelist s) 8 |>).

Lemma kalloc_nil e s : kmem_ready s → kmem_inv [] s → kalloc e s = Ret 0 e (st_settle s).
Proof.
  intros [Hwf Hf] [Hc _ _ _ _]. unfold kalloc. run (acquire_free LKmem e s Hwf Hf). krun.
  simpl in Hc. change (k_freelist (s <| k_mach ::= mlock LKmem |>)) with (k_freelist s).
  rewrite Hc. cbn [ctrue Z.eqb negb].
  run (release_after LKmem e (s <| k_mach ::= mlock LKmem |>) (k_mach s) eq_refl Hwf Hf). by krun.
Qed.

Lemma kalloc_cons p l e s :
  kmem_ready s → kmem_inv (p :: l) s → kalloc e s = Ret p e (st_alloc p s).
Proof.
  intros [Hwf Hf] [Hc Hnd Hp Hr Hfr]. unfold kalloc. run (acquire_free LKmem e s Hwf Hf). krun.
  destruct Hc as [Hh Hc]. apply Forall_cons in Hp as [Hp _].
  change (k_freelist (s <| k_mach ::= mlock LKmem |>)) with (k_freelist s). rewrite Hh.
  assert (ctrue p = true) as Ht.
  { unfold ctrue. apply page_nonzero in Hp. by destruct (Z.eqb_spec p 0). }
  rewrite Ht. krun. run (ld64_run p e (s <| k_mach ::= mlock LKmem |>) (page_in_ram p 8 Hp ltac:(done))).
  krun. run (release_after LKmem e (s <| k_mach ::= mlock LKmem |>
    <| k_freelist := le_load (k_mem s) p 8 |>) (k_mach s) eq_refl Hwf Hf). krun.
  erewrite bind_Ret by (apply kmemset_run, (page_in_ram p PGSIZE Hp); done). krun.
  erewrite bind_Ret by (by apply ref_get_run). erewrite bind_Ret by (by apply ref_set_run). krun.
  f_equal. unfold st_alloc, st_ref, st_settle, set, refs. cbn. f_equal.
  rewrite (wraps_id 32); [done|lia|]. specialize (Hr p Hp). unfold refs in Hr. lia.
Qed.

Lemma kfree_guard p : page p →
  negb (p mod PGSIZE =? 0) || (p <? end_) || (PHYSTOP <=? p) = false.
Proof.
  intros (H1 & H2 & H3). destruct (Z.eqb_spec (p mod PGSIZE) 0), (Z.ltb_spec p end_),
    (Z.leb_spec PHYSTOP p); simpl; try done; lia.
Qed.

(** [kfree] of a page that keeps other references only decrements the count. *)
Lemma kfree_shared p e s :
  page p → 1 < refs s p < 2 ^ 31 → kfree p e s = Ret () e (st_ref p (refs s p - 1) s).
Proof.
  intros Hp Hr. unfold kfree. krun. rewrite kfree_guard by done.
  run (ref_get_run p e s Hp). run (ref_set_run p (refs s p - 1) e s Hp).
  rewrite (wraps_id 32) by lia. erewrite bind_Ret by (by apply ref_get_run). krun.
  unfold refs at 1. unfold set; cbn [k_refCount]. rewrite fupd_eq.
  by destruct (Z.eqb_spec (refs s p - 1) 0); [lia|].
Qed.

(** [kfree] of a page with one reference puts it at the head of the free list. *)
Lemma kfree_last p e s :
  kmem_ready s → page p → refs s p = 1 → kfree p e s = Ret () e (st_free p s).
Proof.
  intros [Hwf Hf] Hp Hr. unfold kfree. krun. rewrite kfree_guard by done.
  run (ref_get_run p e s Hp). run (ref_set_run p (refs s p - 1) e s Hp).
  rewrite (wraps_id 32) by lia. erewrite bind_Ret by (by apply ref_get_run). krun.
  unfold refs at 1. unfold set at 1; cbn [k_refCount]. rewrite fupd_eq, Hr.
  change (1 - 1 =? 0) with true. cbn iota.
  erewrite bind_Ret by (apply kmemset_run, (page_in_ram p PGSIZE Hp); done).
  erewrite bind_Ret by (apply acquire_free; done). krun.
  erewrite bind_Ret by (apply st64_run, (page_in_ram p 8 Hp); done). krun.
  erewrite release_after; [|reflexivity|done|done].
  unfold st_free, st_ref, st_settle. by rewrite Hr.
Qed.

Lemma memset_page_load m p q c :
  page p → page q → p ≠ q → le_load (memset m p c PGSIZE) q 8 = le_load m q 8.
Proof.
  intros Hp Hq Hne. apply le_load_ext. intros x Hx.
  pose proof (page_disjoint p q Hp Hq Hne). unfold PGSIZE in *.
  rewrite memset_spec by lia. destruct (Z.leb_spec p x), (Z.ltb_spec x (p + 4096)); simpl; lia || done.
Qed.

Lemma refs_st_ref_eq p v s : refs (st_ref p v s) p = v.
Proof. apply fupd_eq. Qed.
Lemma refs_st_ref_ne p q v s : page p → page q → p ≠ q → refs (st_ref p v s) q = refs s q.
Proof.
  intros Hp Hq Hne. unfold refs, st_ref, set. cbn [k_refCount]. apply fupd_ne. intros E.
  apply Hne. symmetry. by apply refIdx_inj.
Qed.

(** The counts do not depend on memory. *)
Lemma refs_mem (g : memory → memory) s p : refs (s <| k_mem ::= g |>) p = refs s p.
Proof. reflexivity. Qed.

Lemma kmem_inv_alloc p l s : kmem_inv (p :: l) s → kmem_inv l (st_alloc p s).
Proof.
  intros [Hc Hnd Hp Hr Hf]. apply NoDup_cons in Hnd as [Hni Hnd].
  apply Forall_cons in Hp as [Hpp Hp]. destruct Hc as [Hh Hc].
  assert (refs s p = 0) as Hz by (apply Hf; [done|by left]).
  assert (∀ q, page q → p ≠ q → refs (st_alloc p s) q = refs s q) as Hne.
  { intros q Hq Hne. unfold st_alloc. by rewrite refs_st_ref_ne. }
  assert (refs (st_alloc p s) p = 1) as He.
  { unfold st_alloc. by rewrite refs_st_ref_eq, Hz. }
  split; [|done|done| |].
  - cbn. eapply chain_ext; [|exact Hc]. intros q Hq. cbn.
    assert (page q) as Hpq by (by eapply Forall_forall in Hp).
    apply memset_page_load; [done|done|]. intros ->. done.
  - intros q Hq. destruct (decide (p = q)) as [<-|Hd]; [rewrite He; lia|].
    rewrite Hne by done. by apply Hr.
  - intros q Hq. destruct (decide (p = q)) as [<-|Hd].
    + rewrite He. split; [done|lia].
    + rewrite Hne by done. rewrite <- Hf by done. set_solver.
Qed.

Lemma kmem_inv_free p l s :
  page p → refs s p = 1 → kmem_inv l s → kmem_inv (p :: l) (st_free p s).
Proof.
  intros Hpp Hone [Hc Hnd Hp Hr Hf].
  assert (p ∉ l) as Hni by (rewrite Hf by done; lia).
  assert (∀ q, page q → p ≠ q → refs (st_free p s) q = refs s q) as Hne.
  { intros q Hq Hne. unfold st_free. by rewrite refs_st_ref_ne. }
  assert (refs (st_free p s) p = 0) as He.
  { unfold st_free. by rewrite refs_st_ref_eq, Hone. }
  split.
  - cbn [chain]. split; [done|].
    change (k_mem (st_free p s)) with (le_store (memset (k_mem s) p 1 PGSIZE) p (k_freelist s) 8).
    rewrite le_load_store.
    rewrite Z.mod_small.
    + eapply chain_ext; [|exact Hc]. intros q Hq.
      assert (page q) as Hpq by (by eapply Forall_forall in Hp).
      assert (p ≠ q) as Hd by (intros ->; done).
      pose proof (page_disjoint p q Hpp Hpq Hd). unfold PGSIZE in *.
      rewrite le_load_store_ne by lia. by apply memset_page_load.
    + destruct l as [|q l']; [by rewrite Hc|]. destruct Hc as [-> _].
      apply Forall_cons in Hp as [Hq _]. apply page_bounds in Hq.
      rewrite KERNBASE_val, PHYSTOP_val in Hq. unfold PGSIZE in Hq. simpl. lia.
  - by constructor.
  - by constructor.
  - intros q Hq. destruct (decide (p = q)) as [<-|Hd]; [rewrite He; lia|].
    rewrite Hne by done. by apply Hr.
  - intros q Hq. destruct (decide (p = q)) as [<-|Hd].
    + rewrite He. split; [done|by left].
    + rewrite Hne by done. rewrite <- Hf by done. set_solver.
Qed.

Lemma kmem_inv_ref p v l s :
  page p → 0 < refs s p → 0 < v < 2 ^ 31 - 1 → kmem_inv l s → kmem_inv l (st_ref p v s).
Proof.
  intros Hpp Hpos Hv [Hc Hnd Hp Hr Hf]. split; try done.
  - intros q Hq. destruct (decide (p = q)) as [<-|Hd]; [rewrite refs_st_ref_eq; lia|].
    rewrite refs_st_ref_ne by done. by apply Hr.
  - intros q Hq. destruct (decide (p = q)) as [<-|Hd].
    + rewrite refs_st_ref_eq, Hf by done. lia.
    + rewrite refs_st_ref_ne by done. by apply Hf.
Qed.

(** Only the links of the free pages matter. *)
Lemma kmem_inv_mem l s (g : memory → memory) :
  kmem_inv l s → (∀ t, t ∈ l → le_load (g (k_mem s)) t 8 = le_load (k_mem s) t 8) →
  kmem_inv l (s <| k_mem ::= g |>).
Proof. intros [H1 H2 H3 H4 H5] Hg. split; try done. by eapply chain_ext. Qed.

Lemma refInc_run p e s :
  page p → 0 ≤ refs s p < 2 ^ 31 - 1 → refInc p e s = Ret () e (st_ref p (refs s p + 1) s).
Proof.
  intros Hp Hr. unfold refInc. run (ref_get_run p e s Hp). rewrite ref_set_run by done.
  by rewrite (wraps_id 32) by lia.
Qed.

(** The invariant reads only memory, the list head and the counts. *)
Lemma kmem_inv_ext l s s' :
  k_mem s' = k_mem s → k_freelist s' = k_freelist s → k_refCount s' = k_refCount s →
  kmem_inv l s → kmem_inv l s'.
Proof.
  intros Hm Hf Hr [H1 H2 H3 H4 H5]. split; unfold refs in *; rewrite ?Hm, ?Hf, ?Hr; done.
Qed.

Lemma kmem_ready_settle s s' :
  k_mach s' = settle (k_mach s) → kmem_ready s → kmem_ready s'.
Proof. intros Hm [Hwf Hf]. unfold kmem_ready. rewrite Hm. eauto with kernel. Qed.

(** [kalloc] under the allocator's invariant: with no free page it returns
    0 and changes nothing; otherwise it returns the first page of the free
    list, which nobody referenced, now with one reference and filled with
    the byte 5, and leaves every other page's contents and count alone. *)
Theorem kalloc_correct l e s :
  kmem_ready s → kmem_inv l s →
  wp kalloc (λ r e' s', e' = e ∧ kmem_ready s' ∧
    match l with
    | [] => r = 0 ∧ kmem_inv [] s' ∧ (∀ p, refs s' p = refs s p) ∧ (∀ x, k_mem s' x = k_mem s x)
    | p :: l' =>
        r = p ∧ kmem_inv l' s' ∧ refs s p = 0 ∧ refs s' p = 1 ∧
        (∀ q, page q → q ≠ p → refs s' q = refs s q) ∧
        (∀ x, k_mem s' x = if (p <=? x) && (x <? p + PGSIZE) then 5 else k_mem s x)
    end) e s.
Proof.
  intros Hrdy HI. destruct l as [|p l].
  - eapply wp_Ret; [by apply kalloc_nil|]. split_and!; try done.
    + by apply (kmem_ready_settle s).
    + by apply (kmem_inv_ext _ s).
  - eapply wp_Ret; [by eapply kalloc_cons|].
    assert (page p) as Hp by (by destruct HI as [_ _ [Hp _]%Forall_cons _ _]).
    assert (refs s p = 0) as Hz by (apply HI; [done|by left]).
    split_and!; try done.
    + by apply (kmem_ready_settle s).
    + by apply kmem_inv_alloc.
    + unfold st_alloc. by rewrite refs_st_ref_eq, Hz.
    + intros q Hq Hne. unfold st_alloc. by rewrite refs_st_ref_ne.
    + intros x. apply (memset_spec (k_mem s) p 5 PGSIZE x). done.
Qed.

(** [kfree] of a page with references: the count drops by one; the page
    goes back to the free list exactly when that was the last reference, and
    a page that is still shared keeps its contents. *)
Theorem kfree_correct p l e s :
  kmem_ready s → kmem_inv l s → page p → 1 ≤ refs s p →
  wp (kfree p) (λ _ e' s', e' = e ∧ kmem_ready s' ∧
    kmem_inv (if refs s p =? 1 then p :: l else l) s' ∧
    refs s' p = refs s p - 1 ∧
    (∀ q, page q → q ≠ p → refs s' q = refs s q) ∧
    (∀ x, 1 < refs s p ∨ x < p ∨ p + PGSIZE ≤ x → k_mem s' x = k_mem s x)) e s.
Proof.
  intros Hrdy HI Hp Hr. pose proof (ki_refs _ _ HI p Hp) as Hlt.
  destruct (Z.eqb_spec (refs s p) 1) as [Hone|Hmore].
  - eapply wp_Ret; [by apply kfree_last|]. split_and!.
    + done.
    + by apply (kmem_ready_settle s).
    + by apply kmem_inv_free.
    + unfold st_free. by rewrite refs_st_ref_eq.
    + intros q Hq Hne. unfold st_free. by rewrite refs_st_ref_ne.
    + intros x Hx.
      change (k_mem (st_free p s) x) with (le_store (memset (k_mem s) p 1 PGSIZE) p (k_freelist s) 8 x).
      unfold PGSIZE in *. rewrite le_store_other, memset_spec by lia.
      destruct (Z.leb_spec p x), (Z.ltb_spec x (p + 4096)); simpl; lia || done.
  - eapply wp_Ret; [apply kfree_shared; [done|lia]|]. split_and!.
    + done.
    + done.
    + apply kmem_inv_ref; [done|lia|lia|done].
    + apply refs_st_ref_eq.
    + intros q Hq Hne. by rewrite refs_st_ref_ne.
    + done.
Qed.

(** [kfree] panics on an address that is not page-aligned or not a managed
    page, and touches nothing. *)
Theorem kfree_rejects p e s : (p mod PGSIZE ≠ 0 ∨ p < end_ ∨ PHYSTOP ≤ p) → kfree p e s = Panic "kfree" s.
Proof.
  intros H'. unfold kfree. krun.
  destruct (Z.eqb_spec (p mod PGSIZE) 0), (Z.ltb_spec p end_), (Z.leb_spec PHYSTOP p); simpl; try done; lia.
Qed.

(** round trip: a page that is allocated and freed again is back on the
    free list, which is what it was, and every count is what it was. *)
Theorem kalloc_kfree_roundtrip p l e s :
  kmem_ready s → kmem_inv (p :: l) s →
  wp (r ← kalloc; kfree r) (λ _ e' s', e' = e ∧ kmem_ready s' ∧ kmem_inv (p :: l) s' ∧
    ∀ q, page q → refs s' q = refs s q) e s.
Proof.
  intros Hrdy HI. pose proof (kmem_inv_alloc _ _ _ HI) as HI'.
  assert (page p) as Hp by (by destruct HI as [_ _ [Hp _]%Forall_cons _ _]).
  assert (refs s p = 0) as Hz by (apply HI; [done|by left]).
  assert (refs (st_alloc p s) p = 1) as Hone.
  { unfold st_alloc. by rewrite refs_st_ref_eq, Hz. }
  assert (kmem_ready (st_alloc p s)) as Hrdy'.
  { by apply (kmem_ready_settle s). }
  apply wp_bind. eapply wp_Ret; [by eapply kalloc_cons|].
  eapply wp_Ret; [by apply kfree_last|]. split_and!.
  - done.
  - by apply (kmem_ready_settle (st_alloc p s)).
  - by apply kmem_inv_free.
  - intros q Hq. unfold st_free. destruct (decide (p = q)) as [<-|Hne].
    + rewrite refs_st_ref_eq, Hone. lia.
    + rewrite refs_st_ref_ne by done.
      transitivity (refs (st_alloc p s) q); [done|]. unfold st_alloc. by rewrite refs_st_ref_ne.
Qed.

(** ** Booting the allocator *)

(** The invariant restricted to the pages below [hi], which [freerange] has
    already put on the list. *)
Record kmem_below (hi : Z) (l : list Z) (s : kstate) : Prop := KmemBelow {
  kb_chain : chain (k_mem s) (k_freelist s) l;
  kb_nodup : NoDup l;
  kb_in : ∀ p, p ∈ l ↔ page p ∧ p < hi;
  kb_refs : ∀ p, page p → p < hi → refs s p = 0;
}.

Lemma chain_head_range m h l : chain m h l → Forall page l → 0 ≤ h < 2 ^ 64.
Proof.
  destruct l as [|p l]; simpl; [intros ->; lia|]. intros [-> _] [Hp _]%Forall_cons.
  apply page_bounds in Hp. rewrite KERNBASE_val, PHYSTOP_val in Hp. unfold PGSIZE in Hp. lia.
Qed.

Lemma kmem_below_step p l s :
  page p → kmem_below p l s → kmem_below (p + PGSIZE) (p :: l) (st_free p (st_ref p 1 s)).
Proof.
  intros Hpp [Hc Hnd Hin Hr].
  assert (Forall page l) as Hp by (apply Forall_forall; intros q Hq; by apply Hin).
  assert (p ∉ l) as Hni by (rewrite Hin; lia).
  pose proof (chain_head_range _ _ _ Hc Hp) as Hh.
  assert (∀ q, page q → q < p + PGSIZE → q = p ∨ q < p) as Hnext.
  { intros q Hq Hlt. destruct (decide (q = p)); [by left|].
    pose proof (page_disjoint p q Hpp Hq ltac:(done)). right. unfold PGSIZE in *. lia. }
  split.
  - cbn [chain]. split; [done|].
    change (k_mem (st_free p (st_ref p 1 s)))
      with (le_store (memset (k_mem s) p 1 PGSIZE) p (k_freelist s) 8).
    rewrite le_load_store, Z.mod_small by (simpl; lia).
    eapply chain_ext; [|exact Hc]. intros q Hq.
    assert (page q) as Hpq by (by apply Hin). assert (p ≠ q) as Hd by (intros ->; done).
    pose proof (page_disjoint p q Hpp Hpq Hd). unfold PGSIZE in *.
    rewrite le_load_store_ne by lia. by apply memset_page_load.
  - by constructor.
  - intros q. rewrite elem_of_cons, Hin. split.
    + intros [->|[? ?]]; (split; [done|]); unfold PGSIZE; lia.
    + intros [Hq Hlt]. destruct (Hnext q Hq Hlt); auto.
  - intros q Hq Hlt. unfold st_free. destruct (Hnext q Hq Hlt) as [->|Hlt'].
    + by rewrite !refs_st_ref_eq.
    + rewrite refs_st_ref_ne by (try done; lia).
      transitivity (refs (st_ref p 1 s) q); [done|]. rewrite refs_st_ref_ne by (try done; lia). auto.
Qed.

Lemma freerange_loop (n : nat) p l e s :
  end_ ≤ p → p mod PGSIZE = 0 → p + Z.of_nat n * PGSIZE = PHYSTOP → kmem_ready s → kmem_below p l s →
  ∃ l' s', kmem_ready s' ∧ kmem_below PHYSTOP l' s' ∧
    runs (λ p, if p + PGSIZE <=? PHYSTOP then
      ref_set p 1;; kfree p;; mret (inl (p + PGSIZE)) else mret (inr ()))
      p e s (Z.of_nat n + 1) () e s'.
Proof.
  revert p l s. induction n as [|n IH]; intros p l s Hlo Hal Hhi Hrdy HI.
  - exists l, s. rewrite Z.mul_0_l, Z.add_0_r in Hhi. rewrite <- Hhi. split_and!; try done.
    apply runs_done. destruct (Z.leb_spec (p + PGSIZE) p); [unfold PGSIZE in *; lia|done].
  - rewrite Nat2Z.inj_succ in *.
    assert (page p) as Hp by (split_and!; [done|done|unfold PGSIZE in *; lia]).
    assert (kmem_ready (st_ref p 1 s)) as Hrdy1 by done.
    pose proof (kmem_below_step p l s Hp HI) as HI'.
    destruct (IH (p + PGSIZE) (p :: l) (st_free p (st_ref p 1 s))) as (l' & s' & H1 & H2 & H3).
    + unfold PGSIZE; lia.
    + unfold PGSIZE in *. zlia.
    + lia.
    + by apply (kmem_ready_settle (st_ref p 1 s)).
    + done.
    + exists l', s'. split_and!; try done. rewrite <- Z.add_1_r. eapply runs_step; [|exact H3].
      cbv beta. destruct (Z.leb_spec (p + PGSIZE) PHYSTOP); [|unfold PGSIZE in *; lia].
      run (ref_set_run p 1 e s Hp). change (i32 1) with 1. fold (st_ref p 1 s).
      run (kfree_last p e (st_ref p 1 s) Hrdy1 Hp (refs_st_ref_eq _ _ _)). by krun.
Qed.

(** C17: [kinit] turns all of RAM after the kernel into free pages: it returns,
    the invariant holds, and the free list is exactly the managed pages. *)
Theorem kinit_correct e s :
  wf_mach (k_mach s) → k_freelist s = 0 →
  wp kinit (λ _ e' s', e' = e ∧ kmem_ready s' ∧
    ∃ l, kmem_inv l s' ∧ ∀ p, p ∈ l ↔ page p) e s.
Proof.
  intros Hwf Hh. unfold kinit, initlock. apply wp_bind. eapply wp_Ret; [apply modify_run|].
  set (s0 := s <| k_mach ::= set m_locks (delete LKmem) |>).
  assert (kmem_ready s0) as Hrdy0.
  { split; [exact Hwf|]. apply lookup_delete_eq. }
  pose proof end_range as He. rewrite KERNBASE_val, PHYSTOP_val in He.
  set (p0 := PGROUNDUP end_).
  assert (p0 = (end_ + 4095) / 4096 * 4096) as Hp0 by (apply PGROUNDUP_spec; lia).
  assert (end_ ≤ p0 ∧ p0 mod PGSIZE = 0 ∧ p0 ≤ PHYSTOP) as (H1 & H2 & H3).
  { rewrite PHYSTOP_val. unfold PGSIZE. zlia. }
  assert (∀ p, page p → p0 ≤ p) as Hlow.
  { intros p (Ha & Hb & _). unfold PGSIZE in Ha. zlia. }
  destruct (freerange_loop (Z.to_nat ((PHYSTOP - p0) / PGSIZE)) p0 [] e s0) as (l & s' & Hr & HI & Hrun).
  - done.
  - done.
  - rewrite PHYSTOP_val in *. unfold PGSIZE in *. rewrite Z2Nat.id by zlia. zlia.
  - done.
  - split; [done|constructor| |].
    + intros p. split; [by intros ?%not_elem_of_nil|]. intros [Hp Hlt]. apply Hlow in Hp. lia.
    + intros p Hp Hlt. apply Hlow in Hp. lia.
  - eapply wp_Ret.
    + unfold freerange. eapply while_runs; [exact Hrun|].
      rewrite PHYSTOP_val in *. unfold PGSIZE in *. rewrite Z2Nat.id by zlia. zlia.
    + split_and!; [done|done|]. destruct HI as [Hc Hnd Hin Hrf].
      assert (∀ p, page p → refs s' p = 0) as Hz by (intros p Hp; apply Hrf; [done|apply Hp]).
      exists l. split; [split|].
      * done.
      * done.
      * apply Forall_forall. intros p Hp. by apply Hin.
      * intros p Hp. rewrite Hz by done. lia.
      * intros p Hp. rewrite Hz by done. split; [done|]. intros _. apply Hin. split; [done|apply Hp].
      * intros p. rewrite Hin. split; [by intros []|]. intros Hp. split; [done|apply Hp].
Qed.
End Kalloc.

(** ** Examples: one free page on the small machine, all others in use once *)

Definition ex_page : Z := PHYSTOP - 4096.
Definition ex_kmem : kstate :=
  kstate0 <| k_freelist := ex_page |> <| k_refCount := λ i, if i =? refIdx ex_page then 0 else 1 |>.

Lemma ex_page_ok : @page small_image ex_page.
Proof. split_and!; [reflexivity|by vm_compute|by vm_compute]. Qed.

Lemma wf_machine0 : wf_mach machine0.
Proof. split_and!; cbn; lia || done. Qed.

Lemma ex_kmem_ready : kmem_ready ex_kmem.
Proof. split; [exact wf_machine0|reflexivity]. Qed.

Lemma ex_kmem_inv : @kmem_inv small_image [ex_page] ex_kmem.
Proof.
  assert (∀ q, @page small_image q →
    refs ex_kmem q = if decide (q = ex_page) then 0 else 1) as Hr.
  { intros q Hq. unfold refs, ex_kmem, set. cbn [k_refCount]. case_decide as Hd.
    - subst. by rewrite Z.eqb_refl.
    - destruct (Z.eqb_spec (refIdx q) (refIdx ex_page)) as [E|]; [|done]. destruct Hd.
      apply (@refIdx_inj small_image small_image_ok); [done|apply ex_page_ok|done]. }
  split.
  - split; reflexivity.
  - apply NoDup_singleton.
  - constructor; [apply ex_page_ok|constructor].
  - intros q Hq. rewrite Hr by done. case_decide; lia.
  - intros q Hq. rewrite Hr, list_elem_of_singleton by done. case_decide; split; done.
Qed.

Lemma kalloc_correct_witness :
  wp kalloc (λ r e' s', e' = [] ∧ kmem_ready s' ∧ r = ex_page ∧ @kmem_inv small_image [] s' ∧
    refs ex_kmem ex_page = 0 ∧ refs s' ex_page = 1 ∧
    (∀ q, @page small_image q → q ≠ ex_page → refs s' q = refs ex_kmem q) ∧
    (∀ x, k_mem s' x = if (ex_page <=? x) && (x <? ex_page + PGSIZE) then 5 else k_mem ex_kmem x))
    [] ex_kmem.
Proof. exact (@kalloc_correct small_image small_image_ok [ex_page] [] ex_kmem ex_kmem_ready ex_kmem_inv). Defined.

Lemma kfree_correct_witness :
  wp (@kfree small_image (ex_page - 4096)) (λ _ e' s', e' = [] ∧ kmem_ready s' ∧
    @kmem_inv small_image [ex_page - 4096; ex_page] s' ∧
    refs s' (ex_page - 4096) = 0 ∧
    (∀ q, @page small_image q → q ≠ ex_page - 4096 → refs s' q = refs ex_kmem q) ∧
    (∀ x, 1 < 1 ∨ x < ex_page - 4096 ∨ ex_page - 4096 + PGSIZE ≤ x → k_mem s' x = k_mem ex_kmem x))
    [] ex_kmem.
Proof.
  refine (@kfree_correct small_image small_image_ok (ex_page - 4096) [ex_page] [] ex_kmem
    ex_kmem_ready ex_kmem_inv _ _).
  - split_and!; [reflexivity|by vm_compute|by vm_compute].
  - by vm_compute.
Defined.

Lemma kfree_rejects_witness : @kfree small_image (ex_page + 1) [] ex_kmem = Panic "kfree" ex_kmem.
Proof. apply (@kfree_rejects small_image). left. by vm_compute. Defined.

Lemma kalloc_kfree_roundtrip_witness :
  wp (r ← kalloc; @kfree small_image r) (λ _ e' s', e' = [] ∧ kmem_ready s' ∧
    @kmem_inv small_image [ex_page] s' ∧
    ∀ q, @page small_image q → refs s' q = refs ex_kmem q) [] ex_kmem.
Proof.
  exact (@kalloc_kfree_roundtrip small_image small_image_ok ex_page [] [] ex_kmem
    ex_kmem_ready ex_kmem_inv).
Defined.

Lemma kinit_correct_witness :
  wp (@kinit small_image) (λ _ e' s', e' = [] ∧ kmem_ready s' ∧
    ∃ l, @kmem_inv small_image l s' ∧ ∀ p, p ∈ l ↔ @page small_image p) [] kstate0.
Proof. exact (@kinit_correct small_image small_image_ok [] kstate0 wf_machine0 eq_refl). Defined.
