(* ===== verification/Vm.v ===== *)
(** * Vm: page tables (kernel/vm.c)

    Every routine of vm.c, on page tables that live in physical memory.  Where
    the C code fills a caller's buffer through a pointer ([copyin],
    [copyinstr]) the routine returns the bytes it stored there; where it reads
    a caller's buffer ([copyout], [uvmfirst]) it is given the bytes. *)

From S2P Require Import Prelude Params CString State Spinlock PhysMem Kalloc.

Section Vm.
Context `{!Image}.

(** ** walk *)

(** One level: follow a valid entry, or allocate the next table. *)
Definition walk_level (pagetable level va : Z) (alloc : bool) : K (option Z) :=
  let slot := pagetable + 8 * PX level va in
  pte ← ld64 slot;
  if ctrue (Z.land pte PTE_V) then mret (Some (PTE2PA pte))
  else if negb alloc then mret None
  else
    p ← kalloc;
    if p =? 0 then mret None
    else
      kmemset p 0 PGSIZE;;
      st64 slot (Z.lor (PA2PTE p) PTE_V);;
      mret (Some p).

Fixpoint walk_levels (levels : list Z) (pagetable va : Z) (alloc : bool) : K Z :=
  match levels with
  | [] => mret (pagetable + 8 * PX 0 va)
  | level :: levels' =>
      r ← walk_level pagetable level va alloc;
      match r with
      | None => mret 0
      | Some pagetable' => walk_levels levels' pagetable' va alloc
      end
  end.

(** [walk]: the address of the leaf PTE for [va], or 0. *)
Definition walk (pagetable va : Z) (alloc : bool) : K Z :=
  panic_if (MAXVA <=? va) "walk";;
  walk_levels [2; 1] pagetable va alloc.

(** [walkaddr]: the physical page of a user page, or 0. *)
Definition walkaddr (pagetable va : Z) : K Z :=
  if MAXVA <=? va then mret 0
  else
    slot ← walk pagetable va false;
    if slot =? 0 then mret 0
    else
      pte ← ld64 slot;
      if Z.land pte PTE_V =? 0 then mret 0
      else if Z.land pte PTE_U =? 0 then mret 0
      else mret (PTE2PA pte).

(** ** Mapping *)

Definition mappages (pagetable va size pa perm : Z) : K Z :=
  panic_if (size =? 0) "mappages: size";;
  let last := PGROUNDDOWN (u64 (va + size - 1)) in
  while_ (λ '(a, pa),
    slot ← walk pagetable a true;
    if slot =? 0 then mret (inr (-1))
    else
      pte ← ld64 slot;
      panic_if (ctrue (Z.land pte PTE_V) && negb (ctrue (Z.land pte PTE_COW))) "mappages: remap";;
      st64 slot (Z.lor (Z.lor (PA2PTE pa) perm) PTE_V);;
      if a =? last then mret (inr 0)
      else mret (inl (u64 (a + PGSIZE), u64 (pa + PGSIZE)))) (PGROUNDDOWN va, pa).

Definition kvmmap (kpgtbl va pa sz perm : Z) : K () :=
  r ← mappages kpgtbl va sz pa perm;
  panic_if (negb (r =? 0)) "kvmmap".

(** [proc_mapstacks] of proc.c: a kernel stack and a guard page per process. *)
Definition proc_mapstacks (kpgtbl : Z) : K () :=
  foreach (seqZ 0 (Z.of_nat NPROC)) (λ i,
    pa ← kalloc;
    panic_if (pa =? 0) "kalloc";;
    kvmmap kpgtbl (KSTACK i) pa PGSIZE (Z.lor PTE_R PTE_W)).

(** The kernel's page table: devices, text, data and RAM mapped at their own
    addresses, the trampoline at the top and the kernel stacks below it. *)
Definition kvmmake : K Z :=
  kpgtbl ← kalloc;
  kmemset kpgtbl 0 PGSIZE;;
  kvmmap kpgtbl UART0 UART0 PGSIZE (Z.lor PTE_R PTE_W);;
  kvmmap kpgtbl VIRTIO0 VIRTIO0 PGSIZE (Z.lor PTE_R PTE_W);;
  kvmmap kpgtbl PLIC PLIC 0x400000 (Z.lor PTE_R PTE_W);;
  kvmmap kpgtbl KERNBASE KERNBASE (etext - KERNBASE) (Z.lor PTE_R PTE_X);;
  kvmmap kpgtbl etext etext (PHYSTOP - etext) (Z.lor PTE_R PTE_W);;
  kvmmap kpgtbl TRAMPOLINE trampoline PGSIZE (Z.lor PTE_R PTE_X);;
  proc_mapstacks kpgtbl;;
  mret kpgtbl.

Definition kvminit : K () :=
  kpgtbl ← kvmmake;
  modify (λ s, s <| k_kernel_pagetable := kpgtbl |>).

Definition SATP_SV39 : Z := Z.shiftl 8 60.
Definition MAKE_SATP (pagetable : Z) : Z := Z.lor SATP_SV39 (Z.shiftr pagetable 12).

Definition kvminithart : K () :=
  kpgtbl ← gets k_kernel_pagetable;
  write_csr (λ c, c <| r_satp := MAKE_SATP kpgtbl |>).

Definition uvmunmap (pagetable va npages : Z) (do_free : bool) : K () :=
  panic_if (negb (va mod PGSIZE =? 0)) "uvmunmap: not aligned";;
  while_ (λ a,
    if a <? u64 (va + npages * PGSIZE) then
      slot ← walk pagetable a false;
      panic_if (slot =? 0) "uvmunmap: walk";;
      pte ← ld64 slot;
      panic_if (Z.land pte PTE_V =? 0) "uvmunmap: not mapped";;
      panic_if (PTE_FLAGS pte =? PTE_V) "uvmunmap: not a leaf";;
      when do_free (kfree (PTE2PA pte));;
      st64 slot 0;;
      mret (inl (u64 (a + PGSIZE)))
    else mret (inr ())) va.

Definition uvmcreate : K Z :=
  pagetable ← kalloc;
  if pagetable =? 0 then mret 0
  else kmemset pagetable 0 PGSIZE;; mret pagetable.

(** Store the bytes of a kernel buffer at a kernel address. *)
Fixpoint store_bytes (m : memory) (a : Z) (bs : list Z) : memory :=
  match bs with
  | [] => m
  | b :: bs' => store_bytes (mupd m a b) (a + 1) bs'
  end.

Definition put_bytes (a : Z) (bs : list Z) : K () :=
  check (bool_decide (bs = []) || in_ram a (Z.of_nat (length bs))) "memmove";;
  modify (λ s, s <| k_mem ::= λ m, store_bytes m a bs |>).

(** The bytes at a kernel address. *)
Definition load_bytes (m : memory) (a : Z) (n : nat) : list Z :=
  (λ i, m (a + Z.of_nat i)) <$> seq 0 n.

Definition get_bytes (a n : Z) : K (list Z) :=
  check ((n =? 0) || in_ram a n) "memmove";;
  gets (λ s, load_bytes (k_mem s) a (Z.to_nat n)).

Definition uvmfirst (pagetable : Z) (src : list Z) : K () :=
  panic_if (PGSIZE <=? Z.of_nat (length src)) "uvmfirst: more than a page";;
  mem ← kalloc;
  kmemset mem 0 PGSIZE;;
  mappages pagetable 0 PGSIZE mem (Z.lor (Z.lor (Z.lor PTE_W PTE_R) PTE_X) PTE_U);;
  put_bytes mem src.

(** ** Growing and shrinking *)

Definition uvmdealloc (pagetable oldsz newsz : Z) : K Z :=
  if oldsz <=? newsz then mret oldsz
  else
    when (PGROUNDUP newsz <? PGROUNDUP oldsz) (
      let npages := i32 ((PGROUNDUP oldsz - PGROUNDUP newsz) / PGSIZE) in
      uvmunmap pagetable (PGROUNDUP newsz) npages true);;
    mret newsz.

Definition uvmalloc (pagetable oldsz newsz xperm : Z) : K Z :=
  if newsz <? oldsz then mret oldsz
  else
    let oldsz := PGROUNDUP oldsz in
    while_ (λ a,
      if a <? newsz then
        mem ← kalloc;
        if mem =? 0 then
          uvmdealloc pagetable a oldsz;;
          mret (inr 0)
        else
          kmemset mem 0 PGSIZE;;
          r ← mappages pagetable a PGSIZE mem (Z.lor (Z.lor PTE_R PTE_U) xperm);
          if negb (r =? 0) then
            kfree mem;;
            uvmdealloc pagetable a oldsz;;
            mret (inr 0)
          else mret (inl (u64 (a + PGSIZE)))
      else mret (inr newsz)) oldsz.

(** ** Freeing *)

(** A page table of this kernel has three levels; the recursion is given some
    more, and a table nested deeper than that is reported as still running. *)
Fixpoint freewalk_fuel (fuel : nat) (pagetable : Z) : K () :=
  match fuel with
  | O => blocked
  | S fuel' =>
      foreach (seqZ 0 512) (λ i,
        pte ← ld64 (pagetable + 8 * i);
        if ctrue (Z.land pte PTE_V) && (Z.land pte (Z.lor (Z.lor PTE_R PTE_W) PTE_X) =? 0) then
          freewalk_fuel fuel' (PTE2PA pte);;
          st64 (pagetable + 8 * i) 0
        else panic_if (ctrue (Z.land pte PTE_V)) "freewalk: leaf");;
      kfree pagetable
  end.

Definition freewalk (pagetable : Z) : K () := freewalk_fuel 8 pagetable.

Definition uvmfree (pagetable sz : Z) : K () :=
  when (0 <? sz) (uvmunmap pagetable 0 (PGROUNDUP sz / PGSIZE) true);;
  freewalk pagetable.

(** ** Copy-on-write fork *)

Definition uvmcopy (old new sz : Z) : K Z :=
  while_ (λ i,
    if i <? sz then
      slot ← walk old i false;
      panic_if (slot =? 0) "uvmcopy: pte should exist";;
      pte ← ld64 slot;
      panic_if (Z.land pte PTE_V =? 0) "uvmcopy: page not present";;
      let pa := PTE2PA pte in
      let flags := PTE_FLAGS pte in
      let flags := Z.land (Z.lor flags PTE_COW) (Z.lnot (Z.lor PTE_W PTE_V)) in
      st64 slot (Z.land (Z.lor pte PTE_COW) (Z.lnot PTE_W));;
      r ← mappages new i PGSIZE pa flags;
      if negb (r =? 0) then
        uvmunmap new 0 (i / PGSIZE) true;;
        mret (inr (-1))
      else
        refInc pa;;
        mret (inl (u64 (i + PGSIZE)))
    else mret (inr 0)) 0.

Definition uvmclear (pagetable va : Z) : K () :=
  slot ← walk pagetable va false;
  panic_if (slot =? 0) "uvmclear";;
  pte ← ld64 slot;
  st64 slot (Z.land pte (Z.lnot PTE_U)).

(** ** Copying between kernel and user memory *)

(** The part of [copyout] that gives a copy-on-write page its own copy; [false]
    is the early return of -1. *)
Definition copyout_cow (pagetable va0 pa0 : Z) : K bool :=
  mem ← kalloc;
  kmemmove mem pa0 PGSIZE;;
  r ← mappages pagetable va0 PGSIZE mem (Z.lor (Z.lor (Z.lor PTE_R PTE_W) PTE_X) PTE_U);
  if negb (r =? 0) then
    printk ("ERROR" +:+ nl) [];;
    mret false
  else
    kfree pa0;;
    mret true.

Definition copyout (pagetable dstva : Z) (src : list Z) : K Z :=
  while_ (λ '(dstva, src),
    if 0 <? Z.of_nat (length src) then
      let va0 := PGROUNDDOWN dstva in
      if MAXVA <=? va0 then mret (inr (-1))
      else
        pa0 ← walkaddr pagetable va0;
        slot ← walk pagetable va0 false;
        pte ← ld64 slot;
        ok ← (if ctrue (Z.land (PTE_FLAGS pte) PTE_COW) then copyout_cow pagetable va0 pa0
              else mret true);
        if negb ok then mret (inr (-1))
        else
          pa0 ← walkaddr pagetable va0;
          if pa0 =? 0 then mret (inr (-1))
          else
            let n := Z.min (PGSIZE - (dstva - va0)) (Z.of_nat (length src)) in
            put_bytes (pa0 + (dstva - va0)) (take (Z.to_nat n) src);;
            mret (inl (va0 + PGSIZE, drop (Z.to_nat n) src))
    else mret (inr 0)) (dstva, src).

Definition copyin (pagetable srcva len : Z) : K (Z * list Z) :=
  while_ (λ '(srcva, len, dst),
    if 0 <? len then
      let va0 := PGROUNDDOWN srcva in
      pa0 ← walkaddr pagetable va0;
      if pa0 =? 0 then mret (inr (-1, dst))
      else
        let n := Z.min (PGSIZE - (srcva - va0)) len in
        bs ← get_bytes (pa0 + (srcva - va0)) n;
        mret (inl (va0 + PGSIZE, len - n, dst ++ bs))
    else mret (inr (0, dst))) (srcva, len, []).

(** The inner loop of [copyinstr]: up to [n] bytes from [p], stopping after a NUL. *)
Fixpoint copyinstr_page (m : memory) (p : Z) (n : nat) : bool * list Z :=
  match n with
  | O => (false, [])
  | S n' =>
      if m p =? 0 then (true, [0])
      else let '(got_null, bs) := copyinstr_page m (p + 1) n' in (got_null, m p :: bs)
  end.

Definition copyinstr (pagetable srcva max : Z) : K (Z * list Z) :=
  while_ (λ '(srcva, max, got_null, dst),
    if negb got_null && (0 <? max) then
      let va0 := PGROUNDDOWN srcva in
      pa0 ← walkaddr pagetable va0;
      if pa0 =? 0 then mret (inr (-1, dst))
      else
        let n := Z.min (PGSIZE - (srcva - va0)) max in
        check (in_ram (pa0 + (srcva - va0)) n) "load";;
        '(got_null, bs) ← gets (λ s, copyinstr_page (k_mem s) (pa0 + (srcva - va0)) (Z.to_nat n));
        mret (inl (va0 + PGSIZE, max - Z.of_nat (length bs) + cbool got_null, got_null, dst ++ bs))
    else mret (inr (if got_null then 0 else -1, dst))) (srcva, max, false, []).
End Vm.
