(* ===== verification/VmInv.v ===== *)
(** * VmInv: the page-table invariant

    All page tables of the kernel live in one memory and share one page
    allocator, so the invariant covers all of them at once:

    - [D] names the table pages: [(root, [])] is a root, [(root, [i])] and
      [(root, [i; j])] are the tables below it;
    - [M] names the pages that leaf entries own: [(root, [i; j; k])] is bound to
      the physical page of an entry that holds one reference to it; an entry
      that owns no page (device registers, the trampoline, a trapframe, the
      kernel's direct map) is not accessible to user code;
    - [own] counts the references held elsewhere (by a process for its
      trapframe, by a pipe, by a routine that has not mapped its page yet).

    [own p] is not negative except inside [uvmcopy], which maps a page a second
    time before it counts the new reference.

    The count of every page is the sum of the three, so a page that any page
    table maps is never on the free list, and a copy-on-write page is freed
    exactly when its last user goes. *)

From S2P Require Import Prelude Params CString State Spinlock PhysMem Kalloc Vm.

Abbreviation node := (Z * list Z)%type.

(** Entry [i] of the table at [p]. *)
Definition ent (m : memory) (p i : Z) : Z := le_load m (p + 8 * i) 8.

(** What the MMU finds for [va]: the leaf entry, 0 when a table is missing. *)
Definition pte_at (m : memory) (root va : Z) : Z :=
  let e2 := ent m root (PX 2 va) in
  if Z.land e2 PTE_V =? 0 then 0
  else
    let e1 := ent m (PTE2PA e2) (PX 1 va) in
    if Z.land e1 PTE_V =? 0 then 0 else ent m (PTE2PA e1) (PX 0 va).

(** The key of a leaf. *)
Definition leaf (root va : Z) : node := (root, [PX 2 va; PX 1 va; PX 0 va]).

(** How many keys are bound to [p]. *)
Definition cnt (X : gmap node Z) (p : Z) : Z := Z.of_nat (size (filter (λ kv, kv.2 = p) X)).

(** A well-formed leaf entry: valid, and readable (every mapping the kernel
    makes has [PTE_R], which tells leaves from pointers to tables). *)
Definition good_pte (pte pa : Z) : Prop :=
  ∃ f, pte = mkpte pa f ∧ 0 ≤ pa < 2 ^ 56 ∧ pa mod 4096 = 0 ∧ 0 ≤ f < 1024 ∧ Z.land f PTE_V ≠ 0 ∧ Z.land f PTE_R ≠ 0.

Section Inv.
Context `{!Image}.

(** The tables in memory agree with [D] and [M]. *)
Record pt_ok (D M : gmap node Z) (m : memory) : Prop := PtOk {
  po_root : ∀ r p, D !! (r, []) = Some p → p = r;
  po_up : ∀ r path i q, D !! (r, path ++ [i]) = Some q →
    0 ≤ i < 512 ∧ (length path < 2)%nat ∧ is_Some (D !! (r, path));
  po_node : ∀ r path p i, D !! (r, path) = Some p → (length path < 2)%nat → 0 ≤ i < 512 →
    ent m p i = match D !! (r, path ++ [i]) with Some q => mkpte q PTE_V | None => 0 end;
  po_leaf : ∀ r i j k p, D !! (r, [i; j]) = Some p → 0 ≤ k < 512 →
    match M !! (r, [i; j; k]) with
    | Some pa => good_pte (ent m p k) pa ∧ page pa
    | None => ent m p k = 0 ∨ ∃ pa, good_pte (ent m p k) pa ∧ Z.land (ent m p k) PTE_U = 0
    end;
  po_dom : ∀ k pa, M !! k = Some pa →
    ∃ r a b c, k = (r, [a; b; c]) ∧ 0 ≤ c < 512 ∧ is_Some (D !! (r, [a; b]));
  po_low : ∀ r i q, D !! (r, [i]) = Some q → i < 256;
}.

(** The whole invariant. *)
Record vm_inv (own : Z → Z) (D M : gmap node Z) (l : list Z) (s : kstate) : Prop := VmInv {
  vi_ready : kmem_ready s;
  vi_kmem : kmem_inv l s;
  vi_own : ∀ p, 0 ≤ own p ∨ 1 ≤ own p + cnt M p;
  vi_refs : ∀ p, page p → refs s p = own p + cnt D p + cnt M p;
  vi_table : ∀ k p, D !! k = Some p → page p ∧ refs s p = 1;
  vi_pt : pt_ok D M (k_mem s);
}.

(** No page is mapped more often than it is counted. *)
Definition nonneg (own : Z → Z) : Prop := ∀ p, 0 ≤ own p.
End Inv.
Arguments vi_ready {_ _ _ _ _ _} _.
Arguments vi_kmem {_ _ _ _ _ _} _.
Arguments vi_own {_ _ _ _ _ _} _ _.
Arguments vi_refs {_ _ _ _ _ _} _ _ _.
Arguments vi_table {_ _ _ _ _ _} _ _ _ _.
Arguments vi_pt {_ _ _ _ _ _} _.
Arguments po_root {_ _ _ _} _ _ _ _.
Arguments po_up {_ _ _ _} _ _ _ _ _ _.
Arguments po_node {_ _ _ _} _ _ _ _ _ _ _ _.
Arguments po_leaf {_ _ _ _} _ _ _ _ _ _ _ _.
Arguments po_dom {_ _ _ _} _ _ _ _.
Arguments po_low {_ _ _ _} _ _ _ _.

(** ** Counting *)

Section Cnt.
Implicit Types (X : gmap node Z) (k : node) (p q : Z).

Lemma cnt_nonneg X p : 0 ≤ cnt X p.
Proof. unfold cnt. lia. Qed.

Lemma cnt_insert X k p q :
  X !! k = None → cnt (<[k := q]> X) p = cnt X p + (if decide (q = p) then 1 else 0).
Proof.
  intros Hk. unfold cnt. case_decide as Hd.
  - rewrite map_filter_insert_True by done. rewrite map_size_insert_None; [lia|].
    apply map_lookup_filter_None. left. done.
  - rewrite map_filter_insert_False by done. rewrite delete_id by done. lia.
Qed.

Lemma cnt_delete X k p q :
  X !! k = Some q → cnt (delete k X) p = cnt X p - (if decide (q = p) then 1 else 0).
Proof.
  intros Hk. rewrite <- (insert_delete_id X k q Hk) at 2. rewrite cnt_insert; [lia|].
  apply lookup_delete_eq.
Qed.

Lemma cnt_update X k p q t :
  X !! k = Some p →
  cnt (<[k := q]> X) t = cnt X t - (if decide (p = t) then 1 else 0) + (if decide (q = t) then 1 else 0).
Proof.
  intros Hk. rewrite <- insert_delete_eq, cnt_insert by apply lookup_delete_eq.
  by rewrite (cnt_delete X k t p Hk).
Qed.

Lemma cnt_pos X k p : X !! k = Some p → 1 ≤ cnt X p.
Proof.
  intros Hk. rewrite <- (insert_delete_id X k p Hk), cnt_insert by apply lookup_delete_eq.
  rewrite decide_True by done. pose proof (cnt_nonneg (delete k X) p). lia.
Qed.

Lemma cnt_two X k k' p : X !! k = Some p → X !! k' = Some p → k ≠ k' → 2 ≤ cnt X p.
Proof.
  intros Hk Hk' Hne. rewrite <- (insert_delete_id X k p Hk), cnt_insert by apply lookup_delete_eq.
  rewrite decide_True by done. pose proof (cnt_pos (delete k X) k' p). 
  rewrite lookup_delete_ne in H by done. specialize (H Hk'). lia.
Qed.

Lemma cnt_ex X p : cnt X p ≠ 0 → ∃ k, X !! k = Some p.
Proof.
  intros Hne. destruct (decide (filter (λ kv : node * Z, kv.2 = p) X = ∅)) as [E|E].
  - unfold cnt in Hne. rewrite E, map_size_empty in Hne. done.
  - apply map_choose in E as (k & q & Hk). apply map_lookup_filter_Some in Hk as [Hk Hq].
    simpl in Hq. subst. eauto.
Qed.

Lemma cnt_zero X p : cnt X p = 0 → ∀ k, X !! k ≠ Some p.
Proof. intros Hz k Hk. apply cnt_pos in Hk. lia. Qed.
End Cnt.

(** ** Entries of table pages *)

Section Entries.
Context `{!Image} `{!ImageOK}.
Implicit Types (m : memory) (p q i j : Z).

Lemma page_range p : page p → 0 ≤ p < 2 ^ 56 ∧ p mod 4096 = 0.
Proof.
  intros Hp. apply page_bounds in Hp as (H1 & H2 & H3).
  rewrite KERNBASE_val, PHYSTOP_val in *. unfold PGSIZE in *. split; [lia|done].
Qed.

Lemma ent_in_ram p i : page p → 0 ≤ i < 512 → in_ram (p + 8 * i) 8 = true.
Proof.
  intros Hp Hi. apply page_bounds in Hp as (H1 & H2 & H3). apply in_ram_spec.
  unfold PGSIZE in *. lia.
Qed.

Lemma ent_ext m m' p i :
  0 ≤ i < 512 → (∀ x, p ≤ x < p + PGSIZE → m' x = m x) → ent m' p i = ent m p i.
Proof. intros Hi Hm. apply le_load_ext. intros x Hx. apply Hm. unfold PGSIZE. lia. Qed.

Lemma memset_out m q c x : x < q ∨ q + PGSIZE ≤ x → memset m q c PGSIZE x = m x.
Proof.
  intros Hx. rewrite memset_spec by (unfold PGSIZE; lia). unfold PGSIZE in *.
  destruct (Z.leb_spec q x), (Z.ltb_spec x (q + 4096)); simpl; lia || done.
Qed.

Lemma ent_memset m p q c i :
  page p → page q → p ≠ q → 0 ≤ i < 512 → ent (memset m q c PGSIZE) p i = ent m p i.
Proof.
  intros Hp Hq Hne Hi. apply ent_ext; [done|]. intros x Hx. apply memset_out.
  pose proof (page_disjoint p q Hp Hq Hne). unfold PGSIZE in *. lia.
Qed.

Lemma ent_zeroed m q i : 0 ≤ i < 512 → ent (memset m q 0 PGSIZE) q i = 0.
Proof.
  intros Hi. apply le_load_zero. intros x Hx. rewrite memset_spec by (unfold PGSIZE; lia).
  unfold PGSIZE. destruct (Z.leb_spec q x), (Z.ltb_spec x (q + 4096)); simpl; lia || done.
Qed.

Lemma ent_store_eq m p i v : 0 ≤ v < 2 ^ 64 → ent (le_store m (p + 8 * i) v 8) p i = v.
Proof. intros Hv. unfold ent. rewrite le_load_store. by apply Z.mod_small. Qed.

Lemma ent_store_ne m p i q j v :
  page p → page q → 0 ≤ i < 512 → 0 ≤ j < 512 → (p ≠ q ∨ i ≠ j) →
  ent (le_store m (q + 8 * j) v 8) p i = ent m p i.
Proof.
  intros Hp Hq Hi Hj Hne. apply le_load_store_ne. change (Z.of_nat 8) with 8.
  destruct (decide (p = q)) as [->|Hd]; [lia|].
  pose proof (page_disjoint p q Hp Hq Hd). unfold PGSIZE in *. lia.
Qed.

Lemma store_out m q j v x : 0 ≤ j < 512 → x < q ∨ q + PGSIZE ≤ x → le_store m (q + 8 * j) v 8 x = m x.
Proof. intros Hj Hx. apply le_store_other. change (Z.of_nat 8) with 8. unfold PGSIZE in *. lia. Qed.

Lemma PTE_V_range : 0 ≤ PTE_V < 1024.
Proof. by vm_compute. Qed.

Lemma mkpte_V q : page q → Z.land (mkpte q PTE_V) PTE_V = 1.
Proof.
  intros Hq. apply page_range in Hq as [Hr Ha].
  rewrite land_flags, mkpte_flags by (done || apply PTE_V_range).
  reflexivity.
Qed.

Lemma mkpte_V_pa q : page q → PTE2PA (mkpte q PTE_V) = q.
Proof. intros Hq. apply page_range in Hq as [Hr Ha]. apply mkpte_pa; done. Qed.

Lemma mkpte_u64 q f : 0 ≤ q < 2 ^ 56 → 0 ≤ f < 1024 → 0 ≤ mkpte q f < 2 ^ 64.
Proof.
  intros H1 H2. pose proof (mkpte_range q f H1 H2).
  change (2 ^ 54) with 18014398509481984 in *. change (2 ^ 64) with 18446744073709551616. lia.
Qed.

Lemma good_pte_pa pte pa : good_pte pte pa → PTE2PA pte = pa.
Proof. intros (f & -> & H1 & H2 & H3 & _). by apply mkpte_pa. Qed.

Lemma good_pte_V pte pa : good_pte pte pa → Z.land pte PTE_V ≠ 0.
Proof.
  intros (f & -> & H1 & H2 & H3 & H4 & _). rewrite land_flags by apply PTE_V_range.
  by rewrite mkpte_flags.
Qed.

Lemma good_pte_leaf pte pa : good_pte pte pa → PTE_FLAGS pte ≠ PTE_V.
Proof.
  intros (f & -> & H1 & H2 & H3 & _ & H5). rewrite mkpte_flags by done. by intros ->.
Qed.

Lemma good_pte_nonzero pte pa : good_pte pte pa → pte ≠ 0.
Proof. intros Hg ->. by apply good_pte_V in Hg. Qed.

Lemma good_pte_u64 pte pa : good_pte pte pa → 0 ≤ pte < 2 ^ 64.
Proof. intros (f & -> & H1 & H2 & H3 & _). by apply mkpte_u64. Qed.

(** Pages written by a walk that allocates: free pages and tables; every other
    address keeps its contents. *)
Definition protected (D : gmap node Z) (s : kstate) (x : Z) : Prop :=
  ∀ p, page p → p ≤ x < p + PGSIZE → 1 ≤ refs s p ∧ ∀ k, D !! k ≠ Some p.

(** The kernel state apart from the machine, memory and the allocator. *)
Definition others (s : kstate) :=
  (k_procs s, k_initproc s, k_nextpid s, k_lfsr s, k_bit s, k_ticks s, k_queues s,
   k_first s, k_kernel_pagetable s, k_out s, k_fs s, k_cons s, k_irq s).

(** Only memory, the allocator and the saved [intena] may differ. *)
Definition mem_only (s s' : kstate) : Prop :=
  (k_mach s' = k_mach s ∨ k_mach s' = settle (k_mach s)) ∧ others s' = others s.

Lemma mem_only_refl s : mem_only s s.
Proof. split; [by left|done]. Qed.

Lemma mem_only_trans s1 s2 s3 :
  wf_mach (k_mach s1) → mem_only s1 s2 → mem_only s2 s3 → mem_only s1 s3.
Proof.
  intros Hwf [Hm1 Ho1] [Hm2 Ho2]. split; [|congruence].
  destruct Hm1 as [Hm1|Hm1]; rewrite Hm1 in Hm2; [done|].
  right. destruct Hm2 as [->| ->]; [done|]. by apply settle_settle.
Qed.
End Entries.

(** ** Consequences of the invariant *)

Section Walk.
Context `{!Image} `{!ImageOK}.
Implicit Types (own : Z → Z) (D M : gmap node Z) (l : list Z) (s : kstate) (e : env).

(** The address of the leaf entry of [va]. *)
Definition slot_of D r va : Z :=
  match D !! (r, [PX 2 va; PX 1 va]) with Some p => p + 8 * PX 0 va | None => 0 end.

Section Facts.
Context {own D M l s} (HI : vm_inv own D M l s).

Lemma table_page k p : D !! k = Some p → page p.
Proof. intros Hk. apply (vi_table HI k p Hk). Qed.

Lemma table_refs k p : D !! k = Some p → refs s p = 1.
Proof. intros Hk. apply (vi_table HI k p Hk). Qed.

Lemma table_inj k k' p : D !! k = Some p → D !! k' = Some p → k = k'.
Proof.
  intros Hk Hk'. destruct (decide (k = k')) as [|Hne]; [done|exfalso].
  pose proof (cnt_two D k k' p Hk Hk' Hne). destruct (vi_table HI k p Hk) as [Hp Hr].
  rewrite (vi_refs HI p Hp) in Hr. pose proof (vi_own HI p).
  pose proof (cnt_nonneg M p). lia.
Qed.

Lemma table_excl k p : D !! k = Some p → own p = 0 ∧ cnt M p = 0.
Proof.
  intros Hk. pose proof (cnt_pos D k p Hk). destruct (vi_table HI k p Hk) as [Hp Hr].
  rewrite (vi_refs HI p Hp) in Hr. pose proof (vi_own HI p).
  pose proof (cnt_nonneg M p). lia.
Qed.

Lemma free_unused p : page p → refs s p = 0 → own p = 0 ∧ cnt D p = 0 ∧ cnt M p = 0.
Proof.
  intros Hp Hr. rewrite (vi_refs HI p Hp) in Hr. pose proof (vi_own HI p).
  pose proof (cnt_nonneg M p). pose proof (cnt_nonneg D p). lia.
Qed.

Lemma free_head q l' : l = q :: l' → page q ∧ refs s q = 0.
Proof.
  intros ->. destruct HI as [_ [_ _ [Hq _]%Forall_cons _ Hf] _ _ _ _]. split; [done|].
  apply Hf; [done|by left].
Qed.

Lemma entry_of r path p i :
  D !! (r, path) = Some p → (length path < 2)%nat → 0 ≤ i < 512 →
  ent (k_mem s) p i = match D !! (r, path ++ [i]) with Some q => mkpte q PTE_V | None => 0 end.
Proof. apply (po_node (vi_pt HI)). Qed.

Lemma parent_of r path i q : D !! (r, path ++ [i]) = Some q → is_Some (D !! (r, path)).
Proof. intros Hk. apply (po_up (vi_pt HI) r path i q Hk). Qed.

(** The MMU's walk, in terms of [D]. *)
Lemma pte_at_D r va :
  0 ≤ va → D !! (r, []) = Some r →
  pte_at (k_mem s) r va =
    match D !! (r, [PX 2 va; PX 1 va]) with Some p => ent (k_mem s) p (PX 0 va) | None => 0 end.
Proof.
  intros Hva Hr. unfold pte_at.
  pose proof (PX_range 2 va ltac:(lia)) as H2. pose proof (PX_range 1 va ltac:(lia)) as H1.
  rewrite (entry_of r [] r (PX 2 va) Hr) by (simpl; lia). cbn [app].
  destruct (D !! (r, [PX 2 va])) as [p|] eqn:E2.
  - pose proof (table_page _ _ E2) as Hp. rewrite mkpte_V, mkpte_V_pa by done. cbn [Z.eqb].
    rewrite (entry_of r [PX 2 va] p (PX 1 va) E2) by (simpl; lia). cbn [app].
    destruct (D !! (r, [PX 2 va; PX 1 va])) as [q|] eqn:E1; [|done].
    pose proof (table_page _ _ E1) as Hq. by rewrite mkpte_V, mkpte_V_pa by done.
  - destruct (D !! (r, [PX 2 va; PX 1 va])) as [q|] eqn:E1; [|done].
    apply (parent_of r [PX 2 va] _ q) in E1 as [? ?]. congruence.
Qed.

(** One level of the walk follows an existing table. *)
Lemma walk_level_follow r path p q level va b e :
  D !! (r, path) = Some p → (length path < 2)%nat → 0 ≤ level →
  D !! (r, path ++ [PX level va]) = Some q →
  walk_level p level va b e s = Ret (Some q) e s.
Proof.
  intros Hp Hlen Hl Hq. pose proof (PX_range level va Hl) as Hi. unfold walk_level.
  run (ld64_run _ e s (ent_in_ram p _ (table_page _ _ Hp) Hi)).
  change (le_load (k_mem s) (p + 8 * PX level va) 8) with (ent (k_mem s) p (PX level va)).
  rewrite (entry_of r path p _ Hp Hlen Hi), Hq.
  pose proof (table_page _ _ Hq). by rewrite mkpte_V, mkpte_V_pa.
Qed.

Lemma walk_level_missing r path p level va e :
  D !! (r, path) = Some p → (length path < 2)%nat → 0 ≤ level →
  D !! (r, path ++ [PX level va]) = None →
  walk_level p level va false e s = Ret None e s.
Proof.
  intros Hp Hlen Hl Hq. pose proof (PX_range level va Hl) as Hi. unfold walk_level.
  run (ld64_run _ e s (ent_in_ram p _ (table_page _ _ Hp) Hi)).
  change (le_load (k_mem s) (p + 8 * PX level va) 8) with (ent (k_mem s) p (PX level va)).
  by rewrite (entry_of r path p _ Hp Hlen Hi), Hq.
Qed.

(** [walk] of an address whose tables exist. *)
Lemma walk_follow r va p b e :
  0 ≤ va < MAXVA → D !! (r, []) = Some r → D !! (r, [PX 2 va; PX 1 va]) = Some p →
  walk r va b e s = Ret (p + 8 * PX 0 va) e s.
Proof.
  intros Hva Hr Hp. unfold walk. krun. destruct (Z.leb_spec MAXVA va); [lia|]. cbn [walk_levels].
  destruct (parent_of r [PX 2 va] _ p Hp) as [q Hq].
  erewrite bind_Ret by (eapply (walk_level_follow r []); simpl; [done|lia|lia|done]). cbv beta iota.
  by erewrite bind_Ret by (eapply (walk_level_follow r [PX 2 va]); simpl; [done|lia|lia|done]).
Qed.

(** [walk] without allocation only reads. *)
Lemma walk_noalloc r va e :
  0 ≤ va < MAXVA → D !! (r, []) = Some r → walk r va false e s = Ret (slot_of D r va) e s.
Proof.
  intros Hva Hr. unfold walk. krun. destruct (Z.leb_spec MAXVA va); [lia|]. unfold slot_of.
  cbn [walk_levels]. destruct (D !! (r, [PX 2 va])) as [p|] eqn:E2.
  - erewrite bind_Ret by (eapply (walk_level_follow r []); simpl; [done|lia|lia|done]).
    destruct (D !! (r, [PX 2 va; PX 1 va])) as [q|] eqn:E1.
    + erewrite bind_Ret by (eapply (walk_level_follow r [PX 2 va]); simpl; [done|lia|lia|done]).
      done.
    + erewrite bind_Ret by (eapply (walk_level_missing r [PX 2 va]); simpl; [done|lia|lia|done]).
      done.
  - erewrite bind_Ret by (eapply (walk_level_missing r []); simpl; [done|lia|lia|done]). krun.
    destruct (D !! (r, [PX 2 va; PX 1 va])) as [q|] eqn:E1; [|done].
    apply (parent_of r [PX 2 va] _ q) in E1 as [? ?]. congruence.
Qed.
End Facts.

(** ** Allocating a table *)

(** A step that may add tables and change translations by [φ]: the contents
    and counts of all pages in use, the tables apart, are unchanged. *)
Record evolves (φ : Z → Z → Z → Z) D s D' s' : Prop := Evolves {
  ev_sub : D ⊆ D';
  ev_new : ∀ k p, D' !! k = Some p → D !! k = Some p ∨ refs s p = 0;
  ev_roots : ∀ r, D' !! (r, []) = D !! (r, []);
  ev_only : mem_only s s';
  ev_mem : ∀ x, protected D s x → k_mem s' x = k_mem s x;
  ev_refs : ∀ p, page p → 1 ≤ refs s p → refs s' p = refs s p;
  ev_pte : ∀ r va, 0 ≤ va < MAXVA → D !! (r, []) = Some r →
    pte_at (k_mem s') r va = φ r va (pte_at (k_mem s) r va);
}.
#[local] Abbreviation grows := (evolves (λ _ _ o, o)).

Lemma evolves_refl D s : grows D s D s.
Proof. split; auto using mem_only_refl. Qed.

Lemma evolves_trans φ1 φ2 φ own1 M1 l1 own3 M3 l3 D1 s1 D2 s2 D3 s3 :
  vm_inv own1 D1 M1 l1 s1 → vm_inv own3 D3 M3 l3 s3 →
  (∀ r va o, 0 ≤ va < MAXVA → φ2 r va (φ1 r va o) = φ r va o) →
  evolves φ1 D1 s1 D2 s2 → evolves φ2 D2 s2 D3 s3 → evolves φ D1 s1 D3 s3.
Proof.
  intros HI1 HI3 Hφ [A1 A2 A3 A4 A5 A6 A7] [B1 B2 B3 B4 B5 B6 B7].
  assert (∀ k p, D3 !! k = Some p → D1 !! k = Some p ∨ refs s1 p = 0) as Hnew.
  { intros k p Hk. destruct (B2 k p Hk) as [H2|H2]; [by apply A2|].
    pose proof (table_page HI3 k p Hk) as Hp. pose proof (ki_refs _ _ (vi_kmem HI1) p Hp).
    destruct (decide (refs s1 p = 0)); [by right|]. rewrite A6 in H2 by (done || lia). lia. }
  split.
  - by transitivity D2.
  - done.
  - intros r. by rewrite B3, A3.
  - eapply mem_only_trans; [apply (vi_ready HI1)|done|done].
  - intros x Hx. rewrite B5, A5; [done|done|]. intros p Hp Hin.
    destruct (Hx p Hp Hin) as [H1 H2]. split; [by rewrite A6|].
    intros k Hk. destruct (A2 k p Hk); [by eapply H2|lia].
  - intros p Hp Hr. rewrite B6, A6; [done|done|done|done|]. by rewrite A6.
  - intros r va Hva Hr. rewrite B7, A7; [by apply Hφ|done|done|done|]. by rewrite A3.
Qed.

(** The state after a new table [q] is entered in slot [i] of table [p]. *)
Definition st_table (q p i : Z) (s : kstate) : kstate :=
  st_alloc q s <| k_mem ::= λ m, le_store (memset m q 0 PGSIZE) (p + 8 * i) (mkpte q PTE_V) 8 |>.

Section NewTable.
Context {own D M l s r path p i q}
  (HI : vm_inv own D M (q :: l) s)
  (Hp : D !! (r, path) = Some p) (Hlen : (length path < 2)%nat) (Hi : 0 ≤ i < 512)
  (Hnone : D !! (r, path ++ [i]) = None) (Hlow : path = [] → i < 256).

#[local] Abbreviation D' := (<[(r, path ++ [i]) := q]> D).
#[local] Abbreviation s' := (st_table q p i s).

Lemma nt_q : page q ∧ refs s q = 0 ∧ own q = 0 ∧ cnt D q = 0 ∧ cnt M q = 0.
Proof.
  destruct (free_head HI q l eq_refl) as [Hq Hz]. split; [done|]. split; [done|].
  by apply (free_unused HI).
Qed.

Lemma nt_ne k t : D !! k = Some t → t ≠ q.
Proof. intros Hk ->. destruct nt_q as (_ & _ & _ & Hz & _). by apply (cnt_zero _ _ Hz k). Qed.

Lemma nt_ent t j : page t → t ≠ q → 0 ≤ j < 512 → (t ≠ p ∨ j ≠ i) → ent (k_mem s') t j = ent (k_mem s) t j.
Proof.
  intros Ht Hne Hj Hor. destruct nt_q as (Hq & _). pose proof (table_page HI _ _ Hp) as Hpp.
  change (k_mem s') with
    (le_store (memset (memset (k_mem s) q 5 PGSIZE) q 0 PGSIZE) (p + 8 * i) (mkpte q PTE_V) 8).
  rewrite ent_store_ne by (done || lia). by rewrite !ent_memset.
Qed.

Lemma nt_ent_slot : ent (k_mem s') p i = mkpte q PTE_V.
Proof.
  destruct nt_q as (Hq & _). apply ent_store_eq, mkpte_u64; [by apply page_range|apply PTE_V_range].
Qed.

Lemma nt_ent_new j : 0 ≤ j < 512 → ent (k_mem s') q j = 0.
Proof.
  intros Hj. destruct nt_q as (Hq & _). pose proof (table_page HI _ _ Hp) as Hpp.
  pose proof (nt_ne _ _ Hp). 
  change (k_mem s') with
    (le_store (memset (memset (k_mem s) q 5 PGSIZE) q 0 PGSIZE) (p + 8 * i) (mkpte q PTE_V) 8).
  rewrite ent_store_ne by (done || lia || (left; congruence)). by apply ent_zeroed.
Qed.

Lemma nt_mem x : x < q ∨ q + PGSIZE ≤ x → x < p ∨ p + PGSIZE ≤ x → k_mem s' x = k_mem s x.
Proof.
  intros Hq Hx.
  change (k_mem s') with
    (le_store (memset (memset (k_mem s) q 5 PGSIZE) q 0 PGSIZE) (p + 8 * i) (mkpte q PTE_V) 8).
  by rewrite store_out, !memset_out.
Qed.

Lemma nt_refs t : page t → refs s' t = refs s t + (if decide (q = t) then 1 else 0).
Proof.
  intros Ht. destruct nt_q as (Hq & _).
  unfold st_table. rewrite refs_mem. unfold st_alloc.
  case_decide as Hd; [subst; by rewrite refs_st_ref_eq|]. rewrite refs_st_ref_ne by done.
  change (refs s t = refs s t + 0). lia.
Qed.

Lemma nt_kmem : kmem_inv l s'.
Proof.
  pose proof (kmem_inv_alloc q l s (vi_kmem HI)) as HK. destruct nt_q as (Hq & Hz & _).
  apply kmem_inv_mem; [done|]. intros t Ht.
  assert (page t) as Hpt by (eapply Forall_forall; [apply (ki_page _ _ HK)|done]).
  assert (t ≠ q ∧ t ≠ p) as [Hq1 Hp1].
  { pose proof (proj1 (ki_free _ _ HK t Hpt) Ht) as Hrt. unfold st_alloc in Hrt.
    destruct (decide (q = t)) as [<-|Hne]; [rewrite refs_st_ref_eq in Hrt; lia|].
    rewrite refs_st_ref_ne in Hrt by done. split; [done|]. intros ->.
    pose proof (table_refs HI _ _ Hp) as Hone. change (refs s p = 0) in Hrt. lia. }
  pose proof (nt_ent t 0 Hpt Hq1 ltac:(lia) (or_introl Hp1)) as E. unfold ent in E.
  rewrite Z.mul_0_r, Z.add_0_r in E. etransitivity; [exact E|]. symmetry.
  apply memset_page_load; [done|done|congruence].
Qed.

Lemma nt_lookup k : D' !! k = if decide (k = (r, path ++ [i])) then Some q else D !! k.
Proof.
  case_decide as Hd; [subst; apply lookup_insert_eq|]. apply lookup_insert_ne. congruence.
Qed.

Lemma nt_pt : pt_ok D' M (k_mem s').
Proof.
  pose proof (vi_pt HI) as [H1 H2 H3 H4 H5 H6]. destruct nt_q as (Hq & _ & _ & _ & HMq).
  assert (∀ x, D' !! (r, (path ++ [i]) ++ [x]) = None) as Hleaf.
  { intros x. rewrite nt_lookup. rewrite decide_False; [|intros [=E]; apply (f_equal length) in E;
      rewrite !length_app in E; simpl in E; lia].
    destruct (D !! (r, (path ++ [i]) ++ [x])) eqn:E; [|done].
    apply H2 in E as (_ & _ & [? ?]). congruence. }
  split.
  - intros r' t Ht. rewrite nt_lookup in Ht. case_decide as Hd; [|by apply H1].
    injection Hd as -> E. by destruct path.
  - intros r' path' j t Ht. rewrite !nt_lookup in *. case_decide as Hd.
    + injection Hd as -> E. apply app_inj_tail in E as [-> ->].
      split_and!; [lia|lia|done|]. rewrite decide_False; [by rewrite Hp|].
      intros [=E]. apply (f_equal length) in E. rewrite length_app in E. simpl in E. lia.
    + destruct (H2 r' path' j t Ht) as (? & ? & ?). split_and!; [lia|lia|done|]. by case_decide.
  - intros r' path' t j Ht Hl Hj. rewrite (nt_lookup (r', path')) in Ht. case_decide as Hd.
    + injection Hd as -> ->. injection Ht as <-. rewrite Hleaf. by apply nt_ent_new.
    + pose proof (table_page HI _ _ Ht) as Hpt. pose proof (nt_ne _ _ Ht) as Hne.
      rewrite nt_lookup. case_decide as Hd'.
      * injection Hd' as -> E. apply app_inj_tail in E as [-> ->].
        rewrite Hp in Ht. injection Ht as <-. apply nt_ent_slot.
      * rewrite nt_ent; [by apply H3|done|done|done|].
        destruct (decide (t = p)) as [->|]; [|by left]. right. intros ->.
        apply Hd'. pose proof (table_inj HI _ _ _ Ht Hp) as E. injection E as -> ->. done.
  - intros r' a b c t Ht Hc. rewrite nt_lookup in Ht. case_decide as Hd.
    + injection Ht as <-. destruct (M !! (r', [a; b; c])) as [pa|] eqn:E.
      * apply H5 in E as (? & ? & ? & ? & [= <- <- <- <-] & _ & [? E']).
        rewrite Hd in E'. congruence.
      * left. by apply nt_ent_new.
    + pose proof (table_page HI _ _ Ht) as Hpt. pose proof (nt_ne _ _ Ht) as Hne.
      rewrite nt_ent; [by apply (H4 r' a b c t)|done|done|done|]. left. intros ->.
      pose proof (table_inj HI _ _ _ Ht Hp) as E. injection E as -> <-. simpl in Hlen. lia.
  - intros k pa Hk. apply H5 in Hk as (r' & a & b & c & -> & Hc & HD). exists r', a, b, c.
    split_and!; [done|lia|lia|]. rewrite nt_lookup. by case_decide.
  - intros r' a t Ht. rewrite nt_lookup in Ht. case_decide as Hd; [|by apply (H6 r' a t)].
    injection Hd as -> E. apply (app_inj_tail [] path a i) in E as [<- ->]. by apply Hlow.
Qed.

Lemma vm_inv_table : vm_inv own D' M l s'.
Proof.
  destruct nt_q as (Hq & Hz & Ho & HDq & HMq). split.
  - by apply (kmem_ready_settle s), (vi_ready HI).
  - apply nt_kmem.
  - apply (vi_own HI).
  - intros t Ht. rewrite nt_refs, (vi_refs HI t Ht), cnt_insert by done. lia.
  - intros k t Hk. rewrite nt_lookup in Hk. case_decide as Hd.
    + injection Hk as <-. split; [done|]. rewrite nt_refs, decide_True by done. lia.
    + destruct (vi_table HI k t Hk) as [Ht Hr]. split; [done|].
      rewrite nt_refs, decide_False by (done || (intros <-; by apply (nt_ne _ _ Hk))). lia.
  - apply nt_pt.
Qed.

Lemma grows_table : grows D s D' s'.
Proof.
  destruct nt_q as (Hq & Hz & Ho & HDq & HMq). pose proof (table_page HI _ _ Hp) as Hpp.
  split.
  - by apply insert_subseteq.
  - intros k t Hk. rewrite nt_lookup in Hk. case_decide; [|by left]. right. congruence.
  - intros r'. rewrite nt_lookup, decide_False; [done|]. intros [=_ E]. by destruct path.
  - split; [by right|done].
  - intros x Hx. apply nt_mem.
    + destruct (Z.le_gt_cases q x), (Z.lt_ge_cases x (q + PGSIZE)); try lia.
      destruct (Hx q Hq ltac:(lia)). lia.
    + destruct (Z.le_gt_cases p x), (Z.lt_ge_cases x (p + PGSIZE)); try lia.
      destruct (Hx p Hpp ltac:(lia)) as [_ Hx']. by apply Hx' in Hp.
  - intros t Ht Hr. rewrite nt_refs by done. case_decide; subst; lia.
  - intros r' va [Hva _] Hr'. rewrite (pte_at_D vm_inv_table), (pte_at_D HI) by
      (done || (rewrite nt_lookup, decide_False; [done|]; intros [=_ E]; by destruct path)).
    rewrite nt_lookup. pose proof (PX_range 0 va ltac:(lia)). case_decide as Hd.
    + injection Hd as -> E. rewrite nt_ent_new by done. rewrite E. by rewrite Hnone.
    + destruct (D !! (r', [PX 2 va; PX 1 va])) as [t|] eqn:Ht; [|done].
      rewrite nt_ent; [done|by apply (table_page HI _ _ Ht)|by apply (nt_ne _ _ Ht)|done|].
      left. intros ->. pose proof (table_inj HI _ _ _ Ht Hp) as E. injection E as -> <-.
      simpl in Hlen. lia.
Qed.
End NewTable.

Lemma vm_inv_settle own D M l s : vm_inv own D M l s → vm_inv own D M l (st_settle s).
Proof.
  intros [H1 H2 H3 H4 H5 H6]. split; try done.
  - by apply (kmem_ready_settle s).
  - by apply (kmem_inv_ext _ s).
Qed.

Lemma grows_settle D s : grows D s D (st_settle s).
Proof. split; try done; [by left|]. split; [by right|done]. Qed.

(** What a routine that may allocate tables promises: it uses the first [n]
    free pages at most, and the result satisfies [Q]. *)
Definition allocs (n : nat) own D M l s D' l' s' : Prop :=
  vm_inv own D' M l' s' ∧ grows D s D' s' ∧ ∃ k, (k ≤ n)%nat ∧ l' = drop k l.

Lemma allocs_refl n own D M l s : vm_inv own D M l s → allocs n own D M l s D l s.
Proof. intros HI. split_and!; [done|apply evolves_refl|]. exists 0%nat. split; [lia|done]. Qed.

Lemma allocs_trans n1 n2 own D1 M l1 s1 D2 l2 s2 D3 l3 s3 :
  vm_inv own D1 M l1 s1 → allocs n1 own D1 M l1 s1 D2 l2 s2 → allocs n2 own D2 M l2 s2 D3 l3 s3 →
  allocs (n1 + n2) own D1 M l1 s1 D3 l3 s3.
Proof.
  intros HI (A1 & A2 & k1 & Hk1 & ->) (B1 & B2 & k2 & Hk2 & ->). split_and!.
  - done.
  - by eapply (evolves_trans (λ _ _ o, o) (λ _ _ o, o)).
  - exists (k1 + k2)%nat. split; [lia|]. by rewrite drop_drop.
Qed.

Lemma walk_level_alloc own D M l s r path p level va e :
  vm_inv own D M l s → D !! (r, path) = Some p → (length path < 2)%nat → 0 ≤ level →
  (path = [] → PX level va < 256) →
  ∃ res D' l' s', walk_level p level va true e s = Ret res e s' ∧ allocs 1 own D M l s D' l' s' ∧
    match res with
    | None => l = []
    | Some q => D' !! (r, path ++ [PX level va]) = Some q
    end.
Proof.
  intros HI Hp Hlen Hl Hlow. pose proof (PX_range level va Hl) as Hi.
  destruct (D !! (r, path ++ [PX level va])) as [q|] eqn:Hq.
  { exists (Some q), D, l, s. split_and!; [by eapply walk_level_follow|by apply allocs_refl|done]. }
  unfold walk_level. run (ld64_run _ e s (ent_in_ram p _ (table_page HI _ _ Hp) Hi)).
  change (le_load (k_mem s) (p + 8 * PX level va) 8) with (ent (k_mem s) p (PX level va)).
  rewrite (entry_of HI r path p _ Hp Hlen Hi), Hq. rewrite Z.land_0_l. change (ctrue 0) with false. cbn [negb].
  destruct l as [|q l].
  - run (kalloc_nil e s (vi_ready HI) (vi_kmem HI)). exists None, D, [], (st_settle s).
    split_and!; [done| |done]. split_and!; [by apply vm_inv_settle|apply grows_settle|by exists 0%nat; split; [lia|]].
  - destruct (nt_q HI) as (Hqp & _). run (kalloc_cons q l e s (vi_ready HI) (vi_kmem HI)).
    pose proof (page_nonzero q Hqp). destruct (Z.eqb_spec q 0); [done|].
    erewrite bind_Ret by (apply kmemset_run, (page_in_ram q PGSIZE Hqp); done).
    erewrite bind_Ret by (apply st64_run, ent_in_ram; [by apply (table_page HI _ _ Hp)|done]).
    exists (Some q), (<[(r, path ++ [PX level va]) := q]> D), l, (st_table q p (PX level va) s).
    split; [by rewrite k_mem_upd2|]. split; [|apply lookup_insert_eq]. split_and!.
    + by apply vm_inv_table.
    + by eapply grows_table.
    + by exists 1%nat.
Qed.

Lemma walk_alloc own D M l s r va e :
  vm_inv own D M l s → D !! (r, []) = Some r → 0 ≤ va < MAXVA →
  ∃ res D' l' s', walk r va true e s = Ret res e s' ∧ allocs 2 own D M l s D' l' s' ∧
    (res = 0 ∧ (length l < 2)%nat ∨
     ∃ p, D' !! (r, [PX 2 va; PX 1 va]) = Some p ∧ res = p + 8 * PX 0 va).
Proof.
  intros HI Hr Hva. unfold walk. krun. destruct (Z.leb_spec MAXVA va); [lia|]. cbn [walk_levels].
  destruct (walk_level_alloc own D M l s r [] r 2 va e HI Hr ltac:(simpl; lia) ltac:(lia) (λ _, PX_low va Hva))
    as (res1 & D1 & l1 & s1 & E1 & Ha1 & Hres1).
  rewrite (bind_Ret _ _ _ _ _ _ _ E1). destruct res1 as [p1|].
  - destruct Ha1 as (HI1 & Hg1 & Hk1). pose proof (conj HI1 (conj Hg1 Hk1)) as Ha1.
    destruct (walk_level_alloc own D1 M l1 s1 r [PX 2 va] p1 1 va e HI1 Hres1 ltac:(simpl; lia)
      ltac:(lia) ltac:(done)) as (res2 & D2 & l2 & s2 & E2 & Ha2 & Hres2).
    rewrite (bind_Ret _ _ _ _ _ _ _ E2). pose proof (allocs_trans 1 1 _ _ _ _ _ _ _ _ _ _ _ HI Ha1 Ha2).
    destruct res2 as [p2|].
    + exists (p2 + 8 * PX 0 va), D2, l2, s2. split_and!; [done|done|]. right. by exists p2.
    + exists 0, D2, l2, s2. split_and!; [done|done|]. left. split; [done|]. destruct Hk1 as (k & Hk & ->).
      apply (f_equal length) in Hres2. rewrite length_drop in Hres2. simpl in Hres2. lia.
  - exists 0, D1, l1, s1. split_and!; [done| |left; subst; split; [done|simpl; lia]].
    apply (allocs_trans 1 1 own D M l s D1 l1 s1); [done|done|]. apply allocs_refl. by destruct Ha1.
Qed.
End Walk.

(** ** Example: two page tables on the small machine

    Pages 0, 1, 2 are a page table that maps virtual page 0 to page 4, page 3
    is an empty root, pages 5, 6 and 7 are free, the others belong to someone
    else. *)

Definition ex_pg (i : Z) : Z := PHYSTOP - (16 - i) * 4096.
Definition ex_flags : Z := Z.lor (Z.lor (Z.lor PTE_R PTE_W) PTE_U) PTE_V.
Definition ex_mem : memory :=
  le_store (le_store (le_store (le_store (le_store (λ _, 0)
    (ex_pg 0) (mkpte (ex_pg 1) PTE_V) 8) (ex_pg 1) (mkpte (ex_pg 2) PTE_V) 8)
    (ex_pg 2) (mkpte (ex_pg 4) ex_flags) 8) (ex_pg 5) (ex_pg 6) 8) (ex_pg 6) (ex_pg 7) 8.
Definition ex_free (i : Z) : bool := (5 <=? i) && (i <=? 7).
Definition ex_vm : kstate :=
  kstate0 <| k_mem := ex_mem |> <| k_freelist := ex_pg 5 |>
    <| k_refCount := λ j, if ex_free (j - refIdx (ex_pg 0)) then 0 else 1 |>.
Definition ex_D : gmap node Z :=
  {[ (ex_pg 0, []) := ex_pg 0; (ex_pg 0, [0]) := ex_pg 1; (ex_pg 0, [0; 0]) := ex_pg 2;
     (ex_pg 3, []) := ex_pg 3 ]}.
Definition ex_M : gmap node Z := {[ (ex_pg 0, [0; 0; 0]) := ex_pg 4 ]}.
Definition ex_own (p : Z) : Z := if (ex_pg 8 <=? p) then 1 else 0.

Section Example.
#[local] Existing Instance small_image.
#[local] Existing Instance small_image_ok.

Lemma ex_pages p : page p ↔ ∃ i, 0 ≤ i < 16 ∧ p = ex_pg i.
Proof.
  unfold page, ex_pg, small_image, end_, PGSIZE. rewrite PHYSTOP_val. split.
  - intros (H1 & H2 & H3). exists ((p - (0x88000000 - 16 * 4096)) / 4096). zlia.
  - intros (i & Hi & ->). split_and!; [|lia|lia]. zlia.
Qed.

Lemma ex_page i : 0 ≤ i < 16 → page (ex_pg i).
Proof. intros Hi. apply ex_pages. eauto. Qed.

Lemma ex_ent i j : 0 ≤ i < 8 → 0 ≤ j < 512 → ent ex_mem (ex_pg i) j =
  if decide (j = 0) then
    if decide (i = 0) then mkpte (ex_pg 1) PTE_V else if decide (i = 1) then mkpte (ex_pg 2) PTE_V else
    if decide (i = 2) then mkpte (ex_pg 4) ex_flags else if decide (i = 5) then ex_pg 6 else
    if decide (i = 6) then ex_pg 7 else 0
  else 0.
Proof.
  intros Hi Hj. unfold ent, ex_mem.
  assert (∀ m k v, 0 ≤ k < 8 → i ≠ k ∨ j ≠ 0 →
    le_load (le_store m (ex_pg k) v 8) (ex_pg i + 8 * j) 8 = le_load m (ex_pg i + 8 * j) 8) as Hne.
  { intros m k v Hk Hor. apply le_load_store_ne. unfold ex_pg. rewrite PHYSTOP_val.
    change (Z.of_nat 8) with 8. lia. }
  assert (∀ m v, 0 ≤ v < 2 ^ 64 → j = 0 → le_load (le_store m (ex_pg i) v 8) (ex_pg i + 8 * j) 8 = v) as Heq.
  { intros m v Hv ->. rewrite Z.mul_0_r, Z.add_0_r, le_load_store. by apply Z.mod_small. }
  destruct (decide (j = 0)) as [Hj0|Hj0]; [|rewrite !Hne by lia; by apply le_load_zero].
  destruct (decide (i = 0)) as [->|]; [rewrite !Hne by lia; by apply Heq|].
  destruct (decide (i = 1)) as [->|]; [rewrite !Hne by lia; by apply Heq|].
  destruct (decide (i = 2)) as [->|]; [rewrite !Hne by lia; by apply Heq|].
  destruct (decide (i = 5)) as [->|]; [rewrite !Hne by lia; by apply Heq|].
  destruct (decide (i = 6)) as [->|]; [by apply Heq|].
  rewrite !Hne by lia. by apply le_load_zero.
Qed.

Lemma ex_refs i : 0 ≤ i < 16 → refs ex_vm (ex_pg i) = if ex_free i then 0 else 1.
Proof.
  intros Hi. unfold refs, ex_vm, set. cbn [k_refCount].
  replace (refIdx (ex_pg i) - refIdx (ex_pg 0)) with i; [done|].
  destruct (refIdx_page (ex_pg i) (ex_page i Hi)) as [-> _].
  destruct (refIdx_page (ex_pg 0) (ex_page 0 ltac:(lia))) as [-> _].
  unfold ex_pg. rewrite PHYSTOP_val, KERNBASE_val. zlia.
Qed.

Lemma ex_cases (P : Z → Prop) :
  P 0 → P 1 → P 2 → P 3 → P 4 → P 5 → P 6 → P 7 → P 8 → P 9 → P 10 → P 11 → P 12 → P 13 → P 14 → P 15 →
  ∀ i, 0 ≤ i < 16 → P i.
Proof.
  intros. assert (i = 0 ∨ i = 1 ∨ i = 2 ∨ i = 3 ∨ i = 4 ∨ i = 5 ∨ i = 6 ∨ i = 7 ∨ i = 8 ∨ i = 9 ∨
    i = 10 ∨ i = 11 ∨ i = 12 ∨ i = 13 ∨ i = 14 ∨ i = 15) as Hc by lia. naive_solver.
Qed.

Lemma ex_kmem_ok : kmem_inv [ex_pg 5; ex_pg 6; ex_pg 7] ex_vm.
Proof.
  split.
  - cbn [chain]. change (k_mem ex_vm) with ex_mem.
    pose proof (ex_ent 5 0 ltac:(lia) ltac:(lia)) as E5. pose proof (ex_ent 6 0 ltac:(lia) ltac:(lia)) as E6.
    pose proof (ex_ent 7 0 ltac:(lia) ltac:(lia)) as E7. unfold ent in *.
    rewrite Z.mul_0_r, Z.add_0_r in E5, E6, E7. simpl in E5, E6, E7. by rewrite E5, E6, E7.
  - repeat (apply NoDup_cons; split; [rewrite ?elem_of_cons, elem_of_nil; vm_compute; intuition congruence|]).
    apply NoDup_nil_2.
  - repeat constructor; by apply ex_page.
  - intros p (i & Hi & ->)%ex_pages. rewrite ex_refs by done. destruct (ex_free i); lia.
  - intros p (i & Hi & ->)%ex_pages. rewrite ex_refs, !elem_of_cons, elem_of_nil by done.
    unfold ex_free. destruct (Z.leb_spec 5 i), (Z.leb_spec i 7); simpl; unfold ex_pg; rewrite PHYSTOP_val; split; intros; try lia.
Qed.

Lemma ex_D_inv k p : ex_D !! k = Some p →
  k = (ex_pg 0, []) ∧ p = ex_pg 0 ∨ k = (ex_pg 0, [0]) ∧ p = ex_pg 1 ∨
  k = (ex_pg 0, [0; 0]) ∧ p = ex_pg 2 ∨ k = (ex_pg 3, []) ∧ p = ex_pg 3.
Proof.
  unfold ex_D. intros Hk. rewrite !lookup_insert_Some, lookup_singleton_Some in Hk.
  destruct Hk as [[? ?]|[_ [[? ?]|[_ [[? ?]|[_ [? ?]]]]]]]; subst; tauto.
Qed.

Lemma ex_M_inv k p : ex_M !! k = Some p → k = (ex_pg 0, [0; 0; 0]) ∧ p = ex_pg 4.
Proof. unfold ex_M. rewrite lookup_singleton_Some. intros [? ?]. by subst. Qed.

Lemma ex_pg_inj i j : ex_pg i = ex_pg j → i = j.
Proof. unfold ex_pg. lia. Qed.

Lemma ex_D_none r path : (r ≠ ex_pg 0 ∨ path ≠ [0] ∧ path ≠ [0; 0]) → path ≠ [] → ex_D !! (r, path) = None.
Proof.
  intros Hr Hp. destruct (ex_D !! (r, path)) as [p|] eqn:E; [|done].
  apply ex_D_inv in E as [[[= ? ?] _]|[[[= ? ?] _]|[[[= ? ?] _]|[[= ? ?] _]]]]; naive_solver.
Qed.

Lemma ex_pt_ok : pt_ok ex_D ex_M ex_mem.
Proof.
  split.
  - intros r p Hk. apply ex_D_inv in Hk as [[[= ->] ->]|[[[=] _]|[[[=] _]|[[= ->] ->]]]]; done.
  - intros r path i q Hk. apply ex_D_inv in Hk as [[[= -> E] _]|[[[= -> E] _]|[[[= -> E] _]|[[= -> E] _]]]].
    1,4: by destruct path.
    + apply (app_inj_tail _ [] _ 0) in E as [-> ->]. split_and!; [lia|lia|simpl; lia|by exists (ex_pg 0)].
    + apply (app_inj_tail _ [0] _ 0) in E as [-> ->]. split_and!; [lia|lia|simpl; lia|by exists (ex_pg 1)].
  - intros r path p i Hk Hl Hi.
    apply ex_D_inv in Hk as [[[= -> ->] ->]|[[[= -> ->] ->]|[[[= -> ->] ->]|[[= -> ->] ->]]]]; [| |simpl in Hl; lia|].
    all: rewrite ex_ent by lia; cbn [app]; destruct (decide (i = 0)) as [->|Hne]; [reflexivity|].
    all: rewrite ex_D_none; [done| |done]; naive_solver.
  - intros r i j k p Hk Hc.
    apply ex_D_inv in Hk as [[[=] _]|[[[=] _]|[[[= -> -> ->] ->]|[[=] _]]]].
    destruct (decide (k = 0)) as [->|Hne].
    + change (ex_M !! (ex_pg 0, [0; 0; 0])) with (Some (ex_pg 4)). rewrite ex_ent by lia.
      split; [|by apply ex_page]. exists ex_flags. split_and!; [done|by vm_compute|by vm_compute|done|by vm_compute..].
    + destruct (ex_M !! (ex_pg 0, [0; 0; k])) as [q|] eqn:E.
      * apply ex_M_inv in E as [[= ?] _]. lia.
      * left. rewrite ex_ent by lia. by rewrite decide_False.
  - intros k pa Hk. apply ex_M_inv in Hk as [-> ->]. exists (ex_pg 0), 0, 0, 0.
    split_and!; [done|lia|lia|by exists (ex_pg 2)].
  - intros r i q Hk. apply ex_D_inv in Hk as [[[=] _]|[[[= _ ->] _]|[[[=] _]|[[=] _]]]]. lia.
Qed.

Lemma ex_vm_inv : vm_inv ex_own ex_D ex_M [ex_pg 5; ex_pg 6; ex_pg 7] ex_vm.
Proof.
  split.
  - split; [exact wf_machine0|reflexivity].
  - apply ex_kmem_ok.
  - intros p. left. unfold ex_own. destruct (_ <=? _); lia.
  - intros p (i & Hi & ->)%ex_pages. rewrite ex_refs by done. revert i Hi.
    apply ex_cases; vm_compute; reflexivity.
  - intros k p Hk. apply ex_D_inv in Hk as [[_ ->]|[[_ ->]|[[_ ->]|[_ ->]]]];
      (split; [by apply ex_page|by rewrite ex_refs]).
  - exact ex_pt_ok.
Qed.

Lemma ex_nonneg : nonneg ex_own.
Proof. intros p. unfold ex_own. destruct (_ <=? _); lia. Qed.
End Example.
