(* ===== verification/VmMap.v ===== *)
(** * VmMap: mapping and unmapping (mappages, uvmunmap of kernel/vm.c)

    [mappages] and [uvmunmap] refine insertion into and deletion from the
    translation [pte_at]; together with the allocator they keep [vm_inv]. *)

From S2P Require Import Prelude Params CString State Spinlock PhysMem Kalloc Vm VmInv.

Section Map.
Context `{!Image} `{!ImageOK}.
Implicit Types (own : Z → Z) (D M : gmap node Z) (l : list Z) (s : kstate) (e : env).

(** ** Writing one leaf entry *)

Definition st_pte (p k v : Z) (s : kstate) : kstate :=
  s <| k_mem ::= λ m, le_store m (p + 8 * k) v 8 |>.

(** A memory in which only entry [k] of the leaf table [p] has changed. *)
Lemma pt_ok_leaf own D M l s r i j p k v M' m' :
  vm_inv own D M l s → D !! (r, [i; j]) = Some p → 0 ≤ k < 512 →
  (∀ x t y, D !! x = Some t → 0 ≤ y < 512 →
     ent m' t y = if decide (t = p ∧ y = k) then v else ent (k_mem s) t y) →
  (∀ x, x ≠ (r, [i; j; k]) → M' !! x = M !! x) →
  match M' !! (r, [i; j; k]) with
  | Some pa => good_pte v pa ∧ page pa
  | None => v = 0 ∨ ∃ pa, good_pte v pa ∧ Z.land v PTE_U = 0
  end →
  pt_ok D M' m'.
Proof.
  intros HI Hp Hk Hent HM Hkey. destruct (vi_pt HI) as [H1 H2 H3 H4 H5 H6]. split; [.. |exact H6].
  - done.
  - done.
  - intros r' path t x Ht Hl Hx. rewrite (Hent _ _ _ Ht Hx), decide_False; [by apply H3|].
    intros [-> ->]. pose proof (table_inj HI _ _ _ Ht Hp) as E. injection E as -> ->. simpl in Hl. lia.
  - intros r' a b c t Ht Hc. rewrite (Hent _ _ _ Ht Hc). case_decide as Hd.
    + destruct Hd as [-> ->]. pose proof (table_inj HI _ _ _ Ht Hp) as E. by injection E as -> -> ->.
    + rewrite HM; [by apply H4|]. intros [= -> -> -> ->]. apply Hd. split; [|done]. congruence.
  - intros x pa Hx. destruct (decide (x = (r, [i; j; k]))) as [->|Hne].
    + exists r, i, j, k. split_and!; [done|lia|lia|by rewrite Hp].
    + rewrite HM in Hx by done. by apply (H5 x pa).
Qed.

Lemma ent_st_pte p k v s t x : page p → 0 ≤ k < 512 → 0 ≤ v < 2 ^ 64 → page t → 0 ≤ x < 512 →
  ent (k_mem (st_pte p k v s)) t x = if decide (t = p ∧ x = k) then v else ent (k_mem s) t x.
Proof.
  intros Hp Hk Hv Ht Hx. change (k_mem (st_pte p k v s)) with (le_store (k_mem s) (p + 8 * k) v 8).
  case_decide as Hd; [destruct Hd as [-> ->]; by apply ent_store_eq|].
  apply ent_store_ne; [done|done|done|done|]. destruct (decide (t = p)); [right|by left]. naive_solver.
Qed.

(** Writing into a page in use does not disturb the free list. *)
Lemma kmem_inv_pte l s p k v :
  kmem_inv l s → page p → refs s p ≠ 0 → 0 ≤ k < 512 → 0 ≤ v < 2 ^ 64 → kmem_inv l (st_pte p k v s).
Proof.
  intros HK Hp Hr Hk Hv. apply kmem_inv_mem; [done|]. intros t Ht.
  assert (page t) as Hpt by (eapply Forall_forall; [apply (ki_page _ _ HK)|done]).
  assert (t ≠ p) as Hne by (intros ->; by apply (ki_free _ _ HK) in Ht).
  pose proof (ent_st_pte p k v s t 0 Hp Hk Hv Hpt ltac:(lia)) as E.
  rewrite decide_False in E by naive_solver. unfold ent in E. rewrite Z.mul_0_r, Z.add_0_r in E. exact E.
Qed.

Section SetLeaf.
Context {own D M l s r i j p k v own' M'}
  (HI : vm_inv own D M l s)
  (Hp : D !! (r, [i; j]) = Some p) (Hk : 0 ≤ k < 512) (Hv : 0 ≤ v < 2 ^ 64)
  (Hown : ∀ t, 0 ≤ own' t ∨ 1 ≤ own' t + cnt M' t)
  (Hrefs : ∀ t, page t → own' t + cnt M' t = own t + cnt M t)
  (HM : ∀ x, x ≠ (r, [i; j; k]) → M' !! x = M !! x)
  (Hkey : match M' !! (r, [i; j; k]) with
          | Some pa => good_pte v pa ∧ page pa
          | None => v = 0 ∨ ∃ pa, good_pte v pa ∧ Z.land v PTE_U = 0
          end).

Lemma sl_page : page p.
Proof. by apply (table_page HI _ _ Hp). Qed.

Lemma vm_inv_leaf : vm_inv own' D M' l (st_pte p k v s).
Proof.
  split.
  - apply (vi_ready HI).
  - apply kmem_inv_pte; [apply (vi_kmem HI)|apply sl_page| |done|done].
    by rewrite (table_refs HI _ _ Hp).
  - apply Hown.
  - intros t Ht. change (refs (st_pte p k v s) t) with (refs s t). rewrite (vi_refs HI t Ht).
    specialize (Hrefs t Ht). lia.
  - intros x t Hx. apply (vi_table HI x t Hx).
  - eapply pt_ok_leaf; [done..| |done|done]. intros x t y Hx Hy.
    apply ent_st_pte; [apply sl_page|done|done|by apply (table_page HI _ _ Hx)|done].
Qed.

Lemma sl_mem x : x < p ∨ p + PGSIZE ≤ x → k_mem (st_pte p k v s) x = k_mem s x.
Proof. intros Hx. by apply store_out. Qed.

Lemma sl_protected x : protected D s x → k_mem (st_pte p k v s) x = k_mem s x.
Proof.
  intros Hx. apply sl_mem. destruct (Z.le_gt_cases p x), (Z.lt_ge_cases x (p + PGSIZE)); try lia.
  destruct (Hx p sl_page ltac:(lia)) as [_ Hx']. by apply Hx' in Hp.
Qed.

Lemma pte_at_leaf r' va : 0 ≤ va → D !! (r', []) = Some r' →
  pte_at (k_mem (st_pte p k v s)) r' va =
    if decide (leaf r' va = (r, [i; j; k])) then v else pte_at (k_mem s) r' va.
Proof.
  intros Hva Hr'. rewrite (pte_at_D vm_inv_leaf r' va Hva Hr'), (pte_at_D HI r' va Hva Hr').
  pose proof (PX_range 0 va ltac:(lia)). unfold leaf. case_decide as Hd.
  - injection Hd as -> -> -> ->. rewrite Hp, ent_st_pte, decide_True; done || apply sl_page.
  - destruct (D !! (r', [PX 2 va; PX 1 va])) as [t|] eqn:Ht; [|done].
    rewrite ent_st_pte, decide_False; [done| |apply sl_page|done|done|by apply (table_page HI _ _ Ht)|done].
    intros [-> <-]. pose proof (table_inj HI _ _ _ Ht Hp) as E. injection E as E1 E2 E3.
    apply Hd. by rewrite E1, E2, E3.
Qed.

Lemma evolves_leaf φ :
  (∀ r' va o, 0 ≤ va < MAXVA →
     φ r' va o = if decide (leaf r' va = (r, [i; j; k])) then v else o) →
  evolves φ D s D (st_pte p k v s).
Proof.
  intros Hφ. split; try done.
  - by left.
  - split; [by left|done].
  - apply sl_protected.
  - intros r' va Hva Hr'. rewrite Hφ by done. apply pte_at_leaf; [lia|done].
Qed.
End SetLeaf.

(** How a leaf write moves ownership: the new entry either owns its page or is
    not accessible to user code, and no reference appears or disappears. *)
Record relabel own M (key : node) (v : Z) own' M' : Prop := Relabel {
  rl_own : ∀ t, 0 ≤ own' t ∨ 1 ≤ own' t + cnt M' t;
  rl_refs : ∀ t, page t → own' t + cnt M' t = own t + cnt M t;
  rl_other : ∀ x, x ≠ key → M' !! x = M !! x;
  rl_key : match M' !! key with
           | Some pa => good_pte v pa ∧ page pa
           | None => v = 0 ∨ ∃ pa, good_pte v pa ∧ Z.land v PTE_U = 0
           end;
}.

(** ** mappages *)

(** [n] pages from [a] on are mapped to the pages from [pa] on. *)
Definition map_range (r a n pa f r' va old : Z) : Z :=
  let d := va / 4096 - a / 4096 in
  if (r' =? r) && (0 <=? d) && (d <? n) then mkpte (pa + d * 4096) f else old.

Lemma leaf_eq r va r' va' :
  0 ≤ va < MAXVA → 0 ≤ va' < MAXVA → leaf r va = leaf r' va' ↔ r = r' ∧ va / 4096 = va' / 4096.
Proof.
  intros H1 H2. pose proof (va_split va H1) as E1. pose proof (va_split va' H2) as E2.
  unfold leaf. split.
  - intros [= -> A B C]. split; [done|]. rewrite A, B, C in E1.
    change (2 ^ 30) with 1073741824 in *; change (2 ^ 21) with 2097152 in *; change (2 ^ 12) with 4096 in *.
    zlia.
  - intros [-> E].
    assert (∀ lev x, 0 ≤ lev → PX lev x = x / 4096 / 2 ^ (9 * lev) mod 512) as Hpx.
    { intros lev x Hl. rewrite PX_spec, Z.div_div by lia. by rewrite Z.pow_add_r by lia. }
    rewrite !Hpx by lia. by rewrite E.
Qed.

Lemma pte_at_page m r va va' : leaf r va = leaf r va' → pte_at m r va = pte_at m r va'.
Proof. intros [= E1 E2 E3]. unfold pte_at. by rewrite E1, E2, E3. Qed.

(** Whether [mappages] accepts the entry it finds. *)
Definition mappable (pte : Z) : Prop := Z.land pte PTE_V = 0 ∨ Z.land pte PTE_COW ≠ 0.

Abbreviation mappages_step pagetable last perm := (λ '(a, pa),
    slot ← walk pagetable a true;
    if slot =? 0 then mret (inr (-1))
    else
      pte ← ld64 slot;
      panic_if (ctrue (Z.land pte PTE_V) && negb (ctrue (Z.land pte PTE_COW))) "mappages: remap";;
      st64 slot (Z.lor (Z.lor (PA2PTE pa) perm) PTE_V);;
      if a =? last then mret (inr 0)
      else mret (inl (u64 (a + PGSIZE), u64 (pa + PGSIZE)))).

Lemma leaf_slot own D M l s r va p :
  vm_inv own D M l s → D !! (r, []) = Some r → 0 ≤ va → D !! (r, [PX 2 va; PX 1 va]) = Some p →
  page p ∧ le_load (k_mem s) (p + 8 * PX 0 va) 8 = pte_at (k_mem s) r va.
Proof.
  intros HI Hr Hva Hp. split; [by apply (table_page HI _ _ Hp)|].
  by rewrite (pte_at_D HI r va Hva Hr), Hp.
Qed.

(** One iteration. *)
Lemma mappages_one own D M l s r va pa perm last e own' M' :
  vm_inv own D M l s → D !! (r, []) = Some r → 0 ≤ va < MAXVA → mappable (pte_at (k_mem s) r va) →
  0 ≤ pa < 2 ^ 56 → pa mod 4096 = 0 → 0 ≤ perm < 1024 →
  relabel own M (leaf r va) (mkpte pa (Z.lor perm PTE_V)) own' M' →
  ∃ res D' l' s' c, mappages_step r last perm (va, pa) e s = Ret res e s' ∧
    (c ≤ 2)%nat ∧ l' = drop c l ∧
    (res = inr (-1) ∧ (length l < 2)%nat ∧ vm_inv own D' M l' s' ∧ evolves (λ _ _ o, o) D s D' s' ∨
     res = (if va =? last then inr 0 else inl (u64 (va + PGSIZE), u64 (pa + PGSIZE))) ∧
     vm_inv own' D' M' l' s' ∧ evolves (map_range r va 1 pa (Z.lor perm PTE_V)) D s D' s').
Proof.
  intros HI Hr Hva Hmap Hpa Hal Hperm [R1 R2 R3 R4].
  destruct (walk_alloc own D M l s r va e HI Hr Hva)
    as (slot & D1 & l1 & s1 & E & (HI1 & Hg1 & c & Hc & ->) & Hres).
  cbv beta iota. rewrite (bind_Ret _ _ _ _ _ _ _ E). destruct Hres as [[-> Hl]|(p & Hp & ->)].
  - exists (inr (-1)), D1, (drop c l), s1, c. split_and!; [done|done|done|]. left. done.
  - pose proof (PX_range 0 va ltac:(lia)) as Hk.
    assert (D1 !! (r, []) = Some r) as Hr1 by (by rewrite (ev_roots _ _ _ _ _ Hg1)).
    destruct (leaf_slot own D1 M _ s1 r va p HI1 Hr1 ltac:(lia) Hp) as [Hpp Hld].
    pose proof (page_nonzero p Hpp). pose proof (page_bounds p Hpp).
    rewrite KERNBASE_val in *. destruct (Z.eqb_spec (p + 8 * PX 0 va) 0); [lia|].
    erewrite bind_Ret by (apply ld64_run, ent_in_ram; done).
    rewrite Hld, (ev_pte _ _ _ _ _ Hg1) by done. krun.
    assert (ctrue (Z.land (pte_at (k_mem s) r va) PTE_V) &&
      negb (ctrue (Z.land (pte_at (k_mem s) r va) PTE_COW)) = false) as ->.
    { destruct Hmap as [->|Hm]; [done|]. unfold ctrue at 2.
      destruct (Z.eqb_spec (Z.land (pte_at (k_mem s) r va) PTE_COW) 0); [done|]. apply andb_false_r. }
    erewrite bind_Ret by (apply st64_run, ent_in_ram; done).
    rewrite <- Z.lor_assoc. fold (mkpte pa (Z.lor perm PTE_V)).
    assert (0 ≤ Z.lor perm PTE_V < 1024) as Hf by (apply (lor_range _ _ 10); done || lia).
    pose proof (mkpte_u64 pa _ Hpa Hf) as Hv. unfold leaf in *.
    assert (vm_inv own' D1 M' (drop c l) (st_pte p (PX 0 va) (mkpte pa (Z.lor perm PTE_V)) s1)) as HI2.
    { by eapply vm_inv_leaf. }
    assert (evolves (map_range r va 1 pa (Z.lor perm PTE_V)) D1 s1 D1
      (st_pte p (PX 0 va) (mkpte pa (Z.lor perm PTE_V)) s1)) as Hev.
    { eapply evolves_leaf; [done..|]. intros r' va' o Hva'.
      change (r, [PX 2 va; PX 1 va; PX 0 va]) with (leaf r va). unfold map_range.
      case_decide as Hd; rewrite leaf_eq in Hd by done.
      - destruct Hd as [-> ->]. rewrite Z.eqb_refl, Z.sub_diag. simpl. by rewrite Z.add_0_r.
      - destruct (Z.eqb_spec r' r); [|done]. subst.
        destruct (Z.leb_spec 0 (va' / 4096 - va / 4096)), (Z.ltb_spec (va' / 4096 - va / 4096) 1); try done.
        destruct Hd. split; [done|lia]. }
    eexists _, D1, (drop c l), (st_pte p (PX 0 va) (mkpte pa (Z.lor perm PTE_V)) s1), c.
    split_and!; [|done|done|right; split_and!; [reflexivity|done|]].
    + by destruct (va =? last).
    + by eapply (evolves_trans (λ _ _ o, o)).
Qed.

(** The ghost state at each page of a range: [G i] before page [i] is mapped. *)
Definition relabels (r a pa f : Z) (n : nat) (G : nat → (Z → Z) * gmap node Z) : Prop :=
  ∀ i, (i < n)%nat → relabel (G i).1 (G i).2 (leaf r (a + Z.of_nat i * 4096))
    (mkpte (pa + Z.of_nat i * 4096) f) (G (S i)).1 (G (S i)).2.

Lemma map_range_split r a n pa f r' va o :
  0 ≤ n → a mod 4096 = 0 →
  map_range r (a + 4096) n (pa + 4096) f r' va (map_range r a 1 pa f r' va o) =
  map_range r a (n + 1) pa f r' va o.
Proof.
  intros Hn Ha. unfold map_range. destruct (Z.eqb_spec r' r); [|done]. cbn [andb].
  replace ((a + 4096) / 4096) with (a / 4096 + 1) by zlia. set (d := va / 4096 - a / 4096).
  replace (va / 4096 - (a / 4096 + 1)) with (d - 1) by lia.
  destruct (Z.leb_spec 0 (d - 1)), (Z.ltb_spec (d - 1) n), (Z.leb_spec 0 d), (Z.ltb_spec d (n + 1)),
    (Z.ltb_spec d 1); simpl; try lia; try done. f_equal. lia.
Qed.

Lemma map_range_zero r a pa f r' va o : map_range r a 0 pa f r' va o = o.
Proof.
  unfold map_range. destruct (r' =? r), (Z.leb_spec 0 (va / 4096 - a / 4096)),
    (Z.ltb_spec (va / 4096 - a / 4096) 0); simpl; lia || done.
Qed.

Lemma evolves_ext φ φ' D s D' s' :
  (∀ r va o, 0 ≤ va < MAXVA → φ r va o = φ' r va o) → evolves φ D s D' s' → evolves φ' D s D' s'.
Proof. intros Hφ [H1 H2 H3 H4 H5 H6 H7]. split; try done. intros. rewrite <- Hφ by done. auto. Qed.

Lemma mappages_loop n r perm e : ∀ G D l s a pa,
  vm_inv (G 0%nat).1 D (G 0%nat).2 l s → D !! (r, []) = Some r →
  0 ≤ a → a mod 4096 = 0 → a + Z.of_nat n * 4096 < MAXVA →
  0 ≤ pa → pa + Z.of_nat n * 4096 < 2 ^ 56 → pa mod 4096 = 0 → 0 ≤ perm < 1024 →
  relabels r a pa (Z.lor perm PTE_V) (S n) G →
  (∀ i, (i ≤ n)%nat → mappable (pte_at (k_mem s) r (a + Z.of_nat i * 4096))) →
  ∃ res c k D' l' s',
    runs (mappages_step r (a + Z.of_nat n * 4096) perm) (a, pa) e s c res e s' ∧ c ≤ Z.of_nat n + 1 ∧
    vm_inv (G k).1 D' (G k).2 l' s' ∧
    evolves (map_range r a (Z.of_nat k) pa (Z.lor perm PTE_V)) D s D' s' ∧
    (∃ x, (x ≤ 2 * S n)%nat ∧ l' = drop x l) ∧
    (res = 0 ∧ k = S n ∨ res = -1 ∧ (k ≤ n)%nat ∧ (length l < 2 * S n)%nat).
Proof.
  induction n as [|n IH]; intros G D l s a pa HI Hr Ha Hal Hmax Hpa Hpam Hpal Hperm HG Hmap.
  all: pose proof (HG 0%nat ltac:(lia)) as HG0; pose proof (Hmap 0%nat ltac:(lia)) as Hmap0.
  all: rewrite Z.mul_0_l, Z.add_0_r in HG0, Hmap0; rewrite ?Z.add_0_r in HG0.
  - destruct (mappages_one _ _ _ _ _ r a pa perm (a + Z.of_nat 0 * 4096) e _ _ HI Hr ltac:(lia)
      Hmap0 ltac:(lia) Hpal Hperm HG0) as (res & D1 & l1 & s1 & c1 & E & Hc1 & -> & Hcase).
    destruct Hcase as [(-> & Hl & HI1 & Hev)|(Hres & HI1 & Hev)].
    + exists (-1), 1, 0%nat, D1, (drop c1 l), s1. split_and!; [by apply runs_done|lia|done| |exists c1; split; [lia|done]|right; split_and!; [done|lia|lia]].
      eapply evolves_ext; [|exact Hev]. intros. by rewrite map_range_zero.
    + rewrite Z.mul_0_l, Z.add_0_r, Z.eqb_refl in Hres. subst res.
      exists 0, 1, 1%nat, D1, (drop c1 l), s1.
      split_and!; [by apply runs_done|lia|done|done|exists c1; split; [lia|done]|by left].
  - destruct (mappages_one _ _ _ _ _ r a pa perm (a + Z.of_nat (S n) * 4096) e _ _ HI Hr ltac:(lia)
      Hmap0 ltac:(lia) Hpal Hperm HG0) as (res & D1 & l1 & s1 & c1 & E & Hc1 & -> & Hcase).
    destruct Hcase as [(-> & Hl & HI1 & Hev)|(Hres & HI1 & Hev)].
    + exists (-1), 1, 0%nat, D1, (drop c1 l), s1.
      split_and!; [by apply runs_done|lia|done| |exists c1; split; [lia|done]|right; split_and!; [done|lia|lia]].
      eapply evolves_ext; [|exact Hev]. intros. by rewrite map_range_zero.
    + destruct (Z.eqb_spec a (a + Z.of_nat (S n) * 4096)) in Hres; [lia|].
      rewrite MAXVA_val in *. unfold PGSIZE in Hres.
      rewrite !(wrapu_id 64) in Hres by
        (change (2 ^ 38) with 274877906944 in *; change (2 ^ 56) with 72057594037927936 in *; lia).
      subst res.
      assert (∀ i, a + 4096 + Z.of_nat i * 4096 = a + Z.of_nat (S i) * 4096) as Hshift by lia.
      destruct (IH (λ i, G (S i)) D1 (drop c1 l) s1 (a + 4096) (pa + 4096))
        as (res & c & k & D' & l' & s' & Hruns & Hc & HI' & Hev' & (x & Hx & ->) & Hcase).
      * done.
      * by rewrite (ev_roots _ _ _ _ _ Hev).
      * lia.
      * zlia.
      * lia.
      * lia.
      * lia.
      * zlia.
      * done.
      * intros i Hi. rewrite Hshift. replace (pa + 4096 + Z.of_nat i * 4096) with (pa + Z.of_nat (S i) * 4096) by lia.
        apply HG. lia.
      * intros i Hi. rewrite Hshift, (ev_pte _ _ _ _ _ Hev) by (rewrite ?MAXVA_val; done || lia).
        unfold map_range. destruct (Z.ltb_spec ((a + Z.of_nat (S i) * 4096) / 4096 - a / 4096) 1); [zlia|].
        rewrite andb_false_r. apply Hmap. lia.
      * exists res, (c + 1), (S k), D', (drop x (drop c1 l)), s'. rewrite Hshift in Hruns. split_and!.
        -- by eapply runs_step.
        -- lia.
        -- done.
        -- eapply (evolves_trans _ _ _ _ _ _ _ _ _ _ _ _ _ _ _ HI HI'); [|exact Hev|exact Hev'].
           intros r' va' o _. rewrite map_range_split by (done || lia). f_equal. lia.
        -- exists (c1 + x)%nat. split; [lia|]. by rewrite drop_drop.
        -- destruct Hcase as [[-> ->]|(-> & Hk & Hl)]; [by left|right]. split_and!; [done|lia|].
           rewrite length_drop in Hl. lia.
Qed.

(** The number of pages [mappages] visits. *)
Definition npages (va size : Z) : nat := Z.to_nat ((va + size - 1) / 4096 - va / 4096).

Lemma mappages_run r va size pa perm e G D l s :
  let a := PGROUNDDOWN va in let n := npages va size in
  vm_inv (G 0%nat).1 D (G 0%nat).2 l s → D !! (r, []) = Some r →
  0 ≤ va → 0 < size → va + size ≤ MAXVA →
  0 ≤ pa → pa + size + 4096 < 2 ^ 56 → pa mod 4096 = 0 → 0 ≤ perm < 1024 →
  relabels r a pa (Z.lor perm PTE_V) (S n) G →
  (∀ i, (i ≤ n)%nat → mappable (pte_at (k_mem s) r (a + Z.of_nat i * 4096))) →
  ∃ res k D' l' s', mappages r va size pa perm e s = Ret res e s' ∧
    vm_inv (G k).1 D' (G k).2 l' s' ∧
    evolves (map_range r a (Z.of_nat k) pa (Z.lor perm PTE_V)) D s D' s' ∧
    (∃ x, (x ≤ 2 * S n)%nat ∧ l' = drop x l) ∧
    (res = 0 ∧ k = S n ∨ res = -1 ∧ (k ≤ n)%nat ∧ (length l < 2 * S n)%nat).
Proof.
  intros a n HI Hr Hva Hsz Hmax Hpa Hpam Hpal Hperm HG Hmap.
  assert (a = va / 4096 * 4096) as Ea by apply PGROUNDDOWN_spec. rewrite MAXVA_val in *.
  assert (Z.of_nat n = (va + size - 1) / 4096 - va / 4096) as En by (unfold n, npages; rewrite Z2Nat.id; zlia).
  assert (PGROUNDDOWN (u64 (va + size - 1)) = a + Z.of_nat n * 4096) as El.
  { rewrite (wrapu_id 64), PGROUNDDOWN_spec; [zlia|].
    change (2 ^ 38) with 274877906944 in *. lia. }
  destruct (mappages_loop n r perm e G D l s a pa) as (res & c & k & D' & l' & s' & Hruns & Hc & H'); try done.
  - zlia.
  - zlia.
  - rewrite MAXVA_val. zlia.
  - zlia.
  - exists res, k, D', l', s'. split; [|done]. unfold mappages. krun.
    destruct (Z.eqb_spec size 0); [lia|]. rewrite El. eapply while_runs; [exact Hruns|].
    change (2 ^ 38) with 274877906944 in *. zlia.
Qed.

(** ** uvmunmap *)

Lemma pte_at_upd own D M l s own' M' l' s' r i j p k v r' va :
  vm_inv own D M l s → vm_inv own' D M' l' s' → D !! (r, [i; j]) = Some p → 0 ≤ k < 512 →
  (∀ x t y, D !! x = Some t → 0 ≤ y < 512 →
     ent (k_mem s') t y = if decide (t = p ∧ y = k) then v else ent (k_mem s) t y) →
  0 ≤ va → D !! (r', []) = Some r' →
  pte_at (k_mem s') r' va = if decide (leaf r' va = (r, [i; j; k])) then v else pte_at (k_mem s) r' va.
Proof.
  intros HI HI' Hp Hk Hent Hva Hr'. rewrite (pte_at_D HI' r' va Hva Hr'), (pte_at_D HI r' va Hva Hr').
  pose proof (PX_range 0 va ltac:(lia)) as Hx. unfold leaf. case_decide as Hd.
  - injection Hd as -> -> -> ->. rewrite Hp, (Hent _ _ _ Hp Hk), decide_True; done.
  - destruct (D !! (r', [PX 2 va; PX 1 va])) as [t|] eqn:Ht; [|done].
    rewrite (Hent _ _ _ Ht Hx), decide_False; [done|].
    intros [-> E0]. pose proof (table_inj HI _ _ _ Ht Hp) as E. injection E as E1 E2 E3.
    apply Hd. by rewrite E0, E1, E2, E3.
Qed.

(** [kfree] of a page in use: one reference goes, and the page joins the free
    list if that was the last. *)
Lemma kfree_used l s pa e :
  kmem_ready s → kmem_inv l s → page pa → 1 ≤ refs s pa →
  ∃ l' s', kfree pa e s = Ret () e s' ∧ kmem_ready s' ∧ kmem_inv l' s' ∧ mem_only s s' ∧
    (l' = l ∧ refs s pa ≠ 1 ∨ l' = pa :: l ∧ refs s pa = 1) ∧
    (∀ t, page t → refs s' t = refs s t - if decide (pa = t) then 1 else 0) ∧
    (∀ x, refs s pa ≠ 1 ∨ x < pa ∨ pa + PGSIZE ≤ x → k_mem s' x = k_mem s x).
Proof.
  intros Hrdy HI Hp Hr. pose proof (ki_refs _ _ HI pa Hp). destruct (decide (refs s pa = 1)) as [E|E].
  - exists (pa :: l), (st_free pa s). split_and!.
    + by apply kfree_last.
    + by apply (kmem_ready_settle s).
    + by apply kmem_inv_free.
    + split; [by right|done].
    + by right.
    + intros t Ht. unfold st_free. case_decide as Hd; [subst; by rewrite refs_st_ref_eq|].
      rewrite refs_st_ref_ne by done. change (refs s t = refs s t - 0). lia.
    + intros x [?|Hx]; [done|].
      change (k_mem (st_free pa s)) with (le_store (memset (k_mem s) pa 1 PGSIZE) pa (k_freelist s) 8).
      rewrite le_store_other by (unfold PGSIZE in *; lia). by apply memset_out.
  - exists l, (st_ref pa (refs s pa - 1) s). split_and!.
    + apply kfree_shared; [done|lia].
    + done.
    + apply kmem_inv_ref; [done|lia|lia|done].
    + split; [by left|done].
    + by left.
    + intros t Ht. case_decide as Hd; [subst; by rewrite refs_st_ref_eq|].
      rewrite refs_st_ref_ne by done. lia.
    + done.
Qed.

(** A step that removes translations by [φ] and frees their pages. *)
Record shrinks (φ : Z → Z → Z → Z) D s s' : Prop := Shrinks {
  sh_only : mem_only s s';
  sh_refs : ∀ t, page t → refs s' t ≤ refs s t;
  sh_mem : ∀ x, protected D s' x → k_mem s' x = k_mem s x;
  sh_pte : ∀ r va, 0 ≤ va < MAXVA → D !! (r, []) = Some r →
    pte_at (k_mem s') r va = φ r va (pte_at (k_mem s) r va);
}.

Lemma shrinks_refl D s : shrinks (λ _ _ o, o) D s s.
Proof. split; try done. apply mem_only_refl. Qed.

Lemma shrinks_trans φ1 φ2 φ D s1 s2 s3 :
  wf_mach (k_mach s1) →
  (∀ r va o, 0 ≤ va < MAXVA → φ2 r va (φ1 r va o) = φ r va o) →
  shrinks φ1 D s1 s2 → shrinks φ2 D s2 s3 → shrinks φ D s1 s3.
Proof.
  intros Hwf Hφ [A1 A2 A3 A4] [B1 B2 B3 B4]. split.
  - by eapply mem_only_trans.
  - intros t Ht. specialize (A2 t Ht). specialize (B2 t Ht). lia.
  - intros x Hx. rewrite B3, A3; [done| |done]. intros p Hp Hin. destruct (Hx p Hp Hin) as [H1 H2].
    split; [|done]. specialize (B2 p Hp). lia.
  - intros r va Hva Hr. by rewrite B4, A4, Hφ.
Qed.

(** [n] pages from [a] on are not mapped any more. *)
Definition unmap_range (r a n r' va old : Z) : Z :=
  let d := va / 4096 - a / 4096 in if (r' =? r) && (0 <=? d) && (d <? n) then 0 else old.

Fixpoint unmap_keys (r a : Z) (n : nat) (M : gmap node Z) : gmap node Z :=
  match n with O => M | S n' => unmap_keys r (a + 4096) n' (delete (leaf r a) M) end.

Abbreviation uvmunmap_step pagetable stop do_free := (λ a,
    if a <? stop then
      slot ← walk pagetable a false;
      panic_if (slot =? 0) "uvmunmap: walk";;
      pte ← ld64 slot;
      panic_if (Z.land pte PTE_V =? 0) "uvmunmap: not mapped";;
      panic_if (PTE_FLAGS pte =? PTE_V) "uvmunmap: not a leaf";;
      when do_free (kfree (PTE2PA pte));;
      st64 slot 0;;
      mret (inl (u64 (a + PGSIZE)))
    else mret (inr ())).

Lemma leaf_owned own D M l s r va pa :
  vm_inv own D M l s → D !! (r, []) = Some r → 0 ≤ va → M !! leaf r va = Some pa →
  ∃ p, D !! (r, [PX 2 va; PX 1 va]) = Some p ∧ good_pte (pte_at (k_mem s) r va) pa ∧ page pa ∧
    1 ≤ refs s pa ∧ ∀ k, D !! k ≠ Some pa.
Proof.
  intros HI Hr Hva HM. destruct (po_dom (vi_pt HI) _ _ HM) as (? & ? & ? & ? & [= <- <- <- <-] & Hc & [p Hp]).
  exists p. rewrite (pte_at_D HI r va Hva Hr), Hp. split; [done|].
  pose proof (po_leaf (vi_pt HI) r _ _ _ p Hp Hc) as Hlf. fold (leaf r va) in Hlf. rewrite HM in Hlf.
  destruct Hlf as [Hg Hpg]. split_and!; [done|done| |].
  - rewrite (vi_refs HI pa Hpg). pose proof (vi_own HI pa). pose proof (cnt_nonneg D pa).
    pose proof (cnt_pos M _ pa HM). lia.
  - intros k Hk. destruct (table_excl HI k pa Hk) as [_ Hz]. by apply (cnt_zero _ _ Hz (leaf r va)).
Qed.

Lemma unmap_range_one r va r' va' o :
  0 ≤ va < MAXVA → 0 ≤ va' < MAXVA →
  unmap_range r va 1 r' va' o = if decide (leaf r' va' = leaf r va) then 0 else o.
Proof.
  intros Hva Hva'. unfold unmap_range. case_decide as Hd; rewrite leaf_eq in Hd by done.
  - destruct Hd as [-> ->]. by rewrite Z.eqb_refl, Z.sub_diag.
  - destruct (Z.eqb_spec r' r); [|done]. subst.
    destruct (Z.leb_spec 0 (va' / 4096 - va / 4096)), (Z.ltb_spec (va' / 4096 - va / 4096) 1); try done.
    destruct Hd. split; [done|lia].
Qed.

(** One iteration that frees the page. *)
Lemma uvmunmap_one own D M l s r va pa stop e :
  nonneg own → vm_inv own D M l s → D !! (r, []) = Some r → 0 ≤ va < MAXVA → va < stop → M !! leaf r va = Some pa →
  ∃ l' s', uvmunmap_step r stop true va e s = Ret (inl (u64 (va + PGSIZE))) e s' ∧
    vm_inv own D (delete (leaf r va) M) l' s' ∧ shrinks (unmap_range r va 1) D s s' ∧ ∃ fr, l' = fr ++ l.
Proof.
  intros Hnn HI Hr Hva Hlt HM. destruct (leaf_owned _ _ _ _ _ r va pa HI Hr ltac:(lia) HM)
    as (p & Hp & Hg & Hpa & Hrf & Hnt).
  pose proof (PX_range 0 va ltac:(lia)) as Hk.
  destruct (leaf_slot _ _ _ _ _ r va p HI Hr ltac:(lia) Hp) as [Hpp Hld].
  pose proof (page_bounds p Hpp) as Hpb. rewrite KERNBASE_val in Hpb.
  destruct (kfree_used l s pa e (vi_ready HI) (vi_kmem HI) Hpa Hrf)
    as (l' & s1 & Ek & Hrdy1 & HK1 & Ho1 & Hl' & Hr1 & Hm1).
  assert (pa ≠ p) as Hne by (intros ->; by apply (Hnt _ Hp)).
  assert (∀ x t y, D !! x = Some t → 0 ≤ y < 512 →
     ent (k_mem (st_pte p (PX 0 va) 0 s1)) t y =
       if decide (t = p ∧ y = PX 0 va) then 0 else ent (k_mem s) t y) as Hent.
  { intros x t y Hx Hy. pose proof (table_page HI _ _ Hx) as Htp. rewrite ent_st_pte by done.
    case_decide; [done|]. apply ent_ext; [done|]. intros z Hz. apply Hm1. right.
    assert (pa ≠ t) as Hd by (intros ->; by apply (Hnt _ Hx)).
    pose proof (page_disjoint pa t Hpa Htp Hd). lia. }
  assert (vm_inv own D (delete (leaf r va) M) l' (st_pte p (PX 0 va) 0 s1)) as HI'.
  { split.
    - done.
    - apply kmem_inv_pte; [done|done| |done|done]. rewrite Hr1, decide_False by done.
      by rewrite (table_refs HI _ _ Hp).
    - intros t. left. apply Hnn.
    - intros t Ht. change (refs (st_pte p (PX 0 va) 0 s1) t) with (refs s1 t).
      rewrite Hr1, (vi_refs HI t Ht), (cnt_delete M _ _ pa HM) by done. lia.
    - intros x t Hx. destruct (vi_table HI x t Hx) as [Ht Hrt]. split; [done|].
      change (refs (st_pte p (PX 0 va) 0 s1) t) with (refs s1 t).
      rewrite Hr1, decide_False; [lia| |done]. intros ->. by apply (Hnt _ Hx).
    - eapply pt_ok_leaf; [done|exact Hp|exact Hk|exact Hent| |].
      + intros x Hx. apply lookup_delete_ne. intros E; by apply Hx.
      + fold (leaf r va). rewrite lookup_delete_eq. by left. }
  exists l', (st_pte p (PX 0 va) 0 s1). split_and!.
  - cbv beta. destruct (Z.ltb_spec va stop); [|lia].
    rewrite (bind_Ret _ _ _ _ _ _ _ (walk_noalloc HI r va e Hva Hr)). unfold slot_of. rewrite Hp. krun.
    destruct (Z.eqb_spec (p + 8 * PX 0 va) 0); [lia|].
    erewrite bind_Ret by (apply ld64_run, ent_in_ram; done). rewrite Hld. krun.
    destruct (Z.eqb_spec (Z.land (pte_at (k_mem s) r va) PTE_V) 0) as [Ez|_]; [by apply good_pte_V in Hg|].
    destruct (Z.eqb_spec (PTE_FLAGS (pte_at (k_mem s) r va)) PTE_V) as [Ez|_];
      [by apply good_pte_leaf in Hg|].
    rewrite (good_pte_pa _ _ Hg). rewrite (bind_Ret _ _ _ _ _ _ _ Ek).
    erewrite bind_Ret by (apply st64_run, ent_in_ram; done). done.
  - done.
  - split.
    + split; [apply Ho1|]. transitivity (others s1); [done|apply Ho1].
    + intros t Ht. change (refs s1 t ≤ refs s t). rewrite Hr1 by done. case_decide; lia.
    + intros x Hx.
      assert (x < p ∨ p + PGSIZE ≤ x) as Hxp.
      { destruct (Z.le_gt_cases p x), (Z.lt_ge_cases x (p + PGSIZE)); try lia.
        destruct (Hx p Hpp ltac:(lia)) as [_ Hx']. by apply Hx' in Hp. }
      rewrite sl_mem by done. apply Hm1.
      destruct (decide (refs s pa = 1)) as [E1|]; [right|by left].
      destruct (Z.le_gt_cases pa x), (Z.lt_ge_cases x (pa + PGSIZE)); try lia.
      destruct (Hx pa Hpa ltac:(lia)) as [Hx' _].
      change (1 ≤ refs s1 pa) in Hx'. rewrite Hr1, decide_True in Hx' by done. lia.
    + intros r' va' Hva' Hr'. rewrite unmap_range_one by done.
      apply (pte_at_upd _ _ _ _ _ _ _ _ _ _ _ _ _ _ _ _ _ HI HI' Hp Hk Hent); [lia|done].
  - destruct Hl' as [[-> _]|[-> _]]; [by exists []|by exists [pa]].
Qed.

Lemma unmap_range_split r a n r' va o :
  0 ≤ n → a mod 4096 = 0 →
  unmap_range r (a + 4096) n r' va (unmap_range r a 1 r' va o) = unmap_range r a (n + 1) r' va o.
Proof.
  intros Hn Ha. unfold unmap_range. destruct (Z.eqb_spec r' r); [|done]. cbn [andb].
  replace ((a + 4096) / 4096) with (a / 4096 + 1) by zlia. set (d := va / 4096 - a / 4096).
  replace (va / 4096 - (a / 4096 + 1)) with (d - 1) by lia.
  destruct (Z.leb_spec 0 (d - 1)), (Z.ltb_spec (d - 1) n), (Z.leb_spec 0 d), (Z.ltb_spec d (n + 1)),
    (Z.ltb_spec d 1); simpl; lia || done.
Qed.

Lemma unmap_range_zero r a r' va o : unmap_range r a 0 r' va o = o.
Proof.
  unfold unmap_range. destruct (r' =? r), (Z.leb_spec 0 (va / 4096 - a / 4096)),
    (Z.ltb_spec (va / 4096 - a / 4096) 0); simpl; lia || done.
Qed.

Lemma shrinks_none r a D s : shrinks (unmap_range r a 0) D s s.
Proof.
  destruct (shrinks_refl D s) as [A1 A2 A3 A4]. split; try done.
  intros r' va Hva Hr. rewrite unmap_range_zero. by apply A4.
Qed.

(** Every page of the range is mapped and owned. *)
Definition all_owned (r a : Z) (n : nat) M : Prop :=
  ∀ i, (i < n)%nat → is_Some (M !! leaf r (a + Z.of_nat i * 4096)).

Lemma uvmunmap_loop n r e own : nonneg own → ∀ D M l s a,
  vm_inv own D M l s → D !! (r, []) = Some r → 0 ≤ a → a mod 4096 = 0 →
  a + Z.of_nat n * 4096 ≤ MAXVA → all_owned r a n M →
  ∃ l' s', runs (uvmunmap_step r (a + Z.of_nat n * 4096) true) a e s (Z.of_nat n + 1) () e s' ∧
    vm_inv own D (unmap_keys r a n M) l' s' ∧
    shrinks (unmap_range r a (Z.of_nat n)) D s s' ∧ ∃ fr, l' = fr ++ l.
Proof.
  intros Hnn. induction n as [|n IH]; intros D M l s a HI Hr Ha Hal Hmax HM.
  - exists l, s. split_and!; [|done| |by exists []].
    + apply runs_done. cbv beta. destruct (Z.ltb_spec a (a + Z.of_nat 0 * 4096)); [lia|done].
    + apply shrinks_none.
  - destruct (HM 0%nat ltac:(lia)) as [pa Hpa]. rewrite Z.mul_0_l, Z.add_0_r in Hpa.
    destruct (uvmunmap_one own D M l s r a pa (a + Z.of_nat (S n) * 4096) e Hnn HI Hr ltac:(lia) ltac:(lia) Hpa)
      as (l1 & s1 & E1 & HI1 & Hs1 & fr1 & ->).
    destruct (IH D (delete (leaf r a) M) (fr1 ++ l) s1 (a + 4096)) as (l2 & s2 & E2 & HI2 & Hs2 & fr2 & ->).
    + done.
    + done.
    + lia.
    + zlia.
    + lia.
    + intros i Hi. rewrite lookup_delete_ne.
      * replace (a + 4096 + Z.of_nat i * 4096) with (a + Z.of_nat (S i) * 4096) by lia. apply HM. lia.
      * intros E. apply leaf_eq in E as [_ E]; [zlia|lia|lia].
    + exists (fr2 ++ fr1 ++ l), s2. replace (a + 4096 + Z.of_nat n * 4096) with (a + Z.of_nat (S n) * 4096) in E2 by lia.
      rewrite MAXVA_val in *. split_and!.
      * replace (Z.of_nat (S n) + 1) with (Z.of_nat n + 1 + 1) by lia. eapply runs_step; [exact E1|].
        unfold PGSIZE. rewrite (wrapu_id 64) by (change (2 ^ 38) with 274877906944 in *; lia). exact E2.
      * done.
      * eapply shrinks_trans; [apply (vi_ready HI)| |exact Hs1|exact Hs2].
        intros r' va' o _. rewrite unmap_range_split by (done || lia). f_equal. lia.
      * exists (fr2 ++ fr1). by rewrite <- app_assoc.
Qed.

Lemma uvmunmap_run r va n e own D M l s :
  nonneg own → vm_inv own D M l s → D !! (r, []) = Some r → 0 ≤ va → va mod 4096 = 0 → 0 ≤ n →
  va + n * 4096 ≤ MAXVA → all_owned r va (Z.to_nat n) M →
  ∃ l' s', uvmunmap r va n true e s = Ret () e s' ∧
    vm_inv own D (unmap_keys r va (Z.to_nat n) M) l' s' ∧
    shrinks (unmap_range r va n) D s s' ∧ ∃ fr, l' = fr ++ l.
Proof.
  intros Hnn HI Hr Hva Hal Hn Hmax HM.
  destruct (uvmunmap_loop (Z.to_nat n) r e own Hnn D M l s va) as (l' & s' & E & H'); try done.
  { by rewrite Z2Nat.id. }
  rewrite Z2Nat.id in * by done. exists l', s'. split; [|done].
  unfold uvmunmap. krun. unfold PGSIZE. rewrite Hal. cbn [Z.eqb negb].
  rewrite MAXVA_val in *. change (2 ^ 38) with 274877906944 in *.
  rewrite (wrapu_id 64 (va + n * 4096)) by lia. eapply while_runs; [exact E|]. lia.
Qed.

(** C21: [uvmunmap] with [do_free] on a range of mapped pages returns; exactly
    the translations of the range are gone, every other translation of every
    page table is unchanged, each page loses one reference and goes back to the
    free list with the last one, and every page still in use keeps its bytes. *)
Theorem uvmunmap_correct r va n e own D M l s :
  nonneg own → vm_inv own D M l s → D !! (r, []) = Some r → 0 ≤ va → va mod 4096 = 0 → 0 ≤ n →
  va + n * 4096 ≤ MAXVA → all_owned r va (Z.to_nat n) M →
  wp (uvmunmap r va n true) (λ _ e' s', e' = e ∧
    (∃ l', vm_inv own D (unmap_keys r va (Z.to_nat n) M) l' s') ∧
    (∀ r' va', 0 ≤ va' < MAXVA → D !! (r', []) = Some r' →
       pte_at (k_mem s') r' va' = unmap_range r va n r' va' (pte_at (k_mem s) r' va')) ∧
    (∀ x, protected D s' x → k_mem s' x = k_mem s x)) e s.
Proof.
  intros Hnn HI Hr Hva Hal Hn Hmax HM.
  destruct (uvmunmap_run r va n e own D M l s) as (l' & s' & E & HI' & [H1 H2 H3 H4] & _); try done.
  eapply wp_Ret; [exact E|]. eauto.
Qed.

(** ** The contract of mappages *)

Lemma flags_V perm : 0 ≤ perm < 1024 → 0 ≤ Z.lor perm PTE_V < 1024 ∧ Z.land (Z.lor perm PTE_V) PTE_V ≠ 0.
Proof.
  intros Hp. split; [apply (lor_range _ _ 10); done || lia|].
  rewrite Z.land_lor_distr_l. rewrite Z.land_diag. intros E%Z.lor_eq_0_iff. by destruct E.
Qed.

Lemma flags_R perm : Z.land perm PTE_R ≠ 0 → Z.land (Z.lor perm PTE_V) PTE_R ≠ 0.
Proof. intros Hp. rewrite Z.land_lor_distr_l. intros E%Z.lor_eq_0_iff. naive_solver. Qed.

Lemma good_mkpte pa perm :
  0 ≤ pa < 2 ^ 56 → pa mod 4096 = 0 → 0 ≤ perm < 1024 → Z.land perm PTE_R ≠ 0 →
  good_pte (mkpte pa (Z.lor perm PTE_V)) pa.
Proof.
  intros Hpa Hal Hperm HR. destruct (flags_V perm Hperm). pose proof (flags_R perm HR).
  exists (Z.lor perm PTE_V). split_and!; done || lia.
Qed.

Lemma leaf_unmapped own D M l s r va :
  vm_inv own D M l s → D !! (r, []) = Some r → 0 ≤ va → pte_at (k_mem s) r va = 0 → M !! leaf r va = None.
Proof.
  intros HI Hr Hva Hz. destruct (M !! leaf r va) as [pa|] eqn:E; [|done].
  destruct (leaf_owned _ _ _ _ _ r va pa HI Hr Hva E) as (_ & _ & Hg & _).
  by apply good_pte_nonzero in Hg.
Qed.

(** C22: [mappages] of a range of unmapped pages, for the kernel's own mappings
    (no [PTE_U]): it returns 0 with every page of the range mapped to the
    corresponding physical page, or -1 after a prefix when fewer than two free
    pages per page of the range were left for tables; all other translations,
    all counts and all contents of pages in use are unchanged. *)
Theorem mappages_correct own D M l s r va size pa perm e :
  let a := PGROUNDDOWN va in let n := S (npages va size) in
  vm_inv own D M l s → D !! (r, []) = Some r →
  0 ≤ va → 0 < size → va + size ≤ MAXVA →
  0 ≤ pa → pa + size + 4096 < 2 ^ 56 → pa mod 4096 = 0 →
  0 ≤ perm < 1024 → Z.land perm PTE_R ≠ 0 → Z.land perm PTE_U = 0 →
  (∀ i, (i < n)%nat → pte_at (k_mem s) r (a + Z.of_nat i * 4096) = 0) →
  wp (mappages r va size pa perm) (λ res e' s', e' = e ∧ ∃ k D' l',
    vm_inv own D' M l' s' ∧
    (∀ r' va', 0 ≤ va' < MAXVA → D !! (r', []) = Some r' →
       pte_at (k_mem s') r' va' =
         map_range r a (Z.of_nat k) pa (Z.lor perm PTE_V) r' va' (pte_at (k_mem s) r' va')) ∧
    (∀ x, protected D s x → k_mem s' x = k_mem s x) ∧
    (res = 0 ∧ k = n ∨ res = -1 ∧ (k < n)%nat ∧ (length l < 2 * n)%nat)) e s.
Proof.
  intros a n HI Hr Hva Hsz Hmax Hpa Hpam Hal Hperm HR HU Hz.
  assert (a = va / 4096 * 4096) as Ea by apply PGROUNDDOWN_spec.
  destruct (mappages_run r va size pa perm e (λ _, (own, M)) D l s) as (res & k & D' & l' & s' & E & HI' & He & _ & Hres);
    try done.
  - intros i Hi. fold a. assert (M !! leaf r (a + Z.of_nat i * 4096) = None) as HM.
    { apply (leaf_unmapped _ _ _ _ _ r _ HI Hr); [zlia|by apply Hz]. }
    assert (0 ≤ pa + Z.of_nat i * 4096 < 2 ^ 56) as Hp56.
    { unfold npages in Hi. zlia. }
    destruct (flags_V perm Hperm) as [F1 F2]. split.
    + apply (vi_own HI).
    + done.
    + done.
    + cbn [fst snd]. rewrite HM. right. exists (pa + Z.of_nat i * 4096). split.
      * apply good_mkpte; [done|zlia|done|done].
      * rewrite land_flags, mkpte_flags by done. rewrite Z.land_lor_distr_l, HU. done.
  - intros i Hi. left. fold a. rewrite Hz by (unfold n; lia). done.
  - eapply wp_Ret; [exact E|]. split; [done|]. exists k, D', l'. split_and!; [done| | |].
    + apply (ev_pte _ _ _ _ _ He).
    + apply (ev_mem _ _ _ _ _ He).
    + unfold n. destruct Hres as [?|(? & ? & ?)]; [by left|right]. split_and!; [done|lia|lia].
Qed.

(** [mappages] never overwrites a live translation: on an entry that is
    valid and not copy-on-write it panics. *)
Theorem mappages_remap_panics own D M l s r va size pa perm e :
  vm_inv own D M l s → D !! (r, []) = Some r → 0 ≤ va → 0 < size → va + size ≤ MAXVA →
  Z.land (pte_at (k_mem s) r va) PTE_V ≠ 0 → Z.land (pte_at (k_mem s) r va) PTE_COW = 0 →
  mappages r va size pa perm e s = Panic "mappages: remap" s.
Proof.
  intros HI Hr Hva Hsz Hmax HV HC.
  set (a := PGROUNDDOWN va). assert (a = va / 4096 * 4096) as Ea by apply PGROUNDDOWN_spec.
  assert (pte_at (k_mem s) r a = pte_at (k_mem s) r va) as Ep.
  { apply pte_at_page, leaf_eq; [zlia|lia|]. split; [done|zlia]. }
  destruct (D !! (r, [PX 2 a; PX 1 a])) as [p|] eqn:Hp.
  2: { rewrite <- Ep, (pte_at_D HI r a) in HV by (done || zlia). by rewrite Hp in HV. }
  destruct (leaf_slot _ _ _ _ _ r a p HI Hr ltac:(zlia) Hp) as [Hpp Hld].
  pose proof (PX_range 0 a ltac:(lia)) as Hk. pose proof (page_bounds p Hpp) as Hpb. rewrite KERNBASE_val in Hpb.
  unfold mappages. krun. destruct (Z.eqb_spec size 0); [lia|]. apply while_panic. cbv beta iota.
  rewrite (bind_Ret _ _ _ _ _ _ _ (walk_follow HI r a p true e ltac:(zlia) Hr Hp)).
  destruct (Z.eqb_spec (p + 8 * PX 0 a) 0); [lia|].
  erewrite bind_Ret by (apply ld64_run, ent_in_ram; done). rewrite Hld, Ep. krun. rewrite HC.
  unfold ctrue. by destruct (Z.eqb_spec (Z.land (pte_at (k_mem s) r va) PTE_V) 0).
Qed.
End Map.

(** ** Examples *)

Section Witness.
#[local] Existing Instance small_image.
#[local] Existing Instance small_image_ok.

Lemma mappages_correct_witness :
  wp (mappages (ex_pg 3) 0 PGSIZE UART0 (Z.lor PTE_R PTE_W)) (λ res e' s', e' = [] ∧ ∃ k D' l',
    vm_inv ex_own D' ex_M l' s' ∧
    (∀ r' va', 0 ≤ va' < MAXVA → ex_D !! (r', []) = Some r' →
       pte_at (k_mem s') r' va' =
         map_range (ex_pg 3) (PGROUNDDOWN 0) (Z.of_nat k) UART0 (Z.lor (Z.lor PTE_R PTE_W) PTE_V) r' va'
           (pte_at (k_mem ex_vm) r' va')) ∧
    (∀ x, protected ex_D ex_vm x → k_mem s' x = k_mem ex_vm x) ∧
    (res = 0 ∧ k = S (npages 0 PGSIZE) ∨ res = -1 ∧ (k < S (npages 0 PGSIZE))%nat ∧
       (length [ex_pg 5; ex_pg 6; ex_pg 7] < 2 * S (npages 0 PGSIZE))%nat)) [] ex_vm.
Proof.
  apply (mappages_correct ex_own ex_D ex_M [ex_pg 5; ex_pg 6; ex_pg 7] ex_vm (ex_pg 3) 0 PGSIZE UART0
    (Z.lor PTE_R PTE_W) [] ex_vm_inv); [by vm_compute..|].
  intros i Hi. assert (i = 0%nat) as -> by (vm_compute in Hi; lia). by vm_compute.
Defined.

Lemma mappages_remap_panics_witness :
  mappages (ex_pg 0) 0 PGSIZE (ex_pg 8) PTE_R [] ex_vm = Panic "mappages: remap" ex_vm.
Proof.
  refine (mappages_remap_panics ex_own ex_D ex_M [ex_pg 5; ex_pg 6; ex_pg 7] ex_vm (ex_pg 0) 0 PGSIZE
    (ex_pg 8) PTE_R [] ex_vm_inv _ _ _ _ _ _); by vm_compute.
Defined.

Lemma ex_owned : all_owned (ex_pg 0) 0 1 ex_M.
Proof. intros i Hi. assert (i = 0%nat) as -> by lia. by exists (ex_pg 4). Qed.

Lemma uvmunmap_correct_witness :
  wp (uvmunmap (ex_pg 0) 0 1 true) (λ _ e' s', e' = [] ∧
    (∃ l', vm_inv ex_own ex_D (unmap_keys (ex_pg 0) 0 1 ex_M) l' s') ∧
    (∀ r' va', 0 ≤ va' < MAXVA → ex_D !! (r', []) = Some r' →
       pte_at (k_mem s') r' va' = unmap_range (ex_pg 0) 0 1 r' va' (pte_at (k_mem ex_vm) r' va')) ∧
    (∀ x, protected ex_D s' x → k_mem s' x = k_mem ex_vm x)) [] ex_vm.
Proof.
  refine (uvmunmap_correct (ex_pg 0) 0 1 [] ex_own ex_D ex_M [ex_pg 5; ex_pg 6; ex_pg 7] ex_vm
    ex_nonneg ex_vm_inv _ _ _ _ _ ex_owned); by vm_compute.
Defined.
End Witness.
