(* ===== verification/VmLocal.v ===== *)
(** * VmLocal: address spaces are independent

    The invariant of all memory restricted to one address space is an invariant
    again, with everything else counted as held elsewhere ([vm_inv_mine]).  A
    routine that is run in the restricted one cannot write to the tables of the
    others, so it leaves their part of the invariant as it is ([tables_local]). *)

From S2P Require Import Prelude Params CString State Spinlock PhysMem Kalloc Vm VmInv VmMap.

(** The keys of the address space [r], and those of the others. *)
Definition mine (r : Z) (X : gmap node Z) : gmap node Z := filter (λ kv, kv.1.1 = r) X.
Definition spare (r : Z) (X : gmap node Z) : gmap node Z := filter (λ kv, kv.1.1 ≠ r) X.

Section Split.
Implicit Types (X : gmap node Z) (k : node) (p r : Z).

Lemma mine_lookup r X k : mine r X !! k = if decide (k.1 = r) then X !! k else None.
Proof. unfold mine. apply option_eq. intros p. rewrite map_lookup_filter_Some. case_decide; naive_solver. Qed.

Lemma spare_lookup r X k : spare r X !! k = if decide (k.1 = r) then None else X !! k.
Proof. unfold spare. apply option_eq. intros p. rewrite map_lookup_filter_Some. case_decide; naive_solver. Qed.

Lemma mine_at r X path : mine r X !! (r, path) = X !! (r, path).
Proof. rewrite mine_lookup. by rewrite decide_True. Qed.

Lemma spare_other r X r' path : r' ≠ r → spare r X !! (r', path) = X !! (r', path).
Proof. intros Hne. rewrite spare_lookup. by rewrite decide_False. Qed.

Lemma cnt_none X p : (∀ k, X !! k ≠ Some p) → cnt X p = 0.
Proof. intros Hn. destruct (decide (cnt X p = 0)) as [|Hc]; [done|]. apply cnt_ex in Hc as [k Hk]. by destruct (Hn k). Qed.

Lemma cnt_ext X Y p : (∀ k, X !! k = Some p ↔ Y !! k = Some p) → cnt X p = cnt Y p.
Proof.
  intros Hk. unfold cnt. do 2 f_equal. apply map_eq. intros k. apply option_eq. intros q. rewrite !map_lookup_filter_Some.
  split; intros [A E]; cbn in E; subst; (split; [by apply Hk|done]).
Qed.

Lemma cnt_split r X p : cnt X p = cnt (mine r X) p + cnt (spare r X) p.
Proof.
  unfold cnt. rewrite <- Nat2Z.inj_add, <- map_size_disj_union.
  - do 2 f_equal. apply map_eq. intros k. rewrite lookup_union. apply option_eq. intros q.
    rewrite union_Some, map_lookup_filter_None, !map_lookup_filter_Some, mine_lookup, spare_lookup.
    case_decide; naive_solver.
  - apply map_disjoint_spec. intros k x y. rewrite !map_lookup_filter_Some, mine_lookup, spare_lookup.
    case_decide; naive_solver.
Qed.
End Split.

Section Local.
Context `{!Image} `{!ImageOK}.
Implicit Types (own : Z → Z) (D M : gmap node Z) (l : list Z) (s : kstate) (e : env).

(** What the rest of the system holds, seen from the address space [r]. *)
Definition held_by_others own D M (r : Z) : Z → Z := λ t, own t + cnt (spare r D) t + cnt (spare r M) t.

Lemma vm_inv_mine own D M l s r : vm_inv own D M l s → vm_inv (held_by_others own D M r) (mine r D) (mine r M) l s.
Proof.
  intros [V1 V2 V3 V4 V5 [P1 P2 P3 P4 P5 P6]]. split; [done|done|..].
  - intros t. unfold held_by_others. pose proof (cnt_split r M t). pose proof (cnt_nonneg (spare r D) t).
    pose proof (cnt_nonneg (spare r M) t). destruct (V3 t); lia.
  - intros t Ht. unfold held_by_others. rewrite V4, (cnt_split r D), (cnt_split r M) by done. lia.
  - intros k p Hk. rewrite mine_lookup in Hk. case_decide; [by apply V5 in Hk|done].
  - split.
    + intros r' p Hp. rewrite mine_lookup in Hp. case_decide; [by apply P1|done].
    + intros r' path i q Hq. rewrite mine_lookup in *. cbn in *. case_decide; [by apply P2 in Hq|done].
    + intros r' path p i Hp. rewrite !mine_lookup in *. cbn in *. case_decide; [by apply P3|done].
    + intros r' i j k p Hp. rewrite !mine_lookup in *. cbn in *. case_decide; [by apply P4|done].
    + intros k pa Hk. rewrite mine_lookup in Hk. case_decide as Hd; [|done].
      destruct (P5 k pa Hk) as (r' & i & j & x & -> & A & B). exists r', i, j, x. split; [done|split; [done|]].
      rewrite mine_lookup. cbn in *. by rewrite decide_True.
    + intros r' i q Hq. rewrite mine_lookup in Hq. case_decide; [by apply P6 in Hq|done].
Qed.

(** In the restricted invariant the tables of the others are pages in use. *)
Lemma others_protected own D M l s r k p x : vm_inv own D M l s → k.1 ≠ r → D !! k = Some p → p ≤ x < p + PGSIZE →
  protected (mine r D) s x.
Proof.
  intros HI Hk Hp Hx t Ht Hin. pose proof (table_page HI _ _ Hp) as Hpp.
  destruct (decide (t = p)) as [->|Hne]; [|pose proof (page_disjoint t p Ht Hpp Hne); unfold PGSIZE in *; lia].
  split; [by rewrite (table_refs HI _ _ Hp)|]. intros k' Hk'. rewrite mine_lookup in Hk'. case_decide; [|done].
  pose proof (table_inj HI _ _ _ Hp Hk'). by subst.
Qed.

Lemma mkpte_V_inj p q : page p → page q → mkpte p PTE_V = mkpte q PTE_V → p = q.
Proof. intros Hp Hq E. rewrite <- (mkpte_V_pa p Hp), <- (mkpte_V_pa q Hq). by rewrite E. Qed.

Lemma mkpte_V_nonzero q : page q → mkpte q PTE_V ≠ 0.
Proof. intros Hq E. pose proof (mkpte_V q Hq) as Ev. by rewrite E in Ev. Qed.

(** Tables are determined by what their roots are and what memory holds. *)
Lemma tables_local own D M l s own' D' M' l' s' r : vm_inv own D M l s → vm_inv own' D' M' l' s' →
  (∀ x, D' !! (x, []) = D !! (x, [])) →
  (∀ k p x, k.1 ≠ r → D !! k = Some p → p ≤ x < p + PGSIZE → k_mem s' x = k_mem s x) →
  ∀ k, k.1 ≠ r → D' !! k = D !! k.
Proof.
  intros HI HI' Hroot Hmem [x path]. cbn. intros Hne. induction path as [|i path IH] using rev_ind; [done|].
  pose proof (vi_pt HI) as P. pose proof (vi_pt HI') as P'.
  destruct (decide (is_Some (D !! (x, path)) ∧ (length path < 2)%nat ∧ 0 ≤ i < 512)) as [([p Hp] & Hl & Hi)|Hno].
  - assert (ent (k_mem s') p i = ent (k_mem s) p i) as E by (apply ent_ext; [done|]; intros y Hy; by apply (Hmem (x, path) p)).
    rewrite (po_node P' x path p i) in E by (done || by rewrite IH). rewrite (po_node P x path p i Hp Hl Hi) in E.
    destruct (D' !! (x, path ++ [i])) as [q'|] eqn:E'; destruct (D !! (x, path ++ [i])) as [q|] eqn:E0; [|..|done].
    + f_equal. by apply mkpte_V_inj; [apply (table_page HI' _ _ E')|apply (table_page HI _ _ E0)|].
    + by apply (mkpte_V_nonzero q' (table_page HI' _ _ E')) in E.
    + symmetry in E. by apply (mkpte_V_nonzero q (table_page HI _ _ E0)) in E.
  - destruct (D' !! (x, path ++ [i])) as [q'|] eqn:E'.
    { destruct (po_up P' x path i q' E') as (A & B & C). rewrite IH in C. by destruct Hno. }
    destruct (D !! (x, path ++ [i])) as [q|] eqn:E0; [|done].
    destruct (po_up P x path i q E0) as (A & B & C). by destruct Hno.
Qed.

Lemma relabel_mine own M r va v own' M' X : relabel own M (leaf r va) v own' M' → nonneg X →
  relabel (λ t, own t + X t + cnt (spare r M) t) (mine r M) (leaf r va) v
    (λ t, own' t + X t + cnt (spare r M) t) (mine r M').
Proof.
  intros [R1 R2 R3 R4] HX.
  assert (∀ t, cnt (spare r M') t = cnt (spare r M) t) as Hsp.
  { intros t. apply cnt_ext. intros k. rewrite !spare_lookup. case_decide; [done|]. rewrite R3; [done|]. by intros ->. }
  split.
  - intros t. specialize (R1 t). specialize (HX t). rewrite (cnt_split r M'), Hsp in R1. pose proof (cnt_nonneg (spare r M) t). lia.
  - intros t Ht. specialize (R2 t Ht). rewrite (cnt_split r M'), (cnt_split r M), Hsp in R2. lia.
  - intros x Hx. rewrite !mine_lookup. case_decide; [by apply R3|done].
  - unfold leaf in *. rewrite mine_at. apply R4.
Qed.
End Local.
