(* ===== verification/VmGrow.v ===== *)
(** * VmGrow: growing and shrinking a user address space
    (uvmcreate, uvmalloc, uvmdealloc, uvmfree of kernel/vm.c)

    [uvmalloc] either maps zeroed pages over the whole new range or leaves every
    translation and every reference as it found them; [uvmdealloc] takes the
    pages beyond the new size away again. *)

From S2P Require Import Prelude Params CString State Spinlock PhysMem Kalloc Vm VmInv VmMap VmLocal.

Section Grow.
Context `{!Image} `{!ImageOK}.
Implicit Types (own : Z → Z) (D M : gmap node Z) (l : list Z) (s : kstate) (e : env).

(** ** Writing a data page *)

Lemma pt_ok_ext D M m m' :
  (∀ x t y, D !! x = Some t → 0 ≤ y < 512 → ent m' t y = ent m t y) → pt_ok D M m → pt_ok D M m'.
Proof.
  intros Hent [H1 H2 H3 H4 H5 H6]. split; try done.
  - intros r path t i Ht Hl Hi. rewrite (Hent _ _ _ Ht Hi). by apply H3.
  - intros r a b c t Ht Hc. rewrite (Hent _ _ _ Ht Hc). by apply H4.
Qed.

Lemma pte_at_ext own D M l s own' M' l' s' r va :
  vm_inv own D M l s → vm_inv own' D M' l' s' →
  (∀ x t y, D !! x = Some t → 0 ≤ y < 512 → ent (k_mem s') t y = ent (k_mem s) t y) →
  0 ≤ va → D !! (r, []) = Some r → pte_at (k_mem s') r va = pte_at (k_mem s) r va.
Proof.
  intros HI HI' Hent Hva Hr. rewrite (pte_at_D HI' r va Hva Hr), (pte_at_D HI r va Hva Hr).
  destruct (D !! (r, [PX 2 va; PX 1 va])) as [t|] eqn:Ht; [|done].
  apply (Hent _ _ _ Ht), PX_range. lia.
Qed.

(** A page in use that is not a table can be overwritten freely. *)
Lemma vm_inv_data own D M l s q (g : memory → memory) :
  vm_inv own D M l s → page q → 1 ≤ refs s q → (∀ k, D !! k ≠ Some q) →
  (∀ x, x < q ∨ q + PGSIZE ≤ x → g (k_mem s) x = k_mem s x) →
  vm_inv own D M l (s <| k_mem ::= g |>) ∧
  ∀ r va, 0 ≤ va → D !! (r, []) = Some r →
    pte_at (k_mem (s <| k_mem ::= g |>)) r va = pte_at (k_mem s) r va.
Proof.
  intros HI Hq Hr Hnt Hg. change (k_mem (s <| k_mem ::= g |>)) with (g (k_mem s)).
  assert (∀ x t y, D !! x = Some t → 0 ≤ y < 512 → ent (g (k_mem s)) t y = ent (k_mem s) t y) as Hent.
  { intros x t y Hx Hy. apply ent_ext; [done|]. intros z Hz. apply Hg.
    assert (q ≠ t) as Hd by (intros ->; by apply (Hnt _ Hx)).
    pose proof (page_disjoint q t Hq (table_page HI _ _ Hx) Hd). lia. }
  assert (vm_inv own D M l (s <| k_mem ::= g |>)) as HI'.
  { split.
    - apply (vi_ready HI).
    - pose proof (vi_kmem HI) as HK. apply kmem_inv_mem; [done|]. intros t Ht.
      assert (page t) as Hpt by (eapply Forall_forall; [apply (ki_page _ _ HK)|done]).
      apply le_load_ext. intros z Hz. apply Hg.
      assert (q ≠ t) as Hd by (intros ->; apply (ki_free _ _ HK) in Ht; [lia|done]).
      pose proof (page_disjoint q t Hq Hpt Hd). unfold PGSIZE in *. lia.
    - apply (vi_own HI).
    - apply (vi_refs HI).
    - apply (vi_table HI).
    - by apply (pt_ok_ext _ _ (k_mem s)), (vi_pt HI). }
  split; [done|]. intros r va Hva Hr'. by apply (pte_at_ext _ _ _ _ _ _ _ _ _ r va HI HI').
Qed.

(** ** Allocating a page for a user *)

(** The references held outside the page tables change by [d] for [q]. *)
Definition addown own (q d : Z) : Z → Z := λ t, own t + if decide (t = q) then d else 0.

(** Only the frame of [evolves]. *)
Abbreviation framed D s D' s' := (evolves (λ r va _, pte_at (k_mem s') r va) D s D' s').

Lemma evolves_framed φ D s D' s' : evolves φ D s D' s' → framed D s D' s'.
Proof. intros [H1 H2 H3 H4 H5 H6 H7]. by split. Qed.

Lemma framed_trans own1 M1 l1 own3 M3 l3 D1 s1 D2 s2 D3 s3 :
  vm_inv own1 D1 M1 l1 s1 → vm_inv own3 D3 M3 l3 s3 →
  framed D1 s1 D2 s2 → framed D2 s2 D3 s3 → framed D1 s1 D3 s3.
Proof.
  intros HI1 HI3 H1 H2. by apply (evolves_trans (λ r va _, pte_at (k_mem s2) r va)
    (λ r va _, pte_at (k_mem s3) r va) _ own1 M1 l1 own3 M3 l3 D1 s1 D2 s2 D3 s3).
Qed.

(** A freshly allocated page [q], filled by [g]. *)
Lemma kalloc_fill own D M l s q (g : memory → memory) :
  vm_inv own D M (q :: l) s →
  (∀ m x, x < q ∨ q + PGSIZE ≤ x → g m x = m x) →
  let s1 := st_alloc q s <| k_mem ::= g |> in
  vm_inv (addown own q 1) D M l s1 ∧ evolves (λ _ _ o, o) D s D s1 ∧ page q ∧ refs s q = 0 ∧
  refs s1 q = 1 ∧ ∀ k, D !! k ≠ Some q.
Proof.
  intros HI Hg s1. destruct (nt_q HI) as (Hq & Hz & Ho & HDq & HMq).
  pose proof (cnt_zero _ _ HDq) as Hnt.
  assert (∀ t, page t → refs (st_alloc q s) t = refs s t + if decide (t = q) then 1 else 0) as Hr.
  { intros t Ht. unfold st_alloc. case_decide as Hd; [subst; by rewrite refs_st_ref_eq|].
    rewrite refs_st_ref_ne by congruence. change (refs s t = refs s t + 0). lia. }
  assert (∀ x t y, D !! x = Some t → 0 ≤ y < 512 →
    ent (k_mem (st_alloc q s)) t y = ent (k_mem s) t y) as Hent.
  { intros x t y Hx Hy. apply ent_memset; [by apply (table_page HI _ _ Hx)|done| |done].
    intros ->. by apply (Hnt x). }
  assert (vm_inv (addown own q 1) D M l (st_alloc q s)) as HI0.
  { split.
    - by apply (kmem_ready_settle s), (vi_ready HI).
    - apply kmem_inv_alloc, (vi_kmem HI).
    - intros t. pose proof (vi_own HI t). unfold addown. case_decide; lia.
    - intros t Ht. rewrite Hr, (vi_refs HI t Ht) by done. unfold addown. lia.
    - intros k t Hk. destruct (vi_table HI k t Hk) as [Ht Hrt]. split; [done|].
      rewrite Hr, decide_False; [lia| |done]. intros ->. by apply (Hnt k).
    - by apply (pt_ok_ext _ _ (k_mem s)), (vi_pt HI). }
  assert (refs (st_alloc q s) q = 1) as Hone by (rewrite Hr, decide_True by done; lia).
  destruct (vm_inv_data _ _ _ _ _ q g HI0 Hq ltac:(lia) Hnt) as [HI1 Hpte]; [by intros x Hx; apply Hg|].
  split_and!; [exact HI1| |done|done| |done].
  2: { unfold s1. by rewrite refs_mem. }
  split.
  - done.
  - by left.
  - done.
  - split; [by right|done].
  - intros x Hx. change (k_mem s1 x) with (g (k_mem (st_alloc q s)) x).
    assert (x < q ∨ q + PGSIZE ≤ x) as Hout.
    { destruct (Z.le_gt_cases q x), (Z.lt_ge_cases x (q + PGSIZE)); try lia.
      destruct (Hx q Hq ltac:(lia)). lia. }
    rewrite Hg by done. by apply memset_out.
  - intros t Ht Hrt. unfold s1. rewrite refs_mem, Hr by done.
    case_decide; subst; lia.
  - intros r va Hva Hr'. etransitivity; [apply Hpte; [lia|done]|].
    apply (pte_at_ext _ _ _ _ _ _ _ _ _ r va HI HI0 Hent); [lia|done].
Qed.

(** ** uvmdealloc *)

Lemma unmap_keys_other r n k : ∀ a M,
  (∀ i, (i < n)%nat → k ≠ leaf r (a + Z.of_nat i * 4096)) → unmap_keys r a n M !! k = M !! k.
Proof.
  induction n as [|n IH]; intros a M Hk; [done|]. cbn [unmap_keys]. rewrite IH.
  - apply lookup_delete_ne. intros E. apply (Hk 0%nat); [lia|]. by rewrite Z.mul_0_l, Z.add_0_r.
  - intros i Hi. replace (a + 4096 + Z.of_nat i * 4096) with (a + Z.of_nat (S i) * 4096) by lia.
    apply Hk. lia.
Qed.

Lemma unmap_keys_none r n k : ∀ a M, M !! k = None → unmap_keys r a n M !! k = None.
Proof.
  induction n as [|n IH]; intros a M Hk; [done|]. cbn [unmap_keys]. apply IH.
  by apply lookup_delete_None; right.
Qed.

Lemma unmap_keys_in r n i : ∀ a M,
  (i < n)%nat → unmap_keys r a n M !! leaf r (a + Z.of_nat i * 4096) = None.
Proof.
  revert i. induction n as [|n IH]; intros i a M Hi; [lia|]. cbn [unmap_keys]. destruct i as [|i].
  - apply unmap_keys_none. rewrite Z.mul_0_l, Z.add_0_r. apply lookup_delete_eq.
  - replace (a + Z.of_nat (S i) * 4096) with (a + 4096 + Z.of_nat i * 4096) by lia. apply IH. lia.
Qed.

(** Pages between two sizes. *)
Definition pages_between (lo hi : Z) : Z := (PGROUNDUP hi - PGROUNDUP lo) / 4096.

Lemma PGROUNDUP_bounds sz :
  0 ≤ sz ≤ MAXVA → PGROUNDUP sz mod 4096 = 0 ∧ sz ≤ PGROUNDUP sz < sz + 4096 ∧ PGROUNDUP sz ≤ MAXVA.
Proof.
  rewrite MAXVA_val. change (2 ^ 38) with 274877906944. intros Hsz.
  rewrite PGROUNDUP_spec by lia. zlia.
Qed.

Lemma PGROUNDUP_mono x y : 0 ≤ x ≤ y → y ≤ MAXVA → PGROUNDUP x ≤ PGROUNDUP y.
Proof.
  rewrite MAXVA_val. change (2 ^ 38) with 274877906944. intros H1 H2.
  rewrite !PGROUNDUP_spec by lia. zlia.
Qed.

Lemma uvmdealloc_run r oldsz newsz e own D M l s :
  nonneg own → vm_inv own D M l s → D !! (r, []) = Some r → 0 ≤ newsz < oldsz → oldsz ≤ MAXVA →
  let a := PGROUNDUP newsz in let n := pages_between newsz oldsz in
  all_owned r a (Z.to_nat n) M →
  ∃ l' s', uvmdealloc r oldsz newsz e s = Ret newsz e s' ∧
    vm_inv own D (unmap_keys r a (Z.to_nat n) M) l' s' ∧ shrinks (unmap_range r a n) D s s'.
Proof.
  intros Hnn HI Hr Hsz Hmax a n HM. unfold uvmdealloc. destruct (Z.leb_spec oldsz newsz); [lia|].
  pose proof (PGROUNDUP_bounds newsz ltac:(lia)). pose proof (PGROUNDUP_bounds oldsz ltac:(lia)).
  pose proof (PGROUNDUP_mono newsz oldsz ltac:(lia) ltac:(lia)). krun. fold a.
  assert (n * 4096 = PGROUNDUP oldsz - a) as Hn by (unfold n, pages_between, a; zlia).
  destruct (Z.ltb_spec a (PGROUNDUP oldsz)).
  - assert (i32 ((PGROUNDUP oldsz - a) / PGSIZE) = n) as ->.
    { rewrite <- Hn. unfold PGSIZE. rewrite Z.div_mul by lia. apply wraps_id; [lia|].
      rewrite MAXVA_val in *. change (2 ^ 38) with 274877906944 in *. simpl. unfold a in *. lia. }
    destruct (uvmunmap_run r a n e own D M l s) as (l' & s' & E & HI' & Hs & _);
      try done; try (unfold a in *; lia).
    run E. exists l', s'. done.
  - assert (n = 0) as En by (unfold a in *; lia). rewrite En in *. exists l, s. split_and!; [done|done|].
    apply shrinks_none.
Qed.

(** [uvmdealloc] to a smaller size returns that size; exactly the pages
    beyond it are unmapped and released, all other translations stay. *)
Theorem uvmdealloc_correct r oldsz newsz e own D M l s :
  nonneg own → vm_inv own D M l s → D !! (r, []) = Some r → 0 ≤ newsz < oldsz → oldsz ≤ MAXVA →
  all_owned r (PGROUNDUP newsz) (Z.to_nat (pages_between newsz oldsz)) M →
  wp (uvmdealloc r oldsz newsz) (λ sz e' s', sz = newsz ∧ e' = e ∧
    (∃ l', vm_inv own D (unmap_keys r (PGROUNDUP newsz) (Z.to_nat (pages_between newsz oldsz)) M) l' s') ∧
    (∀ r' va, 0 ≤ va < MAXVA → D !! (r', []) = Some r' →
       pte_at (k_mem s') r' va =
         unmap_range r (PGROUNDUP newsz) (pages_between newsz oldsz) r' va (pte_at (k_mem s) r' va)) ∧
    (∀ x, protected D s' x → k_mem s' x = k_mem s x)) e s.
Proof.
  intros Hnn HI Hr Hsz Hmax HM.
  destruct (uvmdealloc_run r oldsz newsz e own D M l s) as (l' & s' & E & HI' & [H1 H2 H3 H4]); try done.
  eapply wp_Ret; [exact E|]. eauto 6.
Qed.

(** ** Mapping a page the caller owns *)

#[export] Instance vm_inv_proper :
  Proper (pointwise_relation Z eq ==> eq ==> eq ==> eq ==> eq ==> iff) vm_inv.
Proof.
  assert (∀ own own' D M l s, (∀ t, own t = own' t) → vm_inv own D M l s → vm_inv own' D M l s) as Himp.
  { intros own own' D M l s E [A1 A2 A3 A4 A5 A6]. split; try done; intros p; rewrite <- ?E; auto. }
  intros own own' E D ? <- M ? <- l ? <- s ? <-. split; apply Himp; intros t; [|symmetry]; apply E.
Qed.

(** Memory is not affected by what happens to processes, pipes and locks. *)
Lemma vm_inv_ext own D M l s s' :
  k_mem s' = k_mem s → k_freelist s' = k_freelist s → k_refCount s' = k_refCount s → kmem_ready s' →
  vm_inv own D M l s → vm_inv own D M l s'.
Proof.
  intros Em Ef Er Hk [V1 [K1 K2 K3 K4 K5] V3 V4 V5 V6].
  assert (∀ q, refs s' q = refs s q) as Erefs by (intros q; unfold refs; by rewrite Er).
  split; [done|split; [by rewrite Em, Ef|done|done| |]|done| | |by rewrite Em].
  - intros q Hq. rewrite Erefs. by apply K4.
  - intros q Hq. rewrite Erefs. by apply K5.
  - intros q Hq. rewrite Erefs. by apply V4.
  - intros k q Hq. rewrite Erefs. by apply (V5 k).
Qed.

Lemma addown_cancel own q : pointwise_relation Z eq (addown (addown own q 1) q (-1)) own.
Proof. intros t. unfold addown. case_decide; lia. Qed.

Lemma addown_cancel' own q : pointwise_relation Z eq (addown (addown own q (-1)) q 1) own.
Proof. intros t. unfold addown. case_decide; lia. Qed.

Lemma npages_one va : va mod 4096 = 0 → npages va PGSIZE = 0%nat.
Proof. intros Hva. unfold npages, PGSIZE. replace ((va + 4096 - 1) / 4096) with (va / 4096) by zlia. by rewrite Z.sub_diag. Qed.

Lemma mappages_page_any own D M l s r va pa perm e own' M' :
  vm_inv own D M l s → D !! (r, []) = Some r → 0 ≤ va < MAXVA → va mod 4096 = 0 →
  mappable (pte_at (k_mem s) r va) →
  0 ≤ pa < 2 ^ 55 → pa mod 4096 = 0 → 0 ≤ perm < 1024 →
  relabel own M (leaf r va) (mkpte pa (Z.lor perm PTE_V)) own' M' →
  ∃ res D' l' s', mappages r va PGSIZE pa perm e s = Ret res e s' ∧
    (∃ x, (x ≤ 2)%nat ∧ l' = drop x l) ∧
    (res = -1 ∧ (length l < 2)%nat ∧ vm_inv own D' M l' s' ∧ evolves (λ _ _ o, o) D s D' s' ∨
     res = 0 ∧ vm_inv own' D' M' l' s' ∧ evolves (map_range r va 1 pa (Z.lor perm PTE_V)) D s D' s').
Proof.
  intros HI Hr Hva Hal Hmap Hpa Hpal Hperm HR.
  set (G := λ i : nat, match i with O => (own, M) | S _ => (own', M') end).
  change (2 ^ 55) with 36028797018963968 in Hpa. rewrite MAXVA_val in Hva. change (2 ^ 38) with 274877906944 in Hva.
  destruct (mappages_run r va PGSIZE pa perm e G D l s) as (res & k & D' & l' & s' & E & HI' & Hev & Hx & Hres).
  - done.
  - done.
  - lia.
  - done.
  - rewrite MAXVA_val. change (2 ^ 38) with 274877906944. unfold PGSIZE. zlia.
  - lia.
  - change (2 ^ 56) with 72057594037927936. unfold PGSIZE. lia.
  - done.
  - done.
  - rewrite npages_one by done. intros i Hi. assert (i = 0%nat) as -> by lia.
    rewrite Z.mul_0_l, !Z.add_0_r, PGROUNDDOWN_aligned by done. done.
  - rewrite npages_one by done. intros i Hi. assert (i = 0%nat) as -> by lia.
    by rewrite Z.mul_0_l, Z.add_0_r, PGROUNDDOWN_aligned by done.
  - rewrite npages_one in Hx, Hres by done. rewrite PGROUNDDOWN_aligned in Hev by done.
    exists res, D', l', s'. split_and!; [done| |].
    + destruct Hx as (x & Hx & ->). by exists x.
    + destruct Hres as [[-> ->]|(-> & Hk & Hl)]; [right; done|left].
      assert (k = 0%nat) as -> by lia. split_and!; [done|lia|done|].
      eapply evolves_ext; [|exact Hev]. intros. by rewrite map_range_zero.
Qed.

(** [mappages] of one page: [own'] and [M'] say who owns what afterwards.  Only
    [r] gets new tables. *)
Lemma mappages_page own D M l s r va pa perm e own' M' :
  vm_inv own D M l s → D !! (r, []) = Some r → 0 ≤ va < MAXVA → va mod 4096 = 0 →
  mappable (pte_at (k_mem s) r va) →
  0 ≤ pa < 2 ^ 55 → pa mod 4096 = 0 → 0 ≤ perm < 1024 →
  relabel own M (leaf r va) (mkpte pa (Z.lor perm PTE_V)) own' M' →
  ∃ res D' l' s', mappages r va PGSIZE pa perm e s = Ret res e s' ∧
    (∃ x, (x ≤ 2)%nat ∧ l' = drop x l) ∧ (∀ k, k.1 ≠ r → D' !! k = D !! k) ∧
    (res = -1 ∧ (length l < 2)%nat ∧ vm_inv own D' M l' s' ∧ evolves (λ _ _ o, o) D s D' s' ∨
     res = 0 ∧ vm_inv own' D' M' l' s' ∧ evolves (map_range r va 1 pa (Z.lor perm PTE_V)) D s D' s').
Proof.
  intros HI Hr Hva Hal Hmap Hpa Hpal Hperm HR.
  destruct (mappages_page_any own D M l s r va pa perm e own' M') as (res & D' & l' & s' & E & Hx & Hres); try done.
  destruct (mappages_page_any (held_by_others own D M r) (mine r D) (mine r M) l s r va pa perm e
    (λ t, own' t + cnt (spare r D) t + cnt (spare r M) t) (mine r M')) as (res2 & D2 & l2 & s2 & E2 & _ & Hres2); try done.
  { by apply vm_inv_mine. }
  { by rewrite mine_at. }
  { apply relabel_mine; [done|]. intros t. apply cnt_nonneg. }
  rewrite E in E2. injection E2 as <- <-.
  exists res, D', l', s'. split_and!; [done|done| |done].
  assert (∀ x, protected (mine r D) s x → k_mem s' x = k_mem s x) as Hprot.
  { by destruct Hres2 as [(_ & _ & _ & [])|(_ & _ & [])]. }
  assert (∃ own1 M1, vm_inv own1 D' M1 l' s' ∧ ∀ x, D' !! (x, []) = D !! (x, [])) as (own1 & M1 & HI1 & Hroot).
  { destruct Hres as [(_ & _ & HI1 & [])|(_ & HI1 & [])]; eauto. }
  apply (tables_local _ _ _ _ _ _ _ _ _ _ r HI HI1 Hroot).
  intros k p x Hk Hp Hin. apply Hprot. by eapply (others_protected own D M l s r k p x).
Qed.

Lemma mappages_own own D M l s r va q perm e :
  vm_inv own D M l s → D !! (r, []) = Some r → 0 ≤ va < MAXVA → va mod 4096 = 0 →
  pte_at (k_mem s) r va = 0 → M !! leaf r va = None →
  page q → 1 ≤ own q → 0 ≤ perm < 1024 → Z.land perm PTE_R ≠ 0 →
  ∃ res D' l' s', mappages r va PGSIZE q perm e s = Ret res e s' ∧
    (∃ x, (x ≤ 2)%nat ∧ l' = drop x l) ∧ (∀ k, k.1 ≠ r → D' !! k = D !! k) ∧
    (res = -1 ∧ (length l < 2)%nat ∧ vm_inv own D' M l' s' ∧ evolves (λ _ _ o, o) D s D' s' ∨
     res = 0 ∧ vm_inv (addown own q (-1)) D' (<[leaf r va := q]> M) l' s' ∧
     evolves (map_range r va 1 q (Z.lor perm PTE_V)) D s D' s').
Proof.
  intros HI Hr Hva Hal Hz HM Hq Ho Hperm HR. pose proof (page_bounds q Hq) as (B1 & B2 & B3).
  rewrite KERNBASE_val, PHYSTOP_val in *. unfold PGSIZE in B2.
  apply mappages_page; try done.
  - left. by rewrite Hz.
  - change (2 ^ 55) with 36028797018963968. lia.
  - split.
    + intros t. pose proof (vi_own HI t). rewrite cnt_insert by done. unfold addown.
      repeat case_decide; subst; congruence || lia.
    + intros t Ht. rewrite cnt_insert by done. unfold addown. repeat case_decide; lia || congruence.
    + intros x Hx. apply lookup_insert_ne. congruence.
    + rewrite lookup_insert_eq. split; [|done]. apply good_mkpte; try done. apply (page_range q Hq).
Qed.

(** ** uvmalloc *)

(** An owned page that a later allocation step leaves alone. *)
Lemma framed_owned own D M l s D' s' r va pa x :
  vm_inv own D M l s → D !! (r, []) = Some r → 0 ≤ va → M !! leaf r va = Some pa →
  framed D s D' s' → pa ≤ x < pa + PGSIZE → k_mem s' x = k_mem s x.
Proof.
  intros HI Hr Hva HM Hf Hx. destruct (leaf_owned _ _ _ _ _ r va pa HI Hr Hva HM)
    as (_ & _ & _ & Hpa & Hrf & Hnt).
  apply (ev_mem _ _ _ _ _ Hf). intros q Hq Hin.
  destruct (decide (q = pa)) as [->|Hne]; [done|].
  pose proof (page_disjoint q pa Hq Hpa Hne). lia.
Qed.

(** The new mapping of one page: a zeroed page with the given flags. *)
Definition fresh_page M s r va f : Prop :=
  ∃ pa, M !! leaf r va = Some pa ∧ pte_at (k_mem s) r va = mkpte pa f ∧
    ∀ x, pa ≤ x < pa + PGSIZE → k_mem s x = 0.

(** After [n] iterations from address [a]. *)
Record grown own D M s r a f (n : nat) D' M' l' s' : Prop := Grown {
  gn_inv : vm_inv own D' M' l' s';
  gn_frame : framed D s D' s';
  gn_keys : ∀ k, (∀ i, (i < n)%nat → k ≠ leaf r (a + Z.of_nat i * 4096)) → M' !! k = M !! k;
  gn_out : ∀ r' va, 0 ≤ va < MAXVA → D !! (r', []) = Some r' →
    (∀ i, (i < n)%nat → leaf r' va ≠ leaf r (a + Z.of_nat i * 4096)) →
    pte_at (k_mem s') r' va = pte_at (k_mem s) r' va;
  gn_in : ∀ i, (i < n)%nat → fresh_page M' s' r (a + Z.of_nat i * 4096) f;
}.

Lemma grown_init own D M l s r a f : vm_inv own D M l s → grown own D M s r a f 0 D M l s.
Proof. intros HI. split; try done; [|intros; lia]. apply (evolves_framed (λ _ _ o, o)), evolves_refl. Qed.

Lemma map_range_hit r va pa f : map_range r va 1 pa f r va = λ _, mkpte pa f.
Proof. unfold map_range. rewrite Z.eqb_refl, Z.sub_diag. simpl. by rewrite Z.add_0_r. Qed.

Lemma map_range_miss r va pa f r' va' o :
  0 ≤ va < MAXVA → 0 ≤ va' < MAXVA → leaf r' va' ≠ leaf r va → map_range r va 1 pa f r' va' o = o.
Proof.
  intros Hva Hva' Hne. rewrite leaf_eq in Hne by done. unfold map_range.
  destruct (Z.eqb_spec r' r); [|done]. subst.
  destruct (Z.leb_spec 0 (va' / 4096 - va / 4096)), (Z.ltb_spec (va' / 4096 - va / 4096) 1); try done.
  destruct Hne. split; [done|lia].
Qed.

(** One iteration: the page [q] was taken off the free list, zeroed and mapped. *)
Lemma grown_step own D M l0 s r a f n D1 M1 l1 s1 q D2 l2 s2 :
  vm_inv own D M l0 s → D !! (r, []) = Some r →
  0 ≤ a → a + Z.of_nat n * 4096 < MAXVA → a mod 4096 = 0 → 
  grown own D M s r a f n D1 M1 (q :: l1) s1 →
  let va := a + Z.of_nat n * 4096 in
  let s1' := st_alloc q s1 <| k_mem ::= λ m, memset m q 0 PGSIZE |> in
  evolves (λ _ _ o, o) D1 s1 D1 s1' → evolves (map_range r va 1 q f) D1 s1' D2 s2 →
  vm_inv own D2 (<[leaf r va := q]> M1) l2 s2 →
  grown own D M s r a f (S n) D2 (<[leaf r va := q]> M1) l2 s2.
Proof.
  intros HI0 Hr Ha Hmax Hal [HI1 Hf1 Hk1 Ho1 Hi1] va s1' He1 He2 HI2.
  assert (D1 !! (r, []) = Some r) as Hr1 by (by rewrite (ev_roots _ _ _ _ _ Hf1)).
  assert (∀ i, (i < n)%nat → leaf r (a + Z.of_nat i * 4096) ≠ leaf r va) as Hne.
  { intros i Hi E. apply leaf_eq in E as [_ E]; unfold va in *; zlia || lia. }
  assert (framed D1 s1 D2 s2) as Hf2.
  { eapply evolves_framed, (evolves_trans (λ _ _ o, o) _ (map_range r va 1 q f)); done. }
  split.
  - done.
  - by eapply framed_trans.
  - intros k Hk. rewrite lookup_insert_ne.
    + apply Hk1. intros i Hi. apply Hk. lia.
    + intros <-. by apply (Hk n ltac:(lia)).
  - intros r' va' Hva' Hr' Hout.
    assert (D1 !! (r', []) = Some r') as Hr1' by (by rewrite (ev_roots _ _ _ _ _ Hf1)).
    rewrite (ev_pte _ _ _ _ _ He2) by done. rewrite (ev_pte _ _ _ _ _ He1) by done.
    rewrite map_range_miss; [|unfold va; lia|done|by apply (Hout n); lia].
    apply Ho1; [done|done|]. intros i Hi. apply Hout. lia.
  - intros i Hi. destruct (decide (i = n)) as [->|Hin].
    + exists q. split_and!.
      * apply lookup_insert_eq.
      * rewrite (ev_pte _ _ _ _ _ He2); [by rewrite map_range_hit|unfold va in *; lia|done].
      * intros x Hx. destruct (nt_q HI1) as (Hq & Hz & _ & HDq & _).
        rewrite (ev_mem _ _ _ _ _ He2).
        -- change (memset (k_mem (st_alloc q s1)) q 0 PGSIZE x = 0). rewrite memset_spec by (unfold PGSIZE; lia).
           by destruct (Z.leb_spec q x), (Z.ltb_spec x (q + PGSIZE)); simpl; try lia.
        -- intros t Ht Hin. destruct (decide (t = q)) as [->|Hd].
           ++ split; [|by apply cnt_zero]. unfold s1'. rewrite refs_mem. unfold st_alloc.
              rewrite refs_st_ref_eq. lia.
           ++ pose proof (page_disjoint t q Ht Hq Hd). lia.
    + destruct (Hi1 i ltac:(lia)) as (pa & A1 & A2 & A3). exists pa. split_and!.
      * rewrite lookup_insert_ne; [done|]. intros E. by apply (Hne i ltac:(lia)).
      * rewrite (ev_pte _ _ _ _ _ He2); [|lia|done]. rewrite (ev_pte _ _ _ _ _ He1); [|lia|done].
        rewrite map_range_miss; [done|unfold va; lia|lia|]. apply Hne. lia.
      * intros x Hx. erewrite framed_owned; [by apply A3|exact HI1|exact Hr1| |exact A1|exact Hf2|done]. lia.
Qed.

(** Giving back a reference that no page table holds. *)
Lemma kfree_own own D M l s q e :
  vm_inv own D M l s → page q → 1 ≤ own q →
  ∃ l' s', kfree q e s = Ret () e s' ∧ vm_inv (addown own q (-1)) D M l' s' ∧ mem_only s s' ∧
    (length l ≤ length l')%nat ∧
    (∀ t, page t → refs s' t = refs s t - if decide (q = t) then 1 else 0) ∧
    (∀ x, refs s q ≠ 1 ∨ x < q ∨ q + PGSIZE ≤ x → k_mem s' x = k_mem s x) ∧
    (∀ r va, 0 ≤ va → D !! (r, []) = Some r → pte_at (k_mem s') r va = pte_at (k_mem s) r va).
Proof.
  intros HI Hq Ho.
  assert (∀ k, D !! k ≠ Some q) as Hnt by (intros k Hk; destruct (table_excl HI k q Hk); lia).
  assert (1 ≤ refs s q) as Hr.
  { rewrite (vi_refs HI q Hq). pose proof (cnt_nonneg D q). pose proof (cnt_nonneg M q). lia. }
  destruct (kfree_used l s q e (vi_ready HI) (vi_kmem HI) Hq Hr)
    as (l' & s' & E & Hrdy & HK & Hmo & Hl & Hrefs & Hmem).
  assert (∀ x t y, D !! x = Some t → 0 ≤ y < 512 → ent (k_mem s') t y = ent (k_mem s) t y) as Hent.
  { intros x t y Hx Hy. apply ent_ext; [done|]. intros z Hz. apply Hmem. right.
    assert (q ≠ t) as Hd by (intros ->; by apply (Hnt _ Hx)).
    pose proof (page_disjoint q t Hq (table_page HI _ _ Hx) Hd). lia. }
  assert (vm_inv (addown own q (-1)) D M l' s') as HI'.
  { split; [done|done| | | |by apply (pt_ok_ext _ _ (k_mem s)), (vi_pt HI)].
    - intros t. pose proof (vi_own HI t). unfold addown. case_decide; subst; lia.
    - intros t Ht. rewrite Hrefs, (vi_refs HI t Ht) by done. unfold addown.
      repeat case_decide; congruence || lia.
    - intros k t Hk. destruct (vi_table HI k t Hk) as [Ht Hrt]. split; [done|].
      rewrite Hrefs, decide_False; [lia| |done]. intros ->. by apply (Hnt k). }
  exists l', s'. split_and!; try done.
  - destruct Hl as [[-> _]|[-> _]]; simpl; lia.
  - intros r va Hva Hr'. by apply (pte_at_ext _ _ _ _ _ _ _ _ _ r va HI HI').
Qed.

(** An iteration that could not map its page and gave it back. *)
Lemma grown_abort own D M l0 s r a f n D1 M1 l1 s1 q D2 l2 s2 e :
  vm_inv own D M l0 s → D !! (r, []) = Some r → 0 ≤ a → a + Z.of_nat n * 4096 ≤ MAXVA →
  grown own D M s r a f n D1 M1 (q :: l1) s1 →
  let s1' := st_alloc q s1 <| k_mem ::= λ m, memset m q 0 PGSIZE |> in
  evolves (λ _ _ o, o) D1 s1 D1 s1' → evolves (λ _ _ o, o) D1 s1' D2 s2 →
  vm_inv (addown own q 1) D2 M1 l2 s2 →
  ∃ l3 s3, kfree q e s2 = Ret () e s3 ∧ grown own D M s r a f n D2 M1 l3 s3.
Proof.
  intros HI0 Hr Ha Hmax [HI1 Hf1 Hk1 Ho1 Hi1] s1' He1 He2 HI2. destruct (nt_q HI1) as (Hq & Hz & Hown & HDq & HMq).
  destruct (kfree_own _ _ _ _ _ q e HI2 Hq) as (l3 & s3 & E & HI3 & Hmo & _ & Hrefs & Hmem & Hpte).
  { unfold addown. rewrite decide_True by done. pose proof (vi_own HI1 q). lia. }
  rewrite addown_cancel in HI3.
  assert (evolves (λ _ _ o, o) D1 s1 D2 s2) as He by (by eapply (evolves_trans (λ _ _ o, o) (λ _ _ o, o))).
  assert (evolves (λ _ _ o, o) D1 s1 D2 s3) as He3.
  { destruct He as [B1 B2 B3 B4 B5 B6 B7]. split; try done.
    - eapply mem_only_trans; [apply (vi_ready HI1)|done|done].
    - intros x Hx. rewrite Hmem; [by apply B5|]. right.
      destruct (Z.le_gt_cases q x), (Z.lt_ge_cases x (q + PGSIZE)); try lia.
      destruct (Hx q Hq ltac:(lia)). lia.
    - intros t Ht Hrt. rewrite Hrefs, B6, decide_False by (done || (intros ->; lia)). lia.
    - intros r' va Hva Hr'. rewrite Hpte; [by apply B7|lia|by rewrite B3]. }
  exists l3, s3. split; [done|]. split.
  - done.
  - eapply framed_trans; [done..|]. by eapply evolves_framed.
  - done.
  - intros r' va Hva Hr' Hout. rewrite (ev_pte _ _ _ _ _ He3); [by apply Ho1|done|].
    by rewrite (ev_roots _ _ _ _ _ Hf1).
  - assert (D1 !! (r, []) = Some r) as Hr1 by (by rewrite (ev_roots _ _ _ _ _ Hf1)).
    intros i Hi. destruct (Hi1 i Hi) as (pa & A1 & A2 & A3). exists pa. split_and!; [done| |].
    + rewrite (ev_pte _ _ _ _ _ He3); [done|lia|done].
    + intros x Hx. erewrite framed_owned; [by apply A3|exact HI1|exact Hr1| |exact A1| |done]; [lia|].
      by eapply evolves_framed.
Qed.

(** With the same owners, adding tables changes no count of a page in use. *)
Lemma same_refs own D M l s D' l' s' t :
  vm_inv own D M l s → vm_inv own D' M l' s' →
  D ⊆ D' → (∀ k p, D' !! k = Some p → D !! k = Some p ∨ refs s p = 0) →
  page t → 1 ≤ refs s t → refs s' t = refs s t.
Proof.
  intros HI HI' Hsub Hnew Ht Hr. destruct (decide (cnt D t = 0)) as [Hz|Hnz].
  - rewrite (vi_refs HI t Ht) in *. rewrite (vi_refs HI' t Ht). rewrite Hz in *.
    destruct (decide (cnt D' t = 0)) as [->|Hnz']; [done|].
    apply cnt_ex in Hnz' as [k Hk]. apply Hnew in Hk as [Hk|Hk].
    + apply cnt_pos in Hk. lia.
    + rewrite (vi_refs HI t Ht), Hz in Hk. lia.
  - apply cnt_ex in Hnz as [k Hk]. rewrite (table_refs HI k t Hk).
    apply (table_refs HI' k t). by eapply lookup_weaken.
Qed.

(** Undoing [n] iterations. *)
Lemma grown_undo own D M l s r a f n D1 M1 l1 s1 e :
  nonneg own → vm_inv own D M l s → D !! (r, []) = Some r →
  0 ≤ a → a mod 4096 = 0 → a + Z.of_nat n * 4096 ≤ MAXVA →
  (∀ i, (i < n)%nat → pte_at (k_mem s) r (a + Z.of_nat i * 4096) = 0) →
  grown own D M s r a f n D1 M1 l1 s1 →
  ∃ l2 s2, uvmdealloc r (a + Z.of_nat n * 4096) a e s1 = Ret a e s2 ∧ vm_inv own D1 M l2 s2 ∧
    evolves (λ _ _ o, o) D s D1 s2.
Proof.
  intros Hnn HI Hr Ha Hal Hmax Hz HG. pose proof HG as [HI1 Hf1 Hk1 Ho1 Hi1].
  assert (D1 !! (r, []) = Some r) as Hr1 by (by rewrite (ev_roots _ _ _ _ _ Hf1)).
  destruct n as [|n].
  { exists l1, s1. unfold uvmdealloc. rewrite Z.mul_0_l, Z.add_0_r.
    destruct (Z.leb_spec a a); [|lia]. split_and!; [done| |].
    - assert (M1 = M) as <-; [|done]. apply map_eq. intros k. apply Hk1. intros; lia.
    - destruct Hf1 as [B1 B2 B3 B4 B5 B6 B7]. split; try done. intros r' va Hva Hr'. apply Ho1; [done|done|lia]. }
  set (N := Z.of_nat (S n)) in *. assert (N = Z.of_nat (S n)) as HN by done.
  assert (PGROUNDUP a = a) as Ea.
  { rewrite MAXVA_val in Hmax. change (2 ^ 38) with 274877906944 in Hmax. apply PGROUNDUP_aligned; lia. }
  assert (pages_between a (a + N * 4096) = N) as En.
  { unfold pages_between. rewrite Ea. rewrite MAXVA_val in Hmax. change (2 ^ 38) with 274877906944 in Hmax.
    rewrite PGROUNDUP_aligned by (zlia || lia). zlia. }
  destruct (uvmdealloc_run r (a + N * 4096) a e own D1 M1 l1 s1 Hnn) as (l2 & s2 & E & HI2 & Hs); try done.
  { lia. }
  { rewrite Ea, En. unfold N. rewrite Nat2Z.id. intros i Hi. destruct (Hi1 i Hi) as (pa & A1 & _). eauto. }
  rewrite Ea, En in *. unfold N in HI2. rewrite Nat2Z.id in HI2. fold N in HI2.
  assert (unmap_keys r a (S n) M1 = M) as HM.
  { apply map_eq. intros k.
    destruct (decide (k ∈ (λ i : nat, leaf r (a + Z.of_nat i * 4096)) <$> seq 0 (S n))) as [Hk|Hk].
    - apply list_elem_of_fmap in Hk as (i & -> & Hi%elem_of_seq). rewrite unmap_keys_in by lia.
      symmetry. apply (leaf_unmapped _ _ _ _ _ r _ HI Hr); [lia|]. apply Hz. lia.
    - assert (∀ i, (i < S n)%nat → k ≠ leaf r (a + Z.of_nat i * 4096)) as Hk'.
      { intros i Hi ->. apply Hk. apply list_elem_of_fmap. exists i. split; [done|]. apply elem_of_seq. lia. }
      by rewrite unmap_keys_other, Hk1. }
  rewrite HM in HI2. exists l2, s2. split_and!; [done|done|].
  assert (∀ t, page t → 1 ≤ refs s t → refs s2 t = refs s t) as Hrefs
    by (intros t; apply (same_refs _ _ _ _ _ _ _ _ t HI HI2); apply Hf1).
  destruct Hf1 as [B1 B2 B3 B4 B5 B6 B7]. destruct Hs as [S1 S2 S3 S4]. split; try done.
  - eapply mem_only_trans; [apply (vi_ready HI)|done|done].
  - intros x Hx. rewrite S3; [by apply B5|]. intros t Ht Hin. destruct (Hx t Ht Hin) as [Hx1 Hx2].
    split; [by rewrite Hrefs|]. intros k Hk. destruct (B2 k t Hk); [by apply (Hx2 k)|lia].
  - intros r' va Hva Hr'. rewrite S4 by (done || by rewrite B3). unfold unmap_range.
    destruct (Z.eqb_spec r' r) as [->|Hnr].
    + destruct (Z.leb_spec 0 (va / 4096 - a / 4096)), (Z.ltb_spec (va / 4096 - a / 4096) N); cbn [andb].
      1: { set (i := va / 4096 - a / 4096) in *.
           assert (leaf r va = leaf r (a + Z.of_nat (Z.to_nat i) * 4096)) as El.
           { apply leaf_eq; [lia| |]; rewrite Z2Nat.id by lia; [unfold i in *; zlia|]. split; [done|unfold i in *; zlia]. }
           rewrite (pte_at_page _ _ _ _ El). symmetry. apply Hz. lia. }
      all: apply Ho1; [done|done|]; intros i Hi E'; apply leaf_eq in E' as [_ E']; zlia || lia.
    + apply Ho1; [done|done|]. intros i Hi [= E']. done.
Qed.

Abbreviation uvmalloc_step pagetable oldsz newsz xperm := (λ a,
      if a <? newsz then
        mem ← kalloc;
        if mem =? 0 then
          uvmdealloc pagetable a oldsz;;
          mret (inr 0)
        else
          kmemset mem 0 PGSIZE;;
          r ← mappages pagetable a PGSIZE mem (Z.lor (Z.lor PTE_R PTE_U) xperm);
          if negb (r =? 0) then
            kfree mem;;
            uvmdealloc pagetable a oldsz;;
            mret (inr 0)
          else mret (inl (u64 (a + PGSIZE)))
      else mret (inr newsz)).

Lemma perm_user xperm : 0 ≤ xperm < 1024 →
  0 ≤ Z.lor (Z.lor PTE_R PTE_U) xperm < 1024 ∧ Z.land (Z.lor (Z.lor PTE_R PTE_U) xperm) PTE_R ≠ 0.
Proof.
  intros Hx. split; [apply (lor_range _ _ 10); done || lia|].
  rewrite Z.land_lor_distr_l. intros E%Z.lor_eq_0_iff. by destruct E.
Qed.

(** One iteration of the loop of [uvmalloc]. *)
Lemma uvmalloc_one own D M l s r a newsz xperm i D1 M1 l1 s1 e :
  let f := Z.lor (Z.lor (Z.lor PTE_R PTE_U) xperm) PTE_V in
  let va := a + Z.of_nat i * 4096 in
  nonneg own → vm_inv own D M l s → D !! (r, []) = Some r → 0 ≤ a → a mod 4096 = 0 → 0 ≤ xperm < 1024 →
  va < newsz ≤ MAXVA → (∀ j, (j ≤ i)%nat → pte_at (k_mem s) r (a + Z.of_nat j * 4096) = 0) →
  grown own D M s r a f i D1 M1 l1 s1 →
  (∃ D2 l2 s2, uvmalloc_step r a newsz xperm va e s1 = Ret (inr 0) e s2 ∧
     vm_inv own D2 M l2 s2 ∧ evolves (λ _ _ o, o) D s D2 s2) ∨
  (∃ D2 M2 l2 s2, uvmalloc_step r a newsz xperm va e s1 = Ret (inl (va + 4096)) e s2 ∧
     grown own D M s r a f (S i) D2 M2 l2 s2).
Proof.
  intros f va Hnn HI Hr Ha Hal Hx Hva Hz HG. pose proof HG as [HI1 Hf1 Hk1 Ho1 Hi1].
  destruct (perm_user xperm Hx) as [Hperm HR].
  destruct (Z.ltb_spec va newsz); [|lia].
  destruct l1 as [|q l1].
  - run (kalloc_nil e s1 (vi_ready HI1) (vi_kmem HI1)). cbn [Z.eqb].
    destruct (grown_undo own D M l s r a f i D1 M1 [] (st_settle s1) e Hnn HI Hr Ha Hal)
      as (l2 & s2 & E & HI2 & He2); [unfold va in *; lia|intros; apply Hz; lia| |].
    + split; try done; [by apply vm_inv_settle|]. eapply framed_trans; [done|by apply vm_inv_settle|exact Hf1|].
      apply (evolves_framed (λ _ _ o, o)), grows_settle.
    + left. exists D1, l2, s2. split_and!; [|done|done]. fold va in E. by run E.
  - destruct (kalloc_fill own D1 M1 l1 s1 q (λ m, memset m q 0 PGSIZE) HI1)
      as (HI1' & He1 & Hq & Hqz & Hq1 & Hnt); [intros; by apply memset_out|].
    set (s1' := st_alloc q s1 <| k_mem ::= λ m, memset m q 0 PGSIZE |>) in *.
    run (kalloc_cons q l1 e s1 (vi_ready HI1) (vi_kmem HI1)).
    pose proof (page_nonzero q Hq). destruct (Z.eqb_spec q 0); [done|].
    erewrite bind_Ret by (apply kmemset_run, (page_in_ram q PGSIZE Hq); done). fold s1'.
    assert (D1 !! (r, []) = Some r) as Hr1 by (by rewrite (ev_roots _ _ _ _ _ Hf1)).
    assert (pte_at (k_mem s1') r va = 0) as Hz1.
    { rewrite (ev_pte _ _ _ _ _ He1) by (done || (unfold va in *; lia)).
      rewrite Ho1; [by apply Hz|unfold va in *; lia|done|].
      intros j Hj E. apply leaf_eq in E as [_ E]; unfold va in *; zlia || lia. }
    assert (M1 !! leaf r va = None) as HM1.
    { apply (leaf_unmapped _ _ _ _ _ r va HI1' Hr1); [unfold va; lia|exact Hz1]. }
    assert (1 ≤ addown own q 1 q) as Ho.
    { unfold addown. rewrite decide_True by done. pose proof (Hnn q). lia. }
    destruct (mappages_own (addown own q 1) D1 M1 l1 s1' r va q (Z.lor (Z.lor PTE_R PTE_U) xperm) e
      HI1' Hr1 ltac:(unfold va in *; lia) ltac:(unfold va; zlia) Hz1 HM1 Hq Ho Hperm HR)
      as (res & D2 & l2 & s2 & E & _ & _ & Hres).
    rewrite (bind_Ret _ _ _ _ _ _ _ E). destruct Hres as [(-> & _ & HI2 & He2)|(-> & HI2 & He2)].
    + cbn [Z.eqb negb].
      destruct (grown_abort own D M l s r a f i D1 M1 l1 s1 q D2 l2 s2 e HI Hr Ha) as (l3 & s3 & E3 & HG3);
        [unfold va in *; lia|exact HG|exact He1|exact He2|exact HI2|].
      rewrite (bind_Ret _ _ _ _ _ _ _ E3).
      destruct (grown_undo own D M l s r a f i D2 M1 l3 s3 e Hnn HI Hr Ha Hal) as (l4 & s4 & E4 & HI4 & He4);
        [unfold va in *; lia|intros; apply Hz; lia|done|]. fold va in E4.
      left. exists D2, l4, s4. split_and!; [by run E4|done|done].
    + cbn [Z.eqb negb]. right. exists D2, (<[leaf r va := q]> M1), l2, s2. split.
      * unfold PGSIZE. rewrite MAXVA_val in Hva. change (2 ^ 38) with 274877906944 in Hva.
        rewrite (wrapu_id 64) by (unfold va in *; lia). done.
      * rewrite addown_cancel in HI2. eapply grown_step; [exact HI|exact Hr|exact Ha|unfold va in *; lia|exact Hal|exact HG|
          exact He1|exact He2|exact HI2].
Qed.

Lemma uvmalloc_loop own D M l s r a newsz xperm e m : ∀ i D1 M1 l1 s1,
  let f := Z.lor (Z.lor (Z.lor PTE_R PTE_U) xperm) PTE_V in
  nonneg own → vm_inv own D M l s → D !! (r, []) = Some r → 0 ≤ a → a mod 4096 = 0 → 0 ≤ xperm < 1024 →
  newsz ≤ MAXVA →
  a + (Z.of_nat (i + m) - 1) * 4096 < newsz ∨ m = 0%nat → newsz ≤ a + Z.of_nat (i + m) * 4096 →
  (∀ j, (j < i + m)%nat → pte_at (k_mem s) r (a + Z.of_nat j * 4096) = 0) →
  grown own D M s r a f i D1 M1 l1 s1 →
  ∃ res c D2 M2 l2 s2,
    runs (uvmalloc_step r a newsz xperm) (a + Z.of_nat i * 4096) e s1 c res e s2 ∧ c ≤ Z.of_nat m + 1 ∧
    (res = newsz ∧ grown own D M s r a f (i + m) D2 M2 l2 s2 ∨
     res = 0 ∧ vm_inv own D2 M l2 s2 ∧ evolves (λ _ _ o, o) D s D2 s2).
Proof.
  induction m as [|m IH]; intros i D1 M1 l1 s1 f Hnn HI Hr Ha Hal Hx Hmax Hlo Hhi Hz HG.
  - exists newsz, 1, D1, M1, l1, s1. rewrite Nat.add_0_r in *. split_and!; [|lia|by left].
    apply runs_done. destruct (Z.ltb_spec (a + Z.of_nat i * 4096) newsz); [lia|done].
  - destruct (uvmalloc_one own D M l s r a newsz xperm i D1 M1 l1 s1 e Hnn HI Hr Ha Hal Hx) as
      [(D2 & l2 & s2 & E & HI2 & He2)|(D2 & M2 & l2 & s2 & E & HG2)].
    + lia.
    + intros j Hj. apply Hz. lia.
    + done.
    + exists 0, 1, D2, M, l2, s2. split_and!; [by apply runs_done|lia|by right].
    + destruct (IH (S i) D2 M2 l2 s2) as (res & c & D3 & M3 & l3 & s3 & Hruns & Hc & Hres); try done.
      * destruct m; [by right|left]. lia.
      * lia.
      * intros j Hj. apply Hz. lia.
      * exists res, (c + 1), D3, M3, l3, s3.
        replace (i + S m)%nat with (S i + m)%nat by lia. split_and!; [|lia|done].
        replace (a + Z.of_nat (S i) * 4096) with (a + Z.of_nat i * 4096 + 4096) in Hruns by lia.
        by eapply runs_step.
Qed.

(** C20: [uvmalloc] returns.  Either the result is the new size and every page
    of the new range is mapped to its own zeroed page with the requested
    permissions, or the result is 0 and every translation of every page table
    is what it was and no page is left referenced (only page-table pages may
    stay behind).  In both cases all other translations and the contents of
    all pages that were in use are unchanged. *)
Theorem uvmalloc_correct own D M l s r oldsz newsz xperm e :
  let a := PGROUNDUP oldsz in let n := Z.to_nat (pages_between oldsz newsz) in
  let f := Z.lor (Z.lor (Z.lor PTE_R PTE_U) xperm) PTE_V in
  nonneg own → vm_inv own D M l s → D !! (r, []) = Some r → 0 ≤ oldsz ≤ newsz → newsz ≤ MAXVA → 0 ≤ xperm < 1024 →
  (∀ i, (i < n)%nat → pte_at (k_mem s) r (a + Z.of_nat i * 4096) = 0) →
  wp (uvmalloc r oldsz newsz xperm) (λ res e' s', e' = e ∧
    (∀ x, protected D s x → k_mem s' x = k_mem s x) ∧
    (res = newsz ∧ (∃ D' M' l', grown own D M s r a f n D' M' l' s') ∨
     res = 0 ∧ (∃ D' l', vm_inv own D' M l' s') ∧
       ∀ r' va, 0 ≤ va < MAXVA → D !! (r', []) = Some r' →
         pte_at (k_mem s') r' va = pte_at (k_mem s) r' va)) e s.
Proof.
  intros a n f Hnn HI Hr Hsz Hmax Hx Hz.
  pose proof (PGROUNDUP_bounds oldsz ltac:(lia)). pose proof (PGROUNDUP_bounds newsz ltac:(lia)).
  pose proof (PGROUNDUP_mono oldsz newsz ltac:(lia) ltac:(lia)).
  assert (Z.of_nat n * 4096 = PGROUNDUP newsz - a) as Hn.
  { unfold n, pages_between, a. rewrite Z2Nat.id by zlia. zlia. }
  destruct (uvmalloc_loop own D M l s r a newsz xperm e n 0 D M l s)
    as (res & c & D' & M' & l' & s' & Hruns & Hc & Hres); try done; try (unfold a in *; lia).
  { by apply grown_init. }
  eapply wp_Ret.
  { unfold uvmalloc. destruct (Z.ltb_spec newsz oldsz); [lia|].
    rewrite Z.mul_0_l, Z.add_0_r in Hruns. eapply while_runs; [exact Hruns|].
    rewrite MAXVA_val in *. change (2 ^ 38) with 274877906944 in *. unfold a in *. lia. }
  split; [done|]. destruct Hres as [[-> HG]|(-> & HI' & He)].
  - split; [apply (ev_mem _ _ _ _ _ (gn_frame _ _ _ _ _ _ _ _ _ _ _ _ HG))|]. left. eauto.
  - split; [apply (ev_mem _ _ _ _ _ He)|]. right. split_and!; [done|eauto|]. apply (ev_pte _ _ _ _ _ He).
Qed.
End Grow.

(** ** Examples *)

Section Witness.
#[local] Existing Instance small_image.
#[local] Existing Instance small_image_ok.
#[local] Abbreviation l3 := [ex_pg 5; ex_pg 6; ex_pg 7].

Lemma uvmdealloc_correct_witness :
  wp (uvmdealloc (ex_pg 0) 4096 0) (λ sz e' s', sz = 0 ∧ e' = [] ∧
    (∃ l', vm_inv ex_own ex_D
       (unmap_keys (ex_pg 0) (PGROUNDUP 0) (Z.to_nat (pages_between 0 4096)) ex_M) l' s') ∧
    (∀ r' va, 0 ≤ va < MAXVA → ex_D !! (r', []) = Some r' →
       pte_at (k_mem s') r' va =
         unmap_range (ex_pg 0) (PGROUNDUP 0) (pages_between 0 4096) r' va (pte_at (k_mem ex_vm) r' va)) ∧
    (∀ x, protected ex_D s' x → k_mem s' x = k_mem ex_vm x)) [] ex_vm.
Proof.
  apply (uvmdealloc_correct (ex_pg 0) 4096 0 [] ex_own ex_D ex_M l3 ex_vm ex_nonneg ex_vm_inv);
    [by vm_compute..|exact ex_owned].
Defined.

Lemma uvmalloc_correct_witness :
  wp (uvmalloc (ex_pg 0) 4096 8192 PTE_W) (λ res e' s', e' = [] ∧
    (∀ x, protected ex_D ex_vm x → k_mem s' x = k_mem ex_vm x) ∧
    (res = 8192 ∧ (∃ D' M' l', grown ex_own ex_D ex_M ex_vm (ex_pg 0) (PGROUNDUP 4096)
       (Z.lor (Z.lor (Z.lor PTE_R PTE_U) PTE_W) PTE_V) (Z.to_nat (pages_between 4096 8192)) D' M' l' s') ∨
     res = 0 ∧ (∃ D' l', vm_inv ex_own D' ex_M l' s') ∧
       ∀ r' va, 0 ≤ va < MAXVA → ex_D !! (r', []) = Some r' →
         pte_at (k_mem s') r' va = pte_at (k_mem ex_vm) r' va)) [] ex_vm.
Proof.
  apply (uvmalloc_correct ex_own ex_D ex_M l3 ex_vm (ex_pg 0) 4096 8192 PTE_W [] ex_nonneg ex_vm_inv);
    [by vm_compute..|].
  intros i Hi. assert (i = 0%nat) as -> by (vm_compute in Hi; lia). by vm_compute.
Defined.
End Witness.
