(* ===== verification/VmCow.v ===== *)
(** * VmCow: copy-on-write sharing (uvmcopy of kernel/vm.c)

    [uvmcopy] gives the child the parent's pages: afterwards both page tables
    map the same physical pages, read-only and marked copy-on-write, and every
    shared page counts one more reference. *)

From S2P Require Import Prelude Params CString State Spinlock PhysMem Kalloc Vm VmInv VmMap VmLocal VmGrow.

(** ** Flags *)

(** The entry [uvmcopy] leaves in both page tables. *)
Definition cow_pte (pte : Z) : Z := Z.land (Z.lor pte PTE_COW) (Z.lnot PTE_W).

Lemma flags_all (P : Z → bool) f : forallb P (seqZ 0 1024) = true → 0 ≤ f < 1024 → P f = true.
Proof. intros Hall Hf. rewrite forallb_forall in Hall. apply Hall, list_elem_of_In, elem_of_seqZ. lia. Qed.

Lemma cow_flags f : 0 ≤ f < 1024 →
  0 ≤ cow_pte f < 1024 ∧
  (Z.land f PTE_V ≠ 0 → Z.lor (Z.land (Z.lor f PTE_COW) (Z.lnot (Z.lor PTE_W PTE_V))) PTE_V = cow_pte f) ∧
  0 ≤ Z.land (Z.lor f PTE_COW) (Z.lnot (Z.lor PTE_W PTE_V)) < 1024 ∧
  Z.land (cow_pte f) PTE_V = Z.land f PTE_V ∧ Z.land (cow_pte f) PTE_R = Z.land f PTE_R ∧
  Z.land (cow_pte f) PTE_U = Z.land f PTE_U ∧ Z.land (cow_pte f) PTE_X = Z.land f PTE_X ∧
  Z.land (cow_pte f) PTE_W = 0 ∧ Z.land (cow_pte f) PTE_COW = PTE_COW ∧
  (Z.land f PTE_R ≠ 0 → Z.land (Z.land (Z.lor f PTE_COW) (Z.lnot (Z.lor PTE_W PTE_V))) PTE_R ≠ 0).
Proof.
  set (P := λ f, (0 <=? cow_pte f) && (cow_pte f <? 1024) &&
    ((Z.land f PTE_V =? 0) ||
     (Z.lor (Z.land (Z.lor f PTE_COW) (Z.lnot (Z.lor PTE_W PTE_V))) PTE_V =? cow_pte f)) &&
    (0 <=? Z.land (Z.lor f PTE_COW) (Z.lnot (Z.lor PTE_W PTE_V))) &&
    (Z.land (Z.lor f PTE_COW) (Z.lnot (Z.lor PTE_W PTE_V)) <? 1024) &&
    (Z.land (cow_pte f) PTE_V =? Z.land f PTE_V) && (Z.land (cow_pte f) PTE_R =? Z.land f PTE_R) &&
    (Z.land (cow_pte f) PTE_U =? Z.land f PTE_U) && (Z.land (cow_pte f) PTE_X =? Z.land f PTE_X) &&
    (Z.land (cow_pte f) PTE_W =? 0) && (Z.land (cow_pte f) PTE_COW =? PTE_COW) &&
    ((Z.land f PTE_R =? 0) ||
     negb (Z.land (Z.land (Z.lor f PTE_COW) (Z.lnot (Z.lor PTE_W PTE_V))) PTE_R =? 0))).
  intros Hf. assert (P f = true) as H by (apply flags_all; [by vm_compute|done]).
  unfold P in H. breflect. split_and!; try lia.
Qed.

Lemma cow_mkpte pa f : 0 ≤ pa < 2 ^ 56 → 0 ≤ f < 1024 → cow_pte (mkpte pa f) = mkpte pa (cow_pte f).
Proof.
  intros Hpa Hf. unfold cow_pte, mkpte. rewrite PA2PTE_val by done.
  rewrite <- Z.lor_assoc, Z.land_lor_distr_l. f_equal.
  change PTE_W with (2 ^ 2). apply Z.bits_inj'. intros i Hi. rewrite Z.land_spec, Z.lnot_spec by done.
  change 1024 with (2 ^ 10). destruct (Z.eq_dec i 2) as [->|Hne].
  - by rewrite Z.mul_pow2_bits_low by lia.
  - rewrite Z.pow2_bits_false by lia. apply andb_true_r.
Qed.

Lemma good_pte_cow pte pa : good_pte pte pa → good_pte (cow_pte pte) pa.
Proof.
  intros (f & -> & Hpa & Hal & Hf & HV & HR). rewrite cow_mkpte by done.
  destruct (cow_flags f Hf) as (A1 & _ & _ & A4 & A5 & _). exists (cow_pte f).
  rewrite A4, A5. done.
Qed.

Section Cow.
Context `{!Image} `{!ImageOK}.
Implicit Types (own : Z → Z) (D M : gmap node Z) (l : list Z) (s : kstate) (e : env).

(** ** One page *)

(** [refInc] of a page in use. *)
Lemma refInc_own own D M l s pa e :
  vm_inv own D M l s → page pa → 1 ≤ refs s pa → refs s pa + 1 < 2 ^ 31 - 1 → (∀ k, D !! k ≠ Some pa) →
  refInc pa e s = Ret () e (st_ref pa (refs s pa + 1) s) ∧
  vm_inv (addown own pa 1) D M l (st_ref pa (refs s pa + 1) s).
Proof.
  intros HI Hpa Hr Hmax Hnt. split; [apply refInc_run; [done|lia]|].
  assert (∀ t, page t → refs (st_ref pa (refs s pa + 1) s) t = refs s t + if decide (t = pa) then 1 else 0) as Hrefs.
  { intros t Ht. case_decide as Hd; [subst; by rewrite refs_st_ref_eq|].
    rewrite refs_st_ref_ne by congruence. lia. }
  split.
  - apply (vi_ready HI).
  - apply kmem_inv_ref; [done|lia|lia|apply (vi_kmem HI)].
  - intros t. pose proof (vi_own HI t). unfold addown. case_decide; lia.
  - intros t Ht. rewrite Hrefs, (vi_refs HI t Ht) by done. unfold addown. lia.
  - intros k t Hk. destruct (vi_table HI k t Hk) as [Ht Hrt]. split; [done|].
    rewrite Hrefs, decide_False; [lia| |done]. intros ->. by apply (Hnt k).
  - apply (vi_pt HI).
Qed.

Abbreviation uvmcopy_step old new sz := (λ i,
    if i <? sz then
      slot ← walk old i false;
      panic_if (slot =? 0) "uvmcopy: pte should exist";;
      pte ← ld64 slot;
      panic_if (Z.land pte PTE_V =? 0) "uvmcopy: page not present";;
      let pa := PTE2PA pte in
      let flags := PTE_FLAGS pte in
      let flags := Z.land (Z.lor flags PTE_COW) (Z.lnot (Z.lor PTE_W PTE_V)) in
      st64 slot (Z.land (Z.lor pte PTE_COW) (Z.lnot PTE_W));;
      r ← mappages new i PGSIZE pa flags;
      if negb (r =? 0) then
        uvmunmap new 0 (i / PGSIZE) true;;
        mret (inr (-1))
      else
        refInc pa;;
        mret (inl (u64 (i + PGSIZE)))
    else mret (inr 0)).

(** What sharing one page does to the translations. *)
Definition cow_one (old new va pte r va' o : Z) : Z :=
  if decide (leaf r va' = leaf old va ∨ leaf r va' = leaf new va) then cow_pte pte else o.

(** The old entry is made copy-on-write. *)
Lemma cow_old own D M l s old va pa :
  vm_inv own D M l s → D !! (old, []) = Some old → 0 ≤ va < MAXVA → M !! leaf old va = Some pa →
  let pte := pte_at (k_mem s) old va in
  ∃ p, D !! (old, [PX 2 va; PX 1 va]) = Some p ∧
    let s1 := st_pte p (PX 0 va) (cow_pte pte) s in
    vm_inv own D M l s1 ∧
    evolves (λ r va' o, if decide (leaf r va' = leaf old va) then cow_pte pte else o) D s D s1.
Proof.
  intros HI Hr Hva HM pte. destruct (leaf_owned _ _ _ _ _ old va pa HI Hr ltac:(lia) HM)
    as (p & Hp & Hg & Hpa & Hrf & Hnt).
  pose proof (good_pte_cow _ _ Hg) as Hg'. pose proof (good_pte_u64 _ _ Hg') as Hv.
  pose proof (PX_range 0 va ltac:(lia)) as Hk. exists p. split; [done|].
  assert (match M !! (old, [PX 2 va; PX 1 va; PX 0 va]) with
    | Some pa => good_pte (cow_pte pte) pa ∧ page pa
    | None => cow_pte pte = 0 ∨ ∃ pa, good_pte (cow_pte pte) pa ∧ Z.land (cow_pte pte) PTE_U = 0
    end) as Hkey by (fold (leaf old va); by rewrite HM).
  split; [by eapply vm_inv_leaf; try done; apply (vi_own HI)|].
  eapply (evolves_leaf (own' := own) (M' := M)); try done. apply (vi_own HI).
Qed.

(** One iteration: the page is shared, or there is no memory for the tables. *)
Lemma uvmcopy_one own D M l s old new va pa sz e :
  nonneg own → vm_inv own D M l s → D !! (old, []) = Some old → D !! (new, []) = Some new → old ≠ new →
  0 ≤ va < sz → sz ≤ MAXVA → va mod 4096 = 0 →
  M !! leaf old va = Some pa → pte_at (k_mem s) new va = 0 → refs s pa + 1 < 2 ^ 31 - 1 →
  let pte := pte_at (k_mem s) old va in
  ∃ D2 l2 s2, (∀ k, k.1 ≠ new → D2 !! k = D !! k) ∧ (length l ≤ length l2 + 2)%nat ∧
    ((uvmcopy_step old new sz va e s = (uvmunmap new 0 (va / PGSIZE) true;; mret (inr (-1))) e s2 ∧
     (length l < 2)%nat ∧ vm_inv own D2 M l2 s2 ∧
     evolves (λ r va' o, if decide (leaf r va' = leaf old va) then cow_pte pte else o) D s D2 s2) ∨
    (uvmcopy_step old new sz va e s = Ret (inl (va + 4096)) e (st_ref pa (refs s pa + 1) s2) ∧
     vm_inv own D2 (<[leaf new va := pa]> M) l2 (st_ref pa (refs s pa + 1) s2) ∧
     evolves (cow_one old new va pte) D s D2 s2)).
Proof.
  intros Hnn HI Ho Hn Hne Hva Hmax Hal HM Hz Hlim pte.
  destruct (leaf_owned _ _ _ _ _ old va pa HI Ho ltac:(lia) HM) as (p & Hp & Hg & Hpa & Hrf & Hnt).
  destruct (cow_old own D M l s old va pa HI Ho ltac:(lia) HM) as (p' & Hp' & HI1 & He1).
  rewrite Hp in Hp'. injection Hp' as <-. set (s1 := st_pte p (PX 0 va) (cow_pte pte) s) in *.
  pose proof (PX_range 0 va ltac:(lia)) as Hk.
  destruct (leaf_slot _ _ _ _ _ old va p HI Ho ltac:(lia) Hp) as [Hpp Hld].
  pose proof (page_bounds p Hpp) as Hpb. rewrite KERNBASE_val in Hpb.
  destruct (Z.ltb_spec va sz); [|lia].
  rewrite (bind_Ret _ _ _ _ _ _ _ (walk_noalloc HI old va e ltac:(lia) Ho)). unfold slot_of. rewrite Hp. krun.
  destruct (Z.eqb_spec (p + 8 * PX 0 va) 0); [lia|].
  erewrite bind_Ret by (apply ld64_run, ent_in_ram; done). rewrite Hld. fold pte. krun.
  destruct (Z.eqb_spec (Z.land pte PTE_V) 0) as [Ez|_]; [by apply good_pte_V in Hg|].
  erewrite bind_Ret by (apply st64_run, ent_in_ram; done). fold (cow_pte pte). fold (st_pte p (PX 0 va) (cow_pte pte) s).
  fold s1. assert (PTE2PA pte = pa) as -> by apply (good_pte_pa _ _ Hg).
  destruct Hg as (f & Ef & Hr56 & Hal' & Hf & HV & HR). fold pte in Ef.
  assert (PTE_FLAGS pte = f) as -> by (rewrite Ef; by apply mkpte_flags).
  destruct (cow_flags f Hf) as (A1 & A2 & A3 & _ & _ & _ & _ & _ & _ & A10).
  set (fl := Z.land (Z.lor f PTE_COW) (Z.lnot (Z.lor PTE_W PTE_V))) in *.
  assert (mkpte pa (Z.lor fl PTE_V) = cow_pte pte) as Epte.
  { rewrite (A2 HV), Ef. symmetry. by apply cow_mkpte. }
  assert (M !! leaf new va = None) as HMn by (apply (leaf_unmapped _ _ _ _ _ new va HI Hn); [lia|done]).
  assert (relabel own M (leaf new va) (mkpte pa (Z.lor fl PTE_V)) (addown own pa (-1)) (<[leaf new va := pa]> M)) as Hrl.
  { pose proof (cnt_pos M _ pa HM). split.
    - intros t. rewrite cnt_insert by done. pose proof (Hnn t). unfold addown.
      repeat case_decide; subst; congruence || lia.
    - intros t Ht. rewrite cnt_insert by done. unfold addown. repeat case_decide; congruence || lia.
    - intros x Hx. by apply lookup_insert_ne.
    - rewrite lookup_insert_eq. split; [|done]. apply good_mkpte; auto. }
  assert (pte_at (k_mem s1) new va = 0) as Hz1.
  { rewrite (ev_pte _ _ _ _ _ He1) by (done || lia). rewrite decide_False; [done|].
    intros E. apply leaf_eq in E as [E _]; [done|lia|lia]. }
  pose proof (page_bounds pa Hpa) as (B1 & B2 & B3). rewrite KERNBASE_val, PHYSTOP_val in *. unfold PGSIZE in B2.
  destruct (mappages_page own D M l s1 new va pa fl e (addown own pa (-1)) (<[leaf new va := pa]> M) HI1 Hn)
    as (res & D2 & l2 & s2 & E & (y & Hy & ->) & Hloc & Hres); [lia|done|by left; rewrite Hz1| |done|done|done|].
  { change (2 ^ 55) with 36028797018963968. lia. }
  rewrite (bind_Ret _ _ _ _ _ _ _ E). exists D2, (drop y l), s2. split; [done|]. split; [rewrite length_drop; lia|].
  destruct Hres as [(-> & Hlen & HI2 & He2)|(-> & HI2 & He2)]; cbn [Z.eqb negb].
  - left. split_and!; [done|done|done|]. eapply (evolves_trans _ (λ _ _ o, o)); [exact HI|exact HI2| |exact He1|exact He2]. done.
  - right. assert (evolves (cow_one old new va pte) D s D2 s2) as He.
    { eapply evolves_trans; [exact HI|exact HI2| |exact He1|exact He2]. intros r' va' o Hva'. cbv beta.
      unfold cow_one. destruct (decide (leaf r' va' = leaf new va)) as [E1|E1].
      - rewrite (decide_True (P := _ ∨ _)) by (by right). apply leaf_eq in E1 as [-> E1]; [|lia|lia].
        unfold map_range. rewrite Z.eqb_refl, E1, Z.sub_diag. simpl. by rewrite Z.add_0_r.
      - rewrite map_range_miss by (done || lia). destruct (decide (leaf r' va' = leaf old va)).
        + by rewrite (decide_True (P := _ ∨ _)) by (by left).
        + by rewrite (decide_False (P := _ ∨ _)) by (by intros [?|?]). }
    assert (refs s2 pa = refs s pa) as Er2 by (by apply (ev_refs _ _ _ _ _ He)).
    destruct (refInc_own _ _ _ _ _ pa e HI2 Hpa) as [Ei HI3].
    + lia.
    + lia.
    + intros k Hk'. apply (ev_new _ _ _ _ _ He) in Hk' as [Hk'|Hk']; [by apply (Hnt k)|lia].
    + rewrite Er2 in *. split_and!; [|by rewrite addown_cancel' in HI3|done].
      rewrite (bind_Ret _ _ _ _ _ _ _ Ei). unfold PGSIZE. rewrite MAXVA_val in Hmax.
      change (2 ^ 38) with 274877906944 in Hmax. rewrite (wrapu_id 64) by lia. done.
Qed.

(** ** The whole loop *)

(** Translations after the first [n] pages were shared: [pt] is the old one. *)
Definition cow_range (old new n : Z) (pt : Z → Z → Z) (r va : Z) : Z :=
  if ((r =? old) || (r =? new)) && (va / 4096 <? n) then cow_pte (pt old va) else pt r va.

(** The state after [n] iterations, compared with the one before the loop. *)
Record cowed own D M s old new (n : nat) D' M' l' s' : Prop := Cowed {
  cw_inv : vm_inv own D' M' l' s';
  cw_sub : D ⊆ D';
  cw_newt : ∀ k p, D' !! k = Some p → D !! k = Some p ∨ refs s p = 0;
  cw_roots : ∀ r, D' !! (r, []) = D !! (r, []);
  cw_local : ∀ k, k.1 ≠ new → D' !! k = D !! k;
  cw_only : mem_only s s';
  cw_mem : ∀ x, protected D s x → k_mem s' x = k_mem s x;
  cw_refs : ∀ t, page t → 1 ≤ refs s t → refs s t ≤ refs s' t ≤ refs s t + Z.of_nat n;
  cw_keys : ∀ k, (∀ i, (i < n)%nat → k ≠ leaf new (Z.of_nat i * 4096)) → M' !! k = M !! k;
  cw_own : ∀ i, (i < n)%nat → M' !! leaf new (Z.of_nat i * 4096) = M !! leaf old (Z.of_nat i * 4096);
  cw_pte : ∀ r va, 0 ≤ va < MAXVA → D !! (r, []) = Some r →
    pte_at (k_mem s') r va = cow_range old new (Z.of_nat n) (pte_at (k_mem s)) r va;
}.

Lemma cow_range_zero old new pt r va : 0 ≤ va → cow_range old new 0 pt r va = pt r va.
Proof.
  intros Hva. unfold cow_range. destruct (Z.ltb_spec (va / 4096) 0); [zlia|]. by rewrite andb_false_r.
Qed.

Lemma cowed_init own D M l s old new : vm_inv own D M l s → cowed own D M s old new 0 D M l s.
Proof.
  intros HI. split; try done; try (intros; lia).
  - by left.
  - apply mem_only_refl.
  - intros r va Hva _. rewrite cow_range_zero by lia. done.
Qed.

(** Addresses whose contents must survive stay protected. *)
Lemma cowed_protected own D M s old new n D' M' l' s' x :
  cowed own D M s old new n D' M' l' s' → protected D s x → protected D' s' x.
Proof.
  intros Hc Hx t Ht Hin. destruct (Hx t Ht Hin) as [Hx1 Hx2].
  pose proof (cw_refs _ _ _ _ _ _ _ _ _ _ _ Hc t Ht Hx1). split; [lia|].
  intros k Hk. apply (cw_newt _ _ _ _ _ _ _ _ _ _ _ Hc) in Hk as [Hk|Hk]; [by apply (Hx2 k)|lia].
Qed.

Lemma cow_range_step old new n pt pt' r va :
  old ≠ new → 0 ≤ n → 0 ≤ va < MAXVA → n * 4096 < MAXVA →
  pt' old (n * 4096) = pt old (n * 4096) →
  (leaf old va = leaf old (n * 4096) → pt old va = pt old (n * 4096)) →
  pt' r va = cow_range old new n pt r va →
  cow_one old new (n * 4096) (pt' old (n * 4096)) r va (pt' r va) = cow_range old new (n + 1) pt r va.
Proof.
  intros Hne Hn Hva Hmax Hold Hpg Hpt. unfold cow_one. rewrite Hpt, Hold. unfold cow_range.
  pose proof (leaf_eq r va old (n * 4096) Hva ltac:(lia)) as E1.
  pose proof (leaf_eq r va new (n * 4096) Hva ltac:(lia)) as E2.
  pose proof (leaf_eq old va old (n * 4096) Hva ltac:(lia)) as E3.
  rewrite Z.div_mul in * by lia.
  destruct (Z.eq_dec (va / 4096) n) as [Ev|Ev].
  - destruct (Z.ltb_spec (va / 4096) n), (Z.ltb_spec (va / 4096) (n + 1)); try lia.
    destruct (Z.eqb_spec r old) as [->|]; [|destruct (Z.eqb_spec r new) as [->|]]; cbn [orb andb].
    + rewrite decide_True by tauto. rewrite Hpg; tauto.
    + rewrite decide_True by tauto. rewrite Hpg; tauto.
    + by rewrite decide_False by tauto.
  - rewrite decide_False by tauto.
    destruct (Z.ltb_spec (va / 4096) n), (Z.ltb_spec (va / 4096) (n + 1)); try lia; done.
Qed.

Lemma cow_range_at old new n pt r : 0 ≤ n → cow_range old new n pt r (n * 4096) = pt r (n * 4096).
Proof.
  intros Hn. unfold cow_range. rewrite Z.div_mul by lia.
  destruct (Z.ltb_spec n n); [lia|]. by rewrite andb_false_r.
Qed.

Lemma mem_only_ref s s' p v : mem_only s s' → mem_only s (st_ref p v s').
Proof. done. Qed.

Lemma cowed_step own D M l s old new n D1 M1 l1 s1 pa D2 l2 s2 :
  vm_inv own D M l s → D !! (old, []) = Some old → old ≠ new → Z.of_nat n * 4096 < MAXVA →
  cowed own D M s old new n D1 M1 l1 s1 →
  let va := Z.of_nat n * 4096 in
  M1 !! leaf old va = Some pa → M !! leaf old va = Some pa → page pa → 1 ≤ refs s1 pa →
  (∀ k, k.1 ≠ new → D2 !! k = D1 !! k) →
  evolves (cow_one old new va (pte_at (k_mem s1) old va)) D1 s1 D2 s2 →
  vm_inv own D2 (<[leaf new va := pa]> M1) l2 (st_ref pa (refs s1 pa + 1) s2) →
  cowed own D M s old new (S n) D2 (<[leaf new va := pa]> M1) l2 (st_ref pa (refs s1 pa + 1) s2).
Proof.
  intros HI Ho Hne Hmax Hc va HM1 HM Hpa Hrf Hloc He HI2.
  destruct Hc as [C1 C2 C3 C4 CL C5 C6 C7 C8 C9 C10] eqn:HC. clear HC.
  pose proof He as [E1 E2 E3 E4 E5 E6 E7].
  assert (∀ i, (i < n)%nat → leaf new (Z.of_nat i * 4096) ≠ leaf new va) as Hlf.
  { intros i Hi E. apply leaf_eq in E as [_ E]; unfold va in *; zlia || lia. }
  assert (∀ t, page t → refs (st_ref pa (refs s1 pa + 1) s2) t =
    if decide (t = pa) then refs s1 pa + 1 else refs s2 t) as Hrefs.
  { intros t Ht. case_decide as Hd; [subst; apply refs_st_ref_eq|]. apply refs_st_ref_ne; congruence || done. }
  split.
  - done.
  - by transitivity D1.
  - intros k p Hk. destruct (E2 k p Hk) as [Hk1|Hz]; [by apply C3|].
    destruct (decide (refs s p = 0)) as [|Hnz]; [by right|exfalso].
    pose proof (table_page HI2 k p Hk) as Hp. pose proof (ki_refs _ _ (vi_kmem HI) p Hp).
    pose proof (C7 p Hp). lia.
  - intros r. by rewrite E3.
  - intros k Hk. by rewrite Hloc, CL.
  - apply mem_only_ref. eapply mem_only_trans; [apply (vi_ready HI)|done|done].
  - intros x Hx. transitivity (k_mem s1 x); [|by apply C6]. apply E5.
    by eapply cowed_protected.
  - intros t Ht Hr. pose proof (C7 t Ht Hr). rewrite Hrefs by done. case_decide; [subst; lia|].
    rewrite E6 by (done || lia). lia.
  - intros k Hk. rewrite lookup_insert_ne; [|intros <-; by apply (Hk n ltac:(lia))].
    apply C8. intros i Hi. apply Hk. lia.
  - intros i Hi. destruct (decide (i = n)) as [->|Hin].
    + by rewrite lookup_insert_eq.
    + rewrite lookup_insert_ne; [apply C9; lia|]. intros E. by apply (Hlf i ltac:(lia)).
  - intros r va' Hva' Hr. change (k_mem (st_ref pa (refs s1 pa + 1) s2)) with (k_mem s2).
    rewrite E7 by (done || by rewrite C4). rewrite Nat2Z.inj_succ, <- Z.add_1_r.
    apply cow_range_step; try done; try lia.
    + rewrite C10 by (done || lia). apply cow_range_at. lia.
    + apply pte_at_page.
    + by apply C10.
Qed.

(** When [mappages] fails, the pages mapped so far are unmapped again. *)
Lemma cowed_undo own D M l s old new n D1 M1 l1 s1 D2 l2 s2 e φ :
  nonneg own → vm_inv own D M l s → D !! (new, []) = Some new → Z.of_nat n * 4096 ≤ MAXVA →
  (∀ i, (i < n)%nat → pte_at (k_mem s) new (Z.of_nat i * 4096) = 0) →
  (∀ i, (i < n)%nat → is_Some (M !! leaf old (Z.of_nat i * 4096))) →
  cowed own D M s old new n D1 M1 l1 s1 → evolves φ D1 s1 D2 s2 → vm_inv own D2 M1 l2 s2 →
  ∃ l3 s3, uvmunmap new 0 (Z.of_nat n) true e s2 = Ret () e s3 ∧ vm_inv own D2 M l3 s3 ∧
    D ⊆ D2 ∧ (∀ k p, D2 !! k = Some p → D !! k = Some p ∨ refs s p = 0) ∧ (∀ r, D2 !! (r, []) = D !! (r, [])) ∧
    mem_only s s3 ∧ (∀ x, protected D s x → k_mem s3 x = k_mem s x) ∧
    ∀ r va, 0 ≤ va < MAXVA → D !! (r, []) = Some r →
      pte_at (k_mem s3) r va =
        unmap_range new 0 (Z.of_nat n) r va (φ r va (cow_range old new (Z.of_nat n) (pte_at (k_mem s)) r va)).
Proof.
  intros Hnn HI Hn Hmax Hz HMo Hc He HI2.
  destruct Hc as [C1 C2 C3 C4 CL C5 C6 C7 C8 C9 C10] eqn:HC. clear HC.
  pose proof He as [E1 E2 E3 E4 E5 E6 E7].
  destruct (uvmunmap_run new 0 (Z.of_nat n) e own D2 M1 l2 s2 Hnn HI2) as (l3 & s3 & E & HI3 & [S1 S2 S3 S4] & _);
    try done; try lia.
  { by rewrite E3, C4. }
  { rewrite Nat2Z.id. intros i Hi. rewrite Z.add_0_l, C9 by done. by apply HMo. }
  rewrite Nat2Z.id in HI3.
  assert (unmap_keys new 0 n M1 = M) as HM.
  { apply map_eq. intros k.
    destruct (decide (k ∈ (λ i : nat, leaf new (Z.of_nat i * 4096)) <$> seq 0 n)) as [Hk|Hk].
    - apply list_elem_of_fmap in Hk as (i & -> & Hi%elem_of_seq).
      rewrite <- (Z.add_0_l (Z.of_nat i * 4096)), unmap_keys_in by lia.
      symmetry. apply (leaf_unmapped _ _ _ _ _ new _ HI Hn); [lia|]. apply Hz. lia.
    - assert (∀ i, (i < n)%nat → k ≠ leaf new (Z.of_nat i * 4096)) as Hk'.
      { intros i Hi ->. apply Hk. apply list_elem_of_fmap. exists i. split; [done|]. apply elem_of_seq. lia. }
      rewrite unmap_keys_other, C8; [done|done|]. intros i Hi. rewrite Z.add_0_l. by apply Hk'. }
  rewrite HM in HI3.
  assert (∀ k p, D2 !! k = Some p → D !! k = Some p ∨ refs s p = 0) as Hnew.
  { intros k p Hk. destruct (E2 k p Hk) as [Hk1|Hz2]; [by apply C3|].
    destruct (decide (refs s p = 0)) as [|Hnz]; [by right|exfalso].
    pose proof (table_page HI2 k p Hk) as Hp. pose proof (ki_refs _ _ (vi_kmem HI) p Hp).
    pose proof (C7 p Hp). lia. }
  assert (∀ t, page t → 1 ≤ refs s t → refs s3 t = refs s t) as Hrefs.
  { intros t. apply (same_refs _ _ _ _ _ _ _ _ t HI HI3); [by transitivity D1|done]. }
  exists l3, s3. split_and!; [done|done|by transitivity D1|done|intros r; by rewrite E3, C4| | |].
  - repeat (eapply mem_only_trans; [by apply (vi_ready HI) || by apply (vi_ready C1)|done|]). done.
  - intros x Hx. rewrite S3.
    + rewrite E5; [by apply C6|]. by eapply cowed_protected.
    + intros t Ht Hin. destruct (Hx t Ht Hin) as [Hx1 Hx2]. split; [by rewrite Hrefs|].
      intros k Hk. destruct (Hnew k t Hk); [by apply (Hx2 k)|lia].
  - intros r va Hva Hr. rewrite S4, E7, C10; try done; by rewrite ?E3, C4.
Qed.

(** The state after a failed copy: the child has nothing but tables, the parent
    keeps its pages, some of them marked copy-on-write. *)
Definition cow_failed own D M s old new s' : Prop :=
  (∃ D' l', vm_inv own D' M l' s' ∧ D ⊆ D' ∧ (∀ k p, D' !! k = Some p → D !! k = Some p ∨ refs s p = 0) ∧
     (∀ r, D' !! (r, []) = D !! (r, [])) ∧ ∀ k, k.1 ≠ new → D' !! k = D !! k) ∧
  (∀ r va, 0 ≤ va < MAXVA → D !! (r, []) = Some r → r ≠ old →
     pte_at (k_mem s') r va = pte_at (k_mem s) r va) ∧
  (∀ va, 0 ≤ va < MAXVA →
     pte_at (k_mem s') old va = pte_at (k_mem s) old va ∨
     pte_at (k_mem s') old va = cow_pte (pte_at (k_mem s) old va)).

Section Loop.
Context {own D M l s old new sz e} (n := Z.to_nat ((sz + 4095) / 4096))
  (Hnn : nonneg own) (HI : vm_inv own D M l s)
  (Ho : D !! (old, []) = Some old) (Hn : D !! (new, []) = Some new) (Hne : old ≠ new)
  (Hsz : 0 ≤ sz ≤ MAXVA)
  (HMo : ∀ i, (i < n)%nat → is_Some (M !! leaf old (Z.of_nat i * 4096)))
  (Hz : ∀ i, (i < n)%nat → pte_at (k_mem s) new (Z.of_nat i * 4096) = 0)
  (Hlim : ∀ t, page t → refs s t + Z.of_nat n < 2 ^ 31 - 1).

Lemma cow_n : Z.of_nat n = (sz + 4095) / 4096.
Proof. unfold n. rewrite Z2Nat.id; zlia. Qed.

Lemma uvmcopy_iter i D1 M1 l1 s1 :
  (i < n)%nat → cowed own D M s old new i D1 M1 l1 s1 →
  (∃ s2, uvmcopy_step old new sz (Z.of_nat i * 4096) e s1 = Ret (inr (-1)) e s2 ∧
     mem_only s s2 ∧ (∀ x, protected D s x → k_mem s2 x = k_mem s x) ∧ (length l1 < 2)%nat ∧ cow_failed own D M s old new s2) ∨
  (∃ D2 M2 l2 s2, uvmcopy_step old new sz (Z.of_nat i * 4096) e s1 = Ret (inl (Z.of_nat i * 4096 + 4096)) e s2 ∧
     (length l1 ≤ length l2 + 2)%nat ∧ cowed own D M s old new (S i) D2 M2 l2 s2).
Proof.
  intros Hi Hc. pose proof cow_n as En. pose proof Hsz as Hsz'.
  rewrite MAXVA_val in Hsz'. change (2 ^ 38) with 274877906944 in Hsz'.
  set (va := Z.of_nat i * 4096). assert (0 ≤ va < sz) as Hva by (unfold va; zlia).
  assert (va < MAXVA) as Hvm by (rewrite MAXVA_val; change (2 ^ 38) with 274877906944; lia).
  pose proof Hc as [C1 C2 C3 C4 CL C5 C6 C7 C8 C9 C10].
  destruct (HMo i Hi) as [pa HM]. fold va in HM.
  destruct (leaf_owned _ _ _ _ _ old va pa HI Ho ltac:(lia) HM) as (_ & _ & _ & Hpa & Hrf & _).
  assert (M1 !! leaf old va = Some pa) as HM1.
  { rewrite C8; [done|]. intros j Hj E. by injection E. }
  pose proof (C7 pa Hpa Hrf) as Hr1. pose proof (Hlim pa Hpa).
  destruct (uvmcopy_one own D1 M1 l1 s1 old new va pa sz e Hnn C1) as (D2 & l2 & s2 & Hloc & Hll & Hres); try done.
  { by rewrite C4. }
  { by rewrite C4. }
  { rewrite MAXVA_val. change (2 ^ 38) with 274877906944. lia. }
  { unfold va. zlia. }
  { rewrite C10 by (done || lia). unfold va. rewrite cow_range_at by lia. by apply Hz. }
  { lia. }
  destruct Hres as [(E & Hlt & HI2 & He)|(E & HI2 & He)].
  - left. destruct (cowed_undo own D M l s old new i D1 M1 l1 s1 D2 l2 s2 e
      (λ r va' o, if decide (leaf r va' = leaf old va) then cow_pte (pte_at (k_mem s1) old va) else o) Hnn HI Hn) as
      (l3 & s3 & E3 & HI3 & Hsub & Hnew & Hroot & Hmo & Hmem & Hpte); [fold va; lia|intros; apply Hz; lia|intros; apply HMo; lia|done..|].
    exists s3. assert (va / PGSIZE = Z.of_nat i) as Ev by (unfold va, PGSIZE; zlia).
    rewrite <- Ev in E3. split_and!; [rewrite E; by run E3|done|done|done|]. split_and!.
    + exists D2, l3. split_and!; [done..|]. intros k Hk. by rewrite Hloc, CL.
    + intros r va' Hva' Hr Hro. rewrite Hpte by done. unfold unmap_range, cow_range.
      rewrite decide_False by (intros E'; injection E'; done).
      destruct (Z.eqb_spec r old); [done|]. destruct (Z.eqb_spec r new) as [->|]; [|done].
      cbn [orb andb]. change (0 / 4096) with 0. rewrite Z.sub_0_r.
      destruct (Z.leb_spec 0 (va' / 4096)); [|zlia].
      destruct (Z.ltb_spec (va' / 4096) (Z.of_nat i)); [|done]. cbn [andb]. symmetry.
      rewrite (pte_at_page _ new va' (Z.of_nat (Z.to_nat (va' / 4096)) * 4096)); [apply Hz; lia|].
      apply leaf_eq; rewrite ?Z2Nat.id by lia; [lia|zlia|]. split; [done|zlia].
    + intros va' Hva'. rewrite Hpte by done. unfold unmap_range, cow_range.
      destruct (Z.eqb_spec old new); [done|]. rewrite Z.eqb_refl. cbn [orb andb].
      case_decide as Hd.
      * right. f_equal. apply leaf_eq in Hd as [_ Hd]; [|done|lia]. rewrite C10 by (done || lia).
        unfold va. rewrite cow_range_at by lia. apply pte_at_page. apply leaf_eq; [lia|done|]. split; [done|by symmetry].
      * destruct (va' / 4096 <? Z.of_nat i); [by right|by left].
  - right. exists D2, (<[leaf new va := pa]> M1), l2, (st_ref pa (refs s1 pa + 1) s2). split; [done|]. split; [done|].
    eapply cowed_step; try done. lia.
Qed.

Lemma uvmcopy_loop m : ∀ i D1 M1 l1 s1,
  (i + m = n)%nat → cowed own D M s old new i D1 M1 l1 s1 →
  ∃ res c s', runs (uvmcopy_step old new sz) (Z.of_nat i * 4096) e s1 c res e s' ∧ c ≤ Z.of_nat m + 1 ∧
    (res = 0 ∧ (∃ D' M' l', cowed own D M s old new n D' M' l' s') ∨
     res = -1 ∧ (length l1 < 2 * m)%nat ∧ mem_only s s' ∧ (∀ x, protected D s x → k_mem s' x = k_mem s x) ∧ cow_failed own D M s old new s').
Proof.
  pose proof cow_n as En. induction m as [|m IH]; intros i D1 M1 l1 s1 Him Hc.
  - exists 0, 1, s1. assert (i = n) as -> by lia. split_and!; [|lia|left; eauto].
    apply runs_done. destruct (Z.ltb_spec (Z.of_nat n * 4096) sz); [zlia|done].
  - destruct (uvmcopy_iter i D1 M1 l1 s1 ltac:(lia) Hc) as [(s2 & E & H1 & H2 & Hlt & H')|(D2 & M2 & l2 & s2 & E & Hll & Hc2)].
    + exists (-1), 1, s2. split_and!; [by apply runs_done|lia|right; split_and!; [done|lia|done..]].
    + destruct (IH (S i) D2 M2 l2 s2 ltac:(lia) Hc2) as (res & c & s' & Hruns & Hcc & Hres).
      exists res, (c + 1), s'. split_and!; [|lia|].
      2: { destruct Hres as [?|(? & ? & ?)]; [by left|right; split; [done|split; [lia|done]]]. }
      eapply runs_step; [exact E|].
      by replace (Z.of_nat i * 4096 + 4096) with (Z.of_nat (S i) * 4096) by lia.
Qed.
End Loop.

Lemma uvmcopy_run own D M l s old new sz e :
  let n := Z.to_nat ((sz + 4095) / 4096) in
  nonneg own → vm_inv own D M l s →
  D !! (old, []) = Some old → D !! (new, []) = Some new → old ≠ new → 0 ≤ sz ≤ MAXVA →
  (∀ i, (i < n)%nat → is_Some (M !! leaf old (Z.of_nat i * 4096))) →
  (∀ i, (i < n)%nat → pte_at (k_mem s) new (Z.of_nat i * 4096) = 0) →
  (∀ t, page t → refs s t + Z.of_nat n < 2 ^ 31 - 1) →
  ∃ res s', uvmcopy old new sz e s = Ret res e s' ∧ mem_only s s' ∧
    (∀ x, protected D s x → k_mem s' x = k_mem s x) ∧
    (res = 0 ∧ (∃ D' M' l', cowed own D M s old new n D' M' l' s') ∨
     res = -1 ∧ (length l < 2 * n)%nat ∧ cow_failed own D M s old new s').
Proof.
  intros n Hnn HI Ho Hn Hne Hsz HMo Hz Hlim.
  destruct (uvmcopy_loop (e := e) Hnn HI Ho Hn Hne Hsz HMo Hz Hlim n 0 D M l s) as (res & c & s' & Hruns & Hc & Hres).
  - lia.
  - by apply cowed_init.
  - exists res, s'. split.
    + unfold uvmcopy. rewrite Z.mul_0_l in Hruns. eapply while_runs; [exact Hruns|].
      rewrite MAXVA_val in Hsz. change (2 ^ 38) with 274877906944 in Hsz. unfold n in *. rewrite Z2Nat.id in Hc by zlia. zlia.
    + destruct Hres as [[-> (D' & M' & l' & HC)]|(-> & Hlen & Hmo & Hmem & Hf)].
      * pose proof HC as [C1 C2 C3 C4 CL C5 C6 C7 C8 C9 C10]. split_and!; [done|done|]. left. eauto 6.
      * split_and!; [done|done|by right].
Qed.

(** C2: copy-on-write fork.  [uvmcopy] of an address space of [sz] bytes
    returns.  If it returns 0, child and parent map the same physical pages
    with the same flags, no longer writable and marked copy-on-write; every
    shared page gained exactly one reference per new mapping; all other
    translations are unchanged.  If it returns -1, there were fewer than two
    free pages per page of the parent, the child has no mapping and no reference
    left, and the parent still maps each of its pages.  Either
    way no data page has changed. *)
Theorem uvmcopy_correct own D M l s old new sz e :
  let n := Z.to_nat ((sz + 4095) / 4096) in
  nonneg own → vm_inv own D M l s →
  D !! (old, []) = Some old → D !! (new, []) = Some new → old ≠ new → 0 ≤ sz ≤ MAXVA →
  (∀ i, (i < n)%nat → is_Some (M !! leaf old (Z.of_nat i * 4096))) →
  (∀ i, (i < n)%nat → pte_at (k_mem s) new (Z.of_nat i * 4096) = 0) →
  (∀ t, page t → refs s t + Z.of_nat n < 2 ^ 31 - 1) →
  wp (uvmcopy old new sz) (λ res e' s', e' = e ∧ mem_only s s' ∧
    (∀ x, protected D s x → k_mem s' x = k_mem s x) ∧
    (res = 0 ∧ (∃ D' M' l', cowed own D M s old new n D' M' l' s') ∨
     res = -1 ∧ (length l < 2 * n)%nat ∧ cow_failed own D M s old new s')) e s.
Proof.
  intros n Hnn HI Ho Hn Hne Hsz HMo Hz Hlim.
  destruct (uvmcopy_run own D M l s old new sz e Hnn HI Ho Hn Hne Hsz HMo Hz Hlim) as (res & s' & E & Hr).
  by eapply wp_Ret.
Qed.
End Cow.

(** ** Examples *)

Section Witness.
#[local] Existing Instance small_image.
#[local] Existing Instance small_image_ok.

Lemma ex_lim t : page t → refs ex_vm t + Z.of_nat (Z.to_nat ((4096 + 4095) / 4096)) < 2 ^ 31 - 1.
Proof.
  intros (i & Hi & ->)%ex_pages. rewrite ex_refs by done.
  change (Z.of_nat (Z.to_nat ((4096 + 4095) / 4096))) with 1. destruct (ex_free i); lia.
Qed.

Lemma uvmcopy_correct_witness :
  wp (uvmcopy (ex_pg 0) (ex_pg 3) 4096) (λ res e' s', e' = [] ∧ mem_only ex_vm s' ∧
    (∀ x, protected ex_D ex_vm x → k_mem s' x = k_mem ex_vm x) ∧
    (res = 0 ∧ (∃ D' M' l', cowed ex_own ex_D ex_M ex_vm (ex_pg 0) (ex_pg 3)
       (Z.to_nat ((4096 + 4095) / 4096)) D' M' l' s') ∨
     res = -1 ∧ (length [ex_pg 5; ex_pg 6; ex_pg 7] < 2 * Z.to_nat ((4096 + 4095) / 4096))%nat ∧ cow_failed ex_own ex_D ex_M ex_vm (ex_pg 0) (ex_pg 3) s')) [] ex_vm.
Proof.
  apply (uvmcopy_correct ex_own ex_D ex_M [ex_pg 5; ex_pg 6; ex_pg 7] ex_vm (ex_pg 0) (ex_pg 3) 4096 []
    ex_nonneg ex_vm_inv); [by vm_compute..| | |exact ex_lim].
  all: intros i Hi; assert (i = 0%nat) as -> by (vm_compute in Hi; lia).
  - by exists (ex_pg 4).
  - by vm_compute.
Defined.

(** On the example the copy succeeds and both tables map page 4. *)
Example uvmcopy_shares :
  match uvmcopy (ex_pg 0) (ex_pg 3) 4096 [] ex_vm with
  | Ret 0 _ s => pte_at (k_mem s) (ex_pg 3) 0 = pte_at (k_mem s) (ex_pg 0) 0 ∧
                 PTE2PA (pte_at (k_mem s) (ex_pg 0) 0) = ex_pg 4 ∧ refs s (ex_pg 4) = 2
  | _ => False
  end.
Proof. vm_compute. done. Qed.
End Witness.
