(* ===== verification/VmCopy.v ===== *)
(** * VmCopy: copying between kernel and user memory
    (walkaddr, copyin, copyout of kernel/vm.c)

    User memory as a process sees it through its page table is [uread].
    [copyin] returns the bytes of user memory, [copyout] replaces them; a
    [copyout] to a copy-on-write page gives the process its own copy first, so
    that no other process sees the write. *)

From S2P Require Import Prelude Params CString State Spinlock PhysMem Kalloc Vm VmInv VmMap VmLocal VmGrow VmCow.

(** The byte at user address [va]. *)
Definition uread (m : memory) (r va : Z) : Z := m (PTE2PA (pte_at m r va) + va mod 4096).

Section Copy.
Context `{!Image} `{!ImageOK}.
Implicit Types (own : Z → Z) (D M : gmap node Z) (l : list Z) (s : kstate) (e : env).

Lemma store_bytes_spec bs : ∀ m a x,
  store_bytes m a bs x =
    if (a <=? x) && (x <? a + Z.of_nat (length bs)) then nth (Z.to_nat (x - a)) bs 0 else m x.
Proof.
  induction bs as [|b bs IH]; intros m a x; cbn [store_bytes length].
  - destruct (Z.leb_spec a x), (Z.ltb_spec x (a + Z.of_nat 0)); simpl; lia || done.
  - rewrite IH, Nat2Z.inj_succ. destruct (Z.eq_dec x a) as [->|Hne].
    + destruct (Z.leb_spec (a + 1) a); [lia|]. cbn [andb]. rewrite mupd_eq, Z.sub_diag.
      by destruct (Z.leb_spec a a), (Z.ltb_spec a (a + Z.succ (Z.of_nat (length bs)))); try lia.
    + rewrite mupd_ne by done.
      destruct (Z.leb_spec (a + 1) x), (Z.ltb_spec x (a + 1 + Z.of_nat (length bs))), (Z.leb_spec a x),
        (Z.ltb_spec x (a + Z.succ (Z.of_nat (length bs)))); cbn [andb]; try lia; try done.
      by replace (Z.to_nat (x - a)) with (S (Z.to_nat (x - (a + 1)))) by lia.
Qed.

(** A page of user memory that the process may use. *)
Definition user_page M s r va : Prop :=
  ∃ pa, M !! leaf r va = Some pa ∧ Z.land (pte_at (k_mem s) r va) PTE_U ≠ 0.

(** ** walkaddr *)

Lemma walkaddr_user own D M l s r va pa e :
  vm_inv own D M l s → D !! (r, []) = Some r → 0 ≤ va < MAXVA → M !! leaf r va = Some pa →
  Z.land (pte_at (k_mem s) r va) PTE_U ≠ 0 → walkaddr r va e s = Ret pa e s.
Proof.
  intros HI Hr Hva HM HU. destruct (leaf_owned _ _ _ _ _ r va pa HI Hr ltac:(lia) HM)
    as (p & Hp & Hg & Hpa & _).
  pose proof (PX_range 0 va ltac:(lia)) as Hk.
  destruct (leaf_slot _ _ _ _ _ r va p HI Hr ltac:(lia) Hp) as [Hpp Hld].
  pose proof (page_bounds p Hpp) as Hpb. rewrite KERNBASE_val in Hpb.
  unfold walkaddr. destruct (Z.leb_spec MAXVA va); [lia|].
  rewrite (bind_Ret _ _ _ _ _ _ _ (walk_follow HI r va p false e Hva Hr Hp)).
  destruct (Z.eqb_spec (p + 8 * PX 0 va) 0); [lia|].
  erewrite bind_Ret by (apply ld64_run, ent_in_ram; done). rewrite Hld.
  destruct (Z.eqb_spec (Z.land (pte_at (k_mem s) r va) PTE_V) 0) as [Ez|_]; [by apply good_pte_V in Hg|].
  destruct (Z.eqb_spec (Z.land (pte_at (k_mem s) r va) PTE_U) 0) as [Ez|_]; [done|].
  by rewrite (good_pte_pa _ _ Hg).
Qed.

(** [walkaddr] never gives the kernel a page the user may not access:
    whatever the address, it changes nothing, and it returns 0 unless the
    address is mapped, valid and user-accessible, in which case it returns the
    physical page, which is a page in use and not a page table. *)
Theorem walkaddr_correct own D M l s r va e :
  vm_inv own D M l s → D !! (r, []) = Some r → 0 ≤ va →
  wp (walkaddr r va) (λ pa e' s', e' = e ∧ s' = s ∧
    if decide (va < MAXVA ∧ Z.land (pte_at (k_mem s) r va) PTE_V ≠ 0 ∧
               Z.land (pte_at (k_mem s) r va) PTE_U ≠ 0)
    then M !! leaf r va = Some pa ∧ PTE2PA (pte_at (k_mem s) r va) = pa ∧ page pa ∧ 1 ≤ refs s pa ∧
         ∀ k, D !! k ≠ Some pa
    else pa = 0) e s.
Proof.
  intros HI Hr Hva. unfold walkaddr. destruct (Z.leb_spec MAXVA va).
  { eapply wp_Ret; [done|]. rewrite decide_False by lia. done. }
  apply wp_bind. eapply wp_Ret; [by apply (walk_noalloc HI r va e)|]. unfold slot_of.
  pose proof (pte_at_D HI r va ltac:(lia) Hr) as Ep.
  destruct (D !! (r, [PX 2 va; PX 1 va])) as [p|] eqn:Hp.
  - pose proof (PX_range 0 va ltac:(lia)) as Hk. pose proof (table_page HI _ _ Hp) as Hpp.
    pose proof (page_bounds p Hpp) as Hpb. rewrite KERNBASE_val in Hpb.
    destruct (Z.eqb_spec (p + 8 * PX 0 va) 0); [lia|].
    apply wp_bind. eapply wp_Ret; [apply ld64_run, ent_in_ram; done|].
    change (le_load (k_mem s) (p + 8 * PX 0 va) 8) with (ent (k_mem s) p (PX 0 va)). rewrite <- Ep.
    destruct (Z.eqb_spec (Z.land (pte_at (k_mem s) r va) PTE_V) 0) as [E1|E1];
      [eapply wp_Ret; [done|]; by rewrite decide_False by tauto|].
    destruct (Z.eqb_spec (Z.land (pte_at (k_mem s) r va) PTE_U) 0) as [E2|E2];
      [eapply wp_Ret; [done|]; by rewrite decide_False by tauto|].
    eapply wp_Ret; [done|]. rewrite decide_True by done. do 2 (split; [done|]).
    pose proof (po_leaf (vi_pt HI) r _ _ _ p Hp Hk) as Hlf. fold (leaf r va) in Hlf.
    destruct (M !! leaf r va) as [pa|] eqn:HM.
    + destruct (leaf_owned _ _ _ _ _ r va pa HI Hr ltac:(lia) HM) as (_ & _ & Hg & Hpa & Hrf & Hnt).
      rewrite (good_pte_pa _ _ Hg). done.
    + rewrite <- Ep in Hlf. destruct Hlf as [E|(pa & _ & E)]; [by rewrite E in E1|done].
  - eapply wp_Ret; [done|]. rewrite Ep. rewrite decide_False by (intros (_ & E & _); done). done.
Qed.

(** ** copyin *)

Abbreviation copyin_step pagetable := (λ '(srcva, len, dst),
    if 0 <? len then
      let va0 := PGROUNDDOWN srcva in
      pa0 ← walkaddr pagetable va0;
      if pa0 =? 0 then mret (inr (-1, dst))
      else
        let n := Z.min (PGSIZE - (srcva - va0)) len in
        bs ← get_bytes (pa0 + (srcva - va0)) n;
        mret (inl (va0 + PGSIZE, len - n, dst ++ bs))
    else mret (inr (0, dst))).

(** The bytes of user memory from [va] on. *)
Definition ubytes (m : memory) (r va n : Z) : list Z := uread m r <$> seqZ va n.

Lemma ubytes_app m r va n k : 0 ≤ n → 0 ≤ k → ubytes m r va (n + k) = ubytes m r va n ++ ubytes m r (va + n) k.
Proof. intros Hn Hk. unfold ubytes. rewrite seqZ_app by done. apply fmap_app. Qed.

(** Within one page, user bytes are the bytes of the physical page. *)
Lemma uread_page own D M l s r va0 pa x :
  vm_inv own D M l s → D !! (r, []) = Some r → 0 ≤ va0 < MAXVA → va0 mod 4096 = 0 →
  M !! leaf r va0 = Some pa → va0 ≤ x < va0 + 4096 →
  leaf r x = leaf r va0 ∧ uread (k_mem s) r x = k_mem s (pa + (x - va0)).
Proof.
  intros HI Hr Hva Hal HM Hx. rewrite MAXVA_val in *. change (2 ^ 38) with 274877906944 in *.
  assert (leaf r x = leaf r va0) as E.
  { apply leaf_eq; rewrite ?MAXVA_val; change (2 ^ 38) with 274877906944; [zlia|lia|]. split; [done|zlia]. }
  split; [done|]. unfold uread. rewrite (pte_at_page _ r x va0 E).
  destruct (leaf_owned _ _ _ _ _ r va0 pa HI Hr ltac:(lia) HM) as (_ & _ & Hg & _).
  rewrite (good_pte_pa _ _ Hg). f_equal. zlia.
Qed.

Lemma page_chunk own D M l s r va n pa :
  let va0 := PGROUNDDOWN va in
  vm_inv own D M l s → D !! (r, []) = Some r → 0 ≤ va < MAXVA → M !! leaf r va0 = Some pa →
  0 ≤ n ≤ PGSIZE - (va - va0) →
  load_bytes (k_mem s) (pa + (va - va0)) (Z.to_nat n) = ubytes (k_mem s) r va n.
Proof.
  intros va0 HI Hr Hva HM Hn. assert (va0 = va / 4096 * 4096) as E0 by apply PGROUNDDOWN_spec.
  unfold load_bytes, ubytes, PGSIZE in *. unfold seqZ. rewrite <- list_fmap_compose.
  apply list_fmap_ext. intros i j Hj. apply lookup_seq in Hj as [-> Hlt]. unfold compose.
  destruct (uread_page _ _ _ _ _ r va0 pa (va + Z.of_nat i) HI Hr) as [_ E]; [zlia|zlia|done|zlia|].
  rewrite Nat.add_0_l. replace (Z.of_nat i + va) with (va + Z.of_nat i) by lia. rewrite E. f_equal. lia.
Qed.

Lemma user_chunk own D M l s r va e :
  vm_inv own D M l s → D !! (r, []) = Some r → 0 ≤ va < MAXVA → user_page M s r va →
  let va0 := PGROUNDDOWN va in
  va0 = va / 4096 * 4096 ∧ ∃ pa, M !! leaf r va0 = Some pa ∧ walkaddr r va0 e s = Ret pa e s ∧ page pa.
Proof.
  intros HI Hr Hva (pa & HM & HU) va0. assert (va0 = va / 4096 * 4096) as E0 by apply PGROUNDDOWN_spec.
  split; [done|]. exists pa.
  assert (leaf r va = leaf r va0) as El by (apply leaf_eq; [lia|zlia|]; split; [done|zlia]).
  rewrite (pte_at_page _ _ _ _ El) in HU. rewrite El in HM.
  destruct (leaf_owned _ _ _ _ _ r va0 pa HI Hr ltac:(zlia) HM) as (_ & _ & _ & Hpa & _).
  split_and!; [done| |done]. eapply walkaddr_user; try done. zlia.
Qed.

Lemma copyin_loop own D M l s r e (k : nat) : ∀ va len dst,
  len ≤ Z.of_nat k →
  vm_inv own D M l s → D !! (r, []) = Some r → 0 ≤ va → 0 ≤ len → va + len ≤ MAXVA →
  (∀ x, va ≤ x < va + len → user_page M s r x) →
  ∃ c, runs (copyin_step r) (va, len, dst) e s c (0, dst ++ ubytes (k_mem s) r va len) e s ∧ c ≤ len + 1.
Proof.
  induction k as [|k IH]; intros va len dst Hk HI Hr Hva Hlen Hmax Hu.
  all: destruct (decide (len = 0)) as [->|Hnz];
    [exists 1; split; [apply runs_done; cbn; by rewrite app_nil_r|lia]|].
  { lia. }
  destruct (user_chunk _ _ _ _ _ r va e HI Hr ltac:(lia) (Hu va ltac:(lia))) as (E0 & pa & HM & Hw & Hpa).
  set (va0 := PGROUNDDOWN va) in *. set (n := Z.min (PGSIZE - (va - va0)) len).
  pose proof (page_bounds pa Hpa) as (B1 & B2 & B3). rewrite KERNBASE_val in *.
  assert (1 ≤ n ≤ len ∧ n ≤ PGSIZE - (va - va0)) as Hn by (unfold n, PGSIZE in *; zlia).
  assert (len - n = 0 ∨ va + n = va0 + PGSIZE) as Hend by (unfold n, PGSIZE in *; lia).
  assert (copyin_step r (va, len, dst) e s =
    Ret (inl (va0 + PGSIZE, len - n, dst ++ ubytes (k_mem s) r va n)) e s) as Hstep.
  { cbv beta iota. destruct (Z.ltb_spec 0 len); [|lia]. fold va0. fold n.
    rewrite (bind_Ret _ _ _ _ _ _ _ Hw). destruct (Z.eqb_spec pa 0); [lia|].
    unfold get_bytes. krun. fold n. replace (in_ram (pa + (va - va0)) n) with true.
    - pose proof (page_chunk own D M l s r va n pa HI Hr ltac:(lia) HM ltac:(fold va0; lia)) as Hch.
      fold va0 in Hch. by rewrite orb_true_r, Hch.
    - symmetry. apply in_ram_spec. rewrite KERNBASE_val. unfold PGSIZE in *. zlia. }
  destruct (IH (va0 + PGSIZE) (len - n) (dst ++ ubytes (k_mem s) r va n)) as (c & Hc & Hcl); try done.
  - lia.
  - unfold PGSIZE. zlia.
  - lia.
  - rewrite MAXVA_val in *. change (2 ^ 38) with 274877906944 in *. unfold PGSIZE in *. zlia.
  - intros x Hx. apply Hu. lia.
  - exists (c + 1). split; [|lia]. eapply runs_step; [exact Hstep|].
    replace len with (n + (len - n)) at 2 by lia. rewrite ubytes_app by lia.
    assert (ubytes (k_mem s) r (va + n) (len - n) = ubytes (k_mem s) r (va0 + PGSIZE) (len - n)) as ->.
    { destruct Hend as [->| ->]; done. }
    by rewrite app_assoc.
Qed.

(** [copyin] of a range of user-accessible memory returns 0 and exactly the
    bytes the process sees there, and changes nothing. *)
Theorem copyin_correct own D M l s r va len e :
  vm_inv own D M l s → D !! (r, []) = Some r → 0 ≤ va → 0 ≤ len → va + len ≤ MAXVA →
  (∀ x, va ≤ x < va + len → user_page M s r x) →
  copyin r va len e s = Ret (0, ubytes (k_mem s) r va len) e s.
Proof.
  intros HI Hr Hva Hlen Hmax Hu.
  destruct (copyin_loop own D M l s r e (Z.to_nat len) va len []) as (c & Hc & Hcl); try done; [lia|].
  unfold copyin. eapply while_runs; [exact Hc|].
  rewrite MAXVA_val in Hmax. change (2 ^ 38) with 274877906944 in Hmax. lia.
Qed.

(** ** Breaking copy-on-write *)

(** [mappages] over an existing copy-on-write entry replaces the entry. *)
Lemma mappages_remap own D M l s r va pa perm p e :
  vm_inv own D M l s → D !! (r, []) = Some r → 0 ≤ va < MAXVA → va mod 4096 = 0 →
  D !! (r, [PX 2 va; PX 1 va]) = Some p → mappable (pte_at (k_mem s) r va) →
  mappages r va PGSIZE pa perm e s = Ret 0 e (st_pte p (PX 0 va) (mkpte pa (Z.lor perm PTE_V)) s).
Proof.
  intros HI Hr Hva Hal Hp Hmap. destruct (leaf_slot _ _ _ _ _ r va p HI Hr ltac:(lia) Hp) as [Hpp Hld].
  pose proof (PX_range 0 va ltac:(lia)) as Hk. pose proof (page_bounds p Hpp) as Hpb. rewrite KERNBASE_val in Hpb.
  assert (PGROUNDDOWN (u64 (va + PGSIZE - 1)) = va) as Elast.
  { rewrite MAXVA_val in Hva. change (2 ^ 38) with 274877906944 in Hva. unfold PGSIZE.
    rewrite (wrapu_id 64), PGROUNDDOWN_spec by lia. zlia. }
  unfold mappages. krun. change (PGSIZE =? 0) with false. cbv iota. rewrite Elast, PGROUNDDOWN_aligned by done.
  eapply (while_runs _ _ _ _ 1); [|done]. apply runs_done. cbv beta iota.
  rewrite (bind_Ret _ _ _ _ _ _ _ (walk_follow HI r va p true e Hva Hr Hp)).
  destruct (Z.eqb_spec (p + 8 * PX 0 va) 0); [lia|].
  erewrite bind_Ret by (apply ld64_run, ent_in_ram; done). rewrite Hld. krun.
  assert (ctrue (Z.land (pte_at (k_mem s) r va) PTE_V) &&
    negb (ctrue (Z.land (pte_at (k_mem s) r va) PTE_COW)) = false) as ->.
  { destruct Hmap as [->|Hm]; [done|]. unfold ctrue at 2.
    destruct (Z.eqb_spec (Z.land (pte_at (k_mem s) r va) PTE_COW) 0); [done|]. apply andb_false_r. }
  erewrite bind_Ret by (apply st64_run, ent_in_ram; done). rewrite Z.eqb_refl, <- Z.lor_assoc. done.
Qed.

(** The flags of a private copy. *)
Definition rwxu : Z := Z.lor (Z.lor (Z.lor PTE_R PTE_W) PTE_X) PTE_U.

Lemma memmove_out m q src x : x < q ∨ q + PGSIZE ≤ x → memmove m q src PGSIZE x = m x.
Proof.
  intros Hx. rewrite memmove_spec by (unfold PGSIZE; lia). unfold PGSIZE in *.
  destruct (Z.leb_spec q x), (Z.ltb_spec x (q + 4096)); simpl; lia || done.
Qed.

(** What [copyout_cow] (and the store-fault handler) leaves behind: the page
    [q] is a private copy of [pa], all other pages in use are untouched. *)
Record broken own D M s r va pa q l' s' : Prop := Broken {
  br_inv : vm_inv own D (<[leaf r va := q]> M) l' s';
  br_only : mem_only s s';
  br_pte : ∀ r' va', 0 ≤ va' < MAXVA → D !! (r', []) = Some r' →
    pte_at (k_mem s') r' va' =
      if decide (leaf r' va' = leaf r va) then mkpte q (Z.lor rwxu PTE_V) else pte_at (k_mem s) r' va';
  br_copy : ∀ x, q ≤ x < q + PGSIZE → k_mem s' x = k_mem s (pa + (x - q));
  br_mem : ∀ t x, page t → t ≠ q → 1 ≤ refs s' t → (∀ k, D !! k ≠ Some t) → t ≤ x < t + PGSIZE →
    k_mem s' x = k_mem s x;
  br_refs : ∀ t, page t → t ≠ q → refs s' t = refs s t - if decide (pa = t) then 1 else 0;
}.

(** A page [q] fresh from the allocator, filled with the contents of [pa] and
    mapped in place of it. *)
Lemma cow_private own D M l s r va pa q p e :
  nonneg own → vm_inv own D M (q :: l) s → D !! (r, []) = Some r → 0 ≤ va < MAXVA → va mod 4096 = 0 →
  M !! leaf r va = Some pa → D !! (r, [PX 2 va; PX 1 va]) = Some p →
  Z.land (pte_at (k_mem s) r va) PTE_COW ≠ 0 →
  let s1 := st_alloc q s <| k_mem ::= λ m, memmove m q pa PGSIZE |> in
  let s2 := st_pte p (PX 0 va) (mkpte q (Z.lor rwxu PTE_V)) s1 in
  mappages r va PGSIZE q rwxu e s1 = Ret 0 e s2 ∧
  vm_inv (addown own pa 1) D (<[leaf r va := q]> M) l s2 ∧
  evolves (λ r' va' o, if decide (leaf r' va' = leaf r va) then mkpte q (Z.lor rwxu PTE_V) else o) D s D s2 ∧
  page q ∧ refs s q = 0 ∧ (∀ k, D !! k ≠ Some q) ∧
  (∀ x, q ≤ x < q + PGSIZE → k_mem s2 x = k_mem s (pa + (x - q))).
Proof.
  intros Hnn HI Hr Hva Hal HM Hp HC s1 s2.
  destruct (kalloc_fill own D M l s q (λ m, memmove m q pa PGSIZE) HI) as (HI1 & He1 & Hq & Hqz & Hq1 & Hnt);
    [intros; by apply memmove_out|]. fold s1 in HI1, He1, Hq1.
  destruct (leaf_owned _ _ _ _ _ r va pa HI Hr ltac:(lia) HM) as (_ & _ & Hg & Hpa & Hrf & Hpnt).
  assert (pa ≠ q) as Hne by (intros ->; lia).
  pose proof (PX_range 0 va ltac:(lia)) as Hk. pose proof (table_page HI _ _ Hp) as Hpp.
  assert (p ≠ q) as Hpq by (intros ->; by apply (Hnt _ Hp)).
  assert (good_pte (mkpte q (Z.lor rwxu PTE_V)) q) as Hgq.
  { destruct (page_range q Hq). by apply good_mkpte. }
  assert (∀ t, 0 ≤ addown own pa 1 t) as Hnn' by (intros t; specialize (Hnn t); unfold addown; case_decide; lia).
  assert (vm_inv (addown own pa 1) D (<[leaf r va := q]> M) l s2) as HI2.
  { eapply (vm_inv_leaf HI1 Hp Hk); fold (leaf r va).
    - by apply (good_pte_u64 _ q).
    - intros t. left. apply Hnn'.
    - intros t Ht. rewrite (cnt_update M _ pa q t HM). unfold addown. repeat case_decide; congruence || lia.
    - intros x Hx. by apply lookup_insert_ne.
    - by rewrite lookup_insert_eq. }
  split_and!; [| exact HI2 | | done | done | done |].
  - eapply mappages_remap; [exact HI1|done..|]. right.
    by rewrite (ev_pte _ _ _ _ _ He1).
  - eapply (evolves_trans (λ _ _ o, o)); [exact HI|exact HI2| |exact He1|]; [done|].
    eapply (evolves_leaf (own' := addown own pa 1) (M' := <[leaf r va := q]> M) HI1 Hp Hk); fold (leaf r va).
    + by apply (good_pte_u64 _ q).
    + intros t. left. apply Hnn'.
    + intros t Ht. rewrite (cnt_update M _ pa q t HM). unfold addown. repeat case_decide; congruence || lia.
    + intros x Hx. by apply lookup_insert_ne.
    + by rewrite lookup_insert_eq.
    + done.
  - intros x Hx. unfold s2. rewrite (sl_mem Hk).
    + change (memmove (k_mem (st_alloc q s)) q pa PGSIZE x = k_mem s (pa + (x - q))).
      rewrite memmove_spec by (unfold PGSIZE; lia).
      destruct (Z.leb_spec q x), (Z.ltb_spec x (q + PGSIZE)); try lia. cbn [andb].
      apply memset_out. pose proof (page_disjoint pa q Hpa Hq Hne). unfold PGSIZE in *. lia.
    + pose proof (page_disjoint p q Hpp Hq Hpq). unfold PGSIZE in *. lia.
Qed.

Lemma copyout_cow_run own D M l s r va pa q e :
  nonneg own → vm_inv own D M (q :: l) s → D !! (r, []) = Some r → 0 ≤ va < MAXVA → va mod 4096 = 0 →
  M !! leaf r va = Some pa → Z.land (pte_at (k_mem s) r va) PTE_COW ≠ 0 →
  ∃ l' s', copyout_cow r va pa e s = Ret true e s' ∧ broken own D M s r va pa q l' s' ∧
    (length l ≤ length l')%nat.
Proof.
  intros Hnn HI Hr Hva Hal HM HC.
  destruct (leaf_owned _ _ _ _ _ r va pa HI Hr ltac:(lia) HM) as (p & Hp & Hg & Hpa & Hrf & Hpnt).
  destruct (cow_private own D M l s r va pa q p e Hnn HI Hr Hva Hal HM Hp HC)
    as (Emap & HI2 & He2 & Hq & Hqz & Hqnt & Hcopy).
  set (s1 := st_alloc q s <| k_mem ::= λ m, memmove m q pa PGSIZE |>) in *.
  set (s2 := st_pte p (PX 0 va) (mkpte q (Z.lor rwxu PTE_V)) s1) in *.
  assert (pa ≠ q) as Hne by (intros ->; lia).
  destruct (kfree_own _ _ _ _ _ pa e HI2 Hpa) as (l' & s' & Ek & HI3 & Hmo & Hlen & Hrefs & Hmem & Hpte).
  { unfold addown. rewrite decide_True by done. specialize (Hnn pa). lia. }
  rewrite addown_cancel in HI3.
  assert (∀ t, page t → t ≠ q → refs s' t = refs s t - if decide (pa = t) then 1 else 0) as Hr'.
  { intros t Ht Htq. rewrite Hrefs by done. f_equal.
    unfold s2, st_pte, s1. rewrite !refs_mem. unfold st_alloc. by rewrite refs_st_ref_ne. }
  exists l', s'. split_and!.
  - unfold copyout_cow. run (kalloc_cons q l e s (vi_ready HI) (vi_kmem HI)).
    erewrite bind_Ret by (apply kmemmove_run; apply page_in_ram; done). fold s1. fold rwxu.
    rewrite (bind_Ret _ _ _ _ _ _ _ Emap). cbn [Z.eqb negb]. by run Ek.
  - split; [done| | | | |done].
    + eapply mem_only_trans; [apply (vi_ready HI)|apply (ev_only _ _ _ _ _ He2)|done].
    + intros r' va' Hva' Hr1. rewrite Hpte by (done || lia). by apply (ev_pte _ _ _ _ _ He2).
    + intros x Hx. rewrite Hmem; [by apply Hcopy|]. right.
      pose proof (page_disjoint pa q Hpa Hq Hne). lia.
    + intros t x Ht Htq Hrt Htnt Hx. rewrite Hmem.
      * apply (ev_mem _ _ _ _ _ He2). intros t' Ht' Hin.
        destruct (decide (t' = t)) as [->|Hd]; [|pose proof (page_disjoint t' t Ht' Ht Hd); lia].
        split; [|done]. rewrite Hr' in Hrt by done. case_decide; lia.
      * destruct (decide (t = pa)) as [->|Hd]; [left|right].
        -- rewrite Hrefs, decide_True in Hrt by done. lia.
        -- pose proof (page_disjoint t pa Ht Hpa Hd). lia.
  - done.
Qed.

(** ** copyout *)

(** A page [copyout] can write without another process seeing it: marked
    copy-on-write, or mapped nowhere else. *)
Definition writable M s r va : Prop :=
  ∃ pa, M !! leaf r va = Some pa ∧ Z.land (pte_at (k_mem s) r va) PTE_U ≠ 0 ∧
    (Z.land (pte_at (k_mem s) r va) PTE_COW ≠ 0 ∨ cnt M pa = 1).

(** A page of the process alone, which [copyout] writes without allocating. *)
Definition private M s r va : Prop :=
  ∃ pa, M !! leaf r va = Some pa ∧ Z.land (pte_at (k_mem s) r va) PTE_U ≠ 0 ∧
    Z.land (pte_at (k_mem s) r va) PTE_COW = 0 ∧ cnt M pa = 1.

Lemma private_page M s r va va' : leaf r va = leaf r va' → private M s r va → private M s r va'.
Proof. intros E (pa & A). exists pa. by rewrite <- E, <- (pte_at_page _ _ _ _ E). Qed.

(** The bytes all processes see, compared between two states: [w] is what was
    written to the address space [r]. *)
Definition sees D M s s' r (w : Z → option Z) : Prop :=
  ∀ r' va, 0 ≤ va < MAXVA → D !! (r', []) = Some r' → is_Some (M !! leaf r' va) →
    uread (k_mem s') r' va = default (uread (k_mem s) r' va) (if r' =? r then w va else None).

Definition same_keys M M' : Prop := ∀ k, is_Some (M' !! k) ↔ is_Some (M !! k).

Lemma owned_excl X k k' p : cnt X p = 1 → X !! k = Some p → X !! k' = Some p → k = k'.
Proof.
  intros Hc Hk Hk'. destruct (decide (k = k')) as [|Hne]; [done|].
  pose proof (cnt_two X k k' p Hk Hk' Hne). lia.
Qed.

Lemma uread_owned own D M l s r va pa :
  vm_inv own D M l s → D !! (r, []) = Some r → 0 ≤ va → M !! leaf r va = Some pa →
  uread (k_mem s) r va = k_mem s (pa + va mod 4096).
Proof.
  intros HI Hr Hva HM. destruct (leaf_owned _ _ _ _ _ r va pa HI Hr Hva HM) as (_ & _ & Hg & _).
  unfold uread. by rewrite (good_pte_pa _ _ Hg).
Qed.

Lemma off_range va : 0 ≤ va mod 4096 < PGSIZE.
Proof. unfold PGSIZE. zlia. Qed.

(** Breaking copy-on-write is invisible to every process. *)
Lemma broken_sees own D M l s r va pa q l' s' :
  vm_inv own D M l s → D !! (r, []) = Some r → 0 ≤ va < MAXVA → M !! leaf r va = Some pa →
  refs s q = 0 → broken own D M s r va pa q l' s' → sees D M s s' r (λ _, None).
Proof.
  intros HI Hr Hva HM Hqz [B1 B2 B3 B4 B5 B6] r' va' Hva' Hr' [pa' HM'].
  replace (default _ _) with (uread (k_mem s) r' va') by (by destruct (r' =? r)).
  pose proof (off_range va').
  rewrite (uread_owned _ _ _ _ _ r' va' pa' HI Hr' ltac:(lia) HM').
  destruct (decide (leaf r' va' = leaf r va)) as [E|E].
  - rewrite E, HM in HM'. injection HM' as <-.
    rewrite (uread_owned _ _ _ _ _ r' va' q B1 Hr') by (lia || by rewrite E, lookup_insert_eq).
    rewrite B4 by lia. f_equal. lia.
  - assert (<[leaf r va := q]> M !! leaf r' va' = Some pa') as HM1 by (by rewrite lookup_insert_ne).
    rewrite (uread_owned _ _ _ _ _ r' va' pa' B1 Hr' ltac:(lia) HM1).
    destruct (leaf_owned _ _ _ _ _ r' va' pa' B1 Hr' ltac:(lia) HM1) as (_ & _ & _ & Hp' & Hrf' & Hnt').
    destruct (leaf_owned _ _ _ _ _ r' va' pa' HI Hr' ltac:(lia) HM') as (_ & _ & _ & _ & Hrf & _).
    apply (B5 pa'); try done; [|lia]. intros ->. lia.
Qed.

Lemma broken_writable own D M l s r va pa q l' s' x :
  vm_inv own D M l s → D !! (r, []) = Some r → 0 ≤ va < MAXVA → 0 ≤ x < MAXVA → M !! leaf r va = Some pa →
  cnt M q = 0 → pa ≠ q → broken own D M s r va pa q l' s' → writable M s r x →
  writable (<[leaf r va := q]> M) s' r x.
Proof.
  intros HI Hr Hva Hx HM Hqz Hne [B1 B2 B3 B4 B5 B6] (pa' & HM' & HU & HC).
  unfold writable. rewrite B3 by done. case_decide as E.
  - exists q. rewrite E, lookup_insert_eq. split_and!; [done| |].
    + destruct (leaf_owned _ _ _ _ _ r va q B1 Hr ltac:(lia)) as (_ & _ & _ & Hq & _); [by rewrite lookup_insert_eq|].
      destruct (page_range q Hq). rewrite land_flags, mkpte_flags by done. done.
    + right. rewrite (cnt_update M _ pa q q HM). rewrite decide_False, decide_True by done. lia.
  - exists pa'. rewrite lookup_insert_ne by done. split_and!; [done|done|].
    destruct HC as [HC|HC]; [by left|right].
    assert (<[leaf r va := q]> M !! leaf r x = Some pa') as HM1 by (by rewrite lookup_insert_ne).
    pose proof (cnt_pos _ _ _ HM1) as Hp. rewrite (cnt_update M _ pa q pa' HM) in *.
    assert (q ≠ pa') as Hq by (intros <-; apply cnt_pos in HM'; lia).
    rewrite (decide_False (P := q = pa')) in * by done. case_decide; lia.
Qed.

(** The bytes [bs] written at [va]. *)
Definition wr (va : Z) (bs : list Z) (x : Z) : option Z :=
  if (va <=? x) && (x <? va + Z.of_nat (length bs)) then Some (nth (Z.to_nat (x - va)) bs 0) else None.

Lemma wr_split va bs n x : (n ≤ length bs)%nat →
  wr va bs x = match wr (va + Z.of_nat n) (drop n bs) x with
               | Some b => Some b
               | None => wr va (take n bs) x
               end.
Proof.
  intros Hn. unfold wr. rewrite length_drop, length_take_le, Nat2Z.inj_sub by lia.
  destruct (Z.leb_spec (va + Z.of_nat n) x), (Z.ltb_spec x (va + Z.of_nat n + (Z.of_nat (length bs) - Z.of_nat n))),
    (Z.leb_spec va x), (Z.ltb_spec x (va + Z.of_nat (length bs))), (Z.ltb_spec x (va + Z.of_nat n));
    cbn [andb]; try lia; try done; f_equal.
  - rewrite <- (take_drop n bs) at 1. rewrite app_nth2; rewrite length_take_le by lia; [f_equal; lia|lia].
  - rewrite <- (take_drop n bs) at 1. rewrite app_nth1; [done|]. rewrite length_take_le by lia. lia.
Qed.

Lemma sees_trans D M M1 s s1 s2 r w1 w2 w :
  same_keys M M1 → sees D M s s1 r w1 → sees D M1 s1 s2 r w2 →
  (∀ x, w x = match w2 x with Some b => Some b | None => w1 x end) → sees D M s s2 r w.
Proof.
  intros HK A B Hw r' va Hva Hr' HM. rewrite B; [|done|done|by apply HK]. rewrite A by done.
  destruct (r' =? r); [|done]. rewrite Hw. by destruct (w2 va).
Qed.

Lemma store_bytes_out m q off bs x :
  0 ≤ off → off + Z.of_nat (length bs) ≤ PGSIZE → x < q ∨ q + PGSIZE ≤ x → store_bytes m (q + off) bs x = m x.
Proof.
  intros H1 H2 Hx. rewrite store_bytes_spec.
  destruct (Z.leb_spec (q + off) x), (Z.ltb_spec x (q + off + Z.of_nat (length bs))); cbn [andb]; lia || done.
Qed.

Lemma write_chunk own D M l s r va0 va pa bs :
  vm_inv own D M l s → D !! (r, []) = Some r → va0 = va / 4096 * 4096 → 0 ≤ va → va0 < MAXVA →
  M !! leaf r va0 = Some pa → cnt M pa = 1 → va - va0 + Z.of_nat (length bs) ≤ PGSIZE →
  let s' := s <| k_mem ::= λ m, store_bytes m (pa + (va - va0)) bs |> in
  vm_inv own D M l s' ∧
  (∀ r' x, 0 ≤ x < MAXVA → D !! (r', []) = Some r' → pte_at (k_mem s') r' x = pte_at (k_mem s) r' x) ∧
  sees D M s s' r (wr va bs).
Proof.
  intros HI Hr E0 Hva Hmax HM Hx Hlen s'.
  destruct (leaf_owned _ _ _ _ _ r va0 pa HI Hr ltac:(zlia) HM) as (_ & _ & _ & Hpa & Hrf & Hnt).
  destruct (vm_inv_data own D M l s pa (λ m, store_bytes m (pa + (va - va0)) bs) HI Hpa Hrf Hnt) as [HI' Hpte].
  { intros x Hout. apply store_bytes_out; [zlia|done|done]. }
  fold s' in HI', Hpte. split_and!; [exact HI'| |].
  - intros r' x Hxr Hr'. by apply Hpte; (done || lia).
  - intros r' va' Hva' Hr' [pa' HM']. pose proof (off_range va').
    rewrite (uread_owned _ _ _ _ _ r' va' pa' HI Hr' ltac:(lia) HM').
    rewrite (uread_owned _ _ _ _ _ r' va' pa' HI' Hr' ltac:(lia) HM').
    change (k_mem s') with (store_bytes (k_mem s) (pa + (va - va0)) bs).
    destruct (leaf_owned _ _ _ _ _ r' va' pa' HI Hr' ltac:(lia) HM') as (_ & _ & _ & Hpa' & _).
    destruct (decide (pa' = pa)) as [->|Hne].
    + pose proof (owned_excl M _ _ _ Hx HM HM') as E. symmetry in E. apply leaf_eq in E as [-> E]; [|done|zlia].
      rewrite Z.eqb_refl, store_bytes_spec. unfold wr.
      assert (va' mod 4096 = va' - va0) as -> by zlia.
      destruct (Z.leb_spec (pa + (va - va0)) (pa + (va' - va0))), (Z.leb_spec va va'); try lia; [|done].
      destruct (Z.ltb_spec (pa + (va' - va0)) (pa + (va - va0) + Z.of_nat (length bs))),
        (Z.ltb_spec va' (va + Z.of_nat (length bs))); try lia; [|done].
      cbn [andb]. change (default ?d (Some ?b)) with b. f_equal. lia.
    + pose proof (page_disjoint pa' pa Hpa' Hpa Hne).
      rewrite store_bytes_out by (lia || zlia).
      destruct (Z.eqb_spec r' r) as [->|]; [|done]. unfold wr.
      destruct (Z.leb_spec va va'), (Z.ltb_spec va' (va + Z.of_nat (length bs))); try done. exfalso.
      assert (leaf r va' = leaf r va0) as E.
      { apply leaf_eq; [lia|zlia|]. split; [done|]. unfold PGSIZE in *. zlia. }
      rewrite E in HM'. congruence.
Qed.

Abbreviation copyout_step pagetable := (λ '(dstva, src),
    if 0 <? Z.of_nat (length src) then
      let va0 := PGROUNDDOWN dstva in
      if MAXVA <=? va0 then mret (inr (-1))
      else
        pa0 ← walkaddr pagetable va0;
        slot ← walk pagetable va0 false;
        pte ← ld64 slot;
        ok ← (if ctrue (Z.land (PTE_FLAGS pte) PTE_COW) then copyout_cow pagetable va0 pa0
              else mret true);
        if negb ok then mret (inr (-1))
        else
          pa0 ← walkaddr pagetable va0;
          if pa0 =? 0 then mret (inr (-1))
          else
            let n := Z.min (PGSIZE - (dstva - va0)) (Z.of_nat (length src)) in
            put_bytes (pa0 + (dstva - va0)) (take (Z.to_nat n) src);;
            mret (inl (va0 + PGSIZE, drop (Z.to_nat n) src))
    else mret (inr 0)).

(** What one iteration of [copyout], and the whole loop, establish. *)
Record wrote own D M (l : list Z) s r (w : Z → option Z) M' l' s' : Prop := Wrote {
  wt_inv : vm_inv own D M' l' s';
  wt_only : mem_only s s';
  wt_keys : same_keys M M';
  wt_pages : ∀ x, 0 ≤ x < MAXVA → writable M s r x → writable M' s' r x;
  wt_sees : sees D M s s' r w;
  wt_other : ∀ r' va, 0 ≤ va < MAXVA → D !! (r', []) = Some r' → M !! leaf r' va = None →
    pte_at (k_mem s') r' va = pte_at (k_mem s) r' va;
}.

(** The page at [va] made private, if it was not. *)
Lemma copyout_private own D M l s r va0 pa p e :
  nonneg own → vm_inv own D M l s → D !! (r, []) = Some r → 0 ≤ va0 < MAXVA → va0 mod 4096 = 0 →
  writable M s r va0 → M !! leaf r va0 = Some pa → D !! (r, [PX 2 va0; PX 1 va0]) = Some p →
  l ≠ [] ∨ private M s r va0 →
  ∃ M' l' s',
    (if ctrue (Z.land (PTE_FLAGS (pte_at (k_mem s) r va0)) PTE_COW) then copyout_cow r va0 pa else mret true) e s
      = Ret true e s' ∧ (length l ≤ S (length l'))%nat ∧ (private M s r va0 → l' = l) ∧
    wrote own D M l s r (λ _, None) M' l' s' ∧ private M' s' r va0.
Proof.
  intros Hnn HI Hr Hva Hal Hw HM Hp Hl. rewrite <- land_flags by done.
  destruct Hw as (pa1 & HM1 & HU & HC) eqn:HwE. clear HwE. rewrite HM in HM1. injection HM1 as <-.
  destruct (decide (Z.land (pte_at (k_mem s) r va0) PTE_COW = 0)) as [Hz|Hnz].
  - exists M, l, s. rewrite Hz. split_and!; [done|lia|done| |exists pa; naive_solver].
    split; [done|apply mem_only_refl|done|done| |done]. intros r' va' _ _ _. by destruct (r' =? r).
  - assert (¬ private M s r va0) as Hnp by (intros (? & _ & _ & Hz & _); done).
    destruct l as [|q l]; [by destruct Hl|]. destruct (nt_q HI) as (Hq & Hqz & _ & _ & HMq).
    destruct (leaf_owned _ _ _ _ _ r va0 pa HI Hr ltac:(lia) HM) as (_ & _ & Hg & Hpa & Hrf & _).
    assert (pa ≠ q) as Hne by (intros ->; lia).
    destruct (copyout_cow_run own D M l s r va0 pa q e Hnn HI Hr Hva Hal HM Hnz) as (l' & s' & E & HB & Hlen).
    exists (<[leaf r va0 := q]> M), l', s'. unfold ctrue.
    destruct (Z.eqb_spec (Z.land (pte_at (k_mem s) r va0) PTE_COW) 0); [done|]. cbn [negb].
    split_and!; [done|simpl; lia|done| |].
    + split; [apply HB|apply HB| | |by eapply broken_sees|].
      * intros k. destruct (decide (k = leaf r va0)) as [->|Hk]; [rewrite lookup_insert_eq, HM; split; eauto|].
        by rewrite lookup_insert_ne.
      * intros x Hx Hwx. by eapply broken_writable.
      * intros r' va' Hva' Hr' Hn. rewrite (br_pte _ _ _ _ _ _ _ _ _ _ HB), decide_False by (done || congruence). done.
    + exists q. rewrite lookup_insert_eq, (br_pte _ _ _ _ _ _ _ _ _ _ HB), decide_True by done.
      destruct (page_range q Hq). rewrite (land_flags _ PTE_U), (land_flags _ PTE_COW), mkpte_flags by done. split_and!; [done..|].
      rewrite (cnt_update M _ pa q q HM), decide_False, decide_True by done. lia.
Qed.

Lemma wrote_trans own D M l s M1 l1 s1 M2 l2 s2 r w1 w2 w :
  vm_inv own D M l s → wrote own D M l s r w1 M1 l1 s1 → wrote own D M1 l1 s1 r w2 M2 l2 s2 →
  (∀ x, w x = match w2 x with Some b => Some b | None => w1 x end) → wrote own D M l s r w M2 l2 s2.
Proof.
  intros HI [A1 A2 A3 A4 A5 A6] [B1 B2 B3 B4 B5 B6] Hw. split; [done| | |auto|by eapply sees_trans|].
  - eapply mem_only_trans; [apply (vi_ready HI)|done|done].
  - intros k. by rewrite (B3 k), (A3 k).
  - intros r' va Hva Hr' Hn. rewrite B6, A6; [done..|]. destruct (M1 !! leaf r' va) eqn:E; [|done].
    destruct (proj1 (A3 (leaf r' va)) (mk_is_Some _ _ E)). congruence.
Qed.

Lemma copyout_one own D M l s r va src e :
  nonneg own → vm_inv own D M l s → D !! (r, []) = Some r → 0 ≤ va < MAXVA →
  writable M s r va → l ≠ [] ∨ private M s r va → src ≠ [] →
  let va0 := PGROUNDDOWN va in
  let n := Z.to_nat (Z.min (PGSIZE - (va - va0)) (Z.of_nat (length src))) in
  ∃ M' l' s', copyout_step r (va, src) e s = Ret (inl (va0 + PGSIZE, drop n src)) e s' ∧
    (length l ≤ S (length l'))%nat ∧ (private M s r va → l' = l) ∧ private M' s' r va ∧
    wrote own D M l s r (wr va (take n src)) M' l' s'.
Proof.
  intros Hnn HI Hr Hva Hw Hl Hsrc va0 n. assert (va0 = va / 4096 * 4096) as E0 by apply PGROUNDDOWN_spec.
  assert (0 < Z.of_nat (length src)) as Hlen by (destruct src; [done|simpl; lia]).
  assert (leaf r va = leaf r va0) as El by (apply leaf_eq; [lia|zlia|]; split; [done|zlia]).
  assert (writable M s r va0) as Hw0.
  { destruct Hw as (pa & HM & HU & HC). exists pa. by rewrite <- El, <- (pte_at_page _ _ _ _ El). }
  pose proof Hw0 as (pa & HM & HU & _).
  destruct (leaf_owned _ _ _ _ _ r va0 pa HI Hr ltac:(zlia) HM) as (p & Hp & _ & _).
  destruct (leaf_slot _ _ _ _ _ r va0 p HI Hr ltac:(zlia) Hp) as [Hpp Hld].
  assert (l ≠ [] ∨ private M s r va0) as Hl0.
  { destruct Hl as [Hl|Hl]; [by left|right; by eapply private_page]. }
  destruct (copyout_private own D M l s r va0 pa p e Hnn HI Hr ltac:(zlia) ltac:(zlia) Hw0 HM Hp Hl0)
    as (M1 & l1 & s1 & Ecow & Hl1 & Hpl & Hw1 & pa1 & HM1 & HU1 & HC1 & Hx1).
  pose proof (wt_inv _ _ _ _ _ _ _ _ _ _ Hw1) as HI1.
  destruct (leaf_owned _ _ _ _ _ r va0 pa1 HI1 Hr ltac:(zlia) HM1) as (_ & _ & _ & Hpa1 & _).
  pose proof (page_bounds pa1 Hpa1) as (B1 & B2 & B3). rewrite KERNBASE_val in *.
  assert (Z.of_nat n = Z.min (PGSIZE - (va - va0)) (Z.of_nat (length src))) as En.
  { unfold n. rewrite Z2Nat.id; [done|]. unfold PGSIZE. zlia. }
  assert (length (take n src) = n) as Elen by (rewrite length_take_le; lia).
  destruct (write_chunk own D M1 l1 s1 r va0 va pa1 (take n src) HI1 Hr E0 ltac:(lia) ltac:(zlia) HM1 Hx1)
    as (HI2 & Hp2 & Hs2); [rewrite Elen; unfold PGSIZE in *; lia|].
  set (s2 := s1 <| k_mem ::= λ m, store_bytes m (pa1 + (va - va0)) (take n src) |>) in *.
  exists M1, l1, s2. split_and!; [|done|intros Hp0; apply Hpl; by eapply private_page| |].
  - cbv beta iota zeta. destruct (Z.ltb_spec 0 (Z.of_nat (length src))); [|lia]. fold va0.
    destruct (Z.leb_spec MAXVA va0); [zlia|].
    rewrite (bind_Ret _ _ _ _ _ _ _ (walkaddr_user _ _ _ _ _ r va0 pa e HI Hr ltac:(zlia) HM HU)).
    rewrite (bind_Ret _ _ _ _ _ _ _ (walk_follow HI r va0 p false e ltac:(zlia) Hr Hp)).
    erewrite bind_Ret by (apply ld64_run, ent_in_ram; [done|apply PX_range; lia]). rewrite Hld.
    rewrite (bind_Ret _ _ _ _ _ _ _ Ecow). cbn [negb].
    rewrite (bind_Ret _ _ _ _ _ _ _ (walkaddr_user _ _ _ _ _ r va0 pa1 e HI1 Hr ltac:(zlia) HM1 HU1)).
    destruct (Z.eqb_spec pa1 0); [lia|]. unfold put_bytes. krun. fold n. rewrite Elen.
    replace (in_ram (pa1 + (va - va0)) (Z.of_nat n)) with true; [by rewrite orb_true_r|].
    symmetry. apply in_ram_spec. rewrite KERNBASE_val. unfold PGSIZE in *. zlia.
  - apply (private_page _ _ _ va0); [done|]. exists pa1. by rewrite Hp2 by (done || zlia).
  - eapply (wrote_trans own D M l s M1 l1 s1 M1 l1 s2); [exact HI|exact Hw1| |].
    + split; [exact HI2|split; [by left|done]|done| |exact Hs2|by intros r' x Hxr Hr' _; apply Hp2].
      intros x Hxr (pa' & A). exists pa'. by rewrite Hp2.
    + intros x. by destruct (wr va (take n src) x).
Qed.

(** Pages touched by [n] bytes at [va]. *)
Definition pages_of (va : Z) (n : nat) : Z :=
  if (n =? 0)%nat then 0 else (va + Z.of_nat n - 1) / 4096 - va / 4096 + 1.

Lemma copyout_loop own D r e (k : nat) : ∀ M l s va src,
  (length src ≤ k)%nat →
  nonneg own → vm_inv own D M l s → D !! (r, []) = Some r → 0 ≤ va → va + Z.of_nat (length src) ≤ MAXVA →
  (∀ x, va ≤ x < va + Z.of_nat (length src) → writable M s r x) →
  pages_of va (length src) ≤ Z.of_nat (length l) →
  ∃ c M' l' s', runs (copyout_step r) (va, src) e s c 0 e s' ∧ c ≤ Z.of_nat (length src) + 1 ∧
    wrote own D M l s r (wr va src) M' l' s'.
Proof.
  induction k as [|k IH]; intros M l s va src Hk Hnn HI Hr Hva Hmax Hw Hl.
  all: destruct src as [|b src0];
    [exists 1, M, l, s; split_and!; [by apply runs_done|simpl; lia|];
     split; [done|apply mem_only_refl|done|done| |done];
     intros r' va' _ _ _; unfold wr; cbn [length];
     destruct (Z.leb_spec va va'), (Z.ltb_spec va' (va + Z.of_nat 0)); cbn [andb]; try lia; by destruct (r' =? r)|].
  { simpl in Hk. lia. }
  set (src := b :: src0) in *. assert (0 < length src)%nat as Hpos by (simpl; lia).
  unfold pages_of in Hl. destruct (Nat.eqb_spec (length src) 0) as [|_]; [lia|].
  set (va0 := PGROUNDDOWN va). assert (va0 = va / 4096 * 4096) as E0 by apply PGROUNDDOWN_spec.
  destruct (copyout_one own D M l s r va src e Hnn HI Hr ltac:(lia) (Hw va ltac:(lia)))
    as (M1 & l1 & s1 & Hstep & Hl1 & _ & _ & Hw1); [left; intros ->; simpl in Hl; zlia|done|]. fold va0 in Hstep, Hw1.
  set (n := Z.to_nat (Z.min (PGSIZE - (va - va0)) (Z.of_nat (length src)))) in *.
  assert (Z.of_nat n = Z.min (PGSIZE - (va - va0)) (Z.of_nat (length src))) as En.
  { unfold n. rewrite Z2Nat.id; [done|]. unfold PGSIZE. zlia. }
  assert (1 ≤ n ≤ length src)%nat as Hn by (unfold PGSIZE in *; zlia).
  assert (length (drop n src) = 0%nat ∨ va + Z.of_nat n = va0 + PGSIZE) as Hend.
  { rewrite length_drop. unfold PGSIZE in *. lia. }
  destruct (IH M1 l1 s1 (va0 + PGSIZE) (drop n src)) as (c & M2 & l2 & s2 & Hruns & Hc & Hw2).
  - rewrite length_drop. lia.
  - done.
  - apply Hw1.
  - done.
  - unfold PGSIZE. zlia.
  - rewrite length_drop in *. rewrite MAXVA_val in *. change (2 ^ 38) with 274877906944 in *. unfold PGSIZE in *. zlia.
  - intros x Hx. rewrite length_drop in *. apply Hw1; [|apply Hw]; lia.
  - unfold pages_of. rewrite length_drop in *. destruct (Nat.eqb_spec (length src - n) 0); [lia|].
    unfold PGSIZE in *. zlia.
  - exists (c + 1), M2, l2, s2. split_and!; [by eapply runs_step|rewrite length_drop in Hc; lia|].
    eapply wrote_trans; [exact HI|exact Hw1|exact Hw2|]. intros x. rewrite (wr_split va src n) by lia.
    destruct Hend as [Hz| ->]; [|done]. apply nil_length_inv in Hz. rewrite Hz. unfold wr. cbn [length].
    destruct (Z.leb_spec (va + Z.of_nat n) x), (Z.ltb_spec x (va + Z.of_nat n + Z.of_nat 0)),
      (Z.leb_spec (va0 + PGSIZE) x), (Z.ltb_spec x (va0 + PGSIZE + Z.of_nat 0)); cbn [andb]; done || lia.
Qed.

(** C3: [copyout] of [src] to user memory whose pages are copy-on-write or
    private, with a free page for each, returns 0.  Afterwards the process reads
    exactly [src] there, and every other byte of this and of every other address
    space reads as before: a write through one mapping of a shared page is never
    seen through another. *)
Theorem copyout_correct own D M l s r va src e :
  nonneg own → vm_inv own D M l s → D !! (r, []) = Some r → 0 ≤ va → va + Z.of_nat (length src) ≤ MAXVA →
  (∀ x, va ≤ x < va + Z.of_nat (length src) → writable M s r x) →
  pages_of va (length src) ≤ Z.of_nat (length l) →
  wp (copyout r va src) (λ res e' s', res = 0 ∧ e' = e ∧
    ∃ M' l', wrote own D M l s r (wr va src) M' l' s') e s.
Proof.
  intros Hnn HI Hr Hva Hmax Hw Hl.
  destruct (copyout_loop own D r e (length src) M l s va src) as (c & M' & l' & s' & Hruns & Hc & Hw'); try done.
  eapply wp_Ret; [|eauto 6]. unfold copyout. eapply while_runs; [exact Hruns|].
  rewrite MAXVA_val in Hmax. change (2 ^ 38) with 274877906944 in Hmax. lia.
Qed.

(** ** One byte at a time *)

(** Free pages for [n] bytes at [va], when the page of [va] may be private already. *)
Definition room M (l : list Z) s r va (n : nat) : Prop :=
  pages_of va n ≤ Z.of_nat (length l) ∨ (private M s r va ∧ pages_of va n ≤ Z.of_nat (length l) + 1).

Lemma copyout_byte own D M l s r va b n e :
  nonneg own → vm_inv own D M l s → D !! (r, []) = Some r → 0 ≤ va < MAXVA →
  writable M s r va → room M l s r va (S n) →
  ∃ M' l' s', copyout r va [b] e s = Ret 0 e s' ∧ wrote own D M l s r (wr va [b]) M' l' s' ∧
    (va + 1 < MAXVA → room M' l' s' r (va + 1) n).
Proof.
  intros Hnn HI Hr Hva Hw Hroom.
  assert (1 ≤ pages_of va (S n)) as Hpg by (unfold pages_of; cbn [Nat.eqb]; zlia).
  assert (l ≠ [] ∨ private M s r va) as Hl.
  { destruct Hroom as [Hro|[Hro _]]; [left; intros ->; simpl in Hro; lia|by right]. }
  destruct (copyout_one own D M l s r va [b] e Hnn HI Hr Hva Hw Hl ltac:(done))
    as (M' & l' & s' & Hstep & Hlen & Hsame & Hpr & Hwr).
  replace (Z.to_nat _) with 1%nat in Hstep, Hwr.
  2: { pose proof (PGROUNDDOWN_spec va). unfold PGSIZE in *. cbn [length]. zlia. }
  exists M', l', s'. split_and!; [|done|].
  - unfold copyout. eapply (while_runs _ _ _ _ 2); [|lia]. eapply (runs_step _ _ _ _ _ _ _ 1); [exact Hstep|].
    by apply runs_done.
  - intros Hmax. assert (Z.of_nat (length l) ≤ Z.of_nat (length l') + 1 ∧ (private M s r va → l' = l)) as [Hl1 Hl2] by (split; [lia|done]).
    destruct n as [|n]; [left; unfold pages_of; cbn [Nat.eqb]; lia|].
    destruct (decide ((va + 1) / 4096 = va / 4096)) as [E|E].
    + right. split.
      * apply (private_page _ _ _ va); [|done]. apply leaf_eq; [lia|lia|]. split; [done|zlia].
      * assert (pages_of (va + 1) (S n) = pages_of va (S (S n))) as -> by (unfold pages_of; cbn [Nat.eqb]; zlia).
        destruct Hroom as [Hro|[Hpv Hro]]; [lia|]. rewrite (Hl2 Hpv). lia.
    + left. assert (pages_of (va + 1) (S n) = pages_of va (S (S n)) - 1) as -> by (unfold pages_of; cbn [Nat.eqb]; zlia).
      destruct Hroom as [Hro|[Hpv Hro]]; [lia|]. rewrite (Hl2 Hpv). lia.
Qed.

(** round trip: what [copyout] stores, [copyin] reads back. *)
Theorem copyout_copyin_roundtrip own D M l s r va src e :
  nonneg own → vm_inv own D M l s → D !! (r, []) = Some r → 0 ≤ va → va + Z.of_nat (length src) ≤ MAXVA →
  (∀ x, va ≤ x < va + Z.of_nat (length src) → writable M s r x) →
  pages_of va (length src) ≤ Z.of_nat (length l) →
  wp (copyout r va src;; copyin r va (Z.of_nat (length src))) (λ '(res, bs) _ _, res = 0 ∧ bs = src) e s.
Proof.
  intros Hnn HI Hr Hva Hmax Hw Hl.
  destruct (copyout_loop own D r e (length src) M l s va src) as (c & M' & l' & s' & Hruns & Hc & Hw'); try done.
  apply wp_bind. eapply wp_Ret.
  { unfold copyout. eapply while_runs; [exact Hruns|].
    rewrite MAXVA_val in Hmax. change (2 ^ 38) with 274877906944 in Hmax. lia. }
  destruct Hw' as [W1 W2 W3 W4 W5 _].
  destruct (copyin_loop own D M' l' s' r e (length src) va (Z.of_nat (length src)) []) as (c' & Hc' & Hcl); try done; try lia.
  { intros x Hx. destruct (W4 x ltac:(lia) (Hw x Hx)) as (pa & A & B & _). by exists pa. }
  eapply wp_Ret.
  { unfold copyin. eapply while_runs; [exact Hc'|].
    rewrite MAXVA_val in Hmax. change (2 ^ 38) with 274877906944 in Hmax. lia. }
  split; [done|]. cbn [app]. unfold ubytes. apply (list_eq_same_length _ _ (length src)); [done|by rewrite length_fmap, length_seqZ; lia|].
  intros i x y Hi Hx Hy. rewrite list_lookup_fmap, lookup_seqZ_lt in Hx by lia.
  injection Hx as <-. rewrite W5; [|lia|done|].
  - rewrite Z.eqb_refl. unfold wr.
    destruct (Z.leb_spec va (va + Z.of_nat i)), (Z.ltb_spec (va + Z.of_nat i) (va + Z.of_nat (length src))); try lia.
    cbn [andb]. change (default ?d (Some ?b)) with b. replace (Z.to_nat (va + Z.of_nat i - va)) with i by lia.
    by apply nth_lookup_Some.
  - destruct (Hw (va + Z.of_nat i) ltac:(lia)) as (pa & A & _). eauto.
Qed.

(** C39: a user pointer into a region that has no page table makes [copyout]
    dereference the null entry [walk] returns: the kernel faults instead of
    returning -1. *)
Theorem copyout_unmapped_faults own D M l s r va b src e :
  vm_inv own D M l s → D !! (r, []) = Some r → 0 ≤ va < MAXVA → D !! (r, [PX 2 va; PX 1 va]) = None →
  copyout r va (b :: src) e s = Fault "load" s.
Proof.
  intros HI Hr Hva Hp. set (va0 := PGROUNDDOWN va). assert (va0 = va / 4096 * 4096) as E0 by apply PGROUNDDOWN_spec.
  assert (leaf r va0 = leaf r va) as El by (apply leaf_eq; [zlia|lia|]; split; [done|zlia]).
  assert (slot_of D r va0 = 0) as Hs by (unfold slot_of; injection El as -> -> _; by rewrite Hp).
  pose proof (walk_noalloc HI r va0 e ltac:(zlia) Hr) as Hw. rewrite Hs in Hw.
  unfold copyout. apply while_fault. cbv beta iota zeta.
  destruct (Z.ltb_spec 0 (Z.of_nat (length (b :: src)))); [|simpl in *; lia]. fold va0.
  destruct (Z.leb_spec MAXVA va0); [zlia|]. unfold walkaddr. destruct (Z.leb_spec MAXVA va0); [lia|].
  rewrite bind_bind, (bind_Ret _ _ _ _ _ _ _ Hw). cbn [Z.eqb]. krun.
  by rewrite (bind_Ret _ _ _ _ _ _ _ Hw).
Qed.
End Copy.

(** ** Examples *)

Section Witness.
#[local] Existing Instance small_image.
#[local] Existing Instance small_image_ok.
#[local] Abbreviation l3 := [ex_pg 5; ex_pg 6; ex_pg 7].

Lemma ex_leaf x : 0 ≤ x < 4096 → leaf (ex_pg 0) x = leaf (ex_pg 0) 0.
Proof.
  intros Hx. apply leaf_eq; [|by vm_compute|]; [rewrite MAXVA_val; change (2 ^ 38) with 274877906944; lia|].
  split; [done|zlia].
Qed.

Lemma ex_writable x : 0 ≤ x < 4096 → writable ex_M ex_vm (ex_pg 0) x.
Proof.
  intros Hx. pose proof (ex_leaf x Hx) as El. exists (ex_pg 4). rewrite El, (pte_at_page _ _ _ _ El).
  split_and!; [by vm_compute|by vm_compute|right; by vm_compute].
Qed.

Lemma walkaddr_correct_witness :
  wp (walkaddr (ex_pg 0) 0) (λ pa e' s', e' = [] ∧ s' = ex_vm ∧
    if decide (0 < MAXVA ∧ Z.land (pte_at (k_mem ex_vm) (ex_pg 0) 0) PTE_V ≠ 0 ∧
               Z.land (pte_at (k_mem ex_vm) (ex_pg 0) 0) PTE_U ≠ 0)
    then ex_M !! leaf (ex_pg 0) 0 = Some pa ∧ PTE2PA (pte_at (k_mem ex_vm) (ex_pg 0) 0) = pa ∧ page pa ∧
         1 ≤ refs ex_vm pa ∧ ∀ k, ex_D !! k ≠ Some pa
    else pa = 0) [] ex_vm.
Proof. apply (walkaddr_correct ex_own ex_D ex_M l3 ex_vm (ex_pg 0) 0 [] ex_vm_inv); by vm_compute. Defined.

Lemma copyin_correct_witness :
  copyin (ex_pg 0) 10 3 [] ex_vm = Ret (0, ubytes (k_mem ex_vm) (ex_pg 0) 10 3) [] ex_vm.
Proof.
  apply (copyin_correct ex_own ex_D ex_M l3 ex_vm (ex_pg 0) 10 3 [] ex_vm_inv); [by vm_compute..|].
  intros x Hx. destruct (ex_writable x ltac:(lia)) as (pa & A & B & _). by exists pa.
Defined.

Lemma copyout_correct_witness :
  wp (copyout (ex_pg 0) 10 [1; 2; 3]) (λ res e' s', res = 0 ∧ e' = [] ∧
    ∃ M' l', wrote ex_own ex_D ex_M l3 ex_vm (ex_pg 0) (wr 10 [1; 2; 3]) M' l' s') [] ex_vm.
Proof.
  apply (copyout_correct ex_own ex_D ex_M l3 ex_vm (ex_pg 0) 10 [1; 2; 3] [] ex_nonneg ex_vm_inv);
    [by vm_compute|done|by vm_compute| |by vm_compute].
  intros x Hx. apply ex_writable. simpl in Hx. lia.
Defined.

Lemma copyout_copyin_roundtrip_witness :
  wp (copyout (ex_pg 0) 10 [1; 2; 3];; copyin (ex_pg 0) 10 3) (λ '(res, bs) _ _, res = 0 ∧ bs = [1; 2; 3]) [] ex_vm.
Proof.
  apply (copyout_copyin_roundtrip ex_own ex_D ex_M l3 ex_vm (ex_pg 0) 10 [1; 2; 3] [] ex_nonneg ex_vm_inv);
    [by vm_compute|done|by vm_compute| |by vm_compute].
  intros x Hx. apply ex_writable. simpl in Hx. lia.
Defined.

Lemma copyout_unmapped_faults_witness : copyout (ex_pg 0) 0x80000000 [1] [] ex_vm = Fault "load" ex_vm.
Proof.
  apply (copyout_unmapped_faults ex_own ex_D ex_M l3 ex_vm (ex_pg 0) 0x80000000 1 [] [] ex_vm_inv); by vm_compute.
Defined.

(** After [uvmcopy] the parent writes; the child still reads the old byte. *)
Example cow_isolation :
  match (uvmcopy (ex_pg 0) (ex_pg 3) 4096;; copyout (ex_pg 0) 10 [7]) [] ex_vm with
  | Ret 0 _ s => uread (k_mem s) (ex_pg 0) 10 = 7 ∧ uread (k_mem s) (ex_pg 3) 10 = 0 ∧ refs s (ex_pg 4) = 1
  | _ => False
  end.
Proof. vm_compute. done. Qed.
End Witness.
