(* ===== verification/VmFree.v ===== *)
(** * VmFree: freeing an address space (freewalk, uvmfree of kernel/vm.c and
    proc_freepagetable of kernel/proc.c)

    freewalk takes a tree of page tables apart.  While it runs, the entries of a
    table still point at tables that are free already, so the tree is first
    taken out of the invariant: its pages count as held by the routine ([held]),
    and what their entries say is the recursive predicate [subtree]. *)

From S2P Require Import Prelude Params CString State Spinlock PhysMem Kalloc Vm VmInv VmMap VmLocal VmGrow VmCow VmCopy.

(** References held to the pages of a list. *)
Definition held (own : Z → Z) (T : list Z) : Z → Z := λ t, own t + Z.of_nat (count_occ Z.eq_dec T t).

(** The table at [p], with [n] levels below it, leads to the pages [T], listed
    in the order in which freewalk frees them; no entry is a leaf. *)
Fixpoint subtree `{!Image} (m : memory) (n : nat) (p : Z) (T : list Z) : Prop :=
  ∃ kids : Z → list Z,
    (∀ j, 0 ≤ j < 512 →
      (ent m p j = 0 ∧ kids j = []) ∨
      match n with
      | O => False
      | S n' => ∃ q, ent m p j = mkpte q PTE_V ∧ page q ∧ subtree m n' q (kids j)
      end) ∧
    T = mjoin (kids <$> seqZ 0 512) ++ [p].

Section Free.
Context `{!Image} `{!ImageOK}.
Implicit Types (own : Z → Z) (D M : gmap node Z) (l T : list Z) (s : kstate) (e : env) (m : memory).

Lemma held_app own A B : pointwise_relation Z eq (held own (A ++ B)) (held (held own B) A).
Proof. intros t. unfold held. rewrite count_occ_app. lia. Qed.

Lemma held_in own T t : nonneg own → t ∈ T → 1 ≤ held own T t.
Proof.
  intros Hnn Ht. unfold held. specialize (Hnn t). apply list_elem_of_In in Ht. apply (count_occ_In Z.eq_dec) in Ht. lia.
Qed.

Lemma nonneg_held own T : nonneg own → nonneg (held own T).
Proof. intros Hnn t. unfold held. specialize (Hnn t). lia. Qed.

Lemma subtree_ext m m' n : ∀ p T, subtree m n p T → page p →
  (∀ x t, t ∈ T → t ≤ x < t + PGSIZE → m' x = m x) → subtree m' n p T.
Proof.
  assert (∀ p T (kids : Z → list Z) j, T = mjoin (kids <$> seqZ 0 512) ++ [p] → 0 ≤ j < 512 →
    (∀ x t, t ∈ T → t ≤ x < t + PGSIZE → m' x = m x) →
    ent m' p j = ent m p j ∧ ∀ x t, t ∈ kids j → t ≤ x < t + PGSIZE → m' x = m x) as Hsub.
  { intros p T kids j -> Hj Hx. split.
    - apply ent_ext; [done|]. intros z Hz. apply (Hx z p); [|done]. apply elem_of_app. right. by left.
    - intros x t Ht. apply Hx. apply elem_of_app. left. apply list_elem_of_join. exists (kids j). split; [done|].
      apply list_elem_of_fmap. exists j. split; [done|]. apply elem_of_seqZ. lia. }
  induction n as [|n IH]; intros p T (kids & Hk & HT) Hp Hx; exists kids; (split; [|done]); intros j Hj;
    destruct (Hsub p T kids j HT Hj Hx) as [Ee Hx']; rewrite Ee; destruct (Hk j Hj) as [Hz|Hq]; [by left|done|by left|right].
  destruct Hq as (q & Hq & Hpq & Hs). exists q. split_and!; [done..|]. by apply (IH q (kids j) Hs Hpq).
Qed.

(** The flags of a pointer to a table. *)
Lemma mkpte_V_node q : page q → ctrue (Z.land (mkpte q PTE_V) PTE_V) &&
  (Z.land (mkpte q PTE_V) (Z.lor (Z.lor PTE_R PTE_W) PTE_X) =? 0) = true.
Proof.
  intros Hq. rewrite mkpte_V by done. destruct (page_range q Hq).
  rewrite land_flags, mkpte_flags by (done || apply PTE_V_range). done.
Qed.

(** What freeing the pages [T] may change. *)
Record freed T s s' : Prop := Freed {
  fr_only : mem_only s s';
  fr_mem : ∀ x, (∀ t, t ∈ T → x < t ∨ t + PGSIZE ≤ x) → k_mem s' x = k_mem s x;
}.

Lemma freed_trans A B s1 s2 s3 : wf_mach (k_mach s1) → freed A s1 s2 → freed B s2 s3 → freed (A ++ B) s1 s3.
Proof.
  intros Hw [A1 A2] [B1 B2]. split; [by eapply mem_only_trans|]. intros x Hx.
  rewrite B2, A2; [done|..]; intros t Ht; apply Hx, elem_of_app; auto.
Qed.

(** A page held outside the page tables is in use and not a table. *)
Lemma held_used own D M l s p : vm_inv own D M l s → page p → 1 ≤ own p → 1 ≤ refs s p ∧ ∀ k, D !! k ≠ Some p.
Proof.
  intros HI Hp Ho. rewrite (vi_refs HI p Hp). pose proof (cnt_nonneg D p). pose proof (cnt_nonneg M p). split; [lia|].
  intros k Hk. destruct (table_excl HI k p Hk). lia.
Qed.

Lemma pages_apart T t x : page t → t ∉ T → Forall page T → t ≤ x < t + PGSIZE → ∀ u, u ∈ T → x < u ∨ u + PGSIZE ≤ x.
Proof.
  intros Ht Hn HT Hx u Hu. assert (t ≠ u) as Hne by (intros ->; done). rewrite Forall_forall in HT.
  pose proof (page_disjoint t u Ht (HT u Hu) Hne). lia.
Qed.

(** One entry of a table. *)
Lemma freewalk_entry (walkdown : Z → K ()) (P : memory → Z → list Z → Prop) own D M p A B i l s e :
  page p → nonneg own → 0 ≤ i < 512 →
  (∀ own l s q T, nonneg own → vm_inv (held own T) D M l s → Forall page T → NoDup T → page q → P (k_mem s) q T →
     ∃ l' s', walkdown q e s = Ret () e s' ∧ vm_inv own D M l' s' ∧ freed T s s' ∧ (length l ≤ length l')%nat) →
  vm_inv (held own (A ++ B ++ [p])) D M l s → Forall page A → Forall page B → NoDup (A ++ B ++ [p]) →
  (ent (k_mem s) p i = 0 ∧ A = []) ∨ (∃ q, ent (k_mem s) p i = mkpte q PTE_V ∧ page q ∧ P (k_mem s) q A) →
  ∃ l1 s1, (pte ← ld64 (p + 8 * i);
        if ctrue (Z.land pte PTE_V) && (Z.land pte (Z.lor (Z.lor PTE_R PTE_W) PTE_X) =? 0) then
          walkdown (PTE2PA pte);; st64 (p + 8 * i) 0
        else panic_if (ctrue (Z.land pte PTE_V)) "freewalk: leaf") e s = Ret () e s1 ∧
      vm_inv (held own (B ++ [p])) D M l1 s1 ∧ freed (A ++ [p]) s s1 ∧ (length l ≤ length l1)%nat ∧
      (∀ j, i < j < 512 → ent (k_mem s1) p j = ent (k_mem s) p j) ∧
      (∀ x t, t ∈ B → t ≤ x < t + PGSIZE → k_mem s1 x = k_mem s x).
Proof.
  intros Hp Hnn Hi Hwalk HI HA HB HN Hent. erewrite bind_Ret by (apply ld64_run, ent_in_ram; done).
  change (le_load (k_mem s) (p + 8 * i) 8) with (ent (k_mem s) p i). destruct Hent as [[-> ->]|(q & -> & Hq & Hs)].
  { exists l, s. split_and!; [done|done|split; [apply mem_only_refl|done]|lia|done|done]. }
  rewrite mkpte_V_node, mkpte_V_pa by done. pose proof HN as (HN1 & HN2 & HN3)%NoDup_app.
  rewrite held_app in HI.
  destruct (Hwalk (held own (B ++ [p])) l s q A (nonneg_held own _ Hnn) HI HA HN1 Hq Hs) as (l1 & s1 & E1 & HI1 & [Hm1 Hx1] & Hl1).
  assert (p ∈ B ++ [p]) as Hpin by (apply elem_of_app; right; by left).
  destruct (held_used _ _ _ _ _ p HI1 Hp (held_in own _ p Hnn Hpin)) as [Hrf Hnt].
  destruct (vm_inv_data _ _ _ _ _ p (λ m, le_store m (p + 8 * i) 0 8) HI1 Hp Hrf Hnt) as [HI2 _].
  { intros x Hx. by apply store_out. }
  exists l1, (s1 <| k_mem ::= λ m, le_store m (p + 8 * i) 0 8 |>).
  change (k_mem (s1 <| k_mem ::= λ m, le_store m (p + 8 * i) 0 8 |>)) with (le_store (k_mem s1) (p + 8 * i) 0 8).
  split_and!; [|done| |done| |].
  - run E1. apply st64_run, ent_in_ram; done.
  - split; [destruct Hm1; by split|]. intros x Hx. etransitivity; [apply store_out; [done|]|apply Hx1].
    + apply Hx, elem_of_app. right. by left.
    + intros t Ht. apply Hx, elem_of_app. by left.
  - intros j Hj. rewrite ent_store_ne by (done || lia || (right; lia)). apply ent_ext; [lia|]. intros x Hx. apply Hx1.
    apply (pages_apart A p); [done| |done|done]. intros Hin. by apply (HN2 p Hin).
  - intros x t Ht Hx. assert (page t) as Hpt by (by rewrite Forall_forall in HB; apply HB).
    rewrite store_out; [|done|].
    + apply Hx1. apply (pages_apart A t); [done| |done|done]. intros Hin. apply (HN2 t Hin), elem_of_app. by left.
    + apply (pages_apart [p] t); [done| |by apply Forall_singleton|done|by left]. intros Hin.
      apply NoDup_app in HN3 as (_ & HN4 & _). by apply (HN4 t Ht).
Qed.

(** The children of one table, from entry [i] on: [walkdown] frees the tree
    below one entry. *)
Lemma freewalk_kids (walkdown : Z → K ()) (P : memory → Z → list Z → Prop) own D M p kids e :
  page p → nonneg own →
  (∀ m m' q T, P m q T → page q → (∀ x t, t ∈ T → t ≤ x < t + PGSIZE → m' x = m x) → P m' q T) →
  (∀ own l s q T, nonneg own → vm_inv (held own T) D M l s → Forall page T → NoDup T → page q → P (k_mem s) q T →
     ∃ l' s', walkdown q e s = Ret () e s' ∧ vm_inv own D M l' s' ∧ freed T s s' ∧ (length l ≤ length l')%nat) →
  ∀ (k : nat) i l s, i + Z.of_nat k = 512 → 0 ≤ i →
  let T := mjoin (kids <$> seqZ i (Z.of_nat k)) in
  vm_inv (held own (T ++ [p])) D M l s → Forall page T → NoDup (T ++ [p]) →
  (∀ j, i ≤ j < 512 → (ent (k_mem s) p j = 0 ∧ kids j = []) ∨
     ∃ q, ent (k_mem s) p j = mkpte q PTE_V ∧ page q ∧ P (k_mem s) q (kids j)) →
  ∃ l' s', foreach (seqZ i (Z.of_nat k)) (λ i,
        pte ← ld64 (p + 8 * i);
        if ctrue (Z.land pte PTE_V) && (Z.land pte (Z.lor (Z.lor PTE_R PTE_W) PTE_X) =? 0) then
          walkdown (PTE2PA pte);;
          st64 (p + 8 * i) 0
        else panic_if (ctrue (Z.land pte PTE_V)) "freewalk: leaf") e s = Ret () e s' ∧
    vm_inv (held own [p]) D M l' s' ∧ freed (T ++ [p]) s s' ∧ (length l ≤ length l')%nat.
Proof.
  intros Hp Hnn HP Hwalk. induction k as [|k IH]; intros i l s Hi Hi0 T HI HT HN Hk.
  { exists l, s. split_and!; [done|done|split; [apply mem_only_refl|done]|lia]. }
  assert (mjoin (kids <$> seqZ i (Z.of_nat (S k))) = kids i ++ mjoin (kids <$> seqZ (Z.succ i) (Z.of_nat k))) as ET.
  { rewrite seqZ_cons by lia. replace (Z.pred (Z.of_nat (S k))) with (Z.of_nat k) by lia. done. }
  set (T' := mjoin (kids <$> seqZ (Z.succ i) (Z.of_nat k))) in *. subst T. rewrite ET in *.
  apply Forall_app in HT as [HT1 HT2]. rewrite <- app_assoc in HN. pose proof HN as (HN1 & HN2 & HN3)%NoDup_app.
  rewrite seqZ_cons by lia. replace (Z.pred (Z.of_nat (S k))) with (Z.of_nat k) by lia. cbn [foreach].
  assert (∃ l1 s1, (pte ← ld64 (p + 8 * i);
        if ctrue (Z.land pte PTE_V) && (Z.land pte (Z.lor (Z.lor PTE_R PTE_W) PTE_X) =? 0) then
          walkdown (PTE2PA pte);; st64 (p + 8 * i) 0
        else panic_if (ctrue (Z.land pte PTE_V)) "freewalk: leaf") e s = Ret () e s1 ∧
      vm_inv (held own (T' ++ [p])) D M l1 s1 ∧ freed (kids i ++ [p]) s s1 ∧ (length l ≤ length l1)%nat ∧
      (∀ j, i < j < 512 → ent (k_mem s1) p j = ent (k_mem s) p j) ∧
      (∀ x t, t ∈ T' → t ≤ x < t + PGSIZE → k_mem s1 x = k_mem s x)) as (l1 & s1 & E1 & HI1 & Hf1 & Hl1 & He1 & Hm1).
  { rewrite <- app_assoc in HI. apply (freewalk_entry walkdown P own D M p (kids i) T' i l s e); try done; [lia|]. apply Hk. lia. }
  destruct (IH (Z.succ i) l1 s1) as (l2 & s2 & E2 & HI2 & Hf2 & Hl2); [lia|lia|done|done|done| |].
  { intros j Hj. rewrite He1 by lia. destruct (Hk j ltac:(lia)) as [?|(q & Eq & Hq & Hs)]; [by left|right].
    exists q. split_and!; [done..|]. apply (HP (k_mem s)); [done|done|]. intros x t Ht. apply Hm1.
    apply list_elem_of_join. exists (kids j). split; [done|]. apply list_elem_of_fmap. exists j. split; [done|]. apply elem_of_seqZ. lia. }
  exists l2, s2. split_and!; [by run E1|done| |lia].
  destruct (freed_trans _ _ _ _ _ (proj1 (vi_ready HI)) Hf1 Hf2) as [A B]. split; [done|]. intros x Hx. apply B.
  intros t Ht. apply Hx. fold T' in Ht. rewrite !elem_of_app in *. tauto.
Qed.

Lemma freewalk_table own D M p T l s s1 e :
  nonneg own → page p → wf_mach (k_mach s) → vm_inv (held own [p]) D M l s1 → freed (T ++ [p]) s s1 →
  ∃ l' s', kfree p e s1 = Ret () e s' ∧ vm_inv own D M l' s' ∧ freed (T ++ [p]) s s' ∧ (length l ≤ length l')%nat.
Proof.
  intros Hnn Hp Hw HI [F1 F2]. destruct (kfree_own _ _ _ _ _ p e HI Hp) as (l' & s' & E & HI' & Hmo & Hl & _ & Hmem & _).
  { apply held_in; [done|by left]. }
  exists l', s'. split_and!; [done| | |done].
  - assert (pointwise_relation Z eq (addown (held own [p]) p (-1)) own) as Eo.
    { intros t. unfold addown, held. cbn [count_occ]. destruct (Z.eq_dec p t) as [->|]; [rewrite decide_True by done|rewrite decide_False by done]; lia. }
    by rewrite Eo in HI'.
  - split; [by eapply mem_only_trans|]. intros x Hx. rewrite Hmem; [by apply F2|]. right. apply Hx, elem_of_app. right. by left.
Qed.

(** freewalk frees the whole tree. *)
Lemma freewalk_run D M e (n : nat) : ∀ fuel, (n < fuel)%nat → ∀ own l s q T,
  nonneg own → vm_inv (held own T) D M l s → Forall page T → NoDup T → page q → subtree (k_mem s) n q T →
  ∃ l' s', freewalk_fuel fuel q e s = Ret () e s' ∧ vm_inv own D M l' s' ∧ freed T s s' ∧
    (length l ≤ length l')%nat.
Proof.
  induction n as [|n IH]; intros [|fuel] Hfuel own l s p T Hnn HI HT HN Hp Hs; try lia;
    destruct Hs as (kids & Hk & ->); apply Forall_app in HT as [HT _].
  - destruct (freewalk_kids (freewalk_fuel fuel) (λ _ _ _, False) own D M p kids e Hp Hnn) with (k := 512%nat) (i := 0) (l := l) (s := s)
      as (l1 & s1 & E1 & HI1 & Hf1 & Hl1); try done.
    { intros j Hj. destruct (Hk j Hj) as [?|[]]. by left. }
    destruct (freewalk_table own D M p _ l1 s s1 e Hnn Hp (proj1 (vi_ready HI)) HI1 Hf1) as (l2 & s2 & E2 & HI2 & Hf2 & Hl2).
    exists l2, s2. split_and!; [cbn [freewalk_fuel]; by run E1|done|done|lia].
  - destruct (freewalk_kids (freewalk_fuel fuel) (λ m, subtree m n) own D M p kids e Hp Hnn) with (k := 512%nat) (i := 0) (l := l) (s := s)
      as (l1 & s1 & E1 & HI1 & Hf1 & Hl1); try done.
    { intros m m' q T. apply subtree_ext. }
    { apply IH. lia. }
    destruct (freewalk_table own D M p _ l1 s s1 e Hnn Hp (proj1 (vi_ready HI)) HI1 Hf1) as (l2 & s2 & E2 & HI2 & Hf2 & Hl2).
    exists l2, s2. split_and!; [cbn [freewalk_fuel]; by run E1|done|done|lia].
Qed.

Lemma occ_nodup T t : NoDup T → t ∈ T → count_occ Z.eq_dec T t = 1%nat.
Proof.
  induction 1 as [|x T Hx HT IH]; intros Ht; [by apply not_elem_of_nil in Ht|]. cbn [count_occ]. destruct (Z.eq_dec x t) as [->|Hne].
  - f_equal. apply count_occ_not_In. by rewrite <- list_elem_of_In.
  - apply elem_of_cons in Ht as [->|Ht]; [done|]. by apply IH.
Qed.

(** ** Taking a tree out of the invariant *)

(** The tables from [path] on, [n] levels deep. *)
Fixpoint tabs D (r : Z) (n : nat) (path : list Z) : list Z :=
  match D !! (r, path), n with
  | None, _ => []
  | Some p, O => [p]
  | Some p, S n' => mjoin ((λ j, tabs D r n' (path ++ [j])) <$> seqZ 0 512) ++ [p]
  end.

Lemma tabs_in D r n : ∀ path t, t ∈ tabs D r n path → ∃ suf, D !! (r, path ++ suf) = Some t.
Proof.
  induction n as [|n IH]; intros path t Ht; cbn [tabs] in Ht; destruct (D !! (r, path)) as [p|] eqn:Ep; try by apply not_elem_of_nil in Ht.
  - apply list_elem_of_singleton in Ht as ->. exists []. by rewrite app_nil_r.
  - apply elem_of_app in Ht as [Ht|Ht%list_elem_of_singleton]; [|subst; exists []; by rewrite app_nil_r].
    apply list_elem_of_join in Ht as (T & Ht & HT). apply list_elem_of_fmap in HT as (j & -> & _).
    apply IH in Ht as [suf Hs]. exists (j :: suf). by rewrite <- Hs, <- app_assoc.
Qed.

Section Tree.
Context {own D M l s} (HI : vm_inv own D M l s).

Lemma prefix_of r path suf : is_Some (D !! (r, path ++ suf)) → is_Some (D !! (r, path)).
Proof.
  induction suf as [|j suf IH] using rev_ind; [by rewrite app_nil_r|]. rewrite app_assoc. intros [q Hq].
  apply IH. by apply (parent_of HI r (path ++ suf) j q).
Qed.

Lemma tabs_all r n : ∀ path suf t, D !! (r, path ++ suf) = Some t → (length suf ≤ n)%nat → t ∈ tabs D r n path.
Proof.
  induction n as [|n IH]; intros path suf t Ht Hl.
  - destruct suf; [|simpl in Hl; lia]. rewrite app_nil_r in Ht. cbn [tabs]. rewrite Ht. by left.
  - destruct (prefix_of r path suf (mk_is_Some _ _ Ht)) as [p Hp]. cbn [tabs]. rewrite Hp. apply elem_of_app.
    destruct suf as [|j suf]; [right; rewrite app_nil_r in Ht; assert (p = t) as -> by congruence; by left|left].
    change (j :: suf) with ([j] ++ suf) in Ht. rewrite app_assoc in Ht.
    destruct (prefix_of r (path ++ [j]) suf (mk_is_Some _ _ Ht)) as [q Hq].
    destruct (po_up (vi_pt HI) r path j q Hq) as (Hj & _ & _).
    apply list_elem_of_join. exists (tabs D r n (path ++ [j])). split; [apply (IH _ suf); [done|simpl in Hl; lia]|].
    apply list_elem_of_fmap. exists j. split; [done|]. apply elem_of_seqZ. lia.
Qed.

Lemma tabs_join_nodup r path (n : nat) k i :
  (∀ j, NoDup (tabs D r n (path ++ [j]))) → NoDup (mjoin ((λ j, tabs D r n (path ++ [j])) <$> seqZ i (Z.of_nat k))).
Proof.
  intros HN. revert i. induction k as [|k IH]; intros i; [apply NoDup_nil_2|]. rewrite seqZ_cons by lia. cbn [fmap list_fmap mjoin list_join].
  replace (Z.pred (Z.of_nat (S k))) with (Z.of_nat k) by lia. apply NoDup_app. split_and!; [done| |apply IH].
  intros t Ht Ht'. apply tabs_in in Ht as [suf Hs]. apply list_elem_of_join in Ht' as (T & Ht' & HT).
  apply list_elem_of_fmap in HT as (j & -> & Hj). apply elem_of_seqZ in Hj. apply tabs_in in Ht' as [suf' Hs'].
  pose proof (table_inj HI _ _ _ Hs Hs') as E. injection E as E. rewrite <- !app_assoc in E. apply app_inv_head in E.
  injection E as E. lia.
Qed.

Lemma tabs_nodup r n : ∀ path, NoDup (tabs D r n path).
Proof.
  induction n as [|n IH]; intros path; cbn [tabs]; destruct (D !! (r, path)) as [p|] eqn:Hp; try apply NoDup_nil_2; [apply NoDup_singleton|].
  apply NoDup_app. split_and!; [by apply (tabs_join_nodup r path n 512 0)| |apply NoDup_singleton].
  intros t Ht Ht'%list_elem_of_singleton. subst. apply list_elem_of_join in Ht as (T & Ht & HT).
  apply list_elem_of_fmap in HT as (j & -> & _). apply tabs_in in Ht as [suf Hs].
  pose proof (table_inj HI _ _ _ Hs Hp) as E. injection E as E. apply (f_equal length) in E. rewrite !length_app in E. simpl in E. lia.
Qed.

(** The address space has no leaf entries left. *)
Definition bare r : Prop := ∀ i j p k, D !! (r, [i; j]) = Some p → 0 ≤ k < 512 → ent (k_mem s) p k = 0.

Lemma tabs_subtree r n : bare r → ∀ path p, (length path + n = 2)%nat → D !! (r, path) = Some p →
  subtree (k_mem s) n p (tabs D r n path).
Proof.
  intros Hb. induction n as [|n IH]; intros path p Hl Hp; cbn [tabs subtree]; rewrite Hp.
  - exists (λ _, []). split; [|done].
    intros j Hj. left. split; [|done]. destruct path as [|i1 [|i2 [|]]]; simpl in Hl; try lia. by apply (Hb i1 i2).
  - exists (λ j, tabs D r n (path ++ [j])). split; [|done]. intros j Hj.
    pose proof (entry_of HI r path p j Hp ltac:(lia) Hj) as Ee. destruct (D !! (r, path ++ [j])) as [q|] eqn:Hq.
    + right. exists q. split_and!; [done|by apply (table_page HI _ _ Hq)|]. apply IH; [rewrite length_app; simpl; lia|done].
    + left. split; [done|]. destruct n; cbn [tabs]; by rewrite Hq.
Qed.
End Tree.

Lemma cnt_spare r X p : cnt (spare r X) p ≤ cnt X p.
Proof. unfold cnt. apply inj_le, map_subseteq_size, map_filter_subseteq_mono. apply map_filter_subseteq. Qed.

(** With no leaf entries of [r], its tables can be counted as held by hand. *)
Lemma detach own D M l s r : nonneg own → vm_inv own D M l s → D !! (r, []) = Some r →
  (∀ k, k.1 = r → M !! k = None) → vm_inv (held own (tabs D r 2 [])) (spare r D) M l s.
Proof.
  intros Hnn HI Hr HM. assert (∀ path t, D !! (r, path) = Some t → t ∈ tabs D r 2 []) as Hall.
  { intros path t Ht. apply (tabs_all HI r 2 [] path t Ht). destruct path as [|i path _] using rev_ind; [simpl; lia|].
    destruct (po_up (vi_pt HI) r path i t Ht) as (_ & Hl & _). rewrite length_app. simpl. lia. }
  assert (∀ t, t ∈ tabs D r 2 [] → ∃ path, D !! (r, path) = Some t) as Hin by (intros t Ht; by apply (tabs_in D r 2 [])).
  destruct (HI) as [V1 V2 V3 V4 V5 V6]. split; [done|done|left; by apply nonneg_held| | |].
  - intros t Ht. rewrite V4 by done. unfold held. destruct (decide (t ∈ tabs D r 2 [])) as [Hi|Hn].
    + rewrite occ_nodup by (done || by apply (tabs_nodup HI)).
      destruct (Hin t Hi) as [path Hp]. destruct (V5 _ _ Hp) as [_ Hone]. rewrite V4 in Hone by done.
      destruct (table_excl HI _ _ Hp) as [Ho HcM]. rewrite (cnt_none (spare r D) t); [lia|].
      intros k Hk. rewrite spare_lookup in Hk. case_decide as Hd; [done|].
      pose proof (table_inj HI _ _ _ Hk Hp) as E. by subst.
    + rewrite (cnt_ext (spare r D) D t).
      * assert (count_occ Z.eq_dec (tabs D r 2 []) t = 0%nat) as ->; [|lia].
        apply count_occ_not_In. by rewrite <- list_elem_of_In.
      * intros [r' path]. rewrite spare_lookup. case_decide as Hd; [|done]. cbn in Hd. subst. split; [done|].
        intros Hk. by apply Hall in Hk.
  - intros k p Hk. rewrite spare_lookup in Hk. case_decide; [done|]. by apply V5 in Hk.
  - destruct V6 as [P1 P2 P3 P4 P5 P6]. split.
    + intros r' p Hp. rewrite spare_lookup in Hp. case_decide; [done|]. by apply P1.
    + intros r' path i q Hq. rewrite spare_lookup in *. cbn in *. case_decide; [done|]. by apply P2 in Hq.
    + intros r' path p i Hp. rewrite spare_lookup in *. cbn in *. case_decide; [done|]. by apply P3.
    + intros r' i j k p Hp. rewrite spare_lookup in Hp. cbn in Hp. case_decide; [done|]. by apply P4.
    + intros k pa Hk. destruct (P5 k pa Hk) as (r' & x & y & z & -> & Hz & Hs). exists r', x, y, z. split; [done|split; [done|]].
      rewrite spare_lookup. cbn. case_decide as Hd; [|done]. subst. by rewrite HM in Hk.
    + intros r' i q Hq. rewrite spare_lookup in Hq. case_decide; [done|]. by apply P6 in Hq.
Qed.

(** ** uvmfree *)

(** The address space [r] has pages of its own on [0, sz) and no other entry. *)
Record user_space D M s r sz : Prop := UserSpace {
  us_root : D !! (r, []) = Some r;
  us_size : 0 ≤ sz ≤ MAXVA;
  us_all : all_owned r 0 (Z.to_nat (PGROUNDUP sz / 4096)) M;
  us_only : ∀ k, k.1 = r → is_Some (M !! k) → ∃ i, 0 ≤ i < PGROUNDUP sz / 4096 ∧ k = leaf r (i * 4096);
  us_clean : ∀ va, 0 ≤ va < MAXVA → M !! leaf r va = None → pte_at (k_mem s) r va = 0;
}.

(** What freeing the address space [r] leaves: its tables and mappings are gone
    from the invariant, so every page only it used is on the free list; every
    other address space is as it was. *)
Record space_freed own D M s r l' s' : Prop := SpaceFreed {
  sf_inv : vm_inv own (spare r D) (spare r M) l' s';
  sf_only : mem_only s s';
  sf_pte : ∀ r' va, r' ≠ r → 0 ≤ va < MAXVA → D !! (r', []) = Some r' → pte_at (k_mem s') r' va = pte_at (k_mem s) r' va;
  sf_mem : ∀ x, protected D s' x → k_mem s' x = k_mem s x;
}.

(** The address of an entry of a leaf table. *)
Lemma leaf_va i j k : 0 ≤ i < 256 → 0 ≤ j < 512 → 0 ≤ k < 512 →
  ∃ va, 0 ≤ va < MAXVA ∧ PX 2 va = i ∧ PX 1 va = j ∧ PX 0 va = k.
Proof.
  intros Hi Hj Hk. exists (i * 2 ^ 30 + j * 2 ^ 21 + k * 2 ^ 12). rewrite MAXVA_val, !PX_spec by lia. simpl Z.add. simpl Z.mul.
  change (2 ^ 38) with 274877906944. change (2 ^ 30) with 1073741824. change (2 ^ 21) with 2097152. change (2 ^ 12) with 4096.
  split_and!; zlia.
Qed.

Lemma spare_unmap r n M : 0 ≤ n → (∀ k, k.1 = r → is_Some (M !! k) → ∃ i, 0 ≤ i < n ∧ k = leaf r (i * 4096)) →
  unmap_keys r 0 (Z.to_nat n) M = spare r M.
Proof.
  intros Hn Ho. apply map_eq. intros k. rewrite spare_lookup. case_decide as Hd.
  - destruct (M !! k) as [pa|] eqn:Hk; [|by apply unmap_keys_none].
    destruct (Ho k Hd (mk_is_Some _ _ Hk)) as (i & Hi & ->).
    replace (i * 4096) with (0 + Z.of_nat (Z.to_nat i) * 4096) by lia. apply unmap_keys_in. lia.
  - apply unmap_keys_other. intros i Hi ->. by apply Hd.
Qed.

(** freewalk on an address space whose pages are unmapped. *)
Lemma freewalk_space own D M l s r e : nonneg own → vm_inv own D M l s → D !! (r, []) = Some r →
  (∀ k, k.1 = r → M !! k = None) → bare (D := D) (s := s) r →
  ∃ l' s', freewalk r e s = Ret () e s' ∧ space_freed own D M s r l' s' ∧ (length l ≤ length l')%nat.
Proof.
  intros Hnn HI Hr HM Hb. pose proof (tabs_nodup HI r 2 []) as HN.
  assert (∀ t, t ∈ tabs D r 2 [] → ∃ path, D !! (r, path) = Some t) as Hin by (intros t Ht; by apply (tabs_in D r 2 [])).
  destruct (freewalk_run (spare r D) M e 2 8 ltac:(lia) own l s r (tabs D r 2 []) Hnn (detach own D M l s r Hnn HI Hr HM))
    as (l' & s' & E & HI' & [Hmo Hmem] & Hl).
  { apply Forall_forall. intros t Ht. apply Hin in Ht as [path Hp]. by apply (table_page HI _ _ Hp). }
  { done. }
  { by apply (table_page HI _ _ Hr). }
  { by apply (tabs_subtree HI r 2 Hb [] r). }
  assert (spare r M = M) as EM.
  { apply map_eq. intros k. rewrite spare_lookup. case_decide as Hd; [|done]. by rewrite HM. }
  assert (∀ r' path t x, r' ≠ r → D !! (r', path) = Some t → t ≤ x < t + PGSIZE → k_mem s' x = k_mem s x) as Hother.
  { intros r' path t x Hne Ht Hx. apply Hmem. apply (pages_apart _ t); [by apply (table_page HI _ _ Ht)| | |done].
    - intros Hi. apply Hin in Hi as [path' Hp]. pose proof (table_inj HI _ _ _ Ht Hp) as E'. injection E' as E'. done.
    - apply Forall_forall. intros u Hu. apply Hin in Hu as [path' Hp]. by apply (table_page HI _ _ Hp). }
  exists l', s'. split_and!; [exact E| |done]. split; [by rewrite EM|done| |].
  - intros r' va Hne Hva Hr'. rewrite (pte_at_D HI') by (lia || by rewrite spare_other).
    rewrite (pte_at_D HI) by (lia || done). rewrite spare_other by done.
    destruct (D !! (r', [PX 2 va; PX 1 va])) as [t|] eqn:Ht; [|done]. apply ent_ext; [apply PX_range; lia|].
    intros x Hx. by apply (Hother r' [PX 2 va; PX 1 va] t).
  - intros x Hx. apply Hmem. intros t Ht. apply Hin in Ht as [path Hp]. pose proof (table_page HI _ _ Hp) as Hpt.
    destruct (Z.le_gt_cases t x), (Z.lt_ge_cases x (t + PGSIZE)); try lia. destruct (Hx t Hpt ltac:(lia)) as [_ Hd]. by apply Hd in Hp.
Qed.

(** The free pages, once the address space [r] is gone. *)
Lemma spare_free own D M l s r t : nonneg own → vm_inv own (spare r D) (spare r M) l s → page t →
  t ∈ l ↔ own t = 0 ∧ (∀ k, k.1 ≠ r → D !! k ≠ Some t) ∧ (∀ k, k.1 ≠ r → M !! k ≠ Some t).
Proof.
  intros Hnn F1 Ht.
  rewrite (ki_free _ _ (vi_kmem F1) t Ht), (vi_refs F1 t Ht). specialize (Hnn t).
  pose proof (cnt_nonneg (spare r D) t). pose proof (cnt_nonneg (spare r M) t). split.
  + intros Hz. split_and!; [lia|..]; intros k Hne Hk.
    * apply (cnt_zero (spare r D) t ltac:(lia) k). by rewrite spare_lookup, decide_False.
    * apply (cnt_zero (spare r M) t ltac:(lia) k). by rewrite spare_lookup, decide_False.
  + intros (Ho & HnD & HnM). rewrite Ho, !cnt_none; [done|..]; intros k Hk; rewrite spare_lookup in Hk; case_decide; try done.
    * by apply (HnM k).
    * by apply (HnD k).
Qed.

(** uvmfree of an address space whose pages cover its size frees the pages
    and then every table of the tree, returns without a panic, and leaves every
    other address space and every byte still in use as they were.  The invariant
    it leaves has no key of the address space, so a page that nothing else
    refers to is on the free list: nothing is leaked. *)
Theorem uvmfree_frees own D M l s r sz e : nonneg own → vm_inv own D M l s → user_space D M s r sz →
  ∃ l' s', uvmfree r sz e s = Ret () e s' ∧ space_freed own D M s r l' s' ∧
    (∀ t, page t → (t ∈ l' ↔ own t = 0 ∧ (∀ k, k.1 ≠ r → D !! k ≠ Some t) ∧ (∀ k, k.1 ≠ r → M !! k ≠ Some t))).
Proof.
  intros Hnn HI [Ur Us Ua Uo Uc]. set (n := PGROUNDUP sz / 4096) in *.
  pose proof (PGROUNDUP_bounds sz Us) as (Hal & Hge & Hmax). assert (0 ≤ n) as Hn by (unfold n; zlia).
  assert (PGROUNDUP sz = n * 4096) as En by (unfold n; zlia).
  assert (∃ l1 s1, when (0 <? sz) (uvmunmap r 0 n true) e s = Ret () e s1 ∧ vm_inv own D (spare r M) l1 s1 ∧
    shrinks (unmap_range r 0 n) D s s1) as (l1 & s1 & E1 & HI1 & Hsh).
  { destruct (Z.ltb_spec 0 sz); cbn [when].
    - destruct (uvmunmap_run r 0 n e own D M l s Hnn HI Ur) as (l1 & s1 & E1 & HI1 & Hsh & _); [lia|done|lia|lia|done|].
      rewrite (spare_unmap r n M Hn Uo) in HI1. by exists l1, s1.
    - assert (n = 0) as Ez by (rewrite En in Hge; lia). exists l, s. rewrite <- (spare_unmap r n M Hn Uo), Ez. split_and!; [done|done|].
      apply shrinks_none. }
  destruct Hsh as [Smo Srf Smem Spte].
  assert (∀ k, k.1 = r → spare r M !! k = None) as HM1 by (intros k Hk; rewrite spare_lookup; by rewrite decide_True).
  destruct (freewalk_space own D (spare r M) l1 s1 r e Hnn HI1 Ur HM1) as (l2 & s2 & E2 & [F1 F2 F3 F4] & _).
  { intros i j p k Hp Hk. destruct (po_up (vi_pt HI) r [i] j p Hp) as (Hj & _ & [q Hq]).
    destruct (po_up (vi_pt HI) r [] i q Hq) as (Hi & _ & _). pose proof (po_low (vi_pt HI) r i q Hq).
    destruct (leaf_va i j k ltac:(lia) Hj Hk) as (va & Hva & V2 & V1 & V0).
    pose proof (pte_at_D HI1 r va ltac:(lia) Ur) as Ep. rewrite V2, V1, V0, Hp in Ep. rewrite <- Ep, Spte by done.
    destruct (M !! leaf r va) as [pa|] eqn:HMk.
    - destruct (Uo (leaf r va) eq_refl (mk_is_Some _ _ HMk)) as (x & Hx & Ex). apply leaf_eq in Ex as [_ Ex]; [|lia|lia].
      unfold unmap_range. rewrite Z.eqb_refl. replace (0 / 4096) with 0 by done.
      destruct (Z.leb_spec 0 (va / 4096 - 0)), (Z.ltb_spec (va / 4096 - 0) n); try done; zlia.
    - rewrite Uc by done. unfold unmap_range. by destruct (_ && _). }
  assert (spare r (spare r M) = spare r M) as EM.
  { apply map_eq. intros k. rewrite !spare_lookup. by case_decide. }
  rewrite EM in F1. exists l2, s2. split_and!.
  - unfold uvmfree. change PGSIZE with 4096. fold n. by run E1.
  - split; [done|by eapply mem_only_trans; [apply (vi_ready HI)|..]| |].
    + intros r' va Hne Hva Hr'. rewrite F3, Spte by done. unfold unmap_range. by destruct (Z.eqb_spec r' r).
    + intros x Hx. rewrite F4 by done. apply Smem. intros p Hp Hin. destruct (Hx p Hp Hin) as [H1 H2]. split; [|done].
      rewrite (vi_refs F1 p Hp) in H1. rewrite (vi_refs HI1 p Hp). pose proof (cnt_nonneg D p).
      assert (cnt (spare r D) p = 0) as Ec; [|lia]. apply cnt_none. intros k Hk. rewrite spare_lookup in Hk.
      case_decide; [done|]. by apply (H2 k).
  - intros t Ht. by apply (spare_free own D M l2 s2 r t Hnn F1).
Qed.
End Free.
