(* ===== verification/ProcBase.v ===== *)
(** * ProcBase: processes, sleeping and waking (kernel/proc.c)

    The part of proc.c the other components are built on: the current process,
    switching to the scheduler ([sched], [yield]), [sleep] and [wakeup],
    killing, copying to and from "either" address space, the accounting done
    at every tick, tickets and the pseudo-random generator.

    [swtch] hands the hart to another kernel thread; what happens until this
    thread is switched back to is one step of the environment, and the thread
    may come back on another hart. *)

From S2P Require Import Prelude Params CString State Spinlock PhysMem Kalloc Vm.

(** ** The process table *)

(** Read and write a field of [proc[i]]; a null [struct proc *] is [None]. *)
Definition pget {A} (i : nat) (f : proc → A) : K A :=
  ps ← gets k_procs;
  match ps !! i with Some p => mret (f p) | None => fault "proc" end.
Definition pset (i : nat) (g : proc → proc) : K () :=
  ps ← gets k_procs;
  check (bool_decide (i < length ps)%nat) "proc";;
  modify (λ s, s <| k_procs ::= alter g i |>).
Definition deref {A} (p : option A) : K A :=
  match p with Some i => mret i | None => fault "null" end.

Definition procs : list nat := seq 0 NPROC.

Definition procinit : K () :=
  initlock LPid;;
  initlock LWait;;
  foreach procs (λ p,
    initlock (LProc p);;
    pset p (λ q, q <| p_state := UNUSED |>);;
    pset p (λ q, q <| p_kstack := KSTACK (Z.of_nat p) |>)).

Definition myproc : K (option nat) :=
  push_off;;
  p ← read_cpu c_proc;
  pop_off;;
  mret p.

Definition allocpid : K Z :=
  acquire LPid;;
  pid ← gets k_nextpid;
  modify (λ s, s <| k_nextpid := i32 (pid + 1) |>);;
  release LPid;;
  mret pid.

(** ** Switching *)

Definition swtch : K () := interfere.

Definition sched : K () :=
  p ← myproc;
  p ← deref p;
  h ← holding (LProc p);
  panic_if (negb h) "sched p->lock";;
  noff ← read_cpu c_noff;
  panic_if (negb (noff =? 1)) "sched locks";;
  st ← pget p p_state;
  panic_if (bool_decide (st = RUNNING)) "sched running";;
  on ← intr_get;
  panic_if on "sched interruptible";;
  intena ← read_cpu c_intena;
  swtch;;
  write_cpu (λ c, c <| c_intena := intena |>).

Definition yield : K () :=
  p ← myproc;
  p ← deref p;
  acquire (LProc p);;
  pset p (λ q, q <| p_state := RUNNABLE |>);;
  sched;;
  release (LProc p).

Definition sleep (ch : chan) (lk : lockid) : K () :=
  p ← myproc;
  p ← deref p;
  acquire (LProc p);;
  release lk;;
  pset p (λ q, q <| p_chan := Some ch |>);;
  pset p (λ q, q <| p_state := SLEEPING |>);;
  sched;;
  pset p (λ q, q <| p_chan := None |>);;
  release (LProc p);;
  acquire lk.

Definition wakeup (ch : chan) : K () :=
  foreach procs (λ p,
    me ← myproc;
    when (bool_decide (me ≠ Some p)) (
      acquire (LProc p);;
      st ← pget p p_state;
      pch ← pget p p_chan;
      when (bool_decide (st = SLEEPING) && bool_decide (pch = Some ch))
        (pset p (λ q, q <| p_state := RUNNABLE |>));;
      release (LProc p))).

(** ** Killing *)

Definition kill (pid : Z) : K Z :=
  r ← scan procs (λ p,
    acquire (LProc p);;
    pid' ← pget p p_pid;
    if pid' =? pid then
      pset p (λ q, q <| p_killed := 1 |>);;
      st ← pget p p_state;
      when (bool_decide (st = SLEEPING)) (pset p (λ q, q <| p_state := RUNNABLE |>));;
      release (LProc p);;
      mret (Some 0)
    else
      release (LProc p);;
      mret None);
  mret (default (-1) r).

Definition setkilled (p : nat) : K () :=
  acquire (LProc p);;
  pset p (λ q, q <| p_killed := 1 |>);;
  release (LProc p).

Definition killed (p : nat) : K Z :=
  acquire (LProc p);;
  k ← pget p p_killed;
  release (LProc p);;
  mret k.

(** ** Copying to or from a user or kernel address

    A destination is a user address, a kernel address in RAM, or a variable of
    the calling C function; in the last case the caller is given the bytes
    that were copied. *)

Inductive dest := UserDst (va : Z) | KernDst (pa : Z) | LocalDst.
Inductive source := UserSrc (va : Z) | LocalSrc (bytes : list Z).

Section Either.
Context `{!Image}.

Definition either_copyout (dst : dest) (src : list Z) : K Z :=
  p ← myproc;
  match dst with
  | UserDst va =>
      p ← deref p;
      pagetable ← pget p p_pagetable;
      copyout pagetable va src
  | KernDst pa => put_bytes pa src;; mret 0
  | LocalDst => mret 0
  end.

Definition either_copyin (src : source) (len : Z) : K (Z * list Z) :=
  p ← myproc;
  match src with
  | UserSrc va =>
      p ← deref p;
      pagetable ← pget p p_pagetable;
      copyin pagetable va len
  | LocalSrc bytes => mret (0, take (Z.to_nat len) bytes)
  end.
End Either.

(** ** Accounting and priorities *)

Definition totalTickets : K Z :=
  ps ← gets k_procs;
  mret (foldl (λ total p, if bool_decide (p_state p = RUNNABLE) then i32 (total + p_tickets p) else total)
          0 (take NPROC ps)).

(** [a[i]++] on an int array of the C source. *)
Definition incr_at (i : Z) (l : list Z) : list Z := alter (λ x, i32 (x + 1)) (Z.to_nat i) l.

Definition update_time : K () :=
  foreach procs (λ p,
    acquire (LProc p);;
    st ← pget p p_state;
    when (bool_decide (st = RUNNING) || bool_decide (st = SLEEPING) || bool_decide (st = RUNNABLE)) (
      qpos ← pget p p_queue_position;
      check ((0 <=? qpos) && (qpos <? 5)) "queue_time";;
      pset p (λ q, q <| p_queue_time ::= incr_at qpos |>));;
    when (bool_decide (st = SLEEPING) || bool_decide (st = RUNNABLE))
      (pset p (λ q, q <| p_curr_wait_time ::= λ x, u64 (x + 1) |>));;
    (if bool_decide (st = RUNNING) then pset p (λ q, q <| p_rtime ::= λ x, u32 (x + 1) |>)
     else when (bool_decide (st = SLEEPING)) (pset p (λ q, q <| p_stime ::= λ x, u32 (x + 1) |>)));;
    release (LProc p)).

(** The body of the while loop returns in its first iteration. *)
Definition set_static_priority (priority pid : Z) : K Z :=
  let set_prio (q : proc) :=
    q <| p_niceness := 5 |> <| p_rtime := 0 |> <| p_stime := 0 |> <| p_static_priority := priority |> in
  r ← scan procs (λ p,
    me ← myproc;
    old_priority ←
      (if bool_decide (me ≠ Some p) then
         old ← pget p p_static_priority;
         acquire (LProc p);;
         pid' ← pget p p_pid;
         when (pid' =? pid) (pset p set_prio);;
         release (LProc p);;
         mret old
       else
         pid' ← pget p p_pid;
         if pid' =? pid then
           old ← pget p p_static_priority;
           pset p set_prio;;
           mret old
         else mret 0);
    when (priority <? old_priority) yield;;
    mret (Some old_priority));
  mret (default 0 r).

Definition max (a b : Z) : Z := if b <? a then a else b.
Definition min (a b : Z) : Z := if a <? b then a else b.

(** The arithmetic of [get_dynamic_priority]: [stime / (rtime + stime) * 10] in
    32-bit unsigned arithmetic, the rest in 64-bit unsigned arithmetic. *)
Definition niceness_of (rtime stime : Z) : Z :=
  if rtime =? 0 then 5 else u32 (stime / u32 (rtime + stime) * 10).
Definition dynamic_priority (static_priority niceness : Z) : Z :=
  max 0 (min (u64 (u64 (u64 static_priority - niceness) + 5)) 100).

Definition get_dynamic_priority (p : nat) : K Z :=
  rtime ← pget p p_rtime;
  stime ← pget p p_stime;
  check ((rtime =? 0) || negb (u32 (rtime + stime) =? 0)) "division";;
  let niceness := niceness_of rtime stime in
  pset p (λ q, q <| p_niceness := i32 niceness |>);;
  static_priority ← pget p p_static_priority;
  mret (dynamic_priority static_priority niceness).

(** ** Tickets and the pseudo-random generator *)

(** The linear-feedback shift register: [bit] and the next [lfsr]. *)
Definition lfsr_bit (lfsr : Z) : Z :=
  Z.land (Z.lxor (Z.lxor (Z.lxor lfsr (Z.shiftr lfsr 2)) (Z.shiftr lfsr 3)) (Z.shiftr lfsr 5)) 1.
Definition lfsr_next (lfsr : Z) : Z :=
  u16 (Z.lor (Z.shiftr lfsr 1) (u32 (Z.shiftl (lfsr_bit lfsr) 15))).

Definition random : K Z :=
  lfsr ← gets k_lfsr;
  modify (λ s, s <| k_bit := lfsr_bit lfsr |>);;
  modify (λ s, s <| k_lfsr := lfsr_next lfsr |>);;
  mret (lfsr_next lfsr).

Definition settickets (n : Z) : K () :=
  me ← myproc;
  me ← deref me;
  pset me (λ q, q <| p_tickets := n |>);;
  scan procs (λ p,
    pid ← pget p p_pid;
    me ← myproc;
    me ← deref me;
    mypid ← pget me p_pid;
    if pid =? mypid then pset p (λ q, q <| p_tickets := n |>);; mret (Some ()) else mret None);;
  mret ().

(** ** procdump *)

Definition state_name (st : procstate) : string :=
  match st with
  | UNUSED => "unused" | USED => "used" | SLEEPING => "sleep " | RUNNABLE => "runble"
  | RUNNING => "run   " | ZOMBIE => "zombie"
  end.

Definition procdump : K () :=
  printk nl [];;
  foreach procs (λ p,
    st ← pget p p_state;
    when (negb (bool_decide (st = UNUSED))) (
      pid ← pget p p_pid;
      name ← pget p p_name;
      printk "%d %s %s" [PInt pid; PStr (bytes_of (state_name st)); PStr name];;
      printk nl [])).

(** ** Running the accessors *)

(** The machine of an updated state. *)
Ltac mach_eq := unfold set; cbn [k_mach]; reflexivity.

Section Run.
Implicit Types (s : kstate) (e : env) (m : machine).

Lemma pget_run {A} i (f : proc → A) p e s :
  k_procs s !! i = Some p → pget i f e s = Ret (f p) e s.
Proof. intros H. unfold pget. krun. by rewrite H. Qed.

Lemma pset_run i g e s :
  (i < length (k_procs s))%nat → pset i g e s = Ret () e (s <| k_procs ::= alter g i |>).
Proof. intros H. unfold pset. krun. by rewrite bool_decide_true. Qed.

Lemma myproc_run e s : wf_mach (k_mach s) →
  myproc e s = Ret (c_proc (cpu_of (k_mach s))) e (s <| k_mach ::= settle |>).
Proof.
  intros Hwf. unfold myproc. run (push_off_Ret e s Hwf). krun.
  assert (0 < c_noff (cpu_of (mpush (k_mach s)))) as Hn.
  { rewrite mpush_noff by done. destruct Hwf as (_&_&?&_). lia. }
  erewrite bind_Ret; [|apply pop_off_Ret; [by apply wf_mpush|exact Hn]].
  krun. f_equal.
  - rewrite mpush_cpu by done. by destruct (_ =? 0).
  - apply k_mach_ext. by apply mpop_mpush.
Qed.

(** Inside a critical section [myproc] changes nothing. *)
Lemma myproc_nested e s : wf_mach (k_mach s) → 0 < c_noff (cpu_of (k_mach s)) →
  myproc e s = Ret (c_proc (cpu_of (k_mach s))) e s.
Proof.
  intros Hwf Hn. rewrite myproc_run by done. f_equal. unfold set. rewrite settle_nested by done.
  by destruct s.
Qed.
End Run.

(** ** Passes over the process table *)

(** The hart can take the lock of every process. *)
Record proc_ready (s : kstate) : Prop := ProcReady {
  pr_wf : wf_mach (k_mach s);
  pr_free : ∀ i, (i < NPROC)%nat → lock_free (LProc i) (k_mach s);
  pr_len : length (k_procs s) = NPROC;
}.

Section Passes.
Implicit Types (s t : kstate) (e : env).

Lemma proc_ready_settle s : proc_ready s → proc_ready (s <| k_mach ::= settle |>).
Proof. intros [Hw Hf Hl]. split; cbn; [by apply wf_settle|intros; by apply settle_free, Hf|done]. Qed.

Lemma proc_ready_procs s f :
  proc_ready s → length (f (k_procs s)) = length (k_procs s) → proc_ready (s <| k_procs ::= f |>).
Proof. intros [Hw Hf Hl] He. split; [done|done|]. by rewrite <- Hl, <- He. Qed.

Lemma proc_lookup s i : proc_ready s → (i < NPROC)%nat → ∃ p, k_procs s !! i = Some p.
Proof. intros [_ _ Hl] Hi. apply lookup_lt_is_Some. by rewrite Hl. Qed.

Lemma proc_lt s i : proc_ready s → (i < NPROC)%nat → (i < length (k_procs s))%nat.
Proof. intros [_ _ ->]. done. Qed.

(** Inside a critical section on [proc[i]->lock] entered from [s], when the
    process has been transformed by [g]. *)
Definition crit (i : nat) (g : proc → proc) (s : kstate) : kstate :=
  s <| k_mach ::= mlock (LProc i) |> <| k_procs ::= alter g i |>.

Lemma alter_agree (f g : proc → proc) (i : nat) (l : list proc) q :
  l !! i = Some q → f q = g q → alter f i l = alter g i l.
Proof.
  intros Hq He. apply list_eq. intros j. destruct (decide (i = j)) as [<-|Hn].
  - rewrite !list_lookup_alter_eq, Hq. cbn. by rewrite He.
  - by rewrite !list_lookup_alter_ne.
Qed.

Lemma alter_noop (f : proc → proc) (i : nat) (l : list proc) q :
  l !! i = Some q → f q = q → alter f i l = l.
Proof.
  intros Hq He. apply list_eq. intros j. destruct (decide (i = j)) as [<-|Hn].
  - by rewrite list_lookup_alter_eq, Hq; cbn; rewrite He.
  - by rewrite list_lookup_alter_ne.
Qed.

Lemma set_procs_id s f : f (k_procs s) = k_procs s → s <| k_procs ::= f |> = s.
Proof. intros H. unfold set. rewrite H. by destruct s. Qed.

Lemma k_procs_alter_len s g i : length (k_procs (s <| k_procs ::= alter g i |>)) = length (k_procs s).
Proof. unfold set. cbn. apply length_alter. Qed.

Lemma k_procs_alter_ne s g i j : j ≠ i → k_procs (s <| k_procs ::= alter g i |>) !! j = k_procs s !! j.
Proof. intros. unfold set. cbn. by rewrite list_lookup_alter_ne. Qed.

Lemma k_procs_alter_eq s g i q :
  k_procs s !! i = Some q → k_procs (s <| k_procs ::= alter g i |>) !! i = Some (g q).
Proof. intros Hq. unfold set. cbn. by rewrite list_lookup_alter_eq, Hq. Qed.

Lemma k_procs_upd2 f g s : s <| k_procs ::= f |> <| k_procs ::= g |> = s <| k_procs ::= λ l, g (f l) |>.
Proof. done. Qed.

Lemma acquire_crit i e s :
  proc_ready s → (i < NPROC)%nat → acquire (LProc i) e s = Ret () e (crit i (λ q, q) s).
Proof.
  intros Hr Hi. destruct (proc_lookup s i Hr Hi) as [q Hq]. destruct Hr as [Hw Hf _].
  rewrite acquire_free by auto. f_equal. unfold crit. rewrite set_procs_id; [done|].
  by apply (alter_noop _ _ _ q).
Qed.

Lemma pget_crit {A} i (f : proc → A) g q e s :
  k_procs s !! i = Some q → pget i f e (crit i g s) = Ret (f (g q)) e (crit i g s).
Proof. intros Hq. apply pget_run. unfold crit, set. cbn. by rewrite list_lookup_alter_eq, Hq. Qed.

Lemma pset_crit i h g q e s :
  k_procs s !! i = Some q → pset i h e (crit i g s) = Ret () e (crit i (λ x, h (g x)) s).
Proof.
  intros Hq. rewrite pset_run.
  - f_equal. unfold crit, set. cbn. by rewrite alter_alter.
  - unfold crit, set. cbn. rewrite length_alter. by eapply lookup_lt_Some.
Qed.

Lemma release_crit i g h q e s :
  proc_ready s → (i < NPROC)%nat → k_procs s !! i = Some q → g q = h q →
  release (LProc i) e (crit i g s)
    = Ret () e (s <| k_mach ::= settle |> <| k_procs ::= alter h i |>).
Proof.
  intros [Hw Hf _] Hi Hq Hg. rewrite (release_after _ _ _ (k_mach s)); [|mach_eq|done|by apply Hf].
  f_equal. unfold crit, set. cbn. by rewrite (alter_agree g h i _ q).
Qed.

Lemma alter_prefix (h : nat → proc → proc) n ps :
  (n < length ps)%nat →
  alter (h n) n (imap h (take n ps) ++ drop n ps) = imap h (take (S n) ps) ++ drop (S n) ps.
Proof.
  intros Hn. destruct (lookup_lt_is_Some_2 ps n Hn) as [x Hx].
  rewrite (take_S_r _ _ _ Hx), imap_app, (drop_S _ _ _ Hx), <- app_assoc. cbn.
  assert (length (imap h (take n ps)) = n) as Hk by (rewrite length_imap, length_take; lia).
  rewrite alter_app_r_alt by lia. rewrite Hk, Nat.sub_diag. cbn.
  rewrite length_take_le by lia. by rewrite Nat.add_0_r.
Qed.

(** A loop over the table whose body, at index [i], applies [h i] to [proc[i]]. *)
Lemma foreach_procs (body : nat → K ()) (h : nat → proc → proc) e s :
  proc_ready s →
  (∀ i t, proc_ready t → (i < NPROC)%nat → k_procs t !! i = k_procs s !! i →
     c_proc (cpu_of (k_mach t)) = c_proc (cpu_of (k_mach s)) →
     body i e t = Ret () e (t <| k_mach ::= settle |> <| k_procs ::= alter (h i) i |>)) →
  foreach procs body e s = Ret () e (s <| k_mach ::= settle |> <| k_procs ::= imap h |>).
Proof.
  intros Hr Hb. pose proof Hr as [Hw Hf Hl].
  assert (∀ k n t, (n + k = NPROC)%nat →
    k_mach t = (if decide (n = 0)%nat then k_mach s else settle (k_mach s)) →
    k_procs t = imap h (take n (k_procs s)) ++ drop n (k_procs s) →
    t = s <| k_mach := k_mach t |> <| k_procs := k_procs t |> →
    foreach (seq n k) body e t
      = Ret () e (s <| k_mach := if decide (NPROC = 0)%nat then k_mach s else settle (k_mach s) |>
                    <| k_procs ::= imap h |>)) as Hloop.
  { induction k as [|k IH]; intros n t Hn Hm Hps Ht.
    - replace n with NPROC in * by lia. cbn [seq foreach]. krun. f_equal. rewrite Ht, Hm, Hps.
      rewrite take_ge, drop_ge, app_nil_r by lia. done.
    - assert (proc_ready t) as Hrt.
      { split; rewrite ?Hm, ?Hps.
        - case_decide; [done|by apply wf_settle].
        - intros i Hi. case_decide; [by apply Hf|by apply settle_free, Hf].
        - rewrite length_app, length_imap, length_take, length_drop. lia. }
      cbn [seq foreach]. erewrite bind_Ret; [|apply Hb; [done|lia| |]].
      + apply IH; [lia| | |].
        * change (settle (k_mach t) = settle (k_mach s)). rewrite Hm.
          case_decide; [done|by apply settle_settle].
        * change (alter (h n) n (k_procs t) = imap h (take (S n) (k_procs s)) ++ drop (S n) (k_procs s)).
          rewrite Hps. apply alter_prefix. lia.
        * rewrite Ht. done.
      + rewrite Hps, lookup_app_r; rewrite length_imap, length_take; [|lia].
        rewrite lookup_drop. f_equal. lia.
      + rewrite Hm. case_decide; [done|by apply settle_proc]. }
  apply (Hloop NPROC 0%nat); [done|done| |by destruct s].
  by rewrite take_0, drop_0.
Qed.
End Passes.

(** ** wakeup and update_time *)

(** What [wakeup(ch)], called by process [me], does to process [i]. *)
Definition woken (me : option nat) (ch : chan) (i : nat) (q : proc) : proc :=
  if decide (me ≠ Some i ∧ p_state q = SLEEPING ∧ p_chan q = Some ch)
  then q <| p_state := RUNNABLE |> else q.

(** What a clock tick does to a process. *)
Definition ticked (q : proc) : proc :=
  match p_state q with
  | RUNNING => q <| p_queue_time ::= incr_at (p_queue_position q) |> <| p_rtime ::= λ x, u32 (x + 1) |>
  | SLEEPING => q <| p_queue_time ::= incr_at (p_queue_position q) |>
                  <| p_curr_wait_time ::= λ x, u64 (x + 1) |> <| p_stime ::= λ x, u32 (x + 1) |>
  | RUNNABLE => q <| p_queue_time ::= incr_at (p_queue_position q) |>
                  <| p_curr_wait_time ::= λ x, u64 (x + 1) |>
  | _ => q
  end.

(** The scheduling queue of a live process is one of the five. *)
Definition queue_ok (q : proc) : Prop :=
  p_state q = RUNNING ∨ p_state q = SLEEPING ∨ p_state q = RUNNABLE →
  0 ≤ p_queue_position q < 5.

Section WakeTick.
Implicit Types (s t : kstate) (e : env).

Lemma wakeup_run ch e s : proc_ready s →
  wakeup ch e s = Ret () e (s <| k_mach ::= settle |>
    <| k_procs ::= imap (woken (c_proc (cpu_of (k_mach s))) ch) |>).
Proof.
  intros Hr. unfold wakeup. apply foreach_procs; [done|].
  intros i t Ht Hi _ Hme. run (myproc_run e t (pr_wf t Ht)). krun.
  destruct (proc_lookup t i Ht Hi) as [q Hq]. rewrite Hme.
  pose proof (proc_ready_settle t Ht) as Ht'.
  destruct (bool_decide (c_proc (cpu_of (k_mach s)) ≠ Some i)) eqn:Ed; breflect.
  - run (acquire_crit i e _ Ht' Hi). do 2 (erewrite bind_Ret by (by apply (pget_crit i _ _ q))). krun.
    assert (∀ g, g q = woken (c_proc (cpu_of (k_mach s))) ch i q →
      release (LProc i) e (crit i g (t <| k_mach ::= settle |>)) =
      Ret () e (t <| k_mach ::= settle |>
                  <| k_procs ::= alter (woken (c_proc (cpu_of (k_mach s))) ch i) i |>)) as Hrel.
    { intros g Hg. rewrite (release_crit i g _ q e _ Ht' Hi Hq Hg). rewrite k_mach_upd2.
      f_equal. unfold set. by rewrite (settle_settle _ (pr_wf t Ht)). }
    unfold woken in *. destruct (_ && _) eqn:Ec; breflect.
    + erewrite bind_Ret by (by apply (pset_crit i _ _ q)). apply Hrel. by rewrite decide_True.
    + apply Hrel. rewrite decide_False; [done|]. intros (_ & ? & ?). destruct Ec; by breflect.
  - f_equal. symmetry. apply set_procs_id, (alter_noop _ _ _ q Hq).
    unfold woken. rewrite decide_False; [done|]. naive_solver.
Qed.

Lemma update_time_run e s : proc_ready s → Forall queue_ok (k_procs s) →
  update_time e s = Ret () e (s <| k_mach ::= settle |> <| k_procs ::= imap (λ _, ticked) |>).
Proof.
  intros Hr Hq. unfold update_time. apply foreach_procs; [done|].
  intros i t Ht Hi Hsame _. destruct (proc_lookup t i Ht Hi) as [q Hqi].
  assert (queue_ok q) as Hok by (rewrite Forall_lookup in Hq; apply (Hq i); by rewrite <- Hsame).
  run (acquire_crit i e t Ht Hi). erewrite bind_Ret by (by apply (pget_crit i _ _ q)). krun.
  assert (p_state q = RUNNING ∨ p_state q = SLEEPING ∨ p_state q = RUNNABLE →
    (0 <=? p_queue_position q) && (p_queue_position q <? 5) = true) as Hb.
  { intros Hs. specialize (Hok Hs). apply andb_true_iff. split; [apply Z.leb_le|apply Z.ltb_lt]; lia. }
  destruct (p_state q) eqn:Es;
    repeat (rewrite bool_decide_true by done || rewrite bool_decide_false by done); cbn [orb];
    krun; repeat (erewrite bind_Ret by (by apply (pget_crit i _ _ q)); krun);
    rewrite ?Hb by auto;
    repeat (erewrite bind_Ret by (by apply (pset_crit i _ _ q)); krun);
    (eapply release_crit; [done|done|done|]; unfold ticked; by rewrite Es).
Qed.
End WakeTick.

(** ** sleep *)

(** Process [p] calls [sleep] on this hart, holding [lk] and nothing else. *)
Record can_sleep (p : nat) (lk : lockid) (s : kstate) : Prop := CanSleep {
  cs_wf : wf_mach (k_mach s);
  cs_noff : c_noff (cpu_of (k_mach s)) = 1;
  cs_proc : c_proc (cpu_of (k_mach s)) = Some p;
  cs_lt : (p < length (k_procs s))%nat;
  cs_held : m_locks (k_mach s) !! lk = Some (m_tp (k_mach s));
  cs_free : lock_free (LProc p) (k_mach s);
}.

(** The state in which [sleep] gives up the hart. *)
Definition asleep (p : nat) (ch : chan) (lk : lockid) (s : kstate) : kstate :=
  s <| k_mach ::= λ m, munlock lk (mlock (LProc p) m) |>
    <| k_procs ::= alter (λ q, q <| p_chan := Some ch |> <| p_state := SLEEPING |>) p |>.

(** Process [p] is switched to again: it runs on some hart, holding its own
    lock and nothing else, and [lk] is free. *)
Record resumed (p : nat) (lk : lockid) (s : kstate) : Prop := Resumed {
  re_wf : wf_mach (k_mach s);
  re_noff : c_noff (cpu_of (k_mach s)) = 1;
  re_lt : (p < length (k_procs s))%nat;
  re_held : m_locks (k_mach s) !! LProc p = Some (m_tp (k_mach s));
  re_free : lock_free lk (k_mach s);
}.

Section Sleep.
Implicit Types (s t : kstate) (e : env) (m : machine).

Lemma can_sleep_ne p lk s : can_sleep p lk s → lk ≠ LProc p.
Proof. intros [] ->. unfold lock_free in *. congruence. Qed.

Lemma wf_upd_cpu f m : wf_mach m → c_noff (f (cpu_of m)) = c_noff (cpu_of m) → wf_mach (upd_cpu f m).
Proof.
  intros (Ht & Hc & H0 & Hi) Hf. unfold wf_mach. rewrite cpu_of_upd_cpu, Hf by done.
  split_and!; try done. unfold upd_cpu, set. cbn [m_tp m_cpus]. by rewrite length_alter.
Qed.

(** What is known of the hart in the state [asleep]. *)
Lemma asleep_mach p ch lk s :
  can_sleep p lk s →
  let m := k_mach (asleep p ch lk s) in
  wf_mach m ∧ c_noff (cpu_of m) = 1 ∧ c_proc (cpu_of m) = Some p ∧ m_tp m = m_tp (k_mach s) ∧
  m_locks m = delete lk (<[LProc p := m_tp (k_mach s)]> (m_locks (k_mach s))).
Proof.
  intros [Hw Hn Hp Hlt Hh Hf]. cbv zeta.
  change (k_mach (asleep p ch lk s)) with (munlock lk (mlock (LProc p) (k_mach s))).
  pose proof (mlock_noff (LProc p) _ Hw) as Hn1. pose proof (wf_mlock (LProc p) _ Hw) as Hw1.
  rewrite munlock_tp, munlock_locks, munlock_cpu by done.
  split_and!; [apply wf_munlock; [done|lia]| | |done|done].
  - change (c_noff (cpu_of (mlock (LProc p) (k_mach s))) - 1 = 1). lia.
  - change (c_proc (cpu_of (mlock (LProc p) (k_mach s))) = Some p). by rewrite mlock_proc.
Qed.

(** The first half: up to the switch. *)
Lemma sleep_switch p ch lk e s :
  can_sleep p lk s →
  sleep ch lk e s = (swtch;; write_cpu (λ c, c <| c_intena := c_intena (cpu_of (k_mach (asleep p ch lk s))) |>);;
    pset p (λ q, q <| p_chan := None |>);; release (LProc p);; acquire lk) e (asleep p ch lk s).
Proof.
  intros Hcs. pose proof (can_sleep_ne _ _ _ Hcs) as Hne.
  pose proof (asleep_mach p ch lk s Hcs) as (Hw2 & Hn2 & Hp2 & Ht2 & Hl2).
  destruct Hcs as [Hw Hn Hp Hlt Hh Hf]. unfold sleep.
  erewrite bind_Ret; [|apply myproc_nested; [done|lia]]. rewrite Hp. cbn [deref]. krun.
  run (acquire_free (LProc p) e s Hw Hf).
  erewrite bind_Ret; [|apply release_held].
  2: { by apply wf_mlock. }
  2: { change (0 < c_noff (cpu_of (mlock (LProc p) (k_mach s)))). rewrite mlock_noff by done. lia. }
  2: { change (m_locks (mlock (LProc p) (k_mach s)) !! lk = Some (m_tp (k_mach s))).
       rewrite mlock_locks. by rewrite lookup_insert_ne. }
  erewrite bind_Ret; [|apply pset_run; exact Hlt].
  erewrite bind_Ret; [|apply pset_run; rewrite k_procs_alter_len; exact Hlt].
  rewrite k_mach_upd2, k_procs_upd2.
  match goal with |- _ e ?t = _ => assert (t = asleep p ch lk s) as -> end.
  { unfold asleep, set. cbn. by rewrite alter_alter. }
  destruct (lookup_lt_is_Some_2 _ _ Hlt) as [q Hq].
  assert (k_procs (asleep p ch lk s) !! p = Some (q <| p_chan := Some ch |> <| p_state := SLEEPING |>)) as Hq'.
  { unfold asleep, set. cbn. by rewrite list_lookup_alter_eq, Hq. }
  unfold sched. krun.
  erewrite bind_Ret; [|apply myproc_nested; [done|lia]]. rewrite Hp2. cbn [deref]. krun.
  rewrite bool_decide_true.
  2: { by rewrite Hl2, Ht2, lookup_delete_ne, lookup_insert_eq. }
  cbn [negb]. krun. rewrite Hn2. cbn [Z.eqb Pos.eqb negb]. krun.
  erewrite bind_Ret by (by apply pget_run). krun. rewrite bool_decide_false by done. krun.
  destruct Hw2 as (_ & _ & _ & Hi). rewrite Hi by lia. krun. done.
Qed.

(** The second half: from the switch back to the return. *)
Lemma sleep_resume p lk i e t :
  resumed p lk t → lk ≠ LProc p →
  (write_cpu (λ c, c <| c_intena := i |>);;
   pset p (λ q, q <| p_chan := None |>);; release (LProc p);; acquire lk) e t
  = Ret () e (t <| k_mach ::= λ m, mlock lk (munlock (LProc p) (upd_cpu (λ c, c <| c_intena := i |>) m)) |>
                <| k_procs ::= alter (λ q, q <| p_chan := None |>) p |>).
Proof.
  intros [Hw Hn Hlt Hh Hf] Hne. krun.
  set (m1 := upd_cpu (λ c, c <| c_intena := i |>) (k_mach t)).
  assert (wf_mach m1) as Hw1 by (by apply wf_upd_cpu).
  assert (c_noff (cpu_of m1) = 1) as Hn1.
  { unfold m1. rewrite cpu_of_upd_cpu by apply Hw. done. }
  erewrite bind_Ret; [|apply pset_run; exact Hlt].
  erewrite bind_Ret; [|apply release_held; [exact Hw1| |exact Hh]].
  2: { change (0 < c_noff (cpu_of m1)). lia. }
  rewrite acquire_free; [done| |].
  - change (wf_mach (munlock (LProc p) m1)). apply wf_munlock; [done|lia].
  - change (lock_free lk (munlock (LProc p) m1)). unfold lock_free. rewrite munlock_locks.
    by rewrite lookup_delete_ne.
Qed.

(** One call of [sleep], on one hart.  [sleep] gives up the hart in a state in which the process is already
    marked as sleeping on the channel, its own lock is held and the caller's
    lock is free, so whoever then takes the caller's lock and calls [wakeup]
    finds the process asleep.  (What other harts may do between the lines of
    [sleep] is the subject of SleepFine.)  With no process ever waking
    it the caller stays there; when it is switched to again, on whatever hart,
    [sleep] returns with the caller's lock held again, its own lock released
    and the channel cleared. *)
Theorem sleep_correct p ch lk f e s q :
  can_sleep p lk s → k_procs s !! p = Some q →
  let t := asleep p ch lk s in
  k_procs t !! p = Some (q <| p_chan := Some ch |> <| p_state := SLEEPING |>) ∧
  m_locks (k_mach t) !! LProc p = Some (m_tp (k_mach s)) ∧ lock_free lk (k_mach t) ∧
  sleep ch lk [] s = Blocked t ∧
  (resumed p lk (f t) → ∃ s', sleep ch lk (f :: e) s = Ret () e s' ∧
     m_locks (k_mach s') = <[lk := m_tp (k_mach (f t))]> (delete (LProc p) (m_locks (k_mach (f t)))) ∧
     c_noff (cpu_of (k_mach s')) = 1 ∧
     k_procs s' = alter (λ q, q <| p_chan := None |>) p (k_procs (f t)) ∧
     k_mem s' = k_mem (f t) ∧ k_fs s' = k_fs (f t)).
Proof.
  intros Hcs Hq t. pose proof (can_sleep_ne _ _ _ Hcs) as Hne.
  pose proof (asleep_mach p ch lk s Hcs) as (Hw2 & Hn2 & Hp2 & Ht2 & Hl2). fold t in Hw2, Hn2, Hp2, Ht2, Hl2.
  split_and!.
  - unfold t, asleep, set. cbn. by rewrite list_lookup_alter_eq, Hq.
  - by rewrite Hl2, lookup_delete_ne, lookup_insert_eq.
  - unfold lock_free. by rewrite Hl2, lookup_delete_eq.
  - by rewrite (sleep_switch p).
  - intros Hre. rewrite (sleep_switch p) by done. fold t. unfold swtch at 1.
    erewrite bind_Ret by done. rewrite (sleep_resume p lk _ e (f t) Hre Hne).
    destruct Hre as [Hw Hn _ _ _]. eexists. split; [done|].
    set (m1 := upd_cpu (λ c, c <| c_intena := c_intena (cpu_of (k_mach t)) |>) (k_mach (f t))).
    assert (wf_mach m1) as Hw1 by (by apply wf_upd_cpu).
    assert (c_noff (cpu_of m1) = 1) as Hn1 by (unfold m1; by rewrite cpu_of_upd_cpu by apply Hw).
    split_and!; [| |done..].
    + change (m_locks (mlock lk (munlock (LProc p) m1)) =
        <[lk:=m_tp (k_mach (f t))]> (delete (LProc p) (m_locks (k_mach (f t))))).
      rewrite mlock_locks, munlock_tp, munlock_locks. done.
    + change (c_noff (cpu_of (mlock lk (munlock (LProc p) m1))) = 1).
      rewrite mlock_noff by (apply wf_munlock; [done|lia]). rewrite munlock_cpu by done.
      change (c_noff (cpu_of m1) - 1 + 1 = 1). lia.
Qed.
End Sleep.

(** ** Examples of states *)

(** A booted process table: every lock free, hart 0 running process [me]. *)
Definition ex_procs (me : option nat) (ps : list proc) : kstate :=
  kstate0 <| k_mach := Machine 0 (<[0%nat := cpu0 <| c_proc := me |>]> (replicate NCPU cpu0))
                         (replicate NCPU csr0) ∅ |>
          <| k_procs := ps |>.

Lemma ex_procs_ready me ps : length ps = NPROC → proc_ready (ex_procs me ps).
Proof.
  intros Hl. split; [|done|done]. unfold wf_mach. split_and!; [vm_compute; lia|vm_compute; lia|done|done].
Qed.

(** Process 3 runs on hart 0 and holds [tickslock]. *)
Definition ex_sleep : kstate :=
  ex_procs (Some 3%nat) (replicate NPROC proc0)
    <| k_mach ::= λ m, m <| m_cpus ::= alter (set c_noff (λ _, 1)) 0%nat |> <| m_locks := {[LTicks := 0%nat]} |> |>.

Lemma ex_sleep_ok : can_sleep 3 LTicks ex_sleep.
Proof.
  split; try reflexivity.
  - unfold wf_mach. split_and!; [vm_compute; lia|vm_compute; lia|done|done].
  - vm_compute; lia.
Qed.

Lemma sleep_correct_witness :
  sleep ChTicks LTicks [] ex_sleep = Blocked (asleep 3 ChTicks LTicks ex_sleep) ∧
  ∃ s', sleep ChTicks LTicks [set k_procs (alter (set p_state (λ _, RUNNING)) 3%nat)] ex_sleep = Ret () [] s' ∧
    m_locks (k_mach s') = {[LTicks := 0%nat]}.
Proof.
  destruct (sleep_correct 3 ChTicks LTicks (set k_procs (alter (set p_state (λ _, RUNNING)) 3%nat)) []
    ex_sleep proc0 ex_sleep_ok eq_refl) as (_ & _ & _ & Hb & Hr).
  split; [exact Hb|]. destruct Hr as (s' & E & Hl & _).
  { pose proof (asleep_mach 3 ChTicks LTicks ex_sleep ex_sleep_ok) as (Hw & Hn & _ & Ht & Hl).
    split; try done. vm_compute; lia. }
  exists s'. split; [exact E|]. rewrite Hl. reflexivity.
Defined.

(** [wakeup(chan)] terminates, makes every process that sleeps on the
    channel runnable, except the caller itself, and changes no other field of
    any process, no lock and nothing else of the state. *)
Theorem wakeup_correct ch e s :
  proc_ready s →
  ∃ s', wakeup ch e s = Ret () e s' ∧
    s' = s <| k_mach ::= settle |> <| k_procs := k_procs s' |> ∧
    length (k_procs s') = NPROC ∧
    ∀ i q, k_procs s !! i = Some q →
      (c_proc (cpu_of (k_mach s)) ≠ Some i ∧ p_state q = SLEEPING ∧ p_chan q = Some ch →
         k_procs s' !! i = Some (q <| p_state := RUNNABLE |>)) ∧
      (¬ (c_proc (cpu_of (k_mach s)) ≠ Some i ∧ p_state q = SLEEPING ∧ p_chan q = Some ch) →
         k_procs s' !! i = Some q).
Proof.
  intros Hr. eexists. split; [by apply wakeup_run|]. split; [done|].
  change (k_procs (_ <| k_procs ::= ?f |>)) with (f (k_procs s)). split.
  { rewrite length_imap. apply Hr. }
  intros i q Hq. rewrite list_lookup_imap, Hq. cbn. unfold woken.
  split; intros H; [by rewrite decide_True|by rewrite decide_False].
Qed.

Definition ex_sleeper : proc := proc0 <| p_state := SLEEPING |> <| p_chan := Some ChTicks |>.
Definition ex_wake : kstate := ex_procs None (<[5%nat := ex_sleeper]> (replicate NPROC proc0)).

Lemma wakeup_correct_witness :
  ∃ s', wakeup ChTicks [] ex_wake = Ret () [] s' ∧
    k_procs s' !! 5%nat = Some (ex_sleeper <| p_state := RUNNABLE |>).
Proof.
  destruct (wakeup_correct ChTicks [] ex_wake) as (s' & E & _ & _ & H).
  { apply ex_procs_ready. rewrite length_insert. apply length_replicate. }
  exists s'. split; [exact E|].
  assert (k_procs ex_wake !! 5%nat = Some ex_sleeper) as Hq by (vm_compute; reflexivity).
  destruct (H 5%nat ex_sleeper Hq) as [H1 _]. apply H1. split_and!; [discriminate|reflexivity|reflexivity].
Defined.
