(* ===== verification/SleepFine.v ===== *)
(** * SleepFine: sleep() and wakeup() under every interleaving of the harts

    The definitions of [ProcBase] execute [sleep] as one hart does, and other
    harts act only while it is switched out.  Here the same lines of
    kernel/proc.c run on any number of harts, one lock operation or one access
    to a shared field per step, and any hart may take the next step: the
    processes that wait for a condition with [sleep] in the loop of its callers
    ([acquire(lk); while(!cond) sleep(chan, lk); ...; release(lk)], the shape of
    sys_sleep, pipewrite, piperead, begin_op and the drivers), the contexts that
    make the condition true and call [wakeup] (a process, an interrupt handler
    on top of a process, or one on an idle hart), [kill], [yield], and the
    schedulers, which switch processes out and in on any hart.

    [acquire] is one step that waits until the lock is free: that its
    instructions exclude each other is proved in [Spinlock.Fine].  The test of
    [wakeup] is one step too: the two fields it reads are written under the
    process lock that the waker holds.  [kill] is modelled from the process it
    stops at.  Any number of harts may take part, in any order. *)

From stdpp Require Import functions.
From S2P Require Import Prelude Params State.

(** ** Contexts and program counters *)

(** Who runs on a hart: the kernel thread of a process, or the hart's own
    scheduler. *)
Inductive ctx := OfProc (p : nat) | OfHart (h : nat).
#[export] Instance ctx_eq_dec : EqDecision ctx.
Proof. solve_decision. Defined.

(** Where a process without locks was interrupted, or called from. *)
Inductive resume := RIdle | RWait | RReacquire.

(** The next thing a context does. *)
Inductive pc :=
| Idle                       (* a process: anything else; a hart: its scheduler's loop *)
| WaitAcquire                (* acquire(lk) *)
| WaitTest                   (* while(!cond) *)
| WaitDone                   (* after the loop, with lk held *)
| WaitRelease                (* release(lk) *)
| SlpAcquire                 (* sleep: acquire(&p->lock) *)
| SlpRelease                 (* sleep: release(lk) *)
| SlpChan                    (* sleep: p->chan = chan *)
| SlpState                   (* sleep: p->state = SLEEPING *)
| SlpSched                   (* sleep: sched() *)
| SlpTidy                    (* sleep: p->chan = 0 *)
| SlpReleaseP                (* sleep: release(&p->lock) *)
| SlpReacquire               (* sleep: acquire(lk) *)
| WkAcquire (k : resume)     (* acquire(lk) *)
| WkSet (k : resume)         (* the condition becomes true *)
| WkVisit (k : resume) (q : nat)    (* wakeup: the loop reaches proc[q] *)
| WkTest (k : resume) (q : nat)     (* wakeup: p->state == SLEEPING && p->chan == chan *)
| WkMake (k : resume) (q : nat)     (* wakeup: p->state = RUNNABLE *)
| WkRelease (k : resume) (q : nat)  (* wakeup: release(&p->lock) *)
| WkDone (k : resume)        (* release(lk) *)
| KlAcquire (k : resume) (q : nat)  (* kill: acquire(&p->lock) of the victim *)
| KlTest (k : resume) (q : nat)     (* kill: p->state == SLEEPING *)
| KlMake (k : resume) (q : nat)     (* kill: p->state = RUNNABLE *)
| KlRelease (k : resume) (q : nat)  (* kill: release(&p->lock) *)
| YdAcquire (k : resume)     (* yield: acquire(&p->lock) *)
| YdState (k : resume)       (* yield: p->state = RUNNABLE *)
| YdSched (k : resume)       (* yield: sched() *)
| YdRelease (k : resume)     (* yield and forkret: release(&p->lock) *)
| SchAcquire (p : nat)       (* scheduler: acquire(&p->lock) *)
| SchTest (p : nat)          (* scheduler: p->state == RUNNABLE *)
| SchRun (p : nat)           (* scheduler: p->state = RUNNING *)
| SchSwtch (p : nat)         (* scheduler: c->proc = p; swtch *)
| SchRelease (p : nat)       (* scheduler: release(&p->lock) *)
| Panicked.

Definition resume_pc (k : resume) : pc :=
  match k with RIdle => Idle | RWait => WaitAcquire | RReacquire => SlpReacquire end.

(** The condition lock and the process locks, each with the hart that holds it;
    [p->state] and [p->chan]; the condition; [c->proc] of every hart; and where
    every context stands. *)
Record state := St {
  lk : option nat;
  plock : nat → option nat;
  pst : nat → procstate;
  pchan : nat → option chan;
  cond : bool;
  cur : nat → option nat;
  at_ : ctx → pc;
}.

(** What a context that may do several things does. *)
Inductive choice := Go | DoWait | DoWakeup | DoKill (q : nat) | DoYield | DoVisit (p : nat) | Consume.

Section Steps.
Context (ch : chan).
Implicit Types (s : state) (h p q : nat) (x : ctx) (k : resume).

Definition ctx_of s h : ctx := match cur s h with Some p => OfProc p | None => OfHart h end.

Definition goto x (a : pc) s : state := St (lk s) (plock s) (pst s) (pchan s) (cond s) (cur s) (<[x := a]> (at_ s)).
Definition set_lk (o : option nat) s : state := St o (plock s) (pst s) (pchan s) (cond s) (cur s) (at_ s).
Definition set_plock q (o : option nat) s : state := St (lk s) (<[q := o]> (plock s)) (pst s) (pchan s) (cond s) (cur s) (at_ s).
Definition set_pst q (v : procstate) s : state := St (lk s) (plock s) (<[q := v]> (pst s)) (pchan s) (cond s) (cur s) (at_ s).
Definition set_chan q (o : option chan) s : state := St (lk s) (plock s) (pst s) (<[q := o]> (pchan s)) (cond s) (cur s) (at_ s).
Definition set_cond (b : bool) s : state := St (lk s) (plock s) (pst s) (pchan s) b (cur s) (at_ s).
Definition set_cur h (o : option nat) s : state := St (lk s) (plock s) (pst s) (pchan s) (cond s) (<[h := o]> (cur s)) (at_ s).

(** [acquire]: waits while another hart holds the lock, panics when this one
    does; [release] panics when this hart does not hold it.  The context goes on
    at [a]. *)
Definition acquire_lk h x a s : option state :=
  match lk s with
  | None => Some (goto x a (set_lk (Some h) s))
  | Some h' => if decide (h' = h) then Some (goto x Panicked s) else None
  end.
Definition release_lk h x a s : option state :=
  Some (if decide (lk s = Some h) then goto x a (set_lk None s) else goto x Panicked s).
Definition acquire_p h q x a s : option state :=
  match plock s q with
  | None => Some (goto x a (set_plock q (Some h) s))
  | Some h' => if decide (h' = h) then Some (goto x Panicked s) else None
  end.
Definition release_p h q x a s : option state :=
  Some (if decide (plock s q = Some h) then goto x a (set_plock q None s) else goto x Panicked s).

(** [sched()] of process [p], which goes on at [a] when it is switched to again:
    the checks, and the switch to the hart's scheduler. *)
Definition sched_step h p a s : option state :=
  Some (if decide (plock s p = Some h ∧ lk s ≠ Some h ∧ pst s p ≠ RUNNING)
        then set_cur h None (goto (OfProc p) a s) else goto (OfProc p) Panicked s).

(** A process without locks can be interrupted: by a device whose handler makes
    the condition true, or by the timer, which makes it yield. *)
Definition interrupted (c : choice) k x s : option state :=
  match c with
  | DoWakeup => Some (goto x (WkAcquire k) s)
  | DoYield => Some (goto x (YdAcquire k) s)
  | _ => None
  end.

(** The loop that waits for the condition; [Consume] makes it false again
    before the lock is released, as reading from a pipe or taking a buffer does. *)
Definition wait_step h (c : choice) s : option state :=
  match cur s h with
  | None => None
  | Some p =>
      let x := OfProc p in
      match at_ s x with
      | Idle =>
          match c with
          | DoWait => Some (goto x WaitAcquire s)
          | DoKill q => Some (goto x (KlAcquire RIdle q) s)
          | _ => interrupted c RIdle x s
          end
      | WaitAcquire => match c with Go => acquire_lk h x WaitTest s | _ => interrupted c RWait x s end
      | WaitTest => Some (goto x (if cond s then WaitDone else SlpAcquire) s)
      | WaitDone => Some (goto x WaitRelease (match c with Consume => set_cond false s | _ => s end))
      | WaitRelease => release_lk h x Idle s
      | _ => None
      end
  end.

(** [sleep(chan, lk)]. *)
Definition sleep_step h (c : choice) s : option state :=
  match cur s h with
  | None => None
  | Some p =>
      let x := OfProc p in
      match at_ s x with
      | SlpAcquire => acquire_p h p x SlpRelease s
      | SlpRelease => release_lk h x SlpChan s
      | SlpChan => Some (goto x SlpState (set_chan p (Some ch) s))
      | SlpState => Some (goto x SlpSched (set_pst p SLEEPING s))
      | SlpSched => sched_step h p SlpTidy s
      | SlpTidy => Some (goto x SlpReleaseP (set_chan p None s))
      | SlpReleaseP => release_p h p x SlpReacquire s
      | SlpReacquire => match c with Go => acquire_lk h x WaitTest s | _ => interrupted c RReacquire x s end
      | _ => None
      end
  end.

(** [acquire(lk); cond = 1; wakeup(chan); release(lk)], in any context. *)
Definition wakeup_step h s : option state :=
  let x := ctx_of s h in
  match at_ s x with
  | WkAcquire k => acquire_lk h x (WkSet k) s
  | WkSet k => Some (goto x (WkVisit k 0) (set_cond true s))
  | WkVisit k q =>
      if decide (NPROC ≤ q)%nat then Some (goto x (WkDone k) s)
      else if decide (cur s h = Some q) then Some (goto x (WkVisit k (S q)) s)
      else acquire_p h q x (WkTest k q) s
  | WkTest k q =>
      Some (goto x (if decide (pst s q = SLEEPING ∧ pchan s q = Some ch) then WkMake k q else WkRelease k q) s)
  | WkMake k q => Some (goto x (WkRelease k q) (set_pst q RUNNABLE s))
  | WkRelease k q => release_p h q x (WkVisit k (S q)) s
  | WkDone k => release_lk h x (resume_pc k) s
  | _ => None
  end.

(** [kill], at the process with the given pid. *)
Definition kill_step h s : option state :=
  let x := ctx_of s h in
  match at_ s x with
  | KlAcquire k q => acquire_p h q x (KlTest k q) s
  | KlTest k q => Some (goto x (if decide (pst s q = SLEEPING) then KlMake k q else KlRelease k q) s)
  | KlMake k q => Some (goto x (KlRelease k q) (set_pst q RUNNABLE s))
  | KlRelease k q => release_p h q x (resume_pc k) s
  | _ => None
  end.

(** [yield]. *)
Definition yield_step h s : option state :=
  match cur s h with
  | None => None
  | Some p =>
      let x := OfProc p in
      match at_ s x with
      | YdAcquire k => acquire_p h p x (YdState k) s
      | YdState k => Some (goto x (YdSched k) (set_pst p RUNNABLE s))
      | YdSched k => sched_step h p (YdRelease k) s
      | YdRelease k => release_p h p x (resume_pc k) s
      | _ => None
      end
  end.

(** The scheduler of hart [h]: the visit of one process; an idle hart may be
    interrupted by a device. *)
Definition scheduler_step h (c : choice) s : option state :=
  match cur s h with
  | Some _ => None
  | None =>
      let x := OfHart h in
      match at_ s x with
      | Idle =>
          match c with
          | DoVisit p => if decide (p < NPROC)%nat then Some (goto x (SchAcquire p) s) else None
          | DoWakeup => Some (goto x (WkAcquire RIdle) s)
          | _ => None
          end
      | SchAcquire p => acquire_p h p x (SchTest p) s
      | SchTest p => Some (goto x (if decide (pst s p = RUNNABLE) then SchRun p else SchRelease p) s)
      | SchRun p => Some (goto x (SchSwtch p) (set_pst p RUNNING s))
      | SchSwtch p => Some (set_cur h (Some p) (goto x (SchRelease p) s))
      | SchRelease p => release_p h p x Idle s
      | _ => None
      end
  end.

(** One step of hart [h]. *)
Definition step h (c : choice) s : option state :=
  wait_step h c s ∪ sleep_step h c s ∪ wakeup_step h s ∪ kill_step h s ∪ yield_step h s ∪ scheduler_step h c s.

(** A schedule: which hart takes the next step, and what it chooses. *)
Fixpoint run_schedule (l : list (nat * choice)) s : option state :=
  match l with
  | [] => Some s
  | (h, c) :: l' => s' ← step h c s; run_schedule l' s'
  end.

(** Every process is runnable and about to start in forkret, every hart in its
    scheduler. *)
Definition initial : state :=
  St None (λ _, None) (λ _, RUNNABLE) (λ _, None) false (λ _, None)
     (λ x, match x with OfProc _ => YdRelease RIdle | OfHart _ => Idle end).

(** ** The invariant *)

(** Does a context at [a] hold the condition lock; which process lock does it
    hold. *)
Definition holds_lk (a : pc) : bool :=
  match a with
  | WaitTest | WaitDone | WaitRelease | SlpAcquire | SlpRelease
  | WkSet _ | WkVisit _ _ | WkTest _ _ | WkMake _ _ | WkRelease _ _ | WkDone _ => true
  | _ => false
  end.

Definition holds_p x (a : pc) : option nat :=
  match a with
  | SlpRelease | SlpChan | SlpState | SlpSched | SlpTidy | SlpReleaseP | YdState _ | YdSched _ | YdRelease _ =>
      match x with OfProc p => Some p | OfHart _ => None end
  | WkTest _ q | WkMake _ q | WkRelease _ q | KlTest _ q | KlMake _ q | KlRelease _ q
  | SchTest q | SchRun q | SchSwtch q | SchRelease q => Some q
  | _ => None
  end.

(** What a running process knows at [a]. *)
Definition fact_proc s p (a : pc) : Prop :=
  match a with
  | SlpAcquire | SlpRelease => cond s = false ∧ pst s p = RUNNING
  | WaitDone => cond s = true ∧ pst s p = RUNNING
  | SlpState => pchan s p = Some ch ∧ pst s p = RUNNING
  | SlpSched => pst s p = SLEEPING
  | YdSched _ => pst s p = RUNNABLE
  | WkMake _ q | KlMake _ q => pst s q = SLEEPING ∧ pst s p = RUNNING
  | SchAcquire _ | SchTest _ | SchRun _ | SchSwtch _ | SchRelease _ | Panicked => False
  | _ => pst s p = RUNNING
  end.

(** What a hart outside any process knows at [a]. *)
Definition fact_hart s (a : pc) : Prop :=
  match a with
  | Idle | SchRelease _ => True
  | SchAcquire q | SchTest q => (q < NPROC)%nat
  | WkAcquire k | WkSet k | WkVisit k _ | WkTest k _ | WkRelease k _ | WkDone k => k = RIdle
  | WkMake k q => k = RIdle ∧ pst s q = SLEEPING
  | SchRun q => (q < NPROC)%nat ∧ pst s q = RUNNABLE
  | SchSwtch q => (q < NPROC)%nat ∧ pst s q = RUNNING ∧ ∀ h, cur s h ≠ Some q
  | _ => False
  end.

Definition fact s x (a : pc) : Prop :=
  match x with OfProc p => fact_proc s p a | OfHart _ => fact_hart s a end.

(** A waker that holds the condition lock has yet to come to process [p]. *)
Definition still_scans (a : pc) p : bool :=
  match a with
  | WkVisit _ q | WkTest _ q | WkMake _ q => bool_decide (q ≤ p)%nat
  | WkRelease _ q => bool_decide (q < p)%nat
  | _ => false
  end.

(** Process [p] has given up the condition lock in [sleep] and is not asleep yet. *)
Definition committed (a : pc) : bool :=
  match a with SlpChan | SlpState | SlpSched => true | _ => false end.

Definition active s h : pc := at_ s (ctx_of s h).

Record inv s : Prop := Inv {
  i_lk : ∀ h, lk s = Some h ↔ holds_lk (active s h) = true;
  i_pl : ∀ h q, plock s q = Some h ↔ holds_p (ctx_of s h) (active s h) = Some q;
  i_cur : ∀ h p, cur s h = Some p → at_ s (OfHart h) = SchRelease p ∧ (p < NPROC)%nat;
  i_inj : ∀ h h' p, cur s h = Some p → cur s h' = Some p → h = h';
  i_off : ∀ p, (∀ h, cur s h ≠ Some p) → at_ s (OfProc p) = SlpTidy ∨ ∃ k, at_ s (OfProc p) = YdRelease k;
  i_fact : ∀ h, fact s (ctx_of s h) (active s h);
  i_slp : ∀ p, pst s p = SLEEPING → pchan s p = Some ch ∧ (at_ s (OfProc p) = SlpSched ∨ at_ s (OfProc p) = SlpTidy);
  i_main : ∀ p, cond s = true → pst s p = SLEEPING ∨ committed (at_ s (OfProc p)) = true → (p < NPROC)%nat →
    ∃ h, still_scans (active s h) p = true;
  i_run : ∀ p, pst s p = SLEEPING ∨ pst s p = RUNNABLE ∨
    pst s p = RUNNING ∧ ∃ h, cur s h = Some p ∨ active s h = SchSwtch p;
}.

(** ** One step of one context *)

Lemma ctx_of_inj s h h' : inv s → ctx_of s h = ctx_of s h' → h = h'.
Proof.
  intros I. unfold ctx_of. destruct (cur s h) as [p|] eqn:E, (cur s h') as [p'|] eqn:E'; intros; simplify_eq; [|done].
  by eapply (i_inj s I).
Qed.

Lemma active_other s h h' b : inv s → h' ≠ h → (<[ctx_of s h := b]> (at_ s)) (ctx_of s h') = active s h'.
Proof. intros I Hne. unfold active. apply fn_lookup_insert_ne. intros E. by apply (ctx_of_inj s _ _ I) in E. Qed.

(** The step of hart [h] that takes its context to [b] and leaves the harts
    where they are keeps the invariant when what it does to the shared state is
    covered by the locks it holds. *)
Lemma inv_local s h b lk' pl' pst' chan' cond' :
  inv s →
  let s' := St lk' pl' pst' chan' cond' (cur s) (<[ctx_of s h := b]> (at_ s)) in
  (∀ h', lk' = Some h' ↔ if decide (h' = h) then holds_lk b = true else lk s = Some h') →
  (∀ h' q, pl' q = Some h' ↔ if decide (h' = h) then holds_p (ctx_of s h) b = Some q else plock s q = Some h') →
  fact s' (ctx_of s h) b →
  (∀ h', h' ≠ h → fact s (ctx_of s h') (active s h') → fact s' (ctx_of s h') (active s h')) →
  (∀ p, pst' p = SLEEPING → chan' p = Some ch ∧ (at_ s' (OfProc p) = SlpSched ∨ at_ s' (OfProc p) = SlpTidy)) →
  (∀ p, cond' = true → pst' p = SLEEPING ∨ committed (at_ s' (OfProc p)) = true → (p < NPROC)%nat →
    still_scans b p = true ∨ ∃ h', h' ≠ h ∧ still_scans (active s h') p = true) →
  (∀ p, active s h ≠ SchSwtch p) →
  (∀ p, pst' p = pst s p ∨ pst' p = SLEEPING ∨ pst' p = RUNNABLE ∨ pst' p = RUNNING ∧ b = SchSwtch p) →
  inv s'.
Proof.
  intros I s' Hlk Hpl Hf Hf' Hslp Hmain Hsw Hrun.
  assert (∀ h', active s' h' = if decide (h' = h) then b else active s h') as Ha.
  { intros h'. unfold active at 1. change (ctx_of s' h') with (ctx_of s h'). cbn. case_decide as D; [subst; by rewrite fn_lookup_insert|].
    by apply active_other. }
  split.
  - intros h'. rewrite Ha. change (lk s') with lk'. rewrite Hlk. case_decide; [done|apply (i_lk s I)].
  - intros h' q. rewrite Ha. change (plock s' q) with (pl' q). change (ctx_of s' h') with (ctx_of s h'). rewrite Hpl.
    case_decide; [by subst|apply (i_pl s I)].
  - intros h' p E. change (cur s h' = Some p) in E. destruct (i_cur s I h' p E) as [E1 E2]. split; [|done]. cbn.
    rewrite fn_lookup_insert_ne; [done|]. unfold ctx_of. intros E3. destruct (cur s h) eqn:E4; [done|]. congruence.
  - apply (i_inj s I).
  - intros p Hp. cbn. change (∀ h, cur s h ≠ Some p) in Hp. rewrite fn_lookup_insert_ne; [by apply (i_off s I)|].
    unfold ctx_of. intros E. destruct (cur s h) eqn:E4; [|done]. specialize (Hp h). congruence.
  - intros h'. rewrite Ha. change (ctx_of s' h') with (ctx_of s h'). case_decide; [by subst|apply Hf'; [done|apply (i_fact s I)]].
  - exact Hslp.
  - intros p Hc Hp Hlt. destruct (Hmain p Hc Hp Hlt) as [Hs|(h' & Hne & Hs)].
    + exists h. rewrite Ha. by case_decide.
    + exists h'. rewrite Ha. by case_decide.
  - intros p. change (pst s' p) with (pst' p). destruct (Hrun p) as [->|[|[|[? E]]]]; [|by auto..|].
    + destruct (i_run s I p) as [|[|[? [h' E]]]]; [by auto..|]. right; right. split; [done|]. exists h'.
      destruct E as [|E]; [by left|right]. rewrite Ha. case_decide; [subst; by destruct (Hsw p)|done].
    + right; right. split; [done|]. exists h. right. rewrite Ha. by case_decide.
Qed.

(** What a context knows depends on the condition only while it holds the lock,
    and on a process only while it runs it or has its lock. *)
Lemma fact_cond s h h' b : inv s → h' ≠ h → holds_lk (active s h) = true →
  fact s (ctx_of s h') (active s h') → fact (set_cond b s) (ctx_of s h') (active s h').
Proof.
  intros I Hne Hh Hf. assert (holds_lk (active s h') ≠ true) as Hn.
  { intros E. apply (i_lk s I) in E, Hh. congruence. }
  destruct (ctx_of s h'), (active s h'); done.
Qed.

Lemma fact_chan s h h' p o : inv s → h' ≠ h → cur s h = Some p →
  fact s (ctx_of s h') (active s h') → fact (set_chan p o s) (ctx_of s h') (active s h').
Proof.
  intros I Hne Hp Hf. destruct (ctx_of s h') as [p'|] eqn:E; [|by destruct (active s h')].
  assert (p' ≠ p) as Hn.
  { intros ->. unfold ctx_of in E. destruct (cur s h') eqn:E'; simplify_eq. destruct Hne. by apply (i_inj s I h' h p). }
  destruct (active s h'); try done. cbn in *. by rewrite fn_lookup_insert_ne.
Qed.

Lemma fact_pst s h h' q v : inv s → h' ≠ h → plock s q = Some h → pst s q ≠ RUNNING ∨ cur s h = Some q →
  fact s (ctx_of s h') (active s h') → fact (set_pst q v s) (ctx_of s h') (active s h').
Proof.
  intros I Hne Hq Hr Hf. assert (holds_p (ctx_of s h') (active s h') ≠ Some q) as Hn.
  { intros E. apply (i_pl s I) in E. congruence. }
  assert (∀ p', ctx_of s h' = OfProc p' → p' = q → pst s p' = RUNNING → False) as Hp.
  { intros p' E -> Hp. destruct Hr as [|Hc]; [done|]. unfold ctx_of in E. destruct (cur s h') eqn:E'; simplify_eq.
    destruct Hne. by apply (i_inj s I h' h q). }
  assert (∀ p', p' ≠ q → pst (set_pst q v s) p' = pst s p') as He by (intros; by apply fn_lookup_insert_ne).
  destruct (ctx_of s h') as [p'|], (active s h'); cbn [fact fact_proc fact_hart holds_p] in *;
    try done; repeat match goal with |- context [pst (set_pst _ _ _) ?x] => rewrite (He x) by naive_solver end; done.
Qed.

Lemma asleep_at s h p : inv s → ctx_of s h = OfProc p → pst s p = SLEEPING → active s h = SlpSched.
Proof.
  intros I E Hs. pose proof (i_fact s I h) as Hf. unfold active in *. rewrite E in *.
  destruct (i_slp s I p Hs) as [_ [->|Ht]]; [done|]. rewrite Ht in Hf. cbn in Hf. congruence.
Qed.

(** Process [p] depends on being woken up. *)
Definition awaits s p : Prop := (p < NPROC)%nat ∧ (pst s p = SLEEPING ∨ committed (at_ s (OfProc p)) = true).

Lemma slp_keep s h b p : inv s → active s h ≠ SlpSched → pst s p = SLEEPING →
  pchan s p = Some ch ∧ ((<[ctx_of s h := b]> (at_ s)) (OfProc p) = SlpSched ∨ (<[ctx_of s h := b]> (at_ s)) (OfProc p) = SlpTidy).
Proof.
  intros I Hn Hs. rewrite fn_lookup_insert_ne; [by apply (i_slp s I)|]. intros E. destruct Hn. by apply (asleep_at s h p).
Qed.

Lemma main_keep s h b p : inv s → (committed b = true → committed (active s h) = true ∨ cond s = false) →
  (awaits s p → still_scans (active s h) p = true → still_scans b p = true) →
  cond s = true → pst s p = SLEEPING ∨ committed ((<[ctx_of s h := b]> (at_ s)) (OfProc p)) = true → (p < NPROC)%nat →
  still_scans b p = true ∨ ∃ h', h' ≠ h ∧ still_scans (active s h') p = true.
Proof.
  intros I Hb Hs Hc Hp Hlt. assert (awaits s p) as Hn.
  { split; [done|]. destruct Hp as [|Hp]; [by left|right]. destruct (decide (ctx_of s h = OfProc p)) as [E|E].
    - rewrite E, fn_lookup_insert in Hp. destruct (Hb Hp) as [Ha|]; [|congruence]. unfold active in Ha. by rewrite E in Ha.
    - by rewrite fn_lookup_insert_ne in Hp. }
  destruct (i_main s I p Hc (proj2 Hn) Hlt) as [h' Hh]. destruct (decide (h' = h)) as [->|]; [left; by apply Hs|right; by exists h'].
Qed.

(** Steps that take or release locks, or none. *)
Lemma inv_locks s h b lk' pl' :
  inv s →
  (∀ h', lk' = Some h' ↔ if decide (h' = h) then holds_lk b = true else lk s = Some h') →
  (∀ h' q, pl' q = Some h' ↔ if decide (h' = h) then holds_p (ctx_of s h) b = Some q else plock s q = Some h') →
  fact s (ctx_of s h) b → active s h ≠ SlpSched → (∀ p, active s h ≠ SchSwtch p) →
  (committed b = true → committed (active s h) = true ∨ cond s = false) →
  (∀ p, awaits s p → still_scans (active s h) p = true → still_scans b p = true) →
  inv (St lk' pl' (pst s) (pchan s) (cond s) (cur s) (<[ctx_of s h := b]> (at_ s))).
Proof.
  intros I Hlk Hpl Hf Hn Hsw Hb Hs. apply inv_local; try done.
  - intros p Hp. by apply slp_keep.
  - intros p Hc Hp Hlt. apply main_keep; auto.
  - by left.
Qed.

Lemma inv_goto s h b :
  inv s → holds_lk b = holds_lk (active s h) → holds_p (ctx_of s h) b = holds_p (ctx_of s h) (active s h) →
  fact s (ctx_of s h) b → active s h ≠ SlpSched → (∀ p, active s h ≠ SchSwtch p) →
  (committed b = true → committed (active s h) = true ∨ cond s = false) →
  (∀ p, awaits s p → still_scans (active s h) p = true → still_scans b p = true) →
  inv (goto (ctx_of s h) b s).
Proof.
  intros I Hl Hp. apply (inv_locks s h b (lk s) (plock s)); [done| |].
  - intros h'. case_decide; [subst; rewrite Hl; apply (i_lk s I)|done].
  - intros h' q. case_decide; [subst; rewrite Hp; apply (i_pl s I)|done].
Qed.

Lemma inv_acquire_lk s s' h b :
  inv s → acquire_lk h (ctx_of s h) b s = Some s' → holds_lk (active s h) = false → holds_lk b = true →
  holds_p (ctx_of s h) b = holds_p (ctx_of s h) (active s h) →
  fact s (ctx_of s h) b → active s h ≠ SlpSched → (∀ p, active s h ≠ SchSwtch p) → committed b = false → still_scans (active s h) = (λ _, false) → inv s'.
Proof.
  intros I E Ha Hb Hp Hf Hn Hsw Hc Hs. unfold acquire_lk in E. destruct (lk s) as [h0|] eqn:El.
  - exfalso. case_decide; simplify_eq. apply (i_lk s I) in El. congruence.
  - simplify_eq. apply (inv_locks s h b (Some h) (plock s)); try done.
    + intros h'. case_decide as D; [by subst|split; congruence].
    + intros h' q. case_decide; [subst; rewrite Hp; apply (i_pl s I)|done].
    + by rewrite Hc.
    + intros p _. by rewrite Hs.
Qed.

Lemma inv_release_lk s s' h b :
  inv s → release_lk h (ctx_of s h) b s = Some s' → holds_lk (active s h) = true → holds_lk b = false →
  holds_p (ctx_of s h) b = holds_p (ctx_of s h) (active s h) →
  fact s (ctx_of s h) b → active s h ≠ SlpSched → (∀ p, active s h ≠ SchSwtch p) → (committed b = true → cond s = false) → still_scans (active s h) = (λ _, false) → inv s'.
Proof.
  intros I E Ha Hb Hp Hf Hn Hsw Hc Hs. apply (i_lk s I) in Ha. unfold release_lk in E. rewrite decide_True in E by done.
  simplify_eq. apply (inv_locks s h b None (plock s)); try done.
  + intros h'. rewrite Ha, Hb. case_decide; split; congruence.
  + intros h' q. case_decide; [subst; rewrite Hp; apply (i_pl s I)|done].
  + auto.
  + intros p _. by rewrite Hs.
Qed.

Lemma inv_acquire_p s s' h q b :
  inv s → acquire_p h q (ctx_of s h) b s = Some s' → holds_p (ctx_of s h) (active s h) = None → holds_p (ctx_of s h) b = Some q →
  holds_lk b = holds_lk (active s h) →
  fact s (ctx_of s h) b → (∀ p, active s h ≠ SchSwtch p) → committed b = false →
  (∀ p, still_scans (active s h) p = true → still_scans b p = true) → inv s'.
Proof.
  intros I E Ha Hb Hp Hf Hsw Hc Hs. unfold acquire_p in E. destruct (plock s q) as [h0|] eqn:El.
  - exfalso. case_decide; simplify_eq. apply (i_pl s I) in El. congruence.
  - simplify_eq. apply (inv_locks s h b (lk s) (<[q := Some h]> (plock s))); try done.
    + intros h'. case_decide; [subst; rewrite Hp; apply (i_lk s I)|done].
    + intros h' q'. cbn. destruct (decide (q' = q)) as [->|Hne].
      * rewrite fn_lookup_insert. case_decide; [by subst|split; congruence].
      * rewrite fn_lookup_insert_ne by done. case_decide; [|done]. subst. rewrite (i_pl s I), Ha, Hb. split; congruence.
    + intros E. rewrite E in Ha. pose proof (i_fact s I h) as Hf2. rewrite E in Hf2. by destruct (ctx_of s h).
    + by rewrite Hc.
    + auto.
Qed.

Lemma inv_release_p s s' h q b :
  inv s → release_p h q (ctx_of s h) b s = Some s' → holds_p (ctx_of s h) (active s h) = Some q → holds_p (ctx_of s h) b = None →
  holds_lk b = holds_lk (active s h) →
  fact s (ctx_of s h) b → active s h ≠ SlpSched → (∀ p, active s h ≠ SchSwtch p) → committed b = false →
  (∀ p, awaits s p → still_scans (active s h) p = true → still_scans b p = true) → inv s'.
Proof.
  intros I E Ha Hb Hp Hf Hn Hsw Hc Hs. pose proof (proj2 (i_pl s I h q) Ha) as El. unfold release_p in E.
  rewrite decide_True in E by done. simplify_eq. apply (inv_locks s h b (lk s) (<[q := None]> (plock s))); try done.
  + intros h'. case_decide; [subst; rewrite Hp; apply (i_lk s I)|done].
  + intros h' q'. cbn. destruct (decide (q' = q)) as [->|Hne].
    * rewrite fn_lookup_insert, El, Hb. case_decide; split; congruence.
    * rewrite fn_lookup_insert_ne by done. case_decide; [|done]. subst. rewrite (i_pl s I), Ha, Hb. split; congruence.
  + by rewrite Hc.
Qed.

(** Steps that write the shared fields. *)
Lemma inv_set_cond s h b v :
  inv s → holds_lk (active s h) = true → holds_lk b = true → holds_p (ctx_of s h) b = holds_p (ctx_of s h) (active s h) →
  fact (set_cond v s) (ctx_of s h) b → active s h ≠ SlpSched → (∀ p, active s h ≠ SchSwtch p) → (v = true → ∀ p, still_scans b p = true) →
  inv (goto (ctx_of s h) b (set_cond v s)).
Proof.
  intros I Ha Hb Hp Hf Hn Hsw Hs. apply (inv_local s h b (lk s) (plock s) (pst s) (pchan s) v); try done.
  - intros h'. case_decide; [subst; by rewrite (i_lk s I), Ha, Hb|done].
  - intros h' q. case_decide; [subst; rewrite Hp; apply (i_pl s I)|done].
  - intros h' Hne Hh. by apply (fact_cond s h h' v I Hne Ha).
  - intros p Hp'. by apply slp_keep.
  - intros p Hc _ _. left. by apply Hs.
  - by left.
Qed.

Lemma inv_set_chan s h p o b :
  inv s → cur s h = Some p → holds_lk b = holds_lk (active s h) → holds_p (ctx_of s h) b = holds_p (ctx_of s h) (active s h) →
  fact (set_chan p o s) (ctx_of s h) b → pst s p = RUNNING → (∀ p, active s h ≠ SchSwtch p) → (committed b = true → committed (active s h) = true) →
  still_scans (active s h) = (λ _, false) → inv (goto (ctx_of s h) b (set_chan p o s)).
Proof.
  intros I Hcur Hl Hp Hf Hr Hsw Hc Hs. assert (ctx_of s h = OfProc p) as Hx by (unfold ctx_of; by rewrite Hcur).
  assert (active s h ≠ SlpSched) as Hn.
  { intros E. pose proof (i_fact s I h) as Hf0. rewrite Hx, E in Hf0. cbn in Hf0. congruence. }
  apply (inv_local s h b (lk s) (plock s) (pst s) (<[p := o]> (pchan s)) (cond s)); try done.
  - intros h'. case_decide; [subst; rewrite Hl; apply (i_lk s I)|done].
  - intros h' q. case_decide; [subst; rewrite Hp; apply (i_pl s I)|done].
  - intros h' Hne Hh. by apply (fact_chan s h h' p o I Hne Hcur).
  - intros q Hq. rewrite fn_lookup_insert_ne by congruence. by apply slp_keep.
  - intros q Hco Hq Hlt. apply main_keep; [done| | |done..]; [by left; apply Hc|intros _; by rewrite Hs].
  - by left.
Qed.

Lemma inv_set_pst s h q v b :
  inv s → holds_p (ctx_of s h) (active s h) = Some q → pst s q ≠ RUNNING ∨ cur s h = Some q →
  holds_lk b = holds_lk (active s h) → holds_p (ctx_of s h) b = Some q →
  fact (set_pst q v s) (ctx_of s h) b → active s h ≠ SlpSched → (∀ p, active s h ≠ SchSwtch p) →
  (v = SLEEPING ∨ v = RUNNABLE ∨ v = RUNNING ∧ b = SchSwtch q) →
  (v = SLEEPING → pchan s q = Some ch ∧ ctx_of s h = OfProc q ∧ b = SlpSched) →
  (∀ p, (p < NPROC)%nat → (<[q := v]> (pst s)) p = SLEEPING ∨ committed ((<[ctx_of s h := b]> (at_ s)) (OfProc p)) = true →
    awaits s p ∧ (still_scans (active s h) p = true → still_scans b p = true)) →
  inv (goto (ctx_of s h) b (set_pst q v s)).
Proof.
  intros I Ha Hr Hl Hb Hf Hn Hsw Hst Hv Hm. pose proof (proj2 (i_pl s I h q) Ha) as Hq.
  apply (inv_local s h b (lk s) (plock s) (<[q := v]> (pst s)) (pchan s) (cond s)); try done.
  - intros h'. case_decide; [subst; rewrite Hl; apply (i_lk s I)|done].
  - intros h' q'. case_decide; [subst; by rewrite (i_pl s I), Ha, Hb|done].
  - intros h' Hne Hh. by apply (fact_pst s h h' q v I Hne Hq Hr).
  - intros p Hp. cbn [at_]. destruct (decide (p = q)) as [->|Hne].
    + rewrite fn_lookup_insert in Hp. destruct (Hv Hp) as (E1 & E2 & E3). rewrite E2, fn_lookup_insert. by subst b; auto.
    + rewrite fn_lookup_insert_ne in Hp by done. by apply slp_keep.
  - intros p Hc Hp Hlt. destruct (Hm p Hlt Hp) as [Hnd Hs]. destruct (i_main s I p Hc (proj2 Hnd) Hlt) as [h' Hh].
    destruct (decide (h' = h)) as [->|]; [left; by apply Hs|right; by exists h'].
  - intros p. destruct (decide (p = q)) as [->|]; [rewrite fn_lookup_insert; by right|left; by rewrite fn_lookup_insert_ne].
Qed.

(** Process [q], whose lock is held elsewhere, is not on its way to sleep. *)
Lemma not_committed s h q : inv s → plock s q = Some h → ctx_of s h ≠ OfProc q → committed (at_ s (OfProc q)) = false.
Proof.
  intros I Hq Hx. destruct (committed (at_ s (OfProc q))) eqn:E; [|done]. exfalso.
  destruct (decide (cur s h = Some q)) as [Hc|Hc]; [apply Hx; unfold ctx_of; by rewrite Hc|].
  assert (∀ h', cur s h' ≠ Some q) as Hoff.
  { intros h' Hc'. assert (ctx_of s h' = OfProc q) as Hx' by (unfold ctx_of; by rewrite Hc').
    assert (plock s q = Some h') by (apply (i_pl s I); unfold active; rewrite Hx'; by destruct (at_ s (OfProc q))). congruence. }
  destruct (i_off s I q Hoff) as [E'|[k E']]; by rewrite E' in E.
Qed.

(** In process [p], which hart [h] runs, at [a]. *)
Lemma at_proc s h p a : inv s → cur s h = Some p → at_ s (OfProc p) = a →
  ctx_of s h = OfProc p ∧ active s h = a ∧ fact_proc s p a.
Proof.
  intros I Hc Ha. assert (ctx_of s h = OfProc p) as Hx by (unfold ctx_of; by rewrite Hc).
  pose proof (i_fact s I h) as Hf. unfold active in *. rewrite Hx, Ha in *. done.
Qed.

Lemma inv_interrupted s s' h p a k c : inv s → cur s h = Some p → at_ s (OfProc p) = a →
  a = resume_pc k → interrupted c k (OfProc p) s = Some s' → inv s'.
Proof.
  intros I Hc Ha Ek E. destruct (at_proc s h p a I Hc Ha) as (Hx & Hac & Hf). rewrite <- Hx in E.
  rewrite Ek in Hac, Hf. destruct c; cbn in E; simplify_eq; apply inv_goto; rewrite ?Hac, ?Hx; by destruct k.
Qed.

Lemma inv_wait s s' h c : inv s → wait_step h c s = Some s' → inv s'.
Proof.
  intros I E. unfold wait_step in E. destruct (cur s h) as [p|] eqn:Hc; [|done].
  destruct (at_ s (OfProc p)) eqn:Ha; try done; destruct (at_proc s h p _ I Hc Ha) as (Hx & Hac & Hf).
  - destruct c; try (by eapply (inv_interrupted s s' h p _ RIdle)); rewrite <- Hx in E; simplify_eq;
      apply inv_goto; by rewrite ?Hac, ?Hx.
  - destruct c; try (by eapply (inv_interrupted s s' h p _ RWait)). rewrite <- Hx in E.
    eapply inv_acquire_lk; [done|exact E|..]; by rewrite ?Hac, ?Hx.
  - rewrite <- Hx in E. simplify_eq. destruct (cond s) eqn:Hco; apply inv_goto; rewrite ?Hac, ?Hx; by auto.
  - rewrite <- Hx in E. destruct Hf as [_ Hf]. destruct c; simplify_eq;
      [apply inv_goto..|apply inv_set_cond]; by rewrite ?Hac, ?Hx.
  - rewrite <- Hx in E. eapply inv_release_lk; [done|exact E|..]; by rewrite ?Hac, ?Hx.
Qed.

(** A context switch on hart [h]: the hart goes from one context to another,
    which stands where it left off and holds the same lock. *)
Lemma inv_swtch s h o x b q :
  inv s → let s' := St (lk s) (plock s) (pst s) (pchan s) (cond s) (<[h := o]> (cur s)) (<[x := b]> (at_ s)) in
  x = ctx_of s h → ctx_of s' h ≠ x → (∀ p, o = Some p → at_ s' (OfHart h) = SchRelease p ∧ (p < NPROC)%nat ∧ ∀ h', cur s h' ≠ Some p) →
  holds_lk (active s h) = false → holds_lk (at_ s (ctx_of s' h)) = false →
  holds_p x (active s h) = Some q → holds_p (ctx_of s' h) (at_ s (ctx_of s' h)) = Some q →
  fact s' (ctx_of s' h) (at_ s (ctx_of s' h)) →
  (∀ p, (∀ h', cur s' h' ≠ Some p) → at_ s' (OfProc p) = SlpTidy ∨ ∃ k, at_ s' (OfProc p) = YdRelease k) →
  (o ≠ None → o = Some q) →
  (∀ p, pst s p = SLEEPING → at_ s' (OfProc p) = SlpSched ∨ at_ s' (OfProc p) = SlpTidy) →
  (∀ p, pst s p = RUNNING → cur s h = Some p ∨ active s h = SchSwtch p → o = Some p) →
  committed b = false → still_scans (active s h) = (λ _, false) → inv s'.
Proof.
  intros I s' Hx Hne Ho Hl Hl' Hp Hp' Hf Hoff Hoq Hslp Hrun Hcb Hs.
  assert (∀ h', h' ≠ h → ctx_of s' h' = ctx_of s h' ∧ active s' h' = active s h') as Hoth.
  { intros h' Hh. assert (ctx_of s' h' = ctx_of s h') as E by (unfold ctx_of, s'; cbn; by rewrite fn_lookup_insert_ne).
    split; [done|]. unfold active at 1. rewrite E. cbn. subst x. by apply active_other. }
  assert (active s' h = at_ s (ctx_of s' h)) as Hme by (unfold active; cbn; by rewrite fn_lookup_insert_ne).
  split.
  - intros h'. change (lk s') with (lk s). rewrite (i_lk s I). destruct (decide (h' = h)) as [->|D]; [by rewrite Hme, Hl, Hl'|by destruct (Hoth h' D) as [_ ->]].
  - intros h' q'. change (plock s') with (plock s). rewrite (i_pl s I). destruct (decide (h' = h)) as [->|D].
    + rewrite Hme, Hp'. by rewrite <- Hx, Hp.
    + by destruct (Hoth h' D) as [-> ->].
  - intros h' p E. unfold s' in E; cbn in E. destruct (decide (h' = h)) as [->|D].
    + rewrite fn_lookup_insert in E. destruct (Ho p E) as (? & ? & _). done.
    + rewrite fn_lookup_insert_ne in E by done. destruct (i_cur s I h' p E) as [E1 E2]. split; [|done].
      unfold s'. cbn. rewrite fn_lookup_insert_ne; [done|]. subst x. unfold ctx_of. destruct (cur s h); congruence.
  - intros h1 h2 p E1 E2. unfold s' in E1, E2; cbn in E1, E2.
    destruct (decide (h1 = h)) as [->|D1], (decide (h2 = h)) as [->|D2]; try done;
      rewrite ?fn_lookup_insert in *; rewrite ?fn_lookup_insert_ne in * by done.
    + destruct (Ho p E1) as (_ & _ & Hn). by destruct (Hn h2).
    + destruct (Ho p E2) as (_ & _ & Hn). by destruct (Hn h1).
    + by apply (i_inj s I h1 h2 p).
  - exact Hoff.
  - intros h'. destruct (decide (h' = h)) as [->|D]; [by rewrite Hme|]. destruct (Hoth h' D) as [-> ->].
    pose proof (i_fact s I h') as Hf'. destruct (ctx_of s h') as [|h0] eqn:Ex; [by destruct (active s h')|].
    destruct (active s h') eqn:Ea; try done. destruct Hf' as (F1 & F2 & F3). split_and!; [done..|]. intros h''. unfold s'; cbn.
    destruct (decide (h'' = h)) as [->|D'']; [|by rewrite fn_lookup_insert_ne].
    rewrite fn_lookup_insert. intros ->. specialize (Hoq ltac:(done)). simplify_eq.
    assert (plock s q = Some h) as E1 by (apply (i_pl s I); by rewrite <- Hp).
    assert (plock s q = Some h') as E2 by (apply (i_pl s I); by rewrite Ex, Ea). congruence.
  - intros p Hsl. split; [by apply (i_slp s I)|by apply Hslp].
  - intros p Hc Hn Hlt. assert (pst s p = SLEEPING ∨ committed (at_ s (OfProc p)) = true) as Hn'.
    { destruct Hn as [|Hn]; [by left|right]. unfold s' in Hn; cbn in Hn. destruct (decide (x = OfProc p)) as [E|E].
      - rewrite E, fn_lookup_insert in Hn. congruence.
      - by rewrite fn_lookup_insert_ne in Hn. }
    destruct (i_main s I p Hc Hn' Hlt) as [h' Hh]. exists h'. destruct (decide (h' = h)) as [->|D]; [by rewrite Hs in Hh|].
    by destruct (Hoth h' D) as [_ ->].
  - intros p. change (pst s' p) with (pst s p). destruct (i_run s I p) as [|[|[Hr [h' E]]]]; [by auto..|]. right; right. split; [done|].
    exists h'. destruct (decide (h' = h)) as [->|D].
    + left. unfold s'; cbn. rewrite fn_lookup_insert. by apply Hrun.
    + destruct (Hoth h' D) as [_ ->]. unfold s'; cbn. by rewrite fn_lookup_insert_ne.
Qed.

(** [sched] passes its checks and leaves the process for the hart's scheduler. *)
Lemma inv_sched s s' h p b : inv s → cur s h = Some p → sched_step h p b s = Some s' →
  (active s h = SlpSched ∧ b = SlpTidy ∨ ∃ k, active s h = YdSched k ∧ b = YdRelease k) → inv s'.
Proof.
  intros I Hc E Hb. assert (ctx_of s h = OfProc p) as Hx by (unfold ctx_of; by rewrite Hc).
  pose proof (i_fact s I h) as Hf. rewrite Hx in Hf. destruct (i_cur s I h p Hc) as [Hh Hlt].
  assert (holds_lk (active s h) = false ∧ holds_p (OfProc p) (active s h) = Some p ∧ pst s p ≠ RUNNING ∧ (pst s p = SLEEPING → b = SlpTidy) ∧
    (b = SlpTidy ∨ ∃ k, b = YdRelease k) ∧ committed b = false ∧ still_scans (active s h) = (λ _, false)) as (H1 & H2 & H3 & H4 & H5 & H6 & H7).
  { destruct Hb as [[Ea ->]|(k & Ea & ->)]; rewrite Ea in *; cbn in Hf; rewrite Hf; split_and!; try done; eauto. }
  unfold sched_step in E. rewrite decide_True in E.
  2: { split_and!; [apply (i_pl s I); by rewrite Hx|intros El; apply (i_lk s I) in El; congruence|done]. }
  simplify_eq.
  assert (ctx_of (St (lk s) (plock s) (pst s) (pchan s) (cond s) (<[h := None]> (cur s)) (<[OfProc p := b]> (at_ s))) h = OfHart h) as Hx'
    by (unfold ctx_of; cbn; by rewrite fn_lookup_insert).
  apply (inv_swtch s h None (OfProc p) b p I); rewrite ?Hx', ?Hh; try done.
  - intros q Hq. cbn in *. destruct (decide (q = p)) as [->|D]; [rewrite fn_lookup_insert; naive_solver|].
    rewrite fn_lookup_insert_ne by congruence. apply (i_off s I). intros h' E. specialize (Hq h').
    destruct (decide (h' = h)) as [->|D']; [congruence|]. by rewrite fn_lookup_insert_ne in Hq.
  - intros q Hq. cbn. destruct (decide (q = p)) as [->|D]; [rewrite fn_lookup_insert; auto|].
    rewrite fn_lookup_insert_ne by congruence. by apply (i_slp s I).
  - intros q Hr [E|E]; [congruence|]. destruct Hb as [[Ea _]|(k & Ea & _)]; congruence.
Qed.

Lemma inv_sleep s s' h c : inv s → sleep_step h c s = Some s' → inv s'.
Proof.
  intros I E. unfold sleep_step in E. destruct (cur s h) as [p|] eqn:Hc; [|done].
  destruct (at_ s (OfProc p)) eqn:Ha; try done; destruct (at_proc s h p _ I Hc Ha) as (Hx & Hac & Hf).
  - rewrite <- Hx in E. eapply inv_acquire_p; [done|exact E|..]; by rewrite ?Hac, ?Hx.
  - rewrite <- Hx in E. destruct Hf as [Hco Hf]. eapply inv_release_lk; [done|exact E|..]; by rewrite ?Hac, ?Hx.
  - rewrite <- Hx in E. simplify_eq. apply inv_set_chan; rewrite ?Hac, ?Hx; try done. split; [by apply fn_lookup_insert|done].
  - rewrite <- Hx in E. destruct Hf as [Hch Hf]. simplify_eq. apply inv_set_pst; rewrite ?Hac, ?Hx; try done; [by right|apply fn_lookup_insert|by left|].
    intros q Hlt Hq. destruct (decide (q = p)) as [->|Hne].
    + split; [split; [done|right; by rewrite Ha]|done].
    + rewrite !fn_lookup_insert_ne in Hq by congruence. done.
  - by eapply inv_sched; eauto.
  - rewrite <- Hx in E. simplify_eq. by apply inv_set_chan; rewrite ?Hac, ?Hx.
  - rewrite <- Hx in E. eapply inv_release_p; [done|exact E|..]; by rewrite ?Hac, ?Hx.
  - destruct c; try (by eapply (inv_interrupted s s' h p _ RReacquire)). rewrite <- Hx in E.
    eapply inv_acquire_lk; [done|exact E|..]; by rewrite ?Hac, ?Hx.
Qed.

(** A context that holds the lock of process [q], or runs it, and is not in
    [sleep] itself, knows that [q] does not depend on a wakeup unless it is
    asleep. *)
Lemma awaits_asleep s h q : inv s → plock s q = Some h ∨ cur s h = Some q → committed (active s h) = false →
  awaits s q → pst s q = SLEEPING.
Proof.
  intros I Hq Hc [_ [|Hn]]; [done|]. exfalso. destruct (decide (ctx_of s h = OfProc q)) as [E|E].
  - unfold active in Hc. rewrite E in Hc. congruence.
  - destruct Hq as [Hq|Hq]; [|apply E; unfold ctx_of; by rewrite Hq]. rewrite (not_committed s h q I Hq E) in Hn. done.
Qed.

(** Setting the sleeping process [q] runnable. *)
Lemma inv_rouse s h q b :
  inv s → holds_p (ctx_of s h) (active s h) = Some q → pst s q = SLEEPING → committed (active s h) = false →
  holds_lk b = holds_lk (active s h) → holds_p (ctx_of s h) b = Some q → committed b = false →
  fact (set_pst q RUNNABLE s) (ctx_of s h) b →
  (∀ p, p ≠ q → still_scans (active s h) p = true → still_scans b p = true) →
  inv (goto (ctx_of s h) b (set_pst q RUNNABLE s)).
Proof.
  intros I Ha Hq Hc Hl Hb Hcb Hf Hs. pose proof (i_fact s I h) as Hf0.
  apply inv_set_pst; try done; [left; congruence|by intros E; rewrite E in Hc| |by auto|].
  { intros p E. rewrite E in *. cbn in Ha. simplify_eq. destruct (ctx_of s h); [done|]. cbn in Hf0. destruct_and?. congruence. }
  intros p Hlt Hp. destruct (decide (p = q)) as [->|Hne].
  - exfalso. rewrite fn_lookup_insert in Hp. destruct Hp as [|Hp]; [done|].
    destruct (decide (ctx_of s h = OfProc q)) as [E|E]; [rewrite E, fn_lookup_insert in Hp; congruence|].
    rewrite fn_lookup_insert_ne in Hp by done. apply (i_pl s I) in Ha. by rewrite (not_committed s h q I Ha E) in Hp.
  - split; [|by apply Hs]. split; [done|]. rewrite fn_lookup_insert_ne in Hp by done. destruct Hp as [|Hp]; [by left|right].
    destruct (decide (ctx_of s h = OfProc p)) as [E|E]; [rewrite E, fn_lookup_insert in Hp; congruence|].
    by rewrite fn_lookup_insert_ne in Hp.
Qed.

Lemma inv_wakeup s s' h : inv s → wakeup_step h s = Some s' → inv s'.
Proof.
  intros I E. unfold wakeup_step in E. pose proof (i_fact s I h) as Hf.
  destruct (at_ s (ctx_of s h)) eqn:Ha; try done; fold (active s h) in Ha; rewrite Ha in Hf.
  - eapply inv_acquire_lk; [done|exact E|..]; rewrite ?Ha; by destruct (ctx_of s h).
  - simplify_eq. apply inv_set_cond; rewrite ?Ha; by destruct (ctx_of s h).
  - case_decide as Hq; [|case_decide as Hme]; simplify_eq.
    + apply inv_goto; rewrite ?Ha; try by destruct (ctx_of s h). intros p [Hlt _] Hs. cbn in Hs. apply bool_decide_eq_true_1 in Hs. lia.
    + apply inv_goto; rewrite ?Ha; try by destruct (ctx_of s h). intros p Hn Hs. cbn in *. apply bool_decide_eq_true_1 in Hs.
      apply bool_decide_eq_true_2. destruct (decide (p = q)) as [->|]; [|lia].
      assert (ctx_of s h = OfProc q) as Hx by (unfold ctx_of; by rewrite Hme).
      pose proof (awaits_asleep s h q I (or_intror Hme) ltac:(by rewrite Ha) Hn) as Hsl. apply (asleep_at s h q I Hx) in Hsl. congruence.
    + eapply inv_acquire_p; [done|exact E|..]; rewrite ?Ha; by destruct (ctx_of s h).
  - simplify_eq. case_decide as Ht.
    + apply inv_goto; rewrite ?Ha; destruct (ctx_of s h), Ht; done.
    + apply inv_goto; rewrite ?Ha; try by destruct (ctx_of s h). intros p Hn Hs. cbn in *. apply bool_decide_eq_true_1 in Hs.
      apply bool_decide_eq_true_2. destruct (decide (p = q)) as [->|]; [|lia].
      assert (plock s q = Some h) as Hq by (apply (i_pl s I); by rewrite Ha).
      pose proof (awaits_asleep s h q I (or_introl Hq) ltac:(by rewrite Ha) Hn) as Hsl. destruct Ht. split; [done|]. by apply (i_slp s I).
  - simplify_eq. assert (pst s q = SLEEPING) as Hsl by (destruct (ctx_of s h); apply Hf).
    apply inv_rouse; rewrite ?Ha; try done.
    + destruct (ctx_of s h); [|apply Hf]. cbn in *. destruct Hf as [_ Hf]. rewrite fn_lookup_insert_ne by congruence. done.
    + intros p Hne Hs. cbn in *. apply bool_decide_eq_true_1 in Hs. apply bool_decide_eq_true_2. lia.
  - eapply inv_release_p; [done|exact E|..]; rewrite ?Ha; by destruct (ctx_of s h).
  - eapply inv_release_lk; [done|exact E|..]; rewrite ?Ha; try done; destruct (ctx_of s h); by destruct k.
Qed.

Lemma inv_kill s s' h : inv s → kill_step h s = Some s' → inv s'.
Proof.
  intros I E. unfold kill_step in E. pose proof (i_fact s I h) as Hf.
  destruct (at_ s (ctx_of s h)) eqn:Ha; try done; fold (active s h) in Ha; rewrite Ha in Hf; destruct (ctx_of s h) as [p|] eqn:Hx; try done; rewrite <- Hx in E.
  - eapply inv_acquire_p; [done|exact E|..]; by rewrite ?Ha, ?Hx.
  - simplify_eq. case_decide as Ht; apply inv_goto; by rewrite ?Ha, ?Hx.
  - simplify_eq. destruct Hf as [Hsl Hr]. apply inv_rouse; rewrite ?Ha, ?Hx; try done.
    cbn in *. by rewrite fn_lookup_insert_ne by congruence.
  - eapply inv_release_p; [done|exact E|..]; rewrite ?Ha, ?Hx; by destruct k.
Qed.

Lemma inv_yield s s' h : inv s → yield_step h s = Some s' → inv s'.
Proof.
  intros I E. unfold yield_step in E. destruct (cur s h) as [p|] eqn:Hc; [|done].
  destruct (at_ s (OfProc p)) eqn:Ha; try done; destruct (at_proc s h p _ I Hc Ha) as (Hx & Hac & Hf).
  - rewrite <- Hx in E. eapply inv_acquire_p; [done|exact E|..]; by rewrite ?Hac, ?Hx.
  - rewrite <- Hx in E. simplify_eq. apply inv_set_pst; rewrite ?Hac, ?Hx; try done; [by right|apply fn_lookup_insert|by auto|].
    intros q Hlt Hq. destruct (decide (q = p)) as [->|Hne]; [rewrite !fn_lookup_insert in Hq; by destruct Hq|].
    by rewrite !fn_lookup_insert_ne in Hq by congruence.
  - eapply inv_sched; eauto.
  - rewrite <- Hx in E. eapply inv_release_p; [done|exact E|..]; rewrite ?Hac, ?Hx; by destruct k.
Qed.

(** A runnable process whose lock this hart holds runs on no hart. *)
Lemma runnable_off s h h' p : inv s → cur s h = None → plock s p = Some h → pst s p = RUNNABLE → cur s h' = Some p → False.
Proof.
  intros I Hc Hq Hr Hc'. assert (ctx_of s h' = OfProc p) as Hx by (unfold ctx_of; by rewrite Hc').
  pose proof (i_fact s I h') as Hf. pose proof (i_pl s I h' p) as Hp. rewrite Hx in Hf, Hp.
  destruct (active s h') eqn:Ea; cbn in Hf, Hp; try (by destruct_and?; congruence).
  assert (plock s p = Some h') by (by apply Hp). congruence.
Qed.

Lemma inv_scheduler s s' h c : inv s → scheduler_step h c s = Some s' → inv s'.
Proof.
  intros I E. unfold scheduler_step in E. destruct (cur s h) as [p|] eqn:Hc; [done|].
  assert (ctx_of s h = OfHart h) as Hx by (unfold ctx_of; by rewrite Hc).
  pose proof (i_fact s I h) as Hf. unfold active in Hf. rewrite Hx in Hf.
  destruct (at_ s (OfHart h)) eqn:Ha; try done; assert (active s h = at_ s (OfHart h)) as Hac by (unfold active; by rewrite Hx);
    rewrite Ha in Hac; rewrite <- Hx in E.
  - destruct c; try done; [|case_decide]; simplify_eq; apply inv_goto; by rewrite ?Hac, ?Hx.
  - eapply inv_acquire_p; [done|exact E|..]; by rewrite ?Hac, ?Hx.
  - simplify_eq. case_decide as Ht; apply inv_goto; by rewrite ?Hac, ?Hx.
  - simplify_eq. destruct Hf as [Hlt Hr].
    assert (plock s p = Some h) as Hq by (apply (i_pl s I); by rewrite Hac).
    apply inv_set_pst; rewrite ?Hac, ?Hx; try done; [left; congruence| |by auto| ].
    + split; [done|]. split; [apply fn_lookup_insert|]. intros h' Hc'. by apply (runnable_off s h h' p).
    + intros q Hltq Hn. rewrite (fn_lookup_insert_ne (at_ s)) in Hn by done. destruct (decide (q = p)) as [->|Hne].
      * rewrite fn_lookup_insert, (not_committed s h p I Hq) in Hn by (by rewrite Hx). by destruct Hn.
      * rewrite fn_lookup_insert_ne in Hn by done. done.
  - simplify_eq. destruct Hf as (Hlt & Hr & Hoff). pose proof (i_off s I p Hoff) as Hp.
    assert (ctx_of (St (lk s) (plock s) (pst s) (pchan s) (cond s) (<[h := Some p]> (cur s)) (<[OfHart h := SchRelease p]> (at_ s))) h = OfProc p) as Hx'
      by (unfold ctx_of; cbn; by rewrite fn_lookup_insert).
    rewrite Hx. apply (inv_swtch s h (Some p) (OfHart h) (SchRelease p) p I); rewrite ?Hx', ?Hac, ?Hx; try done.
    + intros q Eq. simplify_eq. split_and!; [apply fn_lookup_insert|done..].
    + destruct Hp as [->|[k ->]]; done.
    + destruct Hp as [->|[k ->]]; done.
    + destruct Hp as [->|[k ->]]; done.
    + intros q Hq. cbn in *. rewrite fn_lookup_insert_ne by done. apply (i_off s I). intros h' E. specialize (Hq h').
      destruct (decide (h' = h)) as [->|D']; [congruence|]. by rewrite fn_lookup_insert_ne in Hq.
    + intros q Hq. cbn. rewrite fn_lookup_insert_ne by done. by apply (i_slp s I).
    + intros q _ [E|E]; congruence.
  - eapply inv_release_p; [done|exact E|..]; by rewrite ?Hac, ?Hx.
Qed.

Lemma step_inv s s' h c : inv s → step h c s = Some s' → inv s'.
Proof.
  intros I E. unfold step in E. rewrite !union_Some in E.
  destruct E as [[[[[E|[_ E]]|[_ E]]|[_ E]]|[_ E]]|[_ E]].
  - by eapply inv_wait.
  - by eapply inv_sleep.
  - by eapply inv_wakeup.
  - by eapply inv_kill.
  - by eapply inv_yield.
  - by eapply inv_scheduler.
Qed.

Lemma inv_initial : inv initial.
Proof. split; try done; [intros p _; right; by exists RIdle|intros p; by right; left]. Qed.

Lemma inv_schedule l s s' : inv s → run_schedule l s = Some s' → inv s'.
Proof.
  revert s. induction l as [|[h c] l IH]; intros s I E; cbn in E; [by simplify_eq|].
  apply bind_Some in E as (s1 & E1 & E). apply (IH s1); [by eapply step_inv|done].
Qed.

(** ** What the invariant says of the waiting processes *)

Lemma no_panic s x : inv s → at_ s x ≠ Panicked.
Proof.
  intros I E. destruct x as [p|h].
  - destruct (i_off s I p) as [|[k ?]]; [|congruence..]. intros h Hc. by destruct (at_proc s h p _ I Hc E) as (_ & _ & []).
  - pose proof (i_fact s I h) as Hf. unfold active, ctx_of in Hf. destruct (cur s h) as [p|] eqn:Hc.
    + destruct (i_cur s I h p Hc). congruence.
    + by rewrite E in Hf.
Qed.

Lemma lk_holder s p : inv s → holds_lk (at_ s (OfProc p)) = true → ∃ h, cur s h = Some p ∧ lk s = Some h.
Proof.
  intros I Hp. assert (∀ h, cur s h = Some p → lk s = Some h) as Hc.
  { intros h Hc. apply (i_lk s I). unfold active, ctx_of. by rewrite Hc. }
  assert (¬ ∀ h, cur s h ≠ Some p) as Hn.
  { intros Hoff. destruct (i_off s I p Hoff) as [E|[k E]]; by rewrite E in Hp. }
  destruct (lk s) as [h|] eqn:El; [|by destruct Hn; intros h Hh; apply Hc in Hh].
  exists h. split; [|done]. destruct (decide (cur s h = Some p)) as [|Hne]; [done|].
  destruct Hn. intros h' Hh. pose proof (Hc h' Hh). congruence.
Qed.

(** Process [p] is on its way to sleep: it has seen that the condition is
    false, and is not asleep yet. *)
Definition falling_asleep (a : pc) : bool :=
  match a with SlpAcquire | SlpRelease => true | _ => committed a end.

Lemma asleep_is_scanned s p : inv s → (p < NPROC)%nat → cond s = true →
  pst s p = SLEEPING ∨ falling_asleep (at_ s (OfProc p)) = true → ∃ h, lk s = Some h ∧ still_scans (active s h) p = true.
Proof.
  intros I Hlt Hc Hp. assert (pst s p = SLEEPING ∨ committed (at_ s (OfProc p)) = true) as Hn.
  { destruct Hp as [|Hp]; [by left|right]. destruct (at_ s (OfProc p)) eqn:Ha; try done;
      destruct (lk_holder s p I) as (h & Hh & _); try (by rewrite Ha); destruct (at_proc s h p _ I Hh Ha) as (_ & _ & Hf & _); congruence. }
  destruct (i_main s I p Hc Hn Hlt) as [h Hh]. exists h. split; [|done]. apply (i_lk s I). by destruct (active s h).
Qed.

Lemma woken_runnable s p : inv s → (p < NPROC)%nat → cond s = true → lk s = None → plock s p = None → pst s p = RUNNABLE ∨ ∃ h, cur s h = Some p.
Proof.
  intros I Hlt Hc Hl Hp. destruct (i_run s I p) as [Hs|[|[_ [h [Hh|Hh]]]]]; [|by left|right; by exists h|].
  - destruct (asleep_is_scanned s p I Hlt Hc (or_introl Hs)) as (h & E & _). congruence.
  - exfalso. assert (plock s p = Some h) by (apply (i_pl s I); by rewrite Hh). congruence.
Qed.

(** One visit of the scheduler of hart [h] to process [p], and the process up to
    its return from [sleep] and the test of the condition. *)
Definition visit h p : list (nat * choice) := (h, DoVisit p) :: replicate 8 (h, Go).

Lemma step_of_hart s h c a : cur s h = None → at_ s (OfHart h) = a →
  match a with Idle | SchAcquire _ | SchTest _ | SchRun _ | SchSwtch _ | SchRelease _ => True | _ => False end →
  step h c s = scheduler_step h c s.
Proof.
  intros Hc Ha Hk. unfold step, wait_step, sleep_step, wakeup_step, kill_step, yield_step, ctx_of. rewrite !Hc, Ha.
  by destruct a, (scheduler_step h c s).
Qed.

Lemma step_of_sleep s h c p a : cur s h = Some p → at_ s (OfProc p) = a →
  match a with SlpTidy | SlpReleaseP | SlpReacquire => True | _ => False end → step h c s = sleep_step h c s.
Proof.
  intros Hc Ha Hk. unfold step, wait_step, wakeup_step, kill_step, yield_step, scheduler_step, ctx_of. rewrite !Hc, Ha.
  by destruct a, (sleep_step h c s).
Qed.

Lemma step_of_test s h c p : cur s h = Some p → at_ s (OfProc p) = WaitTest → step h c s = wait_step h c s.
Proof.
  intros Hc Ha. unfold step, sleep_step, wakeup_step, kill_step, yield_step, scheduler_step, ctx_of. rewrite !Hc, Ha.
  by destruct (wait_step h c s).
Qed.

Lemma schedule_cons h c l s s' : step h c s = Some s' → run_schedule ((h, c) :: l) s = run_schedule l s'.
Proof. intros E. cbn [run_schedule]. by rewrite E. Qed.

Ltac look :=
  cbn; repeat first [rewrite fn_lookup_insert|rewrite fn_lookup_insert_ne by congruence|match goal with E : _ = _ |- _ => rewrite E end]; cbn.
Ltac look_step lem :=
  erewrite schedule_cons by
    (erewrite lem by (look; done); unfold scheduler_step, sleep_step, wait_step, acquire_p, release_p, acquire_lk; look;
     rewrite ?decide_True by done; reflexivity).

Lemma visit_returns s h p : (p < NPROC)%nat → cond s = true → lk s = None → plock s p = None → pst s p = RUNNABLE →
  at_ s (OfProc p) = SlpTidy → cur s h = None → at_ s (OfHart h) = Idle →
  ∃ s', run_schedule (visit h p) s = Some s' ∧ at_ s' (OfProc p) = WaitDone ∧ lk s' = Some h ∧ cur s' h = Some p.
Proof.
  intros Hlt Hc Hl Hp Hr Ha Hh Hi.
  destruct s as [l pl st ch0 co cu f]. cbn in Hc, Hl, Hp, Hr, Ha, Hh, Hi. subst l co. unfold visit. cbn [replicate].
  look_step step_of_hart. look_step step_of_hart. look_step step_of_hart. look_step step_of_hart. look_step step_of_hart.
  look_step step_of_sleep. look_step step_of_sleep. look_step step_of_sleep. look_step step_of_test.
  eexists. split; [reflexivity|]. look. done.
Qed.

(** C10: no wakeup is lost, whatever the order in which any number of harts take
    their steps.  In every state that a schedule reaches: no [acquire],
    [release] or [sched] has panicked; a process that tests the condition, or
    has come out of the loop, holds the condition lock, and out of the loop the
    condition is true.  When the condition is true, a process that is asleep
    on the channel or on its way to sleep (anywhere between the test of the
    condition and its last line before the switch) is one that a waker, which
    holds the lock at that moment, has yet to come to: once the lock is free,
    nobody sleeps.  A process that waits in [sleep] is then runnable, and one
    visit of any idle hart's scheduler brings it out of the loop with the lock
    held. *)
Theorem no_lost_wakeup l s : run_schedule l initial = Some s →
  (∀ x, at_ s x ≠ Panicked) ∧
  (∀ p, at_ s (OfProc p) = WaitTest ∨ at_ s (OfProc p) = WaitDone →
    ∃ h, cur s h = Some p ∧ lk s = Some h ∧ (at_ s (OfProc p) = WaitDone → cond s = true)) ∧
  (∀ p, (p < NPROC)%nat → cond s = true → pst s p = SLEEPING ∨ falling_asleep (at_ s (OfProc p)) = true →
    ∃ h, lk s = Some h ∧ still_scans (active s h) p = true) ∧
  (∀ p h, (p < NPROC)%nat → cond s = true → lk s = None → at_ s (OfProc p) = SlpTidy → plock s p = None →
    cur s h = None → at_ s (OfHart h) = Idle →
    pst s p = RUNNABLE ∧
    ∃ s', run_schedule (visit h p) s = Some s' ∧ at_ s' (OfProc p) = WaitDone ∧ lk s' = Some h ∧ cur s' h = Some p).
Proof.
  intros E. pose proof (inv_schedule l initial s inv_initial E) as I. split_and!.
  - intros x. by apply no_panic.
  - intros p Hp. destruct (lk_holder s p I) as (h & Hh & Hl); [by destruct Hp as [->| ->]|].
    exists h. split_and!; [done..|]. intros Ha. by destruct (at_proc s h p _ I Hh Ha) as (_ & _ & Hf & _).
  - intros p. by apply asleep_is_scanned.
  - intros p h Hlt Hc Hl Ha Hp Hh Hi. assert (pst s p = RUNNABLE) as Hr.
    { destruct (woken_runnable s p I Hlt Hc Hl Hp) as [|[h' Hh']]; [done|]. destruct (at_proc s h' p _ I Hh' Ha) as (Hx & Hac & _).
      assert (plock s p = Some h') by (apply (i_pl s I); by rewrite Hx, Hac). congruence. }
    split; [done|]. by apply visit_returns.
Qed.
End Steps.

(** ** A schedule

    Process 1, on hart 0, has seen that the condition is false and has released
    the condition lock, but is not marked asleep yet, when process 2, on hart 1,
    takes that lock, makes the condition true and begins to scan; hart 1 waits
    for process 1's lock, and finds it asleep. *)
Definition go (h n : nat) : list (nat * choice) := replicate n (h, Go).
Definition ex_race : list (nat * choice) :=
  (0%nat, DoVisit 1) :: go 0 5 ++ (1%nat, DoVisit 2) :: go 1 5 ++
  (0%nat, DoWait) :: go 0 4 ++
  (1%nat, DoWakeup) :: go 1 5.
Definition ex_schedule : list (nat * choice) := ex_race ++ go 0 4 ++ go 1 190.
Definition ex_after (l : list (nat * choice)) : state := default initial (run_schedule ChTicks l initial).

Example ex_race_committed :
  let s := ex_after ex_race in
  at_ s (OfProc 1) = SlpChan ∧ cond s = true ∧ lk s = Some 1%nat ∧ at_ s (OfProc 2) = WkVisit RIdle 1.
Proof. vm_compute. done. Qed.

Example ex_race_waits : run_schedule ChTicks (go 1 1) (ex_after ex_race) = None.
Proof. vm_compute. done. Qed.

Lemma no_lost_wakeup_witness :
  let s := ex_after ex_schedule in
  cond s = true ∧ lk s = None ∧ pst s 1%nat = RUNNABLE ∧
  ∃ s', run_schedule ChTicks (visit 0 1) s = Some s' ∧ at_ s' (OfProc 1) = WaitDone.
Proof.
  intros s. assert (run_schedule ChTicks ex_schedule initial = Some s) as E.
  { unfold s, ex_after. destruct (run_schedule ChTicks ex_schedule initial) eqn:E; [done|].
    exfalso. assert (bool_decide (is_Some (run_schedule ChTicks ex_schedule initial)) = true) as Hs by (vm_compute; reflexivity).
    rewrite E in Hs. discriminate Hs. }
  destruct (no_lost_wakeup ChTicks ex_schedule s E) as (_ & _ & _ & Hw).
  assert (cond s = true) as Hc by (vm_compute; reflexivity). assert (lk s = None) as Hl by (vm_compute; reflexivity).
  destruct (Hw 1%nat 0%nat) as (Hr & s' & E' & Ha & _).
  - unfold NPROC. lia.
  - exact Hc.
  - exact Hl.
  - vm_compute. reflexivity.
  - vm_compute. reflexivity.
  - vm_compute. reflexivity.
  - vm_compute. reflexivity.
  - split; [exact Hc|]. split; [exact Hl|]. split; [exact Hr|]. exists s'. split; [exact E'|exact Ha].
Defined.
