(* ===== verification/Random.v ===== *)
(** * Random: the pseudo-random generator of the lottery scheduler

    [random] of kernel/proc.c is a 16-bit Fibonacci shift register.  Its step
    is injective on 16-bit values and returns to its start only after 65535
    steps, so 65535 consecutive calls return every value of 1 .. 65535 exactly
    once: each ticket number is drawn equally often, and the register never
    gets stuck at 0. *)

From S2P Require Import Prelude Params CString State Spinlock PhysMem Kalloc Vm ProcBase.

(** ** One step as arithmetic *)

Definition u16_range (x : Z) : Prop := 0 ≤ x < 65536.

Lemma lfsr_bit_01 x : lfsr_bit x = 0 ∨ lfsr_bit x = 1.
Proof.
  unfold lfsr_bit. rewrite (land_ones_mod _ 1) by lia.
  assert (0 ≤ Z.lxor (Z.lxor (Z.lxor x (Z.shiftr x 2)) (Z.shiftr x 3)) (Z.shiftr x 5) mod 2 ^ 1 < 2)
    by (apply Z.mod_pos_bound; lia). lia.
Qed.

Lemma lfsr_next_val x : u16_range x → lfsr_next x = x / 2 + 32768 * lfsr_bit x.
Proof.
  intros Hx. unfold lfsr_next, u16_range in *. rewrite Z.shiftr_div_pow2, Z.shiftl_mul_pow2 by lia.
  change (2 ^ 1) with 2; change (2 ^ 15) with 32768.
  destruct (lfsr_bit_01 x) as [-> | ->].
  - cbn [Z.mul]. rewrite (wrapu_id 32) by (change (2 ^ 32) with 4294967296; lia).
    rewrite Z.lor_0_r, wrapu_id by (change (2 ^ 16) with 65536; zlia). lia.
  - rewrite (wrapu_id 32) by (change (2 ^ 32) with 4294967296; lia).
    rewrite Z.lor_comm. change (1 * 32768) with (1 * 2 ^ 15). rewrite (lor_add_shift 1 (x / 2) 15) by (change (2 ^ 15) with 32768; zlia).
    change (1 * 2 ^ 15) with 32768. rewrite wrapu_id by (change (2 ^ 16) with 65536; zlia). lia.
Qed.

Lemma lfsr_next_range x : u16_range x → u16_range (lfsr_next x).
Proof.
  intros Hx. rewrite lfsr_next_val by done. unfold u16_range in *.
  destruct (lfsr_bit_01 x) as [-> | ->]; zlia.
Qed.

(** The bit shifted in and the low bit shifted out determine each other. *)
Lemma lfsr_bit_lowest x :
  0 ≤ x → lfsr_bit x = Z.lxor (x mod 2)
            (Z.land (Z.lxor (Z.lxor (Z.shiftr (x / 2) 1) (Z.shiftr (x / 2) 2)) (Z.shiftr (x / 2) 4)) 1).
Proof.
  intros Hx. unfold lfsr_bit.
  assert (x mod 2 = Z.land x 1) as -> by (symmetry; by apply (land_ones_mod x 1)).
  assert (∀ k, 0 ≤ k → Z.shiftr (x / 2) k = Z.shiftr x (1 + k)) as Hs.
  { intros k Hk. change 2 with (2 ^ 1). rewrite <- Z.shiftr_div_pow2 by lia. by rewrite Z.shiftr_shiftr by lia. }
  rewrite !Hs by lia. change (1 + 1) with 2; change (1 + 2) with 3; change (1 + 4) with 5.
  apply Z.bits_inj'. intros i Hi. rewrite Z.lxor_spec, !Z.land_spec, !Z.lxor_spec.
  destruct (Z.testbit 1 i); [|by rewrite !andb_false_r].
  rewrite !andb_true_r. by rewrite !xorb_assoc.
Qed.

Lemma lfsr_next_inj x y :
  u16_range x → u16_range y → lfsr_next x = lfsr_next y → x = y.
Proof.
  intros Hx Hy. rewrite !lfsr_next_val by done. unfold u16_range in *. intros H.
  assert (x / 2 = y / 2 ∧ lfsr_bit x = lfsr_bit y) as [Hd Hb].
  { destruct (lfsr_bit_01 x) as [E1 | E1], (lfsr_bit_01 y) as [E2 | E2]; rewrite E1, E2 in *; zlia. }
  assert (x mod 2 = y mod 2) as Hm; [|zlia].
  rewrite (lfsr_bit_lowest x), (lfsr_bit_lowest y), Hd in Hb by lia.
  match type of Hb with Z.lxor _ ?c = _ => apply (f_equal (λ z, Z.lxor z c)) in Hb end.
  by rewrite !Z.lxor_assoc, !Z.lxor_nilpotent, !Z.lxor_0_r in Hb.
Qed.

(** ** The orbit *)

Fixpoint orbit (n : nat) (x : Z) : list Z :=
  match n with O => [] | S n' => lfsr_next x :: orbit n' (lfsr_next x) end.

Definition lfsr_iter (n : nat) (x : Z) : Z := Nat.iter n lfsr_next x.

(** The first return to [a], counted from [x], happens after [n + 1] steps. *)
Fixpoint first_return (n : nat) (a x : Z) : bool :=
  match n with
  | O => lfsr_next x =? a
  | S n' => negb (lfsr_next x =? a) && first_return n' a (lfsr_next x)
  end.

Lemma lfsr_iter_S n x : lfsr_iter (S n) x = lfsr_iter n (lfsr_next x).
Proof. unfold lfsr_iter. by rewrite Nat.iter_succ_r. Qed.

Lemma orbit_length n x : length (orbit n x) = n.
Proof. revert x. induction n; intros; cbn; [done|by f_equal]. Qed.

Lemma orbit_lookup n x i : (i < n)%nat → orbit n x !! i = Some (lfsr_iter (S i) x).
Proof.
  revert x i. induction n as [|n IH]; intros x i Hi; [lia|]. destruct i as [|i]; [done|].
  change (orbit n (lfsr_next x) !! i = Some (lfsr_iter (S (S i)) x)).
  rewrite IH by lia. by rewrite (lfsr_iter_S (S i) x).
Qed.

Lemma iter_range n x : u16_range x → u16_range (lfsr_iter n x).
Proof. intros Hx. induction n; cbn; [done|by apply lfsr_next_range]. Qed.

Lemma iter_inj n x y :
  u16_range x → u16_range y → lfsr_iter n x = lfsr_iter n y → x = y.
Proof.
  intros Hx Hy. induction n as [|n IH]; cbn; [done|]. intros H. apply IH.
  apply lfsr_next_inj; [by apply iter_range..|done].
Qed.

Lemma iter_add n k x : lfsr_iter (n + k) x = lfsr_iter n (lfsr_iter k x).
Proof. unfold lfsr_iter. apply Nat.iter_add. Qed.

Lemma first_return_spec n a x :
  first_return n a x = true →
  lfsr_iter (S n) x = a ∧ ∀ k, (0 < k ≤ n)%nat → lfsr_iter k x ≠ a.
Proof.
  revert x. induction n as [|n IH]; intros x H; cbn [first_return] in H.
  - apply Z.eqb_eq in H. split; [done|]. intros k Hk. lia.
  - apply andb_true_iff in H as [H1 H2]. apply negb_true_iff, Z.eqb_neq in H1.
    apply IH in H2 as [H2 H3]. split; [by rewrite lfsr_iter_S|].
    intros k Hk. destruct k as [|k]; [lia|]. rewrite lfsr_iter_S.
    destruct k as [|k]; [done|]. apply H3. lia.
Qed.

Definition seed : Z := 0xACE1.
Definition period : nat := Z.to_nat 65535.

Lemma period_pred : period = S (Z.to_nat 65534).
Proof. unfold period. by rewrite <- Z2Nat.inj_succ. Qed.

Lemma seed_first_return : first_return (Z.to_nat 65534) seed seed = true.
Proof. vm_compute. reflexivity. Qed.

#[global] Opaque period.

Lemma seed_period : lfsr_iter period seed = seed ∧ ∀ k, (0 < k < period)%nat → lfsr_iter k seed ≠ seed.
Proof.
  destruct (first_return_spec _ _ _ seed_first_return) as [H1 H2].
  rewrite period_pred. split; [done|]. intros k Hk. apply H2. lia.
Qed.

Lemma seed_range : u16_range seed.
Proof. unfold u16_range, seed. lia. Qed.

(** An orbit that first returns to its start after [period] steps has no
    repetition before. *)
Lemma orbit_nodup x :
  u16_range x → (∀ k, (0 < k < period)%nat → lfsr_iter k x ≠ x) → NoDup (orbit period x).
Proof.
  intros Hx Hp. apply NoDup_alt. intros i j v Hi Hj.
  assert (i < period ∧ j < period)%nat as [Li Lj].
  { apply lookup_lt_Some in Hi, Hj. rewrite orbit_length in *. done. }
  rewrite orbit_lookup in Hi, Hj by done. injection Hi as <-. injection Hj as He.
  assert (∀ a b, (a < b < period)%nat → lfsr_iter (S a) x ≠ lfsr_iter (S b) x) as Hne.
  { intros a b Hab Heq. apply (Hp (b - a)%nat); [lia|].
    replace (S b) with (S a + (b - a))%nat in Heq by lia. rewrite iter_add in Heq.
    symmetry. eapply iter_inj; [exact Hx|by apply iter_range|exact Heq]. }
  destruct (Nat.lt_trichotomy i j) as [?|[?|?]]; [|done|].
  - exfalso. by apply (Hne i j).
  - exfalso. by apply (Hne j i).
Qed.

Lemma zero_fixed : lfsr_next 0 = 0.
Proof. reflexivity. Qed.

Lemma iter_nonzero n x : u16_range x → x ≠ 0 → lfsr_iter n x ≠ 0.
Proof.
  intros Hx Hn H. apply Hn. apply (iter_inj n); [done|unfold u16_range; lia|]. rewrite H.
  symmetry. clear. induction n as [|n IH]; [done|].
  change (lfsr_next (lfsr_iter n 0) = 0). by rewrite IH.
Qed.

Lemma orbit_in_range n x : u16_range x → x ≠ 0 → Forall (λ v, 1 ≤ v < 65536) (orbit n x).
Proof.
  intros Hx Hn. apply Forall_lookup. intros i v Hv.
  assert (i < n)%nat by (apply lookup_lt_Some in Hv; by rewrite orbit_length in Hv).
  rewrite orbit_lookup in Hv by done. injection Hv as <-.
  pose proof (iter_range (S i) x Hx) as Hr. pose proof (iter_nonzero (S i) x Hx Hn). unfold u16_range in Hr.
  change (1 ≤ lfsr_iter (S i) x < 65536). lia.
Qed.

(** A list of distinct values of a range, as long as the range, permutes it. *)
Lemma nodup_full_perm (l : list Z) a n :
  NoDup l → length l = Z.to_nat n → Forall (λ v, a ≤ v < a + n) l → l ≡ₚ seqZ a n.
Proof.
  intros Hnd Hl Hf. apply submseteq_length_Permutation.
  - apply NoDup_submseteq; [done|]. intros v Hv. apply elem_of_seqZ.
    rewrite Forall_forall in Hf. by apply Hf.
  - rewrite length_seqZ. lia.
Qed.

Lemma orbit_perm x :
  u16_range x → x ≠ 0 → (∀ k, (0 < k < period)%nat → lfsr_iter k x ≠ x) →
  orbit period x ≡ₚ seqZ 1 65535.
Proof.
  intros Hx Hn Hp. apply nodup_full_perm; [by apply orbit_nodup|by rewrite orbit_length|].
  by apply orbit_in_range.
Qed.

(** Every nonzero value is on the orbit of the seed, hence has the same period. *)
Lemma nonzero_period x :
  u16_range x → x ≠ 0 → lfsr_iter period x = x ∧ ∀ k, (0 < k < period)%nat → lfsr_iter k x ≠ x.
Proof.
  intros Hx Hn. destruct seed_period as [Hs Hm].
  assert (x ∈ orbit period seed) as Hin.
  { rewrite orbit_perm; [|apply seed_range|done|done]. apply elem_of_seqZ. unfold u16_range in Hx. lia. }
  apply list_elem_of_lookup in Hin as [j Hj].
  assert (j < period)%nat by (apply lookup_lt_Some in Hj; by rewrite orbit_length in Hj).
  rewrite orbit_lookup in Hj by done.
  assert (x = lfsr_iter (S j) seed) as -> by congruence. clear Hj. split.
  - rewrite <- iter_add, Nat.add_comm, iter_add. by rewrite Hs.
  - intros k Hk. rewrite <- iter_add, Nat.add_comm, iter_add. intros He.
    apply iter_inj in He; [by apply (Hm k)|apply iter_range, seed_range|apply seed_range].
Qed.

(** ** Consecutive calls *)

(** The results of [n] consecutive calls of [random]. *)
Fixpoint randoms (n : nat) : K (list Z) :=
  match n with
  | O => mret []
  | S n' => x ← random; l ← randoms n'; mret (x :: l)
  end.

Lemma random_run e s :
  random e s = Ret (lfsr_next (k_lfsr s)) e
    (s <| k_bit := lfsr_bit (k_lfsr s) |> <| k_lfsr := lfsr_next (k_lfsr s) |>).
Proof. done. Qed.

Lemma randoms_run n e s :
  ∃ s', randoms n e s = Ret (orbit n (k_lfsr s)) e s' ∧ k_lfsr s' = lfsr_iter n (k_lfsr s).
Proof.
  revert s. induction n as [|n IH]; intros s; [by exists s|]. cbn [randoms].
  run (random_run e s).
  destruct (IH (s <| k_bit := lfsr_bit (k_lfsr s) |> <| k_lfsr := lfsr_next (k_lfsr s) |>)) as (s' & E & Hl).
  run E. exists s'. split; [done|]. rewrite Hl. symmetry. apply lfsr_iter_S.
Qed.

(** C38: from any nonzero 16-bit register, in particular the initial 0xACE1,
    65535 consecutive calls of [random] return each of 1 .. 65535 exactly once
    and leave the register as it was: the generator never returns 0, never
    gets stuck, and all its values are equally frequent. *)
Theorem random_full_period e s :
  0 < k_lfsr s < 65536 →
  ∃ l s', randoms (Z.to_nat 65535) e s = Ret l e s' ∧ l ≡ₚ seqZ 1 65535 ∧ k_lfsr s' = k_lfsr s.
Proof.
  intros Hr. destruct (randoms_run period e s) as (s' & E & Hl).
  destruct (nonzero_period (k_lfsr s)) as [Hp Hm]; [unfold u16_range; lia|lia|].
  exists (orbit period (k_lfsr s)), s'. split; [exact E|]. rewrite Hl, Hp. split; [|done].
  apply orbit_perm; [unfold u16_range; lia|lia|done].
Qed.

Lemma random_full_period_witness :
  ∃ l s', randoms (Z.to_nat 65535) [] kstate0 = Ret l [] s' ∧ l ≡ₚ seqZ 1 65535 ∧ k_lfsr s' = 0xACE1.
Proof. apply (random_full_period [] kstate0). cbn. lia. Defined.
