(* ===== verification/Queue.v ===== *)
(** * Queue: the queues of the multi-level feedback scheduler (kernel/queue.c)

    Five arrays of [NPROC] process pointers with a size and a back index each.
    [fifo] relates the arrays to five lists; [push_queue] and [pop_queue]
    implement enqueueing and dequeueing of these lists.  [remove_queue] takes
    the process out of the array but leaves the size and the back index as
    they were, with the consequence proved at the end of the file. *)

From S2P Require Import Prelude Params CString State Spinlock PhysMem Kalloc Vm ProcBase.

(** ** Accesses to the arrays *)

Definition q_index (q : Z) : bool := (0 <=? q) && (q <? 5).

Definition qget {A} `{!Inhabited A} (f : queues → list A) (q : Z) : K A :=
  check (q_index q) "queue";; gets (λ s, f (k_queues s) !!! Z.to_nat q).
Definition qupd (g : queues → queues) : K () := modify (λ s, s <| k_queues ::= g |>).
Definition qset_sched (q : Z) (row : list (option nat)) : K () :=
  check (q_index q) "queue";; qupd (λ qs, qs <| q_sched ::= insert (Z.to_nat q) row |>).
Definition qset_size (q v : Z) : K () :=
  check (q_index q) "queue";; qupd (λ qs, qs <| q_size ::= insert (Z.to_nat q) (i32 v) |>).
Definition qset_back (q v : Z) : K () :=
  check (q_index q) "queue";; qupd (λ qs, qs <| q_back ::= insert (Z.to_nat q) (i32 v) |>).

(** [count] doubles at each of the [n] queues. *)
Fixpoint doubles (n : nat) (count : Z) : list Z :=
  match n with O => [] | S n' => count :: doubles n' (i32 (count * 2)) end.

Definition initialize_queue : K () :=
  qupd (λ qs, qs <| q_max_ticks := doubles 5 1 |>);;
  foreach (seqZ 0 5) (λ i,
    qset_back i 0;;
    qset_size i 0;;
    qset_sched i (replicate NPROC None)).

Definition push_queue (p : nat) (q_pos : Z) : K () :=
  back ← qget q_back q_pos;
  row ← qget q_sched q_pos;
  check ((0 <=? back) && (back <? Z.of_nat NPROC)) "sched_queue";;
  qset_sched q_pos (<[Z.to_nat back := Some p]> row);;
  pset p (λ r, r <| p_ticks_used := 0 |>);;
  pset p (λ r, r <| p_curr_wait_time := 0 |>);;
  pset p (λ r, r <| p_in_queue := 1 |>);;
  pset p (λ r, r <| p_queue_position := q_pos |>);;
  ticks ← gets k_ticks;
  pset p (λ r, r <| p_queue_entry := i32 ticks |>);;
  qset_back q_pos (back + 1);;
  size ← qget q_size q_pos;
  qset_size q_pos (size + 1).

(** The loop [for(i = k; i < NPROC; i++){ row[i-1] = row[i]; if(row[i] == 0) break; }]
    of [pop_queue] and [remove_queue], with [n] iterations left. *)
Fixpoint shift_down (n i : nat) (row : list (option nat)) : list (option nat) :=
  match n with
  | O => row
  | S n' =>
      let x := default None (row !! i) in
      let row' := <[(i - 1)%nat := x]> row in
      match x with None => row' | Some _ => shift_down n' (S i) row' end
  end.

Definition pop_queue (q_pos : Z) : K nat :=
  row ← qget q_sched q_pos;
  let retval := default None (row !! 0%nat) in
  let row := <[0%nat := None]> row in
  qset_sched q_pos row;;
  size ← qget q_size q_pos;
  qset_size q_pos (size - 1);;
  back ← qget q_back q_pos;
  qset_back q_pos (back - 1);;
  qset_sched q_pos (shift_down (NPROC - 1) 1 row);;
  p ← deref retval;
  pset p (λ r, r <| p_in_queue := 0 |>);;
  mret p.

(** The last index at which the queue holds [p], or [None] for -1. *)
Fixpoint find_last (p : nat) (i : nat) (row : list (option nat)) (found : option nat) : option nat :=
  match row with
  | [] => found
  | x :: row' => find_last p (S i) row' (if bool_decide (x = Some p) then Some i else found)
  end.

Definition remove_queue (p : nat) (qpos : Z) : K () :=
  row ← qget q_sched qpos;
  match find_last p 0 row None with
  | None => mret ()
  | Some found =>
      qset_sched qpos (shift_down (NPROC - (found + 1)) (found + 1) (<[found := None]> row))
  end.

(** ** The abstraction: five first-in first-out lists *)

Record fifo (ls : list (list nat)) (qs : queues) : Prop := Fifo {
  ff_len : length ls = 5%nat;
  ff_sched_len : length (q_sched qs) = 5%nat;
  ff_size_len : length (q_size qs) = 5%nat;
  ff_back_len : length (q_back qs) = 5%nat;
  ff_row : ∀ q l row, ls !! q = Some l → q_sched qs !! q = Some row →
    length row = NPROC ∧ (length l ≤ NPROC)%nat ∧ take (length l) row = Some <$> l;
  ff_size : ∀ q l, ls !! q = Some l → q_size qs !! q = Some (Z.of_nat (length l));
  ff_back : ∀ q l, ls !! q = Some l → q_back qs !! q = Some (Z.of_nat (length l));
}.

Section Shift.
Implicit Types (row : list (option nat)).

Lemma shift_down_length n i row : length (shift_down n i row) = length row.
Proof.
  revert i row. induction n as [|n IH]; intros i row; cbn; [done|].
  destruct (default None (row !! i)); [rewrite IH|]; by rewrite length_insert.
Qed.

(** Entries before the hole are not touched. *)
Lemma shift_down_before n i row j : (j < i - 1)%nat → shift_down n i row !! j = row !! j.
Proof.
  revert i row. induction n as [|n IH]; intros i row Hj; cbn; [done|].
  destruct (default None (row !! i)); [rewrite IH by lia|]; by rewrite list_lookup_insert_ne by lia.
Qed.

(** As long as the entries are not null, each moves down by one; the first
    null entry is moved too. *)
Lemma shift_down_moves n i row k :
  (0 < i)%nat → (i + n ≤ length row)%nat → (k < n)%nat →
  (∀ j, (j < k)%nat → ∃ p, row !! (i + j)%nat = Some (Some p)) →
  shift_down n i row !! (i - 1 + k)%nat = row !! (i + k)%nat.
Proof.
  revert i row k. induction n as [|n IH]; intros i row k Hi Hl Hk Hs; [lia|]. cbn.
  destruct (lookup_lt_is_Some_2 row i ltac:(lia)) as [x Hx]. rewrite Hx. cbn.
  destruct k as [|k].
  - rewrite !Nat.add_0_r. destruct x as [p|].
    + rewrite shift_down_before by lia. rewrite list_lookup_insert_eq by lia. done.
    + rewrite list_lookup_insert_eq by lia. done.
  - destruct (Hs 0%nat ltac:(lia)) as [p Hp]. rewrite Nat.add_0_r in Hp.
    assert (x = Some p) as -> by congruence.
    replace (i - 1 + S k)%nat with (S i - 1 + k)%nat by lia.
    rewrite IH.
    + rewrite list_lookup_insert_ne by lia. f_equal. lia.
    + lia.
    + rewrite length_insert. lia.
    + lia.
    + intros j Hj. destruct (Hs (S j) ltac:(lia)) as [p' Hp']. exists p'.
      rewrite list_lookup_insert_ne by lia. rewrite <- Hp'. f_equal. lia.
Qed.
End Shift.

Lemma take_fmap_lookup (row : list (option nat)) l i p :
  take (length l) row = Some <$> l → l !! i = Some p → row !! i = Some (Some p).
Proof.
  intros Ht Hl. assert (i < length l)%nat by (by eapply lookup_lt_Some).
  rewrite <- (lookup_take_lt row (length l)) by done. rewrite Ht, list_lookup_fmap, Hl. done.
Qed.

Lemma take_fmap_intro (row : list (option nat)) l :
  (length l ≤ length row)%nat → (∀ i p, l !! i = Some p → row !! i = Some (Some p)) →
  take (length l) row = Some <$> l.
Proof.
  intros Hle H. apply list_eq. intros i. rewrite list_lookup_fmap.
  destruct (l !! i) as [p|] eqn:E; cbn.
  - rewrite lookup_take_lt by (by eapply lookup_lt_Some). by apply H.
  - apply lookup_ge_None in E. apply lookup_ge_None. rewrite length_take. lia.
Qed.

(** ** Running the operations *)

Section Run.
Implicit Types (s : kstate) (e : env) (qs : queues).

Lemma q_index_nat q : (q < 5)%nat → q_index (Z.of_nat q) = true.
Proof. intros. unfold q_index. apply andb_true_iff. split; [apply Z.leb_le|apply Z.ltb_lt]; lia. Qed.

Lemma qget_run {A} `{!Inhabited A} (f : queues → list A) q x e s :
  (q < 5)%nat → f (k_queues s) !! q = Some x → qget f (Z.of_nat q) e s = Ret x e s.
Proof.
  intros Hq Hx. unfold qget. krun. rewrite q_index_nat, Nat2Z.id by done.
  by rewrite (list_lookup_total_correct _ _ _ Hx).
Qed.
Lemma qset_sched_run q row e s : (q < 5)%nat →
  qset_sched (Z.of_nat q) row e s = Ret () e (s <| k_queues ::= λ qs, qs <| q_sched ::= insert q row |> |>).
Proof. intros Hq. unfold qset_sched. krun. by rewrite q_index_nat, Nat2Z.id. Qed.
Lemma qset_size_run q v e s : (q < 5)%nat →
  qset_size (Z.of_nat q) v e s = Ret () e (s <| k_queues ::= λ qs, qs <| q_size ::= insert q (i32 v) |> |>).
Proof. intros Hq. unfold qset_size. krun. by rewrite q_index_nat, Nat2Z.id. Qed.
Lemma qset_back_run q v e s : (q < 5)%nat →
  qset_back (Z.of_nat q) v e s = Ret () e (s <| k_queues ::= λ qs, qs <| q_back ::= insert q (i32 v) |> |>).
Proof. intros Hq. unfold qset_back. krun. by rewrite q_index_nat, Nat2Z.id. Qed.

(** What a queue's abstraction gives for one queue. *)
Lemma fifo_get ls qs q l : fifo ls qs → ls !! q = Some l →
  (q < 5)%nat ∧ q_size qs !! q = Some (Z.of_nat (length l)) ∧ q_back qs !! q = Some (Z.of_nat (length l)) ∧
  ∃ row, q_sched qs !! q = Some row ∧ length row = NPROC ∧ (length l ≤ NPROC)%nat ∧
    take (length l) row = Some <$> l.
Proof.
  intros Hf Hl. assert (q < 5)%nat as Hq by (rewrite <- (ff_len _ _ Hf); by eapply lookup_lt_Some).
  split_and!; [done|by eapply ff_size|by eapply ff_back|].
  destruct (lookup_lt_is_Some_2 (q_sched qs) q) as [row Hr]; [by rewrite (ff_sched_len _ _ Hf)|].
  exists row. split; [done|]. by apply (ff_row _ _ Hf q).
Qed.

(** Replacing one queue by a well-formed one. *)
Lemma fifo_set ls qs q l row n :
  fifo ls qs → (q < 5)%nat → n = Z.of_nat (length l) → length row = NPROC → (length l ≤ NPROC)%nat →
  take (length l) row = Some <$> l →
  fifo (<[q := l]> ls) (Queues (q_max_ticks qs) (<[q := n]> (q_size qs)) (<[q := n]> (q_back qs))
                          (<[q := row]> (q_sched qs))).
Proof.
  intros [L1 L2 L3 L4 Hr Hs Hb] Hq -> Hrow Hle Htk.
  split; cbn; rewrite ?length_insert; try done.
  all: intros q'; destruct (decide (q = q')) as [<-|Hne];
    [rewrite !list_lookup_insert_eq by lia|rewrite !list_lookup_insert_ne by done; eauto].
  - intros l' row' [= <-] [= <-]. done.
  - intros l' [= <-]. done.
  - intros l' [= <-]. done.
Qed.

(** Normal form of an updated state: the queues first, then the processes. *)
Lemma k_queues_upd2 f g s :
  s <| k_queues ::= f |> <| k_queues ::= g |> = s <| k_queues ::= λ q, g (f q) |>.
Proof. done. Qed.
Lemma k_procs_queues f g s :
  s <| k_procs ::= f |> <| k_queues ::= g |> = s <| k_queues ::= g |> <| k_procs ::= f |>.
Proof. done. Qed.
Lemma k_queues_queues_procs qs f s : k_queues (s <| k_queues := qs |> <| k_procs ::= f |>) = qs.
Proof. done. Qed.
Lemma set_queues_val f qs s : f (k_queues s) = qs → s <| k_queues ::= f |> = s <| k_queues := qs |>.
Proof. by intros <-. Qed.
Lemma set_procs_ext f g s :
  f (k_procs s) = g (k_procs s) → s <| k_procs ::= f |> = s <| k_procs ::= g |>.
Proof. intros H. unfold set. by rewrite H. Qed.
#[local] Hint Rewrite k_queues_upd2 k_procs_queues k_procs_upd2 : kst.

(** What [push_queue] writes into the process. *)
Definition enqueued (q : nat) (ticks : Z) (r : proc) : proc :=
  r <| p_ticks_used := 0 |> <| p_curr_wait_time := 0 |> <| p_in_queue := 1 |>
    <| p_queue_position := Z.of_nat q |> <| p_queue_entry := i32 ticks |>.

Definition small (n : Z) : Prop := 0 ≤ n ≤ Z.of_nat NPROC.
Lemma i32_small n : small n → i32 n = n.
Proof. unfold small, NPROC. intros. apply wraps_id; [lia|]. change (2 ^ (32 - 1)) with 2147483648. lia. Qed.

Lemma push_queue_run ls q l p e s :
  fifo ls (k_queues s) → ls !! q = Some l → (length l < NPROC)%nat → (p < length (k_procs s))%nat →
  ∃ qs', push_queue p (Z.of_nat q) e s
    = Ret () e (s <| k_queues := qs' |> <| k_procs ::= alter (enqueued q (k_ticks s)) p |>) ∧
    fifo (<[q := l ++ [p]]> ls) qs' ∧ q_max_ticks qs' = q_max_ticks (k_queues s).
Proof.
  intros Hf Hl Hlen Hp. destruct (fifo_get _ _ _ _ Hf Hl) as (Hq & Hsz & Hbk & row & Hrow & Hrl & _ & Htk).
  unfold push_queue.
  erewrite bind_Ret by (by apply qget_run). erewrite bind_Ret by (by apply qget_run). krun.
  assert ((0 <=? Z.of_nat (length l)) && (Z.of_nat (length l) <? Z.of_nat NPROC) = true) as ->.
  { apply andb_true_iff. split; [apply Z.leb_le|apply Z.ltb_lt]; lia. }
  erewrite bind_Ret by (by apply qset_sched_run).
  do 4 (erewrite bind_Ret by (apply pset_run; rewrite ?k_procs_alter_len; exact Hp)). krun.
  erewrite bind_Ret by (apply pset_run; rewrite ?k_procs_alter_len; exact Hp).
  erewrite bind_Ret by (by apply qset_back_run).
  erewrite bind_Ret by (apply (qget_run q_size q (Z.of_nat (length l))); [done|exact Hsz]).
  rewrite qset_size_run by done.
  eexists. split.
  { f_equal. autorewrite with kst. erewrite set_queues_val by reflexivity.
    apply set_procs_ext. rewrite !alter_alter. reflexivity. }
  unfold set. cbn [q_max_ticks q_size q_back q_sched]. split; [|done]. rewrite Nat2Z.id, !i32_small by (unfold small; lia).
  apply fifo_set; [done|done|rewrite length_app; cbn; lia|by rewrite length_insert|rewrite length_app; cbn; lia|].
  apply take_fmap_intro; [rewrite length_app, length_insert; cbn; lia|].
  intros i x Hx. destruct (decide (i = length l)) as [->|Hne].
  - rewrite list_lookup_insert_eq by lia.
    rewrite lookup_app_r, Nat.sub_diag in Hx by lia. cbn in Hx. by injection Hx as <-.
  - rewrite list_lookup_insert_ne by done. apply (take_fmap_lookup _ l); [done|].
    rewrite lookup_app_l in Hx; [done|]. apply lookup_lt_Some in Hx. rewrite length_app in Hx. cbn in Hx. lia.
Qed.

(** The row after a pop: every queued entry has moved down. *)
Lemma pop_row (row : list (option nat)) p l :
  length row = NPROC → (length (p :: l) ≤ NPROC)%nat → take (length (p :: l)) row = Some <$> (p :: l) →
  take (length l) (shift_down (NPROC - 1) 1 (<[0%nat := None]> row)) = Some <$> l.
Proof.
  intros Hrl Hle Htk. cbn [length] in Hle. apply take_fmap_intro.
  { rewrite shift_down_length, length_insert. lia. }
  assert (∀ j y, l !! j = Some y → <[0%nat := None]> row !! (1 + j)%nat = Some (Some y)) as Hrow.
  { intros j y Hy. rewrite list_lookup_insert_ne by lia. by apply (take_fmap_lookup _ (p :: l)). }
  intros i x Hx. assert (i < length l)%nat by (by eapply lookup_lt_Some).
  change i with (1 - 1 + i)%nat at 1. rewrite shift_down_moves; [by apply Hrow|lia| |unfold NPROC in *; lia|].
  - rewrite length_insert. unfold NPROC in *. lia.
  - intros j Hj. destruct (lookup_lt_is_Some_2 l j ltac:(lia)) as [y Hy]. exists y. by apply Hrow.
Qed.

Lemma pop_queue_run ls q l p e s :
  fifo ls (k_queues s) → ls !! q = Some (p :: l) → (p < length (k_procs s))%nat →
  ∃ qs', pop_queue (Z.of_nat q) e s
    = Ret p e (s <| k_queues := qs' |> <| k_procs ::= alter (set p_in_queue (λ _, 0)) p |>) ∧
    fifo (<[q := l]> ls) qs' ∧ q_max_ticks qs' = q_max_ticks (k_queues s).
Proof.
  intros Hf Hl Hp. destruct (fifo_get _ _ _ _ Hf Hl) as (Hq & Hsz & Hbk & row & Hrow & Hrl & Hle & Htk).
  unfold pop_queue. erewrite bind_Ret by (by apply qget_run). cbv zeta.
  erewrite bind_Ret by (by apply qset_sched_run).
  erewrite bind_Ret by (by apply (qget_run q_size q (Z.of_nat (length (p :: l))))).
  erewrite bind_Ret by (by apply qset_size_run).
  erewrite bind_Ret by (by apply (qget_run q_back q (Z.of_nat (length (p :: l))))).
  erewrite bind_Ret by (by apply qset_back_run).
  erewrite bind_Ret by (by apply qset_sched_run).
  rewrite (take_fmap_lookup row (p :: l) 0 p Htk eq_refl). cbn [default deref id]. krun.
  erewrite bind_Ret by (apply pset_run; exact Hp). krun.
  eexists. split.
  { rewrite !k_queues_upd2. erewrite set_queues_val by reflexivity. reflexivity. }
  unfold set. cbn [q_max_ticks q_size q_back q_sched]. split; [|done].
  rewrite list_insert_insert_eq, !i32_small by (unfold small; cbn [length] in *; lia).
  apply fifo_set; [done|done|cbn; lia|by rewrite shift_down_length, length_insert|cbn in Hle; lia|].
  by apply (pop_row row p).
Qed.
End Run.

(** ** First in, first out *)

(** A program of queue operations and its run on the arrays; the processes
    returned by the pops are collected in order. *)
Inductive qop := Push (p : nat) (q : nat) | Pop (q : nat).

Fixpoint run_qops (ops : list qop) : K (list nat) :=
  match ops with
  | [] => mret []
  | Push p q :: ops' => push_queue p (Z.of_nat q);; run_qops ops'
  | Pop q :: ops' => p ← pop_queue (Z.of_nat q); ps ← run_qops ops'; mret (p :: ps)
  end.

(** The specification on five lists: [None] when the program pushes onto a full
    queue or pops an empty one. *)
Fixpoint spec_qops (ops : list qop) (ls : list (list nat)) : option (list nat * list (list nat)) :=
  match ops with
  | [] => Some ([], ls)
  | Push p q :: ops' =>
      l ← ls !! q;
      if decide (length l < NPROC)%nat then spec_qops ops' (<[q := l ++ [p]]> ls) else None
  | Pop q :: ops' =>
      l ← ls !! q;
      match l with
      | [] => None
      | p :: l' => '(ps, ls') ← spec_qops ops' (<[q := l']> ls); Some (p :: ps, ls')
      end
  end.

Definition qop_proc (n : nat) (o : qop) : Prop := match o with Push p _ => (p < n)%nat | Pop _ => True end.

Lemma run_qops_spec ops ls e s ps ls' :
  fifo ls (k_queues s) → Forall (Forall (λ p, p < length (k_procs s))%nat) ls →
  Forall (qop_proc (length (k_procs s))) ops →
  spec_qops ops ls = Some (ps, ls') →
  ∃ qs' procs', run_qops ops e s = Ret ps e (s <| k_queues := qs' |> <| k_procs := procs' |>) ∧
    fifo ls' qs' ∧ q_max_ticks qs' = q_max_ticks (k_queues s) ∧ length procs' = length (k_procs s).
Proof.
  revert ls s ps. induction ops as [|o ops IH]; intros ls s ps Hf Hls Hops Hsp.
  { injection Hsp as <- <-. exists (k_queues s), (k_procs s). split; [|done]. by destruct s. }
  apply Forall_cons in Hops as [Ho Hops]. destruct o as [p q|q]; cbn [spec_qops run_qops] in *.
  - destruct (ls !! q) as [l|] eqn:Hl; [|done]. cbn in Hsp. case_decide as Hlen; [|done].
    destruct (push_queue_run ls q l p e s Hf Hl Hlen Ho) as (qs1 & E & Hf1 & Hm1). run E.
    match goal with |- context [run_qops ops e ?t] => destruct (IH _ t ps Hf1) as (qs2 & pr2 & E2 & Hf2 & Hm2 & Hn2) end; [| |exact Hsp|].
    + rewrite k_procs_alter_len. apply Forall_insert; [done|].
      apply Forall_app. split; [by eapply Forall_lookup_1 in Hl|by constructor].
    + by rewrite k_procs_alter_len.
    + exists qs2, pr2. split_and!; [exact E2|done|by rewrite Hm2|]. by rewrite Hn2, k_procs_alter_len.
  - destruct (ls !! q) as [[|p l]|] eqn:Hl; [done| |done]. cbn in Hsp.
    destruct (spec_qops ops (<[q:=l]> ls)) as [[ps1 ls1]|] eqn:Hsp1; [|done]. injection Hsp as <- <-.
    assert (Forall (λ p, p < length (k_procs s))%nat (p :: l)) as Hpl by (by eapply Forall_lookup_1 in Hl).
    apply Forall_cons in Hpl as [Hp Hpl].
    destruct (pop_queue_run ls q l p e s Hf Hl Hp) as (qs1 & E & Hf1 & Hm1). run E.
    set (s1 := s <| k_queues := qs1 |> <| k_procs ::= alter (set p_in_queue (λ _, 0)) p |>).
    destruct (IH _ s1 ps1 Hf1) as (qs2 & pr2 & E2 & Hf2 & Hm2 & Hn2); unfold s1 in *; [| |exact Hsp1|].
    + rewrite k_procs_alter_len. by apply Forall_insert.
    + by rewrite k_procs_alter_len.
    + exists qs2, pr2. erewrite bind_Ret by exact E2.
      split_and!; [done|done|by rewrite Hm2|]. by rewrite Hn2, k_procs_alter_len.
Qed.

(** C36: the scheduler's queues are five first-in first-out queues: any sequence
    of [push_queue] and [pop_queue] calls that never pushes onto a full queue
    nor pops an empty one runs without a fault, returns the processes the five
    lists return, in order, and leaves arrays, sizes and back indices
    representing the lists' final contents. *)
Theorem queue_refines_fifo ops ls e s ps ls' :
  fifo ls (k_queues s) → Forall (Forall (λ p, p < length (k_procs s))%nat) ls →
  Forall (qop_proc (length (k_procs s))) ops →
  spec_qops ops ls = Some (ps, ls') →
  ∃ s', run_qops ops e s = Ret ps e s' ∧ fifo ls' (k_queues s') ∧
    q_max_ticks (k_queues s') = q_max_ticks (k_queues s).
Proof.
  intros Hf Hls Hops Hsp. destruct (run_qops_spec _ _ e _ _ _ Hf Hls Hops Hsp) as (qs' & pr & E & H1 & H2 & _).
  eexists. split; [exact E|done].
Qed.

Lemma fifo_empty qs :
  fifo (replicate 5 []) (Queues qs (replicate 5 0) (replicate 5 0) (replicate 5 (replicate NPROC None))).
Proof.
  split; try reflexivity; cbn [q_sched q_size q_back].
  - intros q l row Hl Hr. apply lookup_replicate_1 in Hl as [-> _], Hr as [-> _].
    split_and!; [done|cbn; lia|done].
  - intros q l [-> Hq]%lookup_replicate_1. by apply lookup_replicate_2.
  - intros q l [-> Hq]%lookup_replicate_1. by apply lookup_replicate_2.
Qed.

Lemma queue_refines_fifo_witness :
  ∃ s', run_qops [Push 7 2; Push 9 2; Pop 2; Push 4 0; Pop 2; Pop 0]%nat [] kstate0 = Ret [7; 9; 4]%nat [] s' ∧
    fifo (replicate 5 []) (k_queues s').
Proof.
  destruct (queue_refines_fifo [Push 7 2; Push 9 2; Pop 2; Push 4 0; Pop 2; Pop 0]%nat (replicate 5 []) []
    kstate0 [7; 9; 4]%nat (replicate 5 [])) as (s' & E & Hf & _).
  - apply fifo_empty.
  - by repeat constructor.
  - repeat constructor; vm_compute; lia.
  - vm_compute. reflexivity.
  - exists s'. split; [exact E|exact Hf].
Defined.

(** ** Removing from the middle *)

(** The row of a queue that holds [l] and nulls behind it. *)
Definition clean (l : list nat) : list (option nat) :=
  (Some <$> l) ++ replicate (NPROC - length l) None.

Lemma shift_down_clean pre x b k :
  shift_down (length b + S k) (S (length pre)) (pre ++ x :: (Some <$> b) ++ replicate (S k) None)
  = pre ++ (Some <$> b) ++ replicate (S (S k)) None.
Proof.
  revert pre x. induction b as [|y b IH]; intros pre x.
  - cbn [length Nat.add shift_down fmap list_fmap app replicate].
    rewrite lookup_app_r by lia. replace (S (length pre) - length pre)%nat with 1%nat by lia. cbn.
    rewrite Nat.sub_0_r, insert_app_r_alt, Nat.sub_diag by lia. done.
  - cbn [length Nat.add shift_down].
    rewrite lookup_app_r by lia. replace (S (length pre) - length pre)%nat with 1%nat by lia. cbn [lookup].
    cbn [fmap list_fmap app list_lookup lookup default id]. cbn.
    rewrite Nat.sub_0_r, insert_app_r_alt, Nat.sub_diag by lia. cbn.
    specialize (IH (pre ++ [Some y]) (Some y)). rewrite length_app in IH. cbn [length] in IH.
    replace (S (length pre + 1)) with (S (S (length pre))) in IH by lia.
    rewrite <- !app_assoc in IH. exact IH.
Qed.

Lemma find_last_none p i row found : Some p ∉ row → find_last p i row found = found.
Proof.
  revert i found. induction row as [|x row IH]; intros i found Hn; cbn; [done|].
  apply not_elem_of_cons in Hn as [H1 H2]. rewrite bool_decide_false by congruence. by apply IH.
Qed.

Lemma find_last_app p i a b found :
  find_last p i (a ++ b) found = find_last p (i + length a) b (find_last p i a found).
Proof.
  revert i found. induction a as [|x a IH]; intros i found; cbn; [by rewrite Nat.add_0_r|].
  rewrite IH. f_equal. lia.
Qed.

Lemma find_last_clean p a b :
  p ∉ a → p ∉ b → find_last p 0 (clean (a ++ p :: b)) None = Some (length a).
Proof.
  intros Ha Hb. unfold clean. rewrite fmap_app, <- app_assoc. cbn.
  rewrite find_last_app, (find_last_none _ _ (Some <$> a)).
  2: { rewrite list_elem_of_fmap. intros (y & [= <-] & Hy). done. }
  cbn. rewrite bool_decide_true by done. rewrite find_last_none; [by rewrite length_fmap|].
  rewrite elem_of_app, list_elem_of_fmap, elem_of_replicate. intros [(y & [= <-] & Hy)|[? _]]; done.
Qed.

Lemma remove_clean p a b :
  (length (a ++ p :: b) < NPROC)%nat →
  shift_down (NPROC - (length a + 1)) (length a + 1) (<[length a := None]> (clean (a ++ p :: b)))
  = clean (a ++ b).
Proof.
  intros Hl. unfold clean. rewrite !length_app in *. cbn [length] in *.
  rewrite !fmap_app, <- !app_assoc. cbn [fmap list_fmap].
  rewrite insert_app_r_alt by (rewrite length_fmap; lia). rewrite length_fmap, Nat.sub_diag. cbn [app insert list_insert].
  destruct (NPROC - (length a + S (length b)))%nat as [|k] eqn:Ek; [lia|].
  replace (NPROC - (length a + length b))%nat with (S (S k)) by lia.
  replace (NPROC - (length a + 1))%nat with (length b + S k)%nat by lia.
  replace (length a + 1)%nat with (S (length (Some <$> a))) by (rewrite length_fmap; lia).
  apply shift_down_clean.
Qed.

Section Gap.
Implicit Types (s : kstate) (e : env).

(** Queue [q] holds [l] with nulls behind, and counts [z] processes. *)
Definition holds_clean (q : nat) (l : list nat) (z : Z) (qs : queues) : Prop :=
  q_sched qs !! q = Some (clean l) ∧ q_size qs !! q = Some z ∧ q_back qs !! q = Some z.

Lemma remove_queue_run q a b p z e s :
  (q < 5)%nat → NoDup (a ++ p :: b) → (length (a ++ p :: b) < NPROC)%nat →
  holds_clean q (a ++ p :: b) z (k_queues s) →
  ∃ qs', remove_queue p (Z.of_nat q) e s = Ret () e (s <| k_queues := qs' |>) ∧
    holds_clean q (a ++ b) z qs'.
Proof.
  intros Hq Hnd Hl (Hr & Hz & Hb). apply NoDup_app in Hnd as (_ & Hab & Hpb).
  apply NoDup_cons in Hpb as [Hpb _].
  assert (p ∉ a) as Hpa by (intros Hin; apply (Hab p Hin); by left).
  unfold remove_queue. erewrite bind_Ret by (by apply qget_run).
  rewrite find_last_clean by done. rewrite qset_sched_run by done.
  eexists. split; [by erewrite set_queues_val by reflexivity|].
  unfold holds_clean, set. cbn. rewrite remove_clean by done.
  rewrite list_lookup_insert_eq by (by eapply lookup_lt_Some). done.
Qed.

Lemma pop_clean q l p z e s :
  (q < 5)%nat → (length (p :: l) < NPROC)%nat → (p < length (k_procs s))%nat → small (z - 1) →
  holds_clean q (p :: l) z (k_queues s) →
  ∃ s', pop_queue (Z.of_nat q) e s = Ret p e s' ∧ holds_clean q l (z - 1) (k_queues s') ∧
    length (k_procs s') = length (k_procs s).
Proof.
  intros Hq Hl Hp Hsm (Hr & Hz & Hb). unfold pop_queue.
  erewrite bind_Ret by (by apply qget_run). cbv zeta.
  erewrite bind_Ret by (by apply qset_sched_run).
  erewrite bind_Ret by (by apply (qget_run q_size q z)).
  erewrite bind_Ret by (by apply qset_size_run).
  erewrite bind_Ret by (by apply (qget_run q_back q z)).
  erewrite bind_Ret by (by apply qset_back_run).
  erewrite bind_Ret by (by apply qset_sched_run).
  change (default None (clean (p :: l) !! 0%nat)) with (Some p). cbn [deref]. krun.
  erewrite bind_Ret by (apply pset_run; exact Hp). krun.
  rewrite !k_queues_upd2. erewrite set_queues_val by reflexivity.
  eexists. split; [reflexivity|]. split; [|by rewrite k_procs_alter_len].
  rewrite k_queues_queues_procs. rewrite i32_small by done.
  pose proof (remove_clean p [] l Hl) as Hrc. cbn [app length Nat.add] in Hrc.
  unfold holds_clean. rewrite <- Hrc. unfold set. cbn [q_sched q_size q_back q_max_ticks].
  rewrite !list_lookup_insert_eq by (rewrite ?length_insert; by eapply lookup_lt_Some). done.
Qed.

(** Pop [n] times. *)
Fixpoint drain (n : nat) (q : Z) : K (list nat) :=
  match n with O => mret [] | S n' => p ← pop_queue q; ps ← drain n' q; mret (p :: ps) end.

Lemma drain_clean q l z e s :
  (q < 5)%nat → (length l < NPROC)%nat → Forall (λ p, p < length (k_procs s))%nat l →
  Z.of_nat (length l) ≤ z ≤ Z.of_nat NPROC →
  holds_clean q l z (k_queues s) →
  ∃ s', drain (length l) (Z.of_nat q) e s = Ret l e s' ∧
    holds_clean q [] (z - Z.of_nat (length l)) (k_queues s').
Proof.
  revert z s. induction l as [|p l IH]; intros z s Hq Hl Hp Hz Hh.
  { exists s. split; [done|]. cbn. by rewrite Z.sub_0_r. }
  apply Forall_cons in Hp as [Hp Hps]. cbn [length] in *.
  destruct (pop_clean q l p z e s) as (s1 & E1 & Hh1 & Hn1); [done|cbn; lia|done|unfold small; lia|done|].
  destruct (IH (z - 1) s1) as (s2 & E2 & Hh2); [done|lia|by rewrite Hn1|lia|done|].
  exists s2. cbn [drain]. run E1. run E2. split; [done|].
  by replace (z - Z.of_nat (S (length l))) with (z - 1 - Z.of_nat (length l)) by lia.
Qed.

Lemma pop_empty_faults q z e s :
  (q < 5)%nat → holds_clean q [] z (k_queues s) → ∃ s', pop_queue (Z.of_nat q) e s = Fault "null" s'.
Proof.
  intros Hq (Hr & Hz & Hb). unfold pop_queue.
  erewrite bind_Ret by (by apply qget_run). cbv zeta.
  erewrite bind_Ret by (by apply qset_sched_run).
  erewrite bind_Ret by (by apply (qget_run q_size q z)).
  erewrite bind_Ret by (by apply qset_size_run).
  erewrite bind_Ret by (by apply (qget_run q_back q z)).
  erewrite bind_Ret by (by apply qset_back_run).
  erewrite bind_Ret by (by apply qset_sched_run).
  change (default None (clean [] !! 0%nat)) with (@None nat). cbn [deref]. rewrite fault_bind. eauto.
Qed.

(** [remove_queue] takes a process out of its queue's array but leaves the
    queue's size and back index counting it.  After the remaining processes
    have been popped, in order, the size is still 1, and the pop that the
    scheduler then makes (it pops whenever the size is positive) dereferences
    a null pointer. *)
Theorem remove_queue_leaves_gap q a b p e s :
  (q < 5)%nat → NoDup (a ++ p :: b) → (length (a ++ p :: b) < NPROC)%nat →
  Forall (λ p, p < length (k_procs s))%nat (a ++ b) →
  holds_clean q (a ++ p :: b) (Z.of_nat (length (a ++ p :: b))) (k_queues s) →
  ∃ s1 s2 s3, remove_queue p (Z.of_nat q) e s = Ret () e s1 ∧
    drain (length (a ++ b)) (Z.of_nat q) e s1 = Ret (a ++ b) e s2 ∧
    q_size (k_queues s2) !! q = Some 1 ∧
    pop_queue (Z.of_nat q) e s2 = Fault "null" s3.
Proof.
  intros Hq Hnd Hl Hps Hh.
  destruct (remove_queue_run q a b p _ e s Hq Hnd Hl Hh) as (qs1 & E1 & Hh1).
  assert (length (a ++ p :: b) = S (length (a ++ b))) as Hlen by (rewrite !length_app; cbn; lia).
  destruct (drain_clean q (a ++ b) (Z.of_nat (length (a ++ p :: b))) e (s <| k_queues := qs1 |>))
    as (s2 & E2 & Hh2); [done|lia|done|lia|done|].
  replace (Z.of_nat _ - Z.of_nat _) with 1 in Hh2 by lia.
  destruct (pop_empty_faults q 1 e s2 Hq Hh2) as [s3 E3].
  eexists _, s2, s3. split_and!; [exact E1|exact E2|apply Hh2|exact E3].
Qed.

(** Queue 1 holds processes 4, 5 and 6. *)
Definition ex_queue : kstate :=
  kstate0 <| k_queues := Queues (doubles 5 1) [0; 3; 0; 0; 0] [0; 3; 0; 0; 0]
    (<[1%nat := clean [4; 5; 6]%nat]> (replicate 5 (replicate NPROC None))) |>.

Lemma remove_queue_leaves_gap_witness :
  ∃ s1 s2 s3, remove_queue 5 1 [] ex_queue = Ret () [] s1 ∧
    drain 2 1 [] s1 = Ret [4; 6]%nat [] s2 ∧ q_size (k_queues s2) !! 1%nat = Some 1 ∧
    pop_queue 1 [] s2 = Fault "null" s3.
Proof.
  apply (remove_queue_leaves_gap 1 [4]%nat [6]%nat 5 [] ex_queue); [lia| |vm_compute; lia| |].
  - apply (bool_decide_unpack _). vm_compute. exact I.
  - repeat constructor; vm_compute; lia.
  - split_and!; vm_compute; reflexivity.
Defined.
End Gap.
