(* ===== verification/Sched.v ===== *)
(** * Sched: the five schedulers (scheduler() of kernel/proc.c)

    The build selects one of five bodies for [scheduler()].  Each is an endless
    loop on one hart; a definition [.._round] is one iteration of that loop.  A
    round returns, besides doing what the C code does, the processes it has
    switched to, in order.  While a process runs, everything that happens until
    it switches back to this hart's scheduler is one step of the environment. *)

From S2P Require Import Prelude Params CString State Spinlock PhysMem Kalloc Vm ProcBase Queue.

Inductive policy := RR | FCFS | MLFQ | PBS | LBS.

(** Loops that collect the processes switched to. *)
Fixpoint collect {S B R} (l : list B) (body : B → KM S (list R)) : KM S (list R) :=
  match l with
  | [] => mret []
  | x :: l' => r ← body x; rs ← collect l' body; mret (r ++ rs)
  end.

Fixpoint collect_acc {S B X R} (l : list B) (x : X) (body : B → X → KM S (X * list R)) : KM S (X * list R) :=
  match l with
  | [] => mret (x, [])
  | b :: l' => '(x1, r) ← body b x; '(x2, rs) ← collect_acc l' x1 body; mret (x2, r ++ rs)
  end.

(** [p->state = RUNNING; c->proc = p; swtch(&c->context, &p->context); c->proc = 0;] *)
Definition switch_to (p : nat) : K () :=
  write_cpu (λ c, c <| c_proc := Some p |>);;
  swtch;;
  write_cpu (λ c, c <| c_proc := None |>).

Definition run_proc (p : nat) : K () :=
  pset p (λ q, q <| p_state := RUNNING |>);;
  switch_to p.

(** ** Round robin *)

Definition rr_visit (p : nat) : K (list nat) :=
  acquire (LProc p);;
  st ← pget p p_state;
  if bool_decide (st = RUNNABLE) then
    run_proc p;;
    release (LProc p);;
    mret [p]
  else
    release (LProc p);;
    mret [].

Definition rr_round : K (list nat) :=
  intr_on;;
  collect procs rr_visit.

(** ** First come first served *)

(** The local variables of the FCFS loop that survive an iteration of its scan. *)
Record fcfs_vars := FcfsVars { fc_least : nat; fc_flag : bool; fc_min : Z }.

Definition fcfs_visit (p : nat) (v : fcfs_vars) : K (fcfs_vars * list nat) :=
  st ← pget p p_state;
  ctime ← pget p p_ctime;
  let v :=
    if bool_decide (st = RUNNABLE) then
      if negb (fc_flag v) || (ctime <? u32 (fc_min v)) then FcfsVars p true (i32 ctime)
      else v
    else v in
  let least := fc_least v in
  acquire (LProc least);;
  st ← pget least p_state;
  if bool_decide (st = RUNNABLE) then
    run_proc least;;
    release (LProc least);;
    mret (v, [least])
  else
    release (LProc least);;
    mret (v, []).

(** [p_least_time] keeps its value from one round to the next. *)
Definition fcfs_round (least : nat) : K (nat * list nat) :=
  intr_on;;
  '(v, ran) ← collect_acc procs (FcfsVars least false (-1)) fcfs_visit;
  mret (fc_least v, ran).

(** ** Multi-level feedback queue *)

Definition mlfq_age (p : nat) : K () :=
  acquire (LProc p);;
  in_queue ← pget p p_in_queue;
  wait ← pget p p_curr_wait_time;
  qpos ← pget p p_queue_position;
  when (ctrue in_queue && (MAXWAITTIME <? wait) && (0 <? qpos)) (
    remove_queue p qpos;;
    push_queue p (qpos - 1));;
  release (LProc p).

Definition mlfq_enqueue (p : nat) : K () :=
  acquire (LProc p);;
  st ← pget p p_state;
  when (bool_decide (st = RUNNABLE)) (
    in_queue ← pget p p_in_queue;
    qpos ← pget p p_queue_position;
    when (in_queue =? 0) (push_queue p qpos));;
  release (LProc p).

(** The first queue, from 0 to 4, with a positive size is popped. *)
Definition mlfq_pick : K (option nat) :=
  scan (seqZ 0 5) (λ qpos,
    size ← qget q_size qpos;
    if 0 <? size then p ← pop_queue qpos; mret (Some p) else mret None).

Definition mlfq_round : K (list nat) :=
  intr_on;;
  foreach procs mlfq_age;;
  foreach procs mlfq_enqueue;;
  best ← mlfq_pick;
  match best with
  | None => mret []
  | Some p =>
      acquire (LProc p);;
      pset p (λ q, q <| p_sched_ct ::= λ n, i32 (n + 1) |>);;
      pset p (λ q, q <| p_curr_wait_time := 0 |>);;
      run_proc p;;
      release (LProc p);;
      mret [p]
  end.

(** ** Priority based *)

(** One iteration of the scan, from [minproc] and [min_priority] to their new
    values; the candidate that is not kept is unlocked. *)
Definition pbs_visit (p : nat) (v : option nat * Z) : K (option nat * Z) :=
  let '(minproc, min_priority) := v in
  acquire (LProc p);;
  st ← pget p p_state;
  if negb (bool_decide (st = RUNNABLE)) then
    release (LProc p);;
    mret v
  else
    DP ← get_dynamic_priority p;
    match minproc with
    | None => mret (Some p, DP)
    | Some m =>
        if DP =? min_priority then
          m_ct ← pget m p_sched_ct;
          p_ct ← pget p p_sched_ct;
          m_ctime ← pget m p_ctime;
          p_ctime ← pget p p_ctime;
          if (m_ct =? p_ct) && (p_ctime <? m_ctime) then
            release (LProc m);; mret (Some p, min_priority)
          else if m_ct =? p_ct then
            release (LProc p);; mret v
          else if m_ct <=? p_ct then
            release (LProc p);; mret v
          else
            release (LProc m);; mret (Some p, min_priority)
        else if min_priority <=? DP then
          release (LProc p);; mret v
        else
          release (LProc m);; mret (Some p, min_priority)
    end.

Fixpoint pbs_scan (l : list nat) (v : option nat * Z) : K (option nat * Z) :=
  match l with [] => mret v | p :: l' => v' ← pbs_visit p v; pbs_scan l' v' end.

Definition pbs_round : K (list nat) :=
  intr_on;;
  '(minproc, _) ← pbs_scan procs (None, 0);
  match minproc with
  | None => mret []
  | Some p =>
      pset p (λ q, q <| p_state := RUNNING |>);;
      pset p (λ q, q <| p_sched_ct ::= λ n, i32 (n + 1) |>);;
      switch_to p;;
      release (LProc p);;
      mret [p]
  end.

(** ** Lottery *)

Definition lbs_visit (p : nat) : K (list nat) :=
  acquire (LProc p);;
  st ← pget p p_state;
  if negb (bool_decide (st = RUNNABLE)) then
    release (LProc p);;
    mret []
  else
    total ← totalTickets;
    r ← random;
    check (negb (u32 total =? 0)) "division";;
    tickets ← pget p p_tickets;
    let allot := i32 (i32 (r mod u32 total) - tickets) in
    if 0 <=? allot then
      release (LProc p);;
      mret []
    else
      st ← pget p p_state;
      (if bool_decide (st = RUNNABLE) then
         run_proc p;;
         release (LProc p);;
         mret [p]
       else
         release (LProc p);;
         mret []).

Definition lbs_round : K (list nat) :=
  intr_on;;
  collect procs lbs_visit.

(** ** The whole scheduler

    [scheduler()] never returns; [scheduler pol n] is what it does in its first
    [n] rounds. *)
Definition one_round (pol : policy) (least : nat) : K (nat * list nat) :=
  match pol with
  | RR => ran ← rr_round; mret (least, ran)
  | FCFS => fcfs_round least
  | MLFQ => ran ← mlfq_round; mret (least, ran)
  | PBS => ran ← pbs_round; mret (least, ran)
  | LBS => ran ← lbs_round; mret (least, ran)
  end.

Definition policy_name (pol : policy) : string :=
  match pol with RR => "RR" | FCFS => "FCFS" | MLFQ => "MLFQ" | PBS => "PBS" | LBS => "LBS" end.

Fixpoint rounds (pol : policy) (n : nat) (least : nat) : K (list nat) :=
  match n with
  | O => mret []
  | S n' => '(least', ran) ← one_round pol least; more ← rounds pol n' least'; mret (ran ++ more)
  end.

Definition scheduler (pol : policy) (n : nat) : K (list nat) :=
  write_cpu (λ c, c <| c_proc := None |>);;
  printk ("scheduler: " +:+ policy_name pol +:+ nl) [];;
  rounds pol n 0%nat.

(** ** Round robin serves every runnable process *)

(** The state of process [i]. *)
Definition in_state (st : procstate) (i : nat) (s : kstate) : Prop :=
  ∃ q, k_procs s !! i = Some q ∧ p_state q = st.

(** This hart's scheduler can start a scan: no lock is held. *)
Definition sched_ready (s : kstate) : Prop := proc_ready s ∧ c_noff (cpu_of (k_mach s)) = 0.

(** This hart has just switched to process [i]. *)
Record dispatched (i : nat) (s : kstate) : Prop := Dispatched {
  di_wf : wf_mach (k_mach s);
  di_noff : c_noff (cpu_of (k_mach s)) = 1;
  di_proc : c_proc (cpu_of (k_mach s)) = Some i;
  di_held : m_locks (k_mach s) !! LProc i = Some (m_tp (k_mach s));
  di_free : ∀ j, (j < NPROC)%nat → j ≠ i → lock_free (LProc j) (k_mach s);
  di_len : length (k_procs s) = NPROC;
  di_state : in_state RUNNING i s;
}.

(** Process [i], dispatched in [t], has switched back to this hart's scheduler
    in [t']: it holds its own lock and nothing else ([sched] checks that).
    Meanwhile it and the other harts may have done anything else, such as
    dispatching, waking, killing or creating other processes. *)
Record gives_back (i : nat) (t' : kstate) : Prop := GivesBack {
  gb_wf : wf_mach (k_mach t');
  gb_noff : c_noff (cpu_of (k_mach t')) = 1;
  gb_held : m_locks (k_mach t') !! LProc i = Some (m_tp (k_mach t'));
  gb_free : ∀ j, (j < NPROC)%nat → j ≠ i → lock_free (LProc j) (k_mach t');
  gb_len : length (k_procs t') = NPROC;
}.

Definition cooperative (f : kstate → kstate) : Prop :=
  ∀ i t, dispatched i t → gives_back i (f t).

(** The states agree but for the registers and locks of the harts. *)
Definition same_but_mach (s s' : kstate) : Prop := s' = s <| k_mach := k_mach s' |>.

(** What a scan of the processes [l] does from [s], when the environment takes
    the steps [e]: each process is reached in the state that the previous ones
    have left; if it is not runnable there, nothing happens; if it is, it is
    dispatched, running and with its lock held, and what happens until it
    switches back leads to the state in which the next process is reached. *)
Inductive served : list nat → env → kstate → list nat → env → kstate → Prop :=
| served_nil e s s' : same_but_mach s s' → served [] e s [] e s'
| served_skip p l e s s1 ran e' s' :
    ¬ in_state RUNNABLE p s → same_but_mach s s1 →
    served l e s1 ran e' s' → served (p :: l) e s ran e' s'
| served_run p l f e s t s1 ran e' s' :
    in_state RUNNABLE p s → dispatched p t →
    same_but_mach (s <| k_procs ::= alter (λ q, q <| p_state := RUNNING |>) p |>) t →
    same_but_mach (f t) s1 →
    served l e s1 ran e' s' → served (p :: l) (f :: e) s (p :: ran) e' s'.

(** Nobody else takes process [i] while another one runs on this hart. *)
Definition leaves_runnable (i : nat) (f : kstate → kstate) : Prop :=
  ∀ j t, j ≠ i → dispatched j t → in_state RUNNABLE i t → in_state RUNNABLE i (f t).

Section RoundRobin.
Implicit Types (s t : kstate) (e : env).

Lemma in_state_alter st g i j s :
  j ≠ i → in_state st j s → in_state st j (s <| k_procs ::= alter g i |>).
Proof. intros Hne (q & Hq & Hst). exists q. by rewrite k_procs_alter_ne. Qed.

(** Taking the lock of a runnable process and switching to it. *)
Definition st_dispatch (p : nat) (s : kstate) : kstate :=
  s <| k_mach ::= λ m, upd_cpu (λ c, c <| c_proc := Some p |>) (mlock (LProc p) m) |>
    <| k_procs ::= alter (λ q, q <| p_state := RUNNING |>) p |>.

Lemma st_dispatch_ok p s : sched_ready s → (p < NPROC)%nat → dispatched p (st_dispatch p s).
Proof.
  intros [[Hw Hf Hl] Hn] Hp. set (m1 := mlock (LProc p) (k_mach s)).
  assert (wf_mach m1) as Hw1 by (by apply wf_mlock).
  assert (c_noff (cpu_of m1) = 1) as Hn1 by (unfold m1; rewrite mlock_noff by done; lia).
  assert (k_mach (st_dispatch p s) = upd_cpu (λ c, c <| c_proc := Some p |>) m1) as Hm by done.
  split; rewrite ?Hm.
  - by apply wf_upd_cpu.
  - rewrite cpu_of_upd_cpu by apply Hw1. exact Hn1.
  - by rewrite cpu_of_upd_cpu by apply Hw1.
  - change (m_locks m1 !! LProc p = Some (m_tp m1)). unfold m1. rewrite mlock_locks. apply lookup_insert_eq.
  - intros j Hj Hne. change (lock_free (LProc j) m1). apply mlock_free; [congruence|by apply Hf].
  - unfold st_dispatch. by rewrite k_procs_alter_len.
  - destruct (lookup_lt_is_Some_2 (k_procs s) p ltac:(lia)) as [q Hq].
    exists (q <| p_state := RUNNING |>). split; [by apply k_procs_alter_eq|done].
Qed.

Lemma same_but_mach_state st i s s' : same_but_mach s s' → in_state st i s' ↔ in_state st i s.
Proof. unfold same_but_mach. intros ->. done. Qed.

Lemma same_but_mach_trans s1 s2 s3 : same_but_mach s1 s2 → same_but_mach s2 s3 → same_but_mach s1 s3.
Proof. unfold same_but_mach. intros E1 E2. rewrite E2, E1. done. Qed.

(** Clearing [c->proc] and releasing the lock when the process has come back. *)
Lemma after_switch p t' e :
  gives_back p t' → (p < NPROC)%nat →
  ∃ s', (write_cpu (λ c, c <| c_proc := None |>) ;; release (LProc p) ;; mret [p]) e t' = Ret [p] e s' ∧
    sched_ready s' ∧ same_but_mach t' s'.
Proof.
  intros [Hw Hn Hh Hf Hl] Hp. krun.
  set (m1 := upd_cpu (λ c, c <| c_proc := None |>) (k_mach t')).
  assert (wf_mach m1) as Hw1 by (by apply wf_upd_cpu).
  assert (c_noff (cpu_of m1) = 1) as Hn1 by (unfold m1; by rewrite cpu_of_upd_cpu by apply Hw).
  erewrite bind_Ret; [|apply release_held; [exact Hw1| |exact Hh]].
  2: { change (0 < c_noff (cpu_of m1)). lia. }
  eexists. split; [reflexivity|]. split; [|done].
  split; [split|].
  - change (wf_mach (munlock (LProc p) m1)). apply wf_munlock; [done|lia].
  - intros j Hj. change (lock_free (LProc j) (munlock (LProc p) m1)). unfold lock_free. rewrite munlock_locks.
    change (m_locks m1) with (m_locks (k_mach t')).
    destruct (decide (j = p)) as [->|Hne]; [by rewrite lookup_delete_eq|].
    rewrite lookup_delete_ne by congruence. by apply Hf.
  - exact Hl.
  - change (c_noff (cpu_of (munlock (LProc p) m1)) = 0). rewrite munlock_cpu by done.
    change (c_noff (cpu_of m1) - 1 = 0). lia.
Qed.

Lemma rr_visit_run p f e s :
  sched_ready s → (p < NPROC)%nat → cooperative f →
  ∃ ran e' s', rr_visit p (f :: e) s = Ret ran e' s' ∧ sched_ready s' ∧
    ((¬ in_state RUNNABLE p s ∧ ran = [] ∧ e' = f :: e ∧ same_but_mach s s') ∨
     (in_state RUNNABLE p s ∧ ran = [p] ∧ e' = e ∧ dispatched p (st_dispatch p s) ∧ same_but_mach (f (st_dispatch p s)) s')).
Proof.
  intros Hr Hp Hf. pose proof Hr as [Hpr Hn].
  destruct (proc_lookup s p Hpr Hp) as [q Hq]. unfold rr_visit.
  run (acquire_crit p (f :: e) s Hpr Hp). erewrite bind_Ret by (by apply (pget_crit p _ _ q)).
  destruct (bool_decide (p_state q = RUNNABLE)) eqn:Es; breflect.
  - unfold run_proc, switch_to. krun. erewrite bind_Ret by (by apply (pset_crit p _ _ q)). krun.
    match goal with |- context [(swtch ≫= _) _ ?t] => replace t with (st_dispatch p s) by done end.
    pose proof (st_dispatch_ok p s Hr Hp) as Hd. pose proof (Hf p _ Hd) as Hgb. unfold swtch, interfere at 1.
    erewrite bind_Ret by reflexivity.
    destruct (after_switch p _ e Hgb Hp) as (s' & E & Hs' & Hsame).
    exists [p], e, s'. split; [exact E|]. split; [done|]. right. split_and!; [by exists q|done..].
  - erewrite bind_Ret.
    2: { apply (release_crit p _ (λ q, q) q); done. }
    eexists [], (f :: e), _. split; [reflexivity|]. split.
    + split; [apply proc_ready_procs; [by apply proc_ready_settle|]|].
      * by rewrite length_alter.
      * change (c_noff (cpu_of (settle (k_mach s))) = 0). by rewrite settle_noff by apply Hpr.
    + left. split_and!; [intros (q' & Hq' & Hst); congruence|done..|].
      unfold same_but_mach, set. destruct s; cbn. f_equal. by apply list_alter_id.
Qed.

Lemma rr_scan_run k n e s :
  sched_ready s → (n + k ≤ NPROC)%nat → Forall cooperative e → (k ≤ length e)%nat →
  ∃ ran e' s', collect (seq n k) rr_visit e s = Ret ran e' s' ∧ sched_ready s' ∧ served (seq n k) e s ran e' s'.
Proof.
  revert n e s. induction k as [|k IH]; intros n e s Hr Hn He Hlen.
  { exists [], e, s. split_and!; [done|done|]. constructor. by destruct s. }
  destruct e as [|f e]; [cbn in Hlen; lia|]. apply Forall_cons in He as [Hf He]. cbn [seq collect].
  destruct (rr_visit_run n f e s Hr ltac:(lia) Hf) as (r1 & e1 & s1 & E1 & Hr1 & Hcase). run E1.
  assert (Forall cooperative e1 ∧ (k ≤ length e1)%nat) as [He1 Hl1].
  { cbn in Hlen. destruct Hcase as [(_ & _ & -> & _)|(_ & _ & -> & _)]; split; try done; cbn; [by constructor|lia|lia]. }
  destruct (IH (S n) e1 s1 Hr1 ltac:(lia) He1 Hl1) as (r2 & e2 & s2 & E2 & Hr2 & Hs).
  exists (r1 ++ r2), e2, s2. run E2. split_and!; [done|done|].
  destruct Hcase as [(Hst & -> & -> & Hsame)|(Hst & -> & -> & Hd & Hsame)]; cbn [app].
  - by eapply served_skip.
  - by eapply served_run.
Qed.

(** Only the part of the state other than the harts matters where a scan starts. *)
Lemma served_from l e s0 s ran e' s' : same_but_mach s0 s → served l e s ran e' s' → served l e s0 ran e' s'.
Proof.
  intros Hs0 Hs. inversion Hs; subst.
  - constructor. by eapply same_but_mach_trans.
  - eapply served_skip; [by rewrite <- (same_but_mach_state _ _ _ _ Hs0)|by eapply same_but_mach_trans|done].
  - eapply served_run; [by rewrite <- (same_but_mach_state _ _ _ _ Hs0)|done| |done..].
    unfold same_but_mach in *. rewrite Hs0 in *. done.
Qed.

(** The processes that a scan switches to, in table order; and a runnable one that
    nobody else takes is among them. *)
Lemma served_sublist l e s ran e' s' : served l e s ran e' s' → ran `sublist_of` l ∧ e' = drop (length ran) e.
Proof.
  induction 1 as [|? ? ? ? ? ? ? ? ? ? ? [IH ->]|? ? ? ? ? ? ? ? ? ? ? ? ? ? ? [IH ->]]; [done|..].
  - split; [by apply sublist_cons|done].
  - split; [by apply sublist_skip|done].
Qed.

Lemma served_all l e s ran e' s' i : served l e s ran e' s' →
  i ∈ l → Forall (leaves_runnable i) e → in_state RUNNABLE i s → i ∈ ran.
Proof.
  induction 1 as [|p l e s s1 ran e' s' Hst Hsame _ IH|p l f e s t s1 ran e' s' Hst Hd Ht Hsame _ IH]; intros Hi He Hri.
  - by apply not_elem_of_nil in Hi.
  - apply elem_of_cons in Hi as [->|Hi]; [done|]. apply IH; [done..|]. by apply (same_but_mach_state _ _ _ _ Hsame).
  - apply Forall_cons in He as [Hf He]. destruct (decide (i = p)) as [->|Hne]; [by left|]. right.
    apply elem_of_cons in Hi as [->|Hi]; [done|]. apply IH; [done..|].
    apply (same_but_mach_state _ _ _ _ Hsame), Hf with p; [done..|].
    apply (same_but_mach_state _ _ _ _ Ht). by apply in_state_alter.
Qed.

Lemma intr_on_ready e s : sched_ready s → ∃ s', intr_on e s = Ret () e s' ∧ sched_ready s' ∧ same_but_mach s s'.
Proof.
  intros [[(Ht & Hc & H0 & Hi) Hf Hl] Hn]. unfold intr_on. rewrite write_csr_run. eexists. split; [done|].
  split; [|done]. split; [split; [|exact Hf|exact Hl]|exact Hn].
  change (wf_mach (upd_csr (λ c, c <| r_sstatus ::= λ x, Z.lor x SSTATUS_SIE |>) (k_mach s))).
  unfold wf_mach. rewrite cpu_of_upd_csr. split_and!; [exact Ht| |exact H0|lia].
  unfold upd_csr, set. cbn [m_tp m_csrs]. by rewrite length_alter.
Qed.

(** C16: one round of the round-robin scheduler terminates whatever the
    processes do with the hart, provided they give it back, and whatever the
    other harts do meanwhile to the process table.  It visits the processes in
    table order and switches to exactly those that are runnable when it reaches
    them, each with its state running and its lock held; it changes nothing else,
    and it leaves every process lock free.  So a process that is runnable when the
    round starts runs in it, on this hart unless another hart takes it first: no
    runnable process waits longer than one round. *)
Theorem rr_round_serves_all e s :
  sched_ready s → Forall cooperative e → (NPROC ≤ length e)%nat →
  ∃ ran e' s', rr_round e s = Ret ran e' s' ∧ sched_ready s' ∧ served procs e s ran e' s' ∧
    ran `sublist_of` procs ∧ e' = drop (length ran) e ∧
    ∀ i, in_state RUNNABLE i s → Forall (leaves_runnable i) e → i ∈ ran.
Proof.
  intros Hr He Hl. unfold rr_round. destruct (intr_on_ready e s Hr) as (s1 & E1 & Hr1 & Hs1). run E1.
  destruct (rr_scan_run NPROC 0 e s1 Hr1 ltac:(lia) He Hl) as (ran & e' & s' & E & Hr' & Hs).
  apply (served_from _ _ s) in Hs; [|done]. destruct (served_sublist _ _ _ _ _ _ Hs) as [Hsub He'].
  exists ran, e', s'. do 5 (split; [done|]).
  intros i Hi Hk. apply (served_all _ _ _ _ _ _ i Hs); [|done..]. destruct Hi as (q & Hq & _).
  apply lookup_lt_Some in Hq. destruct Hr as [[_ _ HL] _]. apply elem_of_seq. lia.
Qed.
End RoundRobin.

(** A running process that yields at once. *)
Definition yields (t : kstate) : kstate :=
  match c_proc (cpu_of (k_mach t)) with
  | Some i => t <| k_procs ::= alter (λ q, q <| p_state := RUNNABLE |>) i |>
  | None => t
  end.

Lemma yields_cooperative : cooperative yields.
Proof.
  intros i t [Hw Hn Hp Hh Hf Hl Hs]. unfold yields. rewrite Hp.
  split; [done|done|done|done|by rewrite k_procs_alter_len].
Qed.

Lemma yields_leaves i : leaves_runnable i yields.
Proof. intros j t Hne [_ _ Hp _ _ _ _] Hi. unfold yields. rewrite Hp. by apply in_state_alter. Qed.

(** Processes 2 and 7 are runnable. *)
Definition ex_runnable : kstate :=
  ex_procs None (<[2%nat := proc0 <| p_state := RUNNABLE |>]>
    (<[7%nat := proc0 <| p_state := RUNNABLE |>]> (replicate NPROC proc0))).

Lemma ex_runnable_ready : sched_ready ex_runnable.
Proof. split; [|reflexivity]. apply ex_procs_ready. by rewrite !length_insert, length_replicate. Qed.

Lemma rr_round_serves_all_witness :
  ∃ ran e' s', rr_round (replicate NPROC yields) ex_runnable = Ret ran e' s' ∧
    served procs (replicate NPROC yields) ex_runnable ran e' s' ∧ 2%nat ∈ ran ∧ 7%nat ∈ ran.
Proof.
  destruct (rr_round_serves_all (replicate NPROC yields) ex_runnable) as (ran & e' & s' & E & _ & Hs & _ & _ & H).
  - apply ex_runnable_ready.
  - apply Forall_replicate, yields_cooperative.
  - rewrite length_replicate. lia.
  - exists ran, e', s'. split; [exact E|]. split; [exact Hs|].
    split; (apply H; [exists (proc0 <| p_state := RUNNABLE |>); vm_compute; split; reflexivity|apply Forall_replicate, yields_leaves]).
Defined.
