(* ===== verification/Sleeplock.v ===== *)
(** * Sleeplock: long-term locks (kernel/sleeplock.c)

    A held sleeplock is a binding of the lock to the holder's pid in
    [f_sleep]; a free one ([locked] and [pid] zero) has no binding. *)

From S2P Require Import Prelude Params CString State Spinlock PhysMem Kalloc Vm ProcBase.

Definition fs_upd (g : fsstate → fsstate) : K () := modify (λ s, s <| k_fs ::= g |>).
Definition fs_get {A} (f : fsstate → A) : K A := gets (λ s, f (k_fs s)).

Definition initsleeplock (lk : sleeplockid) : K () :=
  initlock (LSleep lk);;
  fs_upd (λ f, f <| f_sleep ::= delete lk |>).

Definition acquiresleep (lk : sleeplockid) : K () :=
  acquire (LSleep lk);;
  while_ (λ _ : (),
    locked ← fs_get (λ f, bool_decide (is_Some (f_sleep f !! lk)));
    if locked : bool then sleep (ChSleep lk) (LSleep lk);; mret (inl ())
    else mret (inr ())) ();;
  p ← myproc;
  p ← deref p;
  pid ← pget p p_pid;
  fs_upd (λ f, f <| f_sleep ::= insert lk pid |>);;
  release (LSleep lk).

Definition releasesleep (lk : sleeplockid) : K () :=
  acquire (LSleep lk);;
  fs_upd (λ f, f <| f_sleep ::= delete lk |>);;
  wakeup (ChSleep lk);;
  release (LSleep lk).

Definition holdingsleep (lk : sleeplockid) : K bool :=
  acquire (LSleep lk);;
  holder ← fs_get (λ f, f_sleep f !! lk);
  r ← match holder with
      | None => mret false
      | Some pid =>
          p ← myproc;
          p ← deref p;
          mypid ← pget p p_pid;
          mret (pid =? mypid)
      end;
  release (LSleep lk);;
  mret r.
