(* ===== verification/Virtio.v ===== *)
(** * Virtio: the disk driver (kernel/virtio_disk.c)

    The driver builds chains of three descriptors, hands their heads to the
    device through the avail ring, sleeps until the interrupt handler has seen
    the completion in the used ring, and frees the chain.  The device itself is
    not code of this repository: what it does to the rings, the buffers and the
    disk happens in environment steps, while the driver sleeps. *)

From S2P Require Import Prelude Params CString State Spinlock PhysMem Kalloc Vm ProcBase Sleeplock.

Definition NUM : nat := 8.

Definition VRING_DESC_F_NEXT : Z := 1.
Definition VRING_DESC_F_WRITE : Z := 2.
Definition VIRTIO_BLK_T_IN : Z := 0.
Definition VIRTIO_BLK_T_OUT : Z := 1.

Definition vd_get {A} (f : vdisk → A) : K A := fs_get (λ fs, f (f_vdisk fs)).
Definition vd_upd (g : vdisk → vdisk) : K () := fs_upd (λ fs, fs <| f_vdisk ::= g |>).
Definition mmio_write (reg v : Z) : K () := vd_upd (λ d, d <| vd_mmio ::= λ l, l ++ [(reg, u32 v)] |>).

(** [disk.desc[i]], [disk.free[i]], [disk.info[i]]: index checked. *)
Definition vd_at {A} (f : vdisk → list A) (i : Z) : K A :=
  l ← vd_get f;
  check (0 <=? i) "disk";;
  match l !! Z.to_nat i with Some x => mret x | None => fault "disk" end.
Definition vd_check (i : Z) : K () := check ((0 <=? i) && (i <? Z.of_nat NUM)) "disk".
Definition set_desc (i : Z) (d : desc) : K () :=
  vd_check i;; vd_upd (λ v, v <| vd_desc ::= insert (Z.to_nat i) d |>).
Definition set_free (i : Z) (b : bool) : K () :=
  vd_check i;; vd_upd (λ v, v <| vd_free ::= insert (Z.to_nat i) b |>).

(** A buffer of the cache. *)
Definition bufget {A} (i : nat) (f : buf → A) : K A :=
  bs ← fs_get f_bufs;
  match bs !! i with Some b => mret (f b) | None => fault "buf" end.
Definition bufset (i : nat) (g : buf → buf) : K () :=
  bs ← fs_get f_bufs;
  check (bool_decide (i < length bs)%nat) "buf";;
  fs_upd (λ f, f <| f_bufs ::= alter g i |>).

(** ** Initialisation

    [reg] gives the values the device's registers read as. *)
Section Init.
Context `{!Image}.

(** Offsets of the memory-mapped registers and bits of the status register. *)
Definition R_MAGIC : Z := 0x000.
Definition R_VERSION : Z := 0x004.
Definition R_DEVICE_ID : Z := 0x008.
Definition R_VENDOR_ID : Z := 0x00c.
Definition R_DEVICE_FEATURES : Z := 0x010.
Definition R_DRIVER_FEATURES : Z := 0x020.
Definition R_QUEUE_SEL : Z := 0x030.
Definition R_QUEUE_NUM_MAX : Z := 0x034.
Definition R_QUEUE_NUM : Z := 0x038.
Definition R_QUEUE_READY : Z := 0x044.
Definition R_QUEUE_NOTIFY : Z := 0x050.
Definition R_INTERRUPT_STATUS : Z := 0x060.
Definition R_INTERRUPT_ACK : Z := 0x064.
Definition R_STATUS : Z := 0x070.
Definition R_QUEUE_DESC_LOW : Z := 0x080.
Definition R_QUEUE_DESC_HIGH : Z := 0x084.
Definition R_DRIVER_DESC_LOW : Z := 0x090.
Definition R_DRIVER_DESC_HIGH : Z := 0x094.
Definition R_DEVICE_DESC_LOW : Z := 0x0a0.
Definition R_DEVICE_DESC_HIGH : Z := 0x0a4.

Definition S_ACKNOWLEDGE : Z := 1.
Definition S_DRIVER : Z := 2.
Definition S_DRIVER_OK : Z := 4.
Definition S_FEATURES_OK : Z := 8.

(** [features &= ~(1 << bit)] for each feature the driver does not want. *)
Definition unwanted_features : list Z := [5; 7; 11; 12; 27; 29; 28].
Definition negotiate (features : Z) : Z :=
  foldl (λ f bit, Z.land f (Z.lnot (Z.shiftl 1 bit))) features unwanted_features.

Definition virtio_disk_init (reg : Z → Z) : K () :=
  initlock LVdisk;;
  panic_if (negb (reg R_MAGIC =? 0x74726976) || negb (reg R_VERSION =? 2) ||
            negb (reg R_DEVICE_ID =? 2) || negb (reg R_VENDOR_ID =? 0x554d4551))
    "could not find virtio disk";;
  let status := 0 in
  mmio_write R_STATUS status;;
  let status := Z.lor status S_ACKNOWLEDGE in
  mmio_write R_STATUS status;;
  let status := Z.lor status S_DRIVER in
  mmio_write R_STATUS status;;
  mmio_write R_DRIVER_FEATURES (negotiate (reg R_DEVICE_FEATURES));;
  let status := Z.lor status S_FEATURES_OK in
  mmio_write R_STATUS status;;
  let status := reg R_STATUS in
  panic_if (Z.land status S_FEATURES_OK =? 0) "virtio disk FEATURES_OK unset";;
  mmio_write R_QUEUE_SEL 0;;
  panic_if (ctrue (reg R_QUEUE_READY)) "virtio disk should not be ready";;
  let max := reg R_QUEUE_NUM_MAX in
  panic_if (max =? 0) "virtio disk has no queue 0";;
  panic_if (max <? Z.of_nat NUM) "virtio disk max queue too short";;
  desc ← kalloc;
  avail ← kalloc;
  used ← kalloc;
  vd_upd (λ d, d <| vd_pages := (desc, avail, used) |>);;
  panic_if ((desc =? 0) || (avail =? 0) || (used =? 0)) "virtio disk kalloc";;
  kmemset desc 0 PGSIZE;;
  kmemset avail 0 PGSIZE;;
  kmemset used 0 PGSIZE;;
  vd_upd (λ d, d <| vd_desc := replicate NUM desc0 |> <| vd_avail_ring := replicate NUM 0 |>
                 <| vd_avail_idx := 0 |> <| vd_used_ring := replicate NUM 0 |> <| vd_used_dev := 0 |>);;
  mmio_write R_QUEUE_NUM (Z.of_nat NUM);;
  mmio_write R_QUEUE_DESC_LOW desc;;
  mmio_write R_QUEUE_DESC_HIGH (Z.shiftr desc 32);;
  mmio_write R_DRIVER_DESC_LOW avail;;
  mmio_write R_DRIVER_DESC_HIGH (Z.shiftr avail 32);;
  mmio_write R_DEVICE_DESC_LOW used;;
  mmio_write R_DEVICE_DESC_HIGH (Z.shiftr used 32);;
  mmio_write R_QUEUE_READY 1;;
  foreach (seqZ 0 (Z.of_nat NUM)) (λ i, set_free i true);;
  let status := Z.lor status S_DRIVER_OK in
  mmio_write R_STATUS status.
End Init.

(** ** Descriptors *)

Definition alloc_desc : K Z :=
  r ← scan (seqZ 0 (Z.of_nat NUM)) (λ i,
    free ← vd_at vd_free i;
    if free : bool then set_free i false;; mret (Some i) else mret None);
  mret (default (-1) r).

Definition free_desc (i : Z) : K () :=
  panic_if (Z.of_nat NUM <=? i) "free_desc 1";;
  free ← vd_at vd_free i;
  panic_if free "free_desc 2";;
  set_desc i desc0;;
  set_free i true;;
  wakeup ChDiskFree.

(** A chain has at most NUM descriptors: a freed descriptor panics when it is
    freed again. *)
Definition free_chain (i : Z) : K () :=
  while_ (λ i,
    d ← vd_at vd_desc i;
    let flag := d_flags d in
    let nxt := d_next d in
    free_desc i;;
    if ctrue (Z.land flag VRING_DESC_F_NEXT) then mret (inl nxt) else mret (inr ())) i.

(** Three descriptors, or none. *)
Definition alloc3_desc : K (option (list Z)) :=
  (fix go (n : nat) (idx : list Z) : K (option (list Z)) :=
     match n with
     | O => mret (Some idx)
     | S n' =>
         i ← alloc_desc;
         if i <? 0 then foreach idx free_desc;; mret None
         else go n' (idx ++ [i])
     end) 3%nat [].

(** ** Requests *)

Definition virtio_disk_rw (b : nat) (write : bool) : K () :=
  blockno ← bufget b b_blockno;
  let sector := u32 (blockno * (BSIZE / 512)) in
  acquire LVdisk;;
  idx ← while_ (λ _ : (),
    r ← alloc3_desc;
    match r with
    | Some idx => mret (inr idx)
    | None => sleep ChDiskFree LVdisk;; mret (inl ())
    end) ();
  match idx with
  | [i0; i1; i2] =>
      vd_upd (λ d, d <| vd_ops ::= insert (Z.to_nat i0)
                          (if write then VIRTIO_BLK_T_OUT else VIRTIO_BLK_T_IN, sector) |>);;
      set_desc i0 (Desc (DOp (Z.to_nat i0)) 16 VRING_DESC_F_NEXT i1);;
      set_desc i1 (Desc (DData b) BSIZE
                     (Z.lor (if write then 0 else VRING_DESC_F_WRITE) VRING_DESC_F_NEXT) i2);;
      vd_upd (λ d, d <| vd_info_status ::= insert (Z.to_nat i0) 0xff |>);;
      set_desc i2 (Desc (DStatus (Z.to_nat i0)) 1 VRING_DESC_F_WRITE 0);;
      bufset b (λ x, x <| b_disk := true |>);;
      vd_upd (λ d, d <| vd_info_b ::= insert (Z.to_nat i0) (Some b) |>);;
      vd_upd (λ d, d <| vd_avail_ring ::= insert (Z.to_nat (vd_avail_idx d mod Z.of_nat NUM)) i0 |>);;
      vd_upd (λ d, d <| vd_avail_idx ::= λ n, u16 (n + 1) |>);;
      mmio_write R_QUEUE_NOTIFY 0;;
      while_ (λ _ : (),
        busy ← bufget b b_disk;
        if busy : bool then sleep (ChBuf b) LVdisk;; mret (inl ()) else mret (inr ())) ();;
      vd_upd (λ d, d <| vd_info_b ::= insert (Z.to_nat i0) None |>);;
      free_chain i0;;
      release LVdisk
  | _ => fault "idx"
  end.

(** The completion interrupt; [status] is what INTERRUPT_STATUS reads as. *)
Definition virtio_disk_intr (status : Z) : K () :=
  acquire LVdisk;;
  mmio_write R_INTERRUPT_ACK (Z.land status 3);;
  while_ (λ _ : (),
    used_idx ← vd_get vd_used_idx;
    dev_idx ← vd_get vd_used_dev;
    if negb (used_idx =? dev_idx) then
      id ← vd_at vd_used_ring (used_idx mod Z.of_nat NUM);
      st ← vd_at vd_info_status id;
      panic_if (negb (st =? 0)) "virtio_disk_intr status";;
      b ← vd_at vd_info_b id;
      b ← deref b;
      bufset b (λ x, x <| b_disk := false |>);;
      wakeup (ChBuf b);;
      vd_upd (λ d, d <| vd_used_idx ::= λ n, u16 (n + 1) |>);;
      mret (inl ())
    else mret (inr ())) ();;
  release LVdisk.
