(* ===== verification/Bio.v ===== *)
(** * Bio: the buffer cache (kernel/bio.c)

    The doubly linked list through [bcache.head] is the list [f_lru] of buffer
    indices, from [head.next] (most recently used) to [head.prev]. *)

From S2P Require Import Prelude Params CString State Spinlock PhysMem Kalloc Vm ProcBase Sleeplock Virtio.

Definition binit : K () :=
  initlock LBcache;;
  fs_upd (λ f, f <| f_lru := [] |>);;
  foreach (seq 0 NBUF) (λ b,
    initsleeplock (SLBuf b);;
    fs_upd (λ f, f <| f_lru ::= cons b |>)).

Definition bget (dev blockno : Z) : K nat :=
  acquire LBcache;;
  lru ← fs_get f_lru;
  (* Is the block already cached? *)
  hit ← scan lru (λ b,
    d ← bufget b b_dev;
    n ← bufget b b_blockno;
    if (d =? dev) && (n =? blockno) then
      bufset b (λ x, x <| b_refcnt ::= λ r, u32 (r + 1) |>);;
      release LBcache;;
      acquiresleep (SLBuf b);;
      mret (Some b)
    else mret None);
  match hit with
  | Some b => mret b
  | None =>
      (* Recycle the least recently used unused buffer. *)
      free ← scan (reverse lru) (λ b,
        r ← bufget b b_refcnt;
        if r =? 0 then
          bufset b (λ x, x <| b_dev := dev |> <| b_blockno := blockno |>
                           <| b_valid := false |> <| b_refcnt := 1 |>);;
          release LBcache;;
          acquiresleep (SLBuf b);;
          mret (Some b)
        else mret None);
      match free with
      | Some b => mret b
      | None => panic "bget: no buffers"
      end
  end.

Definition bread (dev blockno : Z) : K nat :=
  b ← bget dev blockno;
  valid ← bufget b b_valid;
  when (negb valid) (
    virtio_disk_rw b false;;
    bufset b (λ x, x <| b_valid := true |>));;
  mret b.

Definition bwrite (b : nat) : K () :=
  h ← holdingsleep (SLBuf b);
  panic_if (negb h) "bwrite";;
  virtio_disk_rw b true.

(** Unlink [b] and insert it after the head. *)
Definition to_front (b : nat) (lru : list nat) : list nat := b :: filter (λ x, x ≠ b) lru.

Definition brelse (b : nat) : K () :=
  h ← holdingsleep (SLBuf b);
  panic_if (negb h) "brelse";;
  releasesleep (SLBuf b);;
  acquire LBcache;;
  bufset b (λ x, x <| b_refcnt ::= λ r, u32 (r - 1) |>);;
  r ← bufget b b_refcnt;
  when (r =? 0) (fs_upd (λ f, f <| f_lru ::= to_front b |>));;
  release LBcache.

Definition bpin (b : nat) : K () :=
  acquire LBcache;;
  bufset b (λ x, x <| b_refcnt ::= λ r, u32 (r + 1) |>);;
  release LBcache.

Definition bunpin (b : nat) : K () :=
  acquire LBcache;;
  bufset b (λ x, x <| b_refcnt ::= λ r, u32 (r - 1) |>);;
  release LBcache.
