(* ===== verification/Blocks.v ===== *)
(** * Blocks: what the log and the file system use of the rest of the kernel

    [Kern S] is the interface of the services below the log: locks, sleeping,
    the buffer cache, copying to user memory, and the log's, the file system's
    and the inode table's variables.  Log.v and Fs.v are written against it.
    [kern_kstate] is the kernel itself; [mini] is a small sequential machine
    with the same interface (a disk whose history of writes is recorded, and a
    cache), in which the crash behaviour of the log can be stated. *)

From S2P Require Import Prelude Params CString State Spinlock PhysMem Kalloc Vm ProcBase Sleeplock Virtio Bio.

Class Kern (S : Type) := {
  kn_acquire : lockid → KM S ();
  kn_release : lockid → KM S ();
  kn_sleep : chan → lockid → KM S ();
  kn_wakeup : chan → KM S ();
  kn_acquiresleep : sleeplockid → KM S ();
  kn_releasesleep : sleeplockid → KM S ();
  kn_holdingsleep : sleeplockid → KM S bool;
  kn_initlock : lockid → KM S ();
  kn_initsleeplock : sleeplockid → KM S ();
  kn_bread : Z → Z → KM S nat;
  kn_bwrite : nat → KM S ();
  kn_brelse : nat → KM S ();
  kn_bpin : nat → KM S ();
  kn_bunpin : nat → KM S ();
  kn_data : nat → KM S (list Z);                  (* b->data *)
  kn_set_data : nat → list Z → KM S ();
  kn_blockno : nat → KM S Z;                      (* b->blockno *)
  kn_log : KM S log;
  kn_set_log : (log → log) → KM S ();
  kn_sb : KM S superblock;
  kn_set_sb : superblock → KM S ();
  kn_inode : nat → KM S inode;                    (* itable.inode[i] *)
  kn_set_inode : nat → (inode → inode) → KM S ();
  kn_copyout : dest → list Z → KM S Z;            (* either_copyout *)
  kn_copyin : source → Z → KM S (Z * list Z);     (* either_copyin *)
  kn_cwd : KM S (option nat);                     (* myproc()->cwd *)
  kn_printk : string → list parg → KM S ();
}.

(** The kernel. *)
#[export] Instance kern_kstate `{!Image} : Kern kstate := {
  kn_acquire := acquire;
  kn_release := release;
  kn_sleep := sleep;
  kn_wakeup := wakeup;
  kn_acquiresleep := acquiresleep;
  kn_releasesleep := releasesleep;
  kn_holdingsleep := holdingsleep;
  kn_initlock := initlock;
  kn_initsleeplock := initsleeplock;
  kn_bread := bread;
  kn_bwrite := bwrite;
  kn_brelse := brelse;
  kn_bpin := bpin;
  kn_bunpin := bunpin;
  kn_data b := bufget b b_data;
  kn_set_data b d := bufset b (λ x, x <| b_data := d |>);
  kn_blockno b := bufget b b_blockno;
  kn_log := fs_get f_log;
  kn_set_log g := fs_upd (λ f, f <| f_log ::= g |>);
  kn_sb := fs_get f_sb;
  kn_set_sb sb := fs_upd (λ f, f <| f_sb := sb |>);
  kn_inode i := inodes ← fs_get f_inodes;
                match inodes !! i with Some x => mret x | None => fault "inode" end;
  kn_set_inode i g := inodes ← fs_get f_inodes;
                      check (bool_decide (i < length inodes)%nat) "inode";;
                      fs_upd (λ f, f <| f_inodes ::= alter g i |>);
  kn_copyout := either_copyout;
  kn_copyin := either_copyin;
  kn_cwd := p ← myproc; p ← deref p; pget p p_cwd;
  kn_printk := printk;
}.

(** ** A sequential machine with a recorded disk

    A buffer is named by its block number.  [mn_cache] holds the contents of
    the buffers that have been read; [mn_hist] lists the states the disk has
    been in before each block write, the most recent first, so that the disk
    after a crash at any moment is [mn_disk] or a member of [mn_hist];
    [mn_copied] lists what has been copied to callers, and where to. *)
Definition disk : Type := Z → list Z.
Definition dupd (d : disk) (b : Z) (v : list Z) : disk := λ x, if x =? b then v else d x.

Record mini := Mini {
  mn_disk : disk;
  mn_hist : list disk;
  mn_cache : gmap Z (list Z);
  mn_log : log;
  mn_sb : superblock;
  mn_inodes : list inode;
  mn_copied : list (dest * list Z);
}.
#[export] Instance mini_settable : Settable mini :=
  λ m, Mini (mn_disk m) (mn_hist m) (mn_cache m) (mn_log m) (mn_sb m) (mn_inodes m) (mn_copied m).

(** What a reader of block [b] sees. *)
Definition content (m : mini) (b : Z) : list Z := default (mn_disk m b) (mn_cache m !! b).

Definition mini_buf (b : nat) : KM mini (list Z) :=
  c ← gets mn_cache;
  match c !! Z.of_nat b with Some d => mret d | None => fault "buf" end.

#[export] Instance kern_mini : Kern mini := {
  kn_acquire _ := mret ();
  kn_release _ := mret ();
  kn_sleep _ _ := interfere;
  kn_wakeup _ := mret ();
  kn_acquiresleep _ := mret ();
  kn_releasesleep _ := mret ();
  kn_holdingsleep _ := mret true;
  kn_initlock _ := mret ();
  kn_initsleeplock _ := mret ();
  kn_bread dev b :=
    check (0 <=? b) "buf";;
    modify (λ m, m <| mn_cache ::= insert b (content m b) |>);;
    mret (Z.to_nat b);
  kn_bwrite b :=
    d ← mini_buf b;
    modify (λ m, m <| mn_hist ::= cons (mn_disk m) |>
                   <| mn_disk ::= λ k, dupd k (Z.of_nat b) d |>);
  kn_brelse _ := mret ();
  kn_bpin _ := mret ();
  kn_bunpin _ := mret ();
  kn_data := mini_buf;
  kn_set_data b d := mini_buf b;; modify (λ m, m <| mn_cache ::= insert (Z.of_nat b) d |>);
  kn_blockno b := mret (Z.of_nat b);
  kn_log := gets mn_log;
  kn_set_log g := modify (λ m, m <| mn_log ::= g |>);
  kn_sb := gets mn_sb;
  kn_set_sb sb := modify (λ m, m <| mn_sb := sb |>);
  kn_inode i := inodes ← gets mn_inodes; match inodes !! i with Some x => mret x | None => fault "inode" end;
  kn_set_inode i g := inodes ← gets mn_inodes;
                      check (bool_decide (i < length inodes)%nat) "inode";;
                      modify (λ m, m <| mn_inodes ::= alter g i |>);
  kn_copyout dst bytes := modify (λ m, m <| mn_copied ::= λ l, l ++ [(dst, bytes)] |>);; mret 0;
  kn_copyin src n := match src with
                     | LocalSrc bytes => mret (0, take (Z.to_nat n) bytes)
                     | UserSrc _ => mret (-1, [])
                     end;
  kn_cwd := mret None;
  kn_printk _ _ := mret ();
}.
