(* ===== verification/Bytes.v ===== *)
(** * Bytes: little-endian fields of on-disk blocks

    A block is a list of bytes; [get_le]/[put_le] read and write the field of
    [n] bytes at an offset, as the C code does through a struct pointer into
    [b->data]. *)

From S2P Require Import Prelude.

Fixpoint le_bytes (n : nat) (v : Z) : list Z :=
  match n with O => [] | S n' => v mod 256 :: le_bytes n' (v / 256) end.

Fixpoint of_le (l : list Z) : Z :=
  match l with [] => 0 | x :: l' => x + 256 * of_le l' end.

(** Overwrite the bytes at [off]. *)
Definition splice (data : list Z) (off : nat) (bs : list Z) : list Z :=
  take off data ++ bs ++ drop (off + length bs) data.

(** The bytes [off .. off+n). *)
Definition slice (data : list Z) (off n : nat) : list Z := take n (drop off data).

Definition get_le (data : list Z) (off n : nat) : Z := of_le (slice data off n).
Definition put_le (data : list Z) (off n : nat) (v : Z) : list Z := splice data off (le_bytes n v).

Abbreviation get16 := (λ d o, get_le d o 2).
Abbreviation get32 := (λ d o, get_le d o 4).
Abbreviation put16 := (λ d o v, put_le d o 2 v).
Abbreviation put32 := (λ d o v, put_le d o 4 v).

Lemma length_le_bytes n v : length (le_bytes n v) = n.
Proof. revert v. induction n; intros; cbn; [done|by f_equal]. Qed.

Lemma of_le_le_bytes n v : of_le (le_bytes n v) = v mod 256 ^ Z.of_nat n.
Proof.
  revert v. induction n as [|n IH]; intros v.
  - cbn. by rewrite Z.mod_1_r.
  - cbn [le_bytes of_le]. rewrite IH, Nat2Z.inj_succ, Z.pow_succ_r by lia.
    rewrite Z.rem_mul_r by (try apply Z.pow_nonzero; lia). lia.
Qed.

Lemma length_splice data off bs :
  (off + length bs ≤ length data)%nat → length (splice data off bs) = length data.
Proof. intros. unfold splice. rewrite !length_app, length_take, length_drop. lia. Qed.

Lemma slice_splice data off bs :
  (off + length bs ≤ length data)%nat → slice (splice data off bs) off (length bs) = bs.
Proof.
  intros. unfold slice, splice. rewrite drop_app_length' by (rewrite length_take; lia).
  apply take_app_length.
Qed.

Lemma slice_splice_ne data off bs off' n :
  (off + length bs ≤ length data)%nat → (off' + n ≤ off ∨ off + length bs ≤ off')%nat →
  slice (splice data off bs) off' n = slice data off' n.
Proof.
  intros Hl Hd. apply list_eq. intros i. unfold slice.
  destruct (decide (i < n)%nat) as [Hi|Hi]; [|by rewrite !lookup_take_ge by lia].
  rewrite !lookup_take_lt, !lookup_drop by done. unfold splice. destruct Hd as [Hd|Hd].
  - rewrite lookup_app_l by (rewrite length_take; lia). by rewrite lookup_take_lt by lia.
  - rewrite lookup_app_r by (rewrite length_take; lia). rewrite length_take_le by lia.
    rewrite lookup_app_r by lia. rewrite lookup_drop. f_equal. lia.
Qed.

Lemma get_put data off n v :
  (off + n ≤ length data)%nat → get_le (put_le data off n v) off n = v mod 256 ^ Z.of_nat n.
Proof.
  intros. unfold get_le, put_le. pose proof (slice_splice data off (le_bytes n v)) as Hs.
  rewrite length_le_bytes in Hs. rewrite Hs by done. apply of_le_le_bytes.
Qed.

Lemma get_put_ne data off n v off' n' :
  (off + n ≤ length data)%nat → (off' + n' ≤ off ∨ off + n ≤ off')%nat →
  get_le (put_le data off n v) off' n' = get_le data off' n'.
Proof.
  intros. unfold get_le, put_le. by rewrite slice_splice_ne by (by rewrite length_le_bytes).
Qed.

Lemma length_put data off n v : (off + n ≤ length data)%nat → length (put_le data off n v) = length data.
Proof. intros. apply length_splice. by rewrite length_le_bytes. Qed.

Lemma of_le_zeros n : of_le (replicate n 0) = 0.
Proof. induction n as [|n IH]; [done|]. cbn [replicate of_le]. lia. Qed.

Lemma get_zeros k o n : get_le (replicate k 0) o n = 0.
Proof. unfold get_le, slice. rewrite drop_replicate, take_replicate. apply of_le_zeros. Qed.
