(* ===== verification/Log.v ===== *)
(** * Log: the write-ahead log (kernel/log.c)

    The routines of log.c, over the interface of Blocks.v.  The on-disk header
    is the block at [log.start]: a 32-bit count followed by the home block
    numbers; the logged blocks follow it. *)

From S2P Require Import Prelude Params CString State Spinlock PhysMem Kalloc Vm ProcBase Sleeplock Virtio Bio Blocks Bytes.

Section Log.
Context {S : Type} `{!Kern S}.

(** [log.lh.block[i]]. *)
Definition lh_block (lg : log) (i : Z) : KM S Z :=
  check ((0 <=? i) && (i <? LOGSIZE)) "lh.block";;
  match lg_block lg !! Z.to_nat i with Some b => mret b | None => fault "lh.block" end.
Definition set_lh_block (i b : Z) : KM S () :=
  check ((0 <=? i) && (i <? LOGSIZE)) "lh.block";;
  kn_set_log (λ lg, lg <| lg_block ::= insert (Z.to_nat i) b |>).

(** The fields of a [struct logheader] at the start of a block. *)
Definition hdr_n (data : list Z) : Z := i32 (get32 data 0%nat).
Definition hdr_block (data : list Z) (i : Z) : Z := i32 (get32 data (Z.to_nat (4 + 4 * i))).
Definition set_hdr_n (v : Z) (data : list Z) : list Z := put32 data 0%nat v.
Definition set_hdr_block (i v : Z) (data : list Z) : list Z := put32 data (Z.to_nat (4 + 4 * i)) v.

Definition log_block (lg : log) (tail : Z) : Z := u32 (lg_start lg + tail + 1).

Definition install_trans (recovering : bool) : KM S () :=
  lg ← kn_log;
  foreach (seqZ 0 (lg_n lg)) (λ tail,
    lbuf ← kn_bread (lg_dev lg) (log_block lg tail);
    home ← lh_block lg tail;
    dbuf ← kn_bread (lg_dev lg) (u32 home);
    data ← kn_data lbuf;
    kn_set_data dbuf data;;
    kn_bwrite dbuf;;
    when (negb recovering) (kn_bunpin dbuf);;
    kn_brelse lbuf;;
    kn_brelse dbuf).

Definition read_head : KM S () :=
  lg ← kn_log;
  b ← kn_bread (lg_dev lg) (u32 (lg_start lg));
  data ← kn_data b;
  kn_set_log (λ lg, lg <| lg_n := hdr_n data |>);;
  foreach (seqZ 0 (hdr_n data)) (λ i, set_lh_block i (hdr_block data i));;
  kn_brelse b.

Definition write_head : KM S () :=
  lg ← kn_log;
  b ← kn_bread (lg_dev lg) (u32 (lg_start lg));
  data ← kn_data b;
  kn_set_data b (set_hdr_n (lg_n lg) data);;
  foreach (seqZ 0 (lg_n lg)) (λ i,
    home ← lh_block lg i;
    data ← kn_data b;
    kn_set_data b (set_hdr_block i home data));;
  kn_bwrite b;;
  kn_brelse b.

Definition recover_from_log : KM S () :=
  read_head;;
  install_trans true;;
  kn_set_log (λ lg, lg <| lg_n := 0 |>);;
  write_head.

Definition sizeof_logheader : Z := 4 + 4 * LOGSIZE.

Definition initlog (dev : Z) (sb : superblock) : KM S () :=
  panic_if (BSIZE <=? sizeof_logheader) "initlog: too big logheader";;
  kn_initlock LLog;;
  kn_set_log (λ lg, lg <| lg_start := i32 (sb_logstart sb) |>
                       <| lg_size := i32 (sb_nlog sb) |> <| lg_dev := dev |>);;
  recover_from_log.

(** ** Transactions *)

Definition begin_op : KM S () :=
  kn_acquire LLog;;
  while_ (λ _ : (),
    lg ← kn_log;
    if lg_committing lg then kn_sleep ChLog LLog;; mret (inl ())
    else if LOGSIZE <? lg_n lg + (lg_outstanding lg + 1) * MAXOPBLOCKS then
      kn_sleep ChLog LLog;; mret (inl ())
    else
      kn_set_log (λ lg, lg <| lg_outstanding ::= λ n, i32 (n + 1) |>);;
      kn_release LLog;;
      mret (inr ())) ().

Definition write_log : KM S () :=
  lg ← kn_log;
  foreach (seqZ 0 (lg_n lg)) (λ tail,
    to ← kn_bread (lg_dev lg) (log_block lg tail);
    home ← lh_block lg tail;
    from ← kn_bread (lg_dev lg) (u32 home);
    data ← kn_data from;
    kn_set_data to data;;
    kn_bwrite to;;
    kn_brelse from;;
    kn_brelse to).

Definition commit : KM S () :=
  lg ← kn_log;
  when (0 <? lg_n lg) (
    write_log;;
    write_head;;
    install_trans false;;
    kn_set_log (λ lg, lg <| lg_n := 0 |>);;
    write_head).

Definition end_op : KM S () :=
  kn_acquire LLog;;
  kn_set_log (λ lg, lg <| lg_outstanding ::= λ n, i32 (n - 1) |>);;
  lg ← kn_log;
  panic_if (lg_committing lg) "log.committing";;
  let do_commit := lg_outstanding lg =? 0 in
  (if do_commit then kn_set_log (λ lg, lg <| lg_committing := true |>)
   else kn_wakeup ChLog);;
  kn_release LLog;;
  when do_commit (
    commit;;
    kn_acquire LLog;;
    kn_set_log (λ lg, lg <| lg_committing := false |>);;
    kn_wakeup ChLog;;
    kn_release LLog).

(** The index at which block [b] is already logged, or [n]. *)
Fixpoint absorb (b : Z) (blocks : list Z) (i : Z) (n : nat) : Z :=
  match n, blocks with
  | Datatypes.S n', x :: blocks' => if u32 x =? b then i else absorb b blocks' (i + 1) n'
  | _, _ => i
  end.

Definition log_write (b : nat) : KM S () :=
  kn_acquire LLog;;
  lg ← kn_log;
  panic_if ((LOGSIZE <=? lg_n lg) || (lg_size lg - 1 <=? lg_n lg)) "too big a transaction";;
  panic_if (lg_outstanding lg <? 1) "log_write outside of trans";;
  blockno ← kn_blockno b;
  let i := absorb blockno (lg_block lg) 0 (Z.to_nat (lg_n lg)) in
  set_lh_block i (i32 blockno);;
  when (i =? lg_n lg) (
    kn_bpin b;;
    kn_set_log (λ lg, lg <| lg_n ::= λ n, i32 (n + 1) |>));;
  kn_release LLog.
End Log.
