(* ===== verification/LogCrash.v ===== *)
(** * LogCrash: a committed transaction is atomic with respect to crashes

    The log's routines run on the sequential machine [mini], which records every
    state its disk goes through.  A crash leaves the disk in one of these
    states; the next boot runs [initlog] on it with an empty cache, and may
    itself crash, any number of times.  After the first recovery that runs to
    its end, the blocks outside the log are either all as before the
    transaction or all as the transaction stored them, and the second once
    [commit] has returned. *)

From S2P Require Import Prelude Params CString State Spinlock PhysMem Kalloc Vm ProcBase Sleeplock Virtio Bio Blocks Bytes Log.

Implicit Types (m : mini) (d : disk).

(** ** Running block operations on [mini] *)

Lemma dupd_eq d b v : dupd d b v b = v.
Proof. unfold dupd. by rewrite Z.eqb_refl. Qed.
Lemma dupd_ne d b v x : x ≠ b → dupd d b v x = d x.
Proof. intros. unfold dupd. by destruct (Z.eqb_spec x b). Qed.

(** [m'] is [m] after block [b] has been set to [v] in the cache and written. *)
Record stored (b : Z) (v : list Z) (m m' : mini) : Prop := Wrote {
  wr_disk : mn_disk m' = dupd (mn_disk m) b v;
  wr_hist : mn_hist m' = mn_disk m :: mn_hist m;
  wr_content : ∀ x, content m' x = dupd (content m) b v x;
  wr_log : mn_log m' = mn_log m;
}.

(** [m'] is [m] with more blocks in the cache. *)
Record cached (m m' : mini) : Prop := Cached {
  ca_disk : mn_disk m' = mn_disk m;
  ca_hist : mn_hist m' = mn_hist m;
  ca_content : ∀ x, content m' x = content m x;
  ca_log : mn_log m' = mn_log m;
}.

Lemma content_insert m b v x :
  content (m <| mn_cache ::= insert b v |>) x = dupd (content m) b v x.
Proof.
  unfold content, dupd, set. cbn [mn_cache mn_disk]. destruct (Z.eqb_spec x b) as [->|Hne].
  - by rewrite lookup_insert_eq.
  - by rewrite lookup_insert_ne.
Qed.

Lemma bread_mini dev b (e : list (mini → mini)) m : 0 ≤ b →
  ∃ m', kn_bread dev b e m = Ret (Z.to_nat b) e m' ∧ cached m m' ∧
    mn_cache m' = <[b := content m b]> (mn_cache m).
Proof.
  intros Hb. cbn [kn_bread kern_mini]. krun. destruct (Z.leb_spec 0 b); [|lia]. krun.
  eexists. split; [reflexivity|]. split; [|done]. split; [done|done| |done].
  intros x. rewrite content_insert. unfold dupd. by destruct (Z.eqb_spec x b) as [->|].
Qed.

Lemma data_mini b v (e : list (mini → mini)) m :
  0 ≤ b → mn_cache m !! b = Some v → kn_data (Z.to_nat b) e m = Ret v e m.
Proof.
  intros Hb Hv. cbn [kn_data kern_mini]. unfold mini_buf. krun. by rewrite Z2Nat.id, Hv.
Qed.

Lemma set_data_mini b v w (e : list (mini → mini)) m :
  0 ≤ b → mn_cache m !! b = Some w →
  kn_set_data (Z.to_nat b) v e m = Ret () e (m <| mn_cache ::= insert b v |>).
Proof.
  intros Hb Hv. cbn [kn_set_data kern_mini]. unfold mini_buf. krun. rewrite Z2Nat.id, Hv by done. by krun.
Qed.

Lemma bwrite_mini b v (e : list (mini → mini)) m :
  0 ≤ b → mn_cache m !! b = Some v →
  kn_bwrite (Z.to_nat b) e m = Ret () e (m <| mn_hist ::= cons (mn_disk m) |> <| mn_disk ::= λ k, dupd k b v |>).
Proof.
  intros Hb Hv. cbn [kn_bwrite kern_mini]. unfold mini_buf. krun. rewrite Z2Nat.id, Hv by done. by krun.
Qed.

(** Setting a cached block and writing it. *)
Lemma set_write_mini b v w (e : list (mini → mini)) m :
  0 ≤ b → mn_cache m !! b = Some w →
  ∃ m', (kn_set_data (Z.to_nat b) v ;; kn_bwrite (Z.to_nat b)) e m = Ret () e m' ∧ stored b v m m' ∧
    mn_cache m' = <[b := v]> (mn_cache m).
Proof.
  intros Hb Hw. erewrite bind_Ret by (by eapply set_data_mini).
  erewrite bwrite_mini; [|done|apply lookup_insert_eq].
  eexists. split; [reflexivity|]. split; [|done]. split; [done|done| |done].
  intros x. unfold content, dupd, set. cbn [mn_cache mn_disk]. destruct (Z.eqb_spec x b) as [->|Hne].
  - by rewrite lookup_insert_eq.
  - by rewrite lookup_insert_ne.
Qed.

Lemma cached_trans m1 m2 m3 : cached m1 m2 → cached m2 m3 → cached m1 m3.
Proof. intros [] []. split; congruence. Qed.

Lemma cached_stored b v m1 m2 m3 : cached m1 m2 → stored b v m2 m3 → stored b v m1 m3.
Proof.
  intros [Hd Hh Hc Hl] [Wd Wh Wc Wl]. split; [congruence|congruence| |congruence].
  intros x. rewrite Wc. unfold dupd. by rewrite Hc.
Qed.

(** Reading two blocks into the cache. *)
Lemma bread2_mini m m1 m2 x y :
  cached m m1 → mn_cache m1 = <[x := content m x]> (mn_cache m) →
  cached m1 m2 → mn_cache m2 = <[y := content m1 y]> (mn_cache m1) →
  cached m m2 ∧ mn_cache m2 !! x = Some (content m x) ∧ mn_cache m2 !! y = Some (content m y).
Proof.
  intros C1 K1 C2 K2. split; [by eapply cached_trans|]. rewrite K2.
  destruct (decide (y = x)) as [->|Hne].
  - by rewrite lookup_insert_eq, (ca_content _ _ C1).
  - rewrite lookup_insert_eq, lookup_insert_ne by done. rewrite K1, lookup_insert_eq.
    by rewrite (ca_content _ _ C1).
Qed.

(** Copying one cached block to another and writing it. *)
Lemma copy_mini {A} from to (k : () → KM mini A) (e : list (mini → mini)) m m2 w :
  0 ≤ from → 0 ≤ to → cached m m2 →
  mn_cache m2 !! from = Some (content m from) → mn_cache m2 !! to = Some w →
  ∃ m', (data ← kn_data (Z.to_nat from); kn_set_data (Z.to_nat to) data;;
         kn_bwrite (Z.to_nat to) ≫= k) e m2 = k () e m' ∧ stored to (content m from) m m'.
Proof.
  intros Hf Ht C2 Hl Hw. erewrite bind_Ret by (by apply data_mini).
  destruct (set_write_mini to (content m from) w e m2 Ht Hw) as (m3 & E3 & W3 & _).
  exists m3. split; [|by eapply cached_stored].
  pose proof (set_data_mini to (content m from) w e m2 Ht Hw) as Es.
  rewrite (bind_Ret _ _ _ _ _ _ _ Es) in E3. run Es. by run E3.
Qed.

(** ** Histories *)

(** All the states the disk goes through from [m] (excluded) to [m'] satisfy [P]. *)
Definition advances (P : disk → Prop) (m m' : mini) : Prop :=
  ∃ l, mn_hist m' = l ++ mn_hist m ∧ Forall P l ∧ P (mn_disk m').

Lemma advances_refl P m : P (mn_disk m) → advances P m m.
Proof. intros. by exists []. Qed.

Lemma advances_last P m m' : advances P m m' → P (mn_disk m').
Proof. by intros (l & _ & _ & H). Qed.

Lemma advances_trans P m1 m2 m3 : advances P m1 m2 → advances P m2 m3 → advances P m1 m3.
Proof.
  intros (l1 & H1 & F1 & _) (l2 & H2 & F2 & P3). exists (l2 ++ l1).
  split_and!; [by rewrite H2, H1, app_assoc|by apply Forall_app|done].
Qed.

Lemma advances_mono (P Q : disk → Prop) m m' : (∀ d, P d → Q d) → advances P m m' → advances Q m m'.
Proof. intros HPQ (l & H1 & F1 & P1). exists l. split_and!; [done| |by apply HPQ]. by eapply Forall_impl. Qed.

Lemma stored_advances (P : disk → Prop) b v m m' :
  stored b v m m' → P (mn_disk m) → P (dupd (mn_disk m) b v) → advances P m m'.
Proof. intros [Hd Hh _ _] H1 H2. exists [mn_disk m]. split_and!; [done|by constructor|by rewrite Hd]. Qed.

Lemma advances_same (P : disk → Prop) m1 m2 m3 : mn_hist m2 = mn_hist m1 → advances P m2 m3 → advances P m1 m3.
Proof. intros Hh (l & H1 & F1 & P1). exists l. by rewrite H1, Hh. Qed.

(** ** The header block *)

(** What [write_head] makes of the header block [data]. *)
Definition header (n : Z) (blk : Z → Z) (data : list Z) : list Z :=
  foldl (λ dt i, set_hdr_block i (blk i) dt) (set_hdr_n n data) (seqZ 0 n).

Definition block_range (b : Z) : Prop := 0 ≤ b < 2 ^ 31.

Lemma i32_mod x : block_range x → i32 (x mod 256 ^ Z.of_nat 4) = x.
Proof.
  unfold block_range. change (256 ^ Z.of_nat 4) with 4294967296. change (2 ^ 31) with 2147483648.
  intros. rewrite Z.mod_small by lia. apply wraps_id; [lia|]. change (2 ^ (32 - 1)) with 2147483648. lia.
Qed.

Lemma header_prefix n blk data k :
  length data = 1024%nat → 0 ≤ k ≤ 30 →
  let h := foldl (λ dt i, set_hdr_block i (blk i) dt) (set_hdr_n n data) (seqZ 0 k) in
  length h = 1024%nat ∧ (block_range n → hdr_n h = n) ∧
  (∀ i, 0 ≤ i < k → block_range (blk i) → hdr_block h i = blk i).
Proof.
  intros Hl Hk. cbv zeta.
  assert (∀ j : nat, Z.of_nat j ≤ 30 →
    let h := foldl (λ dt i, set_hdr_block i (blk i) dt) (set_hdr_n n data) (seqZ 0 (Z.of_nat j)) in
    length h = 1024%nat ∧ (block_range n → hdr_n h = n) ∧
    (∀ i, 0 ≤ i < Z.of_nat j → block_range (blk i) → hdr_block h i = blk i)) as Hind.
  { cbv zeta. induction j as [|j IH]; intros Hj.
    - change (seqZ 0 (Z.of_nat 0)) with (@nil Z). cbn [foldl]. unfold set_hdr_n, hdr_n, hdr_block. cbv beta.
      split_and!; [rewrite length_put; lia| |lia]. intros Hn. rewrite get_put by lia. by apply i32_mod.
    - destruct (IH ltac:(lia)) as (Hlen & Hn & Hb).
      replace (Z.of_nat (S j)) with (Z.of_nat j + 1) in * by lia.
      rewrite seqZ_app, foldl_app by lia. change (seqZ (0 + Z.of_nat j) 1) with [0 + (0 + Z.of_nat j)].
      cbn [foldl]. rewrite !Z.add_0_l.
      set (h := foldl _ _ _) in *. unfold set_hdr_block, hdr_n, hdr_block in *. cbv beta in *. split_and!.
      + by rewrite length_put by lia.
      + intros Hr. rewrite get_put_ne by lia. by apply Hn.
      + intros i Hi Hr. destruct (decide (i = Z.of_nat j)) as [->|Hne].
        * rewrite get_put by lia. by apply i32_mod.
        * rewrite get_put_ne by lia. apply Hb; [lia|done]. }
  specialize (Hind (Z.to_nat k)). rewrite Z2Nat.id in Hind by lia. apply Hind. lia.
Qed.

(** ** The disk layout *)

Section Crash.
Variables (start size dev : Z) (bs : list Z).
Hypothesis Hstart : 0 ≤ start.
Hypothesis Hsize : start + size < 2 ^ 31.
Hypothesis Hn : Z.of_nat (length bs) ≤ 30 ∧ Z.of_nat (length bs) < size.

(** The blocks of the log, and the home blocks of the transaction. *)
Definition inlog (x : Z) : Prop := start ≤ x < start + size.
Hypothesis Hbs : Forall (λ b, block_range b ∧ ¬ inlog b) bs.
Hypothesis Hnodup : NoDup bs.

Abbreviation N := (Z.of_nat (length bs)).

(** The disk holds no committed transaction; outside the log it is [base]. *)
Definition empty_ok (base : disk) (d : disk) : Prop :=
  length (d start) = 1024%nat ∧ hdr_n (d start) = 0 ∧ ∀ x, ¬ inlog x → d x = base x.

(** The disk holds a committed transaction that gives block [b] of [bs] the
    contents [w b]; the home blocks of the transaction may or may not have been
    written yet. *)
Definition commit_ok (base w : disk) (d : disk) : Prop :=
  length (d start) = 1024%nat ∧ hdr_n (d start) = N ∧
  (∀ i b, bs !! i = Some b → hdr_block (d start) (Z.of_nat i) = b) ∧
  (∀ i b, bs !! i = Some b → d (start + Z.of_nat i + 1) = w b) ∧
  (∀ x, ¬ inlog x → x ∉ bs → d x = base x).

(** The disk contents after the transaction. *)
Definition after (base w : disk) : disk := λ x, if bool_decide (x ∈ bs) then w x else base x.

(** The in-memory log describes the transaction. *)
Record log_of (n : Z) (lg : log) : Prop := LogOf {
  lo_start : lg_start lg = start;
  lo_size : lg_size lg = size;
  lo_n : lg_n lg = n;
  lo_len : length (lg_block lg) = 30%nat;
  lo_blocks : ∀ i b, (Z.of_nat i < n) → bs !! i = Some b → lg_block lg !! i = Some b;
}.

Lemma u32_range x : 0 ≤ x < 2 ^ 31 → u32 x = x.
Proof. intros. apply wrapu_id. change (2 ^ 31) with 2147483648 in *. change (2 ^ 32) with 4294967296. lia. Qed.

Lemma log_block_val lg i : lg_start lg = start → 0 ≤ i < N → log_block lg i = start + i + 1.
Proof. intros Hs Hi. unfold log_block. rewrite Hs. apply u32_range. lia. Qed.

Lemma bs_lookup i : 0 ≤ i < N → ∃ b, bs !! Z.to_nat i = Some b ∧ block_range b ∧ ¬ inlog b.
Proof.
  intros Hi. destruct (lookup_lt_is_Some_2 bs (Z.to_nat i)) as [b Hb]; [lia|].
  exists b. split; [done|]. by apply (Forall_lookup_1 _ _ _ _ Hbs Hb).
Qed.

Lemma lh_block_run {S} n lg i b (e : list (S → S)) s :
  log_of n lg → 0 ≤ i < n → i < N → bs !! Z.to_nat i = Some b → lh_block lg i e s = Ret b e s.
Proof.
  intros Hlg Hi HN Hb. unfold lh_block. krun.
  assert ((0 <=? i) && (i <? LOGSIZE) = true) as ->.
  { unfold LOGSIZE, MAXOPBLOCKS. apply andb_true_iff. split; [apply Z.leb_le|apply Z.ltb_lt]; lia. }
  rewrite (lo_blocks _ _ Hlg (Z.to_nat i) b); [done|lia|done].
Qed.

Abbreviation menv := (list (mini → mini)).

(** The home block of entry [i]. *)
Definition home (i : Z) : Z := default 0 (bs !! Z.to_nat i).

Lemma home_lookup i b : 0 ≤ i → bs !! Z.to_nat i = Some b → home i = b.
Proof. intros _ Hb. unfold home. by rewrite Hb. Qed.

(** The loop of [write_head] fills in the block numbers in the cached header. *)
Lemma write_head_loop n lg (e : menv) m h0 :
  log_of n lg → 0 ≤ n ≤ N → mn_cache m !! start = Some h0 →
  ∃ m', foreach (seqZ 0 n) (λ i, hm ← lh_block lg i; data ← kn_data (Z.to_nat start);
           kn_set_data (Z.to_nat start) (set_hdr_block i hm data)) e m = Ret () e m' ∧
    mn_disk m' = mn_disk m ∧ mn_hist m' = mn_hist m ∧ mn_log m' = mn_log m ∧
    mn_cache m' = <[start := foldl (λ dt i, set_hdr_block i (home i) dt) h0 (seqZ 0 n)]> (mn_cache m).
Proof.
  intros Hlg Hnn Hc.
  assert (wp (foreach (seqZ 0 n) (λ i, hm ← lh_block lg i; data ← kn_data (Z.to_nat start);
           kn_set_data (Z.to_nat start) (set_hdr_block i hm data)))
    (λ _ e' m', e' = e ∧ mn_disk m' = mn_disk m ∧ mn_hist m' = mn_hist m ∧ mn_log m' = mn_log m ∧
      mn_cache m' = <[start := foldl (λ dt i, set_hdr_block i (home i) dt) h0 (seqZ 0 n)]> (mn_cache m)) e m) as Hwp.
  { apply (foreach_seqZ_wp _ (λ i e' m', e' = e ∧ mn_disk m' = mn_disk m ∧ mn_hist m' = mn_hist m ∧
      mn_log m' = mn_log m ∧
      mn_cache m' = <[start := foldl (λ dt i, set_hdr_block i (home i) dt) h0 (seqZ 0 i)]> (mn_cache m))); [lia| |].
    - split_and!; try done. change (seqZ 0 0) with (@nil Z). cbn [foldl]. by rewrite insert_id.
    - intros i e' m' Hi (-> & Hd & Hh & Hl & Hk). destruct (bs_lookup i ltac:(lia)) as (b & Hb & _ & _).
      apply wp_bind. eapply wp_Ret; [eapply lh_block_run; [done|lia|lia|exact Hb]|].
      apply wp_bind. eapply wp_Ret; [apply data_mini; [done|rewrite Hk; apply lookup_insert_eq]|].
      eapply wp_Ret; [eapply set_data_mini; [done|rewrite Hk; apply lookup_insert_eq]|].
      split_and!; [done|exact Hd|exact Hh|exact Hl|]. unfold set. cbn [mn_cache]. rewrite Hk, insert_insert_eq.
      f_equal. rewrite seqZ_app, foldl_app by lia. change (seqZ (0 + i) 1) with [0 + (0 + i)]. cbn [foldl].
      rewrite !Z.add_0_l. by rewrite (home_lookup i b) by (done || lia). }
  apply wp_Ret_inv in Hwp as (a & e' & m' & E & -> & H). destruct a. by exists m'.
Qed.

Lemma write_head_run n (e : menv) m :
  log_of n (mn_log m) → 0 ≤ n ≤ N → length (content m start) = 1024%nat →
  ∃ m' h, write_head e m = Ret () e m' ∧ stored start h m m' ∧ length h = 1024%nat ∧ hdr_n h = n ∧
    ∀ i b, Z.of_nat i < n → bs !! i = Some b → hdr_block h (Z.of_nat i) = b.
Proof.
  intros Hlg Hnn Hlen. unfold write_head. cbn [kn_log kern_mini]. krun.
  rewrite (lo_start _ _ Hlg), (lo_n _ _ Hlg), u32_range by lia.
  destruct (bread_mini (lg_dev (mn_log m)) start e m Hstart) as (m1 & E1 & C1 & K1). run E1.
  erewrite bind_Ret; [|apply data_mini; [done|rewrite K1; apply lookup_insert_eq]].
  erewrite bind_Ret; [|eapply set_data_mini; [done|rewrite K1; apply lookup_insert_eq]].
  set (m2 := m1 <| mn_cache ::= insert start (set_hdr_n n (content m start)) |>).
  destruct (write_head_loop n (mn_log m) e m2 (set_hdr_n n (content m start)) Hlg Hnn) as (m3 & E3 & D3 & H3 & L3 & K3).
  { apply lookup_insert_eq. }
  run E3. set (h := foldl _ _ _) in *.
  erewrite bind_Ret; [|apply bwrite_mini; [done|rewrite K3; apply lookup_insert_eq]].
  cbn [kn_brelse kern_mini]. krun. eexists _, h. split; [reflexivity|].
  destruct (header_prefix n home (content m start) n Hlen ltac:(lia)) as (Hl & Hhn & Hb). fold h in Hl, Hhn, Hb.
  split_and!; [|done|apply Hhn; unfold block_range; lia|].
  - destruct C1 as [Cd Ch Cc Cl]. split.
    + change (dupd (mn_disk m3) start h = dupd (mn_disk m) start h). rewrite D3. exact (f_equal (λ z, dupd z start h) Cd).
    + change (mn_disk m3 :: mn_hist m3 = mn_disk m :: mn_hist m). rewrite D3, H3.
      change (mn_disk m1 :: mn_hist m1 = mn_disk m :: mn_hist m). congruence.
    + intros x. unfold content, dupd, set. cbn [mn_cache mn_disk]. rewrite K3.
      destruct (Z.eqb_spec x start) as [->|Hne]; [by rewrite lookup_insert_eq|].
      rewrite lookup_insert_ne by done. unfold m2, set. cbn [mn_cache]. rewrite lookup_insert_ne by done.
      rewrite K1, lookup_insert_ne by done. rewrite D3. unfold m2, set. cbn [mn_disk]. by rewrite Cd.
    + change (mn_log m3 = mn_log m). rewrite L3. exact Cl.
  - intros i b Hi Hib. rewrite Hb; [|lia|].
    + apply home_lookup; [lia|]. by rewrite Nat2Z.id.
    + unfold home. rewrite Nat2Z.id, Hib. cbn. by apply (Forall_lookup_1 _ _ _ _ Hbs Hib).
Qed.

(** Blocks of the log are not home blocks. *)
Lemma home_not_log i b j : bs !! i = Some b → 0 ≤ j < N → b ≠ start + j + 1.
Proof.
  intros Hb Hj ->. apply (Forall_lookup_1 _ _ _ _ Hbs) in Hb as [_ Hnl]. apply Hnl. unfold inlog. lia.
Qed.

Lemma entry_inlog j : 0 ≤ j < N → inlog (start + j + 1).
Proof. unfold inlog. lia. Qed.

(** One iteration of [write_log] and of [install_trans]. *)
Lemma write_log_body i b (e : menv) m :
  log_of N (mn_log m) → 0 ≤ i < N → bs !! Z.to_nat i = Some b →
  ∃ m', (to ← kn_bread (lg_dev (mn_log m)) (log_block (mn_log m) i); hm ← lh_block (mn_log m) i;
         from ← kn_bread (lg_dev (mn_log m)) (u32 hm); data ← kn_data from; kn_set_data to data;;
         kn_bwrite to;; kn_brelse from;; kn_brelse to) e m = Ret () e m' ∧
    stored (start + i + 1) (content m b) m m'.
Proof.
  intros Hlg Hi Hb. rewrite (log_block_val _ _ (lo_start _ _ Hlg) Hi).
  destruct (bs_lookup i Hi) as (b' & Hb' & Hr & _). assert (b' = b) as -> by congruence.
  destruct (bread_mini (lg_dev (mn_log m)) (start + i + 1) e m ltac:(lia)) as (m1 & E1 & C1 & K1). run E1.
  erewrite bind_Ret by (eapply lh_block_run; [done|lia|lia|exact Hb]). unfold block_range in Hr.
  rewrite u32_range by done.
  destruct (bread_mini (lg_dev (mn_log m)) b e m1 ltac:(lia)) as (m2 & E2 & C2 & K2). run E2.
  destruct (bread2_mini _ _ _ _ _ C1 K1 C2 K2) as (C & Kt & Kf).
  destruct (copy_mini b (start + i + 1) (λ _, kn_brelse (Z.to_nat b) ;; kn_brelse (Z.to_nat (start + i + 1)))
    e m m2 _ ltac:(lia) ltac:(lia) C Kf Kt) as (m3 & E3 & W3).
  exists m3. split; [exact E3|done].
Qed.

Lemma install_body rec i b (e : menv) m :
  log_of N (mn_log m) → 0 ≤ i < N → bs !! Z.to_nat i = Some b →
  ∃ m', (lbuf ← kn_bread (lg_dev (mn_log m)) (log_block (mn_log m) i); hm ← lh_block (mn_log m) i;
         dbuf ← kn_bread (lg_dev (mn_log m)) (u32 hm); data ← kn_data lbuf; kn_set_data dbuf data;;
         kn_bwrite dbuf;; when (negb rec) (kn_bunpin dbuf);; kn_brelse lbuf;; kn_brelse dbuf) e m = Ret () e m' ∧
    stored b (content m (start + i + 1)) m m'.
Proof.
  intros Hlg Hi Hb. rewrite (log_block_val _ _ (lo_start _ _ Hlg) Hi).
  destruct (bs_lookup i Hi) as (b' & Hb' & Hr & _). assert (b' = b) as -> by congruence.
  destruct (bread_mini (lg_dev (mn_log m)) (start + i + 1) e m ltac:(lia)) as (m1 & E1 & C1 & K1). run E1.
  erewrite bind_Ret by (eapply lh_block_run; [done|lia|lia|exact Hb]). unfold block_range in Hr.
  rewrite u32_range by done.
  destruct (bread_mini (lg_dev (mn_log m)) b e m1 ltac:(lia)) as (m2 & E2 & C2 & K2). run E2.
  destruct (bread2_mini _ _ _ _ _ C1 K1 C2 K2) as (C & Kt & Kf).
  destruct (copy_mini (start + i + 1) b (λ _, when (negb rec) (kn_bunpin (Z.to_nat b)) ;;
    kn_brelse (Z.to_nat (start + i + 1)) ;; kn_brelse (Z.to_nat b))
    e m m2 _ ltac:(lia) ltac:(lia) C Kt Kf) as (m3 & E3 & W3).
  exists m3. split; [rewrite E3; by destruct rec|done].
Qed.

Lemma empty_ok_log base d j v : 0 ≤ j < N → empty_ok base d → empty_ok base (dupd d (start + j + 1) v).
Proof.
  intros Hj (Hl & Hh & Hx). unfold empty_ok. rewrite dupd_ne by lia. split_and!; [done|done|].
  intros x Hnl. rewrite dupd_ne; [by apply Hx|]. intros ->. apply Hnl, (entry_inlog j Hj).
Qed.

Lemma commit_ok_home base w d b v : b ∈ bs → commit_ok base w d → commit_ok base w (dupd d b v).
Proof.
  intros Hb (Hl & Hh & Hk & Hv & Hx). apply list_elem_of_lookup in Hb as [i Hi].
  assert (start ≠ b) as Hns.
  { intros <-. apply (Forall_lookup_1 _ _ _ _ Hbs) in Hi as [_ Hnl]. apply Hnl. unfold inlog. lia. }
  unfold commit_ok. rewrite dupd_ne by done. split_and!; [done|done|done| |].
  - intros j b' Hj. rewrite dupd_ne; [by eapply Hv|]. apply not_eq_sym. eapply home_not_log; [exact Hi|].
    apply lookup_lt_Some in Hj. lia.
  - intros x Hnl Hnb. rewrite dupd_ne; [by apply Hx|]. intros ->. apply Hnb.
    apply list_elem_of_lookup. by exists i.
Qed.

Lemma write_log_run base (e : menv) m :
  log_of N (mn_log m) → empty_ok base (mn_disk m) →
  ∃ m', write_log e m = Ret () e m' ∧ advances (empty_ok base) m m' ∧ mn_log m' = mn_log m ∧
    content m' start = content m start ∧
    (∀ i b, bs !! i = Some b → mn_disk m' (start + Z.of_nat i + 1) = content m b ∧
                               content m' (start + Z.of_nat i + 1) = content m b).
Proof.
  intros Hlg Hok. unfold write_log. cbn [kn_log kern_mini]. krun. rewrite (lo_n _ _ Hlg).
  set (I := λ i (e' : menv) m', e' = e ∧ advances (empty_ok base) m m' ∧ mn_log m' = mn_log m ∧
    content m' start = content m start ∧ (∀ x, ¬ inlog x → content m' x = content m x) ∧
    (∀ j b, Z.of_nat j < i → bs !! j = Some b → mn_disk m' (start + Z.of_nat j + 1) = content m b ∧
                                             content m' (start + Z.of_nat j + 1) = content m b)).
  assert (wp (foreach (seqZ 0 N) (λ tail,
    to ← kn_bread (lg_dev (mn_log m)) (log_block (mn_log m) tail); hm ← lh_block (mn_log m) tail;
    from ← kn_bread (lg_dev (mn_log m)) (u32 hm); data ← kn_data from; kn_set_data to data;;
    kn_bwrite to;; kn_brelse from;; kn_brelse to)) (λ _, I N) e m) as Hwp.
  { apply (foreach_seqZ_wp _ I); [lia| |].
    - unfold I. split_and!; try done; [by apply advances_refl|]. intros. lia.
    - intros i e' m1 Hi (-> & Hev & Hl & Hcs & Hcx & Hdone). destruct (bs_lookup i Hi) as (b & Hb & _ & Hnl).
      rewrite <- Hl. rewrite <- Hl in Hlg. destruct (write_log_body i b e m1 Hlg Hi Hb) as (m2 & E2 & [Wd Wh Wc Wl]).
      eapply wp_Ret; [exact E2|]. unfold I. rewrite !Wc. split_and!; [done| |congruence| | |].
      + eapply advances_trans; [exact Hev|]. eapply stored_advances; [by split| |]; destruct Hev as (_ & _ & _ & Hp); [done|].
        by apply empty_ok_log.
      + rewrite dupd_ne by lia. done.
      + intros x Hx. rewrite Wc, dupd_ne; [by apply Hcx|]. intros ->. apply Hx, (entry_inlog i Hi).
      + intros j b' Hj Hb'. rewrite Wd, Wc. destruct (decide (Z.of_nat j = i)) as [<-|Hne].
        * rewrite Nat2Z.id in Hb. assert (b' = b) as -> by congruence. rewrite !dupd_eq. by rewrite Hcx.
        * rewrite !dupd_ne by lia. apply Hdone; [lia|done]. }
  apply wp_Ret_inv in Hwp as (a & e' & m' & E & -> & H1 & H2 & H3 & _ & H5). destruct a.
  exists m'. split_and!; [exact E|done|done|done|]. intros i b Hb. apply H5; [|done].
  apply lookup_lt_Some in Hb. lia.
Qed.

Lemma install_run rec base w (e : menv) m :
  log_of N (mn_log m) → commit_ok base w (mn_disk m) →
  (∀ i b, bs !! i = Some b → content m (start + Z.of_nat i + 1) = w b) →
  ∃ m', install_trans rec e m = Ret () e m' ∧ advances (commit_ok base w) m m' ∧ mn_log m' = mn_log m ∧
    content m' start = content m start ∧ (∀ b, b ∈ bs → mn_disk m' b = w b).
Proof.
  intros Hlg Hok Hct. unfold install_trans. cbn [kn_log kern_mini]. krun. rewrite (lo_n _ _ Hlg).
  set (I := λ i (e' : menv) m', e' = e ∧ advances (commit_ok base w) m m' ∧ mn_log m' = mn_log m ∧
    content m' start = content m start ∧ (∀ x, inlog x → content m' x = content m x) ∧
    (∀ j b, Z.of_nat j < i → bs !! j = Some b → mn_disk m' b = w b)).
  assert (wp (foreach (seqZ 0 N) (λ tail,
    lbuf ← kn_bread (lg_dev (mn_log m)) (log_block (mn_log m) tail); hm ← lh_block (mn_log m) tail;
    dbuf ← kn_bread (lg_dev (mn_log m)) (u32 hm); data ← kn_data lbuf; kn_set_data dbuf data;;
    kn_bwrite dbuf;; when (negb rec) (kn_bunpin dbuf);; kn_brelse lbuf;; kn_brelse dbuf)) (λ _, I N) e m) as Hwp.
  { apply (foreach_seqZ_wp _ I); [lia| |].
    - unfold I. split_and!; try done; [by apply advances_refl|]. intros. lia.
    - intros i e' m1 Hi (-> & Hev & Hl & Hcs & Hcx & Hdone). destruct (bs_lookup i Hi) as (b & Hb & _ & Hnl).
      rewrite <- Hl. rewrite <- Hl in Hlg. destruct (install_body rec i b e m1 Hlg Hi Hb) as (m2 & E2 & [Wd Wh Wc Wl]).
      assert (content m1 (start + i + 1) = w b) as Hv.
      { rewrite Hcx by (by apply entry_inlog). specialize (Hct _ _ Hb). by rewrite Z2Nat.id in Hct by lia. }
      assert (b ∈ bs) as Hin by (apply list_elem_of_lookup; eauto).
      eapply wp_Ret; [exact E2|]. unfold I. rewrite !Wc. split_and!; [done| |congruence| | |].
      + eapply advances_trans; [exact Hev|]. eapply stored_advances; [by split| |]; destruct Hev as (_ & _ & _ & Hp); [done|].
        by apply commit_ok_home.
      + rewrite dupd_ne; [done|]. intros <-. apply Hnl. unfold inlog. lia.
      + intros x Hx. rewrite Wc, dupd_ne; [by apply Hcx|]. congruence.
      + intros j b' Hj Hb'. rewrite Wd. destruct (decide (Z.of_nat j = i)) as [<-|Hne].
        * rewrite Nat2Z.id in Hb. assert (b' = b) as -> by congruence. by rewrite !dupd_eq.
        * rewrite dupd_ne; [apply (Hdone j); [lia|done]|]. intros ->.
          apply Hne. assert (j = Z.to_nat i) as -> by (eapply NoDup_lookup; [exact Hnodup|done|done]). lia. }
  apply wp_Ret_inv in Hwp as (a & e' & m' & E & -> & H1 & H2 & H3 & _ & H5). destruct a.
  exists m'. split_and!; [exact E|done|done|done|]. intros b [i Hb]%list_elem_of_lookup. apply (H5 i b); [|done].
  apply lookup_lt_Some in Hb. lia.
Qed.

(** Erasing the transaction after the home blocks have been written. *)
Lemma erase_run base w (e : menv) m :
  log_of 0 (mn_log m) → commit_ok base w (mn_disk m) → (∀ b, b ∈ bs → mn_disk m b = w b) →
  length (content m start) = 1024%nat →
  ∃ m', write_head e m = Ret () e m' ∧
    advances (λ d, commit_ok base w d ∨ empty_ok (after base w) d) m m' ∧ empty_ok (after base w) (mn_disk m').
Proof.
  intros Hlg Hok Hhome Hlen. destruct (write_head_run 0 e m Hlg ltac:(lia) Hlen) as (m' & h & E & W & Hl & Hh & _).
  assert (empty_ok (after base w) (dupd (mn_disk m) start h)) as He.
  { unfold empty_ok. rewrite dupd_eq. split_and!; [done|done|]. intros x Hx.
    rewrite dupd_ne by (intros ->; apply Hx; unfold inlog; lia). unfold after.
    case_bool_decide; [by apply Hhome|]. by apply Hok. }
  exists m'. split_and!; [done| |by rewrite (wr_disk _ _ _ _ W)].
  eapply stored_advances; [exact W|by left|by right].
Qed.

(** ** commit *)

Lemma commit_run base (e : menv) m :
  log_of N (mn_log m) → bs ≠ [] → empty_ok base (mn_disk m) → length (content m start) = 1024%nat →
  ∃ m', commit e m = Ret () e m' ∧
    advances (λ d, empty_ok base d ∨ commit_ok base (content m) d ∨ empty_ok (after base (content m)) d) m m' ∧
    empty_ok (after base (content m)) (mn_disk m').
Proof.
  intros Hlg Hne Hok Hlen. unfold commit. cbn [kn_log kern_mini]. krun. rewrite (lo_n _ _ Hlg).
  destruct (Z.ltb_spec 0 N) as [_|H0]; [|destruct bs; cbn in H0; [done|lia]].
  destruct (write_log_run base e m Hlg Hok) as (m1 & E1 & V1 & L1 & S1 & B1). run E1.
  rewrite <- L1 in Hlg.
  destruct (write_head_run N e m1 Hlg ltac:(lia) ltac:(by rewrite S1)) as (m2 & h & E2 & W2 & Hl2 & Hh2 & Hb2). run E2.
  assert (empty_ok base (mn_disk m1)) as Ok1 by exact (advances_last _ _ _ V1).
  assert (commit_ok base (content m) (mn_disk m2)) as Ok2.
  { rewrite (wr_disk _ _ _ _ W2). unfold commit_ok. rewrite dupd_eq. split_and!; [done|done| | |].
    - intros i b Hb. apply Hb2; [|done]. apply lookup_lt_Some in Hb. lia.
    - intros i b Hb. rewrite dupd_ne by lia. by apply B1.
    - intros x Hx _. rewrite dupd_ne by (intros ->; apply Hx; unfold inlog; lia). by apply Ok1. }
  destruct (install_run false base (content m) e m2) as (m3 & E3 & V3 & L3 & S3 & B3); [by rewrite (wr_log _ _ _ _ W2)|done| |].
  { intros i b Hb. rewrite (wr_content _ _ _ _ W2), dupd_ne by lia. by apply B1. }
  run E3. cbn [kn_set_log kern_mini]. krun.
  set (m4 := m3 <| mn_log ::= set lg_n (λ _, 0) |>).
  destruct (erase_run base (content m) e m4) as (m5 & E5 & V5 & Ok5).
  - assert (mn_log m4 = mn_log m1 <| lg_n := 0 |>) as ->.
    { unfold m4, set. cbn [mn_log]. by rewrite L3, (wr_log _ _ _ _ W2). }
    destruct Hlg. split; [done|done|done|done|]. intros. lia.
  - exact (advances_last _ _ _ V3).
  - exact B3.
  - change (length (content m3 start) = 1024%nat). rewrite S3, (wr_content _ _ _ _ W2), dupd_eq. done.
  - exists m5. split_and!; [exact E5| |done].
    eapply advances_trans; [eapply advances_mono; [|exact V1]; tauto|].
    eapply advances_trans; [eapply stored_advances; [exact W2|tauto|]|].
    { rewrite <- (wr_disk _ _ _ _ W2). tauto. }
    eapply advances_trans; [eapply advances_mono; [|exact V3]; tauto|].
    eapply advances_mono; [|exact V5]. tauto.
Qed.

(** ** Recovery *)

(** Reading a header that lists a prefix of [bs]. *)
Lemma read_head_run n (e : menv) m :
  lg_start (mn_log m) = start → lg_size (mn_log m) = size → length (lg_block (mn_log m)) = 30%nat →
  hdr_n (content m start) = n → 0 ≤ n ≤ N →
  (∀ i b, Z.of_nat i < n → bs !! i = Some b → hdr_block (content m start) (Z.of_nat i) = b) →
  ∃ m', read_head e m = Ret () e m' ∧ mn_disk m' = mn_disk m ∧ mn_hist m' = mn_hist m ∧
    (∀ x, content m' x = content m x) ∧ log_of n (mn_log m').
Proof.
  intros Hst Hsz Hlen Hhn Hnn Hhb. unfold read_head. cbn [kn_log kern_mini]. krun.
  rewrite Hst, u32_range by lia.
  destruct (bread_mini (lg_dev (mn_log m)) start e m Hstart) as (m1 & E1 & [Cd Ch Cc Cl] & K1). run E1.
  erewrite bind_Ret; [|apply data_mini; [done|rewrite K1; apply lookup_insert_eq]].
  cbn [kn_set_log kern_mini]. krun. rewrite Hhn.
  set (m2 := m1 <| mn_log ::= set lg_n (λ _, n) |>).
  set (I := λ i (e' : menv) m', e' = e ∧ mn_disk m' = mn_disk m ∧ mn_hist m' = mn_hist m ∧
    (∀ x, content m' x = content m x) ∧ lg_start (mn_log m') = start ∧ lg_size (mn_log m') = size ∧
    lg_n (mn_log m') = n ∧ length (lg_block (mn_log m')) = 30%nat ∧
    (∀ j b, Z.of_nat j < i → bs !! j = Some b → lg_block (mn_log m') !! j = Some b)).
  assert (wp (foreach (seqZ 0 n) (λ i, set_lh_block i (hdr_block (content m start) i))) (λ _, I n) e m2) as Hwp.
  { apply (foreach_seqZ_wp _ I); [lia| |].
    - unfold I, m2. change (mn_log (m1 <| mn_log ::= set lg_n (λ _, n) |>)) with (mn_log m1 <| lg_n := n |>).
      rewrite Cl. split_and!; try done. intros. lia.
    - intros i e' m3 Hi (-> & I2 & I3 & I4 & I5 & I6 & I7 & I8 & I9). destruct (bs_lookup i ltac:(lia)) as (b & Hb & _).
      unfold set_lh_block. cbn [kn_set_log kern_mini].
      assert ((0 <=? i) && (i <? LOGSIZE) = true) as Hck.
      { unfold LOGSIZE, MAXOPBLOCKS. apply andb_true_iff. split; [apply Z.leb_le|apply Z.ltb_lt]; lia. }
      eapply wp_Ret; [by rewrite Hck|]. unfold I.
      assert (hdr_block (content m start) i = b) as ->.
      { specialize (Hhb (Z.to_nat i) b). rewrite Z2Nat.id in Hhb by lia. apply Hhb; [lia|done]. }
      split_and!; [done|exact I2|exact I3|exact I4|exact I5|exact I6|exact I7| |].
      + unfold set. cbn [mn_log lg_block]. by rewrite length_insert.
      + intros j b' Hj Hb'. unfold set. cbn [mn_log lg_block].
        destruct (decide (j = Z.to_nat i)) as [->|Hne].
        * rewrite list_lookup_insert_eq by lia. congruence.
        * rewrite list_lookup_insert_ne by done. apply I9; [lia|done]. }
  apply wp_Ret_inv in Hwp as (a & e' & m3 & E3 & -> & I2 & I3 & I4 & I5 & I6 & I7 & I8 & I9). destruct a.
  run E3. exists m3. split_and!; try done.
Qed.

Lemma log_of_erase n lg : log_of n lg → log_of 0 (lg <| lg_n := 0 |>).
Proof. intros []. split; try done. intros. lia. Qed.

(** Recovery without a committed transaction keeps the blocks outside the log. *)
Lemma recover_empty base (e : menv) m :
  lg_start (mn_log m) = start → lg_size (mn_log m) = size → length (lg_block (mn_log m)) = 30%nat →
  mn_cache m = ∅ → empty_ok base (mn_disk m) →
  ∃ m', recover_from_log e m = Ret () e m' ∧ advances (empty_ok base) m m'.
Proof.
  intros Hst Hsz Hlen Hc Hok. pose proof Hok as (H1 & H2 & H3).
  assert (content m start = mn_disk m start) as Hcs by (unfold content; by rewrite Hc, lookup_empty).
  destruct (read_head_run 0 e m Hst Hsz Hlen) as (m1 & E1 & D1 & Hi1 & C1 & L1); [by rewrite Hcs|lia|lia|].
  unfold recover_from_log. run E1.
  assert (install_trans true e m1 = Ret () e m1) as E2.
  { unfold install_trans. cbn [kn_log kern_mini]. krun. rewrite (lo_n _ _ L1). done. }
  run E2. cbn [kn_set_log kern_mini]. krun. set (m2 := m1 <| mn_log ::= set lg_n (λ _, 0) |>).
  destruct (write_head_run 0 e m2) as (m3 & h & E3 & W & Hl & Hh & _).
  - exact (log_of_erase _ _ L1).
  - lia.
  - change (length (content m1 start) = 1024%nat). by rewrite C1, Hcs.
  - exists m3. split; [done|]. apply (advances_same _ m m2); [exact Hi1|].
    eapply stored_advances; [exact W| |].
    + change (empty_ok base (mn_disk m1)). by rewrite D1.
    + change (mn_disk m2) with (mn_disk m1). rewrite D1. unfold empty_ok. rewrite dupd_eq. split_and!; [done|done|].
      intros x Hx. rewrite dupd_ne by (intros ->; apply Hx; unfold inlog; lia). by apply H3.
Qed.

(** Recovery of a committed transaction installs it. *)
Lemma recover_commit base w (e : menv) m :
  lg_start (mn_log m) = start → lg_size (mn_log m) = size → length (lg_block (mn_log m)) = 30%nat →
  mn_cache m = ∅ → commit_ok base w (mn_disk m) →
  ∃ m', recover_from_log e m = Ret () e m' ∧
    advances (λ d, commit_ok base w d ∨ empty_ok (after base w) d) m m' ∧
    empty_ok (after base w) (mn_disk m').
Proof.
  intros Hst Hsz Hlen Hc Hok. pose proof Hok as (H1 & H2 & H3 & H4 & H5).
  assert (∀ x, content m x = mn_disk m x) as Hcs by (intros; unfold content; by rewrite Hc, lookup_empty).
  destruct (read_head_run N e m Hst Hsz Hlen) as (m1 & E1 & D1 & Hi1 & C1 & L1).
  { by rewrite Hcs. } { lia. } { intros i b _ Hb. rewrite Hcs. by apply H3. }
  unfold recover_from_log. run E1.
  destruct (install_run true base w e m1 L1) as (m2 & E2 & V2 & L2 & S2 & B2).
  { by rewrite D1. } { intros i b Hb. rewrite C1, Hcs. by apply H4. }
  run E2. cbn [kn_set_log kern_mini]. krun. set (m3 := m2 <| mn_log ::= set lg_n (λ _, 0) |>).
  destruct (erase_run base w e m3) as (m4 & E4 & V4 & Ok4).
  - rewrite <- L2 in L1. exact (log_of_erase _ _ L1).
  - exact (advances_last _ _ _ V2).
  - exact B2.
  - change (length (content m2 start) = 1024%nat). by rewrite S2, C1, Hcs.
  - exists m4. split_and!; [exact E4| |done]. apply (advances_same _ m m1); [exact Hi1|].
    eapply advances_trans; [eapply advances_mono; [|exact V2]; tauto|]. exact V4.
Qed.

(** The machine at boot: nothing is cached and the log is unknown. *)
Definition boot (sb : superblock) (d : disk) : mini :=
  Mini d [] ∅ (Log 0 0 0 false 0 0 (replicate 30 0)) sb [] [].

(** [recovers sb d d']: booting from disk [d], after any number of recoveries
    interrupted at any moment, one recovery runs to its end and leaves [d']. *)
Inductive recovers (sb : superblock) : disk → disk → Prop :=
| recovers_done d m' :
    initlog dev sb [] (boot sb d) = Ret () [] m' → recovers sb d (mn_disk m')
| recovers_crash d m' d1 d2 :
    initlog dev sb [] (boot sb d) = Ret () [] m' → d1 ∈ mn_disk m' :: mn_hist m' →
    recovers sb d1 d2 → recovers sb d d2.

Variable sb : superblock.
Hypothesis Hsb : sb_logstart sb = start ∧ sb_nlog sb = size.

Lemma initlog_run (e : menv) d :
  0 ≤ size →
  initlog dev sb e (boot sb d)
  = recover_from_log e (boot sb d <| mn_log := Log start size 0 false dev 0 (replicate 30 0) |>).
Proof.
  intros Hs0. destruct Hsb as [H1 H2]. unfold initlog, sizeof_logheader, LOGSIZE, MAXOPBLOCKS, BSIZE.
  cbn [kn_initlock kn_set_log kern_mini]. krun. cbn [Z.leb Z.compare Z.add Z.mul Pos.add Pos.mul Pos.compare].
  rewrite H1, H2. f_equal. unfold boot, set. cbn.
  rewrite !wraps_id by (change (2 ^ (32 - 1)) with 2147483648; change (2 ^ 31) with 2147483648 in *; lia). done.
Qed.

(** One recovery, interrupted or not, of each kind of disk. *)
Lemma initlog_empty base d :
  empty_ok base d → ∃ m', initlog dev sb [] (boot sb d) = Ret () [] m' ∧
    Forall (empty_ok base) (mn_disk m' :: mn_hist m').
Proof.
  intros Hok. rewrite initlog_run by lia.
  destruct (recover_empty base [] (boot sb d <| mn_log := Log start size 0 false dev 0 (replicate 30 0) |>)) as (m' & E & V);
    [done|done|done|done|exact Hok|].
  exists m'. split; [exact E|]. destruct V as (l & Hh & Hf & Hd).
  constructor; [done|]. rewrite Hh. by apply Forall_app.
Qed.

Lemma initlog_commit base w d :
  commit_ok base w d → ∃ m', initlog dev sb [] (boot sb d) = Ret () [] m' ∧
    Forall (λ d, commit_ok base w d ∨ empty_ok (after base w) d) (mn_disk m' :: mn_hist m') ∧
    empty_ok (after base w) (mn_disk m').
Proof.
  intros Hok. rewrite initlog_run by lia.
  destruct (recover_commit base w [] (boot sb d <| mn_log := Log start size 0 false dev 0 (replicate 30 0) |>))
    as (m' & E & V & Hl); [done|done|done|done|exact Hok|].
  exists m'. split_and!; [exact E| |done]. destruct V as (l & Hh & Hf & Hd).
  constructor; [done|]. rewrite Hh. by apply Forall_app.
Qed.

Lemma recovers_empty base d d' : recovers sb d d' → empty_ok base d → empty_ok base d'.
Proof.
  induction 1 as [d m' E|d m' d1 d2 E Hin Hr IH]; intros Hok;
    destruct (initlog_empty base d Hok) as (m'' & E' & Hf); rewrite E in E'; injection E' as <-.
  - by apply Forall_inv in Hf.
  - apply IH. rewrite Forall_forall in Hf. by apply Hf.
Qed.

Lemma recovers_commit base w d d' : recovers sb d d' → commit_ok base w d → empty_ok (after base w) d'.
Proof.
  induction 1 as [d m' E|d m' d1 d2 E Hin Hr IH]; intros Hok;
    destruct (initlog_commit base w d Hok) as (m'' & E' & Hf & Hl); rewrite E in E'; injection E' as <-; [done|].
  rewrite Forall_forall in Hf. destruct (Hf _ Hin) as [Hc|He]; [by apply IH|]. by eapply recovers_empty.
Qed.

Lemma recovers_exists d base w :
  empty_ok base d ∨ commit_ok base w d ∨ empty_ok (after base w) d → ∃ d', recovers sb d d'.
Proof.
  intros [Hok|[Hok|Hok]].
  - destruct (initlog_empty _ _ Hok) as (m' & E & _). eexists. by eapply recovers_done.
  - destruct (initlog_commit _ _ _ Hok) as (m' & E & _). eexists. by eapply recovers_done.
  - destruct (initlog_empty _ _ Hok) as (m' & E & _). eexists. by eapply recovers_done.
Qed.

(** The disk states between [m] and [m'], the last one included. *)
Definition disk_between (m m' : mini) (d : disk) : Prop :=
  d = mn_disk m' ∨ ∃ l, mn_hist m' = l ++ mn_hist m ∧ d ∈ l.

(** C1: a transaction is atomic with respect to crashes.  [commit] terminates.
    If the machine crashes at any moment during it (or after it), recovery
    succeeds, even if it is itself interrupted by any number of crashes, and
    leaves outside the log either exactly the contents from before the
    transaction or exactly those contents with every logged block replaced by
    what the transaction stored; the latter whenever [commit] had returned. *)
Theorem commit_crash_atomic (e : menv) m :
  log_of N (mn_log m) → bs ≠ [] →
  length (mn_disk m start) = 1024%nat → length (content m start) = 1024%nat → hdr_n (mn_disk m start) = 0 →
  ∃ m', commit e m = Ret () e m' ∧
    (∀ d, disk_between m m' d → ∃ d', recovers sb d d') ∧
    (∀ d d', disk_between m m' d → recovers sb d d' →
       (∀ x, ¬ inlog x → d' x = mn_disk m x) ∨
       (∀ x, ¬ inlog x → d' x = if bool_decide (x ∈ bs) then content m x else mn_disk m x)) ∧
    (∀ d', recovers sb (mn_disk m') d' →
       ∀ x, ¬ inlog x → d' x = if bool_decide (x ∈ bs) then content m x else mn_disk m x).
Proof.
  intros Hlg Hne Hl1 Hl2 Hh.
  destruct (commit_run (mn_disk m) e m Hlg Hne) as (m' & E & V & Hfin); [by split_and!|done|].
  assert (∀ d, disk_between m m' d → empty_ok (mn_disk m) d ∨ commit_ok (mn_disk m) (content m) d ∨
    empty_ok (after (mn_disk m) (content m)) d) as Hd.
  { destruct V as (l & Hhist & Hf & Hd'). intros d [->|(l' & Hl' & Hin)]; [done|].
    rewrite Hhist in Hl'. apply app_inv_tail in Hl' as <-. rewrite Forall_forall in Hf. by apply Hf. }
  exists m'. split_and!; [done| | |].
  - intros d Hb. eapply recovers_exists. by apply Hd.
  - intros d d' Hb Hr. destruct (Hd d Hb) as [Hok|[Hok|Hok]].
    + left. by apply (recovers_empty _ _ _ Hr Hok).
    + right. by apply (recovers_commit _ _ _ _ Hr Hok).
    + right. by apply (recovers_empty _ _ _ Hr Hok).
  - intros d' Hr. by apply (recovers_empty _ _ _ Hr Hfin).
Qed.
End Crash.

(** A transaction that writes blocks 50 and 60 of a disk full of zeros. *)
Definition ex_sb : superblock := Superblock 0x10203040 2000 1954 200 31 2 33 46.
Definition ex_txn : mini :=
  Mini (λ _, replicate 1024 0) [] {[50 := replicate 1024 5; 60 := replicate 1024 6]}
    (Log 2 31 0 true 1 2 (50 :: 60 :: replicate 28 0)) ex_sb [] [].

Lemma commit_crash_atomic_witness :
  ∃ m', commit [] ex_txn = Ret () [] m' ∧
    ∀ d', recovers 1 ex_sb (mn_disk m') d' → d' 60 = replicate 1024 6 ∧ d' 61 = replicate 1024 0.
Proof.
  destruct (commit_crash_atomic 2 31 1 [50; 60]) with (sb := ex_sb) (e := @nil (mini → mini)) (m := ex_txn)
    as (m' & E & _ & _ & H).
  - lia.
  - done.
  - cbn. lia.
  - repeat constructor; unfold block_range, inlog; lia.
  - apply (bool_decide_unpack _). vm_compute. exact I.
  - done.
  - split; try reflexivity. intros [|[|i]] b Hi Hb; cbn in *; [done|done|lia].
  - done.
  - vm_compute. reflexivity.
  - vm_compute. reflexivity.
  - vm_compute. reflexivity.
  - exists m'. split; [exact E|]. intros d' Hd'. pose proof (H d' Hd') as Hx.
    split; (rewrite Hx by (unfold inlog; lia)); vm_compute; reflexivity.
Defined.
