(* ===== verification/Fs.v ===== *)
(** * Fs: blocks, inodes, directories and paths (kernel/fs.c)

    Every routine of fs.c, over the interface of Blocks.v.  A [struct inode *]
    is an index into the inode table, a null pointer is [None].  C strings and
    character arrays are lists of bytes. *)

From S2P Require Import Prelude Params CString State Spinlock PhysMem Kalloc Vm ProcBase Sleeplock Virtio Bio Blocks Bytes Log.

Definition ROOTINO : Z := 1.
Definition FSMAGIC : Z := 0x10203040.
Definition MAXFILE : Z := Z.of_nat NDIRECT + Z.of_nat NINDIRECT.
Definition IPB : Z := BSIZE / 64.
Definition BPB : Z := BSIZE * 8.
Definition DIRSIZ : nat := 14.
Definition sizeof_dirent : Z := 16.
Definition T_DIR : Z := 1.
Definition T_FILE : Z := 2.
Definition T_DEVICE : Z := 3.

Definition IBLOCK (i : Z) (sb : superblock) : Z := u32 (i / IPB + sb_inodestart sb).
Definition BBLOCK (b : Z) (sb : superblock) : Z := u32 (b / BPB + sb_bmapstart sb).

(** ** Character arrays *)

Definition namecmp (s t : list Z) : Z := strncmp (two_bufs s t) 0 65536 (Z.of_nat DIRSIZ).
Definition copy_name (name : list Z) : list Z :=
  buf_of (strncpy (two_bufs (replicate DIRSIZ 0) name) 0 65536 (Z.of_nat DIRSIZ)) DIRSIZ.
Definition safe_copy (dst src : list Z) (n : nat) : list Z :=
  buf_of (safestrcpy (two_bufs dst src) 0 65536 (Z.of_nat n)) n.

(** ** On-disk structures *)

Definition read_superblock (data : list Z) : superblock :=
  Superblock (get32 data 0%nat) (get32 data 4%nat) (get32 data 8%nat) (get32 data 12%nat)
    (get32 data 16%nat) (get32 data 20%nat) (get32 data 24%nat) (get32 data 28%nat).

(** [struct dinode], 64 bytes: type, major, minor, nlink (short), size and the
    13 block addresses (uint). *)
Definition dinode_off (inum : Z) : nat := Z.to_nat (64 * (inum mod IPB)).
Definition d_type (data : list Z) (o : nat) : Z := i16 (get16 data o).
Definition d_addrs (data : list Z) (o : nat) : list Z :=
  (λ k, get32 data (o + 12 + 4 * k)%nat) <$> seq 0 (S NDIRECT).

Fixpoint put_addrs (data : list Z) (o : nat) (addrs : list Z) : list Z :=
  match addrs with [] => data | a :: addrs' => put_addrs (put32 data o a) (o + 4) addrs' end.

(** Write the fields of an in-memory inode into the dinode at [o], and back. *)
Definition put_dinode (ip : inode) (o : nat) (data : list Z) : list Z :=
  let data := put16 data o (i_type ip) in
  let data := put16 data (o + 2)%nat (i_major ip) in
  let data := put16 data (o + 4)%nat (i_minor ip) in
  let data := put16 data (o + 6)%nat (i_nlink ip) in
  let data := put32 data (o + 8)%nat (i_size ip) in
  put_addrs data (o + 12) (i_addrs ip).

Definition get_dinode (data : list Z) (o : nat) (ip : inode) : inode :=
  ip <| i_type := d_type data o |> <| i_major := i16 (get16 data (o + 2)%nat) |>
     <| i_minor := i16 (get16 data (o + 4)%nat) |> <| i_nlink := i16 (get16 data (o + 6)%nat) |>
     <| i_size := get32 data (o + 8)%nat |> <| i_addrs := d_addrs data o |>.

(** [struct dirent]: inum (ushort) and the name. *)
Definition de_inum (de : list Z) : Z := get16 de 0%nat.
Definition de_name (de : list Z) : list Z := slice de 2 DIRSIZ.
Definition mk_dirent (inum : Z) (name : list Z) : list Z := le_bytes 2 inum ++ name.

(** ** Bitmap *)

Definition bit_set (data : list Z) (bi : Z) : bool :=
  Z.testbit (default 0 (data !! Z.to_nat (bi / 8))) (bi mod 8).
Definition set_bit (bi : Z) (data : list Z) : list Z :=
  alter (λ x, Z.lor x (Z.shiftl 1 (bi mod 8))) (Z.to_nat (bi / 8)) data.
Definition clear_bit (bi : Z) (data : list Z) : list Z :=
  alter (λ x, Z.land x (Z.lnot (Z.shiftl 1 (bi mod 8)))) (Z.to_nat (bi / 8)) data.

(** The first clear bit from [bi] on, among the next [n]. *)
Fixpoint find_clear (data : list Z) (bi : Z) (n : nat) : option Z :=
  match n with
  | O => None
  | S n' => if bit_set data bi then find_clear data (bi + 1) n' else Some bi
  end.

Section Fs.
Context {S : Type} `{!Kern S}.

Definition readsb (dev : Z) : KM S () :=
  bp ← kn_bread dev 1;
  data ← kn_data bp;
  kn_set_sb (read_superblock data);;
  kn_brelse bp.

Definition fsinit (dev : Z) : KM S () :=
  readsb dev;;
  sb ← kn_sb;
  panic_if (negb (sb_magic sb =? FSMAGIC)) "invalid file system";;
  initlog dev sb.

(** ** Blocks *)

Definition bzero (dev bno : Z) : KM S () :=
  bp ← kn_bread dev bno;
  kn_set_data bp (replicate (Z.to_nat BSIZE) 0);;
  log_write bp;;
  kn_brelse bp.

Definition balloc (dev : Z) : KM S Z :=
  sb ← kn_sb;
  r ← while_ (λ b,
    if b <? sb_size sb then
      bp ← kn_bread dev (BBLOCK b sb);
      data ← kn_data bp;
      match find_clear data 0 (Z.to_nat (Z.min BPB (sb_size sb - b))) with
      | Some bi =>
          kn_set_data bp (set_bit bi data);;
          log_write bp;;
          kn_brelse bp;;
          bzero dev (b + bi);;
          mret (inr (Some (b + bi)))
      | None =>
          kn_brelse bp;;
          mret (inl (b + BPB))
      end
    else mret (inr None)) 0;
  match r with
  | Some b => mret b
  | None => kn_printk ("balloc: out of blocks" +:+ nl) [];; mret 0
  end.

Definition bfree (dev b : Z) : KM S () :=
  sb ← kn_sb;
  bp ← kn_bread dev (BBLOCK b sb);
  let bi := b mod BPB in
  data ← kn_data bp;
  panic_if (negb (bit_set data bi)) "freeing free block";;
  kn_set_data bp (clear_bit bi data);;
  log_write bp;;
  kn_brelse bp.

(** ** Inodes *)

Definition iinit : KM S () :=
  kn_initlock LItable;;
  foreach (seq 0 NINODE) (λ i, kn_initsleeplock (SLInode i)).

(** The scan of [iget] over the entries [l]: the matching entry, or the first
    empty one. *)
Fixpoint iget_scan (dev inum : Z) (l : list nat) (empty : option nat) : KM S (option nat * option nat) :=
  match l with
  | [] => mret (None, empty)
  | i :: l' =>
      ip ← kn_inode i;
      if (0 <? i_ref ip) && (i_dev ip =? dev) && (i_inum ip =? inum) then mret (Some i, empty)
      else iget_scan dev inum l' (match empty with
                                  | None => if i_ref ip =? 0 then Some i else None
                                  | Some _ => empty
                                  end)
  end.

Definition iget (dev inum : Z) : KM S nat :=
  kn_acquire LItable;;
  '(hit, empty) ← iget_scan dev inum (seq 0 NINODE) None;
  match hit with
  | Some i =>
      kn_set_inode i (λ ip, ip <| i_ref ::= λ r, i32 (r + 1) |>);;
      kn_release LItable;;
      mret i
  | None =>
      match empty with
      | None => panic "iget: no inodes"
      | Some i =>
          kn_set_inode i (λ ip, ip <| i_dev := dev |> <| i_inum := inum |>
                                   <| i_ref := 1 |> <| i_valid := false |>);;
          kn_release LItable;;
          mret i
      end
  end.

Definition ialloc (dev type : Z) : KM S (option nat) :=
  sb ← kn_sb;
  r ← while_ (λ inum,
    if inum <? sb_ninodes sb then
      bp ← kn_bread dev (IBLOCK inum sb);
      data ← kn_data bp;
      let o := dinode_off inum in
      if d_type data o =? 0 then
        kn_set_data bp (put16 (splice data o (replicate 64 0)) o type);;
        log_write bp;;
        kn_brelse bp;;
        ip ← iget dev inum;
        mret (inr (Some ip))
      else
        kn_brelse bp;;
        mret (inl (inum + 1))
    else mret (inr None)) 1;
  match r with
  | Some ip => mret (Some ip)
  | None => kn_printk ("ialloc: no inodes" +:+ nl) [];; mret None
  end.

Definition iupdate (i : nat) : KM S () :=
  sb ← kn_sb;
  ip ← kn_inode i;
  bp ← kn_bread (i_dev ip) (IBLOCK (i_inum ip) sb);
  data ← kn_data bp;
  kn_set_data bp (put_dinode ip (dinode_off (i_inum ip)) data);;
  log_write bp;;
  kn_brelse bp.

Definition idup (i : nat) : KM S nat :=
  kn_acquire LItable;;
  kn_set_inode i (λ ip, ip <| i_ref ::= λ r, i32 (r + 1) |>);;
  kn_release LItable;;
  mret i.

Definition ilock (i : nat) : KM S () :=
  ip ← kn_inode i;
  panic_if (i_ref ip <? 1) "ilock";;
  kn_acquiresleep (SLInode i);;
  ip ← kn_inode i;
  when (negb (i_valid ip)) (
    sb ← kn_sb;
    bp ← kn_bread (i_dev ip) (IBLOCK (i_inum ip) sb);
    data ← kn_data bp;
    kn_set_inode i (get_dinode data (dinode_off (i_inum ip)));;
    kn_brelse bp;;
    kn_set_inode i (λ ip, ip <| i_valid := true |>);;
    ip ← kn_inode i;
    panic_if (i_type ip =? 0) "ilock: no type").

Definition iunlock (i : nat) : KM S () :=
  h ← kn_holdingsleep (SLInode i);
  ip ← kn_inode i;
  panic_if (negb h || (i_ref ip <? 1)) "iunlock";;
  kn_releasesleep (SLInode i).

(** ** Inode content *)

Definition set_addr (i : nat) (k : nat) (a : Z) : KM S () :=
  kn_set_inode i (λ ip, ip <| i_addrs ::= insert k a |>).

Definition bmap (i : nat) (bn : Z) : KM S Z :=
  ip ← kn_inode i;
  if bn <? Z.of_nat NDIRECT then
    let addr := default 0 (i_addrs ip !! Z.to_nat bn) in
    if addr =? 0 then
      addr ← balloc (i_dev ip);
      if addr =? 0 then mret 0
      else set_addr i (Z.to_nat bn) addr;; mret addr
    else mret addr
  else
    let bn := bn - Z.of_nat NDIRECT in
    if bn <? Z.of_nat NINDIRECT then
      let addr := default 0 (i_addrs ip !! NDIRECT) in
      addr ← (if addr =? 0 then
                addr ← balloc (i_dev ip);
                when (negb (addr =? 0)) (set_addr i NDIRECT addr);;
                mret addr
              else mret addr);
      if addr =? 0 then mret 0
      else
        bp ← kn_bread (i_dev ip) addr;
        a ← kn_data bp;
        let addr := get32 a (Z.to_nat (4 * bn)) in
        addr ← (if addr =? 0 then
                  addr ← balloc (i_dev ip);
                  when (negb (addr =? 0)) (
                    a ← kn_data bp;
                    kn_set_data bp (put32 a (Z.to_nat (4 * bn)) addr);;
                    log_write bp);;
                  mret addr
                else mret addr);
        kn_brelse bp;;
        mret addr
    else panic "bmap: out of range".

Definition itrunc (i : nat) : KM S () :=
  foreach (seq 0 NDIRECT) (λ k,
    ip ← kn_inode i;
    let addr := default 0 (i_addrs ip !! k) in
    when (negb (addr =? 0)) (
      bfree (i_dev ip) addr;;
      set_addr i k 0));;
  ip ← kn_inode i;
  let ind := default 0 (i_addrs ip !! NDIRECT) in
  when (negb (ind =? 0)) (
    bp ← kn_bread (i_dev ip) ind;
    a ← kn_data bp;
    foreach (seq 0 NINDIRECT) (λ j,
      when (negb (get32 a (4 * j)%nat =? 0)) (bfree (i_dev ip) (get32 a (4 * j)%nat)));;
    kn_brelse bp;;
    bfree (i_dev ip) ind;;
    set_addr i NDIRECT 0);;
  kn_set_inode i (λ ip, ip <| i_size := 0 |>);;
  iupdate i.

Definition iput (i : nat) : KM S () :=
  kn_acquire LItable;;
  ip ← kn_inode i;
  when ((i_ref ip =? 1) && i_valid ip && (i_nlink ip =? 0)) (
    kn_acquiresleep (SLInode i);;
    kn_release LItable;;
    itrunc i;;
    kn_set_inode i (λ ip, ip <| i_type := 0 |>);;
    iupdate i;;
    kn_set_inode i (λ ip, ip <| i_valid := false |>);;
    kn_releasesleep (SLInode i);;
    kn_acquire LItable);;
  kn_set_inode i (λ ip, ip <| i_ref ::= λ r, i32 (r - 1) |>);;
  kn_release LItable.

Definition iunlockput (i : nat) : KM S () :=
  iunlock i;;
  iput i.

(** [struct stat]: dev, ino, type, nlink, (padding), size; 24 bytes. *)
Definition stati (i : nat) : KM S (list Z) :=
  ip ← kn_inode i;
  mret (le_bytes 4 (i_dev ip) ++ le_bytes 4 (i_inum ip) ++ le_bytes 2 (i_type ip) ++
        le_bytes 2 (i_nlink ip) ++ le_bytes 4 0 ++ le_bytes 8 (i_size ip)).

Definition dest_add (d : dest) (n : Z) : dest :=
  match d with
  | UserDst va => UserDst (u64 (va + n))
  | KernDst pa => KernDst (u64 (pa + n))
  | LocalDst => LocalDst
  end.
Definition source_add (s : source) (n : Z) : source :=
  match s with
  | UserSrc va => UserSrc (u64 (va + n))
  | LocalSrc bytes => LocalSrc (drop (Z.to_nat n) bytes)
  end.

(** Returns the count and the bytes that were copied out. *)
Definition readi (i : nat) (dst : dest) (off n : Z) : KM S (Z * list Z) :=
  ip ← kn_inode i;
  if (i_size ip <? off) || (u32 (off + n) <? off) then mret (0, [])
  else
    let n := if i_size ip <? u32 (off + n) then i_size ip - off else n in
    while_ (λ '(tot, off, dst, out),
      if tot <? n then
        addr ← bmap i (off / BSIZE);
        if addr =? 0 then mret (inr (i32 tot, out))
        else
          bp ← kn_bread (i_dev ip) addr;
          let m := Z.min (n - tot) (BSIZE - off mod BSIZE) in
          data ← kn_data bp;
          let bytes := slice data (Z.to_nat (off mod BSIZE)) (Z.to_nat m) in
          r ← kn_copyout dst bytes;
          kn_brelse bp;;
          if r =? -1 then mret (inr (-1, out))
          else mret (inl (tot + m, off + m, dest_add dst m, out ++ bytes))
      else mret (inr (i32 tot, out))) (0, off, dst, []).

Definition writei (i : nat) (src : source) (off n : Z) : KM S Z :=
  ip ← kn_inode i;
  if (i_size ip <? off) || (u32 (off + n) <? off) then mret (-1)
  else if MAXFILE * BSIZE <? u32 (off + n) then mret (-1)
  else
    '(tot, off) ← while_ (λ '(tot, off, src),
      if tot <? n then
        addr ← bmap i (off / BSIZE);
        if addr =? 0 then mret (inr (tot, off))
        else
          bp ← kn_bread (i_dev ip) addr;
          let m := Z.min (n - tot) (BSIZE - off mod BSIZE) in
          '(r, bytes) ← kn_copyin src m;
          data ← kn_data bp;
          kn_set_data bp (splice data (Z.to_nat (off mod BSIZE)) bytes);;
          if r =? -1 then kn_brelse bp;; mret (inr (tot, off))
          else
            log_write bp;;
            kn_brelse bp;;
            mret (inl (tot + m, off + m, source_add src m))
      else mret (inr (tot, off))) (0, off, src);
    ip ← kn_inode i;
    when (i_size ip <? off) (kn_set_inode i (λ ip, ip <| i_size := off |>));;
    iupdate i;;
    mret (i32 tot).

(** ** Directories *)

(** The inode of the entry and its offset ([*poff]). *)
Definition dirlookup (dp : nat) (name : list Z) : KM S (option (nat * Z)) :=
  ip ← kn_inode dp;
  panic_if (negb (i_type ip =? T_DIR)) "dirlookup not DIR";;
  while_ (λ off,
    ip ← kn_inode dp;
    if off <? i_size ip then
      '(r, de) ← readi dp LocalDst off sizeof_dirent;
      panic_if (negb (r =? sizeof_dirent)) "dirlookup read";;
      if de_inum de =? 0 then mret (inl (u32 (off + sizeof_dirent)))
      else if namecmp name (de_name de) =? 0 then
        next ← iget (i_dev ip) (de_inum de);
        mret (inr (Some (next, off)))
      else mret (inl (u32 (off + sizeof_dirent)))
    else mret (inr None)) 0.

Definition dirlink (dp : nat) (name : list Z) (inum : Z) : KM S Z :=
  r ← dirlookup dp name;
  match r with
  | Some (ip, _) => iput ip;; mret (-1)
  | None =>
      off ← while_ (λ off,
        ip ← kn_inode dp;
        if off <? i_size ip then
          '(r, de) ← readi dp LocalDst off sizeof_dirent;
          panic_if (negb (r =? sizeof_dirent)) "dirlink read";;
          if de_inum de =? 0 then mret (inr off)
          else mret (inl (i32 (off + sizeof_dirent)))
        else mret (inr off)) 0;
      r ← writei dp (LocalSrc (mk_dirent (u16 inum) (copy_name name))) off sizeof_dirent;
      if negb (r =? sizeof_dirent) then mret (-1) else mret 0
  end.

(** ** Paths *)

Definition slash : Z := 47.

Fixpoint skip_slashes (path : list Z) : list Z :=
  match path with c :: path' => if c =? slash then skip_slashes path' else path | [] => [] end.

(** The characters up to the next slash, and the rest. *)
Fixpoint split_elem (path : list Z) : list Z * list Z :=
  match path with
  | c :: path' => if c =? slash then ([], path) else let '(s, rest) := split_elem path' in (c :: s, rest)
  | [] => ([], [])
  end.

(** [skipelem]: the next element, as it is left in [name], and the rest of the
    path; [None] when there is no element. *)
Definition skipelem (path : list Z) : option (list Z * list Z) :=
  match skip_slashes path with
  | [] => None
  | path =>
      let '(s, rest) := split_elem path in
      let name := if (DIRSIZ <=? length s)%nat then take DIRSIZ s else s ++ [0] in
      Some (name, skip_slashes rest)
  end.

(** The inode, and for [nameiparent] the last element. *)
Definition namex (path : list Z) (nameiparent : bool) : KM S (option (nat * list Z)) :=
  ip ← (if bool_decide (head path = Some slash) then iget ROOTDEV ROOTINO
        else cwd ← kn_cwd; match cwd with Some i => idup i | None => fault "null" end);
  while_ (λ '(path, ip, last),
    match skipelem path with
    | None =>
        if nameiparent : bool then iput ip;; mret (inr None)
        else mret (inr (Some (ip, last)))
    | Some (name, path') =>
        ilock ip;;
        x ← kn_inode ip;
        if negb (i_type x =? T_DIR) then iunlockput ip;; mret (inr None)
        else if nameiparent && bool_decide (path' = []) then
          iunlock ip;;
          mret (inr (Some (ip, name)))
        else
          next ← dirlookup ip name;
          match next with
          | None => iunlockput ip;; mret (inr None)
          | Some (next, _) => iunlockput ip;; mret (inl (path', next, name))
          end
    end) (path, ip, []).

Definition namei (path : list Z) : KM S (option nat) :=
  r ← namex path false;
  mret (fst <$> r).

Definition nameiparent (path : list Z) : KM S (option (nat * list Z)) := namex path true.
End Fs.
