(* ===== verification/FsRead.v ===== *)
(** * FsRead: reading files and directories

    On the sequential machine of Blocks.v, [bmap], [readi] and [dirlookup] are
    related to what a file is: a sequence of bytes spread over the blocks its
    inode points to, directly or through the indirect block.  [walk_path]
    relates [skipelem] to splitting a path at its slashes. *)

From S2P Require Import Prelude Params CString State Spinlock PhysMem Kalloc Vm ProcBase Sleeplock Virtio Bio Blocks Bytes Log LogCrash Fs.

Implicit Types (m : mini) (ip : inode).

(** ** Reading blocks *)

(** [m'] is [m] with more blocks in the cache: nothing else has changed, but for
    what has been copied to callers. *)
Record reads m m' : Prop := Reads {
  rd_disk : mn_disk m' = mn_disk m;
  rd_content : ∀ b, content m' b = content m b;
  rd_log : mn_log m' = mn_log m;
  rd_sb : mn_sb m' = mn_sb m;
  rd_inodes : mn_inodes m' = mn_inodes m;
  rd_cache : ∀ b, is_Some (mn_cache m !! b) → is_Some (mn_cache m' !! b);
}.

#[export] Instance reads_preorder : PreOrder reads.
Proof. split; [by intros m|]. intros m1 m2 m3 [] []. split; [congruence..|auto]. Qed.

Lemma cache_content m b : is_Some (mn_cache m !! b) → mn_cache m !! b = Some (content m b).
Proof. intros [v E]. unfold content. by rewrite E. Qed.

Lemma bread_reads dev b (e : list (mini → mini)) m : 0 ≤ b →
  ∃ m', kn_bread dev b e m = Ret (Z.to_nat b) e m' ∧ reads m m' ∧ mn_cache m' !! b = Some (content m b).
Proof.
  intros Hb. cbn [kn_bread kern_mini]. krun. destruct (Z.leb_spec 0 b); [|lia]. krun.
  eexists. split; [reflexivity|]. split; [|apply lookup_insert_eq]. split; [done| |done|done|done|].
  - intros x. rewrite content_insert. unfold dupd. by destruct (Z.eqb_spec x b) as [->|].
  - intros x Hx. apply lookup_insert_is_Some. destruct (decide (b = x)); auto.
Qed.

Lemma bread_copied dev b bp (e e' : list (mini → mini)) m m' : kn_bread dev b e m = Ret bp e' m' → mn_copied m' = mn_copied m.
Proof. cbn [kn_bread kern_mini]. krun. destruct (0 <=? b); [|done]. krun. by intros [= <- <- <-]. Qed.

Lemma inode_mini i ip (e : list (mini → mini)) m :
  mn_inodes m !! i = Some ip → kn_inode i e m = Ret ip e m.
Proof. intros Hi. cbn [kn_inode kern_mini]. krun. by rewrite Hi. Qed.

(** Read the block [b], look at its data, and go on. *)
Lemma bread_data {A} dev b (k : nat → list Z → KM mini A) (e : list (mini → mini)) m : 0 ≤ b →
  ∃ m', reads m m' ∧ mn_cache m' !! b = Some (content m b) ∧
    (bp ← kn_bread dev b; data ← kn_data bp; k bp data) e m = k (Z.to_nat b) (content m b) e m'.
Proof.
  intros Hb. destruct (bread_reads dev b e m Hb) as (m1 & E1 & R1 & C1).
  exists m1. split_and!; [done|done|]. run E1. by run (data_mini b (content m b) e m1 Hb C1).
Qed.

(** ** The bytes of a file *)

(** The block that holds block [bn] of the file. *)
Definition fblock m ip (bn : Z) : Z :=
  if bn <? Z.of_nat NDIRECT then default 0 (i_addrs ip !! Z.to_nat bn)
  else get_le (content m (default 0 (i_addrs ip !! NDIRECT))) (Z.to_nat (4 * (bn - Z.of_nat NDIRECT))) 4.

Definition file_byte m ip (off : Z) : Z :=
  default 0 (content m (fblock m ip (off / BSIZE)) !! Z.to_nat (off mod BSIZE)).

Definition file_bytes m ip (off : Z) (n : nat) : list Z :=
  (λ i, file_byte m ip (off + Z.of_nat i)) <$> seq 0 n.

(** Every block below the file's size has been allocated, and blocks have their size. *)
Record file_ok m ip : Prop := FileOk {
  fo_size : 0 ≤ i_size ip ≤ MAXFILE * BSIZE;
  fo_alloc : ∀ bn, 0 ≤ bn → bn * BSIZE < i_size ip → 0 < fblock m ip bn;
  fo_indirect : Z.of_nat NDIRECT * BSIZE < i_size ip → 0 < default 0 (i_addrs ip !! NDIRECT);
  fo_blocks : ∀ b, length (content m b) = Z.to_nat BSIZE;
}.

Lemma fblock_reads m m' ip bn : reads m m' → fblock m' ip bn = fblock m ip bn.
Proof. intros R. unfold fblock. by rewrite (rd_content _ _ R). Qed.

Lemma file_byte_reads m m' ip off : reads m m' → file_byte m' ip off = file_byte m ip off.
Proof. intros R. unfold file_byte. by rewrite (fblock_reads m m'), (rd_content _ _ R). Qed.

Lemma file_bytes_reads m m' ip off n : reads m m' → file_bytes m' ip off n = file_bytes m ip off n.
Proof. intros R. unfold file_bytes. apply list_fmap_ext. intros. by apply file_byte_reads. Qed.

Lemma file_ok_reads m m' ip : reads m m' → file_ok m ip → file_ok m' ip.
Proof.
  intros R [Hs Ha Hi Hb]. split; [done| |done|].
  - intros bn. rewrite (fblock_reads m m') by done. apply Ha.
  - intros b. by rewrite (rd_content _ _ R).
Qed.

Lemma length_file_bytes m ip off n : length (file_bytes m ip off n) = n.
Proof. unfold file_bytes. by rewrite length_fmap, length_seq. Qed.

Lemma file_bytes_app m ip off j k :
  file_bytes m ip off (j + k) = file_bytes m ip off j ++ file_bytes m ip (off + Z.of_nat j) k.
Proof.
  unfold file_bytes. rewrite seq_app, fmap_app. f_equal. rewrite Nat.add_0_l, <- (Nat.add_0_r j), <- fmap_add_seq.
  rewrite <- list_fmap_compose. apply list_fmap_ext. intros i x _. cbn. f_equal. lia.
Qed.

(** Bytes that lie in one block. *)
Lemma file_bytes_block m ip off n :
  0 ≤ off → off mod BSIZE + Z.of_nat n ≤ BSIZE → file_ok m ip →
  file_bytes m ip off n = slice (content m (fblock m ip (off / BSIZE))) (Z.to_nat (off mod BSIZE)) n.
Proof.
  intros Ho Hn Hok. unfold BSIZE in *. pose proof (Z.mod_pos_bound off 1024 ltac:(lia)).
  pose proof (fo_blocks _ _ Hok (fblock m ip (off / 1024))) as Hl. unfold BSIZE in Hl.
  apply list_eq. intros i. unfold file_bytes, slice. destruct (decide (i < n)%nat) as [Hi|Hi].
  - rewrite list_lookup_fmap, lookup_seq_lt by done. cbn [fmap option_fmap option_map].
    rewrite lookup_take_lt, lookup_drop by done. unfold file_byte, BSIZE. rewrite Nat.add_0_l.
    replace ((off + Z.of_nat i) / 1024) with (off / 1024) by zlia.
    replace (Z.to_nat ((off + Z.of_nat i) mod 1024)) with (Z.to_nat (off mod 1024) + i)%nat by zlia.
    destruct (lookup_lt_is_Some_2 (content m (fblock m ip (off / 1024))) (Z.to_nat (off mod 1024) + i)) as [x Hx];
      [rewrite Hl; lia|]. by rewrite Hx.
  - rewrite !lookup_ge_None_2; [done| |]; rewrite ?length_take, ?length_fmap, ?length_seq; lia.
Qed.

(** ** bmap and readi *)

Lemma bmap_copies i bn ip (e : list (mini → mini)) m :
  mn_inodes m !! i = Some ip → file_ok m ip → 0 ≤ bn → bn * BSIZE < i_size ip →
  ∃ m', bmap i bn e m = Ret (fblock m ip bn) e m' ∧ reads m m' ∧ mn_copied m' = mn_copied m.
Proof.
  intros Hi Hok Hb Hs. pose proof (fo_alloc _ _ Hok bn Hb Hs) as Ha.
  pose proof (fo_size _ _ Hok) as Hz. unfold MAXFILE, BSIZE, NDIRECT, NINDIRECT in Hz, Hs.
  unfold bmap. run (inode_mini i ip e m Hi). unfold fblock in Ha |- *. destruct (Z.ltb_spec bn (Z.of_nat NDIRECT)) as [Hd|Hd].
  - cbv zeta. destruct (Z.eqb_spec (default 0 (i_addrs ip !! Z.to_nat bn)) 0) as [E|_]; [lia|]. by exists m.
  - cbv zeta. unfold NDIRECT in *. destruct (Z.ltb_spec (bn - Z.of_nat 12) (Z.of_nat NINDIRECT)) as [_|Hx].
    2:{ unfold NINDIRECT in Hx. lia. }
    pose proof (fo_indirect _ _ Hok ltac:(unfold NDIRECT, BSIZE; lia)) as Hind. unfold NDIRECT in Hind.
    destruct (Z.eqb_spec (default 0 (i_addrs ip !! 12%nat)) 0) as [E|_]; [lia|]. krun.
    destruct (Z.eqb_spec (default 0 (i_addrs ip !! 12%nat)) 0) as [E|_]; [lia|].
    set (ind := default 0 (i_addrs ip !! 12%nat)) in *.
    destruct (bread_reads (i_dev ip) ind e m ltac:(lia)) as (m1 & E1 & R1 & C1). run E1.
    run (data_mini ind (content m ind) e m1 ltac:(lia) C1).
    destruct (Z.eqb_spec (get_le (content m ind) (Z.to_nat (4 * (bn - Z.of_nat 12))) 4) 0) as [E|_]; [lia|].
    krun. exists m1. split_and!; [done..|by eapply bread_copied].
Qed.

Lemma bmap_run i bn ip (e : list (mini → mini)) m :
  mn_inodes m !! i = Some ip → file_ok m ip → 0 ≤ bn → bn * BSIZE < i_size ip →
  ∃ m', bmap i bn e m = Ret (fblock m ip bn) e m' ∧ reads m m'.
Proof. intros Hi Hok Hb Hs. destruct (bmap_copies i bn ip e m Hi Hok Hb Hs) as (m' & E & R & _). by exists m'. Qed.

(** The pieces copied to a caller one after the other, from the address [dst] on;
    where the next one goes. *)
Fixpoint consecutive (dst : dest) (pieces : list (dest * list Z)) : Prop :=
  match pieces with
  | [] => True
  | (d, b) :: l => d = dst ∧ consecutive (dest_add dst (Z.of_nat (length b))) l
  end.
Fixpoint next_dest (dst : dest) (pieces : list (dest * list Z)) : dest :=
  match pieces with [] => dst | (_, b) :: l => next_dest (dest_add dst (Z.of_nat (length b))) l end.

(** [m'] has copied the bytes [out] to [dst], beyond what [m] has copied. *)
Definition copies m m' (dst : dest) (out : list Z) : Prop :=
  ∃ pieces, mn_copied m' = mn_copied m ++ pieces ∧ consecutive dst pieces ∧ concat pieces.*2 = out.

Lemma consecutive_app dst l b :
  consecutive dst l → consecutive dst (l ++ [(next_dest dst l, b)]) ∧
  next_dest dst (l ++ [(next_dest dst l, b)]) = dest_add (next_dest dst l) (Z.of_nat (length b)).
Proof. revert dst. induction l as [|[d b'] l IH]; intros dst; [done|]. cbn. intros [-> H]. by destruct (IH _ H) as [? ?]. Qed.

(** What [readi] is able to read of [n] bytes at [off]. *)
Definition readable ip (off n : Z) : Z :=
  if (i_size ip <? off) || (u32 (off + n) <? off) then 0 else Z.min n (i_size ip - off).

Section Readi.
Variables (i : nat) (ip : inode) (e : list (mini → mini)).

(** The loop, from [tot] bytes read to [n]. *)
Lemma readi_loop step m dst0 (off n : Z) :
  step = (λ '(tot, off, dst, out),
      if tot <? n then
        addr ← bmap i (off / BSIZE);
        if addr =? 0 then mret (inr (i32 tot, out))
        else
          bp ← kn_bread (i_dev ip) addr;
          let m := Z.min (n - tot) (BSIZE - off mod BSIZE) in
          data ← kn_data bp;
          let bytes := slice data (Z.to_nat (off mod BSIZE)) (Z.to_nat m) in
          r ← kn_copyout dst bytes;
          kn_brelse bp;;
          if r =? -1 then mret (inr (-1, out))
          else mret (inl (tot + m, off + m, dest_add dst m, out ++ bytes))
      else mret (inr (i32 tot, out))) →
  mn_inodes m !! i = Some ip → file_ok m ip → 0 ≤ off → off + n ≤ i_size ip →
  ∀ tot m1 pieces, 0 ≤ tot ≤ n → reads m m1 →
  mn_copied m1 = mn_copied m ++ pieces → consecutive dst0 pieces → concat pieces.*2 = file_bytes m ip off (Z.to_nat tot) →
  ∃ k m', runs step (tot, off + tot, next_dest dst0 pieces, file_bytes m ip off (Z.to_nat tot)) e m1 k
            (n, file_bytes m ip off (Z.to_nat n)) e m' ∧ k ≤ n - tot + 1 ∧ reads m m' ∧
            copies m m' dst0 (file_bytes m ip off (Z.to_nat n)).
Proof.
  intros Hstep Hi Hok Ho Hn tot. pose proof (fo_size _ _ Hok) as Hz.
  unfold MAXFILE, BSIZE, NDIRECT, NINDIRECT in Hz.
  remember (Z.to_nat (n - tot)) as left eqn:Hl. revert tot Hl.
  induction left as [left IH] using lt_wf_ind. intros tot Hl m1 pieces Ht R Hc1 Hc2 Hc3.
  destruct (Z.eq_dec tot n) as [->|Hne].
  - exists 1, m1. split_and!; [|lia|done|by exists pieces]. apply runs_done. rewrite Hstep.
    rewrite Z.ltb_irrefl. rewrite (wraps_id 32 n); [done|lia|]. change (2 ^ (32 - 1)) with 2147483648. lia.
  - set (c := Z.min (n - tot) (1024 - (off + tot) mod 1024)).
    pose proof (Z.mod_pos_bound (off + tot) 1024 ltac:(lia)) as Hmod.
    assert (file_ok m1 ip) as Hok1 by (by eapply file_ok_reads).
    destruct (bmap_copies i ((off + tot) / 1024) ip e m1) as (m2 & E2 & R2 & P2);
      [by rewrite (rd_inodes _ _ R)|done|zlia|unfold BSIZE; zlia|].
    assert (0 < fblock m1 ip ((off + tot) / 1024)) as Hpos by (apply (fo_alloc _ _ Hok1); unfold BSIZE; zlia).
    set (b := fblock m1 ip ((off + tot) / 1024)) in *.
    destruct (bread_reads (i_dev ip) b e m2 ltac:(lia)) as (m3 & E3 & R3 & C3). pose proof (bread_copied _ _ _ _ _ _ _ E3) as P3.
    assert (reads m m3) as R' by (by do 2 (etrans; [|done])).
    set (piece := slice (content m2 b) (Z.to_nat ((off + tot) mod 1024)) (Z.to_nat c)).
    assert (piece = file_bytes m ip (off + tot) (Z.to_nat c)) as Hpc.
    { rewrite file_bytes_block by (try done; unfold BSIZE; lia). unfold BSIZE, piece.
      rewrite (rd_content _ _ R2). unfold b. by rewrite (fblock_reads m m1), (rd_content _ _ R). }
    assert (Z.of_nat (length piece) = c) as Hpl by (rewrite Hpc, length_file_bytes; lia).
    assert (file_bytes m ip off (Z.to_nat (tot + c)) = file_bytes m ip off (Z.to_nat tot) ++ piece) as Hfb.
    { replace (Z.to_nat (tot + c)) with (Z.to_nat tot + Z.to_nat c)%nat by lia. rewrite file_bytes_app, Hpc. by rewrite Z2Nat.id by lia. }
    set (d := next_dest dst0 pieces) in *. destruct (consecutive_app dst0 pieces piece Hc2) as [Hc4 Hc5]. fold d in Hc4, Hc5.
    set (m4 := m3 <| mn_copied ::= λ l, l ++ [(d, piece)] |>).
    assert (reads m m4) as R4 by (destruct R'; by split).
    destruct (IH (Z.to_nat (n - (tot + c))) ltac:(lia) (tot + c) eq_refl m4 (pieces ++ [(d, piece)]) ltac:(lia) R4)
      as (k & m' & Hk & Hkn & Rm & Hcp).
    { unfold m4, set. cbn. by rewrite P3, P2, Hc1, app_assoc. }
    { exact Hc4. }
    { rewrite fmap_app, concat_app, Hc3, Hfb. cbn. by rewrite app_nil_r. }
    exists (k + 1), m'. split_and!; [|lia|done..]. eapply runs_step; [|exact Hk]. rewrite Hstep.
    destruct (Z.ltb_spec tot n) as [_|]; [|lia]. unfold BSIZE. run E2.
    destruct (Z.eqb_spec b 0) as [|_]; [lia|]. run E3. cbv zeta. fold c.
    run (data_mini b _ e m3 ltac:(lia) C3). fold piece. cbn [kn_copyout kn_brelse kern_mini]. krun.
    fold m4. change (0 =? -1) with false. cbv match. unfold mret, KM_ret. rewrite Hfb, Hc5, Hpl. do 3 f_equal. do 2 f_equal. lia.
Qed.

Lemma readi_copies dst m off n :
  mn_inodes m !! i = Some ip → file_ok m ip → 0 ≤ off < 2 ^ 32 → 0 ≤ n < 2 ^ 32 →
  ∃ m', readi i dst off n e m =
      Ret (readable ip off n, file_bytes m ip off (Z.to_nat (readable ip off n))) e m' ∧ reads m m' ∧
    copies m m' dst (file_bytes m ip off (Z.to_nat (readable ip off n))).
Proof.
  intros Hi Hok Ho Hn. pose proof (fo_size _ _ Hok) as Hz. unfold MAXFILE, BSIZE, NDIRECT, NINDIRECT in Hz.
  unfold readi, readable. run (inode_mini i ip e m Hi).
  destruct ((i_size ip <? off) || (u32 (off + n) <? off)) eqn:E.
  { exists m. split_and!; [done..|]. exists []. by rewrite app_nil_r. }
  breflect.
  assert (u32 (off + n) = off + n) as Hw.
  { change (2 ^ 32) with 4294967296 in *. destruct (Z.lt_ge_cases (off + n) 4294967296).
    - apply wrapu_id. change (2 ^ 32) with 4294967296. lia.
    - unfold wrapu in *. change (2 ^ 32) with 4294967296 in *. zlia. }
  rewrite Hw in *. cbv zeta.
  replace (if i_size ip <? off + n then i_size ip - off else n) with (Z.min n (i_size ip - off))
    by (destruct (Z.ltb_spec (i_size ip) (off + n)); lia).
  set (r := Z.min n (i_size ip - off)).
  destruct (readi_loop _ m dst off r eq_refl Hi Hok ltac:(lia) ltac:(lia) 0 m [] ltac:(lia) ltac:(done))
    as (k & m' & Hk & Hkn & R & Hc); [by rewrite app_nil_r|done|done|].
  exists m'. split_and!; [|done..]. rewrite Z.add_0_r in Hk. eapply while_runs; [exact Hk|].
  change (2 ^ 64) with 18446744073709551616. lia.
Qed.

Lemma readi_run dst m off n :
  mn_inodes m !! i = Some ip → file_ok m ip → 0 ≤ off < 2 ^ 32 → 0 ≤ n < 2 ^ 32 →
  ∃ m', readi i dst off n e m =
      Ret (readable ip off n, file_bytes m ip off (Z.to_nat (readable ip off n))) e m' ∧ reads m m'.
Proof. intros Hi Hok Ho Hn. destruct (readi_copies dst m off n Hi Hok Ho Hn) as (m' & E & R & _). by exists m'. Qed.
End Readi.

(** ** iget *)

(** Entry [x] of the inode table is an active reference to inode [inum] of [dev]. *)
Definition refers (dev inum : Z) (x : inode) : bool := (0 <? i_ref x) && (i_dev x =? dev) && (i_inum x =? inum).

(** The table has its size, and one entry at most for an on-disk inode. *)
Record itable_ok m : Prop := ItableOk {
  it_len : length (mn_inodes m) = NINODE;
  it_unique : ∀ i j x y dev inum, mn_inodes m !! i = Some x → mn_inodes m !! j = Some y →
    refers dev inum x → refers dev inum y → i = j;
}.

(** The scan over the entries [l]. *)
Lemma iget_scan_run dev inum (e : list (mini → mini)) m l empty :
  (∀ i, i ∈ l → is_Some (mn_inodes m !! i)) →
  ∃ hit empty', iget_scan dev inum l empty e m = Ret (hit, empty') e m ∧
    match hit with
    | Some i => ∃ x, mn_inodes m !! i = Some x ∧ refers dev inum x
    | None => (∀ i x, i ∈ l → mn_inodes m !! i = Some x → refers dev inum x = false) ∧
        match empty' with
        | None => empty = None ∧ ∀ i x, i ∈ l → mn_inodes m !! i = Some x → i_ref x ≠ 0
        | Some i => empty = Some i ∨ ∃ x, mn_inodes m !! i = Some x ∧ i_ref x = 0
        end
    end.
Proof.
  revert empty. induction l as [|i l IH]; intros empty Hl.
  - exists None, empty. split; [done|]. split; [by intros ?? []%elem_of_nil|].
    destruct empty; [by left|]. split; [done|]. by intros ?? []%elem_of_nil.
  - destruct (Hl i ltac:(left)) as [x Hx]. cbn -[kn_inode]. run (inode_mini i x e m Hx).
    destruct ((0 <? i_ref x) && (i_dev x =? dev) && (i_inum x =? inum)) eqn:E.
    { exists (Some i), empty. split; [done|]. exists x. unfold refers. by rewrite E. }
    set (empty1 := match empty with Some _ => empty | None => if i_ref x =? 0 then Some i else None end).
    destruct (IH empty1 ltac:(intros; apply Hl; by right)) as (hit & empty' & -> & H).
    exists hit, empty'. split; [done|]. destruct hit as [h|]; [done|]. destruct H as (Hn & H). split.
    + intros j y [->|Hj]%elem_of_cons Hy; [|by eapply Hn]. rewrite Hy in Hx. by injection Hx as <-.
    + unfold empty1 in H. destruct empty' as [k|].
      * destruct H as [H|H]; [|by right]. destruct empty; [by left|]. right.
        destruct (Z.eqb_spec (i_ref x) 0); [|done]. injection H as <-. by exists x.
      * destruct H as [H1 H2]. destruct empty; [done|]. split; [done|].
        destruct (Z.eqb_spec (i_ref x) 0) as [|Hr]; [done|].
        intros j y [->|Hj]%elem_of_cons Hy; [|by eapply H2]. rewrite Hy in Hx. by injection Hx as <-.
Qed.

(** What [iget] makes of the entry it returns. *)
Definition igot dev inum (x : inode) : inode :=
  if refers dev inum x then x <| i_ref ::= λ r, i32 (r + 1) |>
  else x <| i_dev := dev |> <| i_inum := inum |> <| i_ref := 1 |> <| i_valid := false |>.

Lemma set_inode_mini i g x (e : list (mini → mini)) m :
  mn_inodes m !! i = Some x →
  kn_set_inode i g e m = Ret () e (m <| mn_inodes := <[i := g x]> (mn_inodes m) |>).
Proof.
  intros Hi. cbn [kn_set_inode kern_mini]. krun. rewrite bool_decide_true by (by eapply lookup_lt_Some).
  unfold set. f_equal. f_equal. apply list_eq. intros j. destruct (decide (i = j)) as [<-|Hne].
  - rewrite list_lookup_alter_eq, Hi, list_lookup_insert_eq by (by eapply lookup_lt_Some). done.
  - by rewrite list_lookup_alter_ne, list_lookup_insert_ne.
Qed.

Lemma iget_run dev inum (e : list (mini → mini)) m :
  length (mn_inodes m) = NINODE → (∃ i x, mn_inodes m !! i = Some x ∧ i_ref x = 0) →
  ∃ k x, iget dev inum e m = Ret k e (m <| mn_inodes := <[k := igot dev inum x]> (mn_inodes m) |>) ∧
    mn_inodes m !! k = Some x ∧
    (refers dev inum x ∨
     i_ref x = 0 ∧ ∀ j y, mn_inodes m !! j = Some y → refers dev inum y = false).
Proof.
  intros Hlen (f & xf & Hf & Hf0). unfold iget. cbn [kn_acquire kn_release kern_mini]. krun.
  destruct (iget_scan_run dev inum e m (seq 0 NINODE) None) as (hit & empty & E & H).
  { intros i [_ Hi]%elem_of_seq. apply lookup_lt_is_Some. lia. }
  run E. assert (∀ j y, mn_inodes m !! j = Some y → j ∈ seq 0 NINODE) as Hin.
  { intros j y Hy%lookup_lt_Some. apply elem_of_seq. lia. }
  destruct hit as [k|].
  - destruct H as (x & Hx & Hr). exists k, x. split_and!; [|done|by left].
    erewrite bind_Ret by (by apply (set_inode_mini k _ x)). krun. unfold igot. by rewrite (Is_true_true_1 _ Hr).
  - destruct H as (Hno & H). destruct empty as [k|].
    + destruct H as [|(x & Hx & Hr)]; [done|]. exists k, x. split_and!; [|done|right; split; [done|]].
      * erewrite bind_Ret by (by apply (set_inode_mini k _ x)). krun. unfold igot. by rewrite (Hno k x (Hin _ _ Hx) Hx).
      * intros j y Hy. by apply (Hno j y (Hin _ _ Hy)).
    + destruct H as [_ H]. by destruct (H f xf (Hin _ _ Hf) Hf).
Qed.

Lemma refers_igot dev inum x :
  0 ≤ i_ref x < 2 ^ 31 - 1 → refers dev inum (igot dev inum x) = true.
Proof.
  change (2 ^ 31 - 1) with 2147483647. intros Hr. unfold igot.
  destruct (refers dev inum x) eqn:E; unfold refers in *; unfold set; cbn [i_ref i_dev i_inum].
  - breflect. rewrite wraps_id by (change (2 ^ (32 - 1)) with 2147483648; lia).
    rewrite !andb_true_iff, Z.ltb_lt, !Z.eqb_eq. lia.
  - by rewrite !Z.eqb_refl.
Qed.

Lemma itable_ok_igot dev inum m k x :
  itable_ok m → mn_inodes m !! k = Some x → 0 ≤ i_ref x < 2 ^ 31 - 1 →
  refers dev inum x ∨ i_ref x = 0 ∧ (∀ j y, mn_inodes m !! j = Some y → refers dev inum y = false) →
  itable_ok (m <| mn_inodes := <[k := igot dev inum x]> (mn_inodes m) |>).
Proof.
  intros [Hl Hu] Hk Hr Hcase. split; [unfold set; cbn; by rewrite length_insert|].
  assert (∀ d n, refers d n (igot dev inum x) → ∀ j y, mn_inodes m !! j = Some y → refers d n y → j = k) as Hkey.
  { intros d n Hd j y Hy Hry. assert (d = dev ∧ n = inum) as [-> ->].
    { revert Hd. unfold igot. destruct (refers dev inum x) eqn:E; unfold refers in *; unfold set; cbn [i_ref i_dev i_inum].
      - intros Hd%Is_true_true_1. breflect. lia.
      - intros Hd%Is_true_true_1. breflect. lia. }
    destruct Hcase as [Hx|[_ Hno]]; [by eapply (Hu j k)|]. by rewrite (Hno j y Hy) in Hry. }
  intros i j y z d n. unfold set. cbn [mn_inodes]. rewrite !list_lookup_insert_Some.
  intros [(<- & <- & _)|[Hne Hy]] [(<- & <- & _)|[Hne' Hz]] Hy' Hz'; [done| | |by eapply (Hu i j)].
  - by symmetry; eapply Hkey.
  - by eapply Hkey.
Qed.

(** ** dirlookup *)

(** The directory's entries, and the first one in use with a name. *)
Definition entries m ip : list (list Z) :=
  (λ k : nat, file_bytes m ip (16 * Z.of_nat k) 16) <$> seq 0 (Z.to_nat (i_size ip / 16)).

Fixpoint find_entry (name : list Z) (ents : list (list Z)) (off : Z) : option (Z * Z) :=
  match ents with
  | [] => None
  | de :: ents' =>
      if negb (de_inum de =? 0) && (namecmp name (de_name de) =? 0) then Some (de_inum de, off)
      else find_entry name ents' (off + 16)
  end.

Section Dirlookup.
Variables (dp : nat) (ip : inode) (name : list Z) (e : list (mini → mini)) (m : mini).
Hypothesis Hdp : mn_inodes m !! dp = Some ip.
Hypothesis Hok : file_ok m ip.
Hypothesis Hsize : i_size ip mod 16 = 0.
Hypothesis Hlen : length (mn_inodes m) = NINODE.
Hypothesis Hroom : ∃ i x, mn_inodes m !! i = Some x ∧ i_ref x = 0.

(** The result of a lookup whose search has ended with [found], in state [m1]. *)
Definition looked_up (found : option (Z * Z)) (m1 : mini) (r : option (nat * Z)) (m' : mini) : Prop :=
  match found with
  | None => r = None ∧ m' = m1
  | Some (inum, off) => ∃ k x, r = Some (k, off) ∧ mn_inodes m !! k = Some x ∧
      m' = m1 <| mn_inodes := <[k := igot (i_dev ip) inum x]> (mn_inodes m1) |> ∧
      (refers (i_dev ip) inum x ∨ i_ref x = 0 ∧ ∀ j y, mn_inodes m !! j = Some y → refers (i_dev ip) inum y = false)
  end.

Lemma dirlookup_loop step :
  step = (λ off,
    ip ← kn_inode dp;
    if off <? i_size ip then
      '(r, de) ← readi dp LocalDst off sizeof_dirent;
      panic_if (negb (r =? sizeof_dirent)) "dirlookup read";;
      if de_inum de =? 0 then mret (inl (u32 (off + sizeof_dirent)))
      else if namecmp name (de_name de) =? 0 then
        next ← iget (i_dev ip) (de_inum de);
        mret (inr (Some (next, off)))
      else mret (inl (u32 (off + sizeof_dirent)))
    else mret (inr None)) →
  ∀ n k m1, (k + n)%nat = Z.to_nat (i_size ip / 16) → reads m m1 →
  ∃ c r m2 m', runs step (16 * Z.of_nat k) e m1 c r e m' ∧ c ≤ Z.of_nat n + 1 ∧ reads m m2 ∧
    looked_up (find_entry name ((λ j : nat, file_bytes m ip (16 * Z.of_nat j) 16) <$> seq k n) (16 * Z.of_nat k)) m2 r m'.
Proof using Hdp Hok Hsize Hlen Hroom.
  intros Hstep. pose proof (fo_size _ _ Hok) as Hz. unfold MAXFILE, BSIZE, NDIRECT, NINDIRECT in Hz.
  induction n as [|n IH]; intros k m1 Hk R.
  all: assert (mn_inodes m1 !! dp = Some ip) as Hdp1 by (by rewrite (rd_inodes _ _ R)).
  - exists 1, None, m1, m1. split_and!; [|lia|done|done]. apply runs_done. rewrite Hstep.
    run (inode_mini dp ip e m1 Hdp1). by destruct (Z.ltb_spec (16 * Z.of_nat k) (i_size ip)); [zlia|].
  - destruct (readi_run dp ip e LocalDst m1 (16 * Z.of_nat k) 16 Hdp1 (file_ok_reads _ _ _ R Hok)) as (m2 & E2 & R2);
      [change (2 ^ 32) with 4294967296; zlia|change (2 ^ 32) with 4294967296; zlia|].
    assert (readable ip (16 * Z.of_nat k) 16 = 16) as Hread.
    { unfold readable. rewrite wrapu_id by (change (2 ^ 32) with 4294967296; zlia).
      destruct (Z.ltb_spec (i_size ip) (16 * Z.of_nat k)); [zlia|].
      destruct (Z.ltb_spec (16 * Z.of_nat k + 16) (16 * Z.of_nat k)); [lia|]. cbn [orb]. zlia. }
    rewrite Hread in E2. change (Z.to_nat 16) with 16%nat in E2.
    rewrite (file_bytes_reads m m1) in E2 by done.
    assert (reads m m2) as R' by (by etrans).
    cbn [seq fmap list_fmap find_entry]. set (de := file_bytes m ip (16 * Z.of_nat k) 16) in *.
    assert (∃ c r m3 m', runs step (u32 (16 * Z.of_nat k + 16)) e m2 c r e m' ∧ c ≤ Z.of_nat n + 1 ∧ reads m m3 ∧
      looked_up (find_entry name ((λ j : nat, file_bytes m ip (16 * Z.of_nat j) 16) <$> seq (S k) n) (16 * Z.of_nat k + 16)) m3 r m')
      as (c & r & m3 & m' & Hc & Hcn & R3 & Hres).
    { rewrite wrapu_id by (change (2 ^ 32) with 4294967296; zlia).
      replace (16 * Z.of_nat k + 16) with (16 * Z.of_nat (S k)) by lia. apply IH; [lia|done]. }
    assert (step (16 * Z.of_nat k) e m1 =
      (if de_inum de =? 0 then mret (inl (u32 (16 * Z.of_nat k + 16)))
       else if namecmp name (de_name de) =? 0 then
         next ← iget (i_dev ip) (de_inum de); mret (inr (Some (next, 16 * Z.of_nat k)))
       else mret (inl (u32 (16 * Z.of_nat k + 16)))) e m2) as Hs.
    { rewrite Hstep. run (inode_mini dp ip e m1 Hdp1). destruct (Z.ltb_spec (16 * Z.of_nat k) (i_size ip)); [|zlia].
      unfold sizeof_dirent. run E2. by krun. }
    destruct (Z.eqb_spec (de_inum de) 0) as [|_]; cbn [negb andb].
    { exists (c + 1), r, m3, m'. split_and!; [by eapply runs_step|lia|done|done]. }
    destruct (namecmp name (de_name de) =? 0).
    + destruct (iget_run (i_dev ip) (de_inum de) e m2) as (j & x & E & Hx & Hc').
      { by rewrite (rd_inodes _ _ R'). }
      { by rewrite (rd_inodes _ _ R'). }
      rewrite (rd_inodes _ _ R') in Hx, Hc'. rewrite (bind_Ret _ _ _ _ _ _ _ E) in Hs.
      eexists 1, _, m2, _. split_and!; [apply runs_done; exact Hs|lia|done|]. by exists j, x.
    + exists (c + 1), r, m3, m'. split_and!; [by eapply runs_step|lia|done|done].
Qed.

Lemma dirlookup_run : i_type ip = T_DIR →
  ∃ r m1 m', dirlookup dp name e m = Ret r e m' ∧ reads m m1 ∧ looked_up (find_entry name (entries m ip) 0) m1 r m'.
Proof using Hdp Hok Hsize Hlen Hroom.
  intros Ht. unfold dirlookup. run (inode_mini dp ip e m Hdp). rewrite Ht. krun. change (negb (T_DIR =? T_DIR)) with false. cbv match.
  destruct (dirlookup_loop _ eq_refl (Z.to_nat (i_size ip / 16)) 0 m) as (c & r & m2 & m' & Hc & Hcn & R & Hl);
    [lia|done|].
  exists r, m2, m'. split_and!; [|done|done]. eapply while_runs; [exact Hc|].
  pose proof (fo_size _ _ Hok) as Hz. unfold MAXFILE, BSIZE, NDIRECT, NINDIRECT in Hz.
  change (2 ^ 64) with 18446744073709551616. zlia.
Qed.
End Dirlookup.

(** ** Paths *)

(** The words between the slashes of a path, and those that are not empty. *)
Fixpoint split_slash (l : list Z) : list (list Z) :=
  match l with
  | [] => [[]]
  | c :: l' =>
      if c =? slash then [] :: split_slash l'
      else match split_slash l' with w :: ws => (c :: w) :: ws | [] => [[c]] end
  end.
Definition components (path : list Z) : list (list Z) := filter (λ w, w ≠ []) (split_slash path).

(** A component as [skipelem] leaves it in [name]: cut to DIRSIZ characters, or
    NUL-terminated. *)
Definition elem_name (w : list Z) : list Z := if (DIRSIZ <=? length w)%nat then take DIRSIZ w else w ++ [0].

(** The loop over the elements of a path, as [namex] runs it. *)
Fixpoint walk_path (fuel : nat) (path : list Z) : option (list (list Z)) :=
  match fuel with
  | O => None
  | S fuel' =>
      match skipelem path with
      | None => Some []
      | Some (name, rest) => cons name <$> walk_path fuel' rest
      end
  end.

Lemma split_elem_spec path s rest :
  split_elem path = (s, rest) →
  split_slash path = s :: match rest with [] => [] | _ :: r => split_slash r end ∧
  path = s ++ rest ∧ match rest with [] => True | c :: _ => c = slash end.
Proof.
  revert s rest. induction path as [|c path IH]; intros s rest; cbn [split_elem split_slash].
  - by intros [= <- <-].
  - destruct (Z.eqb_spec c slash) as [->|Hc]; [by intros [= <- <-]|].
    destruct (split_elem path) as [s' rest'] eqn:E. intros [= <- <-].
    destruct (IH s' rest' eq_refl) as (-> & -> & Hr). done.
Qed.

Lemma components_skip path : components (skip_slashes path) = components path.
Proof.
  induction path as [|c path IH]; [done|]. cbn [skip_slashes]. destruct (Z.eqb_spec c slash) as [->|Hc]; [|done].
  rewrite IH. by unfold components.
Qed.

Lemma skip_slashes_length path : (length (skip_slashes path) ≤ length path)%nat.
Proof. induction path as [|c path IH]; [done|]. cbn. destruct (c =? slash); cbn; lia. Qed.

Lemma skip_slashes_head path c p : skip_slashes path = c :: p → c ≠ slash.
Proof.
  induction path as [|d path IH]; [done|]. cbn. destruct (Z.eqb_spec d slash); [done|]. by intros [= <- _].
Qed.

(** One call takes off one component. *)
Lemma skipelem_step path :
  match skipelem path with
  | None => components path = []
  | Some (name, rest) => ∃ w, name = elem_name w ∧ components path = w :: components rest ∧
      (length rest < length path)%nat
  end.
Proof.
  unfold skipelem. rewrite <- (components_skip path). pose proof (skip_slashes_length path) as Hl.
  destruct (skip_slashes path) as [|c p] eqn:E; [done|]. apply skip_slashes_head in E.
  destruct (split_elem (c :: p)) as [s rest] eqn:Es. destruct (split_elem_spec _ _ _ Es) as (Hs & Hp & Hr).
  exists s. assert (s ≠ []) as Hne.
  { cbn in Es. destruct (Z.eqb_spec c slash); [done|]. destruct (split_elem p). by injection Es as <- _. }
  split_and!; [done| |].
  - rewrite components_skip. unfold components at 1. rewrite Hs, filter_cons_True by done. f_equal.
    destruct rest as [|d r]; [done|]. subst d. by unfold components.
  - pose proof (skip_slashes_length rest). assert (length (c :: p) = length s + length rest)%nat as Hsum.
    { by rewrite Hp at 1; rewrite length_app. }
    destruct s; [done|]. cbn in *. lia.
Qed.

Lemma walk_path_run fuel path :
  (length path < fuel)%nat → walk_path fuel path = Some (elem_name <$> components path).
Proof.
  revert path. induction fuel as [|fuel IH]; intros path Hf; [lia|]. cbn [walk_path].
  pose proof (skipelem_step path) as H. destruct (skipelem path) as [[name rest]|].
  - destruct H as (w & -> & -> & Hl). rewrite IH by lia. done.
  - by rewrite H.
Qed.

(** ** Statements *)

(** C8: reading a file.  On a file whose blocks are allocated, [readi]
    terminates and returns exactly the bytes of the file from [off] on, as many
    of the [n] asked for as there are before the end of the file, through direct
    and indirect blocks alike; the caller receives them at [dst], piece after
    piece at consecutive addresses; it returns nothing when the offset lies beyond
    the end or when [off + n] overflows; and no block, inode or log entry changes. *)
Theorem readi_correct i ip dst off n (e : list (mini → mini)) m :
  mn_inodes m !! i = Some ip → file_ok m ip → 0 ≤ off < 2 ^ 32 → 0 ≤ n < 2 ^ 32 →
  ∃ m', readi i dst off n e m =
      Ret (readable ip off n, file_bytes m ip off (Z.to_nat (readable ip off n))) e m' ∧ reads m m' ∧
    copies m m' dst (file_bytes m ip off (Z.to_nat (readable ip off n))).
Proof. apply readi_copies. Qed.

(** C18: looking up a name.  On a directory [dirlookup] terminates.  It returns
    the inode and the offset of the first entry in use with that name, having
    taken one reference to that inode in the inode table, or null when there is
    no such entry; it changes nothing else. *)
Theorem dirlookup_correct dp ip name (e : list (mini → mini)) m :
  mn_inodes m !! dp = Some ip → file_ok m ip → i_type ip = T_DIR → i_size ip mod 16 = 0 →
  length (mn_inodes m) = NINODE → (∃ i x, mn_inodes m !! i = Some x ∧ i_ref x = 0) →
  ∃ r m', dirlookup dp name e m = Ret r e m' ∧
    (∀ b, content m' b = content m b) ∧ mn_disk m' = mn_disk m ∧ mn_log m' = mn_log m ∧
    match find_entry name (entries m ip) 0 with
    | None => r = None ∧ mn_inodes m' = mn_inodes m
    | Some (inum, off) => ∃ k x, r = Some (k, off) ∧ mn_inodes m !! k = Some x ∧
        mn_inodes m' = <[k := igot (i_dev ip) inum x]> (mn_inodes m) ∧
        (refers (i_dev ip) inum x ∨
         i_ref x = 0 ∧ ∀ j y, mn_inodes m !! j = Some y → refers (i_dev ip) inum y = false)
    end.
Proof.
  intros Hdp Hok Ht Hs Hl Hr.
  destruct (dirlookup_run dp ip name e m Hdp Hok Hs Hl Hr Ht) as (r & m1 & m' & E & R & H).
  exists r, m'. split; [done|]. destruct (find_entry name (entries m ip) 0) as [[inum off]|]; cbn in H.
  - destruct H as (k & x & -> & Hx & -> & Hc). split_and!; [apply (rd_content _ _ R)|apply (rd_disk _ _ R)|apply (rd_log _ _ R)|].
    exists k, x. split_and!; [done|done| |done]. unfold set. cbn [mn_inodes]. by rewrite (rd_inodes _ _ R).
  - destruct H as [-> ->]. split_and!; [apply (rd_content _ _ R)|apply (rd_disk _ _ R)|apply (rd_log _ _ R)|done|].
    apply (rd_inodes _ _ R).
Qed.

(** C34: the inode table.  [iget] returns the active entry of the inode with one
    more reference, or a free entry set up for it with one reference and marked
    as not read; no other entry changes, and there is never more than one active
    entry for an inode. *)
Theorem iget_correct dev inum (e : list (mini → mini)) m :
  itable_ok m → (∃ i x, mn_inodes m !! i = Some x ∧ i_ref x = 0) →
  (∀ i x, mn_inodes m !! i = Some x → 0 ≤ i_ref x < 2 ^ 31 - 1) →
  ∃ k x m', iget dev inum e m = Ret k e m' ∧ itable_ok m' ∧ mn_inodes m !! k = Some x ∧
    mn_inodes m' !! k = Some (igot dev inum x) ∧ refers dev inum (igot dev inum x) ∧
    i_ref (igot dev inum x) = i_ref x + 1 ∧
    (∀ j, j ≠ k → mn_inodes m' !! j = mn_inodes m !! j) ∧ (∀ b, content m' b = content m b).
Proof.
  intros Hok Hroom Hrange. destruct (iget_run dev inum e m (it_len _ Hok) Hroom) as (k & x & E & Hk & Hc).
  pose proof (Hrange k x Hk) as Hr.
  exists k, x, (m <| mn_inodes := <[k := igot dev inum x]> (mn_inodes m) |>).
  split_and!; [done|by apply itable_ok_igot|done| | | |intros j Hj|done].
  - unfold set. cbn [mn_inodes]. apply list_lookup_insert_eq. by eapply lookup_lt_Some.
  - by rewrite refers_igot.
  - change (2 ^ 31 - 1) with 2147483647 in Hr. unfold igot. destruct (refers dev inum x) eqn:Er; unfold set; cbn [i_ref].
    + apply wraps_id; change (2 ^ (32 - 1)) with 2147483648; lia.
    + destruct Hc as [Hc|[-> _]]; [destruct Hc|lia].
  - unfold set. cbn [mn_inodes]. by rewrite list_lookup_insert_ne.
Qed.

(** Path names.  Calling [skipelem] again and again ends, after at most one
    call more than the path has characters, and yields exactly the non-empty
    words between the path's slashes, each cut to DIRSIZ characters or
    NUL-terminated. *)
Theorem skipelem_splits path fuel :
  (length path < fuel)%nat → walk_path fuel path = Some (elem_name <$> components path).
Proof. apply walk_path_run. Qed.

(** ** An example directory *)

(** The directory in block 5 holds "a" (inode 2) and "b" (inode 3). *)
Definition ex_dirblock : list Z :=
  splice (replicate 1024 0) 0 (mk_dirent 2 (copy_name (bytes_of "a")) ++ mk_dirent 3 (copy_name (bytes_of "b"))).
Definition ex_dirnode : inode := Inode 1 1 1 true T_DIR 0 0 1 32 (5 :: replicate 12 0).
Definition ex_dir : mini :=
  Mini (λ b, if b =? 5 then ex_dirblock else replicate 1024 0) [] ∅
    (Log 2 30 1 false 1 0 (replicate 30 0)) (Superblock FSMAGIC 100 50 20 30 2 32 34)
    (ex_dirnode :: replicate 49 inode0) [].

Lemma ex_dir_ok : file_ok ex_dir ex_dirnode.
Proof.
  split; [vm_compute; split; discriminate| |by cbn|].
  - cbn [i_size ex_dirnode]. unfold BSIZE. intros bn H1 H2. assert (bn = 0) as -> by lia. by vm_compute.
  - intros b. unfold content. cbn [mn_cache mn_disk ex_dir]. rewrite lookup_empty. cbn [default].
    by destruct (b =? 5); vm_compute.
Qed.

Lemma ex_dir_room : ∃ i x, mn_inodes ex_dir !! i = Some x ∧ i_ref x = 0.
Proof. by exists 1%nat, inode0. Qed.

Lemma ex_dir_table : itable_ok ex_dir.
Proof.
  assert (∀ i x dev inum, mn_inodes ex_dir !! i = Some x → refers dev inum x → i = 0%nat) as H.
  { intros [|i] x dev inum Hx Hr; [done|]. cbn in Hx. apply (lookup_replicate_1 49) in Hx as [-> _].
    by apply Is_true_true in Hr. }
  split; [done|]. intros i j x y dev inum Hi Hj Hx Hy. by rewrite (H i x dev inum), (H j y dev inum).
Qed.

Lemma readi_correct_witness :
  ∃ m', readi 0%nat (KernDst 4096) 16 100 [] ex_dir = Ret (16, mk_dirent 3 (copy_name (bytes_of "b"))) [] m' ∧
    reads ex_dir m' ∧ copies ex_dir m' (KernDst 4096) (mk_dirent 3 (copy_name (bytes_of "b"))).
Proof.
  destruct (readi_correct 0%nat ex_dirnode (KernDst 4096) 16 100 [] ex_dir) as (m' & E & R & C);
    [reflexivity|apply ex_dir_ok|lia|lia|]. exists m'. split; [rewrite E; f_equal|]. split; [exact R|exact C].
Defined.

Lemma dirlookup_correct_witness :
  (∃ k m', dirlookup 0%nat (bytes_of "b") [] ex_dir = Ret (Some (k, 16)) [] m') ∧
  ∃ m', dirlookup 0%nat (bytes_of "c") [] ex_dir = Ret None [] m'.
Proof.
  split.
  - destruct (dirlookup_correct 0%nat ex_dirnode (bytes_of "b") [] ex_dir) as (r & m' & E & _ & _ & _ & H);
      [reflexivity|apply ex_dir_ok|reflexivity|reflexivity|reflexivity|apply ex_dir_room|].
    assert (find_entry (bytes_of "b") (entries ex_dir ex_dirnode) 0 = Some (3, 16)) as F by (vm_compute; reflexivity).
    rewrite F in H. destruct H as (k & x & -> & _). exists k, m'. exact E.
  - destruct (dirlookup_correct 0%nat ex_dirnode (bytes_of "c") [] ex_dir) as (r & m' & E & _ & _ & _ & H);
      [reflexivity|apply ex_dir_ok|reflexivity|reflexivity|reflexivity|apply ex_dir_room|].
    assert (find_entry (bytes_of "c") (entries ex_dir ex_dirnode) 0 = None) as F by (vm_compute; reflexivity).
    rewrite F in H. destruct H as [-> _]. exists m'. exact E.
Defined.

Lemma iget_correct_witness :
  ∃ k x m', iget 1 7 [] ex_dir = Ret k [] m' ∧ mn_inodes m' !! k = Some (igot 1 7 x) ∧ itable_ok m'.
Proof.
  destruct (iget_correct 1 7 [] ex_dir) as (k & x & m' & E & Hok & _ & Hk & _);
    [apply ex_dir_table|apply ex_dir_room| |exists k, x, m'; split; [exact E|split; [exact Hk|exact Hok]]].
  intros [|i] x Hx; [injection Hx as <-; vm_compute; split; [discriminate|reflexivity]|].
  cbn in Hx. apply (lookup_replicate_1 49) in Hx as [-> _]. vm_compute. split; [discriminate|reflexivity].
Defined.

Lemma skipelem_splits_witness :
  walk_path 12 (bytes_of "//usr/a/b/") = Some [bytes_of "usr" ++ [0]; bytes_of "a" ++ [0]; bytes_of "b" ++ [0]].
Proof. rewrite (skipelem_splits (bytes_of "//usr/a/b/") 12); [vm_compute; reflexivity|vm_compute; lia]. Defined.
