(* ===== verification/FsWrite.v ===== *)
(** * FsWrite: logging, inode updates and block allocation

    On the sequential machine of Blocks.v: [log_write] keeps the list of logged
    blocks without duplicates and within the log; an inode written by [iupdate]
    is read back by [ilock]; [balloc] allocates the first free block. *)

From S2P Require Import Prelude Params CString State Spinlock PhysMem Kalloc Vm ProcBase Sleeplock Virtio Bio Blocks Bytes Log LogCrash Fs FsRead.

Implicit Types (m : mini) (ip : inode) (lg : log).

(** ** log_write *)

(** The blocks of the current transaction. *)
Definition logged lg : list Z := take (Z.to_nat (lg_n lg)) (lg_block lg).

Record log_ok lg : Prop := LogOk {
  lo_n : 0 ≤ lg_n lg ≤ LOGSIZE;
  lo_len : length (lg_block lg) = Z.to_nat LOGSIZE;
  lo_nodup : NoDup (logged lg);
  lo_range : Forall block_range (logged lg);
}.

(** There is room for another block. *)
Definition log_room lg : Prop := lg_n lg < LOGSIZE ∧ lg_n lg < lg_size lg - 1 ∧ 1 ≤ lg_outstanding lg.

Lemma u32_block b : block_range b → u32 b = b.
Proof. unfold block_range. intros. apply wrapu_id. change (2 ^ 32) with 4294967296. change (2 ^ 31) with 2147483648 in *. lia. Qed.

Lemma i32_block b : block_range b → i32 b = b.
Proof. unfold block_range. intros. apply wraps_id; [lia|]. change (2 ^ (32 - 1)) with (2 ^ 31). lia. Qed.

(** The search ends at the block's index, or behind the last entry. *)
Lemma absorb_spec b l i n :
  (n ≤ length l)%nat → Forall block_range (take n l) →
  (∃ k, absorb b l i n = i + Z.of_nat k ∧ (k < n)%nat ∧ take n l !! k = Some b) ∨
  absorb b l i n = i + Z.of_nat n ∧ b ∉ take n l.
Proof.
  revert l i. induction n as [|n IH]; intros [|x l] i Hl Hf; cbn in Hl; try lia.
  1-2: right; split; [cbn; lia|apply not_elem_of_nil].
  cbn [take] in Hf. apply Forall_cons in Hf as [Hx Hf]. cbn [absorb take]. rewrite u32_block by done.
  destruct (Z.eqb_spec x b) as [->|Hne].
  - left. exists 0%nat. split_and!; [lia|lia|done].
  - destruct (IH l (i + 1) ltac:(lia) Hf) as [(k & -> & Hk & Hb)|[-> Hn]].
    + left. exists (S k). split_and!; [lia|lia|done].
    + right. split; [lia|]. by rewrite not_elem_of_cons.
Qed.

(** What [log_write] makes of the log. *)
Definition absorbed (b : Z) lg : log :=
  if decide (b ∈ logged lg) then lg
  else lg <| lg_block ::= insert (Z.to_nat (lg_n lg)) b |> <| lg_n ::= λ n, n + 1 |>.

Lemma absorbed_in b lg : b ∈ logged lg → absorbed b lg = lg.
Proof. intros. unfold absorbed. by rewrite decide_True. Qed.
Lemma absorbed_out b lg : b ∉ logged lg →
  absorbed b lg = lg <| lg_block ::= insert (Z.to_nat (lg_n lg)) b |> <| lg_n ::= λ n, n + 1 |>.
Proof. intros. unfold absorbed. by rewrite decide_False. Qed.

Lemma logged_absorbed b lg : log_ok lg → log_room lg →
  logged (absorbed b lg) = if decide (b ∈ logged lg) then logged lg else logged lg ++ [b].
Proof.
  intros [Hn Hl _ _] [Hr _]. unfold absorbed. destruct (decide _); [done|]. unfold logged, set. cbn [lg_n lg_block].
  replace (Z.to_nat (lg_n lg + 1)) with (S (Z.to_nat (lg_n lg))) by lia.
  rewrite (take_S_r _ _ b) by (apply list_lookup_insert_eq; rewrite Hl; lia). by rewrite take_insert_ge.
Qed.

Lemma absorbed_ok b lg : block_range b → log_ok lg → log_room lg → log_ok (absorbed b lg).
Proof.
  intros Hb Hok Hr. pose proof (logged_absorbed b lg Hok Hr) as Hlg. pose proof Hok as [Hn Hl Hd Hf].
  destruct Hr as [Hr _]. split.
  - unfold absorbed. destruct (decide _); [done|]. unfold set. cbn [lg_n]. lia.
  - unfold absorbed. destruct (decide _); [done|]. unfold set. cbn [lg_block]. by rewrite length_insert.
  - rewrite Hlg. destruct (decide _); [done|]. apply NoDup_app. split_and!; [done| |apply NoDup_singleton].
    intros x Hx ->%list_elem_of_singleton. done.
  - rewrite Hlg. destruct (decide _); [done|]. apply Forall_app. split; [done|]. by apply Forall_singleton.
Qed.

Lemma log_write_run b (e : list (mini → mini)) m :
  block_range b → log_ok (mn_log m) → log_room (mn_log m) →
  log_write (Z.to_nat b) e m = Ret () e (m <| mn_log ::= absorbed b |>).
Proof.
  intros Hb Hok (Hr1 & Hr2 & Hr3). pose proof Hok as [Hn Hl Hd Hf]. unfold LOGSIZE, MAXOPBLOCKS in *.
  unfold log_write. cbn [kn_acquire kn_log kn_blockno kn_bpin kn_set_log kn_release kern_mini]. krun.
  destruct (Z.leb_spec LOGSIZE (lg_n (mn_log m))) as [H|_]; [unfold LOGSIZE, MAXOPBLOCKS in H; lia|].
  destruct (Z.leb_spec (lg_size (mn_log m) - 1) (lg_n (mn_log m))); [lia|]. cbn [orb].
  destruct (Z.ltb_spec (lg_outstanding (mn_log m)) 1); [lia|].
  assert (0 ≤ b) as Hb0 by apply Hb. rewrite Z2Nat.id by done. cbv zeta. unfold set_lh_block. cbn [kn_set_log kern_mini].
  rewrite i32_block by done.
  destruct (absorb_spec b (lg_block (mn_log m)) 0 (Z.to_nat (lg_n (mn_log m))) ltac:(lia) Hf)
    as [(k & -> & Hk & Hkb)|[-> Hnot]]; krun; fold (logged (mn_log m)) in *.
  - unfold LOGSIZE, MAXOPBLOCKS. destruct (Z.leb_spec 0 (0 + Z.of_nat k)); [|lia].
    destruct (Z.ltb_spec (0 + Z.of_nat k) (10 * 3)); [|lia]. cbn [andb]. krun.
    destruct (Z.eqb_spec (0 + Z.of_nat k) (lg_n (mn_log m))); [lia|]. krun. f_equal.
    rewrite Z.add_0_l, Nat2Z.id.
    assert (lg_block (mn_log m) !! k = Some b) as Hlk.
    { unfold logged in Hkb. by rewrite lookup_take_lt in Hkb by lia. }
    assert (absorbed b (mn_log m) = mn_log m) as Ha by (apply absorbed_in; by eapply list_elem_of_lookup_2).
    unfold set. cbn. rewrite Ha, list_insert_id by done. by destruct m as [d h c []].
  - unfold LOGSIZE, MAXOPBLOCKS. rewrite Z2Nat.id, Z.add_0_l by lia.
    destruct (Z.leb_spec 0 (lg_n (mn_log m))); [|lia].
    destruct (Z.ltb_spec (lg_n (mn_log m)) (10 * 3)); [|lia]. cbn [andb]. krun.
    rewrite Z.eqb_refl. krun. f_equal. pose proof (absorbed_out _ _ Hnot) as Ha.
    unfold set in *. cbn in *. rewrite Ha, (wraps_id 32) by (change (2 ^ (32 - 1)) with 2147483648; lia). done.
Qed.

(** ** Writing one block of the transaction *)

(** Block [b] now reads as [v] and belongs to the transaction; the rest is as before. *)
Record changed (b : Z) (v : list Z) m m' : Prop := Changed {
  ch_disk : mn_disk m' = mn_disk m;
  ch_content : ∀ x, content m' x = dupd (content m) b v x;
  ch_log : mn_log m' = absorbed b (mn_log m);
  ch_sb : mn_sb m' = mn_sb m;
  ch_inodes : mn_inodes m' = mn_inodes m;
  ch_cache : ∀ x, is_Some (mn_cache m !! x) → is_Some (mn_cache m' !! x);
}.

(** Change a block that has been read, and log it. *)
Lemma update_block b v (e : list (mini → mini)) m m1 :
  block_range b → log_ok (mn_log m) → log_room (mn_log m) → reads m m1 →
  mn_cache m1 !! b = Some (content m b) →
  ∃ m', changed b v m m' ∧
    ∀ A (k : KM mini A), (kn_set_data (Z.to_nat b) v;; log_write (Z.to_nat b);; k) e m1 = k e m'.
Proof.
  intros Hb Hok Hr R Hc.
  set (m2 := m1 <| mn_cache ::= insert b v |>). exists (m2 <| mn_log ::= absorbed b |>).
  assert (mn_log m2 = mn_log m) as Hl by apply (rd_log _ _ R). split.
  - split; [apply (rd_disk _ _ R)| | |apply (rd_sb _ _ R)|apply (rd_inodes _ _ R)|].
    + intros x. pose proof (content_insert m1 b v x) as Hx. fold m2 in Hx. unfold content in *.
      change (mn_cache (m2 <| mn_log ::= absorbed b |>)) with (mn_cache m2).
      change (mn_disk (m2 <| mn_log ::= absorbed b |>)) with (mn_disk m2). rewrite Hx.
      unfold dupd. destruct (x =? b); [done|]. apply (rd_content _ _ R).
    + by rewrite <- Hl.
    + intros x Hx%(rd_cache _ _ R). unfold set. cbn [mn_cache]. apply lookup_insert_is_Some. destruct (decide (b = x)); auto.
  - intros A k. run (set_data_mini b v _ e m1 (proj1 Hb) Hc). by run (log_write_run b e m2 Hb ltac:(by rewrite Hl) ltac:(by rewrite Hl)).
Qed.

(** ** On-disk inodes *)

Lemma put_addrs_length data o addrs :
  (o + 4 * length addrs ≤ length data)%nat → length (put_addrs data o addrs) = length data.
Proof.
  revert data o. induction addrs as [|a addrs IH]; intros data o Hl; [done|]. cbn in Hl |- *.
  assert (length (put_le data o 4 a) = length data) as Hp by (apply length_put; lia).
  rewrite IH; [done|]. rewrite Hp. lia.
Qed.

Lemma put_addrs_ne data o addrs off n :
  (o + 4 * length addrs ≤ length data)%nat → (off + n ≤ o ∨ o + 4 * length addrs ≤ off)%nat →
  get_le (put_addrs data o addrs) off n = get_le data off n.
Proof.
  revert data o. induction addrs as [|a addrs IH]; intros data o Hl Hd; [done|]. cbn in Hl, Hd |- *.
  assert (length (put_le data o 4 a) = length data) as Hp by (apply length_put; lia).
  rewrite IH by (rewrite ?Hp; lia). apply get_put_ne; lia.
Qed.

Lemma put_addrs_get data o addrs k a :
  (o + 4 * length addrs ≤ length data)%nat → addrs !! k = Some a →
  get_le (put_addrs data o addrs) (o + 4 * k) 4 = a mod 256 ^ Z.of_nat 4.
Proof.
  revert data o k. induction addrs as [|x addrs IH]; intros data o k Hl Hk; [done|].
  cbn [length put_addrs] in Hl |- *. cbv beta.
  assert (length (put_le data o 4 x) = length data) as Hp by (apply length_put; lia).
  destruct k as [|k]; cbn in Hk.
  - injection Hk as ->. rewrite put_addrs_ne by (rewrite ?Hp; lia). rewrite Nat.mul_0_r, Nat.add_0_r. apply get_put. lia.
  - replace (o + 4 * S k)%nat with (o + 4 + 4 * k)%nat by lia. apply IH; [rewrite Hp; lia|done].
Qed.

(** The fields of an inode are in the ranges of their C types. *)
Record inode_typed ip : Prop := InodeTyped {
  ty_type : - 2 ^ 15 ≤ i_type ip < 2 ^ 15;
  ty_major : - 2 ^ 15 ≤ i_major ip < 2 ^ 15;
  ty_minor : - 2 ^ 15 ≤ i_minor ip < 2 ^ 15;
  ty_nlink : - 2 ^ 15 ≤ i_nlink ip < 2 ^ 15;
  ty_size : 0 ≤ i_size ip < 2 ^ 32;
  ty_addrs : length (i_addrs ip) = S NDIRECT ∧ Forall (λ a, 0 ≤ a < 2 ^ 32) (i_addrs ip);
}.

Lemma i16_mod x : - 2 ^ 15 ≤ x < 2 ^ 15 → i16 (x mod 256 ^ Z.of_nat 2) = x.
Proof.
  intros Hx. unfold wraps. change (2 ^ (16 - 1)) with 32768. change (2 ^ 16) with 65536.
  change (256 ^ Z.of_nat 2) with 65536. change (2 ^ 15) with 32768 in Hx. zlia.
Qed.

Lemma u32_mod x : 0 ≤ x < 2 ^ 32 → x mod 256 ^ Z.of_nat 4 = x.
Proof. change (2 ^ 32) with 4294967296. change (256 ^ Z.of_nat 4) with 4294967296. intros. by apply Z.mod_small. Qed.

(** The inode [x] with the on-disk fields of [ip]. *)
Definition with_fields ip (x : inode) : inode :=
  x <| i_type := i_type ip |> <| i_major := i_major ip |> <| i_minor := i_minor ip |>
    <| i_nlink := i_nlink ip |> <| i_size := i_size ip |> <| i_addrs := i_addrs ip |>.

(** The fixed part of a dinode, before the addresses are written. *)
Definition put_fixed ip (o : nat) (data : list Z) : list Z :=
  put_le (put_le (put_le (put_le (put_le data o 2 (i_type ip)) (o + 2) 2 (i_major ip)) (o + 4) 2 (i_minor ip))
    (o + 6) 2 (i_nlink ip)) (o + 8) 4 (i_size ip).

Lemma put_dinode_eq ip o data : put_dinode ip o data = put_addrs (put_fixed ip o data) (o + 12) (i_addrs ip).
Proof. done. Qed.

Lemma put_fixed_spec ip o data : (o + 12 ≤ length data)%nat →
  length (put_fixed ip o data) = length data ∧
  get_le (put_fixed ip o data) o 2 = i_type ip mod 256 ^ Z.of_nat 2 ∧
  get_le (put_fixed ip o data) (o + 2) 2 = i_major ip mod 256 ^ Z.of_nat 2 ∧
  get_le (put_fixed ip o data) (o + 4) 2 = i_minor ip mod 256 ^ Z.of_nat 2 ∧
  get_le (put_fixed ip o data) (o + 6) 2 = i_nlink ip mod 256 ^ Z.of_nat 2 ∧
  get_le (put_fixed ip o data) (o + 8) 4 = i_size ip mod 256 ^ Z.of_nat 4 ∧
  ∀ off n, (off + n ≤ o ∨ o + 12 ≤ off)%nat → get_le (put_fixed ip o data) off n = get_le data off n.
Proof.
  intros Hl. unfold put_fixed.
  set (d1 := put_le data o 2 (i_type ip)).
  set (d2 := put_le d1 (o + 2) 2 (i_major ip)).
  set (d3 := put_le d2 (o + 4) 2 (i_minor ip)).
  set (d4 := put_le d3 (o + 6) 2 (i_nlink ip)).
  assert (length d1 = length data) as L1 by (apply length_put; lia).
  assert (length d2 = length data) as L2 by (unfold d2; rewrite length_put; lia).
  assert (length d3 = length data) as L3 by (unfold d3; rewrite length_put; lia).
  assert (length d4 = length data) as L4 by (unfold d4; rewrite length_put; lia).
  split_and!.
  - rewrite length_put; lia.
  - rewrite get_put_ne by lia. unfold d4. rewrite get_put_ne by lia. unfold d3. rewrite get_put_ne by lia.
    unfold d2. rewrite get_put_ne by lia. apply get_put. lia.
  - rewrite get_put_ne by lia. unfold d4. rewrite get_put_ne by lia. unfold d3. rewrite get_put_ne by lia.
    apply get_put. lia.
  - rewrite get_put_ne by lia. unfold d4. rewrite get_put_ne by lia. apply get_put. lia.
  - rewrite get_put_ne by lia. apply get_put. lia.
  - apply get_put. lia.
  - intros off n Hd. rewrite get_put_ne by lia. unfold d4. rewrite get_put_ne by lia. unfold d3.
    rewrite get_put_ne by lia. unfold d2. rewrite get_put_ne by lia. apply get_put_ne; lia.
Qed.

Lemma put_dinode_ne ip o data off n :
  length (i_addrs ip) = S NDIRECT → (o + 64 ≤ length data)%nat → (off + n ≤ o ∨ o + 64 ≤ off)%nat →
  get_le (put_dinode ip o data) off n = get_le data off n.
Proof.
  intros Ha Ho Hd. unfold NDIRECT in Ha. destruct (put_fixed_spec ip o data ltac:(lia)) as (Hl & _ & _ & _ & _ & _ & Hf).
  rewrite put_dinode_eq, put_addrs_ne by lia. apply Hf. lia.
Qed.

Lemma put_dinode_length ip o data :
  length (i_addrs ip) = S NDIRECT → (o + 64 ≤ length data)%nat → length (put_dinode ip o data) = length data.
Proof.
  intros Ha Ho. unfold NDIRECT in Ha. destruct (put_fixed_spec ip o data ltac:(lia)) as (Hl & _).
  rewrite put_dinode_eq, put_addrs_length; lia.
Qed.

Lemma get_put_dinode ip o data x :
  inode_typed ip → (o + 64 ≤ length data)%nat → get_dinode (put_dinode ip o data) o x = with_fields ip x.
Proof.
  intros [Ht Hj Hi Hn Hs [Hal Haf]] Ho. pose proof Hal as Ha. unfold NDIRECT in Ha.
  destruct (put_fixed_spec ip o data ltac:(lia)) as (Hl & F1 & F2 & F3 & F4 & F5 & _).
  unfold get_dinode, with_fields, d_type, d_addrs. cbv beta. rewrite put_dinode_eq.
  rewrite !put_addrs_ne by lia. rewrite F1, F2, F3, F4, F5, !i16_mod, u32_mod by done.
  replace ((λ k, get_le (put_addrs (put_fixed ip o data) (o + 12) (i_addrs ip)) (o + 12 + 4 * k) 4) <$> seq 0 (S NDIRECT))
    with (i_addrs ip); [done|].
  apply list_eq. intros k. destruct (i_addrs ip !! k) as [a|] eqn:Ea.
  - assert (k < 13)%nat as Hk by (apply lookup_lt_Some in Ea; lia).
    rewrite list_lookup_fmap, lookup_seq_lt by (unfold NDIRECT; lia). cbn [fmap option_fmap option_map]. f_equal.
    rewrite Nat.add_0_l, (put_addrs_get _ _ _ k a) by (done || lia). symmetry. apply u32_mod.
    by eapply (Forall_lookup_1 _ _ _ _ Haf).
  - symmetry. apply lookup_ge_None_2. apply lookup_ge_None_1 in Ea. rewrite length_fmap, length_seq. unfold NDIRECT. lia.
Qed.

Lemma dinode_off_range inum : 0 ≤ inum → (dinode_off inum + 64 ≤ 1024)%nat.
Proof. intros. unfold dinode_off, IPB, BSIZE. change (1024 / 64) with 16. zlia. Qed.

(** The other inodes of the block. *)
Lemma get_put_dinode_ne inum inum' ip data x :
  length (i_addrs ip) = S NDIRECT → length data = 1024%nat → 0 ≤ inum → 0 ≤ inum' → inum mod IPB ≠ inum' mod IPB →
  get_dinode (put_dinode ip (dinode_off inum') data) (dinode_off inum) x = get_dinode data (dinode_off inum) x.
Proof.
  intros Ha Hlen Hn Hn' Hd. pose proof (dinode_off_range inum Hn). pose proof (dinode_off_range inum' Hn').
  assert (∀ off n, (off + n ≤ 64)%nat →
    get_le (put_dinode ip (dinode_off inum') data) (dinode_off inum + off) n = get_le data (dinode_off inum + off) n) as Hg.
  { intros off n Hon. apply put_dinode_ne; [done|lia|]. unfold dinode_off in *.
    pose proof (Z.mod_pos_bound inum IPB ltac:(done)). pose proof (Z.mod_pos_bound inum' IPB ltac:(done)). lia. }
  set (d' := put_dinode _ _ _) in *.
  assert (d_addrs d' (dinode_off inum) = d_addrs data (dinode_off inum)) as Had.
  { unfold d_addrs. apply list_fmap_ext. intros k y Hy. apply lookup_seq in Hy as [-> Hy]. unfold NDIRECT in Hy.
    replace (dinode_off inum + 12 + 4 * (0 + k))%nat with (dinode_off inum + (12 + 4 * k))%nat by lia. apply Hg. lia. }
  pose proof (Hg 0%nat 2%nat) as Hg0. rewrite Nat.add_0_r in Hg0.
  unfold get_dinode, d_type. cbv beta. by rewrite Had, Hg0, !Hg by lia.
Qed.

(** ** iupdate and ilock *)

Definition iblock m (inum : Z) : Z := IBLOCK inum (mn_sb m).

Lemma iupdate_run i ip (e : list (mini → mini)) m :
  mn_inodes m !! i = Some ip → block_range (iblock m (i_inum ip)) →
  log_ok (mn_log m) → log_room (mn_log m) →
  ∃ m', iupdate i e m = Ret () e m' ∧
    changed (iblock m (i_inum ip))
      (put_dinode ip (dinode_off (i_inum ip)) (content m (iblock m (i_inum ip)))) m m'.
Proof.
  intros Hi Hb Hok Hr. unfold iupdate. cbn [kn_sb kern_mini]. krun. run (inode_mini i ip e m Hi).
  fold (iblock m (i_inum ip)).
  destruct (bread_reads (i_dev ip) (iblock m (i_inum ip)) e m (proj1 Hb)) as (m1 & E1 & R1 & C1). run E1.
  run (data_mini _ _ e m1 (proj1 Hb) C1).
  destruct (update_block _ (put_dinode ip (dinode_off (i_inum ip)) (content m (iblock m (i_inum ip))))
    e m m1 Hb Hok Hr R1 C1) as (m' & Hch & E).
  exists m'. split; [|done]. by rewrite E.
Qed.

Lemma ilock_run i x (e : list (mini → mini)) m :
  mn_inodes m !! i = Some x → 0 ≤ iblock m (i_inum x) → 1 ≤ i_ref x → i_valid x = false →
  let x' := get_dinode (content m (iblock m (i_inum x))) (dinode_off (i_inum x)) x <| i_valid := true |> in
  i_type x' ≠ 0 →
  ∃ m1, reads m m1 ∧ ilock i e m = Ret () e (m1 <| mn_inodes := <[i := x']> (mn_inodes m) |>).
Proof.
  intros Hi Hb Href Hv x' Ht. unfold ilock. run (inode_mini i x e m Hi). krun.
  destruct (Z.ltb_spec (i_ref x) 1); [lia|]. cbn [kn_acquiresleep kern_mini]. krun.
  run (inode_mini i x e m Hi). rewrite Hv. krun. cbn [negb kn_sb kern_mini]. krun.
  fold (iblock m (i_inum x)).
  destruct (bread_reads (i_dev x) (iblock m (i_inum x)) e m Hb) as (m1 & E1 & R1 & C1). run E1.
  run (data_mini _ _ e m1 Hb C1). exists m1. split; [done|].
  set (g := get_dinode (content m (iblock m (i_inum x))) (dinode_off (i_inum x))) in *.
  assert (mn_inodes m1 !! i = Some x) as Hi1 by (by rewrite (rd_inodes _ _ R1)).
  run (set_inode_mini i g x e m1 Hi1). cbn [kn_brelse kern_mini]. krun.
  set (m2 := m1 <| mn_inodes := <[i := g x]> (mn_inodes m1) |>).
  assert (mn_inodes m2 !! i = Some (g x)) as Hi2.
  { unfold m2, set. cbn [mn_inodes]. apply list_lookup_insert_eq. by eapply lookup_lt_Some. }
  erewrite bind_Ret by (by apply (set_inode_mini i _ (g x))).
  erewrite bind_Ret.
  2:{ apply (inode_mini i x'). unfold set at 1. cbn [mn_inodes]. apply list_lookup_insert_eq. by eapply lookup_lt_Some. }
  destruct (Z.eqb_spec (i_type x') 0); [done|]. krun. f_equal. unfold m2, set. cbn. f_equal.
  by rewrite list_insert_insert_eq, (rd_inodes _ _ R1).
Qed.

(** ** The free map *)

Lemma bit_set_set_bit bi bj data :
  0 ≤ bi → 0 ≤ bj → (Z.to_nat (bi / 8) < length data)%nat →
  bit_set (set_bit bi data) bj = (bi =? bj) || bit_set data bj.
Proof.
  intros Hi Hj Hl. unfold bit_set, set_bit. destruct (decide (bi / 8 = bj / 8)) as [E|E].
  - rewrite <- E, list_lookup_alter_eq. destruct (lookup_lt_is_Some_2 data _ Hl) as [x Hx]. rewrite Hx. cbn.
    rewrite Z.lor_spec, Z.shiftl_1_l, Z.pow2_bits_eqb by zlia. rewrite orb_comm. f_equal.
    destruct (Z.eqb_spec (bi mod 8) (bj mod 8)), (Z.eqb_spec bi bj); (done || zlia).
  - rewrite list_lookup_alter_ne by (intros H; apply E, Z2Nat.inj; zlia).
    destruct (Z.eqb_spec bi bj) as [->|]; [done|]. done.
Qed.

Lemma find_clear_spec data bi n :
  match find_clear data bi n with
  | Some k => bi ≤ k < bi + Z.of_nat n ∧ bit_set data k = false ∧ ∀ j, bi ≤ j < k → bit_set data j = true
  | None => ∀ j, bi ≤ j < bi + Z.of_nat n → bit_set data j = true
  end.
Proof.
  revert bi. induction n as [|n IH]; intros bi; cbn [find_clear]; [lia|].
  destruct (bit_set data bi) eqn:E.
  - specialize (IH (bi + 1)). destruct (find_clear data (bi + 1) n) as [k|].
    + destruct IH as (Hk & Hc & Hs). split_and!; [lia|lia|done|]. intros j Hj.
      destruct (decide (j = bi)) as [->|]; [done|]. apply Hs. lia.
    + intros j Hj. destruct (decide (j = bi)) as [->|]; [done|]. apply IH. lia.
  - split_and!; [lia|lia|done|]. intros j Hj. lia.
Qed.

Lemma length_set_bit bi data : length (set_bit bi data) = length data.
Proof. apply length_alter. Qed.

(** Block [b] is marked in use. *)
Definition used m (b : Z) : bool := bit_set (content m (BBLOCK b (mn_sb m))) (b mod BPB).

Section Balloc.
Variables (dev : Z) (e : list (mini → mini)) (m : mini).
Let sb := mn_sb m.
Let size := sb_size sb.

(** The free map covers the file system, lies inside it and is itself in use. *)
Record bitmap_ok : Prop := BitmapOk {
  bm_size : 0 ≤ size < 2 ^ 31 - BPB;
  bm_map : ∀ b, 0 ≤ b < size → 0 ≤ BBLOCK b sb < size ∧ used m (BBLOCK b sb) = true;
  bm_blocks : ∀ b, length (content m b) = Z.to_nat BSIZE;
}.

(** There is room in the log for two more blocks. *)
Definition log_room2 lg : Prop := lg_n lg + 1 < LOGSIZE ∧ lg_n lg + 1 < lg_size lg - 1 ∧ 1 ≤ lg_outstanding lg.

Hypothesis Hbm : bitmap_ok.
Hypothesis Hlog : log_ok (mn_log m).
Hypothesis Hroom : log_room2 (mn_log m).

(** [balloc] has allocated [r]: the first free block, now in use and zeroed. *)
Definition allocated (r : Z) (m' : mini) : Prop :=
  0 ≤ r < size ∧ used m r = false ∧ (∀ b, 0 ≤ b < r → used m b = true) ∧
  used m' r = true ∧ content m' r = replicate (Z.to_nat BSIZE) 0 ∧
  (∀ b, 0 ≤ b < size → b ≠ r → used m' b = used m b) ∧
  (∀ b, b ≠ r → b ≠ BBLOCK r sb → content m' b = content m b) ∧ mn_inodes m' = mn_inodes m.

Lemma BBLOCK_add b bi : b mod BPB = 0 → 0 ≤ bi < BPB → BBLOCK (b + bi) sb = BBLOCK b sb.
Proof. unfold BBLOCK, BPB, BSIZE. intros H1 H2. f_equal. f_equal. zlia. Qed.

Lemma bitmap_range b : 0 ≤ b < size → block_range (BBLOCK b sb).
Proof using Hbm.
  intros Hb. destruct (bm_map Hbm b Hb) as [H _]. pose proof (bm_size Hbm) as Hs. unfold block_range.
  change (2 ^ 31 - BPB) with 2147475456 in Hs. change (2 ^ 31) with 2147483648. lia.
Qed.

Lemma BBLOCK_inj b b' :
  0 ≤ b < size → 0 ≤ b' < size → BBLOCK b sb = BBLOCK b' sb → b mod BPB = b' mod BPB → b = b'.
Proof using Hbm.
  pose proof (bm_size Hbm) as Hs. change (2 ^ 31 - BPB) with 2147475456 in Hs.
  unfold BBLOCK, BPB, BSIZE, wrapu. change (1024 * 8) with 8192. change (2 ^ 32) with 4294967296.
  intros Hb Hb' E1 E2. assert (b / 8192 = b' / 8192); [|zlia].
  assert (0 ≤ b / 8192 < 2147483648) by zlia. assert (0 ≤ b' / 8192 < 2147483648) by zlia.
  generalize dependent (b / 8192). generalize dependent (b' / 8192). intros. zlia.
Qed.

(** What marking [r] and zeroing it does to the free map. *)
Lemma allocated_intro r m2 m4 :
  0 ≤ r < size → used m r = false → (∀ b, 0 ≤ b < r → used m b = true) →
  changed (BBLOCK r sb) (set_bit (r mod BPB) (content m (BBLOCK r sb))) m m2 →
  changed r (replicate (Z.to_nat BSIZE) 0) m2 m4 → allocated r m4.
Proof using Hbm.
  intros Hr Hfree Hbefore [_ K2 _ S2 I2 _] [_ K4 _ S4 I4 _]. assert (mn_sb m4 = sb) as Hsb by (unfold sb; congruence).
  assert (∀ b, 0 ≤ b < size → BBLOCK b sb ≠ r) as Hne.
  { intros b Hb E. destruct (bm_map Hbm b Hb) as [_ Hu]. rewrite E in Hu. by rewrite Hu in Hfree. }
  assert (∀ b, 0 ≤ b < size → used m4 b = (r =? b) || used m b) as Hused.
  { intros b Hb. unfold used. rewrite Hsb, K4, dupd_ne, K2 by (by apply Hne). fold sb.
    destruct (decide (BBLOCK b sb = BBLOCK r sb)) as [E|E].
    - rewrite E, dupd_eq. pose proof (bm_blocks Hbm (BBLOCK r sb)) as Hl. unfold BSIZE in Hl.
      rewrite bit_set_set_bit; [|unfold BPB, BSIZE; zlia|unfold BPB, BSIZE; zlia|rewrite Hl; unfold BPB, BSIZE; zlia].
      f_equal. destruct (Z.eqb_spec (r mod BPB) (b mod BPB)) as [Em|], (Z.eqb_spec r b) as [->|]; try done.
      by apply BBLOCK_inj in E.
    - rewrite dupd_ne by done. by destruct (Z.eqb_spec r b) as [->|]. }
  split_and!; [lia|lia|done|done| | |intros b Hb Hb'|intros b Hb Hb'|congruence].
  - by rewrite Hused, Z.eqb_refl.
  - by rewrite K4, dupd_eq.
  - rewrite Hused by done. by destruct (Z.eqb_spec r b).
  - by rewrite K4, dupd_ne, K2, dupd_ne.
Qed.

(** Block [r], the first free one, has been marked and zeroed, in this order. *)
Definition taken (r : Z) (m' : mini) : Prop :=
  0 ≤ r < size ∧ used m r = false ∧ (∀ b, 0 ≤ b < r → used m b = true) ∧
  ∃ m2, changed (BBLOCK r sb) (set_bit (r mod BPB) (content m (BBLOCK r sb))) m m2 ∧
        changed r (replicate (Z.to_nat BSIZE) 0) m2 m'.

Lemma taken_allocated r m' : taken r m' → allocated r m'.
Proof using Hbm. intros (Hr & Hf & Hb & m2 & C1 & C2). by eapply allocated_intro. Qed.

(** The block found is marked, logged and zeroed. *)
Lemma balloc_take r m1 :
  0 ≤ r < size → used m r = false → (∀ b, 0 ≤ b < r → used m b = true) → reads m m1 →
  mn_cache m1 !! BBLOCK r sb = Some (content m (BBLOCK r sb)) →
  ∃ m', taken r m' ∧
    ∀ A (k : KM mini A),
    (kn_set_data (Z.to_nat (BBLOCK r sb)) (set_bit (r mod BPB) (content m (BBLOCK r sb)));;
     log_write (Z.to_nat (BBLOCK r sb));; kn_brelse (Z.to_nat (BBLOCK r sb));; bzero dev r;; k) e m1 = k e m'.
Proof using Hbm Hlog Hroom.
  intros Hr Hfree Hbefore R C. pose proof (bitmap_range r Hr) as Hb.
  pose proof (bm_size Hbm) as Hs. change (2 ^ 31 - BPB) with 2147475456 in Hs.
  assert (block_range r) as Hrb by (unfold block_range; change (2 ^ 31) with 2147483648; lia).
  assert (log_room (mn_log m)) as Hr1 by (unfold log_room, log_room2 in *; lia).
  destruct (update_block _ (set_bit (r mod BPB) (content m (BBLOCK r sb))) e m m1 Hb Hlog Hr1 R C) as (m2 & Ch2 & E2).
  destruct (bread_reads dev r e m2 (proj1 Hr)) as (m3 & E3 & R3 & C3).
  destruct (update_block r (replicate (Z.to_nat BSIZE) 0) e m2 m3) as (m4 & Ch4 & E4); [done| | |done|done|].
  { rewrite (ch_log _ _ _ _ Ch2). by apply absorbed_ok. }
  { rewrite (ch_log _ _ _ _ Ch2). unfold log_room, log_room2, absorbed in *. destruct (decide _); [lia|].
    unfold set. cbn [lg_n lg_size lg_outstanding]. lia. }
  assert (bzero dev r e m2 = Ret () e m4) as Hz by (unfold bzero; run E3; by rewrite E4).
  exists m4. split; [split_and!; eauto; lia|]. intros A k. rewrite E2. cbn [kn_brelse kern_mini]. krun. by run Hz.
Qed.

(** The search, from block [b] on. *)
Lemma balloc_loop step :
  step = (λ b,
    if b <? sb_size sb then
      bp ← kn_bread dev (BBLOCK b sb);
      data ← kn_data bp;
      match find_clear data 0 (Z.to_nat (Z.min BPB (sb_size sb - b))) with
      | Some bi =>
          kn_set_data bp (set_bit bi data);;
          log_write bp;;
          kn_brelse bp;;
          bzero dev (b + bi);;
          mret (inr (Some (b + bi)))
      | None =>
          kn_brelse bp;;
          mret (inl (b + BPB))
      end
    else mret (inr None)) →
  ∀ n b m1, size - b ≤ Z.of_nat n → 0 ≤ b → b mod BPB = 0 →
  (∀ x, 0 ≤ x < Z.min b size → used m x = true) → reads m m1 →
  ∃ c r m', runs step b e m1 c r e m' ∧ c ≤ Z.of_nat n + 1 ∧
    match r with
    | Some r => taken r m'
    | None => (∀ x, 0 ≤ x < size → used m x = true) ∧ reads m m'
    end.
Proof using Hbm Hlog Hroom.
  intros Hstep n. induction n as [n IH] using lt_wf_ind. intros b m1 Hn Hb Ha Hu R.
  destruct (Z.lt_ge_cases b size) as [Hlt|Hge].
  2:{ exists 1, None, m1. split_and!; [|lia| |done].
      - apply runs_done. rewrite Hstep. unfold size in Hge. by destruct (Z.ltb_spec b (sb_size sb)); [lia|].
      - intros x Hx. apply Hu. lia. }
  pose proof (bitmap_range b ltac:(lia)) as Hbr.
  destruct (bread_reads dev (BBLOCK b sb) e m1 (proj1 Hbr)) as (m2 & E2 & R2 & C2).
  assert (reads m m2) as R' by (by etrans). rewrite (rd_content _ _ R) in C2.
  assert (step b e m1 =
    match find_clear (content m (BBLOCK b sb)) 0 (Z.to_nat (Z.min BPB (sb_size sb - b))) with
    | Some bi => (kn_set_data (Z.to_nat (BBLOCK b sb)) (set_bit bi (content m (BBLOCK b sb)));;
          log_write (Z.to_nat (BBLOCK b sb));; kn_brelse (Z.to_nat (BBLOCK b sb));; bzero dev (b + bi);;
          mret (inr (Some (b + bi)))) e m2
    | None => Ret (inl (b + BPB)) e m2
    end) as Hs.
  { rewrite Hstep. unfold size in Hlt. destruct (Z.ltb_spec b (sb_size sb)); [|lia]. run E2.
    run (data_mini _ _ e m2 (proj1 Hbr) C2). by destruct (find_clear _ _ _). }
  pose proof (find_clear_spec (content m (BBLOCK b sb)) 0 (Z.to_nat (Z.min BPB (sb_size sb - b)))) as Hf.
  assert (∀ bi, 0 ≤ bi < BPB → used m (b + bi) = bit_set (content m (BBLOCK b sb)) bi) as Hused.
  { intros bi Hbi. unfold used. fold sb. rewrite BBLOCK_add by done. f_equal.
    unfold BPB, BSIZE in *. change (1024 * 8) with 8192 in *. zlia. }
  assert (∀ j, 0 ≤ j < BPB → (∀ i, 0 ≤ i < j → bit_set (content m (BBLOCK b sb)) i = true) →
    ∀ x, 0 ≤ x < b + j → x < size → used m x = true) as Hbelow.
  { intros j Hj Hset x Hx Hxs. destruct (Z.lt_ge_cases x b); [apply Hu; lia|].
    replace x with (b + (x - b)) by lia. rewrite Hused by lia. apply Hset. lia. }
  unfold size in *. destruct (find_clear _ _ _) as [bi|].
  - destruct Hf as (Hbi & Hc & Hset). rewrite Z2Nat.id in Hbi by (unfold BPB, BSIZE; lia).
    assert ((b + bi) mod BPB = bi) as Hmod.
    { unfold BPB, BSIZE in *. change (1024 * 8) with 8192 in *. zlia. }
    destruct (balloc_take (b + bi) m2) as (m' & Hal & E); [unfold size; lia|by rewrite Hused by lia| |done| |].
    + intros x Hx. apply (Hbelow bi); [lia|done|lia|lia].
    + by rewrite BBLOCK_add by lia.
    + rewrite BBLOCK_add, Hmod in E by lia. rewrite E in Hs. exists 1, (Some (b + bi)), m'.
      split_and!; [by apply runs_done|lia|done].
  - rewrite Z2Nat.id in Hf by (unfold BPB, BSIZE; lia).
    assert (Z.to_nat BPB = 8192%nat) as HB by done. assert (BPB = 8192) as HB' by done.
    destruct (IH (n - Z.to_nat BPB)%nat ltac:(lia) (b + BPB) m2) as (c & r & m' & Hc & Hcn & Hr).
    + lia.
    + lia.
    + rewrite HB' in *. zlia.
    + intros x Hx. destruct (Z.lt_ge_cases x b); [apply Hu; lia|].
      replace x with (b + (x - b)) by lia. rewrite Hused by lia. apply Hf. lia.
    + done.
    + exists (c + 1), r, m'. split_and!; [by eapply runs_step|lia|done].
Qed.

Lemma balloc_run :
  ∃ r m', balloc dev e m = Ret r e m' ∧
    (taken r m' ∨ r = 0 ∧ (∀ b, 0 ≤ b < size → used m b = true) ∧ reads m m').
Proof using Hbm Hlog Hroom.
  pose proof (bm_size Hbm) as Hs. change (2 ^ 31 - BPB) with 2147475456 in Hs.
  destruct (balloc_loop _ eq_refl (Z.to_nat size) 0 m) as (c & r & m' & Hc & Hcn & Hr);
    [lia|lia|done|lia|done|].
  unfold balloc. cbn [kn_sb kern_mini]. krun. fold sb.
  erewrite bind_Ret; [|eapply while_runs; [exact Hc|change (2 ^ 64) with 18446744073709551616; lia]].
  destruct r as [r|].
  - exists r, m'. split; [done|]. by left.
  - cbn [kn_printk kern_mini]. krun. exists 0, m'. split; [done|]. right. by split.
Qed.
End Balloc.

(** ** Statements *)

(** C23: the blocks of a transaction.  [log_write] adds the block to the current
    transaction, or absorbs the write when the block is in it already, so that
    no block is logged twice and the log never holds more than LOGSIZE blocks;
    it panics when the log is full, and outside of a transaction. *)
Theorem log_write_correct b (e : list (mini → mini)) m :
  block_range b → log_ok (mn_log m) →
  (log_room (mn_log m) → ∃ m', log_write (Z.to_nat b) e m = Ret () e m' ∧ log_ok (mn_log m') ∧
     logged (mn_log m') = (if decide (b ∈ logged (mn_log m)) then logged (mn_log m) else logged (mn_log m) ++ [b]) ∧
     mn_disk m' = mn_disk m ∧ (∀ x, content m' x = content m x)) ∧
  (LOGSIZE ≤ lg_n (mn_log m) ∨ lg_size (mn_log m) - 1 ≤ lg_n (mn_log m) →
     log_write (Z.to_nat b) e m = Panic "too big a transaction" m) ∧
  (lg_n (mn_log m) < LOGSIZE → lg_n (mn_log m) < lg_size (mn_log m) - 1 → lg_outstanding (mn_log m) < 1 →
     log_write (Z.to_nat b) e m = Panic "log_write outside of trans" m).
Proof.
  intros Hb Hok. split_and!.
  - intros Hr. eexists. split; [by apply log_write_run|]. split_and!; [by apply absorbed_ok|by apply logged_absorbed|done|done].
  - intros Hfull. unfold log_write. cbn [kn_acquire kn_log kern_mini]. krun.
    destruct (Z.leb_spec LOGSIZE (lg_n (mn_log m))); [done|].
    destruct (Z.leb_spec (lg_size (mn_log m) - 1) (lg_n (mn_log m))); [done|lia].
  - intros H1 H2 H3. unfold log_write. cbn [kn_acquire kn_log kern_mini]. krun.
    destruct (Z.leb_spec LOGSIZE (lg_n (mn_log m))); [lia|].
    destruct (Z.leb_spec (lg_size (mn_log m) - 1) (lg_n (mn_log m))); [lia|]. cbn [orb].
    destruct (Z.ltb_spec (lg_outstanding (mn_log m)) 1); [done|lia].
Qed.

(** C9: inodes survive on disk.  After [iupdate] of an inode, [ilock] of any
    table entry for the same inode that has not been read yet gives it exactly
    the fields that were written; every other on-disk inode, in the same block or
    in another one, reads as before. *)
Theorem iupdate_ilock_roundtrip i ip (e : list (mini → mini)) m :
  mn_inodes m !! i = Some ip → inode_typed ip → i_type ip ≠ 0 → 0 ≤ i_inum ip →
  block_range (iblock m (i_inum ip)) → length (content m (iblock m (i_inum ip))) = Z.to_nat BSIZE →
  log_ok (mn_log m) → log_room (mn_log m) →
  ∃ m1, iupdate i e m = Ret () e m1 ∧
    (∀ j x, mn_inodes m1 !! j = Some x → i_inum x = i_inum ip → 1 ≤ i_ref x → i_valid x = false →
       ∃ m2, ilock j e m1 = Ret () e m2 ∧
         mn_inodes m2 !! j = Some (with_fields ip x <| i_valid := true |>)) ∧
    (∀ inum x, 0 ≤ inum → inum mod IPB ≠ i_inum ip mod IPB ∨ iblock m inum ≠ iblock m (i_inum ip) →
       get_dinode (content m1 (iblock m inum)) (dinode_off inum) x =
       get_dinode (content m (iblock m inum)) (dinode_off inum) x).
Proof.
  intros Hi Hty Htype Hin Hb Hlen Hok Hr. destruct (iupdate_run i ip e m Hi Hb Hok Hr) as (m1 & E & Ch).
  pose proof (dinode_off_range (i_inum ip) Hin) as Ho. change (Z.to_nat BSIZE) with 1024%nat in Hlen.
  assert (∀ n, iblock m1 n = iblock m n) as Hib by (intros; unfold iblock; by rewrite (ch_sb _ _ _ _ Ch)).
  exists m1. split_and!; [done| |].
  - intros j x Hj Hinum Href Hv.
    assert (get_dinode (content m1 (iblock m1 (i_inum x))) (dinode_off (i_inum x)) x = with_fields ip x) as Hg.
    { rewrite Hib, Hinum, (ch_content _ _ _ _ Ch), dupd_eq. apply get_put_dinode; [done|lia]. }
    destruct (ilock_run j x e m1) as (m2 & R & E2); [done|by rewrite Hib, Hinum; apply Hb|done|done|by rewrite Hg|].
    rewrite Hg in E2. eexists. split; [exact E2|]. unfold set at 1. cbn [mn_inodes].
    apply list_lookup_insert_eq. by eapply lookup_lt_Some.
  - intros inum x Hn Hd. pose proof (dinode_off_range inum Hn). rewrite (ch_content _ _ _ _ Ch).
    destruct (decide (iblock m inum = iblock m (i_inum ip))) as [Eb|Hne]; [|by rewrite dupd_ne].
    rewrite Eb, dupd_eq. destruct Hd as [Hd|]; [|done]. apply get_put_dinode_ne; [apply Hty|lia|done|done|done].
Qed.

(** C4: allocating a block.  [balloc] terminates.  It returns the first block
    that the free map shows as free, which is then marked in use and filled with
    zeros, all other blocks keeping their mark and, the free map apart, their
    content; or it returns 0, with nothing changed, when every block is in use. *)
Theorem balloc_correct dev (e : list (mini → mini)) m :
  bitmap_ok m → log_ok (mn_log m) → log_room2 (mn_log m) →
  ∃ r m', balloc dev e m = Ret r e m' ∧
    (allocated m r m' ∨ r = 0 ∧ (∀ b, 0 ≤ b < sb_size (mn_sb m) → used m b = true) ∧ reads m m').
Proof.
  intros Hb Hl Hr. destruct (balloc_run dev e m Hb Hl Hr) as (r & m' & E & H). exists r, m'. split; [done|].
  destruct H as [H|H]; [left|by right]. by apply taken_allocated.
Qed.

(** ** An example file system *)

(** 16 blocks: the free map in block 8, blocks 0 to 9 in use. *)
Definition ex_bitmap : list Z := splice (replicate 1024 0) 0 [255; 3].
Definition ex_fs : mini :=
  Mini (λ b, if b =? 8 then ex_bitmap else replicate 1024 0) [] ∅
    (Log 2 30 1 false 1 0 (replicate 30 0)) (Superblock FSMAGIC 16 6 20 4 2 6 8)
    (Inode 1 3 1 true T_FILE 0 0 1 700 (9 :: replicate 12 0) :: Inode 1 3 1 false 0 0 0 0 0 (replicate 13 0)
     :: replicate 48 inode0) [].

Lemma ex_fs_blocks b : length (content ex_fs b) = Z.to_nat BSIZE.
Proof.
  unfold content. cbn [mn_cache mn_disk ex_fs]. rewrite lookup_empty. cbn [default].
  by destruct (b =? 8); vm_compute.
Qed.

Lemma ex_fs_log : log_ok (mn_log ex_fs) ∧ log_room2 (mn_log ex_fs).
Proof.
  unfold log_room2, LOGSIZE, MAXOPBLOCKS. cbn [mn_log ex_fs lg_n lg_size lg_outstanding]. split; [|lia].
  split; [unfold LOGSIZE, MAXOPBLOCKS; cbn; lia|reflexivity|apply NoDup_nil_2|apply Forall_nil_2].
Qed.

Lemma ex_fs_room : log_room (mn_log ex_fs).
Proof. unfold log_room, LOGSIZE, MAXOPBLOCKS. cbn. lia. Qed.

Lemma ex_fs_bitmap : bitmap_ok ex_fs.
Proof.
  split; [vm_compute; split; [discriminate|reflexivity]| |apply ex_fs_blocks].
  cbn [mn_sb ex_fs sb_size]. intros b Hb.
  assert (BBLOCK b (Superblock FSMAGIC 16 6 20 4 2 6 8) = 8) as ->.
  { unfold BBLOCK, BPB, BSIZE. cbn [sb_bmapstart]. rewrite (Z.div_small b) by lia. reflexivity. }
  split; [lia|]. vm_compute. reflexivity.
Qed.

Lemma log_write_correct_witness :
  ∃ m', log_write (Z.to_nat 9) [] ex_fs = Ret () [] m' ∧ logged (mn_log m') = [9].
Proof.
  assert (block_range 9) as Hb by (unfold block_range; lia).
  destruct (proj1 (log_write_correct 9 [] ex_fs Hb (proj1 ex_fs_log)) ex_fs_room) as (m' & E & _ & Hl & _). exists m'. split; [exact E|exact Hl].
Defined.

Lemma iupdate_ilock_roundtrip_witness :
  ∃ m1 m2 x, iupdate 0%nat [] ex_fs = Ret () [] m1 ∧ ilock 1%nat [] m1 = Ret () [] m2 ∧
    mn_inodes m2 !! 1%nat = Some x ∧ i_size x = 700.
Proof.
  destruct (iupdate_ilock_roundtrip 0%nat (Inode 1 3 1 true T_FILE 0 0 1 700 (9 :: replicate 12 0)) [] ex_fs)
    as (m1 & E1 & H & _).
  - reflexivity.
  - split; [cbn; unfold T_FILE; lia|cbn; lia|cbn; lia|cbn; lia|cbn; lia|]. split; [reflexivity|].
    apply Forall_cons_2; [lia|]. apply Forall_replicate. lia.
  - discriminate.
  - discriminate.
  - vm_compute. split; [discriminate|reflexivity].
  - apply ex_fs_blocks.
  - apply ex_fs_log.
  - apply ex_fs_room.
  - destruct (H 1%nat (Inode 1 3 1 false 0 0 0 0 0 (replicate 13 0))) as (m2 & E2 & Hx).
    + assert (iupdate 0%nat [] ex_fs = Ret () [] m1) as E by exact E1. clear -E.
      assert (∃ m, iupdate 0%nat [] ex_fs = Ret () [] m ∧ mn_inodes m !! 1%nat = Some (Inode 1 3 1 false 0 0 0 0 0 (replicate 13 0)))
        as (m & E' & Hm) by (eexists; split; [vm_compute; reflexivity|reflexivity]).
      congruence.
    + reflexivity.
    + cbn. lia.
    + reflexivity.
    + exists m1, m2, (with_fields (Inode 1 3 1 true T_FILE 0 0 1 700 (9 :: replicate 12 0))
        (Inode 1 3 1 false 0 0 0 0 0 (replicate 13 0)) <| i_valid := true |>).
      split; [exact E1|]. split; [exact E2|]. split; [exact Hx|reflexivity].
Defined.

Lemma balloc_correct_witness :
  ∃ r m', balloc 1 [] ex_fs = Ret r [] m' ∧ allocated ex_fs 10 m' ∧ r = 10.
Proof.
  destruct (balloc_correct 1 [] ex_fs) as (r & m' & E & H); [apply ex_fs_bitmap|apply ex_fs_log|apply ex_fs_log|].
  destruct H as [H|(_ & H & _)].
  - exists r, m'. assert (r = 10) as ->; [|split; [exact E|split; [exact H|reflexivity]]].
    destruct H as ((H1 & H2) & Hf & Hb & _). destruct (Z.lt_trichotomy r 10) as [Hl|[->|Hl]]; [|reflexivity|].
    + assert (r = 0 ∨ r = 1 ∨ r = 2 ∨ r = 3 ∨ r = 4 ∨ r = 5 ∨ r = 6 ∨ r = 7 ∨ r = 8 ∨ r = 9) as Hr by lia.
      exfalso. clear -Hf Hr. by destruct Hr as [->|[->|[->|[->|[->|[->|[->|[->|[->| ->]]]]]]]]]; vm_compute in Hf.
    + exfalso. specialize (Hb 10 ltac:(lia)). vm_compute in Hb. discriminate.
  - exfalso. specialize (H 10 ltac:(cbn; lia)). vm_compute in H. discriminate.
Defined.
