(* ===== verification/FsFile.v ===== *)
(** * FsFile: the blocks of a file

    A file owns up to 269 blocks: 12 that its inode points to, the indirect
    block, and the 256 that the indirect block points to.  The invariant of a
    file says that these are data blocks in use, all different; [bmap] keeps it
    when it allocates. *)

From S2P Require Import Prelude Params CString State Spinlock PhysMem Kalloc Vm ProcBase Sleeplock Virtio Bio Blocks Bytes Log LogCrash Fs FsRead FsWrite.

Implicit Types (m : mini) (ip : inode) (lg : log).

(** ** Places

    Places 0 to 11 are the direct blocks, 12 is the indirect block, 13 to 268
    are its entries. *)
Definition places : Z := 269.
Definition place (bn : Z) : Z := if bn <? 12 then bn else bn + 1.

Definition addr ip (k : Z) : Z := default 0 (i_addrs ip !! Z.to_nat k).

(** The block at a place, 0 when there is none. *)
Definition fref m ip (k : Z) : Z :=
  if k <=? 12 then addr ip k
  else if addr ip 12 =? 0 then 0
  else get_le (content m (addr ip 12)) (Z.to_nat (4 * (k - 13))) 4.

Lemma place_range bn : 0 ≤ bn < 268 → 0 ≤ place bn < places ∧ place bn ≠ 12.
Proof. intros Hb. unfold place, places. destruct (Z.ltb_spec bn 12); lia. Qed.

Lemma place_inj bn bn' : place bn = place bn' → bn = bn'.
Proof. unfold place. destruct (Z.ltb_spec bn 12), (Z.ltb_spec bn' 12); lia. Qed.

Lemma fref_fblock m ip bn : 0 ≤ bn < 268 → fref m ip (place bn) ≠ 0 → fblock m ip bn = fref m ip (place bn).
Proof.
  intros Hb H0. unfold fblock, place in *. change (Z.of_nat NDIRECT) with 12. change NDIRECT with (Z.to_nat 12). fold (addr ip bn) (addr ip 12).
  unfold fref in *. destruct (Z.ltb_spec bn 12).
  - destruct (Z.leb_spec bn 12); [done|lia].
  - destruct (Z.leb_spec (bn + 1) 12); [lia|]. destruct (addr ip 12 =? 0); [done|]. f_equal. lia.
Qed.

Lemma fref_12 m ip : fref m ip 12 = addr ip 12.
Proof. done. Qed.

Lemma fref_ind m ip k : 12 < k → fref m ip k ≠ 0 → addr ip 12 ≠ 0.
Proof. intros Hk. unfold fref. destruct (Z.leb_spec k 12); [lia|]. destruct (Z.eqb_spec (addr ip 12) 0); congruence. Qed.

(** The references depend on the addresses and the content of the indirect block. *)
Lemma fref_ext m m' ip ip' k : i_addrs ip' = i_addrs ip → (addr ip 12 ≠ 0 → content m' (addr ip 12) = content m (addr ip 12)) →
  fref m' ip' k = fref m ip k.
Proof.
  intros Ha Hc. unfold fref, addr in *. rewrite Ha. destruct (k <=? 12); [done|].
  destruct (Z.eqb_spec (default 0 (i_addrs ip !! Z.to_nat 12)) 0) as [|H0]; [done|]. by rewrite Hc.
Qed.

(** ** Invariants *)

(** The block of the free map: the file system is small enough to have one. *)
Definition map_block m : Z := BBLOCK 0 (mn_sb m).

Record fs_ok m : Prop := FsOk {
  fs_map : bitmap_ok m;
  fs_small : 0 < sb_size (mn_sb m) ≤ BPB;
  fs_boot : used m 0 = true;
  fs_log : log_ok (mn_log m);
}.

(** The file of [ip], whose blocks are apart from block [ib]. *)
Record file_inv (ib : Z) m ip : Prop := FileInv {
  fv_addrs : length (i_addrs ip) = 13%nat;
  fv_range : ∀ k, 0 ≤ k < places → fref m ip k ≠ 0 →
    0 < fref m ip k < sb_size (mn_sb m) ∧ used m (fref m ip k) = true ∧ fref m ip k ≠ map_block m ∧ fref m ip k ≠ ib;
  fv_inj : ∀ k k', 0 ≤ k < places → 0 ≤ k' < places → fref m ip k ≠ 0 → fref m ip k = fref m ip k' → k = k';
}.

(** The blocks that a file of [size] bytes needs are there. *)
Definition covers m ip (size : Z) : Prop := ∀ bn, 0 ≤ bn → bn * BSIZE < size → fref m ip (place bn) ≠ 0.

Lemma map_one m b : fs_ok m → 0 ≤ b < sb_size (mn_sb m) → BBLOCK b (mn_sb m) = map_block m.
Proof.
  intros Hf Hb. pose proof (fs_small _ Hf) as Hs. unfold map_block, BBLOCK. rewrite !Z.div_small by (change BPB with 8192 in *; lia). done.
Qed.

Lemma map_block_used m : fs_ok m → 0 ≤ map_block m < sb_size (mn_sb m) ∧ used m (map_block m) = true.
Proof. intros Hf. apply (bm_map _ (fs_map _ Hf)). pose proof (fs_small _ Hf). lia. Qed.

Lemma fs_size m : fs_ok m → 0 < sb_size (mn_sb m) ≤ 8192.
Proof. intros Hf. exact (fs_small _ Hf). Qed.

Lemma fs_block_range m b : fs_ok m → 0 ≤ b < sb_size (mn_sb m) → block_range b.
Proof. intros Hf Hb. pose proof (fs_size _ Hf). unfold block_range. change (2 ^ 31) with 2147483648. lia. Qed.

(** Reading changes none of this. *)
Lemma used_reads m m' b : reads m m' → used m' b = used m b.
Proof. intros R. unfold used. by rewrite (rd_sb _ _ R), (rd_content _ _ R). Qed.

Lemma fs_ok_reads m m' : reads m m' → fs_ok m → fs_ok m'.
Proof.
  intros R [[B1 B2 B3] S Bo L]. split.
  - split; rewrite ?(rd_sb _ _ R); [done| |].
    + intros b Hb. rewrite (used_reads _ _ _ R). by apply B2.
    + intros b. by rewrite (rd_content _ _ R).
  - by rewrite (rd_sb _ _ R).
  - by rewrite (used_reads _ _ _ R).
  - by rewrite (rd_log _ _ R).
Qed.

Lemma fref_reads m m' ip k : reads m m' → fref m' ip k = fref m ip k.
Proof. intros R. apply fref_ext; [done|]. intros _. apply (rd_content _ _ R). Qed.

Lemma file_inv_reads ib m m' ip : reads m m' → file_inv ib m ip → file_inv ib m' ip.
Proof.
  intros R [A B C]. split; [done| |].
  - intros k Hk. unfold map_block. rewrite (fref_reads m m'), (rd_sb _ _ R), (used_reads _ _ _ R) by done. by apply B.
  - intros k k'. rewrite !(fref_reads m m') by done. apply C.
Qed.

(** ** Changing a block *)

Lemma logged_length lg : log_ok lg → length (logged lg) = Z.to_nat (lg_n lg).
Proof. intros [Hn Hl _ _]. unfold logged. rewrite length_take, Hl. lia. Qed.

(** The log holds at most the blocks it held before and the ones of [T]. *)
Lemma log_count lg lg' (T : list Z) : log_ok lg → log_ok lg' → (∀ b, b ∈ logged lg' → b ∈ logged lg ∨ b ∈ T) →
  lg_n lg' ≤ lg_n lg + Z.of_nat (length T).
Proof.
  intros Hok Hok' HT. assert (logged lg' ⊆+ logged lg ++ T) as Hs.
  { apply NoDup_submseteq; [apply (lo_nodup _ Hok')|]. intros b Hb. apply elem_of_app. by apply HT. }
  apply submseteq_length in Hs. rewrite length_app, !logged_length in Hs by done.
  pose proof (lo_n _ Hok). pose proof (lo_n _ Hok'). lia.
Qed.

Lemma logged_changed b v m m' x : changed b v m m' → log_ok (mn_log m) → log_room (mn_log m) →
  x ∈ logged (mn_log m') → x ∈ logged (mn_log m) ∨ x = b.
Proof.
  intros Ch Hok Hr. rewrite (ch_log _ _ _ _ Ch), logged_absorbed by done. destruct (decide _); [by left|].
  rewrite elem_of_app, list_elem_of_singleton. done.
Qed.

Lemma absorbed_size b lg : lg_size (absorbed b lg) = lg_size lg ∧ lg_outstanding (absorbed b lg) = lg_outstanding lg.
Proof. unfold absorbed. by destruct (decide _). Qed.

Section Changed.
Variables (b : Z) (v : list Z) (m m' : mini).
Hypothesis Hch : changed b v m m'.
Hypothesis Hf : fs_ok m.

Lemma changed_ne x : x ≠ b → content m' x = content m x.
Proof using Hch. intros Hx. by rewrite (ch_content _ _ _ _ Hch), dupd_ne. Qed.
Lemma changed_eq : content m' b = v.
Proof using Hch. by rewrite (ch_content _ _ _ _ Hch), dupd_eq. Qed.

Lemma changed_used x : b ≠ map_block m → 0 ≤ x < sb_size (mn_sb m) → used m' x = used m x.
Proof using Hch Hf.
  intros Hb Hx. unfold used. rewrite (ch_sb _ _ _ _ Hch), (map_one m x Hf Hx), changed_ne by done. done.
Qed.

Lemma changed_fs_ok : b ≠ map_block m → length v = 1024%nat → block_range b → log_room (mn_log m) → fs_ok m'.
Proof using Hch Hf.
  intros Hb Hv Hrb Hr. pose proof (fs_size _ Hf). pose proof (ch_sb _ _ _ _ Hch) as Es. split.
  - split.
    + rewrite Es. apply (bm_size _ (fs_map _ Hf)).
    + rewrite Es. intros x Hx. pose proof (bm_map _ (fs_map _ Hf) x Hx) as [H1 H2]. by rewrite changed_used.
    + intros x. rewrite (ch_content _ _ _ _ Hch). unfold dupd. destruct (x =? b); [done|]. apply (bm_blocks _ (fs_map _ Hf)).
  - rewrite Es. apply (fs_small _ Hf).
  - rewrite changed_used by (done || lia). apply (fs_boot _ Hf).
  - rewrite (ch_log _ _ _ _ Hch). apply absorbed_ok; [done|apply (fs_log _ Hf)|done].
Qed.

Lemma changed_map : map_block m' = map_block m.
Proof using Hch. unfold map_block. by rewrite (ch_sb _ _ _ _ Hch). Qed.
End Changed.

(** ** Allocating a block *)

Section Taken.
Variables (r : Z) (m m' : mini).
Hypothesis Ht : taken m r m'.
Hypothesis Hf : fs_ok m.
Hypothesis Hroom : log_room2 (mn_log m).

Lemma taken_range : 0 < r < sb_size (mn_sb m) ∧ used m r = false.
Proof using Ht Hf.
  destruct Ht as (Hr & Hu & _). split; [|done]. destruct (decide (r = 0)) as [->|]; [|lia].
  by rewrite (fs_boot _ Hf) in Hu.
Qed.

Lemma room2_room lg : log_room2 lg → log_room lg.
Proof using. unfold log_room2, log_room. lia. Qed.

Lemma taken_sb : mn_sb m' = mn_sb m ∧ mn_inodes m' = mn_inodes m ∧ mn_disk m' = mn_disk m.
Proof using Ht. destruct Ht as (_ & _ & _ & m2 & [] & []). split_and!; congruence. Qed.

Lemma taken_used x : 0 ≤ x < sb_size (mn_sb m) → used m' x = (r =? x) || used m x.
Proof using Ht Hf.
  intros Hx. destruct (taken_allocated m (fs_map _ Hf) r m' Ht) as (_ & _ & _ & H1 & _ & H2 & _).
  destruct (Z.eqb_spec r x) as [->|Hne]; [done|]. by apply H2.
Qed.

Lemma taken_content x : x ≠ map_block m → content m' x = if x =? r then replicate 1024 0 else content m x.
Proof using Ht Hf.
  intros Hx. destruct taken_range as [Hr _].
  destruct (taken_allocated m (fs_map _ Hf) r m' Ht) as (_ & _ & _ & _ & H1 & _ & H2 & _).
  destruct (Z.eqb_spec x r) as [->|Hne]; [done|]. apply H2; [done|]. by rewrite (map_one m r Hf) by lia.
Qed.

Lemma taken_logs : log_ok (mn_log m') ∧ lg_size (mn_log m') = lg_size (mn_log m) ∧ lg_outstanding (mn_log m') = lg_outstanding (mn_log m) ∧
  (∀ x, x ∈ logged (mn_log m') → x ∈ logged (mn_log m) ∨ x = map_block m ∨ x = r).
Proof using Ht Hf Hroom.
  pose proof taken_range as [Hr _]. pose proof (room2_room _ Hroom) as Hr1. destruct Ht as (_ & _ & _ & m2 & C1 & C2).
  rewrite (map_one m r Hf) in C1 by lia.
  assert (log_ok (mn_log m2)) as Hl2.
  { rewrite (ch_log _ _ _ _ C1). apply absorbed_ok; [|apply (fs_log _ Hf)|done]. apply (fs_block_range m _ Hf), (map_block_used m Hf). }
  assert (log_room (mn_log m2)) as Hr2.
  { rewrite (ch_log _ _ _ _ C1). unfold log_room, log_room2, absorbed in *. destruct (decide _); [lia|]. unfold set. cbn [lg_n lg_size lg_outstanding]. lia. }
  rewrite (ch_log _ _ _ _ C2). split_and!.
  - apply absorbed_ok; [by apply (fs_block_range m _ Hf); lia|done|done].
  - rewrite (proj1 (absorbed_size r _)), (ch_log _ _ _ _ C1). apply absorbed_size.
  - rewrite (proj2 (absorbed_size r _)), (ch_log _ _ _ _ C1). apply absorbed_size.
  - intros x Hx. rewrite <- (ch_log _ _ _ _ C2) in Hx. destruct (logged_changed _ _ _ _ x C2 Hl2 Hr2 Hx) as [Hx2| ->]; [|by auto].
    destruct (logged_changed _ _ _ _ x C1 (fs_log _ Hf) Hr1 Hx2) as [| ->]; auto.
Qed.

Lemma taken_fs_ok : fs_ok m'.
Proof using Ht Hf Hroom.
  pose proof taken_range as [Hr _]. pose proof taken_sb as (Es & _). split.
  - split.
    + rewrite Es. apply (bm_size _ (fs_map _ Hf)).
    + rewrite Es. intros x Hx. pose proof (bm_map _ (fs_map _ Hf) x Hx) as [H1 H2]. split; [done|].
      rewrite taken_used, H2 by done. apply orb_true_r.
    + intros x. destruct Ht as (_ & _ & _ & m2 & C1 & C2). rewrite (ch_content _ _ _ _ C2). unfold dupd. destruct (x =? r); [done|].
      rewrite (ch_content _ _ _ _ C1). unfold dupd. destruct (x =? _); [rewrite length_set_bit|]; apply (bm_blocks _ (fs_map _ Hf)).
  - rewrite Es. apply (fs_small _ Hf).
  - rewrite taken_used by lia. rewrite (fs_boot _ Hf). apply orb_true_r.
  - apply taken_logs.
Qed.

(** A block in the cache stays there, with what it reads as. *)
Lemma taken_cache x : is_Some (mn_cache m !! x) → mn_cache m' !! x = Some (content m' x).
Proof using Ht.
  intros Hx. apply cache_content. destruct Ht as (_ & _ & _ & m2 & C1 & C2).
  by apply (ch_cache _ _ _ _ C2), (ch_cache _ _ _ _ C1).
Qed.

Lemma taken_map : map_block m' = map_block m.
Proof using Ht. unfold map_block. by rewrite (proj1 taken_sb). Qed.

(** The new block is none that is in use. *)
Lemma taken_ne x : used m x = true → x ≠ r.
Proof using Ht Hf. intros Hu ->. destruct taken_range as [_ H]. by rewrite Hu in H. Qed.
End Taken.

(** ** What writing to a file does to the file system *)

Record evolves m ip m' ip' : Prop := Evolves {
  ev_disk : mn_disk m' = mn_disk m;
  ev_sb : mn_sb m' = mn_sb m;
  ev_size : lg_size (mn_log m') = lg_size (mn_log m) ∧ lg_outstanding (mn_log m') = lg_outstanding (mn_log m);
  ev_ip : ip' = ip <| i_addrs := i_addrs ip' |>;
  ev_ref : ∀ k, 0 ≤ k < places → fref m ip k ≠ 0 → fref m' ip' k = fref m ip k;
  ev_new : ∀ k, 0 ≤ k < places → fref m ip k = 0 → fref m' ip' k ≠ 0 →
    0 < fref m' ip' k < sb_size (mn_sb m) ∧ used m (fref m' ip' k) = false;
  ev_used : ∀ b, 0 ≤ b < sb_size (mn_sb m) → used m b = true → used m' b = true;
  ev_other : ∀ b, 0 ≤ b < sb_size (mn_sb m) → used m b = true → b ≠ map_block m →
    (∀ k, 0 ≤ k < places → fref m ip k ≠ 0 → fref m ip k ≠ b) → content m' b = content m b;
}.

Lemma fs_evolves_refl m ip : evolves m ip m ip.
Proof. split; try done. by destruct ip. Qed.

Lemma fs_evolves_trans m1 ip1 m2 ip2 m3 ip3 : evolves m1 ip1 m2 ip2 → evolves m2 ip2 m3 ip3 → evolves m1 ip1 m3 ip3.
Proof.
  intros [D1 S1 Z1 P1 R1 N1 U1 O1] [D2 S2 Z2 P2 R2 N2 U2 O2]. split.
  - congruence.
  - congruence.
  - destruct Z1, Z2. split; congruence.
  - rewrite P2, P1 at 1. done.
  - intros k Hk H0. rewrite <- (R1 k Hk H0). apply R2; [done|]. by rewrite R1.
  - intros k Hk H0 H3. destruct (decide (fref m2 ip2 k = 0)) as [H2|H2].
    + destruct (N2 k Hk H2 H3) as [Hr Hu]. rewrite S1 in Hr. split; [done|].
      destruct (used m1 (fref m3 ip3 k)) eqn:E; [|done]. rewrite U1 in Hu; [done|lia|done].
    + rewrite (R2 k Hk H2) in *. by apply N1.
  - intros b Hb Hu. apply U2; [by rewrite S1|]. by apply U1.
  - intros b Hb Hu Hm Hk. rewrite <- (O1 b Hb Hu Hm Hk). apply O2.
    + by rewrite S1.
    + by apply U1.
    + unfold map_block. by rewrite S1.
    + intros k Hk' H0 E. destruct (decide (fref m1 ip1 k = 0)) as [H1|H1].
      * destruct (N1 k Hk' H1 H0) as [_ Hf]. rewrite E in Hf. congruence.
      * apply (Hk k Hk' H1). by rewrite <- (R1 k Hk' H1).
Qed.

Lemma evolves_reads m ip m1 m2 ip2 : reads m m1 → evolves m1 ip m2 ip2 → evolves m ip m2 ip2.
Proof.
  intros R E. apply (fs_evolves_trans m ip m1 ip); [|done]. split.
  - apply R.
  - apply R.
  - by rewrite (rd_log _ _ R).
  - by destruct ip.
  - intros k _ _. by apply fref_reads.
  - intros k _ H0 H1. by rewrite (fref_reads m m1) in H1.
  - intros b _. by rewrite (used_reads _ _ _ R).
  - intros b _ _ _ _. apply R.
Qed.

(** Place [k] of the file has got a block; its other blocks are as they were. *)
Record grown (ib : Z) m ip (k : Z) m' ip' : Prop := Grown {
  gr_fs : fs_ok m';
  gr_inv : file_inv ib m' ip';
  gr_ev : evolves m ip m' ip';
  gr_new : fref m' ip' k ≠ 0;
  gr_only : ∀ k', 0 ≤ k' < places → k' ≠ k → fref m' ip' k' = fref m ip k';
  gr_data : ∀ k', 0 ≤ k' < places → k' ≠ 12 → fref m ip k' ≠ 0 → content m' (fref m ip k') = content m (fref m ip k');
  gr_log : ∀ x, x ∈ logged (mn_log m') → x ∈ logged (mn_log m) ∨ x = map_block m ∨ x = fref m' ip' k ∨ x = fref m' ip' 12 ∧ x ≠ 0;
}.

(** An inode with another address, a machine with another inode table. *)
Definition with_addr (k : nat) (a : Z) ip : inode := ip <| i_addrs ::= insert k a |>.
Definition with_inodes (l : list inode) m : mini := m <| mn_inodes := l |>.

Section Grow.
Variables (ib : Z) (m : mini) (ip : inode) (r : Z) (m1 : mini).
Hypothesis Hf : fs_ok m.
Hypothesis Hi : file_inv ib m ip.
Hypothesis Hib : 0 ≤ ib < sb_size (mn_sb m) ∧ used m ib = true.
Hypothesis Ht : taken m r m1.
Hypothesis Hroom : log_room2 (mn_log m).

Lemma grow_apart k : 0 ≤ k < places → fref m ip k ≠ 0 → fref m ip k ≠ r ∧ fref m ip k ≠ map_block m.
Proof using Hf Hi Ht.
  intros Hk H0. destruct (fv_range _ _ _ Hi k Hk H0) as (_ & Hu & Hm & _). split; [|done].
  by apply (taken_ne r m m1 Ht Hf).
Qed.

Lemma grow_new : r ≠ map_block m ∧ r ≠ ib.
Proof using Hf Hib Ht.
  pose proof (map_block_used m Hf) as [_ Hu]. split; intros E; symmetry in E; revert E; apply (taken_ne r m m1 Ht Hf); [done|apply Hib].
Qed.

Lemma grow_content k : 0 ≤ k < places → fref m ip k ≠ 0 → content m1 (fref m ip k) = content m (fref m ip k).
Proof using Hf Hi Ht.
  intros Hk H0. destruct (grow_apart k Hk H0) as [H1 H2]. rewrite (taken_content r m m1 Ht Hf) by done.
  by destruct (Z.eqb_spec (fref m ip k) r).
Qed.

Lemma grow_ref k : 0 ≤ k < places → fref m1 ip k = fref m ip k.
Proof using Hf Hi Ht. intros Hk. apply fref_ext; [done|]. intros H0. apply (grow_content 12); [unfold places; lia|done]. Qed.

(** How the new reference in place [k], and no other, keeps the invariant. *)
Lemma grow_inv m2 ip' k : 0 ≤ k < places → fref m ip k = 0 → length (i_addrs ip') = 13%nat →
  mn_sb m2 = mn_sb m → (∀ x, 0 ≤ x < sb_size (mn_sb m) → used m2 x = used m1 x) →
  fref m2 ip' k = r → (∀ k', 0 ≤ k' < places → k' ≠ k → fref m2 ip' k' = fref m ip k') → file_inv ib m2 ip'.
Proof using Hf Hi Hib Ht.
  intros Hk H0 Hl Hsb Hu Hkr Ho. destruct (taken_range r m m1 Ht Hf) as [Hr _]. destruct grow_new as [G1 G2]. split; [done| |].
  - intros k' Hk' H0'. unfold map_block. rewrite Hsb. fold (map_block m). destruct (decide (k' = k)) as [->|Hne].
    + rewrite Hkr. split_and!; [lia|lia| |done|done]. rewrite Hu, (taken_used r m m1 Ht Hf), Z.eqb_refl by lia. done.
    + rewrite Ho in * by done. destruct (fv_range _ _ _ Hi k' Hk' H0') as (A & B & C & D). split_and!; [lia|lia| |done|done].
      rewrite Hu, (taken_used r m m1 Ht Hf), B by lia. apply orb_true_r.
  - intros a b Ha Hb. destruct (decide (a = k)) as [->|Hak], (decide (b = k)) as [->|Hbk]; [done| | |].
    + rewrite Hkr, (Ho b) by done. intros _ E. destruct (decide (fref m ip b = 0)) as [E0|E0]; [lia|].
      destruct (grow_apart b Hb E0). congruence.
    + rewrite Hkr, (Ho a) by done. intros E0 E. destruct (grow_apart a Ha E0). congruence.
    + rewrite !Ho by done. by apply (fv_inj _ _ _ Hi).
Qed.

(** One of the addresses of the inode. *)
Lemma grow_direct k l : 0 ≤ k ≤ 12 → fref m ip k = 0 →
  grown ib m ip k (with_inodes l m1) (with_addr (Z.to_nat k) r ip).
Proof using Hf Hi Hib Ht Hroom.
  intros Hk H0. set (m2 := with_inodes l m1). set (ip' := with_addr (Z.to_nat k) r ip).
  destruct (taken_range r m m1 Ht Hf) as [Hr Hur]. pose proof (fv_addrs _ _ _ Hi) as Hl. pose proof grow_new as [G1 G2].
  destruct (taken_sb r m m1 Ht) as (Sb & _ & Dk). destruct (taken_logs r m m1 Ht Hf Hroom) as (_ & Z1 & Z2 & HL).
  assert (fs_ok m2) as F2 by (destruct (taken_fs_ok r m m1 Ht Hf Hroom) as [[] ? ? ?]; done).
  assert (∀ k', 0 ≤ k' ≤ 12 → addr ip' k' = if k' =? k then r else addr ip k') as Ha.
  { intros k' Hk'. unfold addr, ip', with_addr, set. cbn [i_addrs]. destruct (Z.eqb_spec k' k) as [->|Hne].
    - rewrite list_lookup_insert_eq by (rewrite Hl; lia). done.
    - rewrite list_lookup_insert_ne by lia. done. }
  assert (fref m2 ip' k = r) as Hkr by (unfold fref; destruct (Z.leb_spec k 12); [|lia]; rewrite Ha, Z.eqb_refl by lia; done).
  assert (∀ k', 0 ≤ k' < places → k' ≠ k → fref m2 ip' k' = fref m ip k') as Ho.
  { intros k' Hk' Hne. destruct (Z.le_gt_cases k' 12).
    - unfold fref. destruct (Z.leb_spec k' 12); [|lia]. rewrite Ha by lia. by destruct (Z.eqb_spec k' k).
    - destruct (decide (k = 12)) as [->|Hk12].
      + rewrite fref_12 in H0. unfold fref. destruct (Z.leb_spec k' 12); [lia|]. rewrite Ha, Z.eqb_refl, H0 by lia. cbn [Z.eqb].
        destruct (Z.eqb_spec r 0); [lia|]. change (content m2 r) with (content m1 r).
        rewrite (taken_content r m m1 Ht Hf), Z.eqb_refl by done. apply get_zeros.
      + rewrite <- (grow_ref k') by done. unfold fref. destruct (Z.leb_spec k' 12); [lia|]. rewrite Ha by lia.
        destruct (Z.eqb_spec 12 k); [congruence|]. done. }
  split.
  - done.
  - apply (grow_inv m2 ip' k); [unfold places; lia|done| |done|done|done|done].
    unfold ip', with_addr, set. cbn [i_addrs]. by rewrite length_insert.
  - split.
    + done.
    + done.
    + done.
    + done.
    + intros k' Hk' H1. apply Ho; [done|congruence].
    + intros k' Hk' H1 H2. destruct (decide (k' = k)) as [->|Hne]; [by rewrite Hkr|]. by rewrite Ho in H2.
    + intros b Hb Hu. change (used m1 b = true). rewrite (taken_used r m m1 Ht Hf), Hu by done. apply orb_true_r.
    + intros b Hb Hu Hm _. change (content m1 b = content m b). rewrite (taken_content r m m1 Ht Hf) by done.
      pose proof (taken_ne r m m1 Ht Hf b Hu). by destruct (Z.eqb_spec b r).
  - rewrite Hkr. lia.
  - done.
  - intros k' Hk' _ H1. by apply grow_content.
  - intros x Hx. rewrite Hkr. destruct (HL x Hx) as [|[|]]; auto.
Qed.

(** An entry of the indirect block. *)
Lemma grow_entry k m2 : 12 < k < places → addr ip 12 ≠ 0 → fref m ip k = 0 → log_room (mn_log m1) →
  changed (addr ip 12) (put32 (content m1 (addr ip 12)) (Z.to_nat (4 * (k - 13))) r) m1 m2 → grown ib m ip k m2 ip.
Proof using Hf Hi Hib Ht Hroom.
  intros Hk Ha H0 Hr1 Ch. set (ind := addr ip 12) in *. unfold places in Hk.
  destruct (taken_range r m m1 Ht Hf) as [Hr Hur]. pose proof (taken_fs_ok r m m1 Ht Hf Hroom) as F1. pose proof (fs_size _ Hf) as Hsz.
  destruct (taken_sb r m m1 Ht) as (Sb & _ & Dk). destruct (taken_logs r m m1 Ht Hf Hroom) as (L1 & Z1 & Z2 & HL).
  assert (0 ≤ 12 < places) as H12 by (unfold places; lia).
  destruct (fv_range _ _ _ Hi 12 H12 Ha) as (Hir & Hiu & Him & Hii). rewrite fref_12 in *. fold ind in Hir, Hiu, Him, Hii.
  pose proof (grow_content 12 H12 Ha) as Hci. rewrite fref_12 in Hci. fold ind in Hci.
  pose proof (bm_blocks _ (fs_map _ F1) ind) as Hli. change (Z.to_nat BSIZE) with 1024%nat in Hli.
  assert (ind ≠ map_block m1) as Him1 by (by rewrite (taken_map r m m1 Ht)).
  assert (ind ≠ r) as Hir2 by (by apply (taken_ne r m m1 Ht Hf)).
  assert (∀ k', 0 ≤ k' < places → fref m2 ip k' = if k' =? k then r else fref m ip k') as Hrefs.
  { intros k' Hk'. unfold places in Hk'. unfold fref. fold ind. destruct (Z.leb_spec k' 12).
    - destruct (Z.eqb_spec k' k); [lia|done].
    - destruct (Z.eqb_spec ind 0); [done|]. rewrite (changed_eq _ _ _ _ Ch), Hci. destruct (Z.eqb_spec k' k) as [->|Hne].
      + rewrite get_put by (rewrite <- Hci, Hli; lia). apply Z.mod_small. change (256 ^ Z.of_nat 4) with 4294967296. lia.
      + apply get_put_ne; [rewrite <- Hci, Hli; lia|lia]. }
  assert (∀ x, 0 ≤ x < sb_size (mn_sb m) → used m2 x = used m1 x) as Hus.
  { intros x Hx. apply (changed_used _ _ _ _ Ch F1); [done|by rewrite Sb]. }
  split.
  - apply (changed_fs_ok _ _ _ _ Ch F1); [done|rewrite length_put; [done|rewrite Hli; lia]|apply (fs_block_range m _ Hf); lia|done].
  - apply (grow_inv m2 ip k); [unfold places; lia|done|apply (fv_addrs _ _ _ Hi)|by rewrite (ch_sb _ _ _ _ Ch)|done| |].
    + rewrite Hrefs by (unfold places; lia). by rewrite Z.eqb_refl.
    + intros k' Hk' Hne. rewrite Hrefs by done. by destruct (Z.eqb_spec k' k).
  - split.
    + by rewrite (ch_disk _ _ _ _ Ch).
    + by rewrite (ch_sb _ _ _ _ Ch).
    + rewrite (ch_log _ _ _ _ Ch). destruct (absorbed_size ind (mn_log m1)). split; congruence.
    + by destruct ip.
    + intros k' Hk' H1. rewrite Hrefs by done. destruct (Z.eqb_spec k' k); congruence.
    + intros k' Hk' H1. rewrite Hrefs by done. destruct (Z.eqb_spec k' k); [done|congruence].
    + intros b Hb Hu. rewrite Hus, (taken_used r m m1 Ht Hf), Hu by done. apply orb_true_r.
    + intros b Hb Hu Hm Hno. rewrite (changed_ne _ _ _ _ Ch) by (symmetry; exact (Hno 12 H12 Ha)).
      rewrite (taken_content r m m1 Ht Hf) by done. pose proof (taken_ne r m m1 Ht Hf b Hu). by destruct (Z.eqb_spec b r).
  - rewrite Hrefs, Z.eqb_refl by (unfold places; lia). lia.
  - intros k' Hk' Hne. rewrite Hrefs by done. by destruct (Z.eqb_spec k' k).
  - intros k' Hk' Hne H1. rewrite (changed_ne _ _ _ _ Ch); [by apply grow_content|]. intros E.
    apply Hne. by apply (fv_inj _ _ _ Hi).
  - intros x Hx. rewrite Hrefs, Z.eqb_refl, fref_12 by (unfold places; lia). fold ind.
    destruct (logged_changed _ _ _ _ x Ch L1 Hr1 Hx) as [Hx1| ->]; [|auto]. destruct (HL x Hx1) as [|[|]]; auto.
Qed.
End Grow.

(** ** bmap *)

(** The file system after some blocks have been added to the file. *)
Record extends (ib : Z) m ip m' ip' : Prop := Extends {
  xt_fs : fs_ok m';
  xt_inv : file_inv ib m' ip';
  xt_ev : evolves m ip m' ip';
  xt_data : ∀ k, 0 ≤ k < places → k ≠ 12 → fref m ip k ≠ 0 → content m' (fref m ip k) = content m (fref m ip k);
}.

Lemma extends_trans ib m1 ip1 m2 ip2 m3 ip3 : extends ib m1 ip1 m2 ip2 → extends ib m2 ip2 m3 ip3 → extends ib m1 ip1 m3 ip3.
Proof.
  intros [F1 I1 E1 D1] [F2 I2 E2 D2]. split; [done|done|by eapply fs_evolves_trans|].
  intros k Hk Hne H0. rewrite <- (D1 k Hk Hne H0). pose proof (ev_ref _ _ _ _ E1 k Hk H0) as E. rewrite <- E.
  apply D2; [done|done|by rewrite E].
Qed.

Lemma grown_extends ib m ip k m' ip' : grown ib m ip k m' ip' → extends ib m ip m' ip'.
Proof. intros []. by split. Qed.

Lemma reads_extends ib m m' ip : fs_ok m → file_inv ib m ip → reads m m' → extends ib m ip m' ip.
Proof.
  intros Hf Hi R. split; [by eapply fs_ok_reads|by eapply file_inv_reads| |intros; apply R].
  eapply evolves_reads; [done|]. apply fs_evolves_refl.
Qed.

(** The transaction holds no other block than those of [L]. *)
Definition log_in m (L : list Z) : Prop := ∀ x, x ∈ logged (mn_log m) → x ∈ L.
Definition log_cap m : Z := Z.min LOGSIZE (lg_size (mn_log m) - 1).

Lemma log_in_n m L : log_ok (mn_log m) → log_in m L → lg_n (mn_log m) ≤ Z.of_nat (length L).
Proof.
  intros Hok HL. assert (logged (mn_log m) ⊆+ L) as Hs by (apply NoDup_submseteq; [apply (lo_nodup _ Hok)|exact HL]).
  apply submseteq_length in Hs. rewrite logged_length in Hs by done. pose proof (lo_n _ Hok). lia.
Qed.

Lemma log_in_room m L : log_ok (mn_log m) → log_in m L → 1 ≤ lg_outstanding (mn_log m) → Z.of_nat (length L) < log_cap m → log_room (mn_log m).
Proof. intros Hok HL Ho Hc. pose proof (log_in_n m L Hok HL). unfold log_room, log_cap in *. lia. Qed.

Lemma log_in_room2 m L : log_ok (mn_log m) → log_in m L → 1 ≤ lg_outstanding (mn_log m) → Z.of_nat (length L) + 1 < log_cap m → log_room2 (mn_log m).
Proof. intros Hok HL Ho Hc. pose proof (log_in_n m L Hok HL). unfold log_room2, log_cap in *. lia. Qed.

(** The indirect block, if there is one. *)
Definition indirect_of ip : list Z := if addr ip 12 =? 0 then [] else [addr ip 12].

Lemma indirect_length ip : (length (indirect_of ip) ≤ 1)%nat.
Proof. unfold indirect_of. case_match; cbn; lia. Qed.

Lemma indirect_in ip x : x ∈ indirect_of ip ↔ x = addr ip 12 ∧ x ≠ 0.
Proof.
  unfold indirect_of. destruct (Z.eqb_spec (addr ip 12) 0) as [E|E].
  - split; [by intros ?%elem_of_nil|]. intros [-> ?]. done.
  - rewrite list_elem_of_singleton. split; [intros ->|]; naive_solver.
Qed.

Lemma evolves_indirect m ip m' ip' x : evolves m ip m' ip' → x ∈ indirect_of ip → x ∈ indirect_of ip'.
Proof.
  intros E. rewrite !indirect_in. intros [-> H0]. pose proof (ev_ref _ _ _ _ E 12 ltac:(unfold places; lia) H0) as H. rewrite !fref_12 in H. by rewrite H.
Qed.

(** The blocks a transaction that writes the file may hold: the free map, the
    indirect block, and those of [D]. *)
Definition write_set m ip (D : list Z) : list Z := map_block m :: indirect_of ip ++ D.

Lemma write_set_length m ip D : (length (write_set m ip D) ≤ 2 + length D)%nat.
Proof. unfold write_set. cbn [length]. rewrite length_app. pose proof (indirect_length ip). lia. Qed.

Lemma in_write_set m ip D x : x ∈ write_set m ip D ↔ x = map_block m ∨ x ∈ indirect_of ip ∨ x ∈ D.
Proof. unfold write_set. by rewrite elem_of_cons, elem_of_app. Qed.

Lemma grown_log ib m ip k m' ip' D : grown ib m ip k m' ip' → log_in m (write_set m ip D) →
  log_in m' (write_set m' ip' (if k =? 12 then D else fref m' ip' k :: D)).
Proof.
  intros G HL x Hx. assert (map_block m' = map_block m) as Em by (unfold map_block; by rewrite (ev_sb _ _ _ _ (gr_ev _ _ _ _ _ _ G))).
  rewrite in_write_set, Em. destruct (gr_log _ _ _ _ _ _ G x Hx) as [H|[-> |[H|H]]].
  - apply HL in H. rewrite in_write_set in H. destruct H as [->|[H|H]]; [by left| |].
    + right; left. eapply evolves_indirect; [apply (gr_ev _ _ _ _ _ _ G)|done].
    + right; right. destruct (k =? 12); [done|by right].
  - by left.
  - destruct (Z.eqb_spec k 12) as [->|Hne].
    + right; left. rewrite indirect_in, <- (fref_12 m' ip'). split; [done|]. rewrite H. apply (gr_new _ _ _ _ _ _ G).
    + right; right. rewrite H. by left.
  - right; left. by rewrite indirect_in.
Qed.

Section Bmap.
Variables (i : nat) (ib : Z) (e : list (mini → mini)).

(** What [balloc] finds when the disk is full. *)
Definition disk_full m : Prop := ∀ b, 0 ≤ b < sb_size (mn_sb m) → used m b = true.

(** The file system and the file of table entry [i], with block [ib] for its inode. *)
Record writing m ip : Prop := Writing {
  wr_inode : mn_inodes m !! i = Some ip;
  wr_fs : fs_ok m;
  wr_file : file_inv ib m ip;
  wr_ib : 0 ≤ ib < sb_size (mn_sb m) ∧ used m ib = true;
  wr_out : 1 ≤ lg_outstanding (mn_log m);
  wr_apart : ib ≠ map_block m;
}.

Lemma writing_extends m ip m' ip' : writing m ip → extends ib m ip m' ip' → mn_inodes m' !! i = Some ip' → writing m' ip'.
Proof.
  intros [H1 H2 H3 [H4 H5] H6 H7] [F V E _] Hi. split; [done|done|done| | |].
  - rewrite (ev_sb _ _ _ _ E). split; [done|]. by apply (ev_used _ _ _ _ E).
  - by rewrite (proj2 (ev_size _ _ _ _ E)).
  - unfold map_block. by rewrite (ev_sb _ _ _ _ E).
Qed.

Lemma set_addr_run k a m ip : mn_inodes m !! i = Some ip →
  set_addr i k a e m = Ret () e (with_inodes (<[i := with_addr k a ip]> (mn_inodes m)) m).
Proof. intros Hi. unfold set_addr. by apply (set_inode_mini i _ ip). Qed.

(** A direct block or the indirect block, where there was none. *)
Lemma balloc_direct m ip k D : writing m ip → 0 ≤ k ≤ 12 → addr ip k = 0 →
  log_in m (write_set m ip D) → 3 + Z.of_nat (length D) < log_cap m →
  ∃ r m1, balloc (i_dev ip) e m = Ret r e m1 ∧
    ((r ≠ 0 ∧ ∃ m2 ip2, set_addr i (Z.to_nat k) r e m1 = Ret () e m2 ∧ mn_inodes m2 = <[i := ip2]> (mn_inodes m) ∧
       grown ib m ip k m2 ip2 ∧ fref m2 ip2 k = r) ∨
     r = 0 ∧ reads m m1 ∧ disk_full m).
Proof.
  intros [Hi Hf Hv Hib Ho _] Hk H0 HL Hc.
  assert (log_room2 (mn_log m)) as Hroom.
  { apply (log_in_room2 m (write_set m ip D)); [apply (fs_log _ Hf)|done|done|]. pose proof (write_set_length m ip D). lia. }
  destruct (balloc_run (i_dev ip) e m (fs_map _ Hf) (fs_log _ Hf) Hroom) as (r & m1 & E & [Ht|(-> & Hfull & R)]).
  - exists r, m1. split; [done|]. left. destruct (taken_range r m m1 Ht Hf) as [Hr _]. destruct (taken_sb r m m1 Ht) as (_ & Ei & _).
    assert (fref m ip k = 0) as H0' by (unfold fref; by destruct (Z.leb_spec k 12); [|lia]).
    split; [lia|]. eexists _, _. split; [apply set_addr_run; by rewrite Ei|]. split; [by rewrite Ei|].
    split; [by apply grow_direct|].
    unfold fref. destruct (Z.leb_spec k 12); [|lia]. unfold addr, with_addr, set. cbn [i_addrs].
    rewrite list_lookup_insert_eq by (rewrite (fv_addrs _ _ _ Hv); lia). done.
  - exists 0, m1. split; [done|]. by right.
Qed.

(** What [bmap] makes of the file for its block [bn]: the block is there, or the disk is full. *)
Definition mapped m ip (bn a : Z) (D : list Z) m' ip' : Prop :=
  mn_inodes m' = <[i := ip']> (mn_inodes m) ∧ extends ib m ip m' ip' ∧
  (∀ k, 0 ≤ k < places → k ≠ place bn → k ≠ 12 → fref m' ip' k = fref m ip k) ∧
  log_in m' (write_set m' ip' (a :: D)) ∧
  (a ≠ 0 ∧ fref m' ip' (place bn) = a ∨ a = 0 ∧ disk_full m').

Lemma log_in_weaken m L L' : log_in m L → (∀ x, x ∈ L → x ∈ L') → log_in m L'.
Proof. intros H1 H2 x Hx. by apply H2, H1. Qed.

Lemma log_in_reads m m' ip D : reads m m' → log_in m (write_set m ip D) → log_in m' (write_set m' ip D).
Proof. intros R HL x Hx. rewrite (rd_log _ _ R) in Hx. apply HL in Hx. unfold write_set, map_block. by rewrite (rd_sb _ _ R). Qed.

Lemma write_set_cons m ip D a x : x ∈ write_set m ip D → x ∈ write_set m ip (a :: D).
Proof. rewrite !in_write_set, elem_of_cons. tauto. Qed.

Lemma full_reads m m' : reads m m' → disk_full m → disk_full m'.
Proof. intros R H b. rewrite (rd_sb _ _ R), (used_reads _ _ _ R). apply H. Qed.

(** Nothing was to be allocated, or nothing could be. *)
Lemma mapped_reads m ip bn a D m' : writing m ip → reads m m' → log_in m (write_set m ip D) →
  a ≠ 0 ∧ fref m ip (place bn) = a ∨ a = 0 ∧ disk_full m → mapped m ip bn a D m' ip.
Proof.
  intros W R HL Ha. split_and!.
  - rewrite (rd_inodes _ _ R). symmetry. apply list_insert_id. apply W.
  - apply reads_extends; [apply W|apply W|done].
  - intros k _ _ _. by apply fref_reads.
  - eapply log_in_weaken; [by apply (log_in_reads m)|apply write_set_cons].
  - rewrite (fref_reads m m') by done. destruct Ha as [?|[-> Hd]]; [by left|right]. split; [done|]. by eapply full_reads.
Qed.

Lemma mapped_trans m ip m1 ip1 bn a D m2 ip2 : mn_inodes m1 = <[i := ip1]> (mn_inodes m) → extends ib m ip m1 ip1 →
  (∀ k, 0 ≤ k < places → k ≠ 12 → fref m1 ip1 k = fref m ip k) → mapped m1 ip1 bn a D m2 ip2 → mapped m ip bn a D m2 ip2.
Proof.
  intros Ei X Ho (Ei2 & X2 & Ho2 & H). split_and!; [|by eapply extends_trans| |apply H|apply H].
  - by rewrite Ei2, Ei, list_insert_insert_eq.
  - intros k Hk H1 H2. by rewrite Ho2, Ho.
Qed.

Lemma mapped_grown m ip bn D m2 ip2 : 0 ≤ bn < 268 → mn_inodes m2 = <[i := ip2]> (mn_inodes m) → grown ib m ip (place bn) m2 ip2 →
  log_in m (write_set m ip D) → mapped m ip bn (fref m2 ip2 (place bn)) D m2 ip2.
Proof.
  intros Hbn Ei G HL. destruct (place_range bn Hbn) as [Hp Hp12]. split_and!; [done|by eapply grown_extends| | |].
  - intros k Hk Hne _. by apply (gr_only _ _ _ _ _ _ G).
  - pose proof (grown_log _ _ _ _ _ _ D G HL) as H. by destruct (Z.eqb_spec (place bn) 12).
  - left. split; [apply (gr_new _ _ _ _ _ _ G)|done].
Qed.

Lemma writing_reads m m1 ip : writing m ip → reads m m1 → writing m1 ip.
Proof.
  intros W R. apply (writing_extends m ip m1 ip); [done|apply reads_extends; [apply W|apply W|done]|].
  rewrite (rd_inodes _ _ R). apply W.
Qed.

(** The part of [bmap] behind the indirect block. *)
Definition bmap_entry dev ind bn : KM mini Z :=
  bp ← kn_bread dev ind;
  a ← kn_data bp;
  let addr := get32 a (Z.to_nat (4 * bn)) in
  addr ← (if addr =? 0 then
            addr ← balloc dev;
            when (negb (addr =? 0)) (
              a ← kn_data bp;
              kn_set_data bp (put32 a (Z.to_nat (4 * bn)) addr);;
              log_write bp);;
            mret addr
          else mret addr);
  kn_brelse bp;;
  mret addr.

Lemma bmap_entry_run m ip bn D : writing m ip → addr ip 12 ≠ 0 → 12 ≤ bn < 268 →
  log_in m (write_set m ip D) → 4 + Z.of_nat (length D) < log_cap m →
  ∃ a m', bmap_entry (i_dev ip) (addr ip 12) (bn - 12) e m = Ret a e m' ∧ mapped m ip bn a D m' ip.
Proof.
  intros W Ha Hbn HL Hc. pose proof W as [Hi Hf Hv Hib Ho _]. set (ind := addr ip 12) in *. destruct (place_range bn ltac:(lia)) as [Hp _].
  assert (place bn = bn + 1) as Ep by (unfold place; destruct (Z.ltb_spec bn 12); lia).
  destruct (fv_range _ _ _ Hv 12 ltac:(unfold places; lia) Ha) as (Hir & Hiu & Him & _). rewrite fref_12 in *. fold ind in Hir, Hiu, Him.
  assert (fref m ip (place bn) = get_le (content m ind) (Z.to_nat (4 * (bn - 12))) 4) as Er.
  { unfold fref. rewrite Ep. destruct (Z.leb_spec (bn + 1) 12); [lia|]. fold ind. destruct (Z.eqb_spec ind 0); [done|]. do 2 f_equal. lia. }
  unfold bmap_entry. destruct (bread_reads (i_dev ip) ind e m ltac:(lia)) as (m1 & E1 & R1 & C1). run E1.
  run (data_mini ind (content m ind) e m1 ltac:(lia) C1). cbv zeta. rewrite <- Er.
  destruct (Z.eqb_spec (fref m ip (place bn)) 0) as [H0|H0].
  2:{ exists (fref m ip (place bn)), m1. split; [done|]. apply mapped_reads; [done|done|done|by left]. }
  assert (log_in m1 (write_set m1 ip D)) as HL1 by (by apply (log_in_reads m)).
  pose proof (writing_reads m m1 ip W R1) as W1. pose proof (wr_fs _ _ W1) as F1. pose proof (write_set_length m1 ip D) as Hwl.
  assert (log_cap m1 = log_cap m) as Ec by (unfold log_cap; by rewrite (rd_log _ _ R1)).
  assert (log_room2 (mn_log m1)) as Hroom.
  { apply (log_in_room2 m1 (write_set m1 ip D)); [apply (fs_log _ F1)|done|apply (wr_out _ _ W1)|lia]. }
  destruct (balloc_run (i_dev ip) e m1 (fs_map _ F1) (fs_log _ F1) Hroom) as (r & m2 & E2 & [Ht|(-> & Hfull & R2)]).
  - destruct (taken_range r m1 m2 Ht F1) as [Hr _]. rewrite bind_bind. run E2. rewrite bind_bind. destruct (Z.eqb_spec r 0); [lia|]. cbn [negb when].
    destruct (taken_logs r m1 m2 Ht F1 Hroom) as (L2 & Z1 & Z2 & HL2).
    assert (log_room (mn_log m2)) as Hr2.
    { apply (log_in_room m2 (r :: write_set m1 ip D)); [done| |by rewrite Z2; apply (wr_out _ _ W1)|].
      - intros x Hx. destruct (HL2 x Hx) as [H|[H|H]]; [right; by apply HL1|right; rewrite in_write_set; by left|rewrite H; left].
      - unfold log_cap in *. rewrite Z1. cbn [length]. lia. }
    assert (ind ≠ map_block m1 ∧ ind ≠ r) as [Hm1 Hne].
    { split; [unfold map_block; by rewrite (rd_sb _ _ R1)|]. apply (taken_ne r m1 m2 Ht F1). by rewrite (used_reads _ _ _ R1). }
    assert (mn_cache m2 !! ind = Some (content m2 ind)) as C2.
    { apply (taken_cache r m1 m2 Ht). by rewrite C1. }
    assert (block_range ind) as Hbi by (apply (fs_block_range m _ Hf); lia).
    destruct (update_block ind (put32 (content m2 ind) (Z.to_nat (4 * (bn - 12))) r) e m2 m2 Hbi L2 Hr2 ltac:(done) C2) as (m3 & Ch & E3).
    exists r, m3. split.
    { rewrite bind_bind. run (data_mini ind (content m2 ind) e m2 ltac:(lia) C2). rewrite bind_bind. by rewrite E3. }
    assert (0 ≤ ib < sb_size (mn_sb m1) ∧ used m1 ib = true) as Hib1 by apply (wr_ib _ _ W1).
    assert (grown ib m1 ip (place bn) m3 ip) as G.
    { apply (grow_entry ib m1 ip r m2 F1 (wr_file _ _ W1) Hib1 Ht Hroom); [rewrite Ep; unfold places; lia|done|by rewrite (fref_reads m m1)|done|].
      rewrite Ep. by replace (4 * (bn + 1 - 13)) with (4 * (bn - 12)) by lia. }
    apply (mapped_trans m ip m1 ip).
    + rewrite (rd_inodes _ _ R1). symmetry. by apply list_insert_id.
    + by apply reads_extends.
    + intros k _ _. by apply fref_reads.
    + assert (fref m3 ip (place bn) = r) as Hr3.
      { unfold fref. rewrite Ep. destruct (Z.leb_spec (bn + 1) 12); [lia|]. fold ind. destruct (Z.eqb_spec ind 0); [done|].
        rewrite (changed_eq _ _ _ _ Ch). replace (4 * (bn + 1 - 13)) with (4 * (bn - 12)) by lia.
        rewrite get_put. { apply Z.mod_small. change (256 ^ Z.of_nat 4) with 4294967296. pose proof (fs_size _ F1). lia. }
        pose proof (bm_blocks _ (fs_map _ (taken_fs_ok r m1 m2 Ht F1 Hroom)) ind) as Hlen. change (Z.to_nat BSIZE) with 1024%nat in Hlen. lia. }
      rewrite <- Hr3. apply mapped_grown; [lia| |done|done].
      rewrite (ch_inodes _ _ _ _ Ch), (proj1 (proj2 (taken_sb r m1 m2 Ht))), (rd_inodes _ _ R1). symmetry. by apply list_insert_id.
  - exists 0, m2. split; [rewrite bind_bind; by run E2|]. apply mapped_reads; [done|by etrans|done|right; split; [done|]].
    intros b Hb. rewrite <- (used_reads _ _ _ R1). apply Hfull. by rewrite (rd_sb _ _ R1).
Qed.

Lemma bmap_mapped m ip bn D : writing m ip → 0 ≤ bn < 268 → log_in m (write_set m ip D) → 4 + Z.of_nat (length D) < log_cap m →
  ∃ a m' ip', bmap i bn e m = Ret a e m' ∧ mapped m ip bn a D m' ip'.
Proof.
  intros W Hbn HL Hc. pose proof W as [Hi Hf Hv _ _ _]. unfold bmap. run (inode_mini i ip e m Hi).
  change (Z.of_nat NDIRECT) with 12. change (Z.of_nat NINDIRECT) with 256. change NDIRECT with (Z.to_nat 12).
  fold (addr ip bn) (addr ip 12). cbv zeta. destruct (Z.ltb_spec bn 12) as [Hd|Hd].
  - assert (place bn = bn) as Ep by (unfold place; destruct (Z.ltb_spec bn 12); lia).
    assert (fref m ip (place bn) = addr ip bn) as Er by (rewrite Ep; unfold fref; by destruct (Z.leb_spec bn 12); [|lia]).
    destruct (Z.eqb_spec (addr ip bn) 0) as [H0|H0].
    + destruct (balloc_direct m ip bn D W ltac:(lia) H0 HL ltac:(lia)) as (r & m1 & E1 & [(Hr & m2 & ip2 & E2 & Ei & G & Hk)|(-> & R & Hfull)]).
      * exists r, m2, ip2. run E1. destruct (Z.eqb_spec r 0); [done|]. run E2. split; [done|].
        assert (mapped m ip bn (fref m2 ip2 (place bn)) D m2 ip2) as Hm by (apply mapped_grown; by rewrite ?Ep).
        by rewrite Ep, Hk in Hm.
      * exists 0, m1, ip. run E1. split; [done|]. apply mapped_reads; [done|done|done|by right].
    + exists (addr ip bn), m, ip. split; [done|]. apply mapped_reads; [done|done|done|by left].
  - destruct (Z.ltb_spec (bn - 12) 256); [|lia].
    destruct (Z.eqb_spec (addr ip 12) 0) as [H0|H0].
    + destruct (balloc_direct m ip 12 D W ltac:(lia) H0 HL ltac:(lia)) as (r & m1 & E1 & [(Hr & m2 & ip2 & E2 & Ei & G & Hk)|(-> & R & Hfull)]).
      * pose proof (grown_extends _ _ _ _ _ _ G) as X.
        assert (mn_inodes m2 !! i = Some ip2) as Hi2 by (rewrite Ei; apply list_lookup_insert_eq; by eapply lookup_lt_Some).
        pose proof (writing_extends m ip m2 ip2 W X Hi2) as W2. rewrite fref_12 in Hk.
        assert (log_in m2 (write_set m2 ip2 D)) as HL2 by exact (grown_log _ _ _ _ _ _ D G HL).
        destruct (bmap_entry_run m2 ip2 bn D W2) as (a & m' & E & Hm); [congruence|lia|done| |].
        { unfold log_cap in *. by rewrite (proj1 (ev_size _ _ _ _ (gr_ev _ _ _ _ _ _ G))). }
        exists a, m', ip2. split.
        -- rewrite !bind_bind. run E1. rewrite bind_bind. destruct (Z.eqb_spec r 0); [done|]. cbn [negb when]. run E2. rewrite mret_bind.
           destruct (Z.eqb_spec r 0); [done|]. rewrite Hk in E. exact E.
        -- apply (mapped_trans m ip m2 ip2); [done|done| |done]. intros k Hk' Hne. by apply (gr_only _ _ _ _ _ _ G).
      * exists 0, m1, ip. split.
        -- rewrite !bind_bind. run E1. reflexivity.
        -- apply mapped_reads; [done|done|done|by right].
    + destruct (bmap_entry_run m ip bn D W H0 ltac:(lia) HL Hc) as (a & m' & E & Hm). exists a, m', ip. split; [|done].
      rewrite mret_bind. destruct (Z.eqb_spec (addr ip 12) 0); [done|]. exact E.
Qed.
End Bmap.
