(* ===== verification/FsWritei.v ===== *)
(** * FsWritei: writing files

    [writei] on the sequential machine of Blocks.v, against a file as a sequence
    of bytes. *)

From S2P Require Import Prelude Params CString State Spinlock PhysMem Kalloc Vm ProcBase Sleeplock Virtio Bio Blocks Bytes Log LogCrash Fs FsRead FsWrite FsFile.

Implicit Types (m : mini) (ip : inode).

Lemma lookup_splice (data bs : list Z) (p j : nat) : (p + length bs ≤ length data)%nat →
  splice data p bs !! j = if decide (p ≤ j < p + length bs)%nat then bs !! (j - p)%nat else data !! j.
Proof.
  intros Hl. unfold splice. destruct (decide (p ≤ j < p + length bs)%nat) as [Hj|Hj].
  - rewrite lookup_app_r by (rewrite length_take; lia). rewrite length_take_le by lia. by rewrite lookup_app_l by lia.
  - destruct (decide (j < p)%nat).
    + rewrite lookup_app_l by (rewrite length_take; lia). by rewrite lookup_take_lt by lia.
    + rewrite lookup_app_r by (rewrite length_take; lia). rewrite length_take_le by lia.
      rewrite lookup_app_r by lia. rewrite lookup_drop. f_equal. lia.
Qed.

(** ** Bytes and places *)

Lemma file_byte_ref m ip o : 0 ≤ o < 274432 → fref m ip (place (o / 1024)) ≠ 0 →
  file_byte m ip o = default 0 (content m (fref m ip (place (o / 1024))) !! Z.to_nat (o mod 1024)).
Proof. intros Ho H0. unfold file_byte, BSIZE. rewrite fref_fblock; [done|zlia|done]. Qed.

Lemma covers_byte m ip size o : covers m ip size → 0 ≤ o < size → fref m ip (place (o / 1024)) ≠ 0.
Proof. intros Hc Ho. apply Hc; [zlia|]. unfold BSIZE. zlia. Qed.

(** The bytes stay when the blocks do. *)
Lemma extends_bytes ib m ip m' ip' size o : extends ib m ip m' ip' → covers m ip size → size ≤ 274432 → 0 ≤ o < size →
  file_byte m' ip' o = file_byte m ip o.
Proof.
  intros X Hc Hs Ho. pose proof (covers_byte m ip size o Hc Ho) as H0. destruct (place_range (o / 1024) ltac:(zlia)) as [Hp Hp12].
  pose proof (ev_ref _ _ _ _ (xt_ev _ _ _ _ _ X) _ Hp H0) as E.
  rewrite !file_byte_ref; [|lia|done|lia|by rewrite E]. rewrite E. by rewrite (xt_data _ _ _ _ _ X).
Qed.

Lemma evolves_covers m ip m' ip' size : evolves m ip m' ip' → covers m ip size → size ≤ 274432 → covers m' ip' size.
Proof.
  intros E Hc Hs bn H1 H2. pose proof (Hc bn H1 H2) as H0. unfold BSIZE in H2. destruct (place_range bn ltac:(lia)) as [Hp _].
  by rewrite (ev_ref _ _ _ _ E _ Hp H0).
Qed.

(** ** Writing into one block of the file *)

Section Block.
Variables (i : nat) (ib : Z) (e : list (mini → mini)) (m : mini) (ip : inode) (bn : Z) (p : nat) (bs : list Z) (m' : mini).
Hypothesis W : writing i ib m ip.
Hypothesis Hbn : 0 ≤ bn < 268.
Let a := fref m ip (place bn).
Hypothesis Ha : a ≠ 0.
Hypothesis Hp : (p + length bs ≤ 1024)%nat.
Hypothesis Ch : changed a (splice (content m a) p bs) m m'.
Hypothesis Hroom : log_room (mn_log m).

Lemma block_facts : 0 < a < sb_size (mn_sb m) ∧ used m a = true ∧ a ≠ map_block m ∧ a ≠ ib ∧ (addr ip 12 ≠ 0 → a ≠ addr ip 12).
Proof.
  destruct (place_range bn Hbn) as [H1 H2]. destruct (fv_range _ _ _ (wr_file _ _ _ _ W) _ H1 Ha) as (A & B & C & D). split_and!; try done; try lia.
  intros H0 E. apply H2. by apply (fv_inj _ _ _ (wr_file _ _ _ _ W)); [done|unfold places; lia|done|].
Qed.

Lemma block_ref k : fref m' ip k = fref m ip k.
Proof.
  destruct block_facts as (_ & _ & _ & _ & H). apply fref_ext; [done|]. intros H0.
  apply (changed_ne _ _ _ _ Ch). apply not_eq_sym. by apply H.
Qed.

Lemma block_len b : length (content m b) = 1024%nat.
Proof. apply (bm_blocks _ (fs_map _ (wr_fs _ _ _ _ W))). Qed.

Lemma block_writing : writing i ib m' ip ∧ evolves m ip m' ip.
Proof.
  destruct block_facts as (Hr & Hu & Hm & Hib & Hind). destruct W as [Wi Wf Wv Wb Wo Wa].
  pose proof (λ x, changed_used _ _ _ _ Ch Wf x Hm) as Hus.
  assert (fs_ok m') as F'.
  { apply (changed_fs_ok _ _ _ _ Ch Wf); [done| |apply (fs_block_range m _ Wf); lia|done]. rewrite length_splice; [apply block_len|]. rewrite block_len. lia. }
  assert (evolves m ip m' ip) as E.
  { split.
    - apply (ch_disk _ _ _ _ Ch).
    - apply (ch_sb _ _ _ _ Ch).
    - rewrite (ch_log _ _ _ _ Ch). apply absorbed_size.
    - by destruct ip.
    - intros k _ _. apply block_ref.
    - intros k _ H0. by rewrite block_ref.
    - intros b Hb Hub. by rewrite Hus.
    - intros b Hb Hub _ Hno. apply (changed_ne _ _ _ _ Ch). apply not_eq_sym. apply Hno; [|done]. by apply place_range. }
  split; [|done]. split.
  - by rewrite (ch_inodes _ _ _ _ Ch).
  - done.
  - split; [apply (fv_addrs _ _ _ Wv)| |].
    + intros k Hk H0. rewrite block_ref in *. destruct (fv_range _ _ _ Wv k Hk H0) as (A & B & C & D).
      rewrite (changed_map _ _ _ _ Ch), (ch_sb _ _ _ _ Ch), Hus by lia. split_and!; (done || lia).
    + intros k k'. rewrite !block_ref. apply (fv_inj _ _ _ Wv).
  - rewrite (ch_sb _ _ _ _ Ch), Hus by apply Wb. done.
  - rewrite (ch_log _ _ _ _ Ch), (proj2 (absorbed_size _ _)). done.
  - by rewrite (changed_map _ _ _ _ Ch).
Qed.

Lemma block_byte size o : covers m ip size → size ≤ 274432 → 0 ≤ o < size →
  file_byte m' ip o = if decide (bn * 1024 + Z.of_nat p ≤ o < bn * 1024 + Z.of_nat p + Z.of_nat (length bs))
                      then default 0 (bs !! Z.to_nat (o - bn * 1024 - Z.of_nat p)) else file_byte m ip o.
Proof.
  intros Hc Hs Ho. pose proof (covers_byte m ip size o Hc Ho) as H0. destruct (place_range (o / 1024) ltac:(zlia)) as [H1 _].
  rewrite (file_byte_ref m') by (rewrite ?block_ref; done || lia). rewrite block_ref.
  destruct (decide (o / 1024 = bn)) as [Eb|Hne].
  - rewrite Eb. fold a. rewrite (changed_eq _ _ _ _ Ch), lookup_splice by (rewrite block_len; lia).
    destruct (decide (p ≤ Z.to_nat (o mod 1024) < p + length bs)%nat) as [Hin|Hin], (decide (bn * 1024 + Z.of_nat p ≤ o < bn * 1024 + Z.of_nat p + Z.of_nat (length bs))) as [Hin'|Hin'].
    + do 2 f_equal. zlia.
    + exfalso. apply Hin'. zlia.
    + exfalso. apply Hin. zlia.
    + rewrite file_byte_ref by (done || lia). by rewrite Eb.
  - rewrite decide_False by zlia. rewrite file_byte_ref by (done || lia). rewrite (changed_ne _ _ _ _ Ch); [done|]. intros E.
    apply Hne, place_inj. apply (fv_inj _ _ _ (wr_file _ _ _ _ W)); [done|by apply place_range|done|done].
Qed.
End Block.

(** ** The loop *)

(** The number of blocks that [n] bytes from [off] on lie in. *)
Definition blocks_touched (off n : Z) : Z := if n =? 0 then 0 else (off + n - 1) / 1024 - off / 1024 + 1.

Section Writei.
Variables (i : nat) (ib : Z) (e : list (mini → mini)) (m0 : mini) (ip0 : inode) (bytes : list Z) (off n : Z).
Hypothesis W0 : writing i ib m0 ip0.
Hypothesis Hcov : covers m0 ip0 (i_size ip0).
Hypothesis Hsize : 0 ≤ i_size ip0 ≤ 274432.
Hypothesis Hoff : 0 ≤ off ≤ i_size ip0.
Hypothesis Hn : 0 ≤ n ∧ off + n ≤ 274432.
Hypothesis Hlen : n ≤ Z.of_nat (length bytes).
Hypothesis Hcap : lg_n (mn_log m0) + blocks_touched off n + 3 < log_cap m0.

(** The file after [tot] bytes have been written. *)
Definition written_byte (tot o : Z) : Z :=
  if decide (off ≤ o < off + tot) then default 0 (bytes !! Z.to_nat (o - off)) else file_byte m0 ip0 o.

Record progress (tot : Z) m ip : Prop := Progress {
  pg_w : writing i ib m ip;
  pg_ev : evolves m0 ip0 m ip;
  pg_inodes : mn_inodes m = <[i := ip]> (mn_inodes m0);
  pg_cov : covers m ip (Z.max (i_size ip0) (off + tot));
  pg_bytes : ∀ o, 0 ≤ o < Z.max (i_size ip0) (off + tot) → file_byte m ip o = written_byte tot o;
}.

Definition log_bound (k : Z) m ip : Prop :=
  ∃ D, log_in m (write_set m ip (D ++ logged (mn_log m0))) ∧ Z.of_nat (length D) ≤ k.

Lemma progress_start : progress 0 m0 ip0 ∧ log_bound 0 m0 ip0.
Proof.
  split; [|exists []; split; [|cbn; lia]].
  - split; [done|apply fs_evolves_refl|symmetry; apply list_insert_id; apply W0| |].
    + by rewrite Z.max_l by lia.
    + intros o Ho. unfold written_byte. by rewrite decide_False by lia.
  - intros x Hx. rewrite in_write_set. auto.
Qed.

Lemma blocks_step tot c : 0 ≤ tot < n → tot = 0 ∨ (off + tot) mod 1024 = 0 → c = Z.min (n - tot) (1024 - (off + tot) mod 1024) →
  blocks_touched off (tot + c) = blocks_touched off tot + 1 ∧ blocks_touched off (tot + c) ≤ blocks_touched off n.
Proof.
  intros Ht Ha Hc. pose proof (Z.mod_pos_bound (off + tot) 1024 ltac:(lia)). unfold blocks_touched.
  destruct (Z.eqb_spec (tot + c) 0), (Z.eqb_spec tot 0), (Z.eqb_spec n 0); try lia; zlia.
Qed.

Lemma base_length : Z.of_nat (length (logged (mn_log m0))) = lg_n (mn_log m0).
Proof. pose proof (fs_log _ (wr_fs _ _ _ _ W0)) as Hl. rewrite (logged_length _ Hl). pose proof (lo_n _ Hl). lia. Qed.

(** One round: the block is there or allocated, and changed. *)
Lemma writei_round tot m ip : progress tot m ip → log_bound (blocks_touched off tot) m ip → 0 ≤ tot < n →
  tot = 0 ∨ (off + tot) mod 1024 = 0 →
  let c := Z.min (n - tot) (1024 - (off + tot) mod 1024) in
  ∃ a m1 ip1, bmap i ((off + tot) / 1024) e m = Ret a e m1 ∧
    (a = 0 ∧ progress tot m1 ip1 ∧ log_bound (blocks_touched off tot + 1) m1 ip1 ∧ disk_full m1 ∨
     a ≠ 0 ∧ 0 < a ∧ ∀ m2, reads m1 m2 → mn_cache m2 !! a = Some (content m1 a) →
       ∃ m3, (∀ A (k : KM mini A),
           (kn_set_data (Z.to_nat a) (splice (content m1 a) (Z.to_nat ((off + tot) mod 1024)) (take (Z.to_nat c) (drop (Z.to_nat tot) bytes)));;
            log_write (Z.to_nat a);; k) e m2 = k e m3) ∧
         progress (tot + c) m3 ip1 ∧ log_bound (blocks_touched off (tot + c)) m3 ip1).
Proof.
  intros [W E Ei Hc Hb] (D & HL & HD) Ht Hal c. set (bn := (off + tot) / 1024).
  pose proof (Z.mod_pos_bound (off + tot) 1024 ltac:(lia)) as Hmod. destruct (blocks_step tot c Ht Hal eq_refl) as [Hb1 Hb2]. pose proof base_length as Hbl.
  assert (0 ≤ bn < 268) as Hbn by (unfold bn; zlia). set (L0 := logged (mn_log m0)) in *.
  assert (log_cap m = log_cap m0) as Ec by (unfold log_cap; by rewrite (proj1 (ev_size _ _ _ _ E))).
  destruct (bmap_mapped i ib e m ip bn (D ++ L0) W Hbn HL) as (a & m1 & ip1 & Eb & Hm); [rewrite length_app; lia|].
  exists a, m1, ip1. split; [done|]. destruct Hm as (Ei1 & X & _ & HL1 & Ha).
  assert (mn_inodes m1 = <[i := ip1]> (mn_inodes m0)) as Ei0 by (by rewrite Ei1, Ei, list_insert_insert_eq).
  assert (mn_inodes m1 !! i = Some ip1) as Hi1.
  { rewrite Ei0. apply list_lookup_insert_eq. eapply lookup_lt_Some. apply W0. }
  pose proof (writing_extends i ib m ip m1 ip1 W X Hi1) as W1. pose proof (fs_evolves_trans _ _ _ _ _ _ E (xt_ev _ _ _ _ _ X)) as E1.
  set (size := Z.max (i_size ip0) (off + tot)) in *.
  assert (covers m1 ip1 size) as Hc1 by (apply (evolves_covers m ip); [apply (xt_ev _ _ _ _ _ X)|done|lia]).
  assert (progress tot m1 ip1) as P1.
  { split; [done|done|done|done|]. intros o Ho. rewrite (extends_bytes ib m ip m1 ip1 size o X Hc) by lia. by apply Hb. }
  destruct Ha as [[Ha Hr]|[-> Hfull]].
  - right. assert (0 < a) as Hpos by (destruct (fv_range _ _ _ (wr_file _ _ _ _ W1) (place bn) ltac:(by apply place_range)) as [? _]; [congruence|lia]).
    split; [done|]. split; [done|]. intros m2 R C2. set (bs := take (Z.to_nat c) (drop (Z.to_nat tot) bytes)).
    assert (length bs = Z.to_nat c) as Hbs by (unfold bs; rewrite length_take, length_drop; lia).
    assert (log_room (mn_log m1)) as Hroom.
    { apply (log_in_room m1 (write_set m1 ip1 (a :: D ++ L0))); [apply (fs_log _ (wr_fs _ _ _ _ W1))|done|apply (wr_out _ _ _ _ W1)|].
      pose proof (write_set_length m1 ip1 (a :: D ++ L0)) as Hw. cbn [length] in Hw. rewrite length_app in Hw.
      unfold log_cap in *. rewrite (proj1 (ev_size _ _ _ _ E1)). lia. }
    destruct (fv_range _ _ _ (wr_file _ _ _ _ W1) (place bn) ltac:(by apply place_range)) as (Hrange & _ & Ham & _); [congruence|]. rewrite Hr in Hrange, Ham.
    destruct (update_block a (splice (content m1 a) (Z.to_nat ((off + tot) mod 1024)) bs) e m1 m2) as (m3 & Ch & E3);
      [apply (fs_block_range m1 _ (wr_fs _ _ _ _ W1)); lia|apply (fs_log _ (wr_fs _ _ _ _ W1))|done|done|done|].
    exists m3. split; [done|]. rewrite <- Hr in Ch, Ha.
    assert (Z.to_nat ((off + tot) mod 1024) + length bs ≤ 1024)%nat as Hfit by (rewrite Hbs; lia).
    destruct (block_writing i ib m1 ip1 bn _ bs m3 W1 Hbn Ha Hfit Ch Hroom) as [W3 E3'].
    assert (covers m1 ip1 (Z.max size (off + (tot + c)))) as Hc1'.
    { intros b H1 H2. unfold BSIZE in H2. destruct (decide (b = bn)) as [->|Hne]; [done|]. apply Hc1; [done|]. unfold BSIZE. unfold bn in Hne. zlia. }
    assert (Z.max (i_size ip0) (off + (tot + c)) = Z.max size (off + (tot + c))) as Es by lia.
    split; [split|].
    + done.
    + by eapply fs_evolves_trans.
    + by rewrite (ch_inodes _ _ _ _ Ch).
    + rewrite Es. apply (evolves_covers m1 ip1); [done|done|lia].
    + rewrite Es. intros o Ho. rewrite (block_byte i ib m1 ip1 bn _ bs m3 W1 Hbn Ha Hfit Ch _ o Hc1' ltac:(lia) Ho).
      rewrite Hbs. replace (bn * 1024 + Z.of_nat (Z.to_nat ((off + tot) mod 1024))) with (off + tot) by (unfold bn; zlia).
      unfold written_byte. destruct (decide (off + tot ≤ o < off + tot + Z.of_nat (Z.to_nat c))) as [Hin|Hin].
      * rewrite decide_True by lia. unfold bs. rewrite lookup_take_lt by zlia. rewrite lookup_drop. do 2 f_equal. zlia.
      * destruct (decide (o < size)) as [Hos|Hos].
        -- rewrite (pg_bytes _ _ _ P1) by (fold size; lia). unfold written_byte.
           destruct (decide (off ≤ o < off + tot)), (decide (off ≤ o < off + (tot + c))); (done || lia).
        -- exfalso. lia.
    + exists (a :: D). split; [|cbn [length]; lia]. intros x Hx. cbn [app]. rewrite in_write_set, (changed_map _ _ _ _ Ch), <- in_write_set.
      destruct (logged_changed _ _ _ _ x Ch (fs_log _ (wr_fs _ _ _ _ W1)) Hroom Hx) as [Hx1| ->]; [by apply HL1|].
      rewrite in_write_set, Hr. right; right. left.
  - left. split; [done|]. split; [done|]. split; [|done]. exists (0 :: D). split; [done|]. cbn [length]. lia.
Qed.

Lemma log_bound_mono k k' m ip : k ≤ k' → log_bound k m ip → log_bound k' m ip.
Proof. intros Hk (D & HL & HD). exists D. split; [done|lia]. Qed.

Lemma writei_loop step :
  step = (λ '(tot, off, src),
    if tot <? n then
      addr ← bmap i (off / BSIZE);
      if addr =? 0 then mret (inr (tot, off))
      else
        bp ← kn_bread (i_dev ip0) addr;
        let m := Z.min (n - tot) (BSIZE - off mod BSIZE) in
        '(r, bytes) ← kn_copyin src m;
        data ← kn_data bp;
        kn_set_data bp (splice data (Z.to_nat (off mod BSIZE)) bytes);;
        if r =? -1 then kn_brelse bp;; mret (inr (tot, off))
        else
          log_write bp;;
          kn_brelse bp;;
          mret (inl (tot + m, off + m, source_add src m))
    else mret (inr (tot, off))) →
  ∀ tot m ip, progress tot m ip → log_bound (blocks_touched off tot) m ip → 0 ≤ tot ≤ n →
  tot = 0 ∨ tot = n ∨ (off + tot) mod 1024 = 0 →
  ∃ k tot' m' ip', runs step (tot, off + tot, LocalSrc (drop (Z.to_nat tot) bytes)) e m k (tot', off + tot') e m' ∧ k ≤ n - tot + 1 ∧
    tot ≤ tot' ≤ n ∧ progress tot' m' ip' ∧ log_bound (blocks_touched off n + 1) m' ip' ∧ (tot' = n ∨ disk_full m').
Proof.
  intros Hstep tot. remember (Z.to_nat (n - tot)) as left eqn:Hl. revert tot Hl.
  induction left as [left IH] using lt_wf_ind. intros tot Hl m ip P HL Ht Hal.
  destruct (Z.eq_dec tot n) as [->|Hne].
  { exists 1, n, m, ip. split; [apply runs_done; rewrite Hstep; by rewrite Z.ltb_irrefl|].
    split; [lia|]. split; [lia|]. split; [done|]. split; [|by left]. eapply log_bound_mono; [|done]. lia. }
  pose proof (Z.mod_pos_bound (off + tot) 1024 ltac:(lia)) as Hmod.
  assert (tot = 0 ∨ (off + tot) mod 1024 = 0) as Hal' by tauto.
  destruct (blocks_step tot _ ltac:(lia) Hal' eq_refl) as [Hb1 Hb2].
  destruct (writei_round tot m ip P HL ltac:(lia) Hal') as (a & m1 & ip1 & Eb & Hor).
  set (c := Z.min (n - tot) (1024 - (off + tot) mod 1024)) in *. destruct Hor as [(-> & P1 & HL1 & Hfull)|(Ha & Hpos & Hgo)].
  - exists 1, tot, m1, ip1. split; [|split; [lia|]; split; [lia|]; split; [done|]; split; [|by right]; eapply log_bound_mono; [|done]; lia].
    apply runs_done. rewrite Hstep. destruct (Z.ltb_spec tot n); [|lia]. unfold BSIZE. by run Eb.
  - destruct (bread_reads (i_dev ip0) a e m1 ltac:(lia)) as (m2 & E2 & R2 & C2).
    destruct (Hgo m2 R2 C2) as (m3 & E3 & P3 & HL3).
    destruct (IH (Z.to_nat (n - (tot + c))) ltac:(lia) (tot + c) eq_refl m3 ip1 P3 HL3 ltac:(lia)) as (k & tot' & m' & ip' & Hr & Hk & Ht' & H).
    { destruct (Z.eq_dec (tot + c) n); [by right; left|]. right; right. unfold c in *. zlia. }
    exists (k + 1), tot', m', ip'. split; [|split; [lia|]; split; [lia|exact H]]. eapply runs_step; [|exact Hr].
    rewrite Hstep. destruct (Z.ltb_spec tot n); [|lia]. unfold BSIZE. run Eb. destruct (Z.eqb_spec a 0); [done|]. run E2. cbv zeta. fold c.
    cbn [kn_copyin kern_mini]. rewrite mret_bind. run (data_mini a (content m1 a) e m2 ltac:(lia) C2). change (0 =? -1) with false. cbv iota.
    rewrite E3. cbn [kn_brelse kern_mini source_add]. krun. unfold mret, KM_ret. do 3 f_equal.
    + f_equal. lia.
    + f_equal. rewrite drop_drop. f_equal. lia.
Qed.
End Writei.

(** ** The whole of writei *)

(** Table entry [i] holds the inode of a file, and all that the file needs is in place. *)
Record on_file (i : nat) m ip : Prop := OnFile {
  of_writing : writing i (iblock m (i_inum ip)) m ip;
  of_covers : covers m ip (i_size ip);
  of_size : 0 ≤ i_size ip ≤ MAXFILE * BSIZE;
  of_typed : inode_typed ip;
  of_inum : 0 ≤ i_inum ip;
}.

(** The bytes of the file. *)
Definition data_of m ip : list Z := file_bytes m ip 0 (Z.to_nat (i_size ip)).

Lemma on_file_ok i m ip : on_file i m ip → file_ok m ip.
Proof.
  intros [W Hc Hs _ _]. change (MAXFILE * BSIZE) with 274432 in Hs. pose proof (wr_file _ _ _ _ W) as V. split.
  - exact Hs.
  - intros bn H1 H2. pose proof (Hc bn H1 H2) as H0. unfold BSIZE in H2. rewrite fref_fblock by (done || lia).
    destruct (place_range bn ltac:(lia)) as [Hp _]. destruct (fv_range _ _ _ V _ Hp H0). lia.
  - intros H12. pose proof (Hc 12 ltac:(lia) H12) as H0. pose proof (fref_ind m ip 13 ltac:(lia) H0) as Ha.
    destruct (fv_range _ _ _ V 12 ltac:(unfold places; lia) Ha) as [Hr _]. rewrite fref_12 in Hr. change (i_addrs ip !! NDIRECT) with (i_addrs ip !! Z.to_nat 12). fold (addr ip 12). lia.
  - apply (bm_blocks _ (fs_map _ (wr_fs _ _ _ _ W))).
Qed.

(** The inode in the table changes its size. *)
Definition with_size (sz : Z) ip : inode := ip <| i_size := sz |>.

Lemma typed_refs ib m0 m ip0 ip sz : inode_typed ip0 → evolves m0 ip0 m ip → file_inv ib m ip → fs_ok m → 0 ≤ sz < 2 ^ 32 → inode_typed (with_size sz ip).
Proof.
  intros [A B C D _ _] Ev V Hf Hsz. unfold with_size. split; unfold set; cbn [i_type i_major i_minor i_nlink i_size i_addrs].
  1-4: by rewrite (ev_ip _ _ _ _ Ev).
  1: done.
  split; [apply (fv_addrs _ _ _ V)|].
  apply Forall_lookup. intros k a Hk. pose proof (lookup_lt_Some _ _ _ Hk) as Hl.
  rewrite (fv_addrs _ _ _ V) in Hl. assert (fref m ip (Z.of_nat k) = a) as E.
  { unfold fref. destruct (Z.leb_spec (Z.of_nat k) 12); [|lia]. unfold addr. rewrite Nat2Z.id, Hk. done. }
  destruct (decide (a = 0)) as [->|H0]; [lia|]. destruct (fv_range _ _ _ V (Z.of_nat k)) as [Hr _]; [unfold places; lia|congruence|].
  rewrite E in Hr. pose proof (fs_size _ Hf). change (2 ^ 32) with 4294967296. lia.
Qed.

Section Finish.
Variables (i : nat) (e : list (mini → mini)) (m0 m : mini) (ip0 ip : inode) (sz : Z).
Let ib := iblock m0 (i_inum ip0).
Hypothesis F0 : on_file i m0 ip0.
Hypothesis W : writing i ib m ip.
Hypothesis Ev : evolves m0 ip0 m ip.
Hypothesis Ei : mn_inodes m = <[i := ip]> (mn_inodes m0).
Hypothesis Hsz : 0 ≤ sz ≤ MAXFILE * BSIZE.
Hypothesis Hc : covers m ip sz.
Hypothesis Hroom : log_room (mn_log m).

Let ip' := with_size sz ip.
Let m1 := with_inodes (<[i := ip']> (mn_inodes m)) m.

(** The size has been set; the inode goes to disk. *)
Lemma writei_finish : ∃ m', iupdate i e m1 = Ret () e m' ∧ mn_inodes m' = <[i := ip']> (mn_inodes m0) ∧ on_file i m' ip' ∧
  mn_disk m' = mn_disk m0 ∧ mn_sb m' = mn_sb m0 ∧
  (∀ o, 0 ≤ o < sz → file_byte m' ip' o = file_byte m ip o) ∧
  (∀ x, get_dinode (content m' ib) (dinode_off (i_inum ip0)) x = with_fields ip' x) ∧
  (∀ inum x, 0 ≤ inum → inum mod IPB ≠ i_inum ip0 mod IPB → get_dinode (content m' ib) (dinode_off inum) x = get_dinode (content m ib) (dinode_off inum) x) ∧
  (∀ b, b ≠ ib → content m' b = content m b) ∧ (∀ b, 0 ≤ b < sb_size (mn_sb m) → used m' b = used m b) ∧
  lg_n (mn_log m') ≤ lg_n (mn_log m) + 1.
Proof.
  pose proof F0 as [W0 _ _ T0 I0]. change (MAXFILE * BSIZE) with 274432 in Hsz. destruct W as [Wi Wf Wv [Wb Wu] Wo Wa].
  assert (i_inum ip' = i_inum ip0) as Einum by (unfold ip', with_size, set; cbn [i_inum]; by rewrite (ev_ip _ _ _ _ Ev)).
  assert (iblock m1 (i_inum ip') = ib) as Eib by (unfold ib, iblock; rewrite Einum; change (mn_sb m1) with (mn_sb m); by rewrite (ev_sb _ _ _ _ Ev)).
  assert (mn_inodes m1 !! i = Some ip') as Hi1 by (apply list_lookup_insert_eq; by eapply lookup_lt_Some).
  assert (block_range ib) as Hbr by (by apply (fs_block_range m)).
  destruct (iupdate_run i ip' e m1 Hi1) as (m' & E & Ch); [by rewrite Eib|apply (fs_log _ Wf)|done|]. rewrite Eib, Einum in Ch.
  exists m'. split; [done|].
  assert (∀ b, b ≠ ib → content m' b = content m b) as Hne by (intros b Hb; by rewrite (changed_ne _ _ _ _ Ch)).
  assert (∀ b, 0 ≤ b < sb_size (mn_sb m) → used m' b = used m b) as Hus.
  { intros b Hb. unfold used. rewrite (ch_sb _ _ _ _ Ch). change (mn_sb m1) with (mn_sb m). rewrite (map_one m b Wf Hb), Hne by done. done. }
  pose proof (bm_blocks _ (fs_map _ Wf) ib) as Hlen. change (Z.to_nat BSIZE) with 1024%nat in Hlen.
  pose proof (dinode_off_range _ I0) as Hdo. assert (2 ^ 32 = 4294967296) as Epow by done.
  assert (inode_typed ip') as T' by (apply (typed_refs ib m0 m ip0); [done|done|done|done|lia]).
  assert (fs_ok m') as F'.
  { assert (fs_ok m1) as F1 by (destruct Wf as [[] ? ? ?]; done).
    apply (changed_fs_ok _ _ _ _ Ch F1); [done| |done|done].
    change (content m1 ib) with (content m ib). rewrite put_dinode_length; [done|apply T'|lia]. }
  assert (∀ k, 0 ≤ k < places → fref m' ip' k = fref m ip k) as Hrefs.
  { intros k Hk. apply fref_ext; [done|]. intros H0. apply Hne.
    by destruct (fv_range _ _ _ Wv 12 ltac:(unfold places; lia) H0) as (_ & _ & _ & ?). }
  assert (map_block m' = map_block m) as Em by (unfold map_block; by rewrite (ch_sb _ _ _ _ Ch)).
  split_and!.
  - rewrite (ch_inodes _ _ _ _ Ch). unfold m1, with_inodes, set. cbn [mn_inodes]. by rewrite Ei, list_insert_insert_eq.
  - assert (mn_inodes m' !! i = Some ip') as Hi' by (by rewrite (ch_inodes _ _ _ _ Ch)).
    assert (iblock m' (i_inum ip') = ib) as Eib' by (unfold iblock; rewrite (ch_sb _ _ _ _ Ch); exact Eib).
    split; rewrite ?Eib'.
    + split.
      * done.
      * done.
      * split; [apply (fv_addrs _ _ _ Wv)| |].
        -- intros k Hk H0. rewrite (Hrefs k Hk) in *. destruct (fv_range _ _ _ Wv k Hk H0) as (A & B & C & D).
           rewrite Em, (ch_sb _ _ _ _ Ch). change (mn_sb m1) with (mn_sb m). rewrite Hus by lia. split_and!; (done || lia).
        -- intros k k' Hk Hk'. rewrite (Hrefs k Hk), (Hrefs k' Hk'). by apply (fv_inj _ _ _ Wv).
      * rewrite (ch_sb _ _ _ _ Ch), Hus by done. done.
      * rewrite (ch_log _ _ _ _ Ch), (proj2 (absorbed_size _ _)). done.
      * by rewrite Em.
    + intros bn H1 H2. change (bn * BSIZE < sz) in H2. unfold BSIZE in H2. destruct (place_range bn ltac:(lia)) as [Hp _]. rewrite Hrefs by done. apply Hc; [done|]. by unfold BSIZE.
    + exact Hsz.
    + done.
    + by rewrite Einum.
  - rewrite (ch_disk _ _ _ _ Ch). apply (ev_disk _ _ _ _ Ev).
  - rewrite (ch_sb _ _ _ _ Ch). apply (ev_sb _ _ _ _ Ev).
  - intros o Ho. pose proof (covers_byte m ip sz o Hc Ho) as H0. destruct (place_range (o / 1024) ltac:(zlia)) as [Hp _].
    rewrite !file_byte_ref; [|lia|done|lia|by rewrite Hrefs]. rewrite Hrefs by done. rewrite Hne; [done|].
    by destruct (fv_range _ _ _ Wv _ Hp H0) as (_ & _ & _ & ?).
  - intros x. rewrite (changed_eq _ _ _ _ Ch). apply get_put_dinode; [done|]. change (content m1 ib) with (content m ib). lia.
  - intros inum x Hin Hd. rewrite (changed_eq _ _ _ _ Ch). change (content m1 ib) with (content m ib). by apply get_put_dinode_ne; [apply T'|..].
  - done.
  - done.
  - rewrite (ch_log _ _ _ _ Ch). change (mn_log m1) with (mn_log m). unfold absorbed. destruct (decide _); unfold set; cbn [lg_n]; lia.
Qed.
End Finish.

Lemma file_bytes_lookup m ip (k j : nat) : (j < k)%nat → file_bytes m ip 0 k !! j = Some (file_byte m ip (Z.of_nat j)).
Proof. intros Hj. unfold file_bytes. rewrite list_lookup_fmap, lookup_seq_lt by done. cbn [fmap option_fmap option_map]. by rewrite Z.add_0_l. Qed.

Lemma data_written m0 ip0 m' ip' bytes off tot : 0 ≤ off ≤ i_size ip0 → 0 ≤ tot ≤ Z.of_nat (length bytes) →
  i_size ip' = Z.max (i_size ip0) (off + tot) →
  (∀ o, 0 ≤ o < i_size ip' → file_byte m' ip' o = written_byte m0 ip0 bytes off tot o) →
  data_of m' ip' = take (Z.to_nat off) (data_of m0 ip0) ++ take (Z.to_nat tot) bytes ++ drop (Z.to_nat (off + tot)) (data_of m0 ip0).
Proof.
  intros Ho Ht Hs Hb. unfold data_of. set (C := file_bytes m0 ip0 0 (Z.to_nat (i_size ip0))).
  assert (length C = Z.to_nat (i_size ip0)) as Hl by apply length_file_bytes.
  assert (length (take (Z.to_nat off) C) = Z.to_nat off) as H1 by (rewrite length_take, Hl; lia).
  assert (length (take (Z.to_nat tot) bytes) = Z.to_nat tot) as H2 by (rewrite length_take; lia).
  apply list_eq. intros j. destruct (decide (j < Z.to_nat (i_size ip'))%nat) as [Hj|Hj].
  - rewrite file_bytes_lookup by done. rewrite Hb by lia. unfold written_byte. destruct (decide (off ≤ Z.of_nat j < off + tot)) as [Hin|Hin].
    + rewrite lookup_app_r by lia. rewrite H1, lookup_app_l by lia. rewrite lookup_take_lt by lia.
      replace (Z.to_nat (Z.of_nat j - off)) with (j - Z.to_nat off)%nat by lia.
      destruct (lookup_lt_is_Some_2 bytes (j - Z.to_nat off)) as [x Hx]; [lia|]. by rewrite Hx.
    + destruct (decide (Z.of_nat j < off)).
      * rewrite lookup_app_l by lia. rewrite lookup_take_lt by lia. symmetry. apply file_bytes_lookup. lia.
      * rewrite lookup_app_r by lia. rewrite H1, lookup_app_r by lia. rewrite H2, lookup_drop.
        replace (Z.to_nat (off + tot) + (j - Z.to_nat off - Z.to_nat tot))%nat with j by lia. symmetry. apply file_bytes_lookup. lia.
  - rewrite !lookup_ge_None_2; [done| |rewrite length_file_bytes; lia]. rewrite !length_app, H1, H2, length_drop, Hl. lia.
Qed.

(** The bytes after [tot] bytes of [src] have been written at [off]. *)
Definition overwrite (C src : list Z) (off tot : Z) : list Z :=
  take (Z.to_nat off) C ++ take (Z.to_nat tot) src ++ drop (Z.to_nat (off + tot)) C.

(** What [writei] leaves behind, when it has written [tot] bytes of [src]. *)
Record wrote_file (i : nat) m0 ip0 (src : list Z) (off tot : Z) m ip : Prop := WroteFile {
  wf_inodes : mn_inodes m = <[i := ip]> (mn_inodes m0);
  wf_file : on_file i m ip;
  wf_inode : ip = ip0 <| i_addrs := i_addrs ip |> <| i_size := Z.max (i_size ip0) (off + tot) |>;
  wf_data : data_of m ip = overwrite (data_of m0 ip0) src off tot;
  wf_stored : ∀ x, get_dinode (content m (iblock m0 (i_inum ip0))) (dinode_off (i_inum ip0)) x = with_fields ip x;
  wf_others : ∀ inum x, 0 ≤ inum → inum mod IPB ≠ i_inum ip0 mod IPB →
    get_dinode (content m (iblock m0 (i_inum ip0))) (dinode_off inum) x = get_dinode (content m0 (iblock m0 (i_inum ip0))) (dinode_off inum) x;
  wf_frame : ∀ b, 0 ≤ b < sb_size (mn_sb m0) → used m0 b = true → used m b = true ∧
    (b ≠ map_block m0 → b ≠ iblock m0 (i_inum ip0) → (∀ k, 0 ≤ k < places → fref m0 ip0 k ≠ 0 → fref m0 ip0 k ≠ b) → content m b = content m0 b);
  wf_disk : mn_disk m = mn_disk m0 ∧ mn_sb m = mn_sb m0;
}.

Lemma writei_run i (e : list (mini → mini)) m ip bytes off n :
  on_file i m ip → 0 ≤ off ≤ i_size ip → 0 ≤ n → off + n ≤ MAXFILE * BSIZE → n ≤ Z.of_nat (length bytes) →
  lg_n (mn_log m) + blocks_touched off n + 3 < log_cap m →
  ∃ tot m' ip', writei i (LocalSrc bytes) off n e m = Ret tot e m' ∧ 0 ≤ tot ≤ n ∧ (tot = n ∨ disk_full m') ∧ wrote_file i m ip bytes off tot m' ip' ∧
    lg_n (mn_log m') ≤ lg_n (mn_log m) + blocks_touched off n + 4.
Proof.
  intros F Ho Hn Hmax Hlen Hcap. pose proof F as [W Hc Hs T I]. change (MAXFILE * BSIZE) with 274432 in *.
  destruct (progress_start i _ m ip bytes off W Hc Ho) as [P0 L0].
  destruct (writei_loop i _ e m ip bytes off n W Hs Ho ltac:(lia) Hlen Hcap _ eq_refl 0 m ip P0 L0 ltac:(lia) ltac:(by left))
    as (k & tot & m1 & ip1 & Hr & Hk & Ht & P1 & (D & HL & HD) & Hor).
  destruct P1 as [W1 E1 Ei1 C1 B1]. set (sz := Z.max (i_size ip) (off + tot)) in *.
  assert (i_size ip1 = i_size ip) as Es by (by rewrite (ev_ip _ _ _ _ E1)).
  assert (lg_n (mn_log m1) ≤ lg_n (mn_log m) + blocks_touched off n + 3) as Hlg.
  { pose proof (log_in_n m1 _ (fs_log _ (wr_fs _ _ _ _ W1)) HL) as H.
    pose proof (write_set_length m1 ip1 (D ++ logged (mn_log m))) as Hw. rewrite length_app in Hw.
    pose proof (base_length i _ m ip bytes W) as Hb. lia. }
  assert (log_room (mn_log m1)) as Hroom.
  { eapply (log_in_room m1); [apply (fs_log _ (wr_fs _ _ _ _ W1))|exact HL|apply (wr_out _ _ _ _ W1)|].
    pose proof (write_set_length m1 ip1 (D ++ logged (mn_log m))) as Hw. rewrite length_app in Hw.
    pose proof (base_length i _ m ip bytes W) as Hb. unfold log_cap in *. rewrite (proj1 (ev_size _ _ _ _ E1)). lia. }
  destruct (writei_finish i e m m1 ip ip1 sz F W1 E1 Ei1) as (m' & Eu & Ei & F' & Dk & Sb & By & St & Ot & Fr & Us & Lg); [change (MAXFILE * BSIZE) with 274432; lia|done|done|].
  exists tot, m', (with_size sz ip1). split_and!; [|lia|lia| | |lia].
  - unfold writei. run (inode_mini i ip e m (wr_inode _ _ _ _ W)). rewrite wrapu_id by (change (2 ^ 32) with 4294967296; lia).
    destruct (Z.ltb_spec (i_size ip) off); [lia|]. destruct (Z.ltb_spec (off + n) off); [lia|]. cbn [orb].
    change (MAXFILE * BSIZE) with 274432. destruct (Z.ltb_spec 274432 (off + n)); [lia|].
    rewrite Z.add_0_r in Hr. erewrite bind_Ret; [|eapply while_runs; [exact Hr|change (2 ^ 64) with 18446744073709551616; lia]].
    cbv beta iota. run (inode_mini i ip1 e m1 (wr_inode _ _ _ _ W1)). rewrite Es.
    assert (∀ A (q : () → KM mini A), (when (i_size ip <? off + tot) (kn_set_inode i (λ ip, ip <| i_size := off + tot |>)) ≫= q) e m1 =
      q () e (with_inodes (<[i := with_size sz ip1]> (mn_inodes m1)) m1)) as Hw.
    { intros A q. rewrite when_bind. destruct (Z.ltb_spec (i_size ip) (off + tot)).
      - erewrite bind_Ret by (by apply (set_inode_mini i _ ip1), W1). unfold with_inodes, with_size, sz. by rewrite Z.max_r by lia.
      - unfold sz. rewrite Z.max_l by lia. rewrite <- Es. f_equal.
        assert (with_size (i_size ip1) ip1 = ip1) as -> by (by destruct ip1). rewrite list_insert_id by apply W1. by destruct m1. }
    rewrite Hw. run Eu. by rewrite wraps_id by (change (2 ^ (32 - 1)) with 2147483648; lia).
  - destruct Hor as [|Hfull]; [by left|right]. intros b Hb. rewrite Sb in Hb. rewrite Us by (by rewrite (ev_sb _ _ _ _ E1)).
    apply Hfull. by rewrite (ev_sb _ _ _ _ E1).
  - split.
    + done.
    + done.
    + unfold with_size, set. cbn [i_addrs]. by rewrite (ev_ip _ _ _ _ E1).
    + apply data_written; [done|lia|done|]. intros o Hoo. change (i_size (with_size sz ip1)) with sz in Hoo. rewrite By by done. by apply B1.
    + done.
    + intros inum x H1 H2. rewrite Ot by done. f_equal.
      apply (ev_other _ _ _ _ E1); [apply W..|]. intros k' Hk' H0. by destruct (fv_range _ _ _ (wr_file _ _ _ _ W) _ Hk' H0) as (_ & _ & _ & ?).
    + intros b Hb Hu. split.
      * rewrite Us by (by rewrite (ev_sb _ _ _ _ E1)). by apply (ev_used _ _ _ _ E1).
      * intros H1 H2 H3. rewrite Fr by done. by apply (ev_other _ _ _ _ E1).
    + done.
Qed.

(** Part of a file. *)
Lemma file_bytes_part m ip o j : 0 ≤ o → o + Z.of_nat j ≤ i_size ip → file_bytes m ip o j = take j (drop (Z.to_nat o) (data_of m ip)).
Proof.
  intros Ho Hj. unfold data_of. replace (Z.to_nat (i_size ip)) with (Z.to_nat o + (j + (Z.to_nat (i_size ip) - Z.to_nat o - j)))%nat by lia.
  rewrite !file_bytes_app. rewrite drop_app_length' by (by rewrite length_file_bytes). rewrite Z.add_0_l, Z2Nat.id by lia.
  by rewrite take_app_length' by (by rewrite length_file_bytes).
Qed.

(** ** Statements *)

(** C5: writing a file is overwriting a sequence of bytes.  [writei] terminates
    and returns how many bytes it has written: all [n], or fewer when every block
    of the file system is in use.  The file then holds its old bytes with the
    written ones in place, extended when they reach beyond its end; the inode in
    the table and on disk has the new size and the addresses of the new blocks;
    the file still owns its blocks alone.  No other inode changes, no block that
    is in use for something else changes, and nothing reaches the disk before
    the transaction commits.  When the offset is beyond the end of the file, or the
    end would be beyond the largest file, it returns -1 and changes nothing. *)
Theorem writei_correct i (e : list (mini → mini)) m ip bytes off n :
  on_file i m ip → 0 ≤ off < 2 ^ 32 → 0 ≤ n < 2 ^ 31 → n ≤ Z.of_nat (length bytes) →
  lg_n (mn_log m) + blocks_touched off n + 3 < log_cap m →
  if (off <=? i_size ip) && (off + n <=? MAXFILE * BSIZE) then
    ∃ tot m' ip', writei i (LocalSrc bytes) off n e m = Ret tot e m' ∧ 0 ≤ tot ≤ n ∧ (tot = n ∨ disk_full m') ∧ wrote_file i m ip bytes off tot m' ip'
  else writei i (LocalSrc bytes) off n e m = Ret (-1) e m.
Proof.
  intros F Ho Hn Hlen Hcap. destruct (Z.leb_spec off (i_size ip)) as [H1|H1]; cbn [andb].
  - destruct (Z.leb_spec (off + n) (MAXFILE * BSIZE)) as [H2|H2].
    + destruct (writei_run i e m ip bytes off n F) as (tot & m' & ip' & H); [lia|lia|done|done|done|].
      exists tot, m', ip'. tauto.
    + pose proof (of_size _ _ _ F) as Hs. change (MAXFILE * BSIZE) with 274432 in *. unfold writei. run (inode_mini i ip e m (wr_inode _ _ _ _ (of_writing _ _ _ F))).
      rewrite wrapu_id by (change (2 ^ 32) with 4294967296 in *; change (2 ^ 31) with 2147483648 in *; lia).
      destruct ((i_size ip <? off) || (off + n <? off)); [done|]. change (MAXFILE * BSIZE) with 274432. by destruct (Z.ltb_spec 274432 (off + n)); [|lia].
  - unfold writei. run (inode_mini i ip e m (wr_inode _ _ _ _ (of_writing _ _ _ F))). by destruct (Z.ltb_spec (i_size ip) off); [|lia].
Qed.

(** The written bytes, in the overwritten sequence. *)
Lemma overwrite_written C src off tot :
  0 ≤ off ≤ Z.of_nat (length C) → 0 ≤ tot ≤ Z.of_nat (length src) →
  take (Z.to_nat tot) (drop (Z.to_nat off) (overwrite C src off tot)) = take (Z.to_nat tot) src.
Proof.
  intros Ho Ht. unfold overwrite. rewrite drop_app_length' by (rewrite length_take; lia).
  by rewrite take_app_length' by (rewrite length_take; lia).
Qed.

Lemma length_overwrite C src off tot :
  0 ≤ off ≤ Z.of_nat (length C) → 0 ≤ tot ≤ Z.of_nat (length src) →
  Z.of_nat (length (overwrite C src off tot)) = Z.max (Z.of_nat (length C)) (off + tot).
Proof. intros Ho Ht. unfold overwrite. rewrite !length_app, !length_take, length_drop. lia. Qed.

(** Reading a file that [on_file] describes, in terms of its sequence of bytes. *)
Lemma readi_data i (e : list (mini → mini)) m ip dst o k :
  on_file i m ip → 0 ≤ o ≤ Z.of_nat (length (data_of m ip)) → 0 ≤ k < 2 ^ 31 →
  ∃ m', readi i dst o k e m =
      Ret (Z.min k (Z.of_nat (length (data_of m ip)) - o), take (Z.to_nat k) (drop (Z.to_nat o) (data_of m ip))) e m' ∧
    copies m m' dst (take (Z.to_nat k) (drop (Z.to_nat o) (data_of m ip))).
Proof.
  intros F Ho Hk. pose proof (of_size _ _ _ F) as Hs. change (MAXFILE * BSIZE) with 274432 in Hs.
  change (2 ^ 31) with 2147483648 in Hk.
  assert (Z.of_nat (length (data_of m ip)) = i_size ip) as Hl by (unfold data_of; rewrite length_file_bytes; lia). rewrite Hl in *.
  destruct (readi_copies i ip e dst m o k (wr_inode _ _ _ _ (of_writing _ _ _ F)) (on_file_ok _ _ _ F)) as (m' & E & _ & C);
    [change (2 ^ 32) with 4294967296; lia|change (2 ^ 32) with 4294967296; lia|].
  assert (readable ip o k = Z.min k (i_size ip - o)) as Hr.
  { unfold readable. rewrite wrapu_id by (change (2 ^ 32) with 4294967296; lia). destruct (Z.ltb_spec (i_size ip) o); [lia|].
    destruct (Z.ltb_spec (o + k) o); [lia|done]. }
  rewrite Hr in E, C. rewrite file_bytes_part in E, C by lia.
  assert (take (Z.to_nat (Z.min k (i_size ip - o))) (drop (Z.to_nat o) (data_of m ip)) = take (Z.to_nat k) (drop (Z.to_nat o) (data_of m ip))) as Et.
  { set (D := drop (Z.to_nat o) (data_of m ip)). assert (length D = Z.to_nat (i_size ip - o)) as HD by (unfold D; rewrite length_drop; lia).
    destruct (Z.le_gt_cases k (i_size ip - o)); [f_equal; lia|]. by rewrite !take_ge by lia. }
  rewrite Et in E, C. by exists m'.
Qed.

(** C6: what has been written is read back.  [writei] of [n] bytes within or at
    the end of a file writes all of them, unless every block of the file system is
    then in use.  A [readi] of the place that was written returns exactly the
    bytes that were written, and the caller finds them at [dst]; a [readi] of any
    part of the file returns that part of the old bytes with the written ones in
    place, so that everything else reads as before. *)
Theorem writei_readi_roundtrip i (e : list (mini → mini)) m ip bytes off n :
  on_file i m ip → 0 ≤ off ≤ i_size ip → 0 ≤ n → off + n ≤ MAXFILE * BSIZE → n ≤ Z.of_nat (length bytes) →
  lg_n (mn_log m) + blocks_touched off n + 3 < log_cap m →
  ∃ tot m', writei i (LocalSrc bytes) off n e m = Ret tot e m' ∧ 0 ≤ tot ≤ n ∧ (tot = n ∨ disk_full m') ∧
    (∀ dst e', ∃ m'', readi i dst off tot e' m' = Ret (tot, take (Z.to_nat tot) bytes) e' m'' ∧
       copies m' m'' dst (take (Z.to_nat tot) bytes)) ∧
    let C := overwrite (data_of m ip) bytes off tot in
    Z.of_nat (length C) = Z.max (i_size ip) (off + tot) ∧
    ∀ dst o k e', 0 ≤ o ≤ Z.of_nat (length C) → 0 ≤ k < 2 ^ 31 → ∃ m'',
      readi i dst o k e' m' = Ret (Z.min k (Z.of_nat (length C) - o), take (Z.to_nat k) (drop (Z.to_nat o) C)) e' m'' ∧
      copies m' m'' dst (take (Z.to_nat k) (drop (Z.to_nat o) C)).
Proof.
  intros F Ho Hn Hmax Hlen Hcap. destruct (writei_run i e m ip bytes off n F Ho Hn Hmax Hlen Hcap) as (tot & m' & ip' & E & Ht & Hfull & Wf & _).
  exists tot, m'. split; [done|]. split; [done|]. split; [done|]. cbv zeta.
  pose proof (wf_file _ _ _ _ _ _ _ _ Wf) as F'. pose proof (wf_data _ _ _ _ _ _ _ _ Wf) as Hd. change (MAXFILE * BSIZE) with 274432 in Hmax.
  assert (Z.of_nat (length (data_of m ip)) = i_size ip) as Hl by (unfold data_of; rewrite length_file_bytes; lia).
  assert (Z.of_nat (length (overwrite (data_of m ip) bytes off tot)) = Z.max (i_size ip) (off + tot)) as HC
    by (rewrite length_overwrite, Hl; lia).
  split; [|split; [done|]].
  - intros dst e'. destruct (readi_data i e' m' ip' dst off tot F') as (m'' & E' & C'); [rewrite Hd; lia|change (2 ^ 31) with 2147483648; lia|].
    rewrite Hd, overwrite_written in E', C' by lia. exists m''. split; [|done]. rewrite E'. do 2 f_equal. lia.
  - intros dst o k e' Hok Hk. rewrite <- Hd in *. by apply (readi_data i e' m' ip' dst o k F').
Qed.

(** C7: the chunks into which filewrite cuts a write fit into the reservation
    that begin_op has made.  Within a transaction that has its MAXOPBLOCKS blocks
    left in the log, [writei] of at most (MAXOPBLOCKS-1-1-2)/2 blocks at any
    offset never panics, and adds no more than those blocks to the transaction. *)
Theorem writei_fits_reservation i (e : list (mini → mini)) m ip bytes off n :
  on_file i m ip → 0 ≤ off ≤ i_size ip → 0 ≤ n ≤ (MAXOPBLOCKS - 1 - 1 - 2) / 2 * BSIZE → off + n ≤ MAXFILE * BSIZE → n ≤ Z.of_nat (length bytes) →
  lg_size (mn_log m) = LOGSIZE → lg_n (mn_log m) + MAXOPBLOCKS ≤ LOGSIZE →
  ∃ tot m' ip', writei i (LocalSrc bytes) off n e m = Ret tot e m' ∧ wrote_file i m ip bytes off tot m' ip' ∧
    lg_n (mn_log m') ≤ lg_n (mn_log m) + MAXOPBLOCKS.
Proof.
  intros F Ho Hn Hmax Hlen Hsz Hres. change ((MAXOPBLOCKS - 1 - 1 - 2) / 2 * BSIZE) with 3072 in Hn. change MAXOPBLOCKS with 10 in *.
  assert (LOGSIZE = 30) as El by done. rewrite El in *.
  assert (blocks_touched off n ≤ 4) as Hb by (unfold blocks_touched; destruct (Z.eqb_spec n 0); [lia|zlia]).
  destruct (writei_run i e m ip bytes off n F Ho ltac:(lia) Hmax Hlen) as (tot & m' & ip' & E & _ & _ & Wf & Lg); [unfold log_cap; rewrite Hsz, El; lia|].
  exists tot, m', ip'. split_and!; [done|done|lia].
Qed.

(** ** On the example file system *)

Definition ex_ip : inode := Inode 1 3 1 true T_FILE 0 0 1 700 (9 :: replicate 12 0).
Definition ex_bytes : list Z := replicate 1500 7.

Lemma ex_frefs k : 0 ≤ k < places → fref ex_fs ex_ip k ≠ 0 → k = 0 ∧ fref ex_fs ex_ip k = 9.
Proof.
  intros Hk H0. destruct (decide (k = 0)) as [->|Hne]; [done|]. exfalso. apply H0.
  assert (∀ j, 0 < j ≤ 12 → addr ex_ip j = 0) as Ha.
  { intros j Hj. unfold addr. cbn [i_addrs ex_ip]. replace (Z.to_nat j) with (S (Z.to_nat (j - 1))) by lia.
    rewrite lookup_cons, lookup_replicate_2 by lia. done. }
  unfold fref. rewrite (Ha 12) by lia. destruct (Z.leb_spec k 12); [apply Ha; lia|done].
Qed.

Lemma ex_on_file : on_file 0 ex_fs ex_ip.
Proof.
  assert (sb_size (mn_sb ex_fs) = 16 ∧ map_block ex_fs = 8 ∧ iblock ex_fs 3 = 6) as (E1 & E2 & E3) by done.
  split.
  - split.
    + done.
    + split; [apply ex_fs_bitmap|rewrite E1; change BPB with 8192; lia|by vm_compute|apply ex_fs_log].
    + split; [done| |].
      * intros k Hk H0. destruct (ex_frefs k Hk H0) as [_ ->]. rewrite E1, E2. change (iblock ex_fs (i_inum ex_ip)) with 6. split_and!; (lia || by vm_compute).
      * intros k k' Hk Hk' H0 E. destruct (ex_frefs k Hk H0) as [-> _]. rewrite E in H0. by destruct (ex_frefs k' Hk' H0) as [-> _].
    + change (iblock ex_fs (i_inum ex_ip)) with 6. rewrite E1. split; [lia|by vm_compute].
    + done.
    + done.
  - intros bn H1 H2. change (bn * 1024 < 700) in H2. assert (bn = 0) as -> by lia. by vm_compute.
  - done.
  - split; [cbn; unfold T_FILE; lia|cbn; lia|cbn; lia|cbn; lia|cbn; lia|]. split; [reflexivity|].
    apply Forall_cons_2; [lia|]. apply Forall_replicate. lia.
  - done.
Qed.

Lemma writei_correct_witness :
  (∃ tot m' ip', writei 0 (LocalSrc ex_bytes) 700 1500 [] ex_fs = Ret tot [] m' ∧ wrote_file 0 ex_fs ex_ip ex_bytes 700 tot m' ip') ∧
  writei 0 (LocalSrc ex_bytes) 701 1500 [] ex_fs = Ret (-1) [] ex_fs.
Proof.
  assert (1500 ≤ Z.of_nat (length ex_bytes)) as Hl by (unfold ex_bytes; rewrite length_replicate; lia).
  split.
  - destruct (writei_correct 0 [] ex_fs ex_ip ex_bytes 700 1500 ex_on_file) as (tot & m' & ip' & E & _ & _ & Wf); [lia|lia|exact Hl|reflexivity|].
    exists tot, m', ip'. split; [exact E|exact Wf].
  - apply (writei_correct 0 [] ex_fs ex_ip ex_bytes 701 1500 ex_on_file); [lia|lia|exact Hl|reflexivity].
Defined.

Lemma writei_readi_roundtrip_witness :
  ∃ tot m', writei 0 (LocalSrc ex_bytes) 700 1500 [] ex_fs = Ret tot [] m' ∧ (tot = 1500 ∨ disk_full m') ∧
    ∃ m'', readi 0 (KernDst 4096) 700 tot [] m' = Ret (tot, take (Z.to_nat tot) ex_bytes) [] m''.
Proof.
  assert (1500 ≤ Z.of_nat (length ex_bytes)) as Hl by (unfold ex_bytes; rewrite length_replicate; lia).
  destruct (writei_readi_roundtrip 0 [] ex_fs ex_ip ex_bytes 700 1500 ex_on_file) as (tot & m' & E & _ & Hf & H & _);
    [cbn; lia|lia|by vm_compute|exact Hl|reflexivity|].
  exists tot, m'. split; [exact E|]. split; [exact Hf|]. destruct (H (KernDst 4096) []) as (m'' & E' & _). exists m''. exact E'.
Defined.

Lemma writei_fits_reservation_witness : ∃ tot m' ip', writei 0 (LocalSrc ex_bytes) 700 1500 [] ex_fs = Ret tot [] m' ∧
  wrote_file 0 ex_fs ex_ip ex_bytes 700 tot m' ip' ∧ lg_n (mn_log m') ≤ 10.
Proof.
  assert (1500 ≤ Z.of_nat (length ex_bytes)) as Hl by (unfold ex_bytes; rewrite length_replicate; lia).
  apply (writei_fits_reservation 0 [] ex_fs ex_ip ex_bytes 700 1500 ex_on_file);
    [cbn; lia|split; [lia|vm_compute; discriminate]|vm_compute; discriminate|exact Hl|reflexivity|vm_compute; discriminate].
Defined.
