(* ===== verification/Console.v ===== *)
(** * Console: UART, console, printf and PLIC
    (kernel/uart.c, kernel/console.c, kernel/printf.c, kernel/plic.c)

    The transmit buffer and the input buffer are rings indexed by counters that
    only grow.  The UART is a device: the characters it receives and the
    answers of its status register are part of the state, characters sent are
    appended to [ua_out]. *)

From S2P Require Import Prelude Params CString State Spinlock PhysMem Kalloc Vm ProcBase.

Definition co_get {A} (f : console → A) : K A := gets (λ s, f (k_cons s)).
Definition co_upd (g : console → console) : K () := modify (λ s, s <| k_cons ::= g |>).
Definition mmio32 (a v : Z) : K () := co_upd (λ c, c <| ua_mmio ::= λ l, l ++ [(a, v)] |>).

(** ** uart.c *)

Definition UART_TX_BUF_SIZE : Z := 32.
Definition WriteReg (reg v : Z) : K () := mmio32 (UART0 + reg) v.
Definition send (c : Z) : K () := co_upd (λ x, x <| ua_out ::= λ l, l ++ [u8 c] |>).

(** A poll of LSR_TX_IDLE. *)
Definition tx_idle : K bool :=
  l ← co_get ua_idle;
  match l with
  | [] => mret false
  | b :: l' => co_upd (λ x, x <| ua_idle := l' |>);; mret b
  end.

Definition uartinit : K () :=
  WriteReg 1 0x00;;
  WriteReg 3 0x80;;
  WriteReg 0 0x03;;
  WriteReg 1 0x00;;
  WriteReg 3 0x03;;
  WriteReg 2 (Z.lor 1 6);;
  WriteReg 1 (Z.lor 2 1);;
  initlock LUart.

Definition uartstart : K () :=
  while_ (λ _ : (),
    w ← co_get tx_w;
    r ← co_get tx_r;
    if w =? r then mret (inr ())
    else
      idle ← tx_idle;
      if negb idle then mret (inr ())
      else
        buf ← co_get tx_buf;
        let c := default 0 (buf !! Z.to_nat (r mod UART_TX_BUF_SIZE)) in
        co_upd (λ x, x <| tx_r ::= λ n, u64 (n + 1) |>);;
        wakeup ChUartR;;
        send c;;
        mret (inl ())) ().

(** [if(panicked) for(;;) ;] *)
Definition freeze_if_panicked : K () :=
  p ← co_get ua_panicked;
  when p blocked.

Definition uartputc (c : Z) : K () :=
  acquire LUart;;
  freeze_if_panicked;;
  while_ (λ _ : (),
    w ← co_get tx_w;
    r ← co_get tx_r;
    if w =? u64 (r + UART_TX_BUF_SIZE) then sleep ChUartR LUart;; mret (inl ())
    else mret (inr ())) ();;
  co_upd (λ x, x <| tx_buf ::= insert (Z.to_nat (tx_w x mod UART_TX_BUF_SIZE)) (u8 c) |>);;
  co_upd (λ x, x <| tx_w ::= λ n, u64 (n + 1) |>);;
  uartstart;;
  release LUart.

(** The spin on LSR_TX_IDLE lets the environment run between two polls. *)
Definition uartputc_sync (c : Z) : K () :=
  push_off;;
  freeze_if_panicked;;
  while_ (λ _ : (),
    idle ← tx_idle;
    if idle : bool then mret (inr ()) else interfere;; mret (inl ())) ();;
  send c;;
  pop_off.

Definition uartgetc : K Z :=
  l ← co_get ua_in;
  match l with
  | [] => mret (-1)
  | c :: l' => co_upd (λ x, x <| ua_in := l' |>);; mret (u8 c)
  end.

(** ** console.c *)

Definition BACKSPACE : Z := 0x100.
Definition INPUT_BUF_SIZE : Z := 128.
Definition ctrl (x : Z) : Z := x - 64.

Definition consputc (c : Z) : K () :=
  if c =? BACKSPACE then uartputc_sync 8;; uartputc_sync 32;; uartputc_sync 8
  else uartputc_sync c.

Section Console.
Context `{!Image}.

Definition consolewrite (src : source) (n : Z) : K Z :=
  while_ (λ '(i, src),
    if i <? n then
      '(r, bytes) ← either_copyin src 1;
      if r =? -1 then mret (inr i)
      else
        uartputc (default 0 (head bytes));;
        mret (inl (i + 1, match src with
                          | UserSrc va => UserSrc (u64 (va + 1))
                          | LocalSrc l => LocalSrc (drop 1 l)
                          end))
    else mret (inr i)) (0, src).

(** The wait for input: [true] when the process has been killed. *)
Definition console_wait : K bool :=
  while_ (λ _ : (),
    r ← co_get cons_r;
    w ← co_get cons_w;
    if r =? w then
      p ← myproc;
      p ← deref p;
      k ← killed p;
      if ctrue k then release LCons;; mret (inr true)
      else sleep ChConsR LCons;; mret (inl ())
    else mret (inr false)) ().

Definition consoleread (dst : dest) (n : Z) : K (Z * list Z) :=
  let target := u32 n in
  acquire LCons;;
  while_ (λ '(n, dst, out),
    if 0 <? n then
      killed ← console_wait;
      if killed : bool then mret (inr (-1, out))
      else
        buf ← co_get cons_buf;
        r ← co_get cons_r;
        let c := default 0 (buf !! Z.to_nat (r mod INPUT_BUF_SIZE)) in
        co_upd (λ x, x <| cons_r ::= λ n, u32 (n + 1) |>);;
        if c =? ctrl 68 then
          when (u32 n <? target) (co_upd (λ x, x <| cons_r ::= λ n, u32 (n - 1) |>));;
          release LCons;;
          mret (inr (i32 (target - n), out))
        else
          x ← either_copyout dst [c];
          if x =? -1 then
            release LCons;;
            mret (inr (i32 (target - n), out))
          else
            let dst := match dst with
                       | UserDst va => UserDst (u64 (va + 1))
                       | KernDst pa => KernDst (u64 (pa + 1))
                       | LocalDst => LocalDst
                       end in
            let n := n - 1 in
            if c =? 10 then
              release LCons;;
              mret (inr (i32 (target - n), out ++ [c]))
            else mret (inl (n, dst, out ++ [c]))
    else
      release LCons;;
      mret (inr (i32 (target - n), out))) (n, dst, []).
End Console.

(** The kill-line loop. *)
Definition kill_line : K () :=
  while_ (λ _ : (),
    e ← co_get cons_e;
    w ← co_get cons_w;
    buf ← co_get cons_buf;
    if negb (e =? w) &&
       negb (default 0 (buf !! Z.to_nat (u32 (e - 1) mod INPUT_BUF_SIZE)) =? 10) then
      co_upd (λ x, x <| cons_e ::= λ n, u32 (n - 1) |>);;
      consputc BACKSPACE;;
      mret (inl ())
    else mret (inr ())) ().

Definition consoleintr (c : Z) : K () :=
  acquire LCons;;
  (if c =? ctrl 80 then procdump
   else if c =? ctrl 85 then kill_line
   else if (c =? ctrl 72) || (c =? 127) then
     e ← co_get cons_e;
     w ← co_get cons_w;
     when (negb (e =? w)) (
       co_upd (λ x, x <| cons_e ::= λ n, u32 (n - 1) |>);;
       consputc BACKSPACE)
   else
     e ← co_get cons_e;
     r ← co_get cons_r;
     when (negb (c =? 0) && (u32 (e - r) <? INPUT_BUF_SIZE)) (
       let c := if c =? 13 then 10 else c in
       consputc c;;
       co_upd (λ x, x <| cons_buf ::= insert (Z.to_nat (cons_e x mod INPUT_BUF_SIZE)) (u8 c) |>);;
       co_upd (λ x, x <| cons_e ::= λ n, u32 (n + 1) |>);;
       e ← co_get cons_e;
       r ← co_get cons_r;
       when ((c =? 10) || (c =? ctrl 68) || (u32 (e - r) =? INPUT_BUF_SIZE)) (
         co_upd (λ x, x <| cons_w := cons_e x |>);;
         wakeup ChConsR)));;
  release LCons.

Definition consoleinit : K () :=
  initlock LCons;;
  uartinit;;
  co_upd (λ x, x <| cons_dev := true |>).

Definition uartintr : K () :=
  while_ (λ _ : (),
    c ← uartgetc;
    if c =? -1 then mret (inr ()) else consoleintr c;; mret (inl ())) ();;
  acquire LUart;;
  uartstart;;
  release LUart.

(** ** printf.c *)

Definition digits : list Z := bytes_of "0123456789abcdef".
Definition digit (d : Z) : Z := default 0 (digits !! Z.to_nat d).

(** The digits of [x] in the base, least significant first; a 32-bit number has
    at most 32 digits. *)
Fixpoint digits_loop (fuel : nat) (x base : Z) : list Z :=
  match fuel with
  | O => []
  | S fuel' =>
      digit (x mod base) :: (if x / base =? 0 then [] else digits_loop fuel' (x / base) base)
  end.

(** The characters [printint] prints, in order. *)
Definition printint_chars (xx base : Z) (sign : bool) : list Z :=
  let neg := sign && (xx <? 0) in
  let x := u32 (if neg then - xx else xx) in
  reverse (digits_loop 32 x base ++ (if neg then [45] else [])).

Definition printint (xx base : Z) (sign : bool) : K () :=
  foreach (printint_chars xx base sign) consputc.

Fixpoint printptr_chars (n : nat) (x : Z) : list Z :=
  match n with
  | O => []
  | S n' => digit (Z.shiftr x 60) :: printptr_chars n' (u64 (Z.shiftl x 4))
  end.

Definition printptr (x : Z) : K () :=
  consputc 48;;
  consputc 120;;
  foreach (printptr_chars 16 x) consputc.

(** The loop over the format; a missing argument is a fault. *)
Fixpoint print_fmt (fmt : list Z) (args : list parg) : K () :=
  match fmt with
  | [] => mret ()
  | c :: fmt' =>
      if c =? 0 then mret ()
      else if negb (c =? 37) then consputc c;; print_fmt fmt' args
      else
        match fmt' with
        | [] => mret ()
        | d :: fmt'' =>
            if d =? 0 then mret ()
            else if d =? 100 then
              match args with
              | PInt x :: args' => printint (i32 x) 10 true;; print_fmt fmt'' args'
              | _ => fault "va_arg"
              end
            else if d =? 120 then
              match args with
              | PInt x :: args' => printint (i32 x) 16 true;; print_fmt fmt'' args'
              | _ => fault "va_arg"
              end
            else if d =? 112 then
              match args with
              | PInt x :: args' => printptr (u64 x);; print_fmt fmt'' args'
              | _ => fault "va_arg"
              end
            else if d =? 115 then
              match args with
              | PStr s :: args' =>
                  foreach (cstring s) consputc;; print_fmt fmt'' args'
              | PInt 0 :: args' =>
                  foreach (bytes_of "(null)") consputc;; print_fmt fmt'' args'
              | _ => fault "va_arg"
              end
            else if d =? 37 then consputc 37;; print_fmt fmt'' args
            else consputc 37;; consputc d;; print_fmt fmt'' args
        end
  end.

Definition printf (fmt : string) (args : list parg) : K () :=
  locking ← co_get pr_locking;
  when locking (acquire LPr);;
  print_fmt (bytes_of fmt) args;;
  when locking (release LPr).

(** [panic]: prints the message, freezes the output of the other harts and
    never returns; the callers' [Panic] outcome stands for this. *)
Definition panic_print (msg : string) : K () :=
  co_upd (λ x, x <| pr_locking := false |>);;
  printf "panic: " [];;
  printf msg [];;
  printf nl [];;
  co_upd (λ x, x <| ua_panicked := true |>).

Definition printfinit : K () :=
  initlock LPr;;
  co_upd (λ x, x <| pr_locking := true |>).

(** ** plic.c *)

Definition PLIC_SENABLE (hart : Z) : Z := PLIC + 0x2080 + hart * 0x100.
Definition PLIC_SPRIORITY (hart : Z) : Z := PLIC + 0x201000 + hart * 0x2000.
Definition PLIC_SCLAIM (hart : Z) : Z := PLIC + 0x201004 + hart * 0x2000.

Definition plicinit : K () :=
  mmio32 (PLIC + UART0_IRQ * 4) 1;;
  mmio32 (PLIC + VIRTIO0_IRQ * 4) 1.

Definition plicinithart : K () :=
  hart ← cpuid;
  mmio32 (PLIC_SENABLE (Z.of_nat hart)) (Z.lor (Z.shiftl 1 UART0_IRQ) (Z.shiftl 1 VIRTIO0_IRQ));;
  mmio32 (PLIC_SPRIORITY (Z.of_nat hart)) 0.

Definition plic_claim : K Z :=
  l ← gets k_irq;
  match l with
  | [] => mret 0
  | irq :: l' => modify (λ s, s <| k_irq := l' |>);; mret (i32 irq)
  end.

Definition plic_complete (irq : Z) : K () :=
  hart ← cpuid;
  mmio32 (PLIC_SCLAIM (Z.of_nat hart)) irq.

(** ** What printint prints *)

(** Reading a number back: the value of a digit, of a string of digits, and of
    a string with an optional minus sign. *)
Definition digit_value (c : Z) : Z := if c <=? 57 then c - 48 else c - 87.
Definition value_of (base : Z) (l : list Z) : Z := foldl (λ a c, a * base + digit_value c) 0 l.
Definition read_int (base : Z) (l : list Z) : Z :=
  match l with c :: l' => if c =? 45 then - value_of base l' else value_of base l | [] => 0 end.

Lemma digit_spec d : 0 ≤ d < 16 → digit_value (digit d) = d ∧ 48 ≤ digit d.
Proof.
  intros Hd. assert (d = 0 ∨ d = 1 ∨ d = 2 ∨ d = 3 ∨ d = 4 ∨ d = 5 ∨ d = 6 ∨ d = 7 ∨ d = 8 ∨ d = 9 ∨ d = 10 ∨ d = 11 ∨
    d = 12 ∨ d = 13 ∨ d = 14 ∨ d = 15) as H by lia.
  by repeat (destruct H as [->|H]; [by vm_compute|]); subst; vm_compute.
Qed.

Lemma value_of_rev base l : value_of base (reverse l) = foldr (λ c a, a * base + digit_value c) 0 l.
Proof. unfold value_of. induction l as [|c l IH]; [done|]. by rewrite reverse_cons, foldl_app, IH. Qed.

Section Digits.
Variable base : Z.
Hypothesis Hbase : 2 ≤ base ≤ 16.

Lemma digits_loop_value fuel x : 0 ≤ x < base ^ Z.of_nat fuel →
  foldr (λ c a, a * base + digit_value c) 0 (digits_loop fuel x base) = x.
Proof using Hbase.
  revert x. induction fuel as [|fuel IH]; intros x Hx; cbn [digits_loop foldr]; [change (base ^ Z.of_nat 0) with 1 in Hx; lia|].
  rewrite Nat2Z.inj_succ, Z.pow_succ_r in Hx by lia.
  destruct (digit_spec (x mod base)) as [Hv _]; [pose proof (Z.mod_pos_bound x base); lia|].
  pose proof (Z.div_mod x base ltac:(lia)) as Hd. destruct (Z.eqb_spec (x / base) 0) as [E|_].
  - cbn. rewrite Hv. rewrite E in Hd. lia.
  - rewrite IH, Hv; [lia|]. split; [apply Z.div_pos; lia|]. apply Z.div_lt_upper_bound; lia.
Qed.

Lemma digits_loop_length fuel x k : 0 ≤ x < base ^ Z.of_nat (S k) → (length (digits_loop fuel x base) ≤ S k)%nat.
Proof using Hbase.
  revert x k. induction fuel as [|fuel IH]; intros x k Hx; cbn [digits_loop length]; [lia|].
  destruct (Z.eqb_spec (x / base) 0) as [E|Hne]; [cbn; lia|]. rewrite Nat2Z.inj_succ, Z.pow_succ_r in Hx by lia.
  destruct k as [|k].
  - change (base ^ Z.of_nat 0) with 1 in Hx. destruct Hne. apply Z.div_small. lia.
  - specialize (IH (x / base) k). assert (0 ≤ x / base) by (apply Z.div_pos; lia).
    assert (x / base < base ^ Z.of_nat (S k)) by (apply Z.div_lt_upper_bound; lia). lia.
Qed.

Lemma digits_loop_ge fuel x : Forall (λ c, 48 ≤ c) (digits_loop fuel x base).
Proof using Hbase.
  revert x. induction fuel as [|fuel IH]; intros x; cbn; [constructor|]. constructor.
  - apply digit_spec. pose proof (Z.mod_pos_bound x base). lia.
  - destruct (_ =? 0); [constructor|apply IH].
Qed.

Lemma value_of_reverse fuel x :
  0 ≤ x < base ^ Z.of_nat fuel → value_of base (reverse (digits_loop fuel x base)) = x.
Proof using Hbase. intros Hx. rewrite value_of_rev. by apply digits_loop_value. Qed.
End Digits.

Lemma read_int_digits base l : Forall (λ c, 48 ≤ c) l → read_int base l = value_of base l.
Proof. intros H. destruct l as [|c l]; [done|]. cbn. apply Forall_cons in H as [Hc _]. by destruct (Z.eqb_spec c 45); [lia|]. Qed.

(** Printing numbers.  For every int and for the bases 10 and 16 that printf
    uses, [printint] writes at most 11 characters into its buffer of 16, and the
    characters it prints, read as a number of that base with an optional minus
    sign, denote the number, the smallest int included. *)
Theorem printint_bounded xx base :
  - 2 ^ 31 ≤ xx < 2 ^ 31 → base = 10 ∨ base = 16 →
  (length (printint_chars xx base true) ≤ 11)%nat ∧ read_int base (printint_chars xx base true) = xx.
Proof.
  intros Hx Hb. change (2 ^ 31) with 2147483648 in Hx. unfold printint_chars. cbn [andb].
  set (x := u32 (if xx <? 0 then - xx else xx)).
  assert (x = Z.abs xx) as Hxv.
  { unfold x. destruct (Z.ltb_spec xx 0); rewrite wrapu_id; change (2 ^ 32) with 4294967296; lia. }
  assert (2 ≤ base ≤ 16) as Hbase by lia.
  assert (0 ≤ x < base ^ Z.of_nat 32) as Hr.
  { assert (2147483648 < 10 ^ Z.of_nat 32) by reflexivity. assert (2147483648 < 16 ^ Z.of_nat 32) by reflexivity.
    destruct Hb as [->| ->]; lia. }
  assert (length (digits_loop 32 x base) ≤ 10)%nat as Hlen.
  { apply (digits_loop_length base Hbase 32 x 9). assert (2147483648 < 10 ^ Z.of_nat 10) by reflexivity.
    assert (2147483648 < 16 ^ Z.of_nat 10) by reflexivity. destruct Hb as [->| ->]; lia. }
  pose proof (value_of_reverse base Hbase 32 x Hr) as Hv.
  rewrite reverse_app, length_app, !length_reverse. destruct (Z.ltb_spec xx 0).
  - split; [cbn [length]; lia|]. change (reverse [45] ++ reverse (digits_loop 32 x base)) with (45 :: reverse (digits_loop 32 x base)).
    cbn [read_int]. change (45 =? 45) with true. cbv match. rewrite Hv. lia.
  - split; [cbn [length]; lia|]. change (reverse [] ++ reverse (digits_loop 32 x base)) with (reverse (digits_loop 32 x base)).
    rewrite read_int_digits, Hv; [lia|]. apply Forall_reverse, digits_loop_ge, Hbase.
Qed.

Lemma printint_bounded_witness :
  printint_chars (-2147483648) 10 true = bytes_of "-2147483648" ∧ read_int 10 (bytes_of "-2147483648") = -2147483648.
Proof.
  destruct (printint_bounded (-2147483648) 10) as [_ H]; [lia|left; reflexivity|].
  split; [vm_compute; reflexivity|exact H].
Defined.
