(* ===== verification/File.v ===== *)
(** * File: open files and pipes (kernel/file.c, kernel/pipe.c)

    A [struct file *] is an index into the file table.  A pipe is named by the
    address of its page; its fields are kept in [f_pipes]. *)

From S2P Require Import Prelude Params CString State Spinlock PhysMem Kalloc Vm ProcBase Sleeplock Virtio Bio Blocks Bytes Log Fs Console.

Definition PIPESIZE : Z := 512.
Definition CONSOLE : Z := 1.

Definition fget {A} (i : nat) (g : file → A) : K A :=
  fl ← fs_get f_files;
  match fl !! i with Some x => mret (g x) | None => fault "file" end.
Definition fset (i : nat) (g : file → file) : K () :=
  fl ← fs_get f_files;
  check (bool_decide (i < length fl)%nat) "file";;
  fs_upd (λ f, f <| f_files ::= alter g i |>).

Definition pipe_get {A} (pi : Z) (g : pipe → A) : K A :=
  ps ← fs_get f_pipes;
  match ps !! pi with Some x => mret (g x) | None => fault "pipe" end.
Definition pipe_set (pi : Z) (g : pipe → pipe) : K () :=
  ps ← fs_get f_pipes;
  check (bool_decide (is_Some (ps !! pi))) "pipe";;
  fs_upd (λ f, f <| f_pipes ::= alter g pi |>).

(** ** pipe.c: the two ends *)

Section Pipe.
Context `{!Image}.

Definition pipeclose (pi : Z) (writable : bool) : K () :=
  acquire (LPipe pi);;
  (if writable then
     pipe_set pi (λ p, p <| pi_writeopen := false |>);;
     wakeup (ChPipeR pi)
   else
     pipe_set pi (λ p, p <| pi_readopen := false |>);;
     wakeup (ChPipeW pi));;
  ro ← pipe_get pi pi_readopen;
  wo ← pipe_get pi pi_writeopen;
  if negb ro && negb wo then
    release (LPipe pi);;
    fs_upd (λ f, f <| f_pipes ::= delete pi |>);;
    kfree pi
  else release (LPipe pi).

Definition pipewrite (pi addr n : Z) : K Z :=
  pr ← myproc;
  pr ← deref pr;
  acquire (LPipe pi);;
  r ← while_ (λ i,
    if i <? n then
      ro ← pipe_get pi pi_readopen;
      k ← (if negb ro then mret 1 else killed pr);
      if ctrue k then
        release (LPipe pi);;
        mret (inr None)
      else
        nwrite ← pipe_get pi pi_nwrite;
        nread ← pipe_get pi pi_nread;
        if nwrite =? u32 (nread + PIPESIZE) then
          wakeup (ChPipeR pi);;
          sleep (ChPipeW pi) (LPipe pi);;
          mret (inl i)
        else
          pagetable ← pget pr p_pagetable;
          '(c, bytes) ← copyin pagetable (u64 (addr + i)) 1;
          if c =? -1 then mret (inr (Some i))
          else
            pipe_set pi (λ p, p <| pi_data ::= insert (Z.to_nat (nwrite mod PIPESIZE)) (default 0 (head bytes)) |>
                               <| pi_nwrite := u32 (nwrite + 1) |>);;
            mret (inl (i + 1))
    else mret (inr (Some i))) 0;
  match r with
  | None => mret (-1)
  | Some i =>
      wakeup (ChPipeR pi);;
      release (LPipe pi);;
      mret i
  end.

(** The wait of [piperead] for data: [true] when the reader has been killed. *)
Definition pipe_wait (pi : Z) (pr : nat) : K bool :=
  while_ (λ _ : (),
    nread ← pipe_get pi pi_nread;
    nwrite ← pipe_get pi pi_nwrite;
    wo ← pipe_get pi pi_writeopen;
    if (nread =? nwrite) && wo then
      k ← killed pr;
      if ctrue k then release (LPipe pi);; mret (inr true)
      else sleep (ChPipeR pi) (LPipe pi);; mret (inl ())
    else mret (inr false)) ().

Definition piperead (pi addr n : Z) : K Z :=
  pr ← myproc;
  pr ← deref pr;
  acquire (LPipe pi);;
  k ← pipe_wait pi pr;
  if k : bool then mret (-1)
  else
    i ← while_ (λ i,
      if i <? n then
        nread ← pipe_get pi pi_nread;
        nwrite ← pipe_get pi pi_nwrite;
        if nread =? nwrite then mret (inr i)
        else
          data ← pipe_get pi pi_data;
          let ch := default 0 (data !! Z.to_nat (nread mod PIPESIZE)) in
          pipe_set pi (λ p, p <| pi_nread := u32 (nread + 1) |>);;
          pagetable ← pget pr p_pagetable;
          c ← copyout pagetable (u64 (addr + i)) [ch];
          if c =? -1 then mret (inr i) else mret (inl (i + 1))
      else mret (inr i)) 0;
    wakeup (ChPipeW pi);;
    release (LPipe pi);;
    mret i.

(** ** file.c *)

Definition fileinit : K () := initlock LFtable.

Definition filealloc : K (option nat) :=
  acquire LFtable;;
  r ← scan (seq 0 NFILE) (λ f,
    ref ← fget f fl_ref;
    if ref =? 0 then
      fset f (λ x, x <| fl_ref := 1 |>);;
      mret (Some f)
    else mret None);
  release LFtable;;
  mret r.

Definition filedup (f : nat) : K nat :=
  acquire LFtable;;
  ref ← fget f fl_ref;
  panic_if (ref <? 1) "filedup";;
  fset f (λ x, x <| fl_ref ::= λ r, i32 (r + 1) |>);;
  release LFtable;;
  mret f.

Definition fileclose (f : nat) : K () :=
  acquire LFtable;;
  ref ← fget f fl_ref;
  panic_if (ref <? 1) "fileclose";;
  fset f (λ x, x <| fl_ref ::= λ r, i32 (r - 1) |>);;
  if 0 <? i32 (ref - 1) then release LFtable
  else
    ff ← fget f (λ x, x);
    fset f (λ x, x <| fl_ref := 0 |> <| fl_type := FD_NONE |>);;
    release LFtable;;
    match fl_type ff with
    | FD_PIPE => pipeclose (fl_pipe ff) (fl_writable ff)
    | FD_INODE | FD_DEVICE =>
        begin_op;;
        iput (fl_ip ff);;
        end_op
    | FD_NONE => mret ()
    end.

Definition pipealloc : K (option (nat * nat)) :=
  f0 ← filealloc;
  f1 ← (match f0 with None => mret None | Some _ => filealloc end);
  let bad : K (option (nat * nat)) :=
    (match f0 with Some f => fileclose f | None => mret () end);;
    (match f1 with Some f => fileclose f | None => mret () end);;
    mret None in
  match f0, f1 with
  | Some a, Some b =>
      pi ← kalloc;
      if pi =? 0 then bad
      else
        fs_upd (λ f, f <| f_pipes ::= insert pi (Pipe (replicate (Z.to_nat PIPESIZE) 5) 0 0 true true) |>);;
        initlock (LPipe pi);;
        fset a (λ x, x <| fl_type := FD_PIPE |> <| fl_readable := true |>
                       <| fl_writable := false |> <| fl_pipe := pi |>);;
        fset b (λ x, x <| fl_type := FD_PIPE |> <| fl_readable := false |>
                       <| fl_writable := true |> <| fl_pipe := pi |>);;
        mret (Some (a, b))
  | _, _ => bad
  end.

Definition filestat (f : nat) (addr : Z) : K Z :=
  p ← myproc;
  p ← deref p;
  ty ← fget f fl_type;
  ip ← fget f fl_ip;
  match ty with
  | FD_INODE | FD_DEVICE =>
      ilock ip;;
      st ← stati ip;
      iunlock ip;;
      pagetable ← pget p p_pagetable;
      r ← copyout pagetable addr st;
      if r <? 0 then mret (-1) else mret 0
  | _ => mret (-1)
  end.

(** The device switch: only the console is ever connected. *)
Definition dev_ok (major : Z) : K bool :=
  connected ← co_get cons_dev;
  mret ((0 <=? major) && (major <? NDEV) && (major =? CONSOLE) && connected).

Definition fileread (f : nat) (addr n : Z) : K Z :=
  readable ← fget f fl_readable;
  if negb readable then mret (-1)
  else
    ty ← fget f fl_type;
    match ty with
    | FD_PIPE =>
        pi ← fget f fl_pipe;
        piperead pi addr n
    | FD_DEVICE =>
        major ← fget f fl_major;
        ok ← dev_ok major;
        if negb ok then mret (-1)
        else '(r, _) ← consoleread (UserDst addr) n; mret r
    | FD_INODE =>
        ip ← fget f fl_ip;
        ilock ip;;
        off ← fget f fl_off;
        '(r, _) ← readi ip (UserDst addr) off (u32 n);
        when (0 <? r) (fset f (λ x, x <| fl_off ::= λ o, u32 (o + r) |>));;
        iunlock ip;;
        mret r
    | FD_NONE => panic "fileread"
    end.

Definition filewrite (f : nat) (addr n : Z) : K Z :=
  writable ← fget f fl_writable;
  if negb writable then mret (-1)
  else
    ty ← fget f fl_type;
    match ty with
    | FD_PIPE =>
        pi ← fget f fl_pipe;
        pipewrite pi addr n
    | FD_DEVICE =>
        major ← fget f fl_major;
        ok ← dev_ok major;
        if negb ok then mret (-1) else consolewrite (UserSrc addr) n
    | FD_INODE =>
        let max := (MAXOPBLOCKS - 1 - 1 - 2) / 2 * BSIZE in
        ip ← fget f fl_ip;
        i ← while_ (λ i,
          if i <? n then
            let n1 := Z.min (n - i) max in
            begin_op;;
            ilock ip;;
            off ← fget f fl_off;
            r ← writei ip (UserSrc (u64 (addr + i))) off (u32 n1);
            when (0 <? r) (fset f (λ x, x <| fl_off ::= λ o, u32 (o + r) |>));;
            iunlock ip;;
            end_op;;
            if negb (r =? n1) then mret (inr i) else mret (inl (i + r))
          else mret (inr i)) 0;
        mret (if i =? n then n else -1)
    | FD_NONE => panic "filewrite"
    end.
End Pipe.
