(* ===== verification/Pipes.v ===== *)
(** * Pipes: what pipewrite and piperead promise (kernel/pipe.c)

    A pipe is a queue of at most PIPESIZE bytes ([queued]).  A process inside
    pipewrite or piperead holds the lock of the pipe ([in_pipe]); while it sleeps
    the environment acts, and what other processes may do to the pipe then is
    the hypothesis of the theorems: readers take bytes from the front
    ([drains]), writers append ([feeds]). *)

From S2P Require Import Prelude Params CString State Spinlock PhysMem Kalloc Vm VmInv VmMap VmGrow VmCow VmCopy ProcBase Sleeplock Virtio Bio Blocks Bytes Log Fs Console File.

(** ** The ring *)

(** The bytes written and not yet read, oldest first. *)
Definition queued (p : pipe) : list Z :=
  (λ k, nth (Z.to_nat (k mod PIPESIZE)) (pi_data p) 0) <$> seqZ (pi_nread p) (u32 (pi_nwrite p - pi_nread p)).

Record pipe_ok (p : pipe) : Prop := PipeOk {
  po_len : length (pi_data p) = Z.to_nat PIPESIZE;
  po_nread : 0 ≤ pi_nread p < 2 ^ 32;
  po_nwrite : 0 ≤ pi_nwrite p < 2 ^ 32;
  po_fits : u32 (pi_nwrite p - pi_nread p) ≤ PIPESIZE;
}.

(** The updates of the two loops. *)
Definition put_byte (c : Z) (p : pipe) : pipe :=
  p <| pi_data ::= insert (Z.to_nat (pi_nwrite p mod PIPESIZE)) c |> <| pi_nwrite := u32 (pi_nwrite p + 1) |>.
Definition got_byte (p : pipe) : pipe := p <| pi_nread := u32 (pi_nread p + 1) |>.

Section Ring.
Implicit Types (p : pipe).

Lemma queued_length p : length (queued p) = Z.to_nat (u32 (pi_nwrite p - pi_nread p)).
Proof. unfold queued. by rewrite length_fmap, length_seqZ. Qed.

Lemma queued_le p : pipe_ok p → Z.of_nat (length (queued p)) ≤ PIPESIZE.
Proof.
  intros [_ _ _ Hf]. rewrite queued_length. pose proof (wrapu_range 32 (pi_nwrite p - pi_nread p) ltac:(lia)). lia.
Qed.

Lemma u32_diff a b : 0 ≤ a < 2 ^ 32 → 0 ≤ b < 2 ^ 32 →
  u32 (a - b) = if a <? b then a - b + 2 ^ 32 else a - b.
Proof. intros. unfold wrapu. change (2 ^ 32) with 4294967296 in *. destruct (Z.ltb_spec a b); zlia. Qed.

Lemma u32_succ a : 0 ≤ a < 2 ^ 32 → u32 (a + 1) = if a =? 2 ^ 32 - 1 then 0 else a + 1.
Proof. intros. unfold wrapu. change (2 ^ 32) with 4294967296 in *. destruct (Z.eqb_spec a (4294967296 - 1)); zlia. Qed.

(** The tests of the code. *)
Lemma full_iff p : pipe_ok p →
  (pi_nwrite p =? u32 (pi_nread p + PIPESIZE)) = bool_decide (Z.of_nat (length (queued p)) = PIPESIZE).
Proof.
  intros [_ Hr Hw Hf]. rewrite queued_length, u32_diff in * by done. unfold PIPESIZE, wrapu in *.
  change (2 ^ 32) with 4294967296 in *. apply eq_bool_prop_intro. rewrite bool_decide_spec, Is_true_true, Z.eqb_eq.
  destruct (Z.ltb_spec (pi_nwrite p) (pi_nread p)); zlia.
Qed.

Lemma empty_iff p : pipe_ok p → (pi_nread p =? pi_nwrite p) = bool_decide (queued p = []).
Proof.
  intros [_ Hr Hw Hf]. pose proof (queued_length p) as Hl. rewrite u32_diff in * by done.
  apply eq_bool_prop_intro. rewrite bool_decide_spec, Is_true_true, Z.eqb_eq.
  change (2 ^ 32) with 4294967296 in *. rewrite <- length_zero_iff_nil, Hl.
  destruct (Z.ltb_spec (pi_nwrite p) (pi_nread p)); lia.
Qed.

(** [n] consecutive positions of the ring, from any of the 2^32 indices that
    stand for the same place. *)
Lemma ring_shift (d : list Z) a b n : a mod PIPESIZE = b mod PIPESIZE →
  (λ k, nth (Z.to_nat (k mod PIPESIZE)) d 0) <$> seqZ a n = (λ k, nth (Z.to_nat (k mod PIPESIZE)) d 0) <$> seqZ b n.
Proof.
  intros E. unfold seqZ. rewrite <- !list_fmap_compose. apply list_fmap_ext. intros i k _. unfold compose.
  do 2 f_equal. rewrite <- Zplus_mod_idemp_r, E, Zplus_mod_idemp_r. done.
Qed.

Lemma queued_put c p : pipe_ok p → Z.of_nat (length (queued p)) < PIPESIZE →
  queued (put_byte c p) = queued p ++ [c] ∧ pipe_ok (put_byte c p).
Proof.
  intros [Hd Hr Hw Hf] Hlt. rewrite queued_length in Hlt.
  set (n := u32 (pi_nwrite p - pi_nread p)) in *.
  assert (0 ≤ n) as Hn by (apply wrapu_range; lia). rewrite Z2Nat.id in Hlt by done.
  assert (u32 (pi_nwrite (put_byte c p) - pi_nread (put_byte c p)) = n + 1) as En.
  { change (u32 (u32 (pi_nwrite p + 1) - pi_nread p) = n + 1). unfold n, wrapu, PIPESIZE in *.
    change (2 ^ 32) with 4294967296 in *. zlia. }
  assert (pi_nwrite p mod PIPESIZE = (pi_nread p + n) mod PIPESIZE) as Em.
  { unfold n, wrapu, PIPESIZE in *. change (2 ^ 32) with 4294967296 in *. zlia. }
  split.
  - unfold queued. rewrite En. fold n. change (pi_nread (put_byte c p)) with (pi_nread p).
    rewrite seqZ_app, fmap_app by lia. f_equal.
    + apply list_fmap_ext. intros i k Hk. apply lookup_seqZ in Hk as [-> Hk]. cbn [put_byte].
      change (pi_data (put_byte c p)) with (<[Z.to_nat (pi_nwrite p mod PIPESIZE) := c]> (pi_data p)).
      rewrite !nth_lookup, list_lookup_insert_ne; [done|]. rewrite Em. unfold PIPESIZE in *. zlia.
    + rewrite seqZ_cons by lia. cbn [fmap list_fmap]. f_equal.
      change (pi_data (put_byte c p)) with (<[Z.to_nat (pi_nwrite p mod PIPESIZE) := c]> (pi_data p)).
      rewrite <- Em, nth_lookup, list_lookup_insert_eq; [done|]. rewrite Hd. unfold PIPESIZE. zlia.
  - split; [|done| |by rewrite En; lia].
    + change (length (<[Z.to_nat (pi_nwrite p mod PIPESIZE) := c]> (pi_data p)) = Z.to_nat PIPESIZE). by rewrite length_insert.
    + apply wrapu_range. lia.
Qed.

Lemma queued_got c q p : pipe_ok p → queued p = c :: q →
  nth (Z.to_nat (pi_nread p mod PIPESIZE)) (pi_data p) 0 = c ∧ queued (got_byte p) = q ∧ pipe_ok (got_byte p).
Proof.
  intros [Hd Hr Hw Hf] Hq. pose proof (queued_length p) as Hl. rewrite Hq in Hl. cbn [length] in Hl.
  unfold queued in Hq. set (n := u32 (pi_nwrite p - pi_nread p)) in *.
  assert (u32 (pi_nwrite (got_byte p) - pi_nread (got_byte p)) = n - 1) as En.
  { change (u32 (pi_nwrite p - u32 (pi_nread p + 1)) = n - 1). unfold n, wrapu, PIPESIZE in *.
    change (2 ^ 32) with 4294967296 in *. zlia. }
  rewrite seqZ_cons in Hq by lia. cbn [fmap list_fmap] in Hq. injection Hq as Hc Hq.
  split_and!; [done| |].
  - unfold queued. rewrite En, <- Hq. change (pi_data (got_byte p)) with (pi_data p).
    change (pi_nread (got_byte p)) with (u32 (pi_nread p + 1)). replace (Z.pred n) with (n - 1) by lia. apply ring_shift.
    unfold wrapu, PIPESIZE. change (2 ^ 32) with 4294967296. zlia.
  - split; [done|apply wrapu_range; lia|done|by rewrite En; lia].
Qed.

(** What a new pipe holds (pipealloc). *)
Lemma queued_new d ro wo : length d = Z.to_nat PIPESIZE → queued (Pipe d 0 0 ro wo) = [] ∧ pipe_ok (Pipe d 0 0 ro wo).
Proof. intros Hd. split; [done|]. by split; [|cbn; lia|cbn; lia|vm_compute; discriminate]. Qed.
End Ring.

(** ** A process in the pipe code *)

(** The process [pr] runs on this hart with page table [r], is not killed, and
    the locks of all processes are free. *)
Record runner (pr : nat) (r : Z) (s : kstate) : Prop := Runner {
  ru_ready : proc_ready s;
  ru_proc : c_proc (cpu_of (k_mach s)) = Some pr;
  ru_mine : ∃ q, k_procs s !! pr = Some q ∧ p_pagetable q = r ∧ p_killed q = 0;
  ru_lt : (pr < NPROC)%nat;
}.

Definition has_pipe (pi : Z) (p : pipe) (s : kstate) : Prop := f_pipes (k_fs s) !! pi = Some p.

(** At the call: interrupts may be on, no lock is held by this hart. *)
Record at_call (pi : Z) (pr : nat) (r : Z) (p : pipe) (s : kstate) : Prop := AtCall {
  ac_run : runner pr r s;
  ac_noff : c_noff (cpu_of (k_mach s)) = 0;
  ac_free : lock_free (LPipe pi) (k_mach s);
  ac_kmem : lock_free LKmem (k_mach s);
  ac_pipe : has_pipe pi p s;
  ac_ok : pipe_ok p;
}.

(** Inside: this hart holds the lock of the pipe and no other. *)
Record in_pipe (pi : Z) (pr : nat) (r : Z) (p : pipe) (s : kstate) : Prop := InPipe {
  in_run : runner pr r s;
  in_noff : c_noff (cpu_of (k_mach s)) = 1;
  in_held : m_locks (k_mach s) !! LPipe pi = Some (m_tp (k_mach s));
  in_kmem : lock_free LKmem (k_mach s);
  in_pipe_ : has_pipe pi p s;
  in_ok : pipe_ok p;
}.

(** At a switch inside sleep, when the process is asleep and when it is
    switched to again: the hart holds the lock of the process and no other. *)
Record at_switch (pi : Z) (pr : nat) (r : Z) (p : pipe) (s : kstate) : Prop := AtSwitch {
  sw_wf : wf_mach (k_mach s);
  sw_noff : c_noff (cpu_of (k_mach s)) = 1;
  sw_proc : c_proc (cpu_of (k_mach s)) = Some pr;
  sw_held : m_locks (k_mach s) !! LProc pr = Some (m_tp (k_mach s));
  sw_procs : ∀ i, (i < NPROC)%nat → i ≠ pr → lock_free (LProc i) (k_mach s);
  sw_len : length (k_procs s) = NPROC;
  sw_mine : ∃ q, k_procs s !! pr = Some q ∧ p_pagetable q = r ∧ p_killed q = 0;
  sw_lt : (pr < NPROC)%nat;
  sw_free : lock_free (LPipe pi) (k_mach s);
  sw_kmem : lock_free LKmem (k_mach s);
  sw_pipe : has_pipe pi p s;
  sw_ok : pipe_ok p;
}.

(** No process but the caller is left asleep on the channel. *)
Definition none_asleep (pr : nat) (ch : chan) (s : kstate) : Prop :=
  ∀ i q, k_procs s !! i = Some q → i ≠ pr → ¬ (p_state q = SLEEPING ∧ p_chan q = Some ch).

Section Inside.
Context `{!Image} `{!ImageOK}.
Implicit Types (s t : kstate) (e : env) (p : pipe) (m : machine).

Lemma settle_in m : wf_mach m → c_noff (cpu_of m) = 1 → settle m = m.
Proof. intros _ Hn. apply settle_nested. lia. Qed.

Lemma in_settle pi pr r p s : in_pipe pi pr r p s → s <| k_mach ::= settle |> = s.
Proof.
  intros [[Hr _ _ _] Hn _ _ _ _]. unfold set. rewrite settle_in by (apply Hr || done). by destruct s.
Qed.

Lemma in_kmem_ready pi pr r p s : in_pipe pi pr r p s → kmem_ready s.
Proof. intros [[Hr _ _ _] _ _ Hk _ _]. split; [apply Hr|done]. Qed.

(** Steps that change neither the machine, nor this process, nor the pipe. *)
Lemma in_pipe_ext pi pr r p s s' :
  k_mach s' = k_mach s → length (k_procs s') = length (k_procs s) →
  (∀ q, k_procs s !! pr = Some q → ∃ q', k_procs s' !! pr = Some q' ∧ p_pagetable q' = p_pagetable q ∧ p_killed q' = p_killed q) →
  k_fs s' = k_fs s → in_pipe pi pr r p s → in_pipe pi pr r p s'.
Proof.
  intros Em El Eq Ef [[[R1 R2 R3] R4 (q & Hq & <- & Hk) R6] I2 I3 I4 I5 I6].
  destruct (Eq q Hq) as (q' & Hq' & E1 & E2).
  split; [|by rewrite Em|by rewrite Em|by rewrite Em|by unfold has_pipe; rewrite Ef|done].
  split; [|by rewrite Em|exists q'; split_and!; congruence|done]. split; [by rewrite Em|by rewrite Em|by rewrite El].
Qed.

Lemma in_pipe_mem pi pr r p s s' : mem_only s s' → in_pipe pi pr r p s → in_pipe pi pr r p s'.
Proof.
  intros [Hm Ho] I. unfold others in Ho. simplify_eq.
  assert (k_mach s' = k_mach s) as Em.
  { destruct Hm as [->| ->]; [done|]. apply settle_in; apply I. }
  eapply in_pipe_ext; [done|congruence| |congruence|exact I]. intros q Hq. exists q. split; [congruence|done].
Qed.

Lemma in_killed pi pr r p e s : in_pipe pi pr r p s → killed pr e s = Ret 0 e s.
Proof.
  intros I. pose proof (in_settle _ _ _ _ _ I) as Es. destruct I as [[Hr _ (q & Hq & _ & Hk) Hlt] _ _ _ _ _].
  unfold killed. run (acquire_crit pr e s Hr Hlt). erewrite bind_Ret by (by apply (pget_crit pr _ _ q)).
  erewrite bind_Ret by (by apply (release_crit pr _ (λ q, q) q)). rewrite Es, Hk. krun. f_equal.
  apply set_procs_id. by apply (alter_noop _ _ _ q).
Qed.

Lemma in_wakeup pi pr r p ch e s : in_pipe pi pr r p s →
  ∃ s', wakeup ch e s = Ret () e s' ∧ in_pipe pi pr r p s' ∧ none_asleep pr ch s' ∧
    s' = s <| k_procs := k_procs s' |>.
Proof.
  intros I. pose proof (in_settle _ _ _ _ _ I) as Es. pose proof I as [[Hr Hp _ _] _ _ _ _ _].
  eexists. split; [by apply wakeup_run|]. rewrite Es, Hp. split_and!; [| |done].
  - apply (in_pipe_ext pi pr r p s); [done|apply length_imap| |done|done].
    intros q Hq. exists (woken (Some pr) ch pr q). split.
    + change (imap (woken (Some pr) ch) (k_procs s) !! pr = Some (woken (Some pr) ch pr q)). by rewrite list_lookup_imap, Hq.
    + unfold woken. by case_decide.
  - intros i q Hq Hne. change (imap (woken (Some pr) ch) (k_procs s) !! i = Some q) in Hq.
    rewrite list_lookup_imap in Hq. destruct (k_procs s !! i) as [q0|]; [|done]. injection Hq as <-.
    unfold woken. case_decide as Hd; [by intros [? _]|]. intros [? ?]. apply Hd. split; [congruence|done].
Qed.

(** Taking and giving up the lock of the pipe. *)
Lemma call_enter pi pr r p e s : at_call pi pr r p s →
  let s1 := s <| k_mach ::= λ m, mlock (LPipe pi) (settle m) |> in
  (∀ {A} (k : nat → K A), (pr ← myproc; pr ← deref pr; acquire (LPipe pi);; k pr) e s = k pr e s1) ∧
  in_pipe pi pr r p s1.
Proof.
  intros [[[R1 R2 R3] R4 R5 R6] Hn Hf Hk Hp Ho] s1. pose proof (wf_settle _ R1) as Hw.
  split.
  - intros A k. run (myproc_run e s R1). rewrite R4. cbn [deref]. krun.
    erewrite bind_Ret; [done|]. rewrite acquire_free; [done|exact Hw|by apply settle_free].
  - assert (c_noff (cpu_of (mlock (LPipe pi) (settle (k_mach s)))) = 1 ∧
      c_proc (cpu_of (mlock (LPipe pi) (settle (k_mach s)))) = Some pr) as [E1 E2].
    { rewrite (mlock_noff (LPipe pi) _ Hw), (mlock_proc (LPipe pi) _ Hw), settle_noff, settle_proc, Hn by done. done. }
    split; [|exact E1| | |done|done].
    + split; [|exact E2|done|done].
      split; [by apply wf_mlock| |done]. intros i Hi. apply mlock_free; [done|]. by apply settle_free, R2.
    + change (m_locks (mlock (LPipe pi) (settle (k_mach s))) !! LPipe pi = Some (m_tp (mlock (LPipe pi) (settle (k_mach s))))).
      by rewrite mlock_locks, mlock_tp, lookup_insert_eq.
    + apply mlock_free; [done|]. by apply settle_free.
Qed.

Lemma munlock_free l l' m : lock_free l' m → lock_free l' (munlock l m).
Proof.
  unfold lock_free. rewrite munlock_locks. intros H1. destruct (decide (l = l')) as [->|Hne]; [apply lookup_delete_eq|].
  by rewrite lookup_delete_ne.
Qed.

Lemma call_leave pi pr r p e s : in_pipe pi pr r p s →
  let s1 := s <| k_mach ::= munlock (LPipe pi) |> in
  release (LPipe pi) e s = Ret () e s1 ∧ at_call pi pr r p s1.
Proof.
  intros [[[R1 R2 R3] R4 R5 R6] Hn Hh Hk Hp Ho] s1. split; [by apply release_held; (done || lia)|].
  assert (c_noff (cpu_of (munlock (LPipe pi) (k_mach s))) = 0 ∧ c_proc (cpu_of (munlock (LPipe pi) (k_mach s))) = Some pr) as [E1 E2].
  { rewrite munlock_cpu by done. split; [|done]. change (c_noff (cpu_of (k_mach s)) - 1 = 0). lia. }
  split; [|exact E1| |by apply munlock_free|done|done].
  - split; [|exact E2|done|done]. split; [by apply wf_munlock; (done || lia)| |done]. intros i Hi. by apply munlock_free, R2.
  - change (lock_free (LPipe pi) (munlock (LPipe pi) (k_mach s))). unfold lock_free. rewrite munlock_locks. apply lookup_delete_eq.
Qed.

(** Sleeping with the lock of the pipe held. *)
Lemma in_sleep pi pr r p ch s : in_pipe pi pr r p s →
  let t := asleep pr ch (LPipe pi) s in
  at_switch pi pr r p t ∧ k_mem t = k_mem s ∧ k_freelist t = k_freelist s ∧ k_refCount t = k_refCount s ∧
  ∀ f e p', at_switch pi pr r p' (f t) → ∃ s',
    sleep ch (LPipe pi) (f :: e) s = Ret () e s' ∧ in_pipe pi pr r p' s' ∧
    k_mem s' = k_mem (f t) ∧ k_freelist s' = k_freelist (f t) ∧ k_refCount s' = k_refCount (f t).
Proof.
  intros [[[R1 R2 R3] R4 (q & Hq & Er & Ek) R6] Hn Hh Hk Hp Ho] t.
  assert (can_sleep pr (LPipe pi) s) as Hcs by (split; try done; [by rewrite R3|by apply R2]).
  destruct (asleep_mach pr ch (LPipe pi) s Hcs) as (A1 & A2 & A3 & A4 & A5). fold t in A1, A2, A3, A4, A5.
  split_and!; [|done..|].
  - split; try done.
    + by rewrite A5, A4, lookup_delete_ne, lookup_insert_eq.
    + intros i Hi Hne. unfold lock_free. rewrite A5, lookup_delete_ne by done.
      rewrite lookup_insert_ne by congruence. by apply R2.
    + change (length (alter (λ q, q <| p_chan := Some ch |> <| p_state := SLEEPING |>) pr (k_procs s)) = NPROC). by rewrite length_alter.
    + exists (q <| p_chan := Some ch |> <| p_state := SLEEPING |>). split; [|done].
      change (alter (λ q, q <| p_chan := Some ch |> <| p_state := SLEEPING |>) pr (k_procs s) !! pr = Some (q <| p_chan := Some ch |> <| p_state := SLEEPING |>)).
      by rewrite list_lookup_alter_eq, Hq.
    + unfold lock_free. rewrite A5. apply lookup_delete_eq.
    + unfold lock_free. rewrite A5, lookup_delete_ne, lookup_insert_ne by done. done.
  - intros f e p' [W1 W2 W3 W4 W5 W6 (q' & Hq' & Er' & Ek') W8 W9 W10 W11 W12].
    rewrite (sleep_switch pr) by done. fold t. unfold swtch at 1. erewrite bind_Ret by done.
    rewrite (sleep_resume pr (LPipe pi)) by (done || (split; done || (by rewrite W6))). eexists. split; [done|].
    set (m1 := upd_cpu (λ c, c <| c_intena := c_intena (cpu_of (k_mach t)) |>) (k_mach (f t))).
    assert (wf_mach m1) as Hw1 by (by apply wf_upd_cpu).
    assert (cpu_of m1 = cpu_of (k_mach (f t)) <| c_intena := c_intena (cpu_of (k_mach t)) |>) as Ec by (apply cpu_of_upd_cpu, W1).
    assert (c_noff (cpu_of m1) = 1) as Hn1 by (by rewrite Ec).
    assert (wf_mach (munlock (LProc pr) m1)) as Hw2 by (apply wf_munlock; [done|lia]).
    split_and!; [|done..]. split; [| | | |done|done].
    + split; [| |exists (q' <| p_chan := None |>); split; [|done]|done].
      * split; [by apply wf_mlock| |].
        -- intros i Hi. apply mlock_free; [done|]. unfold lock_free. rewrite munlock_locks.
           destruct (decide (i = pr)) as [->|Hne]; [apply lookup_delete_eq|]. rewrite lookup_delete_ne by congruence.
           by apply W5.
        -- change (length (alter (λ q, q <| p_chan := None |>) pr (k_procs (f t))) = NPROC). by rewrite length_alter.
      * change (c_proc (cpu_of (mlock (LPipe pi) (munlock (LProc pr) m1))) = Some pr).
        rewrite mlock_proc, munlock_cpu by done. by rewrite Ec.
      * change (alter (λ q, q <| p_chan := None |>) pr (k_procs (f t)) !! pr = Some (q' <| p_chan := None |>)).
        by rewrite list_lookup_alter_eq, Hq'.
    + change (c_noff (cpu_of (mlock (LPipe pi) (munlock (LProc pr) m1))) = 1). rewrite mlock_noff, munlock_cpu by done.
      change (c_noff (cpu_of m1) - 1 + 1 = 1). lia.
    + change (m_locks (mlock (LPipe pi) (munlock (LProc pr) m1)) !! LPipe pi = Some (m_tp (mlock (LPipe pi) (munlock (LProc pr) m1)))).
      by rewrite mlock_locks, mlock_tp, lookup_insert_eq.
    + apply mlock_free; [done|]. by apply munlock_free.
Qed.
End Inside.

(** ** pipewrite *)

(** The process with page table [r] may read [bs] at [addr]. *)
Definition may_read `{!Image} (r addr : Z) (bs : list Z) (s : kstate) : Prop :=
  ∃ own D M l, vm_inv own D M l s ∧ D !! (r, []) = Some r ∧
    (∀ x, addr ≤ x < addr + Z.of_nat (length bs) → user_page M s r x) ∧
    ubytes (k_mem s) r addr (Z.of_nat (length bs)) = bs.

(** While the writer sleeps on a full pipe, readers take at least one byte from
    its front; the read end stays open, and the writer's process, memory and
    the locks are in order when it is switched to again. *)
Definition drains `{!Image} (pi : Z) (pr : nat) (r addr : Z) (bs : list Z) (f : kstate → kstate) : Prop :=
  ∀ t p, at_switch pi pr r p t → may_read r addr bs t → pi_readopen p = true →
    Z.of_nat (length (queued p)) = PIPESIZE →
    ∃ p' taken, at_switch pi pr r p' (f t) ∧ may_read r addr bs (f t) ∧ pi_readopen p' = true ∧
      taken ≠ [] ∧ queued p = taken ++ queued p'.

Section Write.
Context `{!Image} `{!ImageOK}.
Implicit Types (s t : kstate) (e : env) (p : pipe).

Lemma pipe_get_run {A} pi (g : pipe → A) p e s : has_pipe pi p s → pipe_get pi g e s = Ret (g p) e s.
Proof. unfold pipe_get, fs_get, has_pipe. intros Hp. krun. by rewrite Hp. Qed.

Lemma pipe_set_run pi pr r g p p' e s : in_pipe pi pr r p s → g p = p' → pipe_ok p' →
  ∃ s', pipe_set pi g e s = Ret () e s' ∧ in_pipe pi pr r p' s' ∧ k_mem s' = k_mem s ∧
    k_freelist s' = k_freelist s ∧ k_refCount s' = k_refCount s ∧ k_procs s' = k_procs s.
Proof.
  intros [[[R1 R2 R3] R4 R5 R6] I2 I3 I4 I5 I6] <- Hg. eexists. split_and!.
  - unfold pipe_set, fs_get, fs_upd. unfold has_pipe in I5. krun. by rewrite bool_decide_true by (by rewrite I5).
  - split; try done. change (alter g pi (f_pipes (k_fs s)) !! pi = Some (g p)). unfold has_pipe in I5.
    by rewrite lookup_alter_eq, I5.
  - done.
  - done.
  - done.
  - done.
Qed.

Lemma may_read_ext pi pr r p addr bs s s' :
  in_pipe pi pr r p s' ∨ at_switch pi pr r p s' →
  k_mem s' = k_mem s → k_freelist s' = k_freelist s → k_refCount s' = k_refCount s →
  may_read r addr bs s → may_read r addr bs s'.
Proof.
  intros Hs Em Ef Er (own & D & M & l & HI & Hr & Hu & Hb). exists own, D, M, l.
  assert (kmem_ready s') as Hk.
  { destruct Hs as [I|[]]; [by eapply in_kmem_ready|by split]. }
  split_and!; [by apply (vm_inv_ext _ _ _ _ s)|done| |by rewrite Em].
  intros x Hx. destruct (Hu x Hx) as (pa & A & B). exists pa. by rewrite Em.
Qed.

Lemma copyin_byte r addr bs i e s : may_read r addr bs s → 0 ≤ addr → addr + Z.of_nat (length bs) ≤ MAXVA →
  0 ≤ i < Z.of_nat (length bs) →
  copyin r (u64 (addr + i)) 1 e s = Ret (0, [nth (Z.to_nat i) bs 0]) e s.
Proof.
  intros (own & D & M & l & HI & Hr & Hu & Hb) Ha Hmax Hi.
  assert (0 ≤ addr + i < 2 ^ 64) as Hw.
  { rewrite MAXVA_val in Hmax. change (2 ^ 38) with 274877906944 in Hmax. change (2 ^ 64) with 18446744073709551616. lia. }
  rewrite wrapu_id by done. destruct (copyin_loop own D M l s r e 1 (addr + i) 1 []) as (c & Hc & Hcl); try done; [lia|lia| |].
  { intros x Hx. apply Hu. lia. }
  assert (ubytes (k_mem s) r (addr + i) 1 = [nth (Z.to_nat i) bs 0]) as <-; [|unfold copyin; eapply while_runs; [exact Hc|lia]].
  unfold ubytes in *. change (seqZ (addr + i) 1) with [0 + (addr + i)]. cbn [fmap list_fmap]. f_equal.
  rewrite Z.add_0_l, nth_lookup, <- Hb, list_lookup_fmap, lookup_seqZ_lt by lia. cbn. f_equal. lia.
Qed.

Abbreviation write_step pi pr addr n := (λ i : Z,
    if i <? n then
      ro ← pipe_get pi pi_readopen;
      k ← (if negb ro then mret 1 else killed pr);
      if ctrue k then
        release (LPipe pi);;
        mret (inr None)
      else
        nwrite ← pipe_get pi pi_nwrite;
        nread ← pipe_get pi pi_nread;
        if nwrite =? u32 (nread + PIPESIZE) then
          wakeup (ChPipeR pi);;
          sleep (ChPipeW pi) (LPipe pi);;
          mret (inl i)
        else
          pagetable ← pget pr p_pagetable;
          '(c, bytes) ← copyin pagetable (u64 (addr + i)) 1;
          if c =? -1 then mret (inr (Some i))
          else
            pipe_set pi (λ p, p <| pi_data ::= insert (Z.to_nat (nwrite mod PIPESIZE)) (default 0 (head bytes)) |>
                               <| pi_nwrite := u32 (nwrite + 1) |>);;
            mret (inl (i + 1))
    else mret (inr (Some i))).

Lemma pget_in {A} pi pr r p (f : proc → A) e s : in_pipe pi pr r p s →
  ∃ q, pget pr f e s = Ret (f q) e s ∧ p_pagetable q = r.
Proof. intros [[_ _ (q & Hq & Er & _) _] _ _ _ _ _]. exists q. split; [by apply pget_run|done]. Qed.

(** One iteration on a pipe with room: a byte is appended. *)
Lemma write_put pi pr r p addr bs i e s : in_pipe pi pr r p s → may_read r addr bs s → pi_readopen p = true →
  0 ≤ addr → addr + Z.of_nat (length bs) ≤ MAXVA → 0 ≤ i < Z.of_nat (length bs) →
  Z.of_nat (length (queued p)) < PIPESIZE →
  ∃ s', write_step pi pr addr (Z.of_nat (length bs)) i e s = Ret (inl (i + 1)) e s' ∧
    in_pipe pi pr r (put_byte (nth (Z.to_nat i) bs 0) p) s' ∧ may_read r addr bs s'.
Proof.
  intros I Hm Hro Ha Hmax Hi Hroom. pose proof (in_pipe_ _ _ _ _ _ I) as Hp. pose proof (in_ok _ _ _ _ _ I) as Ho.
  destruct (queued_put (nth (Z.to_nat i) bs 0) p Ho Hroom) as [_ Ho'].
  destruct (pipe_set_run pi pr r (λ x, x <| pi_data ::= insert (Z.to_nat (pi_nwrite p mod PIPESIZE)) (nth (Z.to_nat i) bs 0) |>
    <| pi_nwrite := u32 (pi_nwrite p + 1) |>) p _ e s I eq_refl Ho') as (s' & E & I' & Em & Ef & Er & _).
  exists s'. split_and!; [|done|by apply (may_read_ext pi pr r _ _ _ s s' (or_introl I') Em Ef Er)].
  destruct (Z.ltb_spec i (Z.of_nat (length bs))); [|lia]. run (pipe_get_run pi pi_readopen p e s Hp). rewrite Hro. cbn [negb].
  run (in_killed _ _ _ _ e _ I). cbn [ctrue Z.eqb negb]. run (pipe_get_run pi pi_nwrite p e s Hp).
  run (pipe_get_run pi pi_nread p e s Hp). rewrite full_iff, bool_decide_false by (done || lia).
  destruct (pget_in _ _ _ _ p_pagetable e _ I) as (q & Eq & Eqr). rewrite Eqr in Eq. run Eq.
  run (copyin_byte r addr bs i e s Hm Ha Hmax Hi). cbn [Z.eqb head default].
  by run E.
Qed.

(** One iteration on a full pipe: the writer sleeps until a reader has made room. *)
Lemma write_wait pi pr r p addr bs i f e s : in_pipe pi pr r p s → may_read r addr bs s → pi_readopen p = true →
  0 ≤ i < Z.of_nat (length bs) → Z.of_nat (length (queued p)) = PIPESIZE → drains pi pr r addr bs f →
  ∃ s' p' taken, write_step pi pr addr (Z.of_nat (length bs)) i (f :: e) s = Ret (inl i) e s' ∧
    in_pipe pi pr r p' s' ∧ may_read r addr bs s' ∧ pi_readopen p' = true ∧
    taken ≠ [] ∧ queued p = taken ++ queued p'.
Proof.
  intros I Hm Hro Hi Hfull Hd. pose proof (in_pipe_ _ _ _ _ _ I) as Hp. pose proof (in_ok _ _ _ _ _ I) as Ho.
  destruct (in_wakeup pi pr r p (ChPipeR pi) (f :: e) s I) as (s1 & Ew & I1 & _ & E1).
  assert (may_read r addr bs s1) as Hm1 by (by apply (may_read_ext pi pr r p addr bs s s1 (or_introl I1)); (done || rewrite E1)).
  destruct (in_sleep pi pr r p (ChPipeW pi) s1 I1) as (Ht & Em & Ef & Er & Hsl).
  set (t := asleep pr (ChPipeW pi) (LPipe pi) s1) in *.
  destruct (Hd t p Ht (may_read_ext pi pr r p addr bs s1 t (or_intror Ht) Em Ef Er Hm1) Hro Hfull)
    as (p' & taken & Hw & Hm' & Hro' & Hne & Hq).
  destruct (Hsl f e p' Hw) as (s' & Es & I' & Em' & Ef' & Er').
  exists s', p', taken. split_and!; [|done|by apply (may_read_ext pi pr r p' addr bs (f t) s' (or_introl I'))|done..].
  destruct (Z.ltb_spec i (Z.of_nat (length bs))); [|lia]. run (pipe_get_run pi pi_readopen p (f :: e) s Hp). rewrite Hro. cbn [negb].
  run (in_killed _ _ _ _ (f :: e) _ I). cbn [ctrue Z.eqb negb]. run (pipe_get_run pi pi_nwrite p (f :: e) s Hp).
  run (pipe_get_run pi pi_nread p (f :: e) s Hp). rewrite full_iff, bool_decide_true by done.
  run Ew. by run Es.
Qed.

(** The loop: every wait is followed by a write, so it ends. *)
Lemma write_loop pi pr r addr bs (k : nat) : 0 ≤ addr → addr + Z.of_nat (length bs) ≤ MAXVA →
  ∀ p i e s, (Z.to_nat (Z.of_nat (length bs) - i) + length e = k)%nat → 0 ≤ i ≤ Z.of_nat (length bs) →
  in_pipe pi pr r p s → may_read r addr bs s → pi_readopen p = true →
  Forall (drains pi pr r addr bs) e →
  Z.of_nat (length bs) - i ≤ PIPESIZE - Z.of_nat (length (queued p)) + Z.of_nat (length e) →
  ∃ c p' e' s' taken, runs (write_step pi pr addr (Z.of_nat (length bs))) i e s c (Some (Z.of_nat (length bs))) e' s' ∧
    c ≤ 2 * (Z.of_nat (length bs) - i) + (if decide (Z.of_nat (length (queued p)) = PIPESIZE) then 2 else 1) ∧
    in_pipe pi pr r p' s' ∧ queued p ++ drop (Z.to_nat i) bs = taken ++ queued p'.
Proof.
  intros Ha Hmax. induction k as [k IH] using lt_wf_ind. intros p i e s Hk Hi I Hm Hro Hd Hen.
  pose proof (queued_le p (in_ok _ _ _ _ _ I)) as Hle.
  destruct (decide (i = Z.of_nat (length bs))) as [->|Hne].
  { exists 1, p, e, s, []. rewrite Nat2Z.id, drop_all, app_nil_r. split_and!; [|case_decide; lia|done|done].
    apply runs_done. cbv beta. by rewrite Z.ltb_irrefl. }
  destruct (decide (Z.of_nat (length (queued p)) = PIPESIZE)) as [Hfull|Hroom].
  - destruct e as [|f e]; [simpl in Hen; lia|]. apply Forall_cons in Hd as [Hf Hd].
    destruct (write_wait pi pr r p addr bs i f e s I Hm Hro ltac:(lia) Hfull Hf)
      as (s1 & p1 & taken & Est & I1 & Hm1 & Hro1 & Htk & Hq).
    assert (length (queued p) = length taken + length (queued p1) ∧ 1 ≤ length taken)%nat as [Hlen Hlt].
    { split; [by rewrite Hq, length_app|]. destruct taken; [done|simpl; lia]. }
    destruct (IH (Z.to_nat (Z.of_nat (length bs) - i) + length e)%nat ltac:(simpl in Hk; lia) p1 i e s1) as
      (c & p' & e' & s' & tk & Hr & Hc & I' & Hq'); try done; [simpl in Hen; lia|].
    exists (c + 1), p', e', s', (taken ++ tk). split_and!; [by eapply runs_step| |done|].
    + rewrite decide_False in Hc by lia. lia.
    + by rewrite Hq, <- !app_assoc, Hq'.
  - destruct (write_put pi pr r p addr bs i e s I Hm Hro Ha Hmax ltac:(lia) ltac:(lia)) as (s1 & Est & I1 & Hm1).
    destruct (queued_put (nth (Z.to_nat i) bs 0) p (in_ok _ _ _ _ _ I) ltac:(lia)) as [Hq _].
    destruct (IH (Z.to_nat (Z.of_nat (length bs) - (i + 1)) + length e)%nat ltac:(lia)
      (put_byte (nth (Z.to_nat i) bs 0) p) (i + 1) e s1) as (c & p' & e' & s' & tk & Hr & Hc & I' & Hq'); try done; [lia|..].
    { rewrite Hq, length_app. cbn [length]. lia. }
    exists (c + 1), p', e', s', tk. split_and!; [by eapply runs_step| |done|].
    + case_decide; lia.
    + rewrite <- Hq', Hq, <- app_assoc. f_equal. rewrite (drop_S bs (nth (Z.to_nat i) bs 0) (Z.to_nat i)).
      * cbn [app]. do 2 f_equal. lia.
      * rewrite nth_lookup. destruct (lookup_lt_is_Some_2 bs (Z.to_nat i) ltac:(lia)) as [b ->]. done.
Qed.

(** C12: a write of [bs] to a pipe whose read end stays open, by a process that is
    not killed, when there is room or a reader for every byte, returns the
    number of bytes after finitely many waits.  What was in the pipe followed by
    [bs] is what readers took followed by what is in the pipe now: no byte is
    lost, repeated or overtaken, and the pipe never holds more than PIPESIZE.
    Locks and interrupts are as before the call, and no reader is left asleep. *)
Theorem pipewrite_correct pi pr r p addr bs e s :
  at_call pi pr r p s → may_read r addr bs s → pi_readopen p = true →
  0 ≤ addr → addr + Z.of_nat (length bs) ≤ MAXVA → Z.of_nat (length bs) < 2 ^ 31 →
  Forall (drains pi pr r addr bs) e →
  Z.of_nat (length bs) ≤ PIPESIZE - Z.of_nat (length (queued p)) + Z.of_nat (length e) →
  ∃ e' s' p' taken, pipewrite pi addr (Z.of_nat (length bs)) e s = Ret (Z.of_nat (length bs)) e' s' ∧
    at_call pi pr r p' s' ∧ queued p ++ bs = taken ++ queued p' ∧ none_asleep pr (ChPipeR pi) s'.
Proof.
  intros A Hm Hro Ha Hmax Hint Hd Hen. destruct (call_enter pi pr r p e s A) as [Henter I].
  set (s1 := s <| k_mach ::= λ m, mlock (LPipe pi) (settle m) |>) in *.
  assert (may_read r addr bs s1) as Hm1 by (by apply (may_read_ext pi pr r p addr bs s s1 (or_introl I))).
  destruct (write_loop pi pr r addr bs _ Ha Hmax p 0 e s1 eq_refl ltac:(lia) I Hm1 Hro Hd ltac:(lia))
    as (c & p' & e' & s2 & taken & Hr & Hc & I2 & Hq).
  destruct (in_wakeup pi pr r p' (ChPipeR pi) e' s2 I2) as (s3 & Ew & I3 & Hna & _).
  destruct (call_leave pi pr r p' e' s3 I3) as [El A'].
  eexists e', _, p', taken. split_and!; [|exact A'|exact Hq|exact Hna].
  unfold pipewrite. rewrite Henter.
  erewrite bind_Ret by (eapply while_runs; [exact Hr|case_decide; lia]). cbv beta iota. run Ew. by run El.
Qed.

(** A write to a pipe without readers returns -1 and leaves the pipe as it is. *)
Theorem pipewrite_broken pi pr r p addr n e s :
  at_call pi pr r p s → pi_readopen p = false → 0 < n →
  ∃ s', pipewrite pi addr n e s = Ret (-1) e s' ∧ at_call pi pr r p s' ∧
    k_fs s' = k_fs s ∧ k_mem s' = k_mem s ∧ k_procs s' = k_procs s.
Proof.
  intros A Hro Hn. destruct (call_enter pi pr r p e s A) as [Henter I].
  destruct (call_leave pi pr r p e _ I) as [El A']. eexists. split_and!; [|exact A'|done..].
  unfold pipewrite. rewrite Henter.
  erewrite bind_Ret; [|eapply while_runs; [apply runs_done|lia]].
  2: { cbv beta. destruct (Z.ltb_spec 0 n); [|lia].
       run (pipe_get_run pi pi_readopen p e _ (in_pipe_ _ _ _ _ _ I)). rewrite Hro. cbn [negb]. krun. cbn [ctrue Z.eqb negb].
       by run El. }
  done.
Qed.
End Write.

(** ** piperead *)

(** The process with page table [r] may be given [n] bytes at [addr]: its pages
    there are its own or copy-on-write, and there is memory to copy them. *)
Definition may_write `{!Image} own D M l (r addr : Z) (n : nat) (s : kstate) : Prop :=
  nonneg own ∧ vm_inv own D M l s ∧ D !! (r, []) = Some r ∧
  (∀ x, addr ≤ x < addr + Z.of_nat n → writable M s r x) ∧ room M l s r addr n.

(** While the reader sleeps on an empty pipe, the environment leaves [q] in it,
    with the write end open or closed. *)
Definition leaves `{!Image} (pi : Z) (pr : nat) (r addr : Z) (n : nat) (q : list Z) (wo : bool) (f : kstate → kstate) : Prop :=
  ∀ t p, at_switch pi pr r p t → (∃ own D M l, may_write own D M l r addr n t) → queued p = [] → pi_writeopen p = true →
    ∃ p', at_switch pi pr r p' (f t) ∧ (∃ own D M l, may_write own D M l r addr n (f t)) ∧
      queued p' = q ∧ pi_writeopen p' = wo.

(** Any number of wakeups to no avail, then one that leaves [q] or nobody to
    wait for; [e'] is what remains of the environment. *)
Inductive fed `{!Image} (pi : Z) (pr : nat) (r addr : Z) (n : nat) (q : list Z) : env → env → Prop :=
| fed_stop f e wo : leaves pi pr r addr n q wo f → q ≠ [] ∨ wo = false → fed pi pr r addr n q (f :: e) e
| fed_skip f e e' : leaves pi pr r addr n [] true f → fed pi pr r addr n q e e' → fed pi pr r addr n q (f :: e) e'.

(** What the reader finds: the bytes in the pipe, or those it waits for. *)
Definition finds `{!Image} (pi : Z) (pr : nat) (r addr : Z) (n : nat) (p : pipe) (q : list Z) (e e' : env) : Prop :=
  if decide (queued p = [] ∧ pi_writeopen p = true) then fed pi pr r addr n q e e' else q = queued p ∧ e' = e.

Section Read.
Context `{!Image} `{!ImageOK}.
Implicit Types (s t : kstate) (e : env) (p : pipe).

Lemma may_write_ext own D M l pi pr r p addr n s s' :
  in_pipe pi pr r p s' ∨ at_switch pi pr r p s' →
  k_mem s' = k_mem s → k_freelist s' = k_freelist s → k_refCount s' = k_refCount s →
  may_write own D M l r addr n s → may_write own D M l r addr n s'.
Proof.
  intros Hs Em Ef Er (Hnn & HI & Hr & Hw & Hro).
  assert (kmem_ready s') as Hk.
  { destruct Hs as [I|[]]; [by eapply in_kmem_ready|by split]. }
  split_and!; [done|by apply (vm_inv_ext _ _ _ _ s)|done| |].
  - intros x Hx. destruct (Hw x Hx) as (pa & A). exists pa. by rewrite Em.
  - destruct Hro as [Hro|[(pa & A) Hro]]; [by left|right]. split; [|done]. exists pa. by rewrite Em.
Qed.

(** The wait for data. *)
Lemma wait_run pi pr r addr n q e0 e' : fed pi pr r addr n q e0 e' →
  ∀ p s, in_pipe pi pr r p s → (∃ own D M l, may_write own D M l r addr n s) → queued p = [] → pi_writeopen p = true →
  ∃ c s1 p1, runs (λ _ : (),
      nread ← pipe_get pi pi_nread;
      nwrite ← pipe_get pi pi_nwrite;
      wo ← pipe_get pi pi_writeopen;
      if (nread =? nwrite) && wo then
        k ← killed pr;
        if ctrue k then release (LPipe pi);; mret (inr true)
        else sleep (ChPipeR pi) (LPipe pi);; mret (inl ())
      else mret (inr false)) () e0 s c false e' s1 ∧ c ≤ Z.of_nat (length e0) + 1 ∧
    in_pipe pi pr r p1 s1 ∧ (∃ own D M l, may_write own D M l r addr n s1) ∧ queued p1 = q.
Proof.
  assert (∀ p s q' wo f e, in_pipe pi pr r p s → (∃ own D M l, may_write own D M l r addr n s) →
    queued p = [] → pi_writeopen p = true → leaves pi pr r addr n q' wo f →
    ∃ s1 p1, sleep (ChPipeR pi) (LPipe pi) (f :: e) s = Ret () e s1 ∧ in_pipe pi pr r p1 s1 ∧
      (∃ own D M l, may_write own D M l r addr n s1) ∧ queued p1 = q' ∧ pi_writeopen p1 = wo) as Hsleep.
  { intros p s q' wo f e I (own & D & M & l & Hm) Hq Hwo Hl.
    destruct (in_sleep pi pr r p (ChPipeR pi) s I) as (Ht & Em & Ef & Er & Hsl).
    destruct (Hl _ p Ht) as (p1 & Hw & (own1 & D1 & M1 & l1 & Hm1) & Hq1 & Hwo1); [|done..|].
    { exists own, D, M, l. by eapply may_write_ext; [right|..|exact Hm]. }
    destruct (Hsl f e p1 Hw) as (s1 & Es & I1 & Em1 & Ef1 & Er1). exists s1, p1. split_and!; try done.
    exists own1, D1, M1, l1. by eapply may_write_ext; [left|..|exact Hm1]. }
  assert (∀ p s e, in_pipe pi pr r p s → queued p = [] → pi_writeopen p = true →
    ∀ (k : bool → K (() + bool)), (nread ← pipe_get pi pi_nread; nwrite ← pipe_get pi pi_nwrite; wo ← pipe_get pi pi_writeopen;
      k ((nread =? nwrite) && wo)) e s = k true e s) as Htest.
  { intros p s e I Hq Hwo k. pose proof (in_pipe_ _ _ _ _ _ I) as Hp. run (pipe_get_run pi pi_nread p e s Hp).
    run (pipe_get_run pi pi_nwrite p e s Hp). run (pipe_get_run pi pi_writeopen p e s Hp).
    by rewrite empty_iff, Hwo, bool_decide_true by (done || apply I). }
  induction 1 as [f e wo Hl Hwo|f e e' Hl Hf IH]; intros p s I Hm Hq Hopen.
  - destruct (Hsleep p s q wo f e I Hm Hq Hopen Hl) as (s1 & p1 & Es & I1 & Hm1 & Hq1 & Hwo1).
    exists (1 + 1), s1, p1. split_and!; [|simpl; lia|done..]. eapply runs_step.
    + cbv beta. rewrite (Htest p s (f :: e) I Hq Hopen (λ b, if b then _ else _)). cbv beta iota.
      run (in_killed _ _ _ _ (f :: e) _ I). cbn [ctrue Z.eqb negb]. run Es. done.
    + apply runs_done. cbv beta. pose proof (in_pipe_ _ _ _ _ _ I1) as Hp. run (pipe_get_run pi pi_nread p1 e s1 Hp).
      run (pipe_get_run pi pi_nwrite p1 e s1 Hp). run (pipe_get_run pi pi_writeopen p1 e s1 Hp).
      rewrite empty_iff, Hq1, Hwo1 by apply I1. destruct Hwo as [Hne| ->]; [by rewrite bool_decide_false|by rewrite andb_false_r].
  - destruct (Hsleep p s [] true f e I Hm Hq Hopen Hl) as (s1 & p1 & Es & I1 & Hm1 & Hq1 & Hwo1).
    destruct (IH p1 s1 I1 Hm1 Hq1 Hwo1) as (c & s2 & p2 & Hr & Hc & I2 & Hm2 & Hq2).
    exists (c + 1), s2, p2. split_and!; [|simpl; lia|done..]. eapply runs_step; [|exact Hr].
    cbv beta. rewrite (Htest p s (f :: e) I Hq Hopen (λ b, if b then _ else _)). cbv beta iota.
    run (in_killed _ _ _ _ (f :: e) _ I). cbn [ctrue Z.eqb negb]. run Es. done.
Qed.

Abbreviation read_step pi pr addr n := (λ i : Z,
      if i <? n then
        nread ← pipe_get pi pi_nread;
        nwrite ← pipe_get pi pi_nwrite;
        if nread =? nwrite then mret (inr i)
        else
          data ← pipe_get pi pi_data;
          let ch := default 0 (data !! Z.to_nat (nread mod PIPESIZE)) in
          pipe_set pi (λ p, p <| pi_nread := u32 (nread + 1) |>);;
          pagetable ← pget pr p_pagetable;
          c ← copyout pagetable (u64 (addr + i)) [ch];
          if c =? -1 then mret (inr i) else mret (inl (i + 1))
      else mret (inr i)).

(** One iteration on a pipe with a byte in it. *)
Lemma read_one pi pr r own D M l addr n k i p ch q e s :
  in_pipe pi pr r p s → may_write own D M l r (addr + i) (S k) s → queued p = ch :: q →
  0 ≤ addr → 0 ≤ i → i + Z.of_nat (S k) = n → addr + n ≤ MAXVA →
  ∃ M' l' s', read_step pi pr addr n i e s = Ret (inl (i + 1)) e s' ∧ in_pipe pi pr r (got_byte p) s' ∧
    queued (got_byte p) = q ∧ may_write own D M' l' r (addr + (i + 1)) k s' ∧ same_keys M M' ∧
    sees D M s s' r (wr (addr + i) [ch]).
Proof.
  intros I Hm Hq Ha Hi Hn Hmax. pose proof (in_pipe_ _ _ _ _ _ I) as Hp. pose proof (in_ok _ _ _ _ _ I) as Ho.
  destruct (queued_got ch q p Ho Hq) as (Hch & Hq1 & Ho1).
  destruct (pipe_set_run pi pr r (λ x, x <| pi_nread := u32 (pi_nread p + 1) |>) p _ e s I eq_refl Ho1)
    as (s1 & Est & I1 & Em & Ef & Er & _).
  destruct (may_write_ext own D M l pi pr r (got_byte p) (addr + i) (S k) s s1 (or_introl I1) Em Ef Er Hm)
    as (Hnn & HI1 & Hr & Hw1 & Hro1).
  destruct (copyout_byte own D M l s1 r (addr + i) ch k e Hnn HI1 Hr ltac:(lia) (Hw1 (addr + i) ltac:(lia)) Hro1)
    as (M2 & l2 & s2 & Ec & [HI2 Hmo Hk2 Hw2 Hs2 _] & Hro2).
  exists M2, l2, s2. split_and!; [|by eapply in_pipe_mem|done| |done|].
  - cbv beta. destruct (Z.ltb_spec i n); [|lia].
    run (pipe_get_run pi pi_nread p e s Hp). run (pipe_get_run pi pi_nwrite p e s Hp).
    rewrite empty_iff, bool_decide_false by (done || by rewrite Hq). run (pipe_get_run pi pi_data p e s Hp).
    cbv zeta. run Est. destruct (pget_in _ _ _ _ p_pagetable e _ I1) as (qq & Eq & Eqr). rewrite Eqr in Eq. run Eq.
    assert (default 0 (pi_data p !! Z.to_nat (pi_nread p mod PIPESIZE)) = ch) as -> by (by rewrite <- nth_lookup).
    rewrite (wrapu_id 64).
    2: { rewrite MAXVA_val in Hmax. change (2 ^ 38) with 274877906944 in Hmax. change (2 ^ 64) with 18446744073709551616. lia. }
    by run Ec.
  - rewrite Z.add_assoc. split_and!; [done..| |].
    + intros x Hx. apply Hw2; [lia|]. apply Hw1. lia.
    + destruct (decide (addr + i + 1 < MAXVA)) as [Hlt|Hge]; [by apply Hro2|].
      left. replace k with 0%nat by lia. unfold pages_of. simpl. lia.
  - intros r' va Hva Hr' HM. rewrite (Hs2 r' va Hva Hr' HM). by rewrite Em.
Qed.

(** The copying loop: the first bytes of the queue, in order. *)
Lemma read_loop pi pr r own D addr n e : 0 ≤ addr → addr + Z.of_nat n ≤ MAXVA → ∀ (k : nat) M l p i s,
  (i + k = n)%nat → in_pipe pi pr r p s → may_write own D M l r (addr + Z.of_nat i) k s →
  ∃ c M' l' p' s', runs (read_step pi pr addr (Z.of_nat n)) (Z.of_nat i) e s c
      (Z.of_nat (i + Nat.min k (length (queued p)))) e s' ∧
    c ≤ Z.of_nat k + 1 ∧ in_pipe pi pr r p' s' ∧ queued p' = drop k (queued p) ∧
    vm_inv own D M' l' s' ∧ same_keys M M' ∧
    sees D M s s' r (wr (addr + Z.of_nat i) (take k (queued p))).
Proof.
  intros Ha Hmax. assert (∀ D M s (va : Z), sees D M s s r (wr va [])) as Hnil.
  { intros D' M s va r' x _ _ _. unfold wr. cbn [length].
    destruct (Z.leb_spec va x), (Z.ltb_spec x (va + Z.of_nat 0)); cbn [andb]; try lia; by destruct (r' =? r). }
  induction k as [|k IH]; intros M l p i s Hi I Hm.
  { exists 1, M, l, p, s. replace i with n by lia. cbn [Nat.min take]. rewrite Nat.add_0_r.
    split_and!; [|lia|done|done|apply Hm|done|apply Hnil]. apply runs_done. cbv beta. by rewrite Z.ltb_irrefl. }
  pose proof (in_pipe_ _ _ _ _ _ I) as Hp. pose proof (in_ok _ _ _ _ _ I) as Ho.
  destruct (queued p) as [|ch q] eqn:Hq.
  { exists 1, M, l, p, s. cbn [length Nat.min take]. rewrite Nat.add_0_r.
    split_and!; [|lia|done|done|apply Hm|done|apply Hnil]. apply runs_done. cbv beta. destruct (Z.ltb_spec (Z.of_nat i) (Z.of_nat n)); [|lia].
    run (pipe_get_run pi pi_nread p e s Hp). run (pipe_get_run pi pi_nwrite p e s Hp).
    by rewrite empty_iff, bool_decide_true by done. }
  destruct (read_one pi pr r own D M l addr (Z.of_nat n) k (Z.of_nat i) p ch q e s I Hm Hq Ha ltac:(lia) ltac:(lia) Hmax)
    as (M2 & l2 & s2 & Est & I2 & Hq1 & Hm2 & Hk2 & Hs2).
  assert (Z.of_nat i + 1 = Z.of_nat (S i)) as Ei by lia. rewrite Ei in Hm2.
  destruct (IH M2 l2 (got_byte p) (S i) s2 ltac:(lia) I2 Hm2) as (c & M3 & l3 & p3 & s3 & Hruns & Hc & I3 & Hq3 & HI3 & Hk3 & Hs3).
  exists (c + 1), M3, l3, p3, s3. rewrite Hq1 in Hruns, Hq3, Hs3. split_and!; [|lia|done|done|done| |].
  - rewrite <- Ei in Hruns. eapply runs_step; [exact Est|]. replace (i + Nat.min (S k) (length (ch :: q)))%nat with (S i + Nat.min k (length q))%nat by (cbn [length]; lia).
    exact Hruns.
  - intros x. by rewrite (Hk3 x), (Hk2 x).
  - eapply sees_trans; [exact Hk2|exact Hs2|exact Hs3|]. intros x. cbn [take].
    rewrite (wr_split _ (ch :: take k q) 1) by (cbn [length]; lia). cbn [drop take].
    by replace (addr + Z.of_nat (S i)) with (addr + Z.of_nat i + Z.of_nat 1) by lia.
Qed.

Lemma sees_ubytes D M t s r addr bs :
  D !! (r, []) = Some r → 0 ≤ addr → addr + Z.of_nat (length bs) ≤ MAXVA →
  (∀ x, addr ≤ x < addr + Z.of_nat (length bs) → writable M t r x) → sees D M t s r (wr addr bs) →
  ubytes (k_mem s) r addr (Z.of_nat (length bs)) = bs.
Proof.
  intros Hr Ha Hmax Hw Hs. unfold ubytes. apply (list_eq_same_length _ _ (length bs)); [done|by rewrite length_fmap, length_seqZ; lia|].
  intros i x y Hi Hx Hy. rewrite list_lookup_fmap, lookup_seqZ_lt in Hx by lia. injection Hx as <-.
  destruct (Hw (addr + Z.of_nat i) ltac:(lia)) as (pa & HM & _).
  rewrite Hs, Z.eqb_refl by (done || lia || eauto). unfold wr.
  destruct (Z.leb_spec addr (addr + Z.of_nat i)), (Z.ltb_spec (addr + Z.of_nat i) (addr + Z.of_nat (length bs))); try lia.
  cbn [andb]. change (default ?d (Some ?b)) with b. replace (Z.to_nat (addr + Z.of_nat i - addr)) with i by lia.
  rewrite nth_lookup. by rewrite Hy.
Qed.

Lemma read_wait own D M l pi pr r addr n p q e e' s :
  in_pipe pi pr r p s → may_write own D M l r addr n s → finds pi pr r addr n p q e e' → Z.of_nat (length e) < 2 ^ 64 - 1 →
  ∃ own' D' M' l' s1 p1, pipe_wait pi pr e s = Ret false e' s1 ∧ in_pipe pi pr r p1 s1 ∧ queued p1 = q ∧
    may_write own' D' M' l' r addr n s1 ∧
    (queued p ≠ [] ∨ pi_writeopen p = false → k_mem s1 = k_mem s ∧ D' = D ∧ M' = M).
Proof.
  intros I Hm Hf He. unfold finds in Hf. case_decide as Hd.
  - destruct Hd as [Hq Hwo].
    destruct (wait_run pi pr r addr n q e e' Hf p s I) as (c & s1 & p1 & Hr & Hc & I1 & (own' & D' & M' & l' & Hm1) & Hq1);
      [eauto|done|done|]. exists own', D', M', l', s1, p1. split_and!; try done.
    + unfold pipe_wait. eapply while_runs; [exact Hr|lia].
    + intros [?|?]; congruence.
  - destruct Hf as [-> ->]. exists own, D, M, l, s, p. split_and!; try done.
    pose proof (in_pipe_ _ _ _ _ _ I) as Hp. unfold pipe_wait. eapply while_runs; [apply runs_done|lia]. cbv beta.
    run (pipe_get_run pi pi_nread p e s Hp). run (pipe_get_run pi pi_nwrite p e s Hp). run (pipe_get_run pi pi_writeopen p e s Hp).
    rewrite empty_iff by apply I. destruct (bool_decide (queued p = [])) eqn:E; breflect; [|done].
    destruct (pi_writeopen p) eqn:Ew; [|done]. tauto.
Qed.

(** C13: a read waits while the pipe is empty and its write end open, then
    returns the number of bytes it takes, the first [n] of the queue in order,
    or fewer when there are fewer; 0 when all writers are gone.  The reader sees
    exactly those bytes at [addr], no other process and no other address sees a
    change, the rest of the queue stays, and no writer is left asleep. *)
Theorem piperead_correct own D M l pi pr r addr n p q e e' s :
  at_call pi pr r p s → may_write own D M l r addr n s → 0 ≤ addr → addr + Z.of_nat n ≤ MAXVA → Z.of_nat n < 2 ^ 31 →
  finds pi pr r addr n p q e e' → Z.of_nat (length e) < 2 ^ 64 - 1 →
  ∃ s' p' own' D' M' l' t, 
    piperead pi addr (Z.of_nat n) e s = Ret (Z.of_nat (length (take n q))) e' s' ∧
    at_call pi pr r p' s' ∧ queued p' = drop n q ∧
    vm_inv own' D' M' l' t ∧ D' !! (r, []) = Some r ∧
    (queued p ≠ [] ∨ pi_writeopen p = false → k_mem t = k_mem s ∧ D' = D ∧ M' = M) ∧
    sees D' M' t s' r (wr addr (take n q)) ∧
    ubytes (k_mem s') r addr (Z.of_nat (length (take n q))) = take n q ∧ none_asleep pr (ChPipeW pi) s'.
Proof.
  intros A Hm Ha Hmax Hint Hf He. destruct (call_enter pi pr r p e s A) as [Henter I].
  set (s1 := s <| k_mach ::= λ m, mlock (LPipe pi) (settle m) |>) in *.
  assert (may_write own D M l r addr n s1) as Hm1 by (by apply (may_write_ext own D M l pi pr r p addr n s s1 (or_introl I))).
  destruct (read_wait own D M l pi pr r addr n p q e e' s1 I Hm1 Hf He)
    as (own' & D' & M' & l' & t & p1 & Ewait & I1 & Hq1 & Hmt & Hsame).
  destruct (read_loop pi pr r own' D' addr n e' Ha Hmax n M' l' p1 0 t eq_refl I1) as
    (c & M2 & l2 & p2 & s2 & Hr & Hc & I2 & Hq2 & HI2 & Hk2 & Hs2); [by rewrite Z.add_0_r|].
  rewrite Z.add_0_r, Hq1 in *.
  destruct (in_wakeup pi pr r p2 (ChPipeW pi) e' s2 I2) as (s3 & Ew & I3 & Hna & E3).
  destruct (call_leave pi pr r p2 e' s3 I3) as [El A'].
  destruct Hmt as (Hnn & HIt & Hrt & Hwt & _).
  assert (sees D' M' t (s3 <| k_mach ::= munlock (LPipe pi) |>) r (wr addr (take n q))) as Hs3.
  { intros r' va Hva Hr' HM. rewrite <- (Hs2 r' va Hva Hr' HM). rewrite E3. done. }
  eexists _, p2, own', D', M', l', t. split_and!; [|exact A'|exact Hq2|exact HIt|exact Hrt|exact Hsame|exact Hs3| |exact Hna].
  - unfold piperead. rewrite Henter. run Ewait. cbv iota. rewrite length_take.
    erewrite bind_Ret by (eapply while_runs; [exact Hr|lia]). cbv beta. run Ew. by run El.
  - apply (sees_ubytes D' M' t); try done; rewrite length_take; [lia|]. intros x Hx. apply Hwt. lia.
Qed.
End Read.

(** ** Examples: process 3 of the small machine, and the pipe in page 8 *)

Section Witness.
#[local] Existing Instance small_image.
#[local] Existing Instance small_image_ok.

Definition ex_user (p : pipe) : kstate :=
  ex_vm <| k_mach := k_mach (ex_procs (Some 3%nat) []) |>
    <| k_procs := <[3%nat := proc0 <| p_pagetable := ex_pg 0 |>]> (replicate NPROC proc0) |>
    <| k_fs ::= set f_pipes (λ _, {[ex_pg 8 := p]}) |>.
Definition ex_ring (nwrite : Z) : pipe := Pipe (replicate 512 7) 0 nwrite true true.

Lemma ex_ring_ok nwrite : 0 ≤ nwrite ≤ 512 → pipe_ok (ex_ring nwrite).
Proof.
  intros Hn. split; [done|cbn; lia|cbn; change (2 ^ 32) with 4294967296; lia|].
  change (u32 (nwrite - 0) ≤ 512). rewrite wrapu_id; [lia|]. change (2 ^ 32) with 4294967296. lia.
Qed.

Lemma ex_user_ok p : pipe_ok p → at_call (ex_pg 8) 3 (ex_pg 0) p (ex_user p).
Proof.
  intros Hp. split; [|done|done|done|by vm_compute|done]. split; [|done| |by vm_compute; lia].
  - destruct (ex_procs_ready (Some 3%nat) (replicate NPROC proc0) eq_refl) as [H1 H2 _]. by split.
  - by exists (proc0 <| p_pagetable := ex_pg 0 |>).
Qed.

Lemma ex_user_vm p : vm_inv ex_own ex_D ex_M [ex_pg 5; ex_pg 6; ex_pg 7] (ex_user p).
Proof.
  apply (vm_inv_ext _ _ _ _ ex_vm); [done..| |apply ex_vm_inv]. split; [|done].
  apply (ex_procs_ready (Some 3%nat) (replicate NPROC proc0) eq_refl).
Qed.

Lemma ex_may_read p : may_read (ex_pg 0) 10 (ubytes (k_mem ex_vm) (ex_pg 0) 10 2) (ex_user p).
Proof.
  exists ex_own, ex_D, ex_M, [ex_pg 5; ex_pg 6; ex_pg 7]. split_and!; [apply ex_user_vm|by vm_compute| |done].
  intros x Hx. change (Z.of_nat _) with 2 in Hx. destruct (ex_writable x ltac:(lia)) as (pa & A & B & _). by exists pa.
Qed.

(** Changes of the pipe alone. *)
Lemma at_switch_pipe pi pr r p g t : at_switch pi pr r p t → pipe_ok (g p) →
  at_switch pi pr r (g p) (t <| k_fs ::= set f_pipes (alter g pi) |>).
Proof.
  intros [] Hg. split; try done. unfold has_pipe in *. change (alter g pi (f_pipes (k_fs t)) !! pi = Some (g p)).
  by rewrite lookup_alter_eq, sw_pipe0.
Qed.

(** A reader that takes everything. *)
Definition ex_reader : kstate → kstate :=
  λ t, t <| k_fs ::= set f_pipes (alter (λ p, p <| pi_nread := pi_nwrite p |>) (ex_pg 8)) |>.

Lemma ex_drains : drains (ex_pg 8) 3 (ex_pg 0) 10 (ubytes (k_mem ex_vm) (ex_pg 0) 10 2) ex_reader.
Proof.
  intros t p Ht Hm Hro Hfull. set (g := λ p, p <| pi_nread := pi_nwrite p |>).
  pose proof (sw_ok _ _ _ _ _ Ht) as [P1 P2 P3 P4].
  assert (u32 (pi_nwrite (g p) - pi_nread (g p)) = 0) as E.
  { change (u32 (pi_nwrite p - pi_nwrite p) = 0). by rewrite Z.sub_diag. }
  assert (queued (g p) = []) as Eq by (apply length_zero_iff_nil; by rewrite queued_length, E).
  assert (pipe_ok (g p)) as Hg by (split; [done|done|done|by rewrite E]).
  pose proof (at_switch_pipe _ _ _ p g t Ht Hg) as Ht'. exists (g p), (queued p). split_and!; [done| |done| |by rewrite Eq, app_nil_r].
  - by apply (may_read_ext (ex_pg 8) 3 (ex_pg 0) (g p) _ _ t _ (or_intror Ht')).
  - intros E0. by rewrite E0 in Hfull.
Qed.

Lemma pipewrite_correct_witness :
  let bs := ubytes (k_mem ex_vm) (ex_pg 0) 10 2 in
  ∃ e' s' p' taken, pipewrite (ex_pg 8) 10 2 [ex_reader; ex_reader] (ex_user (ex_ring 512)) = Ret 2 e' s' ∧
    at_call (ex_pg 8) 3 (ex_pg 0) p' s' ∧ queued (ex_ring 512) ++ bs = taken ++ queued p' ∧ none_asleep 3 (ChPipeR (ex_pg 8)) s'.
Proof.
  apply (pipewrite_correct (ex_pg 8) 3 (ex_pg 0) (ex_ring 512) 10 (ubytes (k_mem ex_vm) (ex_pg 0) 10 2)
    [ex_reader; ex_reader] (ex_user (ex_ring 512))).
  - apply ex_user_ok, ex_ring_ok. lia.
  - apply ex_may_read.
  - done.
  - done.
  - by vm_compute.
  - by vm_compute.
  - repeat constructor; apply ex_drains.
  - by vm_compute.
Defined.

Lemma pipewrite_broken_witness :
  let s := ex_user (Pipe (replicate 512 7) 0 1 false true) in
  ∃ s', pipewrite (ex_pg 8) 10 2 [] s = Ret (-1) [] s' ∧ at_call (ex_pg 8) 3 (ex_pg 0) (Pipe (replicate 512 7) 0 1 false true) s' ∧
    k_fs s' = k_fs s ∧ k_mem s' = k_mem s ∧ k_procs s' = k_procs s.
Proof.
  apply (pipewrite_broken (ex_pg 8) 3 (ex_pg 0) (Pipe (replicate 512 7) 0 1 false true) 10 2 []); [|done|done].
  apply ex_user_ok. split; [done|cbn; lia|cbn; change (2 ^ 32) with 4294967296; lia|vm_compute; discriminate].
Defined.

(** A writer that puts one byte into the pipe. *)
Definition ex_writer : kstate → kstate := λ t, t <| k_fs ::= set f_pipes (alter (put_byte 5) (ex_pg 8)) |>.

Lemma ex_leaves : leaves (ex_pg 8) 3 (ex_pg 0) 10 3 [5] true ex_writer.
Proof.
  intros t p Ht (own & D & M & l & Hm) Hq Hwo.
  destruct (queued_put 5 p (sw_ok _ _ _ _ _ Ht)) as [Eq Hg]; [by rewrite Hq|]. rewrite Hq in Eq.
  pose proof (at_switch_pipe _ _ _ p (put_byte 5) t Ht Hg) as Ht'. exists (put_byte 5 p). split_and!; [done| |done|done].
  exists own, D, M, l. by apply (may_write_ext own D M l (ex_pg 8) 3 (ex_pg 0) (put_byte 5 p) 10 3 t _ (or_intror Ht')).
Qed.

Lemma piperead_correct_witness :
  ∃ s' p' own' D' M' l' t, 
    piperead (ex_pg 8) 10 3 [ex_writer] (ex_user (ex_ring 0)) = Ret 1 [] s' ∧
    at_call (ex_pg 8) 3 (ex_pg 0) p' s' ∧ queued p' = [] ∧
    vm_inv own' D' M' l' t ∧ D' !! (ex_pg 0, []) = Some (ex_pg 0) ∧
    (queued (ex_ring 0) ≠ [] ∨ pi_writeopen (ex_ring 0) = false → k_mem t = k_mem (ex_user (ex_ring 0)) ∧ D' = ex_D ∧ M' = ex_M) ∧
    sees D' M' t s' (ex_pg 0) (wr 10 [5]) ∧ ubytes (k_mem s') (ex_pg 0) 10 1 = [5] ∧ none_asleep 3 (ChPipeW (ex_pg 8)) s'.
Proof.
  apply (piperead_correct ex_own ex_D ex_M [ex_pg 5; ex_pg 6; ex_pg 7] (ex_pg 8) 3 (ex_pg 0) 10 3 (ex_ring 0) [5] [ex_writer] []
    (ex_user (ex_ring 0))).
  - apply ex_user_ok, ex_ring_ok. lia.
  - split_and!; [exact ex_nonneg|apply ex_user_vm|by vm_compute| |left; by vm_compute].
    intros x Hx. cbn in Hx. apply (ex_writable x). lia.
  - done.
  - by vm_compute.
  - by vm_compute.
  - unfold finds. rewrite decide_True by done. by apply (fed_stop _ _ _ _ _ _ _ _ true ex_leaves); left.
  - by vm_compute.
Defined.
End Witness.
