(* ===== verification/Proc.v ===== *)
(** * Proc: the life of a process (kernel/proc.c)

    Creating ([allocproc], [fork], [userinit]), growing, ending ([exit],
    [reparent]) and reaping ([wait], [waitx], [freeproc]) processes, with their
    page tables. *)

From S2P Require Import Prelude Params CString State Spinlock PhysMem Kalloc Vm ProcBase Sleeplock Virtio Bio Blocks Bytes Log Fs Console File.

Definition DEFAULT_TICKETS : Z := 1.

(** [struct trapframe] fields, at kernel address [tf]. *)
Definition tf_get (tf off : Z) : K Z := ld64 (tf + off).
Definition tf_set (tf off v : Z) : K () := st64 (tf + off) (u64 v).
Definition sizeof_trapframe : Z := 8 * Z.of_nat tf_words.

Section Proc.
Context `{!Image}.

(** ** Page tables of processes *)

Definition proc_pagetable (p : nat) : K Z :=
  pagetable ← uvmcreate;
  if pagetable =? 0 then mret 0
  else
    r ← mappages pagetable TRAMPOLINE PGSIZE trampoline (Z.lor PTE_R PTE_X);
    if r <? 0 then
      uvmfree pagetable 0;;
      mret 0
    else
      tf ← pget p p_trapframe;
      r ← mappages pagetable TRAPFRAME PGSIZE tf (Z.lor PTE_R PTE_W);
      if r <? 0 then
        uvmunmap pagetable TRAMPOLINE 1 false;;
        uvmfree pagetable 0;;
        mret 0
      else mret pagetable.

Definition proc_freepagetable (pagetable sz : Z) : K () :=
  uvmunmap pagetable TRAMPOLINE 1 false;;
  uvmunmap pagetable TRAPFRAME 1 false;;
  uvmfree pagetable sz.

Definition freeproc (p : nat) : K () :=
  tf ← pget p p_trapframe;
  when (ctrue tf) (kfree tf);;
  pset p (λ q, q <| p_trapframe := 0 |>);;
  pagetable ← pget p p_pagetable;
  sz ← pget p p_sz;
  when (ctrue pagetable) (proc_freepagetable pagetable sz);;
  pset p (λ q, q <| p_pagetable := 0 |> <| p_sz := 0 |> <| p_pid := 0 |> <| p_parent := None |>
                 <| p_name ::= insert 0%nat 0 |> <| p_chan := None |> <| p_killed := 0 |>
                 <| p_xstate := 0 |> <| p_state := UNUSED |>);;
  pset p (λ q, q <| p_static_priority := 0 |> <| p_niceness := 5 |> <| p_rtime := 0 |>
                 <| p_stime := 0 |> <| p_sched_ct := 0 |> <| p_etime := 0 |>).

(** ** allocproc *)

(** The scan for an UNUSED process; it is returned with its lock held. *)
Definition find_unused : K (option nat) :=
  scan procs (λ p,
    acquire (LProc p);;
    st ← pget p p_state;
    if bool_decide (st = UNUSED) then mret (Some p)
    else release (LProc p);; mret None).

Definition allocproc : K (option nat) :=
  found ← find_unused;
  match found with
  | None => mret None
  | Some p =>
      pid ← allocpid;
      pset p (λ q, q <| p_pid := pid |> <| p_state := USED |>);;
      pset p (λ q, q <| p_queue_position := 0 |> <| p_ticks_used := 0 |> <| p_in_queue := 0 |>
                     <| p_curr_wait_time := 0 |> <| p_queue_entry := 0 |>
                     <| p_queue_time := replicate 5 0 |>
                     <| p_static_priority := 60 |> <| p_niceness := 5 |>);;
      tf ← kalloc;
      pset p (λ q, q <| p_trapframe := tf |>);;
      if tf =? 0 then
        freeproc p;;
        release (LProc p);;
        mret None
      else
        pagetable ← proc_pagetable p;
        pset p (λ q, q <| p_pagetable := pagetable |>);;
        if pagetable =? 0 then
          freeproc p;;
          release (LProc p);;
          mret None
        else
          ticks ← gets k_ticks;
          pset p (λ q, q <| p_context := Context_ forkret_addr (u64 (p_kstack q + PGSIZE)) (replicate 12 0) |>);;
          pset p (λ q, q <| p_max_alarm_ticks := -1 |> <| p_alarm_ticks := -1 |> <| p_handler := u64 (-1) |>
                         <| p_rtime := 0 |> <| p_etime := 0 |> <| p_ctime := ticks |> <| p_stime := 0 |>
                         <| p_ticks_used := 0 |> <| p_queue_position := 0 |> <| p_in_queue := 0 |>
                         <| p_queue_entry := 0 |> <| p_curr_wait_time := 0 |>);;
          mret (Some p)
  end.

(** ** The first process *)

Definition initcode : list Z :=
  [0x17; 0x05; 0x00; 0x00; 0x13; 0x05; 0x45; 0x02;
   0x97; 0x05; 0x00; 0x00; 0x93; 0x85; 0x35; 0x02;
   0x93; 0x08; 0x70; 0x00; 0x73; 0x00; 0x00; 0x00;
   0x93; 0x08; 0x20; 0x00; 0x73; 0x00; 0x00; 0x00;
   0xef; 0xf0; 0x9f; 0xff; 0x2f; 0x69; 0x6e; 0x69;
   0x74; 0x00; 0x00; 0x24; 0x00; 0x00; 0x00; 0x00;
   0x00; 0x00; 0x00; 0x00].

Definition userinit : K () :=
  p ← allocproc;
  modify (λ s, s <| k_initproc := p |>);;
  p ← deref p;
  pagetable ← pget p p_pagetable;
  uvmfirst pagetable initcode;;
  pset p (λ q, q <| p_sz := PGSIZE |>);;
  tf ← pget p p_trapframe;
  tf_set tf TF_epc 0;;
  tf_set tf TF_sp PGSIZE;;
  pset p (λ q, q <| p_name := safe_copy (p_name q) (bytes_of "initcode") 16 |>);;
  cwd ← namei [slash];
  pset p (λ q, q <| p_cwd := cwd |>);;
  pset p (λ q, q <| p_state := RUNNABLE |>);;
  pset p (λ q, q <| p_tickets := DEFAULT_TICKETS |>);;
  release (LProc p).

(** ** growproc *)

Definition growproc (n : Z) : K Z :=
  p ← myproc;
  p ← deref p;
  sz ← pget p p_sz;
  pagetable ← pget p p_pagetable;
  if 0 <? n then
    sz ← uvmalloc pagetable sz (u64 (sz + n)) PTE_W;
    if sz =? 0 then mret (-1)
    else pset p (λ q, q <| p_sz := sz |>);; mret 0
  else if n <? 0 then
    sz ← uvmdealloc pagetable sz (u64 (sz + n));
    pset p (λ q, q <| p_sz := sz |>);; mret 0
  else
    pset p (λ q, q <| p_sz := sz |>);; mret 0.

(** ** fork *)

(** The loop that duplicates the parent's open files. *)
Definition dup_files (p np : nat) : K () :=
  foreach (seq 0 NOFILE) (λ i,
    ofile ← pget p p_ofile;
    match ofile !! i with
    | Some (Some f) =>
        f ← filedup f;
        pset np (λ q, q <| p_ofile ::= insert i (Some f) |>)
    | _ => mret ()
    end).

Definition fork : K Z :=
  p ← myproc;
  np ← allocproc;
  match np with
  | None => mret (-1)
  | Some np =>
      p ← deref p;
      pt ← pget p p_pagetable;
      npt ← pget np p_pagetable;
      sz ← pget p p_sz;
      r ← uvmcopy pt npt sz;
      if r <? 0 then
        freeproc np;;
        release (LProc np);;
        mret (-1)
      else
        pset np (λ q, q <| p_sz := sz |>);;
        tf ← pget p p_trapframe;
        ntf ← pget np p_trapframe;
        kmemmove ntf tf sizeof_trapframe;;
        tickets ← pget p p_tickets;
        pset np (λ q, q <| p_tickets := tickets |>);;
        mask ← pget p p_trace_mask;
        pset np (λ q, q <| p_trace_mask := mask |>);;
        tf_set ntf TF_a0 0;;
        dup_files p np;;
        cwd ← pget p p_cwd;
        cwd ← deref cwd;
        cwd ← idup cwd;
        pset np (λ q, q <| p_cwd := Some cwd |>);;
        name ← pget p p_name;
        pset np (λ q, q <| p_name := safe_copy (p_name q) name 16 |>);;
        pid ← pget np p_pid;
        release (LProc np);;
        acquire LWait;;
        pset np (λ q, q <| p_parent := Some p |>);;
        release LWait;;
        acquire (LProc np);;
        pset np (λ q, q <| p_state := RUNNABLE |>);;
        release (LProc np);;
        mret pid
  end.

(** ** exit *)

(** [wakeup] on a process pointer; nobody sleeps on a null channel. *)
Definition wakeup_proc (p : option nat) : K () :=
  match p with Some i => wakeup (ChProc i) | None => mret () end.

Definition reparent (p : nat) : K () :=
  foreach procs (λ pp,
    parent ← pget pp p_parent;
    when (bool_decide (parent = Some p)) (
      init ← gets k_initproc;
      pset pp (λ q, q <| p_parent := init |>);;
      wakeup_proc init)).

Definition close_files (p : nat) : K () :=
  foreach (seq 0 NOFILE) (λ fd,
    ofile ← pget p p_ofile;
    match ofile !! fd with
    | Some (Some f) =>
        fileclose f;;
        pset p (λ q, q <| p_ofile ::= insert fd None |>)
    | _ => mret ()
    end).

(** [exit] does not return: it ends in the switch to the scheduler, or, were a
    zombie ever switched to again, in a panic. *)
Definition exit {A} (status : Z) : K A :=
  me ← myproc;
  init ← gets k_initproc;
  panic_if (bool_decide (me = init)) "init exiting";;
  p ← deref me;
  close_files p;;
  begin_op;;
  cwd ← pget p p_cwd;
  cwd ← deref cwd;
  iput cwd;;
  end_op;;
  pset p (λ q, q <| p_cwd := None |>);;
  acquire LWait;;
  reparent p;;
  parent ← pget p p_parent;
  wakeup_proc parent;;
  acquire (LProc p);;
  ticks ← gets k_ticks;
  pset p (λ q, q <| p_xstate := status |> <| p_state := ZOMBIE |> <| p_etime := ticks |>);;
  release LWait;;
  sched;;
  panic "zombie exit".

(** ** wait and waitx *)

(** One pass over the table: the result of reaping a zombie child of [p], if
    there is one, and whether [p] has children.  [reap pp] is what is done
    before a found zombie's exit status is copied out. *)
Fixpoint wait_scan {R} (p : nat) (addr : Z) (reap : nat → K R) (l : list nat) (havekids : bool)
  : K (option (Z * R) * bool) :=
  match l with
  | [] => mret (None, havekids)
  | pp :: l' =>
      parent ← pget pp p_parent;
      if bool_decide (parent = Some p) then
        acquire (LProc pp);;
        st ← pget pp p_state;
        if bool_decide (st = ZOMBIE) then
          pid ← pget pp p_pid;
          x ← reap pp;
          xstate ← pget pp p_xstate;
          pagetable ← pget p p_pagetable;
          r ← (if negb (addr =? 0) then copyout pagetable addr (le_bytes 4 xstate) else mret 0);
          if r <? 0 then
            release (LProc pp);;
            release LWait;;
            mret (Some (-1, x), true)
          else
            freeproc pp;;
            release (LProc pp);;
            release LWait;;
            mret (Some (pid, x), true)
        else
          release (LProc pp);;
          wait_scan p addr reap l' true
      else wait_scan p addr reap l' havekids
  end.

Definition wait (addr : Z) : K Z :=
  p ← myproc;
  p ← deref p;
  acquire LWait;;
  while_ (λ _ : (),
    '(found, havekids) ← wait_scan p addr (λ _, mret ()) procs false;
    match found with
    | Some (pid, _) => mret (inr pid)
    | None =>
        k ← (if havekids : bool then killed p else mret 1);
        if ctrue k then
          release LWait;;
          mret (inr (-1))
        else
          sleep (ChProc p) LWait;;
          mret (inl ())
    end) ().

(** [waitx] also returns the waiting and running times it stores through its
    pointer arguments, which it leaves alone when it finds no zombie. *)
Definition waitx (addr : Z) : K (Z * option (Z * Z)) :=
  p ← myproc;
  p ← deref p;
  acquire LWait;;
  while_ (λ _ : (),
    '(found, havekids) ← wait_scan p addr (λ np,
      rtime ← pget np p_rtime;
      etime ← pget np p_etime;
      ctime ← pget np p_ctime;
      mret (u32 (etime - ctime - rtime), rtime)) procs false;
    match found with
    | Some (pid, times) => mret (inr (pid, Some times))
    | None =>
        k ← (if havekids : bool then pget p p_killed else mret 1);
        if ctrue k then
          release LWait;;
          mret (inr (-1, None))
        else
          sleep (ChProc p) LWait;;
          mret (inl ())
    end) ().
End Proc.
