(* ===== verification/Reap.v ===== *)
(** * Reap: taking a dead process apart (proc_freepagetable, freeproc and wait
    of kernel/proc.c)

    The address space of a process is its pages on [0, sz), the trampoline and
    the trapframe, two entries that own no page.  Freeing a process removes it
    from the invariant of all memory, so that every page only it used is on the
    free list afterwards. *)

From S2P Require Import Prelude Params CString State Spinlock PhysMem Kalloc Vm VmInv VmMap VmLocal VmGrow VmCow VmCopy VmFree ProcBase Sleeplock Virtio Bio Blocks Bytes Log Fs Console File Proc.

Section Space.
Context `{!Image} `{!ImageOK}.
Implicit Types (own : Z → Z) (D M : gmap node Z) (l : list Z) (s : kstate) (e : env).

(** ** Entries that own no page *)

(** uvmunmap of such an entry clears it and frees nothing. *)
Lemma unmap_bare own D M l s r va e :
  vm_inv own D M l s → D !! (r, []) = Some r → 0 ≤ va → va + 4096 ≤ MAXVA → va mod 4096 = 0 → M !! leaf r va = None →
  pte_at (k_mem s) r va ≠ 0 →
  ∃ s', uvmunmap r va 1 false e s = Ret () e s' ∧ vm_inv own D M l s' ∧ shrinks (unmap_range r va 1) D s s'.
Proof.
  intros HI Hr Hva Hmax Hal HM Hne. pose proof (pte_at_D HI r va Hva Hr) as Ep.
  destruct (D !! (r, [PX 2 va; PX 1 va])) as [p|] eqn:Hp; [|done].
  pose proof (PX_range 0 va ltac:(lia)) as Hk. destruct (leaf_slot _ _ _ _ _ r va p HI Hr Hva Hp) as [Hpp Hld].
  pose proof (page_bounds p Hpp) as Hpb. rewrite KERNBASE_val in Hpb.
  pose proof (po_leaf (vi_pt HI) r _ _ _ p Hp Hk) as Hlf. fold (leaf r va) in Hlf. rewrite HM, <- Ep in Hlf.
  destruct Hlf as [?|(pa & Hg & _)]; [done|].
  assert (vm_inv own D M l (st_pte p (PX 0 va) 0 s)) as HI'.
  { eapply (vm_inv_leaf HI Hp Hk); [done|apply (vi_own HI)|done|done|]. fold (leaf r va). rewrite HM. by left. }
  exists (st_pte p (PX 0 va) 0 s). split_and!; [|done|].
  - rewrite MAXVA_val in Hmax. change (2 ^ 38) with 274877906944 in Hmax.
    unfold uvmunmap. krun. unfold PGSIZE. rewrite Hal. cbn [Z.eqb negb]. rewrite Z.mul_1_l.
    rewrite (wrapu_id 64 (va + 4096)) by (change (2 ^ 64) with 18446744073709551616; lia).
    eapply (while_runs _ _ _ _ 2); [|lia]. eapply (runs_step _ _ _ _ _ _ _ 1).
    + cbv beta. destruct (Z.ltb_spec va (va + 4096)); [|lia].
      rewrite (bind_Ret _ _ _ _ _ _ _ (walk_noalloc HI r va e ltac:(rewrite MAXVA_val; change (2 ^ 38) with 274877906944; lia) Hr)).
      unfold slot_of. rewrite Hp. krun. destruct (Z.eqb_spec (p + 8 * PX 0 va) 0); [lia|].
      erewrite bind_Ret by (apply ld64_run, ent_in_ram; done). rewrite Hld. krun.
      destruct (Z.eqb_spec (Z.land (pte_at (k_mem s) r va) PTE_V) 0) as [Ez|_]; [by apply good_pte_V in Hg|].
      destruct (Z.eqb_spec (PTE_FLAGS (pte_at (k_mem s) r va)) PTE_V) as [Ez|_]; [by apply good_pte_leaf in Hg|].
      cbn [when]. krun. erewrite bind_Ret by (apply st64_run, ent_in_ram; done). done.
    + apply runs_done. cbv beta. rewrite (wrapu_id 64) by (change (2 ^ 64) with 18446744073709551616; lia).
      destruct (Z.ltb_spec (va + 4096) (va + 4096)); [lia|done].
  - split; [split; [by left|done]|done| |].
    + intros x Hx. apply (sl_mem Hk).
      destruct (Z.le_gt_cases p x), (Z.lt_ge_cases x (p + PGSIZE)); try lia. destruct (Hx p Hpp ltac:(lia)) as [_ Hx']. by apply Hx' in Hp.
    + intros r' va' Hva' Hr'. rewrite unmap_range_one by (lia || done).
      apply (pte_at_upd _ _ _ _ _ _ _ _ _ _ _ _ _ _ _ _ _ HI HI' Hp Hk); [|lia|done].
      intros x t y Hx Hy. apply ent_st_pte; try done. by apply (table_page HI _ _ Hx).
Qed.

(** ** The address space of a process *)

Record proc_space D M s r sz : Prop := ProcSpace {
  ps_root : D !! (r, []) = Some r;
  ps_size : 0 ≤ sz ≤ TRAPFRAME;
  ps_all : all_owned r 0 (Z.to_nat (PGROUNDUP sz / 4096)) M;
  ps_only : ∀ k, k.1 = r → is_Some (M !! k) → ∃ i, 0 ≤ i < PGROUNDUP sz / 4096 ∧ k = leaf r (i * 4096);
  ps_tramp : pte_at (k_mem s) r TRAMPOLINE ≠ 0;
  ps_frame : pte_at (k_mem s) r TRAPFRAME ≠ 0;
  ps_clean : ∀ va, 0 ≤ va < MAXVA → va / 4096 ≠ TRAMPOLINE / 4096 → va / 4096 ≠ TRAPFRAME / 4096 →
    M !! leaf r va = None → pte_at (k_mem s) r va = 0;
}.

Lemma frame_vals : TRAMPOLINE = 274877902848 ∧ TRAPFRAME = 274877898752 ∧ MAXVA = 274877906944.
Proof. done. Qed.

Lemma size_below sz : 0 ≤ sz ≤ TRAPFRAME → 0 ≤ PGROUNDUP sz / 4096 ≤ TRAPFRAME / 4096.
Proof.
  destruct frame_vals as (_ & -> & _). intros Hsz. rewrite PGROUNDUP_spec; [zlia|lia|].
  change (2 ^ 64) with 18446744073709551616. lia.
Qed.

Lemma frames_unowned D M s r sz va : proc_space D M s r sz → va = TRAMPOLINE ∨ va = TRAPFRAME → M !! leaf r va = None.
Proof.
  intros P Hva. destruct (M !! leaf r va) as [pa|] eqn:E; [|done].
  destruct (ps_only _ _ _ _ _ P (leaf r va) eq_refl (mk_is_Some _ _ E)) as (i & Hi & El).
  pose proof (size_below sz (ps_size _ _ _ _ _ P)) as Hs. destruct frame_vals as (E1 & E2 & E3).
  apply leaf_eq in El as [_ El]; rewrite ?E3; destruct Hva as [->| ->]; rewrite ?E1, ?E2 in *; zlia.
Qed.

Lemma proc_freepagetable_run own D M l s r sz e : nonneg own → vm_inv own D M l s → proc_space D M s r sz →
  ∃ l' s', proc_freepagetable r sz e s = Ret () e s' ∧ space_freed own D M s r l' s'.
Proof.
  intros Hnn HI P. destruct frame_vals as (E1 & E2 & E3). pose proof (ps_root _ _ _ _ _ P) as Hr.
  pose proof (frames_unowned _ _ _ _ _ TRAMPOLINE P (or_introl eq_refl)) as M1.
  pose proof (frames_unowned _ _ _ _ _ TRAPFRAME P (or_intror eq_refl)) as M2.
  destruct (unmap_bare own D M l s r TRAMPOLINE e HI Hr) as (s1 & F1 & HI1 & [A1 A2 A3 A4]);
    [by rewrite E1|by rewrite E1, E3|by rewrite E1|done|apply P|].
  assert (pte_at (k_mem s1) r TRAPFRAME ≠ 0) as Hf1.
  { rewrite A4 by (done || by rewrite E2, E3). unfold unmap_range. rewrite Z.eqb_refl, E1, E2. apply P. }
  destruct (unmap_bare own D M l s1 r TRAPFRAME e HI1 Hr) as (s2 & F2 & HI2 & [B1 B2 B3 B4]);
    [by rewrite E2|by rewrite E2, E3|by rewrite E2|done|done|].
  assert (user_space D M s2 r sz) as Hu.
  { destruct P as [P1 P2 P3 P4 P6 P7 P8]. split; try done; [rewrite E2 in P2; lia|].
    intros va Hva Hn. rewrite B4, A4 by done. unfold unmap_range. rewrite Z.eqb_refl. cbn [andb].
    destruct (Z.leb_spec 0 (va / 4096 - TRAPFRAME / 4096)), (Z.ltb_spec (va / 4096 - TRAPFRAME / 4096) 1),
      (Z.leb_spec 0 (va / 4096 - TRAMPOLINE / 4096)), (Z.ltb_spec (va / 4096 - TRAMPOLINE / 4096) 1); cbn [andb]; try done;
      apply P8; try done; lia. }
  destruct (uvmfree_frees own D M l s2 r sz e Hnn HI2 Hu) as (l3 & s3 & F3 & [C1 C2 C3 C4] & _).
  exists l3, s3. split; [unfold proc_freepagetable; by run F1; run F2|]. split; [done| | |].
  - eapply mem_only_trans; [apply (vi_ready HI)|exact A1|]. eapply mem_only_trans; [apply (vi_ready HI1)|exact B1|done].
  - intros r' va Hne Hva Hr'. rewrite C3, B4, A4 by done. unfold unmap_range.
    by destruct (Z.eqb_spec r' r).
  - intros x Hx. assert (∀ t, page t → refs s2 t = refs s t) as Hrf.
    { intros t Ht. by rewrite (vi_refs HI2 t Ht), (vi_refs HI t Ht). }
    assert (∀ t, page t → refs s1 t = refs s t) as Hrf1.
    { intros t Ht. by rewrite (vi_refs HI1 t Ht), (vi_refs HI t Ht). }
    assert (protected D s x) as Hps.
    { intros t Ht Hin. destruct (Hx t Ht Hin) as [H1 H2]. split; [|done]. rewrite <- Hrf by done.
      rewrite (vi_refs C1 t Ht) in H1. rewrite (vi_refs HI2 t Ht). rewrite (cnt_none D t) by done.
      rewrite (cnt_none (spare r D) t) in H1; [|intros k Hk; rewrite spare_lookup in Hk; case_decide; [done|by apply (H2 k)]].
      pose proof (cnt_spare r M t). lia. }
    rewrite C4, B3, A3; try done; intros t Ht Hin; destruct (Hps t Ht Hin); (split; [|done]); rewrite ?Hrf, ?Hrf1 by done; done.
Qed.

(** ** freeproc *)

(** What freeproc leaves in the slot. *)
Definition freed_proc (q : proc) : proc :=
  q <| p_trapframe := 0 |> <| p_pagetable := 0 |> <| p_sz := 0 |> <| p_pid := 0 |> <| p_parent := None |>
    <| p_name ::= insert 0%nat 0 |> <| p_chan := None |> <| p_killed := 0 |> <| p_xstate := 0 |> <| p_state := UNUSED |>
    <| p_static_priority := 0 |> <| p_niceness := 5 |> <| p_rtime := 0 |> <| p_stime := 0 |> <| p_sched_ct := 0 |> <| p_etime := 0 |>.

(** The process [q] owns a trapframe and an address space. *)
Record owns_memory own D M s (q : proc) : Prop := OwnsMemory {
  om_frame : page (p_trapframe q) ∧ 1 ≤ own (p_trapframe q);
  om_space : proc_space D M s (p_pagetable q) (p_sz q);
}.

(** The memory of the process [q] is given back; nothing else changes but the
    slot [p] of the table. *)
Record reaped own D M s p (q : proc) l' s' : Prop := Reaped {
  rp_inv : vm_inv (addown own (p_trapframe q) (-1)) (spare (p_pagetable q) D) (spare (p_pagetable q) M) l' s';
  rp_only : mem_only (s <| k_procs ::= alter freed_proc p |>) s';
  rp_pte : ∀ r' va, r' ≠ p_pagetable q → 0 ≤ va < MAXVA → D !! (r', []) = Some r' →
    pte_at (k_mem s') r' va = pte_at (k_mem s) r' va;
  rp_mem : ∀ x, protected D s' x → k_mem s' x = k_mem s x;
}.

Lemma mem_only_procs s s' f : mem_only s s' → mem_only (s <| k_procs ::= f |>) (s' <| k_procs ::= f |>).
Proof. intros [Hm Ho]. split; [done|]. unfold others in *. simplify_eq. unfold set; cbn. congruence. Qed.

Lemma refs_le own D M l s own' D' M' l' s' t : vm_inv own D M l s → vm_inv own' D' M' l' s' → page t →
  own' t ≤ own t → cnt D' t ≤ cnt D t → cnt M' t ≤ cnt M t → refs s' t ≤ refs s t.
Proof. intros HI HI' Ht H1 H2 H3. rewrite (vi_refs HI t Ht), (vi_refs HI' t Ht). lia. Qed.

Lemma procs_upd3 s p g g1 g2 g3 : (λ q, g3 (g2 (g1 q))) = g →
  s <| k_procs ::= alter g p |> = s <| k_procs ::= alter g1 p |> <| k_procs ::= alter g2 p |> <| k_procs ::= alter g3 p |>.
Proof. intros <-. unfold set; cbn. by rewrite !alter_alter. Qed.

Lemma freeproc_run own D M l s p q e : nonneg own → vm_inv own D M l s → k_procs s !! p = Some q → owns_memory own D M s q →
  ∃ l' s', freeproc p e s = Ret () e s' ∧ reaped own D M s p q l' s'.
Proof.
  intros Hnn HI Hq [[Htf Ho] P]. set (tf := p_trapframe q) in *. set (r := p_pagetable q) in *.
  pose proof (page_bounds tf Htf) as Hb. rewrite KERNBASE_val in Hb.
  pose proof (table_page HI _ _ (ps_root _ _ _ _ _ P)) as Hrp. pose proof (page_bounds r Hrp) as Hrb. rewrite KERNBASE_val in Hrb.
  destruct (kfree_own own D M l s tf e HI Htf Ho) as (l1 & s1 & E1 & HI1 & Hmo1 & _ & Hrf1 & Hmem1 & Hpte1).
  assert (nonneg (addown own tf (-1))) as Hnn1.
  { intros t. specialize (Hnn t). unfold addown. case_decide; subst; lia. }
  assert (k_procs s1 = k_procs s) as Ep1 by (destruct Hmo1 as [_ Ho1]; unfold others in Ho1; congruence).
  set (s1' := s1 <| k_procs ::= alter (λ q, q <| p_trapframe := 0 |>) p |>).
  assert (vm_inv (addown own tf (-1)) D M l1 s1') as HI1' by (by apply (vm_inv_ext _ _ _ _ s1); [..|apply (vi_ready HI1)|]).
  assert (proc_space D M s1' r (p_sz q)) as P1.
  { destruct P as [P1 P2 P3 P4 P6 P7 P8]. destruct frame_vals as (F1 & F2 & F3).
    split; try done; change (k_mem s1') with (k_mem s1).
    - rewrite Hpte1 by (done || by rewrite F1). done.
    - rewrite Hpte1 by (done || by rewrite F2). done.
    - intros va Hva A B C. rewrite Hpte1 by (done || lia). by apply P8. }
  destruct (proc_freepagetable_run _ D M l1 s1' r (p_sz q) e Hnn1 HI1' P1) as (l2 & s2 & E2 & [F1 F2 F3 F4]).
  assert (k_procs s1' !! p = Some (q <| p_trapframe := 0 |>)) as Hq1.
  { unfold s1', set; cbn. by rewrite Ep1, list_lookup_alter_eq, Hq. }
  assert (k_procs s2 = k_procs s1') as Ep2 by (destruct F2 as [_ Ho2]; unfold others in Ho2; congruence).
  assert (p < length (k_procs s))%nat as Hlt by (by eapply lookup_lt_Some).
  exists l2. eexists. split.
  - unfold freeproc. erewrite bind_Ret by (by apply pget_run). fold tf. unfold ctrue.
    destruct (Z.eqb_spec tf 0); [lia|]. cbn [negb when]. run E1.
    erewrite bind_Ret by (apply pset_run; by rewrite Ep1). fold s1'.
    do 2 (erewrite bind_Ret by (by apply pget_run)). cbn [p_pagetable p_sz set]. 
    change (p_pagetable (q <| p_trapframe := 0 |>)) with r. change (p_sz (q <| p_trapframe := 0 |>)) with (p_sz q).
    destruct (Z.eqb_spec r 0); [lia|]. cbn [negb when]. run E2.
    assert (p < length (k_procs s2))%nat as Hlt2 by (rewrite Ep2; unfold s1'; rewrite k_procs_alter_len, Ep1; done).
    erewrite bind_Ret by (by apply pset_run). by rewrite pset_run by (by rewrite k_procs_alter_len).
  - assert (mem_only (s <| k_procs ::= alter (λ q, q <| p_trapframe := 0 |>) p |>) s2) as Hmo.
    { eapply mem_only_trans; [apply (vi_ready HI)|by apply mem_only_procs|exact F2]. }
    split.
    + apply (vm_inv_ext _ _ _ _ s2); [done..|apply (vi_ready F1)|done].
    + rewrite (procs_upd3 s p freed_proc (λ q, q <| p_trapframe := 0 |>)
        (λ q, q <| p_pagetable := 0 |> <| p_sz := 0 |> <| p_pid := 0 |> <| p_parent := None |>
                <| p_name ::= insert 0%nat 0 |> <| p_chan := None |> <| p_killed := 0 |> <| p_xstate := 0 |> <| p_state := UNUSED |>)
        (λ q, q <| p_static_priority := 0 |> <| p_niceness := 5 |> <| p_rtime := 0 |> <| p_stime := 0 |>
                <| p_sched_ct := 0 |> <| p_etime := 0 |>) eq_refl).
      by apply mem_only_procs, mem_only_procs.
    + intros r' va Hne Hva Hr'. etransitivity; [by apply F3|]. apply Hpte1; [lia|done].
    + intros x Hx. change (protected D s2 x) in Hx. etransitivity; [by apply F4|]. apply Hmem1.
      destruct (decide (refs s tf = 1)) as [Hone|]; [right|by left].
      destruct (Z.le_gt_cases tf x), (Z.lt_ge_cases x (tf + PGSIZE)); try lia.
      destruct (Hx tf Htf ltac:(lia)) as [Hge _].
      pose proof (refs_le _ _ _ _ _ _ _ _ _ _ tf HI1' F1 Htf ltac:(lia) (cnt_spare r D tf) (cnt_spare r M tf)) as Hle.
      change (refs s1' tf) with (refs s1 tf) in Hle. rewrite Hrf1, decide_True in Hle by done.
      change (1 ≤ refs s2 tf) in Hge. lia.
Qed.
End Space.

(** ** wait *)

(** Process [p] calls wait: it runs on this hart and holds no lock. *)
Record calls_wait (p : nat) (s : kstate) : Prop := CallsWait {
  cw_ready : proc_ready s;
  cw_proc : c_proc (cpu_of (k_mach s)) = Some p;
  cw_noff : c_noff (cpu_of (k_mach s)) = 0;
  cw_wait : lock_free LWait (k_mach s);
  cw_kmem : lock_free LKmem (k_mach s);
  cw_lt : (p < NPROC)%nat;
}.

(** Inside, the hart holds [wait_lock] and nothing else. *)
Record in_wait (p : nat) (s : kstate) : Prop := InWait {
  iw_ready : proc_ready s;
  iw_proc : c_proc (cpu_of (k_mach s)) = Some p;
  iw_noff : c_noff (cpu_of (k_mach s)) = 1;
  iw_held : m_locks (k_mach s) !! LWait = Some (m_tp (k_mach s));
  iw_kmem : lock_free LKmem (k_mach s);
  iw_lt : (p < NPROC)%nat;
}.

Definition kid (p : nat) (q : proc) : bool := bool_decide (p_parent q = Some p).
Definition dead_kid (p : nat) (q : proc) : Prop := p_parent q = Some p ∧ p_state q = ZOMBIE.

(** The state in which the table is searched. *)
Definition with_lock (l : lockid) (s : kstate) : kstate := s <| k_mach ::= λ m, mlock l (settle m) |>.

Section Wait.
Context `{!Image} `{!ImageOK}.
Implicit Types (own : Z → Z) (D M : gmap node Z) (l : list Z) (s t : kstate) (e : env).

Lemma wait_enter p e s : calls_wait p s →
  (∀ {A} (k : nat → K A), (p ← myproc; p ← deref p; acquire LWait;; k p) e s = k p e (with_lock LWait s)) ∧
  in_wait p (with_lock LWait s).
Proof.
  intros [[R1 R2 R3] Hp Hn Hf Hk Hlt]. pose proof (wf_settle _ R1) as Hw. split.
  - intros A k. run (myproc_run e s R1). rewrite Hp. cbn [deref]. krun.
    erewrite bind_Ret; [done|]. rewrite acquire_free; [done|exact Hw|by apply settle_free].
  - assert (c_noff (cpu_of (mlock LWait (settle (k_mach s)))) = 1 ∧
      c_proc (cpu_of (mlock LWait (settle (k_mach s)))) = Some p) as [E1 E2].
    { rewrite (mlock_noff LWait _ Hw), (mlock_proc LWait _ Hw), settle_noff, settle_proc, Hn by done. done. }
    split; [|exact E2|exact E1| | |done].
    + split; [by apply wf_mlock| |done]. intros i Hi. apply mlock_free; [done|]. by apply settle_free, R2.
    + change (m_locks (mlock LWait (settle (k_mach s))) !! LWait = Some (m_tp (mlock LWait (settle (k_mach s))))).
      by rewrite mlock_locks, mlock_tp, lookup_insert_eq.
    + apply mlock_free; [done|]. by apply settle_free.
Qed.

(** A critical section on a process that changes nothing. *)
Lemma crit_nop p i q e t : in_wait p t → (i < NPROC)%nat → k_procs t !! i = Some q →
  release (LProc i) e (crit i (λ q, q) t) = Ret () e t.
Proof.
  intros [Hr _ Hn _ _ _] Hi Hq. rewrite (release_crit i _ (λ q, q) q) by done.
  unfold set at 2. rewrite settle_nested by lia. f_equal. rewrite set_procs_id by (by apply (alter_noop _ _ _ q)). by destruct t.
Qed.

(** The search passes over processes that are not dead children. *)
Lemma scan_skip p addr (l1 l2 : list nat) e t : in_wait p t →
  (∀ i q, i ∈ l1 → k_procs t !! i = Some q → ¬ dead_kid p q) → (∀ i, i ∈ l1 → (i < NPROC)%nat) → ∀ hk,
  wait_scan p addr (λ _, mret ()) (l1 ++ l2) hk e t =
  wait_scan p addr (λ _, mret ()) l2 (hk || existsb (λ i, from_option (kid p) false (k_procs t !! i)) l1) e t.
Proof.
  intros I. induction l1 as [|i l1 IH]; intros Hd Hlt hk; [by rewrite orb_false_r|].
  destruct (proc_lookup t i (iw_ready _ _ I) (Hlt i ltac:(by left))) as [q Hq]. cbn [app wait_scan existsb].
  rewrite Hq. cbn [from_option]. erewrite bind_Ret by (by apply pget_run).
  assert (∀ hk, wait_scan p addr (λ _, mret ()) (l1 ++ l2) hk e t =
    wait_scan p addr (λ _, mret ()) l2 (hk || existsb (λ i, from_option (kid p) false (k_procs t !! i)) l1) e t) as IH'.
  { intros hk'. apply IH; intros; [eapply Hd|apply Hlt]; (try by right); done. }
  fold (kid p q). destruct (kid p q) eqn:Ek.
  - unfold kid in Ek. breflect. run (acquire_crit i e t (iw_ready _ _ I) (Hlt i ltac:(by left))).
    erewrite bind_Ret by (by apply (pget_crit i _ _ q)).
    rewrite bool_decide_false by (intros Ez; apply (Hd i q); [by left|done|by split]).
    run (crit_nop p i q e t I (Hlt i ltac:(by left)) Hq). rewrite IH'. by rewrite orb_true_l, !orb_true_r.
  - rewrite IH'. by rewrite orb_false_l.
Qed.

Lemma in_wait_killed p q e t : in_wait p t → k_procs t !! p = Some q → killed p e t = Ret (p_killed q) e t.
Proof.
  intros I Hq. pose proof (iw_ready _ _ I) as Hr. pose proof (iw_lt _ _ I) as Hlt.
  unfold killed. run (acquire_crit p e t Hr Hlt). erewrite bind_Ret by (by apply (pget_crit p _ _ q)).
  run (crit_nop p p q e t I Hlt Hq). by krun.
Qed.

(** Copying the exit status out leaves the dead process as it was. *)
Lemma owns_memory_wrote own D M l s r w M' l' s' q : wrote own D M l s r w M' l' s' →
  owns_memory own D M s q → owns_memory own D M' s' q.
Proof.
  intros [W1 W2 W3 W4 W5 W6] [Hf P]. pose proof (frames_unowned _ _ _ _ _ TRAMPOLINE P (or_introl eq_refl)) as M1.
  pose proof (frames_unowned _ _ _ _ _ TRAPFRAME P (or_intror eq_refl)) as M2. destruct frame_vals as (F1 & F2 & F3).
  assert (∀ k, M' !! k = None ↔ M !! k = None) as HN by (intros k; rewrite !eq_None_not_Some; by rewrite (W3 k)).
  destruct P as [P1 P2 P3 P4 P6 P7 P8]. split; [done|]. split; try done.
  - intros i Hi. by apply W3, P3.
  - intros k Hk Hs. by apply P4, W3.
  - rewrite W6 by (done || by rewrite F1, F3). done.
  - rewrite W6 by (done || by rewrite F2, F3). done.
  - intros va Hva A B HM. apply HN in HM. rewrite W6 by done. by apply P8.
Qed.

(** The bytes the other processes see are not touched by freeing one. *)
Lemma reaped_sees own D M l s p q l' s' r va :
  vm_inv own D M l s → reaped own D M s p q l' s' → D !! (r, []) = Some r → r ≠ p_pagetable q →
  0 ≤ va < MAXVA → is_Some (M !! leaf r va) → uread (k_mem s') r va = uread (k_mem s) r va.
Proof.
  intros HI [R1 R2 R3 R4] Hr Hne Hva [pa HM].
  assert (spare (p_pagetable q) M !! leaf r va = Some pa) as HM' by (rewrite spare_lookup; by rewrite decide_False).
  assert (spare (p_pagetable q) D !! (r, []) = Some r) as Hr' by (by rewrite spare_other).
  destruct (leaf_owned _ _ _ _ _ r va pa R1 Hr' ltac:(lia) HM') as (_ & _ & _ & Hpa & Href & _).
  destruct (leaf_owned _ _ _ _ _ r va pa HI Hr ltac:(lia) HM) as (_ & _ & _ & _ & _ & Hnt).
  rewrite (uread_owned _ _ _ _ _ r va pa HI Hr ltac:(lia) HM), (uread_owned _ _ _ _ _ r va pa R1 Hr' ltac:(lia) HM').
  apply R4. intros t Ht Hin. pose proof (off_range va). destruct (decide (t = pa)) as [->|Hd]; [done|].
  pose proof (page_disjoint t pa Ht Hpa Hd). lia.
Qed.

Lemma wrote_refl own D M l s r : vm_inv own D M l s → wrote own D M l s r (λ _, None) M l s.
Proof. intros HI. split; [done|apply mem_only_refl|done|done| |done]. intros r' va _ _ _. by destruct (r' =? r). Qed.

(** The exit status for the caller of wait, if it wants it. *)
Definition status_at (addr : Z) (q : proc) : Z → option Z :=
  if addr =? 0 then λ _, None else wr addr (le_bytes 4 (p_xstate q)).

Definition takes_status M l s (r addr : Z) : Prop :=
  addr = 0 ∨ (0 < addr ∧ addr + 4 ≤ MAXVA ∧ (∀ x, addr ≤ x < addr + 4 → writable M s r x) ∧
              pages_of addr 4 ≤ Z.of_nat (length l)).

Lemma status_run own D M l s r addr q e : nonneg own → vm_inv own D M l s → D !! (r, []) = Some r → takes_status M l s r addr →
  ∃ M' l' s', (if negb (addr =? 0) then copyout r addr (le_bytes 4 (p_xstate q)) else mret 0) e s = Ret 0 e s' ∧
    wrote own D M l s r (status_at addr q) M' l' s'.
Proof.
  intros Hnn HI Hr Ht. unfold status_at. destruct (Z.eqb_spec addr 0) as [Hz|Hz]; cbn [negb].
  { exists M, l, s. split; [done|by apply wrote_refl]. }
  destruct Ht as [?|(Hpos & Hmax & Hw & Hpg)]; [done|].
  assert (length (le_bytes 4 (p_xstate q)) = 4%nat) as Hlen by done.
  destruct (copyout_loop own D r e 4 M l s addr (le_bytes 4 (p_xstate q))) as (c & M' & l' & s' & Hruns & Hc & Hw'); try done;
    rewrite ?Hlen; try done; try lia.
  exists M', l', s'. split; [|done]. unfold copyout. eapply while_runs; [exact Hruns|]. rewrite Hlen in Hc. lia.
Qed.

Lemma mem_only_nested s s' : mem_only s s' → 0 < c_noff (cpu_of (k_mach s)) → k_mach s' = k_mach s.
Proof. intros [[Hm|Hm] _] Hn; [done|]. by rewrite Hm, settle_nested. Qed.

Lemma owns_memory_ext own D M s s' q : k_mem s' = k_mem s → owns_memory own D M s q → owns_memory own D M s' q.
Proof. intros Em [Hf []]. split; [done|]. split; try done; by rewrite Em. Qed.

(** Reaping the dead child found at [pp]: everything from the lock of the child
    to the release of [wait_lock]. *)
Lemma reap_run own D M l p pp q qp addr rest hk e t m :
  in_wait p t → k_mach t = mlock LWait m → wf_mach m → lock_free LWait m →
  nonneg own → vm_inv own D M l t → (pp < NPROC)%nat →
  k_procs t !! p = Some qp → k_procs t !! pp = Some q → dead_kid p q → p ≠ pp →
  owns_memory own D M t q → D !! (p_pagetable qp, []) = Some (p_pagetable qp) →
  takes_status M l t (p_pagetable qp) addr →
  ∃ M' l' w, wait_scan p addr (λ _, mret ()) (pp :: rest) hk e t
      = Ret (Some (p_pid q, ()), true) e (w <| k_mach := settle m |>) ∧
    vm_inv (addown own (p_trapframe q) (-1)) (spare (p_pagetable q) D) (spare (p_pagetable q) M') l' w ∧
    same_keys M M' ∧ others w = others (t <| k_procs ::= alter freed_proc pp |>) ∧
    ∀ r va, D !! (r, []) = Some r → r ≠ p_pagetable q → 0 ≤ va < MAXVA → is_Some (M !! leaf r va) →
      uread (k_mem w) r va = default (uread (k_mem t) r va) (if r =? p_pagetable qp then status_at addr q va else None).
Proof.
  intros I Hm Hwm Hfm Hnn HI Hpp Hqp Hq [Hpar Hst] Hne HO Hr Ht. pose proof (iw_ready _ _ I) as Hrdy.
  set (u := t <| k_mach ::= mlock (LProc pp) |>).
  assert (crit pp (λ q, q) t = u) as Eu.
  { unfold crit, u, set; cbn. f_equal. by apply (alter_noop _ _ _ q). }
  assert (wf_mach (k_mach u)) as Hwu by (apply wf_mlock, Hrdy).
  assert (c_noff (cpu_of (k_mach u)) = 2) as Hnu.
  { change (c_noff (cpu_of (mlock (LProc pp) (k_mach t))) = 2). rewrite mlock_noff by apply Hrdy. rewrite (iw_noff _ _ I). done. }
  assert (vm_inv own D M l u) as HIu.
  { apply (vm_inv_ext _ _ _ _ t); [done..| |done]. split; [done|]. apply mlock_free; [done|apply I]. }
  destruct (status_run own D M l u (p_pagetable qp) addr q e Hnn HIu Hr Ht) as (M' & l' & v0 & Ec & Hw0).
  assert (k_mach v0 = k_mach u) as Emv by (apply mem_only_nested; [apply Hw0|lia]).
  pose proof (owns_memory_wrote _ _ _ _ _ _ _ _ _ _ q Hw0 (owns_memory_ext _ _ _ t u q eq_refl HO)) as HO'.
  assert (k_procs v0 = k_procs t) as Epv.
  { destruct (wt_only _ _ _ _ _ _ _ _ _ _ Hw0) as [_ Ho]. unfold others in Ho. change (k_procs u) with (k_procs t) in Ho. congruence. }
  destruct (freeproc_run own D M' l' v0 pp q e Hnn (wt_inv _ _ _ _ _ _ _ _ _ _ Hw0)) as (l'' & w & Ef & Hrp); [by rewrite Epv|done|].
  assert (k_mach w = k_mach u) as Emw.
  { rewrite <- Emv. transitivity (k_mach (v0 <| k_procs ::= alter freed_proc pp |>)); [|done].
    apply mem_only_nested; [apply Hrp|]. change (0 < c_noff (cpu_of (k_mach v0))). rewrite Emv. lia. }
  exists M', l'', w. split_and!; [|apply Hrp|apply Hw0| |].
  2: { destruct Hrp as [_ [_ Ho] _ _]. destruct Hw0 as [_ [_ Ho0] _ _ _ _]. unfold others, u, set in *.
       cbn [k_procs k_initproc k_nextpid k_lfsr k_bit k_ticks k_queues k_first k_kernel_pagetable k_out k_fs k_cons k_irq] in *.
       rewrite Epv in Ho. congruence. }
  2: { intros r va Hr' Hne' Hva Hs. destruct Hw0 as [W1 _ W3 _ W5 _].
       rewrite (reaped_sees _ D M' _ v0 pp q l'' w r va W1 Hrp Hr' Hne' Hva) by (by apply W3). by rewrite W5. }
  cbn [wait_scan]. erewrite bind_Ret by (by apply pget_run). rewrite bool_decide_true by done.
  run (acquire_crit pp e t Hrdy Hpp). rewrite Eu.
  erewrite bind_Ret by (by apply (pget_run pp _ q)). rewrite bool_decide_true by done.
  do 1 (erewrite bind_Ret by (by apply (pget_run pp _ q))). krun. erewrite bind_Ret by (by apply (pget_run pp _ q)).
  erewrite bind_Ret by (by apply (pget_run p _ qp)). run Ec. cbn [Z.ltb Z.compare]. run Ef.
  erewrite bind_Ret; [|apply (release_after _ _ _ (k_mach t)); [by rewrite Emw|apply Hrdy|by apply Hrdy]].
  erewrite bind_Ret; [|apply (release_after _ _ _ m); [|done|done]].
  2: { change (settle (k_mach t) = mlock LWait m). rewrite settle_nested by (rewrite (iw_noff _ _ I); lia). done. }
  done.
Qed.

Lemma procs_split pp : (pp < NPROC)%nat → procs = seq 0 pp ++ pp :: seq (S pp) (NPROC - S pp).
Proof.
  intros Hpp. unfold procs. replace NPROC with (pp + S (NPROC - S pp))%nat at 1 by lia. by rewrite seq_app.
Qed.

Lemma vm_inv_locked own D M l p s : calls_wait p s → vm_inv own D M l s → vm_inv own D M l (with_lock LWait s).
Proof.
  intros C HI. apply (vm_inv_ext _ _ _ _ s); [done..| |done]. destruct (wait_enter p [] s C) as [_ I]. split; apply I.
Qed.

(** C14: wait called by a process with a dead child: the first dead child in the
    table is reaped.  wait returns its pid, stores its exit status at the given
    address and frees its slot; every page that only the child used, its
    trapframe and its page tables included, is on the free list.  The other
    address spaces read as before, but for the stored status, and all locks are
    as they were. *)
Theorem wait_reaps own D M l p pp q qp addr e s :
  calls_wait p s → nonneg own → vm_inv own D M l s → (pp < NPROC)%nat →
  k_procs s !! p = Some qp → k_procs s !! pp = Some q → dead_kid p q → p ≠ pp →
  (∀ j qj, (j < pp)%nat → k_procs s !! j = Some qj → ¬ dead_kid p qj) →
  owns_memory own D M s q → D !! (p_pagetable qp, []) = Some (p_pagetable qp) →
  takes_status M l s (p_pagetable qp) addr →
  ∃ M' l' s', wait addr e s = Ret (p_pid q) e s' ∧ calls_wait p s' ∧
    others s' = others (s <| k_procs ::= alter freed_proc pp |>) ∧
    vm_inv (addown own (p_trapframe q) (-1)) (spare (p_pagetable q) D) (spare (p_pagetable q) M') l' s' ∧
    same_keys M M' ∧
    (∀ pa : Z, page pa → pa ∈ l' ↔ own pa - (if decide (pa = p_trapframe q) then 1 else 0) = 0 ∧
       (∀ k, k.1 ≠ p_pagetable q → D !! k ≠ Some pa) ∧ (∀ k, k.1 ≠ p_pagetable q → M' !! k ≠ Some pa)) ∧
    ∀ r va, D !! (r, []) = Some r → r ≠ p_pagetable q → 0 ≤ va < MAXVA → is_Some (M !! leaf r va) →
      uread (k_mem s') r va = default (uread (k_mem s) r va) (if r =? p_pagetable qp then status_at addr q va else None).
Proof.
  intros C Hnn HI Hpp Hqp Hq Hdk Hne Hfirst HO Hr Ht. destruct (wait_enter p e s C) as [Henter I].
  pose proof (cw_ready _ _ C) as [R1 R2 R3]. pose proof (wf_settle _ R1) as Hw.
  destruct (reap_run own D M l p pp q qp addr (seq (S pp) (NPROC - S pp))
    (false || existsb (λ i, from_option (kid p) false (k_procs (with_lock LWait s) !! i)) (seq 0 pp)) e (with_lock LWait s)
    (settle (k_mach s)) I eq_refl Hw) as (M' & l' & w & Es & HI' & Hk & Ho & Hu); try done.
  { by apply settle_free, (cw_wait _ _ C). }
  { by apply (vm_inv_locked _ _ _ _ p). }
  { by apply (owns_memory_ext _ _ _ s). }
  rewrite (settle_settle _ R1) in Es. set (s' := w <| k_mach := settle (k_mach s) |>) in *.
  assert (vm_inv (addown own (p_trapframe q) (-1)) (spare (p_pagetable q) D) (spare (p_pagetable q) M') l' s') as HI2.
  { apply (vm_inv_ext _ _ _ _ w); [done..| |done]. split; [done|]. apply settle_free, C. }
  assert (length (k_procs w) = NPROC) as Hlw.
  { unfold others in Ho. assert (k_procs w = alter freed_proc pp (k_procs s)) as -> by (unfold with_lock, set in Ho; cbn in Ho; congruence).
    by rewrite length_alter. }
  exists M', l', s'. split_and!; [| |done|done|done| |done].
  - unfold wait. rewrite Henter. eapply while_runs; [apply runs_done|lia]. cbv beta. rewrite (procs_split pp Hpp).
    erewrite bind_Ret; [|rewrite (scan_skip p addr (seq 0 pp)); [exact Es|done| |]].
    + done.
    + intros j qj Hj%elem_of_seq Hqj. apply (Hfirst j qj); [lia|done].
    + intros j Hj%elem_of_seq. lia.
  - destruct C as [_ C2 C3 C4 C5 C6].
    split; change (k_mach s') with (settle (k_mach s)); [|by rewrite settle_proc|by rewrite settle_noff| | |done].
    + split; [done| |done]. intros i Hi. by apply settle_free, R2.
    + by apply settle_free.
    + by apply settle_free.
  - intros t Htp. rewrite (spare_free (addown own (p_trapframe q) (-1)) D M' l' s' (p_pagetable q) t) by (done || (intros x; unfold addown; case_decide; [subst; destruct HO as [[_ ?] _]; lia|specialize (Hnn x); lia])).
    unfold addown. case_decide; (split; intros (A1 & A2 & A3); (split_and!; [lia|done|done])).
Qed.

(** wait with children, none of them dead, goes to sleep on its own channel
    holding its own lock only; killed or without children it returns -1. *)
Theorem wait_waits p qp addr e s :
  calls_wait p s → k_procs s !! p = Some qp → (∀ j qj, k_procs s !! j = Some qj → ¬ dead_kid p qj) →
  if existsb (λ i, from_option (kid p) false (k_procs s !! i)) procs && (p_killed qp =? 0)
  then wait addr [] s = Blocked (asleep p (ChProc p) LWait (with_lock LWait s))
  else ∃ s', wait addr e s = Ret (-1) e s' ∧ s' = s <| k_mach ::= settle |>.
Proof.
  intros C Hqp Hn. assert (∀ e, (wait_scan p addr (λ _, mret ()) procs false) e (with_lock LWait s) =
    Ret (None, existsb (λ i, from_option (kid p) false (k_procs s !! i)) procs) e (with_lock LWait s)) as Hscan.
  { intros e'. destruct (wait_enter p e' s C) as [_ I]. rewrite <- (app_nil_r procs) at 1.
    rewrite (scan_skip p addr procs []); [done|done| |].
    - intros j qj _ Hqj. by apply (Hn j).
    - intros j Hj%elem_of_seq. lia. }
  pose proof (cw_ready _ _ C) as [R1 R2 R3]. pose proof (wf_settle _ R1) as Hw.
  assert (∀ e, release LWait e (with_lock LWait s) = Ret () e (s <| k_mach ::= settle |>)) as Hrel.
  { intros e'. rewrite (release_after _ _ _ (settle (k_mach s))); [|done|done|by apply settle_free, C].
    by rewrite settle_settle. }
  destruct (wait_enter p [] s C) as [Henter0 I]. destruct (wait_enter p e s C) as [Henter _].
  destruct (existsb _ procs) eqn:Ex; cbn [andb]; [destruct (Z.eqb_spec (p_killed qp) 0) as [Hk|Hk]|].
  - unfold wait. rewrite Henter0. apply while_blocked. rewrite (bind_Ret _ _ _ _ _ _ _ (Hscan [])).
    run (in_wait_killed p qp [] _ I Hqp). rewrite Hk. cbn [ctrue Z.eqb negb].
    assert (can_sleep p LWait (with_lock LWait s)) as Hcs.
    { destruct I as [I1 I2 I3 I4 I5 I6]. split; try done; [apply I1|by rewrite (pr_len _ I1)|by apply I1]. }
    unfold mbind at 1, KM_bind at 1. by rewrite (sleep_switch p _ _ _ _ Hcs).
  - eexists. split; [|done]. unfold wait. rewrite Henter. eapply while_runs; [apply runs_done|lia]. cbv beta.
    rewrite (bind_Ret _ _ _ _ _ _ _ (Hscan e)). run (in_wait_killed p qp e _ I Hqp). unfold ctrue.
    destruct (Z.eqb_spec (p_killed qp) 0); [done|]. cbn [negb]. by run (Hrel e).
  - eexists. split; [|done]. unfold wait. rewrite Henter. eapply while_runs; [apply runs_done|lia]. cbv beta.
    rewrite (bind_Ret _ _ _ _ _ _ _ (Hscan e)). krun. cbn [ctrue Z.eqb negb]. by run (Hrel e).
Qed.
End Wait.

(** ** Example: on the small machine, process 3 (root page 0) waits for process
    5 (root page 3), which is dead and has only its trapframe (page 8) left *)

Section Witness.
#[local] Existing Instance small_image.
#[local] Existing Instance small_image_ok.

Definition ex_z1 : kstate := st_table (ex_pg 5) (ex_pg 3) 255 ex_vm.
Definition ex_z2 : kstate := st_table (ex_pg 6) (ex_pg 5) 511 ex_z1.
Definition ex_z3 : kstate := st_pte (ex_pg 6) 511 (mkpte trampoline (Z.lor (Z.lor PTE_R PTE_X) PTE_V)) ex_z2.
Definition ex_z4 : kstate := st_pte (ex_pg 6) 510 (mkpte (ex_pg 8) (Z.lor (Z.lor PTE_R PTE_W) PTE_V)) ex_z3.
Definition ex_zD1 : gmap node Z := <[(ex_pg 3, [] ++ [255]) := ex_pg 5]> ex_D.
Definition ex_zD : gmap node Z := <[(ex_pg 3, [255] ++ [511]) := ex_pg 6]> ex_zD1.

Definition ex_dead : proc :=
  proc0 <| p_state := ZOMBIE |> <| p_pid := 7 |> <| p_xstate := 2 |> <| p_parent := Some 3%nat |>
    <| p_pagetable := ex_pg 3 |> <| p_trapframe := ex_pg 8 |>.
Definition ex_family : list proc :=
  <[5%nat := ex_dead]> (<[3%nat := proc0 <| p_pagetable := ex_pg 0 |>]> (replicate NPROC proc0)).
Definition ex_parent : kstate :=
  ex_z4 <| k_mach := k_mach (ex_procs (Some 3%nat) []) |> <| k_procs := ex_family |>.

Lemma ex_z2_inv : vm_inv ex_own ex_zD1 ex_M [ex_pg 6; ex_pg 7] ex_z1 ∧ vm_inv ex_own ex_zD ex_M [ex_pg 7] ex_z2.
Proof.
  assert (vm_inv ex_own ex_zD1 ex_M [ex_pg 6; ex_pg 7] ex_z1) as H1.
  { apply (vm_inv_table (r := ex_pg 3) (path := []) ex_vm_inv); [by vm_compute|simpl; lia|lia|by vm_compute|lia]. }
  split; [done|]. apply (vm_inv_table (r := ex_pg 3) (path := [255]) H1); [by vm_compute|simpl; lia|lia|by vm_compute|done].
Qed.

Lemma ex_leaf_step s k v pa : vm_inv ex_own ex_zD ex_M [ex_pg 7] s → 0 ≤ k < 512 → good_pte v pa → Z.land v PTE_U = 0 →
  vm_inv ex_own ex_zD ex_M [ex_pg 7] (st_pte (ex_pg 6) k v s).
Proof.
  intros HI Hk Hg Hu. eapply (vm_inv_leaf (r := ex_pg 3) (i := 255) (j := 511) HI); [by vm_compute|done|by apply (good_pte_u64 _ pa)|apply (vi_own HI)|done|done|].
  destruct (ex_M !! (ex_pg 3, [255; 511; k])) as [q|] eqn:E; [|right; by exists pa]. by apply ex_M_inv in E as [[= ?] _].
Qed.

Lemma ex_z4_inv : vm_inv ex_own ex_zD ex_M [ex_pg 7] ex_z4.
Proof.
  assert (∀ f, 0 ≤ f < 1024 → Z.land f PTE_V ≠ 0 → Z.land f PTE_R ≠ 0 →
    good_pte (mkpte trampoline f) trampoline ∧ good_pte (mkpte (ex_pg 8) f) (ex_pg 8)) as Hg.
  { intros f H1 H2 H3. split; exists f; (split; [done|]); (split; [by vm_compute|]); (split; [by vm_compute|done]). }
  apply (ex_leaf_step _ _ _ (ex_pg 8)); [|lia|by apply Hg|by vm_compute].
  apply (ex_leaf_step _ _ _ trampoline); [apply ex_z2_inv|lia|by apply Hg|by vm_compute].
Qed.

Lemma ex_zD_inv k p : ex_zD !! k = Some p →
  k = (ex_pg 3, [255; 511]) ∧ p = ex_pg 6 ∨ k = (ex_pg 3, [255]) ∧ p = ex_pg 5 ∨ ex_D !! k = Some p.
Proof.
  unfold ex_zD, ex_zD1. intros Hk. rewrite !lookup_insert_Some in Hk. destruct Hk as [[? ?]|[_ [[? ?]|[_ ?]]]]; subst; auto.
Qed.

Lemma ex_z4_leaf k : 0 ≤ k < 510 → ent (k_mem ex_z4) (ex_pg 6) k = 0.
Proof.
  intros Hk. unfold ex_z4, ex_z3. rewrite !ent_st_pte by (by apply ex_page || lia || by vm_compute).
  rewrite !decide_False by lia. destruct ex_z2_inv as [H1 _].
  apply (nt_ent_new (r := ex_pg 3) (path := [255]) (i := 511) H1); [by vm_compute|simpl; lia|lia|lia].
Qed.

Lemma ex_dead_space : proc_space ex_zD ex_M ex_z4 (ex_pg 3) 0.
Proof.
  split; [by vm_compute|by vm_compute|intros i Hi; change (Z.to_nat _) with 0%nat in Hi; lia| |by vm_compute|by vm_compute|].
  - intros k Hk [p Hp]. by apply ex_M_inv in Hp as [-> _].
  - intros va Hva N1 N2 _. rewrite (pte_at_D ex_z4_inv) by (lia || by vm_compute).
    destruct (ex_zD !! (ex_pg 3, [PX 2 va; PX 1 va])) as [p|] eqn:Hp; [|done].
    pose proof (va_split va Hva) as Es. pose proof (PX_range 0 va ltac:(lia)) as Hr.
    apply ex_zD_inv in Hp as [[[= E2 E1] ->]|[[[=] _]|Hp]]; [|by apply ex_D_inv in Hp as [[[=] _]|[[[=] _]|[[[= ?] _]|[[=] _]]]]].
    rewrite E2, E1 in Es. apply ex_z4_leaf. destruct frame_vals as (F1 & F2 & _). rewrite F1, F2 in *.
    change (2 ^ 30) with 1073741824 in Es. change (2 ^ 21) with 2097152 in Es. change (2 ^ 12) with 4096 in Es.
    pose proof (Z.mod_pos_bound va 4096 ltac:(lia)).
    assert (PX 0 va ≠ 511) by (intros E0; rewrite E0 in Es; apply N1; zlia).
    assert (PX 0 va ≠ 510) by (intros E0; rewrite E0 in Es; apply N2; zlia). lia.
Qed.

Lemma vm_inv_run own D M l s m ps : vm_inv own D M l s → wf_mach m → lock_free LKmem m →
  vm_inv own D M l (s <| k_mach := m |> <| k_procs := ps |>).
Proof. intros HI Hw Hf. by apply (vm_inv_ext _ _ _ _ s); [..|split|]. Qed.

Lemma owns_memory_run own D M s m ps q : owns_memory own D M s q → owns_memory own D M (s <| k_mach := m |> <| k_procs := ps |>) q.
Proof. by apply owns_memory_ext. Qed.

Lemma writable_run M s m ps r x : writable M s r x → writable M (s <| k_mach := m |> <| k_procs := ps |>) r x.
Proof. done. Qed.

Lemma ex_z4_writable x : 0 ≤ x < 4096 → writable ex_M ex_z4 (ex_pg 0) x.
Proof.
  intros Hx. pose proof (ex_leaf x Hx) as El. exists (ex_pg 4). rewrite El, (pte_at_page _ _ _ _ El).
  split_and!; [by vm_compute|by vm_compute|right; by vm_compute].
Qed.

Lemma wait_reaps_witness :
  ∃ M' l' s', wait 10 [] ex_parent = Ret 7 [] s' ∧ calls_wait 3 s' ∧
    others s' = others (ex_parent <| k_procs ::= alter freed_proc 5%nat |>) ∧
    vm_inv (addown ex_own (p_trapframe ex_dead) (-1)) (spare (p_pagetable ex_dead) ex_zD) (spare (p_pagetable ex_dead) M') l' s' ∧
    same_keys ex_M M' ∧
    (∀ pa : Z, page pa → pa ∈ l' ↔ ex_own pa - (if decide (pa = p_trapframe ex_dead) then 1 else 0) = 0 ∧
       (∀ k, k.1 ≠ p_pagetable ex_dead → ex_zD !! k ≠ Some pa) ∧ (∀ k, k.1 ≠ p_pagetable ex_dead → M' !! k ≠ Some pa)) ∧
    ∀ r va, ex_zD !! (r, []) = Some r → r ≠ p_pagetable ex_dead → 0 ≤ va < MAXVA → is_Some (ex_M !! leaf r va) →
      uread (k_mem s') r va = default (uread (k_mem ex_parent) r va) (if r =? ex_pg 0 then status_at 10 ex_dead va else None).
Proof.
  destruct (ex_procs_ready (Some 3%nat) (replicate NPROC proc0) eq_refl) as [R1 R2 _].
  refine (wait_reaps ex_own ex_zD ex_M [ex_pg 7] 3 5 ex_dead (proc0 <| p_pagetable := ex_pg 0 |>) 10 [] ex_parent
    _ _ _ _ _ _ _ _ _ _ _ _).
  - split; [by split|done|done|done|done|by vm_compute; lia].
  - exact ex_nonneg.
  - apply (vm_inv_run ex_own ex_zD ex_M [ex_pg 7] ex_z4); [exact ex_z4_inv|exact R1|reflexivity].
  - by vm_compute; lia.
  - done.
  - done.
  - done.
  - done.
  - intros j qj Hj. do 5 (destruct j as [|j]; [intros [= <-] [[=] _]|]). lia.
  - apply (owns_memory_run ex_own ex_zD ex_M ex_z4). split; [split; [by apply (ex_page 8)|by vm_compute]|]. exact ex_dead_space.
  - by vm_compute.
  - right. split; [lia|]. split; [by vm_compute|]. split; [|by vm_compute]. intros x Hx.
    unfold ex_parent. cbn [p_pagetable set]. apply writable_run, ex_z4_writable. lia.
Defined.
End Witness.
