(* ===== verification/NewSpace.v ===== *)
(** * NewSpace: making an address space (uvmcreate of kernel/vm.c,
    proc_pagetable of kernel/proc.c)

    A new page table is a new root in the invariant of all memory.
    proc_pagetable maps the trampoline and the trapframe in it, or gives
    everything back when memory runs out. *)

From S2P Require Import Prelude Params CString State Spinlock PhysMem Kalloc Vm VmInv VmMap VmLocal VmGrow VmCow VmCopy VmFree ProcBase Sleeplock Virtio Bio Blocks Bytes Log Fs Console File Proc Reap.

Section Space.
Context `{!Image} `{!ImageOK}.
Implicit Types (own : Z → Z) (D M : gmap node Z) (l : list Z) (s : kstate) (e : env).

(** ** What making an address space keeps *)

(** The tables, the references and the bytes in use, and what every address
    space there was translates to. *)
Record keeps D s D' s' : Prop := Keeps {
  kp_sub : D ⊆ D';
  kp_new : ∀ k p, D' !! k = Some p → D !! k = Some p ∨ refs s p = 0;
  kp_refs : ∀ t, page t → 1 ≤ refs s t → 1 ≤ refs s' t;
  kp_mem : ∀ x, protected D s x → k_mem s' x = k_mem s x;
  kp_pte : ∀ r va, 0 ≤ va < MAXVA → D !! (r, []) = Some r → pte_at (k_mem s') r va = pte_at (k_mem s) r va;
}.

Lemma keeps_protected D s D' s' x : keeps D s D' s' → protected D s x → protected D' s' x.
Proof.
  intros K Hx t Ht Hin. destruct (Hx t Ht Hin) as [H1 H2]. split; [by apply (kp_refs _ _ _ _ K)|].
  intros k Hk. apply (kp_new _ _ _ _ K) in Hk as [Hk|Hk]; [by apply (H2 k)|lia].
Qed.

Lemma keeps_trans own1 M1 l1 own3 M3 l3 D1 s1 D2 s2 D3 s3 :
  vm_inv own1 D1 M1 l1 s1 → vm_inv own3 D3 M3 l3 s3 → keeps D1 s1 D2 s2 → keeps D2 s2 D3 s3 → keeps D1 s1 D3 s3.
Proof.
  intros HI1 HI3 A B. pose proof A as [A1 A2 A3 A4 A5]. pose proof B as [B1 B2 B3 B4 B5]. split.
  - by transitivity D2.
  - intros k p Hk. destruct (B2 k p Hk) as [H2|H2]; [by apply A2|].
    pose proof (table_page HI3 k p Hk) as Hp. pose proof (ki_refs _ _ (vi_kmem HI1) p Hp).
    destruct (decide (refs s1 p = 0)); [by right|]. specialize (A3 p Hp ltac:(lia)). lia.
  - intros t Ht Hr. by apply B3, A3.
  - intros x Hx. rewrite B4; [by apply A4|by eapply keeps_protected].
  - intros r va Hva Hr. rewrite B5; [by apply A5|done|]. by eapply lookup_weaken.
Qed.

Lemma keeps_evolves own D M l s D' s' : vm_inv own D M l s → evolves (λ _ _ o, o) D s D' s' → keeps D s D' s'.
Proof. intros HI [E1 E2 E3 E4 E5 E6 E7]. split; try done. intros t Ht Hr. by rewrite E6. Qed.

(** ** A new root *)

(** A zeroed page held by hand becomes the root of an address space. *)
Section Root.
Context {own D M l s q} (HI : vm_inv own D M l s) (Hq : page q) (Ho : 1 ≤ own q) (Hone : refs s q = 1)
  (Hz : ∀ x, q ≤ x < q + PGSIZE → k_mem s x = 0).

Lemma root_apart k p : D !! k = Some p → k.1 ≠ q ∧ p ≠ q.
Proof.
  intros Hk. assert (∀ k, D !! k ≠ Some q) as Hnq.
  { intros k' Hk'. destruct (table_excl HI k' q Hk') as [E _]. lia. }
  split; [|intros ->; by apply (Hnq k)]. destruct k as [r path]. cbn. intros ->.
  destruct (prefix_of HI q [] path (mk_is_Some _ _ Hk)) as [t Ht].
  pose proof (po_root (vi_pt HI) q t Ht) as ->. by apply (Hnq (q, [])).
Qed.

Lemma root_none path : D !! (q, path) = None.
Proof. destruct (D !! (q, path)) as [p|] eqn:E; [|done]. by destruct (root_apart _ _ E). Qed.

Lemma root_unmapped k : k.1 = q → M !! k = None.
Proof.
  intros Hk. destruct (M !! k) as [pa|] eqn:E; [|done].
  destruct (po_dom (vi_pt HI) k pa E) as (r & i & j & x & -> & _ & [p Hp]). cbn in Hk. subst. by rewrite root_none in Hp.
Qed.

Lemma root_ent i : 0 ≤ i < 512 → ent (k_mem s) q i = 0.
Proof. intros Hi. apply le_load_zero. intros x Hx. apply Hz. unfold PGSIZE. lia. Qed.

Lemma root_new : vm_inv (addown own q (-1)) (<[(q, []) := q]> D) M l s.
Proof.
  pose proof HI as [V1 V2 V3 V4 V5 [P1 P2 P3 P4 P5 P6]]. split; try done.
  - intros t. pose proof (V3 t). unfold addown. case_decide; [subst; lia|lia].
  - intros t Ht. rewrite (V4 t Ht), cnt_insert by apply root_none. unfold addown. repeat case_decide; subst; lia || congruence.
  - intros k p [[<- <-]|[Hne Hk]]%lookup_insert_Some; [by split|by apply V5 in Hk].
  - assert (∀ r path i, <[(q, []) := q]> D !! (r, path ++ [i]) = D !! (r, path ++ [i])) as Hsub.
    { intros r path i. apply lookup_insert_ne. intros [= _ E]. by destruct path. }
    split.
    + intros r p [[[= <- ] <-]|[Hne Hk]]%lookup_insert_Some; [done|by apply P1].
    + intros r path i t Ht. rewrite Hsub in Ht. destruct (P2 r path i t Ht) as (A & B & [u Hu]). split_and!; [lia|lia|done|].
      rewrite lookup_insert_ne; [done|]. intros [= <- <-]. by rewrite root_none in Hu.
    + intros r path p i Ht Hl Hi. rewrite Hsub. apply lookup_insert_Some in Ht as [[[= <- <-] <-]|[Hne Ht]]; [|by apply P3].
      rewrite root_none. by apply root_ent.
    + intros r i j k p Hp. pose proof (Hsub r [i] j) as E. cbn [app] in E. rewrite E in Hp. by apply (P4 r i j k p).
    + intros k pa Hk. destruct (P5 k pa Hk) as (r & i & j & x & -> & A & B). pose proof (Hsub r [i] j) as E. cbn [app] in E.
      exists r, i, j, x. by rewrite E.
    + intros r i t Ht. pose proof (Hsub r [] i) as E. cbn [app] in E. rewrite E in Ht. by apply (P6 r i t).
Qed.

Lemma root_empty va : 0 ≤ va → pte_at (k_mem s) q va = 0.
Proof.
  intros Hva. rewrite (pte_at_D root_new q va Hva) by apply lookup_insert_eq.
  rewrite lookup_insert_ne by done. by rewrite root_none.
Qed.
End Root.

Lemma uvmcreate_run own D M l s e : nonneg own → vm_inv own D M l s →
  (∃ l' s' r, uvmcreate e s = Ret r e s' ∧ l = r :: l' ∧ page r ∧ (∀ path, D !! (r, path) = None) ∧
     (∀ k, k.1 = r → M !! k = None) ∧ vm_inv own (<[(r, []) := r]> D) M l' s' ∧ mem_only s s' ∧
     keeps D s (<[(r, []) := r]> D) s' ∧ ∀ va, 0 ≤ va → pte_at (k_mem s') r va = 0) ∨
  l = [] ∧ uvmcreate e s = Ret 0 e (st_settle s).
Proof.
  intros Hnn HI. unfold uvmcreate. destruct l as [|q l].
  { right. split; [done|]. by run (kalloc_nil e s (vi_ready HI) (vi_kmem HI)). }
  left. destruct (kalloc_fill own D M l s q (λ m, memset m q 0 PGSIZE) HI) as (HI1 & He1 & Hq & Hz & Hq1 & Hnt);
    [intros; by apply memset_out|].
  set (s1 := st_alloc q s <| k_mem ::= λ m, memset m q 0 PGSIZE |>) in *.
  assert (1 ≤ addown own q 1 q) as Ho by (unfold addown; rewrite decide_True by done; specialize (Hnn q); lia).
  assert (∀ x, q ≤ x < q + PGSIZE → k_mem s1 x = 0) as Hzero.
  { intros x Hx. change (k_mem s1) with (memset (k_mem (st_alloc q s)) q 0 PGSIZE). rewrite memset_spec by (unfold PGSIZE; lia).
    unfold PGSIZE in *. by destruct (Z.leb_spec q x), (Z.ltb_spec x (q + 4096)); try lia. }
  pose proof (root_new HI1 Hq Ho Hq1 Hzero) as HI2. rewrite addown_cancel in HI2.
  exists l, s1, q. split_and!.
  - run (kalloc_cons q l e s (vi_ready HI) (vi_kmem HI)). pose proof (page_nonzero q Hq). destruct (Z.eqb_spec q 0); [done|].
    by erewrite bind_Ret by (apply kmemset_run, (page_in_ram q PGSIZE Hq); done).
  - done.
  - done.
  - intros path. by apply (root_none HI1).
  - intros k. by apply (root_unmapped HI1).
  - done.
  - apply (ev_only _ _ _ _ _ He1).
  - destruct He1 as [E1 E2 E3 E4 E5 E6 E7]. split.
    + apply insert_subseteq. by apply (root_none HI1).
    + intros k p [[<- <-]|[_ Hk]]%lookup_insert_Some; [by right|by left].
    + intros t Ht Hr. by rewrite E6.
    + done.
    + done.
  - intros va. by apply (root_empty HI1).
Qed.

(** ** Entries that own no page *)

(** mappages of one page that stays owned elsewhere (or by nobody). *)
Lemma map_bare own D M l s r va pa perm e : vm_inv own D M l s → D !! (r, []) = Some r → 0 ≤ va < MAXVA → va mod 4096 = 0 →
  M !! leaf r va = None → pte_at (k_mem s) r va = 0 → 0 ≤ pa < 2 ^ 55 → pa mod 4096 = 0 → 0 ≤ perm < 1024 →
  Z.land perm PTE_R ≠ 0 → Z.land perm PTE_U = 0 →
  ∃ res D' l' s', mappages r va PGSIZE pa perm e s = Ret res e s' ∧ (length l ≤ length l' + 2)%nat ∧ vm_inv own D' M l' s' ∧
    (∀ k, k.1 ≠ r → D' !! k = D !! k) ∧
    (res = -1 ∧ (length l < 2)%nat ∧ evolves (λ _ _ o, o) D s D' s' ∨
     res = 0 ∧ evolves (map_range r va 1 pa (Z.lor perm PTE_V)) D s D' s').
Proof.
  intros HI Hr Hva Hal HM Hz Hpa Hpal Hperm HR HU.
  destruct (mappages_page own D M l s r va pa perm e own M HI Hr Hva Hal) as (res & D' & l' & s' & E & (x & Hx & ->) & Hloc & Hres); try done.
  - left. by rewrite Hz.
  - split; try done; [apply (vi_own HI)|]. rewrite HM. right. exists pa.
    assert (0 ≤ pa < 2 ^ 56) by (change (2 ^ 55) with 36028797018963968 in Hpa; change (2 ^ 56) with 72057594037927936; lia).
    destruct (flags_V perm Hperm) as [Hf HV]. split; [by apply good_mkpte|].
    rewrite land_flags, mkpte_flags by (done || (unfold PTE_U; done)). rewrite Z.land_lor_distr_l, HU. done.
  - exists res, D', (drop x l), s'. split_and!; [done|rewrite length_drop; lia| |done|].
    + by destruct Hres as [(_ & _ & ? & _)|(_ & ? & _)].
    + destruct Hres as [(-> & ? & _ & ?)|(-> & _ & ?)]; [by left|by right].
Qed.

(** ** proc_pagetable *)

Lemma refs_same own D M l s l' s' t : vm_inv own D M l s → vm_inv own D M l' s' → page t → refs s' t = refs s t.
Proof. intros HI HI' Ht. by rewrite (vi_refs HI t Ht), (vi_refs HI' t Ht). Qed.

(** [D1] is [D] and the tables of the new address space [r]. *)
Record extends D M r D1 : Prop := Extends {
  xt_fresh : ∀ path, D !! (r, path) = None;
  xt_unmapped : ∀ k, k.1 = r → M !! k = None;
  xt_local : ∀ k, k.1 ≠ r → D1 !! k = D !! k;
  xt_root : D1 !! (r, []) = Some r;
}.

Lemma extends_spare D M r D1 : extends D M r D1 → spare r D1 = D ∧ spare r M = M.
Proof.
  intros [E1 E2 E3 E4]. split; apply map_eq; intros [x path]; rewrite spare_lookup; case_decide as Hd; cbn in Hd; subst.
  - by rewrite E1.
  - by apply E3.
  - by rewrite E2.
  - done.
Qed.

(** Taking a new address space away leaves what there was before. *)
Lemma keeps_freed own D M l s own1 D1 s1 l2 s2 r : vm_inv own D M l s → extends D M r D1 → keeps D s D1 s1 →
  space_freed own1 D1 M s1 r l2 s2 → own1 = own → vm_inv own D M l2 s2 ∧ keeps D s D s2.
Proof.
  intros HI X K [F1 F2 F3 F4] ->. destruct (extends_spare _ _ _ _ X) as [ED EM]. rewrite ED, EM in F1. split; [done|].
  assert (∀ t, page t → refs s2 t = refs s t) as Hrefs by (intros t; by eapply refs_same).
  split; [done|by left| | |].
  - intros t Ht Hr. by rewrite Hrefs.
  - intros x Hx. rewrite F4; [by apply (kp_mem _ _ _ _ K)|]. intros t Ht Hin. destruct (Hx t Ht Hin) as [H1 H2].
    split; [by rewrite Hrefs|]. intros k Hk. apply (kp_new _ _ _ _ K) in Hk as [Hk|Hk]; [by apply (H2 k)|lia].
  - intros r' va Hva Hr'. assert (r' ≠ r) as Hne by (intros ->; by rewrite (xt_fresh _ _ _ _ X) in Hr').
    rewrite F3; [by apply (kp_pte _ _ _ _ K)|done|done|]. by eapply lookup_weaken, (kp_sub _ _ _ _ K).
Qed.

Lemma uvmfree_new own D M l s D1 l1 s1 r e : nonneg own → vm_inv own D M l s → vm_inv own D1 M l1 s1 →
  extends D M r D1 → keeps D s D1 s1 → (∀ va, 0 ≤ va < MAXVA → pte_at (k_mem s1) r va = 0) →
  ∃ l2 s2, uvmfree r 0 e s1 = Ret () e s2 ∧ vm_inv own D M l2 s2 ∧ keeps D s D s2 ∧ mem_only s1 s2.
Proof.
  intros Hnn HI HI1 X K Hz. assert (user_space D1 M s1 r 0) as U.
  { split; [by apply X|rewrite MAXVA_val; done| | |].
    - intros i Hi. change (PGROUNDUP 0 / 4096) with 0 in Hi. simpl in Hi. lia.
    - intros k Hk [pa Hs]. by rewrite (xt_unmapped _ _ _ _ X) in Hs.
    - intros va Hva _. by apply Hz. }
  destruct (uvmfree_frees own D1 M l1 s1 r 0 e Hnn HI1 U) as (l2 & s2 & E & F & _).
  destruct (keeps_freed own D M l s own D1 s1 l2 s2 r HI X K F eq_refl) as [HI2 K2].
  exists l2, s2. split_and!; [done..|apply F].
Qed.

Lemma frame_perms : 0 ≤ Z.lor PTE_R PTE_X < 1024 ∧ 0 ≤ Z.lor PTE_R PTE_W < 1024.
Proof. by vm_compute. Qed.

(** One of the two entries of a new address space. *)
Lemma map_frame own D M l s D1 l1 s1 r va pa perm e : vm_inv own D M l s → vm_inv own D1 M l1 s1 →
  extends D M r D1 → keeps D s D1 s1 → 0 ≤ va < MAXVA → va mod 4096 = 0 → pte_at (k_mem s1) r va = 0 →
  KERNBASE ≤ pa < PHYSTOP → pa mod 4096 = 0 → perm = Z.lor PTE_R PTE_X ∨ perm = Z.lor PTE_R PTE_W →
  ∃ res D2 l2 s2, mappages r va PGSIZE pa perm e s1 = Ret res e s2 ∧ (length l1 ≤ length l2 + 2)%nat ∧ vm_inv own D2 M l2 s2 ∧
    extends D M r D2 ∧ keeps D s D2 s2 ∧ mem_only s1 s2 ∧
    (res = -1 ∧ (length l1 < 2)%nat ∧ (∀ x, 0 ≤ x < MAXVA → pte_at (k_mem s2) r x = pte_at (k_mem s1) r x) ∨
     res = 0 ∧ ∀ x, 0 ≤ x < MAXVA →
       pte_at (k_mem s2) r x = if decide (leaf r x = leaf r va) then mkpte pa (Z.lor perm PTE_V) else pte_at (k_mem s1) r x).
Proof.
  intros HI HI1 X K Hva Hal Hz Hpa Hpal Hperm. pose proof (xt_root _ _ _ _ X) as Hr. rewrite KERNBASE_val, PHYSTOP_val in Hpa.
  destruct (map_bare own D1 M l1 s1 r va pa perm e HI1 Hr Hva Hal) as (res & D2 & l2 & s2 & E & Hlen & HI2 & Hloc & Hres).
  { by apply X. }
  { done. }
  { change (2 ^ 55) with 36028797018963968. lia. }
  { done. }
  { pose proof frame_perms. destruct Hperm as [->| ->]; tauto. }
  { by destruct Hperm as [->| ->]. }
  { by destruct Hperm as [->| ->]. }
  assert (∃ φ, evolves φ D1 s1 D2 s2 ∧ ∀ r' x o, r' ≠ r → φ r' x o = o) as (φ & He & Hφ).
  { destruct Hres as [(_ & _ & He)|(_ & He)]; (eexists; split; [exact He|]); [done|].
    intros r' x o Hne. unfold map_range. by destruct (Z.eqb_spec r' r). }
  pose proof He as [E1 E2 E3 E4 E5 E6 E7].
  exists res, D2, l2, s2. split_and!; [done|done|done| | |done|].
  - destruct X as [X1 X2 X3 X4]. split; [done|done| |by rewrite E3]. intros k Hk. by rewrite Hloc, X3.
  - pose proof K as [K1 K2 K3 K4 K5]. split.
    + by transitivity D1.
    + intros k p Hk. destruct (E2 k p Hk) as [H2|H2]; [by apply K2|].
      pose proof (table_page HI2 k p Hk) as Hp. pose proof (ki_refs _ _ (vi_kmem HI) p Hp).
      destruct (decide (refs s p = 0)); [by right|]. specialize (K3 p Hp ltac:(lia)). lia.
    + intros t Ht Hrf. rewrite E6; [by apply K3|done|by apply K3].
    + intros x Hx. rewrite E5; [by apply K4|by eapply keeps_protected].
    + intros r' x Hx Hr'. rewrite E7 by (done || by eapply lookup_weaken).
      rewrite Hφ; [by apply K5|]. intros ->. by rewrite (xt_fresh _ _ _ _ X) in Hr'.
  - destruct Hres as [(-> & Hl & [])|(-> & [])]; [left|right]; (split_and!; [done..|]).
    + intros x Hx. by auto.
    + intros x Hx. rewrite ev_pte by done. case_decide as Hd.
      * apply leaf_eq in Hd as [_ Hd]; [|done|done]. unfold map_range. rewrite Z.eqb_refl, Hd, Z.sub_diag. simpl. by rewrite Z.add_0_r.
      * by apply map_range_miss.
Qed.

(** Unmapping in a new address space only. *)
Lemma keeps_shrinks own D M l1 s D1 s1 l2 s2 r φ : vm_inv own D1 M l1 s1 → vm_inv own D1 M l2 s2 →
  extends D M r D1 → keeps D s D1 s1 → shrinks φ D1 s1 s2 → (∀ r' va o, r' ≠ r → φ r' va o = o) → keeps D s D1 s2.
Proof.
  intros HI1 HI2 X K [A1 A2 A3 A4] Hφ. pose proof K as [K1 K2 K3 K4 K5].
  assert (∀ t, page t → refs s2 t = refs s1 t) as Hrefs by (intros t; by eapply refs_same).
  split; [done|done| | |].
  - intros t Ht Hr. rewrite Hrefs by done. by apply K3.
  - intros x Hx. rewrite A3; [by apply K4|]. intros t Ht Hin. rewrite Hrefs by done.
    by apply (keeps_protected D s D1 s1 x K Hx).
  - intros r' va Hva Hr'. rewrite A4 by (done || by eapply lookup_weaken). rewrite Hφ; [by apply K5|].
    intros ->. by rewrite (xt_fresh _ _ _ _ X) in Hr'.
Qed.

(** The entries of a new address space. *)
Definition new_ptes (m : memory) (r tf : Z) : Prop :=
  pte_at m r TRAMPOLINE = mkpte trampoline (Z.lor (Z.lor PTE_R PTE_X) PTE_V) ∧
  pte_at m r TRAPFRAME = mkpte tf (Z.lor (Z.lor PTE_R PTE_W) PTE_V).

Lemma frame_pte_nonzero pa perm : KERNBASE ≤ pa < PHYSTOP → pa mod 4096 = 0 →
  perm = Z.lor PTE_R PTE_X ∨ perm = Z.lor PTE_R PTE_W → mkpte pa (Z.lor perm PTE_V) ≠ 0.
Proof.
  rewrite KERNBASE_val, PHYSTOP_val. intros Hpa Hal Hperm. apply (good_pte_nonzero _ pa). pose proof frame_perms.
  apply good_mkpte; [change (2 ^ 56) with 72057594037927936; lia|done|by destruct Hperm as [->| ->]|by destruct Hperm as [->| ->]].
Qed.

Lemma new_space D M s r tf D2 : extends D M r D2 → KERNBASE ≤ tf < PHYSTOP → tf mod 4096 = 0 → new_ptes (k_mem s) r tf →
  (∀ va, 0 ≤ va < MAXVA → leaf r va ≠ leaf r TRAMPOLINE → leaf r va ≠ leaf r TRAPFRAME → pte_at (k_mem s) r va = 0) →
  proc_space D2 M s r 0.
Proof.
  intros X Htf Hal [N1 N2] Hz. destruct frame_vals as (F1 & F2 & F3). pose proof trampoline_range as T1.
  pose proof trampoline_aligned as T2. unfold PGSIZE in T2. split.
  - by apply X.
  - rewrite F2. lia.
  - intros i Hi. change (PGROUNDUP 0 / 4096) with 0 in Hi. simpl in Hi. lia.
  - intros k Hk [pa Hs]. by rewrite (xt_unmapped _ _ _ _ X) in Hs.
  - rewrite N1. apply frame_pte_nonzero; [done|done|by left].
  - rewrite N2. apply frame_pte_nonzero; [done|done|by right].
  - intros va Hva A B _. apply Hz; [done|..]; intros E; apply leaf_eq in E as [_ E]; rewrite ?F1, ?F2, ?F3 in *; try done; lia.
Qed.

(** proc_pagetable makes an address space with the two frames in it, or gives
    everything back. *)
Lemma proc_pagetable_run own D M l s i q e : nonneg own → vm_inv own D M l s → k_procs s !! i = Some q →
  page (p_trapframe q) →
  ∃ res D' l' s', proc_pagetable i e s = Ret res e s' ∧ vm_inv own D' M l' s' ∧ mem_only s s' ∧ keeps D s D' s' ∧
    (res = 0 ∧ D' = D ∧ (length l < 5)%nat ∨
     page res ∧ (length l ≤ length l' + 5)%nat ∧ extends D M res D' ∧ proc_space D' M s' res 0 ∧
     new_ptes (k_mem s') res (p_trapframe q)).
Proof.
  intros Hnn HI Hq Htf. set (tf := p_trapframe q) in *. destruct frame_vals as (F1 & F2 & F3).
  pose proof trampoline_range as T1. pose proof trampoline_aligned as T2. unfold PGSIZE in T2.
  pose proof (page_bounds tf Htf) as (B1 & B2 & B3). unfold PGSIZE in B2.
  unfold proc_pagetable. destruct (uvmcreate_run own D M l s e Hnn HI)
    as [(l1 & s1 & r & E1 & -> & Hr & Hfr & Hun & HI1 & Ho1 & K1 & Hz)|[-> E1]]; run E1.
  2: { exists 0, D, [], (st_settle s). split_and!; [done|by apply vm_inv_settle|by apply grows_settle|
         by apply (keeps_evolves own D M []), grows_settle|left; split_and!; [done|done|simpl; lia]]. }
  pose proof (page_nonzero r Hr). destruct (Z.eqb_spec r 0); [done|].
  assert (extends D M r (<[(r, []) := r]> D)) as X1.
  { split; [done|done| |apply lookup_insert_eq]. intros k Hk. apply lookup_insert_ne. by intros <-. }
  destruct (map_frame own D M (r :: l1) s _ l1 s1 r TRAMPOLINE trampoline (Z.lor PTE_R PTE_X) e HI HI1 X1 K1)
    as (res & D2 & l2 & s2 & E2 & Hl2 & HI2 & X2 & K2 & Ho2 & Hres); [by rewrite F1, F3|by rewrite F1|
      apply Hz; by rewrite F1|done|done|by left|].
  assert (mem_only s s2) as Ho12 by (eapply mem_only_trans; [apply (vi_ready HI)|done|done]). run E2.
  destruct Hres as [(-> & Hl & P2)|[-> P2]]; cbn [Z.ltb Z.compare].
  { destruct (uvmfree_new own D M (r :: l1) s D2 l2 s2 r e Hnn HI HI2 X2 K2) as (l3 & s3 & E3 & HI3 & K3 & Ho3).
    { intros va Hva. rewrite P2 by done. apply Hz. lia. }
    run E3. exists 0, D, l3, s3. split_and!; [done|done| |done|left; split_and!; [done|done|simpl; lia]].
    eapply mem_only_trans; [apply (vi_ready HI)|done|done]. }
  assert (pte_at (k_mem s2) r TRAMPOLINE = mkpte trampoline (Z.lor (Z.lor PTE_R PTE_X) PTE_V)) as N1.
  { by rewrite P2, decide_True by (done || by rewrite F1, F3). }
  assert (leaf r TRAPFRAME ≠ leaf r TRAMPOLINE) as Hap by by vm_compute.
  assert (k_procs s2 !! i = Some q) as Hq2 by (destruct Ho12 as [_ Ho]; unfold others in Ho; congruence).
  erewrite bind_Ret by (by apply pget_run). fold tf.
  destruct (map_frame own D M (r :: l1) s D2 l2 s2 r TRAPFRAME tf (Z.lor PTE_R PTE_W) e HI HI2 X2 K2)
    as (res & D3 & l3 & s3 & E3 & Hl3 & HI3 & X3 & K3 & Ho3 & Hres); [by rewrite F2, F3|by rewrite F2| |lia|done|by right|].
  { rewrite P2, decide_False by (done || by rewrite F2, F3). apply Hz. by rewrite F2. }
  assert (mem_only s s3) as Ho13 by (eapply mem_only_trans; [apply (vi_ready HI)|done|done]). run E3.
  destruct Hres as [(-> & Hl & P3)|[-> P3]]; cbn [Z.ltb Z.compare].
  - destruct (unmap_bare own D3 M l3 s3 r TRAMPOLINE e HI3) as (s4 & E4 & HI4 & [A1 A2 A3 A4]);
      [by apply X3|by rewrite F1|by rewrite F1, F3|by rewrite F1|by apply X3| |].
    { rewrite P3 by (by rewrite F1, F3). rewrite N1. apply frame_pte_nonzero; [done|done|by left]. }
    assert (keeps D s D3 s4) as K4.
    { apply (keeps_shrinks own D M l3 s D3 s3 l3 s4 r (unmap_range r TRAMPOLINE 1)); try done.
      intros r' x o Hne. unfold unmap_range. by destruct (Z.eqb_spec r' r). }
    run E4. destruct (uvmfree_new own D M (r :: l1) s D3 l3 s4 r e Hnn HI HI4 X3 K4) as (l5 & s5 & E5 & HI5 & K5 & Ho5).
    { intros x Hx. rewrite A4, unmap_range_one by (by rewrite ?F1, ?F3 || done || apply X3). case_decide as Hd; [done|].
      rewrite P3, P2, decide_False by done. apply Hz. lia. }
    run E5. exists 0, D, l5, s5. split_and!; [done|done| |done|left; split_and!; [done|done|simpl in *; lia]].
    eapply mem_only_trans; [apply (vi_ready HI)|exact Ho13|]. by eapply mem_only_trans; [apply (vi_ready HI3)|exact A1|].
  - exists r, D3, l3, s3. split_and!; [by krun|done|done|done|right]. split_and!; [done|simpl; lia|done| |].
    + apply (new_space D M s3 r tf D3 X3); [lia|done| |].
      * split; [rewrite P3, decide_False by (done || by rewrite F1, F3); done|by rewrite P3, decide_True by (done || by rewrite F2, F3)].
      * intros va Hva A B. rewrite P3, decide_False, P2, decide_False by done. apply Hz. lia.
    + split; [rewrite P3, decide_False by (done || by rewrite F1, F3); done|by rewrite P3, decide_True by (done || by rewrite F2, F3)].
Qed.
End Space.
