(* ===== verification/Spawn.v ===== *)
(** * Spawn: making a process (allocproc and fork of kernel/proc.c)

    fork's child gets a slot of the process table, a new address space with the
    parent's pages copy-on-write, and its own copy of the trapframe.  When memory
    runs out everything it got is given back. *)

From S2P Require Import Prelude Params CString State Spinlock PhysMem Kalloc Vm VmInv VmMap VmLocal VmGrow VmCow VmCopy VmFree ProcBase Sleeplock Virtio Bio Blocks Bytes Log Fs Console File Proc Reap NewSpace.

(** ** The slot of a new process *)

(** What an unused slot of the table holds. *)
Record empty_slot (q : proc) : Prop := EmptySlot {
  es_state : p_state q = UNUSED;
  es_frame : p_trapframe q = 0;
  es_table : p_pagetable q = 0;
  es_size : p_sz q = 0;
  es_files : p_ofile q = replicate NOFILE None;
}.

Definition unused (q : proc) : bool := bool_decide (p_state q = UNUSED).

(** A hart that holds no lock, as it is inside a critical section of its own. *)
Record idle (m : machine) : Prop := Idle {
  id_wf : wf_mach m;
  id_settled : settle m = m;
  id_kmem : lock_free LKmem m;
  id_pid : lock_free LPid m;
  id_ftable : lock_free LFtable m;
  id_itable : lock_free LItable m;
  id_wait : lock_free LWait m;
  id_proc : ∀ i, (i < NPROC)%nat → lock_free (LProc i) m;
}.

Section Slot.
Context `{!Image} `{!ImageOK}.
Implicit Types (own : Z → Z) (D M : gmap node Z) (l : list Z) (s t : kstate) (e : env).

Lemma idle_ready s : idle (k_mach s) → length (k_procs s) = NPROC → proc_ready s.
Proof. intros I Hl. split; [apply I|apply I|done]. Qed.

Lemma idle_nested m i : idle m → wf_mach (mlock (LProc i) m) ∧ 0 < c_noff (cpu_of (mlock (LProc i) m)).
Proof. intros I. pose proof (id_wf _ I) as (? & ? & ? & ?). split; [by apply wf_mlock, I|]. rewrite mlock_noff by apply I. lia. Qed.

Lemma release_slot i e s m : idle m → k_mach s = mlock (LProc i) m → (i < NPROC)%nat →
  release (LProc i) e s = Ret () e (s <| k_mach := m |>).
Proof. intros I Hm Hi. rewrite (release_after _ _ _ m Hm (id_wf _ I) (id_proc _ I i Hi)). by rewrite (id_settled _ I). Qed.

(** The first unused slot is found and locked. *)
Lemma find_unused_run e s : idle (k_mach s) → length (k_procs s) = NPROC →
  find_unused e s = match list_find (λ q, unused q = true) (k_procs s) with
                    | Some (i, _) => Ret (Some i) e (s <| k_mach ::= mlock (LProc i) |>)
                    | None => Ret None e s
                    end.
Proof.
  intros I Hl. unfold find_unused, procs. rewrite <- Hl.
  assert (∀ k n, (n + k = length (k_procs s))%nat →
    scan (seq n k) (λ p, acquire (LProc p);; st ← pget p p_state;
      if bool_decide (st = UNUSED) then mret (Some p) else release (LProc p);; mret None) e s =
    match list_find (λ q, unused q = true) (drop n (k_procs s)) with
    | Some (i, _) => Ret (Some (n + i)%nat) e (s <| k_mach ::= mlock (LProc (n + i)%nat) |>)
    | None => Ret None e s
    end) as Hloop; [|by rewrite (Hloop (length (k_procs s)) 0%nat)].
  induction k as [|k IH]; intros n Hn; [by rewrite drop_ge by lia|].
  destruct (lookup_lt_is_Some_2 (k_procs s) n ltac:(lia)) as [q Hq]. rewrite (drop_S _ _ _ Hq). cbn [seq scan list_find].
  assert (n < NPROC)%nat as Hlt by lia. pose proof (idle_ready s I Hl) as Hr.
  rewrite bind_bind. run (acquire_free (LProc n) e s (id_wf _ I) (id_proc _ I n Hlt)). rewrite bind_bind.
  erewrite bind_Ret by (by apply pget_run). change (bool_decide (p_state q = UNUSED)) with (unused q).
  destruct (unused q) eqn:Eu.
  - rewrite decide_True by done. krun. by rewrite Nat.add_0_r.
  - rewrite decide_False by done. rewrite bind_bind. run (release_slot n e (s <| k_mach ::= mlock (LProc n) |>) (k_mach s) I eq_refl Hlt). krun.
    replace (s <| k_mach := k_mach s |>) with s by (by destruct s). rewrite IH by lia.
    destruct (list_find _ (drop (S n) (k_procs s))) as [[j x]|]; [|done]. cbn. by rewrite Nat.add_succ_r.
Qed.

(** A critical section inside another one. *)
Lemma inner_section lk e s : wf_mach (k_mach s) → 0 < c_noff (cpu_of (k_mach s)) → lock_free lk (k_mach s) →
  acquire lk e s = Ret () e (s <| k_mach ::= mlock lk |>) ∧
  ∀ t, k_mach t = mlock lk (k_mach s) → release lk e t = Ret () e (t <| k_mach := k_mach s |>).
Proof.
  intros Hw Hn Hf. split; [by apply acquire_free|]. intros t Ht. rewrite (release_after _ _ _ _ Ht Hw Hf).
  by rewrite settle_nested.
Qed.

Lemma allocpid_run e s : wf_mach (k_mach s) → 0 < c_noff (cpu_of (k_mach s)) → lock_free LPid (k_mach s) →
  allocpid e s = Ret (k_nextpid s) e (s <| k_nextpid := i32 (k_nextpid s + 1) |>).
Proof.
  intros Hw Hn Hf. destruct (inner_section LPid e s Hw Hn Hf) as [Ea Er]. unfold allocpid. run Ea. krun.
  erewrite bind_Ret by (by apply Er). done.
Qed.

(** ** freeproc of a process without an address space *)

Lemma freeproc_frame own D M l s p q e : vm_inv own D M l s → k_procs s !! p = Some q → p_pagetable q = 0 →
  p_trapframe q = 0 ∨ page (p_trapframe q) ∧ 1 ≤ own (p_trapframe q) →
  ∃ l' s', freeproc p e s = Ret () e s' ∧
    vm_inv (addown own (p_trapframe q) (if p_trapframe q =? 0 then 0 else -1)) D M l' s' ∧
    mem_only (s <| k_procs ::= alter freed_proc p |>) s' ∧
    (∀ x, x < p_trapframe q ∨ p_trapframe q + PGSIZE ≤ x ∨ p_trapframe q = 0 → k_mem s' x = k_mem s x) ∧
    (∀ r va, 0 ≤ va → D !! (r, []) = Some r → pte_at (k_mem s') r va = pte_at (k_mem s) r va).
Proof.
  intros HI Hq Hpt Htf. set (tf := p_trapframe q) in *.
  assert (∃ l1 s1, when (ctrue tf) (kfree tf) e s = Ret () e s1 ∧
    vm_inv (addown own tf (if tf =? 0 then 0 else -1)) D M l1 s1 ∧ mem_only s s1 ∧
    (∀ x, x < tf ∨ tf + PGSIZE ≤ x ∨ tf = 0 → k_mem s1 x = k_mem s x) ∧
    (∀ r va, 0 ≤ va → D !! (r, []) = Some r → pte_at (k_mem s1) r va = pte_at (k_mem s) r va)) as (l1 & s1 & E1 & HI1 & Ho1 & Hm1 & Hp1).
  { unfold ctrue. destruct (Z.eqb_spec tf 0) as [Ez|Hnz]; cbn [negb when].
    - exists l, s. split_and!; [done| |apply mem_only_refl|done|done].
      assert (pointwise_relation Z eq (addown own tf 0) own) as -> by (intros t; unfold addown; case_decide; lia). done.
    - destruct Htf as [?|[Hp Ho]]; [done|]. destruct (kfree_own own D M l s tf e HI Hp Ho) as (l1 & s1 & E & A1 & A2 & _ & _ & A5 & A6).
      exists l1, s1. split_and!; [done|done|done| |done]. intros x Hx. apply A5. destruct Hx as [?|[?|?]]; [by right; left|by right; right|done]. }
  assert (k_procs s1 = k_procs s) as Ep by (destruct Ho1 as [_ Ho]; unfold others in Ho; congruence).
  assert (p < length (k_procs s))%nat as Hlt by (by eapply lookup_lt_Some).
  eexists l1, _. split_and!.
  - unfold freeproc. erewrite bind_Ret by (by apply pget_run). fold tf. run E1.
    erewrite bind_Ret by (apply pset_run; by rewrite Ep).
    do 2 (erewrite bind_Ret by (apply pget_run, k_procs_alter_eq; by rewrite Ep)).
    change (p_pagetable (q <| p_trapframe := 0 |>)) with (p_pagetable q). rewrite Hpt. cbn [ctrue Z.eqb negb when]. krun.
    erewrite bind_Ret by (apply pset_run; by rewrite k_procs_alter_len, Ep).
    by rewrite pset_run by (by rewrite !k_procs_alter_len, Ep).
  - apply (vm_inv_ext _ _ _ _ s1); [done..|apply (vi_ready HI1)|done].
  - rewrite (procs_upd3 s p freed_proc (λ q, q <| p_trapframe := 0 |>)
        (λ q, q <| p_pagetable := 0 |> <| p_sz := 0 |> <| p_pid := 0 |> <| p_parent := None |>
                <| p_name ::= insert 0%nat 0 |> <| p_chan := None |> <| p_killed := 0 |> <| p_xstate := 0 |> <| p_state := UNUSED |>)
        (λ q, q <| p_static_priority := 0 |> <| p_niceness := 5 |> <| p_rtime := 0 |> <| p_stime := 0 |>
                <| p_sched_ct := 0 |> <| p_etime := 0 |>) eq_refl).
    by do 3 apply mem_only_procs.
  - exact Hm1.
  - exact Hp1.
Qed.

(** ** allocproc *)

(** What allocproc writes into the slot it found, before and after it has
    allocated memory. *)
Definition claimed (pid : Z) (q : proc) : proc :=
  q <| p_pid := pid |> <| p_state := USED |>
    <| p_queue_position := 0 |> <| p_ticks_used := 0 |> <| p_in_queue := 0 |> <| p_curr_wait_time := 0 |> <| p_queue_entry := 0 |>
    <| p_queue_time := replicate 5 0 |> <| p_static_priority := 60 |> <| p_niceness := 5 |>.
Definition equipped (pid tf r ticks : Z) (q : proc) : proc :=
  claimed pid q <| p_trapframe := tf |> <| p_pagetable := r |>
    <| p_context := Context_ forkret_addr (u64 (p_kstack q + PGSIZE)) (replicate 12 0) |>
    <| p_max_alarm_ticks := -1 |> <| p_alarm_ticks := -1 |> <| p_handler := u64 (-1) |>
    <| p_rtime := 0 |> <| p_etime := 0 |> <| p_ctime := ticks |> <| p_stime := 0 |>
    <| p_ticks_used := 0 |> <| p_queue_position := 0 |> <| p_in_queue := 0 |> <| p_queue_entry := 0 |> <| p_curr_wait_time := 0 |>.

(** The state apart from memory: a pid is used up, slot [i] is [q]. *)
Definition slot_changed (i : nat) (q : proc) (s s' : kstate) : Prop :=
  others s' = others (s <| k_nextpid := i32 (k_nextpid s + 1) |> <| k_procs ::= <[i := q]> |>).

Lemma alter_is_insert {A} (f : A → A) i (ps : list A) x : ps !! i = Some x → alter f i ps = <[i := f x]> ps.
Proof.
  intros Hx. apply list_eq. intros j. destruct (decide (j = i)) as [->|Hne].
  - rewrite list_lookup_alter_eq, Hx, list_lookup_insert_eq; [done|by eapply lookup_lt_Some].
  - by rewrite list_lookup_alter_ne, list_lookup_insert_ne.
Qed.

(** The state in which slot [i] has been changed to [q], up to memory. *)
Definition in_slot (s0 : kstate) (i : nat) (q : proc) : kstate :=
  s0 <| k_mach ::= mlock (LProc i) |> <| k_nextpid := i32 (k_nextpid s0 + 1) |> <| k_procs ::= <[i := q]> |>.

Lemma in_slot_pset s0 i q s g e : (i < length (k_procs s0))%nat → mem_only (in_slot s0 i q) s →
  pset i g e s = Ret () e (s <| k_procs ::= alter g i |>) ∧ mem_only (in_slot s0 i (g q)) (s <| k_procs ::= alter g i |>).
Proof.
  intros Hi Ho. assert (k_procs s = <[i := q]> (k_procs s0)) as Ep by (destruct Ho as [_ Ho]; unfold others in Ho; by simplify_eq).
  split; [apply pset_run; by rewrite Ep, length_insert|].
  apply (mem_only_procs _ _ (alter g i)) in Ho. destruct Ho as [Hm Ho]. split; [exact Hm|]. etransitivity; [exact Ho|].
  unfold others, in_slot, set; cbn. do 12 f_equal.
  rewrite (alter_is_insert g i _ q) by (by apply list_lookup_insert_eq). by rewrite list_insert_insert_eq.
Qed.

Lemma in_slot_lookup s0 i q s : (i < length (k_procs s0))%nat → mem_only (in_slot s0 i q) s → k_procs s !! i = Some q.
Proof.
  intros Hi [_ Ho]. assert (k_procs s = <[i := q]> (k_procs s0)) as -> by (unfold others in Ho; by simplify_eq).
  by apply list_lookup_insert_eq.
Qed.

Lemma in_slot_mach s0 i q s : idle (k_mach s0) → mem_only (in_slot s0 i q) s → k_mach s = mlock (LProc i) (k_mach s0).
Proof. intros I Ho. apply (mem_only_nested _ _ Ho). by apply idle_nested. Qed.

Lemma in_slot_done s0 i q s : mem_only (in_slot s0 i q) s → slot_changed i q s0 s.
Proof. by intros [_ Ho]. Qed.

(** The slot is given up again. *)
Lemma return_slot {A} (x : A) own own1 D M l s l1 t i q e : idle (k_mach s) → (i < NPROC)%nat → length (k_procs s) = NPROC →
  vm_inv own D M l s → vm_inv own1 D M l1 t → keeps D s D t → mem_only (in_slot s i q) t →
  p_pagetable q = 0 → p_ofile q = replicate NOFILE None →
  p_trapframe q = 0 ∧ own1 = own ∨ page (p_trapframe q) ∧ refs s (p_trapframe q) = 0 ∧ own1 = addown own (p_trapframe q) 1 ∧ nonneg own →
  ∃ l' s', (freeproc i;; release (LProc i);; mret x) e t = Ret x e s' ∧ vm_inv own D M l' s' ∧ keeps D s D s' ∧
    k_mach s' = k_mach s ∧ ∃ q', empty_slot q' ∧ slot_changed i q' s s'.
Proof.
  intros I Hi Hlen HI HI1 K Ho Hpt Hof Htf. set (tf := p_trapframe q) in *.
  destruct (freeproc_frame own1 D M l1 t i q e HI1) as (l' & s1 & E & HI2 & Ho2 & Hm & Hp).
  { apply (in_slot_lookup s); [by rewrite Hlen|done]. }
  { done. }
  { destruct Htf as [[? _]|(Hpg & _ & -> & Hnn)]; [by left|right]. split; [done|]. fold tf. specialize (Hnn tf). unfold addown.
    rewrite decide_True by done. lia. }
  fold tf in HI2, Hm. assert (vm_inv own D M l' s1) as HI3.
  { destruct Htf as [[Ez ->]|(Hpg & _ & -> & _)].
    - rewrite Ez in HI2. cbn [Z.eqb] in HI2. assert (pointwise_relation Z eq own (addown own 0 0)) as ->; [|done].
      intros y. unfold addown. case_decide; lia.
    - pose proof (page_nonzero tf Hpg). destruct (Z.eqb_spec tf 0); [done|]. by rewrite addown_cancel in HI2. }
  destruct (in_slot_pset s i q t freed_proc e) as [_ Ho3]; [by rewrite Hlen|done|].
  assert (mem_only (in_slot s i (freed_proc q)) s1) as Ho4.
  { eapply mem_only_trans; [by apply idle_nested|exact Ho3|exact Ho2]. }
  pose proof (in_slot_mach _ _ _ _ I Ho4) as Em.
  exists l', (s1 <| k_mach := k_mach s |>). split_and!.
  - run E. by run (release_slot i e s1 (k_mach s) I Em Hi).
  - apply (vm_inv_ext _ _ _ _ s1); [done..| |done]. split; apply I.
  - pose proof K as [K1 K2 K3 K4 K5]. split; [done|by left| | |].
    + intros y Hy Hr. change (1 ≤ refs s1 y). by rewrite (refs_same own D M l s l' s1 y HI HI3 Hy).
    + intros y Hy. change (k_mem s1 y = k_mem s y). rewrite Hm; [by apply K4|]. destruct Htf as [[? _]|(Hpg & Hz & _)]; [by right; right|].
      destruct (Z.le_gt_cases tf y); [|by left]. destruct (Z.lt_ge_cases y (tf + PGSIZE)); [|by right; left].
      destruct (Hy tf Hpg ltac:(lia)). lia.
    + intros r va Hva Hr. change (pte_at (k_mem s1) r va = pte_at (k_mem s) r va). rewrite Hp by (done || lia). by apply K5.
  - done.
  - exists (freed_proc q). split; [by split|]. exact (in_slot_done s i _ s1 Ho4).
Qed.

Lemma set_mem_id s : s <| k_mem ::= λ m, m |> = s.
Proof. by destruct s. Qed.

Lemma in_slot_init s i q : k_procs s !! i = Some q →
  in_slot s i q = s <| k_mach ::= mlock (LProc i) |> <| k_nextpid := i32 (k_nextpid s + 1) |>.
Proof. intros Hq. unfold in_slot. apply set_procs_id. by apply list_insert_id. Qed.

Lemma in_slot_kmem own D M l s i q : idle (k_mach s) → (i < NPROC)%nat → vm_inv own D M l s → vm_inv own D M l (in_slot s i q).
Proof.
  intros I Hi HI. apply (vm_inv_ext _ _ _ _ s); [done..| |done]. split; [by apply (idle_nested _ i)|].
  apply mlock_free; [done|apply I].
Qed.

(** allocproc on a table with an unused slot. *)
Lemma allocproc_run own D M l s i q e : nonneg own → vm_inv own D M l s → idle (k_mach s) → length (k_procs s) = NPROC →
  list_find (λ q, unused q = true) (k_procs s) = Some (i, q) → empty_slot q →
  ∃ res D' l' s', allocproc e s = Ret res e s' ∧ keeps D s D' s' ∧
    (res = None ∧ D' = D ∧ (length l < 6)%nat ∧ vm_inv own D M l' s' ∧ k_mach s' = k_mach s ∧
       (∃ q', empty_slot q' ∧ slot_changed i q' s s') ∨
     ∃ tf r, res = Some i ∧ page tf ∧ refs s tf = 0 ∧ page r ∧ (length l ≤ length l' + 6)%nat ∧
       vm_inv (addown own tf 1) D' M l' s' ∧ extends D M r D' ∧ proc_space D' M s' r 0 ∧ new_ptes (k_mem s') r tf ∧
       mem_only (in_slot s i (equipped (k_nextpid s) tf r (k_ticks s) q)) s').
Proof.
  intros Hnn HI I Hlen Hfind [Q1 Q2 Q3 Q4 Q5]. apply list_find_Some in Hfind as Hf. destruct Hf as (Hq & _ & _).
  assert (i < length (k_procs s))%nat as Hi' by (by eapply lookup_lt_Some). assert (i < NPROC)%nat as Hi by (by rewrite <- Hlen).
  pose proof (idle_nested _ i I) as [Hw1 Hn1]. set (pid := k_nextpid s).
  unfold allocproc. erewrite bind_Ret by (rewrite find_unused_run, Hfind by done; reflexivity). cbv beta iota.
  set (s1 := s <| k_mach ::= mlock (LProc i) |>).
  run (allocpid_run e s1 Hw1 Hn1 ltac:(apply mlock_free; [done|apply I])).
  change (s1 <| k_nextpid := i32 (k_nextpid s1 + 1) |>) with (s <| k_mach ::= mlock (LProc i) |> <| k_nextpid := i32 (k_nextpid s + 1) |>).
  change (k_nextpid s1) with pid. rewrite <- (in_slot_init s i q Hq). clear s1.
  pose proof (in_slot_kmem own D M l s i q I Hi HI) as HI0. set (s0 := in_slot s i q) in *.
  destruct (in_slot_pset s i q s0 (λ q, q <| p_pid := pid |> <| p_state := USED |>) e Hi' (mem_only_refl _)) as [E1 O1]. run E1.
  set (s1 := s0 <| k_procs ::= alter _ i |>) in *.
  match type of O1 with mem_only (in_slot _ _ ?q1) _ =>
    destruct (in_slot_pset s i q1 s1 (λ q, q <| p_queue_position := 0 |> <| p_ticks_used := 0 |> <| p_in_queue := 0 |>
                     <| p_curr_wait_time := 0 |> <| p_queue_entry := 0 |>
                     <| p_queue_time := replicate 5 0 |>
                     <| p_static_priority := 60 |> <| p_niceness := 5 |>) e Hi' O1) as [E2 O2] end. run E2.
  set (s2 := s1 <| k_procs ::= alter _ i |>) in *. change (mem_only (in_slot s i (claimed pid q)) s2) in O2.
  assert (vm_inv own D M l s2) as HI2 by (apply (vm_inv_ext _ _ _ _ s0); [done..|apply (vi_ready HI0)|done]).
  assert (keeps D s D s2) as K2 by (split; [done|by left|done..]).
  clearbody s2. clear E1 E2 O1.
  assert (∀ y, mem_only (in_slot s i y) s2 → wf_mach (k_mach (in_slot s i y))) as Hwy by (intros; by apply idle_nested).
  destruct l as [|tf l].
  { run (kalloc_nil e s2 (vi_ready HI2) (vi_kmem HI2)).
    assert (mem_only (in_slot s i (claimed pid q)) (st_settle s2)) as O3.
    { eapply mem_only_trans; [by apply Hwy|exact O2|by apply (grows_settle D)]. }
    destruct (in_slot_pset s i _ _ (λ q, q <| p_trapframe := 0 |>) e Hi' O3) as [E4 O4]. run E4.
    set (s4 := st_settle s2 <| k_procs ::= alter _ i |>) in *.
    assert (vm_inv own D M [] s4) as HI4.
    { apply (vm_inv_ext _ _ _ _ (st_settle s2)); [done..|apply (vi_ready (vm_inv_settle _ _ _ _ _ HI2))|by apply vm_inv_settle]. }
    assert (keeps D s D s4) as K4 by (destruct K2; by split).
    destruct (return_slot (A := option nat) None own own D M [] s [] s4 i _ e I Hi Hlen HI HI4 K4 O4) as (l' & s' & E & A1 & A2 & A3 & A4);
      [done|done|by left|].
    exists None, D, l', s'. split_and!; [cbn [Z.eqb]; by rewrite E|done|left]. split_and!; [done|done|simpl; lia|done..]. }
  destruct (kalloc_fill own D M l s2 tf (λ m, m) HI2 ltac:(done)) as (HI3 & He3 & Htf & Hz & _ & Hnt).
  rewrite set_mem_id in HI3, He3. run (kalloc_cons tf l e s2 (vi_ready HI2) (vi_kmem HI2)). set (s3 := st_alloc tf s2) in *.
  pose proof (page_nonzero tf Htf) as Htfz.
  assert (refs s tf = 0) as Hz0 by (by rewrite <- (refs_same own D M (tf :: l) s (tf :: l) s2 tf HI HI2 Htf)).
  assert (mem_only (in_slot s i (claimed pid q)) s3) as O3.
  { eapply mem_only_trans; [by apply Hwy|exact O2|apply (ev_only _ _ _ _ _ He3)]. }
  assert (keeps D s D s3) as K3 by (eapply keeps_trans; [exact HI|exact HI3|exact K2|by eapply keeps_evolves]).
  destruct (in_slot_pset s i _ s3 (λ q, q <| p_trapframe := tf |>) e Hi' O3) as [E4 O4]. run E4.
  set (s4 := s3 <| k_procs ::= alter _ i |>) in *. set (q4 := claimed pid q <| p_trapframe := tf |>) in *.
  assert (vm_inv (addown own tf 1) D M l s4) as HI4 by (apply (vm_inv_ext _ _ _ _ s3); [done..|apply (vi_ready HI3)|done]).
  assert (keeps D s D s4) as K4 by (destruct K3; by split). clearbody s4. clear E4 O3 K3 HI3 He3.
  assert (nonneg (addown own tf 1)) as Hnn4 by (intros y; specialize (Hnn y); unfold addown; case_decide; lia).
  destruct (Z.eqb_spec tf 0); [done|]. pose proof (in_slot_lookup s i q4 s4 Hi' O4) as Hq4.
  destruct (proc_pagetable_run (addown own tf 1) D M l s4 i q4 e Hnn4 HI4 Hq4 Htf)
    as (r & D5 & l5 & s5 & E5 & HI5 & O5 & K5 & Hres). run E5.
  assert (mem_only (in_slot s i q4) s5) as O5' by (eapply mem_only_trans; [by apply idle_nested|exact O4|exact O5]).
  assert (keeps D s D5 s5) as K5' by (eapply keeps_trans; [exact HI|exact HI5|exact K4|exact K5]).
  destruct (in_slot_pset s i _ s5 (λ q, q <| p_pagetable := r |>) e Hi' O5') as [E6 O6]. run E6.
  set (s6 := s5 <| k_procs ::= alter _ i |>) in *.
  assert (vm_inv (addown own tf 1) D5 M l5 s6) as HI6 by (apply (vm_inv_ext _ _ _ _ s5); [done..|apply (vi_ready HI5)|done]).
  assert (keeps D s D5 s6) as K6 by (destruct K5'; by split). change (k_mem s5) with (k_mem s6) in Hres.
  destruct Hres as [(-> & -> & Hl)|(Hr & Hl & X & P & N)].
  { cbn [Z.eqb]. destruct (return_slot (A := option nat) None own (addown own tf 1) D M (tf :: l) s l5 s6 i _ e I Hi Hlen HI HI6 K6 O6)
      as (l' & s' & E & A1 & A2 & A3 & A4); [done|done|by right|].
    exists None, D, l', s'. split_and!; [cbn [Z.eqb]; by rewrite E|done|left]. split_and!; [done|done|simpl; lia|done..]. }
  pose proof (page_nonzero r Hr). destruct (Z.eqb_spec r 0); [done|]. krun.
  assert (k_ticks s6 = k_ticks s) as -> by (destruct O6 as [_ Ho]; unfold others in Ho; by simplify_eq).
  destruct (in_slot_pset s i _ s6 (λ q, q <| p_context := Context_ forkret_addr (u64 (p_kstack q + PGSIZE)) (replicate 12 0) |>)
    e Hi' O6) as [E7 O7]. run E7.
  match type of O7 with mem_only _ ?s7 =>
    destruct (in_slot_pset s i _ s7 (λ q, q <| p_max_alarm_ticks := -1 |> <| p_alarm_ticks := -1 |> <| p_handler := u64 (-1) |>
                         <| p_rtime := 0 |> <| p_etime := 0 |> <| p_ctime := k_ticks s |> <| p_stime := 0 |>
                         <| p_ticks_used := 0 |> <| p_queue_position := 0 |> <| p_in_queue := 0 |>
                         <| p_queue_entry := 0 |> <| p_curr_wait_time := 0 |>) e Hi' O7) as [E8 O8] end. run E8. krun.
  eexists _, D5, l5, _. split; [reflexivity|]. split; [by destruct K6; split|]. right. exists tf, r.
  split_and!; [done..|simpl in *; lia| |done|by destruct P|done|exact O8].
  apply (vm_inv_ext _ _ _ _ s6); [done..|apply (vi_ready HI6)|done].
Qed.
End Slot.
