(* ===== verification/Fork.v ===== *)
(** * Fork: theorems about fork (kernel/proc.c)

    fork's child has the parent's pages copy-on-write, a trapframe that differs
    from the parent's in a0 only, the parent's open files and directory with one
    more reference each, and becomes runnable last.  A fork that fails gives back
    all it took. *)

From S2P Require Import Prelude Params CString State Spinlock PhysMem Kalloc Vm VmInv VmMap VmLocal VmGrow VmCow VmCopy VmFree ProcBase Sleeplock Virtio Bio Blocks Bytes Log Fs Console File Proc Reap NewSpace Spawn.

(** ** References to open files *)

Definition take_ref (x : file) : file := x <| fl_ref ::= λ r, i32 (r + 1) |>.

(** One more reference for every entry of a table of open files. *)
Definition dup_all (fs : list (option nat)) (fl : list file) : list file :=
  foldl (λ fl o, match o with Some f => alter take_ref f fl | None => fl end) fl fs.

(** How often a file is open in the table. *)
Definition opened (f : nat) (fs : list (option nat)) : Z := Z.of_nat (length (filter (λ o, o = Some f) fs)).

Lemma opened_cons f o fs : opened f (o :: fs) = (if decide (o = Some f) then 1 else 0) + opened f fs.
Proof. unfold opened. rewrite filter_cons. case_decide; simpl; lia. Qed.

Lemma opened_le f fs : 0 ≤ opened f fs ≤ Z.of_nat (length fs).
Proof. unfold opened. pose proof (length_filter (λ o, o = Some f) fs). lia. Qed.

Lemma dup_all_lookup fs : ∀ fl f x, fl !! f = Some x → 0 ≤ fl_ref x → fl_ref x + opened f fs < 2 ^ 31 →
  dup_all fs fl !! f = Some (x <| fl_ref := fl_ref x + opened f fs |>).
Proof.
  induction fs as [|o fs IH]; intros fl f x Hx H0 Hb.
  { unfold opened. cbn. rewrite Hx, Z.add_0_r. by destruct x. }
  rewrite opened_cons in *. pose proof (opened_le f fs). 
  change (dup_all (o :: fs) fl) with (dup_all fs (match o with Some f => alter take_ref f fl | None => fl end)).
  destruct o as [g|]; [destruct (decide (g = f)) as [->|Hne]|].
  - rewrite decide_True in * by done. rewrite (IH _ f (take_ref x)).
    + f_equal. unfold take_ref, set; cbn. rewrite (wraps_id 32); [by rewrite Z.add_assoc|lia|]. change (2 ^ (32 - 1)) with (2 ^ 31). lia.
    + by rewrite list_lookup_alter_eq, Hx.
    + unfold take_ref, set; cbn. rewrite (wraps_id 32); [lia|lia|]. change (2 ^ (32 - 1)) with (2 ^ 31). lia.
    + unfold take_ref, set; cbn. rewrite (wraps_id 32); [lia|lia|]. change (2 ^ (32 - 1)) with (2 ^ 31). lia.
  - rewrite decide_False in * by congruence. rewrite (IH _ f x); [done| |done|done]. by rewrite list_lookup_alter_ne.
  - rewrite decide_False in * by done. by apply IH.
Qed.

Lemma dup_all_length fs : ∀ fl, length (dup_all fs fl) = length fl.
Proof. induction fs as [|[g|] fs IH]; intros fl; cbn; [done| |apply IH]. unfold dup_all in IH. by rewrite IH, length_alter. Qed.

Section Dup.
Context `{!Image} `{!ImageOK}.
Implicit Types (s t : kstate) (e : env).

Lemma filedup_run f x e s : wf_mach (k_mach s) → 0 < c_noff (cpu_of (k_mach s)) → lock_free LFtable (k_mach s) →
  f_files (k_fs s) !! f = Some x → 1 ≤ fl_ref x →
  filedup f e s = Ret f e (s <| k_fs ::= set f_files (alter take_ref f) |>).
Proof.
  intros Hw Hn Hf Hx Hr. destruct (inner_section LFtable e s Hw Hn Hf) as [Ea Er]. unfold filedup. run Ea.
  unfold fget, fset, fs_get, fs_upd. krun. change (k_fs (s <| k_mach ::= mlock LFtable |>)) with (k_fs s). rewrite Hx. krun.
  destruct (Z.ltb_spec (fl_ref x) 1); [lia|]. cbn [negb]. krun.
  rewrite bool_decide_true by (by eapply lookup_lt_Some). krun. by erewrite bind_Ret by (by apply Er).
Qed.

Definition take_iref (ip : inode) : inode := ip <| i_ref ::= λ r, i32 (r + 1) |>.

Lemma idup_run c e s : wf_mach (k_mach s) → 0 < c_noff (cpu_of (k_mach s)) → lock_free LItable (k_mach s) →
  (c < length (f_inodes (k_fs s)))%nat →
  idup c e s = Ret c e (s <| k_fs ::= set f_inodes (alter take_iref c) |>).
Proof.
  intros Hw Hn Hf Hc. destruct (inner_section LItable e s Hw Hn Hf) as [Ea Er].
  unfold idup. cbn [kn_acquire kn_release kn_set_inode kern_kstate]. run Ea. unfold fs_get, fs_upd. rewrite bind_bind, gets_bind.
  change (k_fs (s <| k_mach ::= mlock LItable |>)) with (k_fs s). krun.
  rewrite bool_decide_true by exact Hc. krun. by erewrite bind_Ret by (by apply Er).
Qed.

Lemma set_files_id s : s <| k_fs ::= set f_files (λ fl, fl) |> = s.
Proof. destruct s as [? ? ? ? ? ? ? ? ? ? ? ? ? ? [] ? ? ?]. reflexivity. Qed.

Lemma dup_files_run p i qp qi e s : wf_mach (k_mach s) → 0 < c_noff (cpu_of (k_mach s)) → lock_free LFtable (k_mach s) →
  p ≠ i → k_procs s !! p = Some qp → k_procs s !! i = Some qi → length (p_ofile qp) = NOFILE →
  p_ofile qi = replicate NOFILE None →
  (∀ f, Some f ∈ p_ofile qp → ∃ x, f_files (k_fs s) !! f = Some x ∧ 1 ≤ fl_ref x ∧ fl_ref x + Z.of_nat NOFILE < 2 ^ 31) →
  dup_files p i e s = Ret () e (s <| k_fs ::= set f_files (dup_all (p_ofile qp)) |>
                                  <| k_procs ::= alter (λ q, q <| p_ofile := p_ofile qp |>) i |>).
Proof.
  intros Hw Hn Hf Hne Hp Hi Hlen Hof Href. set (fs := p_ofile qp) in *. unfold dup_files.
  assert (∀ k j t qj, (j + k = NOFILE)%nat → k_mach t = k_mach s → k_procs t !! p = Some qp → k_procs t !! i = Some qj →
    p_ofile qj = take j fs ++ replicate k None →
    (∀ f, Some f ∈ drop j fs → ∃ x, f_files (k_fs t) !! f = Some x ∧ 1 ≤ fl_ref x ∧ fl_ref x + Z.of_nat k < 2 ^ 31) →
    foreach (seq j k) (λ i0, ofile ← pget p p_ofile;
      match ofile !! i0 with
      | Some (Some f) => f ← filedup f; pset i (λ q, q <| p_ofile ::= insert i0 (Some f) |>)
      | _ => mret ()
      end) e t =
    Ret () e (t <| k_fs ::= set f_files (dup_all (drop j fs)) |> <| k_procs ::= alter (λ q, q <| p_ofile := fs |>) i |>)) as Hloop.
  2: { apply (Hloop NOFILE 0%nat s qi); [done..| |].
       - rewrite Hof. by rewrite take_0.
       - by rewrite drop_0. }
  induction k as [|k IH]; intros j t qj Hjk Em Htp Hti Hofj Hrefj.
  { rewrite drop_ge by lia. cbn [seq foreach]. krun. change (dup_all []) with (λ fl : list file, fl). rewrite set_files_id. f_equal.
    rewrite set_procs_id; [done|]. apply (alter_noop _ _ _ qj); [done|].
    rewrite app_nil_r, take_ge in Hofj by lia. rewrite <- Hofj. by destruct qj. }
  destruct (lookup_lt_is_Some_2 fs j ltac:(lia)) as [o Ho]. cbn [seq foreach]. rewrite bind_bind.
  erewrite bind_Ret by (by apply pget_run). fold fs. rewrite Ho.
  rewrite (drop_S _ _ _ Ho) in Hrefj |- *.
  destruct o as [f|].
  - destruct (Hrefj f ltac:(by left)) as (x & Hx & H1 & H2).
    rewrite bind_bind. erewrite bind_Ret by (apply (filedup_run f x); [by rewrite Em|by rewrite Em|by rewrite Em|done|done]).
    assert (i < length (k_procs t))%nat as Hlt by (by eapply lookup_lt_Some).
    erewrite bind_Ret by (by apply pset_run).
    rewrite (IH (S j) _ (qj <| p_ofile ::= insert j (Some f) |>)).
    + f_equal. unfold set; cbn. by rewrite alter_alter.
    + lia.
    + done.
    + by rewrite k_procs_alter_ne.
    + by rewrite (k_procs_alter_eq _ _ _ qj).
    + change (p_ofile (qj <| p_ofile ::= insert j (Some f) |>)) with (<[j := Some f]> (p_ofile qj)). rewrite Hofj.
      rewrite insert_app_r_alt by (rewrite length_take; lia). rewrite length_take, Nat.min_l, Nat.sub_diag by lia. cbn.
      by rewrite (take_S_r _ _ _ Ho), <- app_assoc.
    + intros g Hg. destruct (Hrefj g ltac:(by right)) as (y & Hy & Y1 & Y2). unfold set; cbn.
      destruct (decide (f = g)) as [->|Hfg].
      * rewrite list_lookup_alter_eq, Hy. eexists. split; [done|]. unfold take_ref, set; cbn.
        rewrite (wraps_id 32); [lia|lia|]. change (2 ^ (32 - 1)) with (2 ^ 31). lia.
      * rewrite list_lookup_alter_ne by done. exists y. split; [done|lia].
  - krun. rewrite (IH (S j) t qj); [done|lia|done|done|done| |].
    + rewrite Hofj, (take_S_r _ _ _ Ho), <- app_assoc. done.
    + intros g Hg. destruct (Hrefj g ltac:(by right)) as (y & Hy & Y1 & Y2). exists y. split; [done|lia].
Qed.
End Dup.

(** ** The end of fork *)

(** The part of fork that runs once the child has its address space. *)
Abbreviation fork_tail p np sz := (
  pset np (λ q, q <| p_sz := sz |>);;
  tf ← pget p p_trapframe;
  ntf ← pget np p_trapframe;
  kmemmove ntf tf sizeof_trapframe;;
  tickets ← pget p p_tickets;
  pset np (λ q, q <| p_tickets := tickets |>);;
  mask ← pget p p_trace_mask;
  pset np (λ q, q <| p_trace_mask := mask |>);;
  tf_set ntf TF_a0 0;;
  dup_files p np;;
  cwd ← pget p p_cwd;
  cwd ← deref cwd;
  cwd ← idup cwd;
  pset np (λ q, q <| p_cwd := Some cwd |>);;
  name ← pget p p_name;
  pset np (λ q, q <| p_name := safe_copy (p_name q) name 16 |>);;
  pid ← pget np p_pid;
  release (LProc np);;
  acquire LWait;;
  pset np (λ q, q <| p_parent := Some p |>);;
  release LWait;;
  acquire (LProc np);;
  pset np (λ q, q <| p_state := RUNNABLE |>);;
  release (LProc np);;
  mret pid).

(** The trapframe of the child: the parent's, but fork returns 0. *)
Definition child_frame (ntf tf : Z) (m : memory) : memory :=
  le_store (memmove m ntf tf sizeof_trapframe) (ntf + TF_a0) 0 8.

(** The files and the directory it shares with the parent. *)
Definition shared_files (qp : proc) (c : nat) (f : fsstate) : fsstate :=
  f <| f_files ::= dup_all (p_ofile qp) |> <| f_inodes ::= alter take_iref c |>.

(** The slot of the child of process [p]. *)
Definition child (p : nat) (qp : proc) (c : nat) (q : proc) : proc :=
  q <| p_sz := p_sz qp |> <| p_tickets := p_tickets qp |> <| p_trace_mask := p_trace_mask qp |> <| p_ofile := p_ofile qp |>
    <| p_cwd := Some c |> <| p_name := safe_copy (p_name q) (p_name qp) 16 |> <| p_parent := Some p |> <| p_state := RUNNABLE |>.

Section Tail.
Context `{!Image} `{!ImageOK} {t : kstate} {p i : nat} {qp qi : proc}
  (Hne : p ≠ i) (Hp : k_procs t !! p = Some qp) (Hi : k_procs t !! i = Some qi).
Implicit Types (e : env).

(** A state on the way: the machine is [m], and memory, the files and the slot
    of the child have been changed. *)
Definition mid (m : machine) (a : memory → memory) (b : fsstate → fsstate) (g : proc → proc) : kstate :=
  KState m (a (k_mem t)) (k_freelist t) (k_refCount t) (alter g i (k_procs t)) (k_initproc t) (k_nextpid t) (k_lfsr t) (k_bit t)
    (k_ticks t) (k_queues t) (k_first t) (k_kernel_pagetable t) (k_out t) (b (k_fs t)) (k_cons t) (k_irq t) (k_started t).

Lemma mid_pset m a b g h e : pset i h e (mid m a b g) = Ret () e (mid m a b (λ q, h (g q))).
Proof.
  rewrite pset_run.
  - f_equal. unfold mid, set; cbn. by rewrite alter_alter.
  - unfold mid, set; cbn. rewrite length_alter. by eapply lookup_lt_Some.
Qed.

Lemma mid_parent {A} (f : proc → A) m a b g e : pget p f e (mid m a b g) = Ret (f qp) e (mid m a b g).
Proof. apply pget_run. unfold mid; cbn. by rewrite list_lookup_alter_ne. Qed.

Lemma mid_child {A} (f : proc → A) m a b g e : pget i f e (mid m a b g) = Ret (f (g qi)) e (mid m a b g).
Proof. apply pget_run. unfold mid; cbn. by rewrite list_lookup_alter_eq, Hi. Qed.

Lemma frame_in_ram q : page q → in_ram q sizeof_trapframe = true ∧ in_ram (q + TF_a0) 8 = true.
Proof.
  intros Hq. pose proof (page_bounds q Hq) as (B1 & B2 & B3). unfold PGSIZE in B2.
  change sizeof_trapframe with 288. change TF_a0 with 112. rewrite !in_ram_spec. lia.
Qed.

Lemma mid_move m a b g d q e : page d → page q →
  kmemmove d q sizeof_trapframe e (mid m a b g) = Ret () e (mid m (λ x, memmove (a x) d q sizeof_trapframe) b g).
Proof. intros Hd Hq. by rewrite kmemmove_run by (by apply frame_in_ram). Qed.

Lemma mid_a0 m a b g d e : page d → tf_set d TF_a0 0 e (mid m a b g) = Ret () e (mid m (λ x, le_store (a x) (d + TF_a0) 0 8) b g).
Proof. intros Hd. unfold tf_set. by rewrite st64_run by apply frame_in_ram, Hd. Qed.

Lemma mid_dup m a b g e : wf_mach m → 0 < c_noff (cpu_of m) → lock_free LFtable m → length (p_ofile qp) = NOFILE →
  p_ofile (g qi) = replicate NOFILE None →
  (∀ f, Some f ∈ p_ofile qp → ∃ x, f_files (b (k_fs t)) !! f = Some x ∧ 1 ≤ fl_ref x ∧ fl_ref x + Z.of_nat NOFILE < 2 ^ 31) →
  dup_files p i e (mid m a b g) =
  Ret () e (mid m a (λ f, b f <| f_files ::= dup_all (p_ofile qp) |>) (λ q, g q <| p_ofile := p_ofile qp |>)).
Proof.
  intros Hw Hn Hf Hl Hg Hr. rewrite (dup_files_run p i qp (g qi)); [|done..| | |done|done|done].
  - f_equal. unfold mid, set; cbn. by rewrite alter_alter.
  - unfold mid; cbn. by rewrite list_lookup_alter_ne.
  - unfold mid; cbn. by rewrite list_lookup_alter_eq, Hi.
Qed.

Lemma mid_idup c m a b g e : wf_mach m → 0 < c_noff (cpu_of m) → lock_free LItable m → (c < length (f_inodes (b (k_fs t))))%nat →
  idup c e (mid m a b g) = Ret c e (mid m a (λ f, b f <| f_inodes ::= alter take_iref c |>) g).
Proof.
  intros Hw Hn Hf Hc. by rewrite idup_run.
Qed.

Lemma mid_acquire lk m a b g e : wf_mach m → lock_free lk m → acquire lk e (mid m a b g) = Ret () e (mid (mlock lk m) a b g).
Proof. intros Hw Hf. by rewrite acquire_free. Qed.

Lemma mid_release lk m a b g e : idle m → lock_free lk m → release lk e (mid (mlock lk m) a b g) = Ret () e (mid m a b g).
Proof. intros I Hf. rewrite (release_after lk e (mid (mlock lk m) a b g) m eq_refl (id_wf _ I) Hf). by rewrite (id_settled _ I). Qed.

Ltac mid_step := erewrite bind_Ret by first
  [ apply mid_pset | apply mid_parent | apply mid_child | by apply mid_acquire | by apply mid_release ]; cbv beta.

Lemma fork_tail_run m c e : idle m → k_mach t = mlock (LProc i) m → (i < NPROC)%nat → page (p_trapframe qp) → page (p_trapframe qi) →
  length (p_ofile qp) = NOFILE → p_ofile qi = replicate NOFILE None →
  (∀ f, Some f ∈ p_ofile qp → ∃ x, f_files (k_fs t) !! f = Some x ∧ 1 ≤ fl_ref x ∧ fl_ref x + Z.of_nat NOFILE < 2 ^ 31) →
  p_cwd qp = Some c → (c < length (f_inodes (k_fs t)))%nat →
  fork_tail p i (p_sz qp) e t = Ret (p_pid qi) e (mid m (child_frame (p_trapframe qi) (p_trapframe qp)) (shared_files qp c) (child p qp c)).
Proof.
  intros I Hm Hlt Hpf Hif Hlen Hof Href Hcwd Hc. pose proof (idle_nested m i I) as [Hw Hn].
  assert (t = mid (mlock (LProc i) m) (λ a, a) (λ b, b) (λ q, q)) as ->.
  { unfold mid. rewrite list_alter_id by done. rewrite <- Hm. by destruct t. }
  assert (lock_free LFtable (mlock (LProc i) m) ∧ lock_free LItable (mlock (LProc i) m)) as [Hfl Hil].
  { split; (apply mlock_free; [done|apply I]). }
  pose proof (id_wf _ I) as Hwm. pose proof (id_wait _ I) as Hwt. pose proof (id_proc _ I i Hlt) as Hpl.
  do 3 mid_step. erewrite bind_Ret by (by apply mid_move). do 4 mid_step. erewrite bind_Ret by (by apply mid_a0).
  erewrite bind_Ret by (by apply mid_dup). mid_step. rewrite Hcwd. cbn [deref]. krun.
  erewrite bind_Ret by (by apply mid_idup). do 4 mid_step. do 7 mid_step. krun. done.
Qed.
End Tail.

(** ** Address spaces shared copy-on-write *)

Section Spaces.
Context `{!Image} `{!ImageOK}.
Implicit Types (own : Z → Z) (D M : gmap node Z) (l : list Z) (s t : kstate) (e : env).

Lemma page_protected D s q x : page q → 1 ≤ refs s q → (∀ k, D !! k ≠ Some q) → q ≤ x < q + PGSIZE → protected D s x.
Proof.
  intros Hq Hr Hn Hx t Ht Hin. destruct (decide (t = q)) as [->|Hne]; [done|].
  pose proof (page_disjoint t q Ht Hq Hne). unfold PGSIZE in *. lia.
Qed.

Lemma owned_used own D M l s q : vm_inv own D M l s → page q → 1 ≤ own q → 1 ≤ refs s q ∧ ∀ k, D !! k ≠ Some q.
Proof.
  intros HI Hq Ho. split.
  - rewrite (vi_refs HI q Hq). pose proof (cnt_nonneg D q). pose proof (cnt_nonneg M q). lia.
  - intros k Hk. destruct (table_excl HI k q Hk) as [E _]. lia.
Qed.

Lemma pages_of_size sz : 0 ≤ sz ≤ TRAPFRAME → Z.to_nat (PGROUNDUP sz / 4096) = Z.to_nat ((sz + 4095) / 4096) ∧
  Z.of_nat (Z.to_nat ((sz + 4095) / 4096)) = PGROUNDUP sz / 4096.
Proof.
  destruct frame_vals as (_ & -> & _). intros Hsz.
  rewrite PGROUNDUP_spec by (change (2 ^ 64) with 18446744073709551616; lia). rewrite Z.div_mul by lia. split; [done|zlia].
Qed.

(** After uvmcopy both spaces have the size of the old one. *)
Lemma cowed_spaces own D M l s old new sz D' M' l' s' : vm_inv own D M l s →
  cowed own D M s old new (Z.to_nat ((sz + 4095) / 4096)) D' M' l' s' → proc_space D M s old sz → proc_space D M s new 0 →
  (∀ k, k.1 = new → M !! k = None) → old ≠ new →
  proc_space D' M' s' old sz ∧ proc_space D' M' s' new sz.
Proof.
  intros HI C P Q Hun Hne. destruct (pages_of_size sz (ps_size _ _ _ _ _ P)) as [En1' En2].
  set (n := Z.to_nat ((sz + 4095) / 4096)) in *. destruct frame_vals as (F1 & F2 & F3).
  pose proof (size_below sz (ps_size _ _ _ _ _ P)) as Hb. rewrite <- En2 in Hb.
  destruct P as [P1 P2 P3 P4 P5 P6 P7]. destruct Q as [Q1 Q2 Q3 Q4 Q5 Q6 Q7].
  destruct C as [C1 C2 C3 C4 CL C5 C6 C7 C8 C9 C10]. rewrite En1' in P3. rewrite <- En2 in P4. rewrite F2 in Hb.
  assert (∀ k, k.1 ≠ new → M' !! k = M !! k) as Hold.
  { intros k Hk. apply C8. intros i Hi ->. by destruct Hk. }
  assert (∀ va, 0 ≤ va < MAXVA → va / 4096 < Z.of_nat n → ∃ i, (i < n)%nat ∧ ∀ x, leaf x va = leaf x (Z.of_nat i * 4096)) as Hin.
  { intros va Hva Hlt. exists (Z.to_nat (va / 4096)). split; [zlia|]. intros x. apply leaf_eq; [done|rewrite F3 in *; zlia|split; [done|zlia]]. }
  assert (∀ x va, x = old ∨ x = new → 0 ≤ va < MAXVA → Z.of_nat n ≤ va / 4096 → pte_at (k_mem s') x va = pte_at (k_mem s) x va) as Hout.
  { intros x va Hx Hva Hge. rewrite C10 by (done || by destruct Hx as [->| ->]). unfold cow_range.
    destruct (Z.ltb_spec (va / 4096) (Z.of_nat n)); [lia|]. by rewrite andb_false_r. }
  assert (TRAMPOLINE / 4096 = 67108863 ∧ TRAPFRAME / 4096 = 67108862) as [G1 G2] by done.
  split; (split; [by eapply lookup_weaken|done|..]).
  - rewrite En1'. intros i Hi. rewrite Hold by done. by apply P3.
  - rewrite <- En2. intros k Hk Hs. rewrite Hold in Hs by congruence. by apply P4.
  - rewrite Hout; [done|by left|by rewrite F1, F3|rewrite G1; zlia].
  - rewrite Hout; [done|by left|by rewrite F2, F3|rewrite G2; zlia].
  - intros va Hva A B HM. rewrite Hold in HM by done. destruct (Z.lt_ge_cases (va / 4096) (Z.of_nat n)) as [Hlt|Hge].
    + destruct (Hin va Hva Hlt) as (i & Hi & El). rewrite El in HM. destruct (P3 i ltac:(lia)) as [pa Hpa]. rewrite Z.add_0_l in Hpa. congruence.
    + rewrite Hout by (done || by left). by apply P7.
  - rewrite En1'. intros i Hi. rewrite Z.add_0_l, C9 by lia. specialize (P3 i ltac:(lia)). by rewrite Z.add_0_l in P3.
  - rewrite <- En2. intros k Hk Hs. destruct (decide (k ∈ (λ i : nat, leaf new (Z.of_nat i * 4096)) <$> seq 0 n)) as [Hi|Hi].
    + apply list_elem_of_fmap in Hi as (i & -> & Hi%elem_of_seq). exists (Z.of_nat i). split; [lia|done].
    + rewrite C8 in Hs; [by rewrite Hun in Hs by done; destruct Hs|]. intros i Hi' ->. apply Hi. apply list_elem_of_fmap.
      exists i. split; [done|]. apply elem_of_seq. lia.
  - rewrite Hout; [done|by right|by rewrite F1, F3|rewrite G1; zlia].
  - rewrite Hout; [done|by right|by rewrite F2, F3|rewrite G2; zlia].
  - intros va Hva A B HM. destruct (Z.lt_ge_cases (va / 4096) (Z.of_nat n)) as [Hlt|Hge].
    + destruct (Hin va Hva Hlt) as (i & Hi & El). rewrite El, C9 in HM by done. destruct (P3 i ltac:(lia)) as [pa Hpa].
      rewrite Z.add_0_l in Hpa. congruence.
    + rewrite Hout by (done || by right). apply Q7; [done..|]. by apply Hun.
Qed.
End Spaces.

(** ** fork *)

(** The number of pages of a process. *)
Definition pages (qp : proc) : nat := Z.to_nat ((p_sz qp + 4095) / 4096).

(** Process [p], whose slot is [qp] and whose directory is inode [c], calls
    fork: it runs on this hart without a lock, owns a trapframe and an address
    space, has its files open, and unused slots of the table are empty. *)
Record calls_fork `{!Image} (own : Z → Z) (D M : gmap node Z) (p : nat) (qp : proc) (c : nat) (s : kstate) : Prop := CallsFork {
  cf_wf : wf_mach (k_mach s);
  cf_idle : idle (settle (k_mach s));
  cf_proc : c_proc (cpu_of (k_mach s)) = Some p;
  cf_len : length (k_procs s) = NPROC;
  cf_self : k_procs s !! p = Some qp;
  cf_state : p_state qp ≠ UNUSED;
  cf_memory : owns_memory own D M s qp;
  cf_table : length (p_ofile qp) = NOFILE;
  cf_files : ∀ f, Some f ∈ p_ofile qp → ∃ x, f_files (k_fs s) !! f = Some x ∧ 1 ≤ fl_ref x ∧ fl_ref x + Z.of_nat NOFILE < 2 ^ 31;
  cf_cwd : p_cwd qp = Some c;
  cf_inode : (c < length (f_inodes (k_fs s)))%nat;
  cf_empty : ∀ i q, k_procs s !! i = Some q → p_state q = UNUSED → empty_slot q;
  cf_limit : ∀ t, page t → refs s t + Z.of_nat (pages qp) + 1 < 2 ^ 31 - 1;
}.

(** fork has failed: the same pages are free, no other address space has
    changed, and the parent's is the same but for the copy-on-write marks. *)
Record fork_failed `{!Image} (own : Z → Z) (D M : gmap node Z) (qp : proc) (l : list Z) s s' : Prop := ForkFailed {
  ff_memory : ∃ l', vm_inv own D M l' s' ∧ ∀ t, page t → t ∈ l' ↔ t ∈ l;
  ff_spaces : ∀ x va, 0 ≤ va < MAXVA → D !! (x, []) = Some x →
    pte_at (k_mem s') x va = pte_at (k_mem s) x va ∨
    x = p_pagetable qp ∧ pte_at (k_mem s') x va = cow_pte (pte_at (k_mem s) x va);
  ff_reason : (∀ q, q ∈ k_procs s → p_state q ≠ UNUSED) ∧ others s' = others s ∨
    (length l < 6 + 2 * pages qp)%nat ∧ ∃ i q, empty_slot q ∧ slot_changed i q s s';
}.

(** fork has made process [q'] in slot [i], with trapframe [tf] and page table
    [r]. *)
Record forked `{!Image} (own : Z → Z) (D M : gmap node Z) (p : nat) (qp : proc) (c i : nat) (q' : proc) (tf r : Z) s s' : Prop := Forked {
  fd_slot : ∃ q, k_procs s !! i = Some q ∧ p_state q = UNUSED ∧
    q' = child p qp c (equipped (k_nextpid s) tf r (k_ticks s) q);
  fd_others : others s' = others (s <| k_nextpid := i32 (k_nextpid s + 1) |> <| k_procs ::= <[i := q']> |>
                                    <| k_fs ::= shared_files qp c |>);
  fd_files : ∀ f x, Some f ∈ p_ofile qp → f_files (k_fs s) !! f = Some x →
    f_files (k_fs s') !! f = Some (x <| fl_ref := fl_ref x + opened f (p_ofile qp) |>);
  fd_new : page tf ∧ refs s tf = 0 ∧ page r ∧ refs s r = 0;
  fd_memory : ∃ D' M' l', vm_inv (addown own tf 1) D' M' l' s' ∧ D ⊆ D' ∧ (∀ k, k.1 ≠ r → M' !! k = M !! k) ∧
    (∀ j, (j < pages qp)%nat → M' !! leaf r (Z.of_nat j * 4096) = M !! leaf (p_pagetable qp) (Z.of_nat j * 4096)) ∧
    owns_memory (addown own tf 1) D' M' s' qp ∧ owns_memory (addown own tf 1) D' M' s' q';
  fd_frame : (∀ j, 0 ≤ j < sizeof_trapframe → j < TF_a0 ∨ TF_a0 + 8 ≤ j → k_mem s' (tf + j) = k_mem s (p_trapframe qp + j)) ∧
    le_load (k_mem s') (tf + TF_a0) 8 = 0;
  fd_child : ∀ va, 0 ≤ va < Z.of_nat (pages qp) * 4096 →
    pte_at (k_mem s') r va = cow_pte (pte_at (k_mem s) (p_pagetable qp) va) ∧
    uread (k_mem s') r va = uread (k_mem s) (p_pagetable qp) va;
  fd_parent : ∀ va, 0 ≤ va < Z.of_nat (pages qp) * 4096 →
    pte_at (k_mem s') (p_pagetable qp) va = cow_pte (pte_at (k_mem s) (p_pagetable qp) va) ∧
    uread (k_mem s') (p_pagetable qp) va = uread (k_mem s) (p_pagetable qp) va;
  fd_spaces : ∀ x va, 0 ≤ va < MAXVA → D !! (x, []) = Some x → x ≠ p_pagetable qp →
    pte_at (k_mem s') x va = pte_at (k_mem s) x va;
}.

Section Fork.
Context `{!Image} `{!ImageOK}.
Implicit Types (own : Z → Z) (D M : gmap node Z) (l : list Z) (s : kstate) (e : env).

Lemma same_free own D M l s l' s' t : vm_inv own D M l s → vm_inv own D M l' s' → page t → t ∈ l' ↔ t ∈ l.
Proof.
  intros HI HI' Ht. rewrite (ki_free _ _ (vi_kmem HI') t Ht), (ki_free _ _ (vi_kmem HI) t Ht).
  by rewrite (refs_same own D M l s l' s' t HI HI' Ht).
Qed.

(** The parent as it is found. *)
Lemma fork_enter own D M l p qp c e s : calls_fork own D M p qp c s → vm_inv own D M l s →
  (∀ {A} (k : option nat → K A), (p ← myproc; k p) e s = k (Some p) e (s <| k_mach ::= settle |>)) ∧
  vm_inv own D M l (s <| k_mach ::= settle |>).
Proof.
  intros C HI. split.
  - intros A k. run (myproc_run e s (cf_wf _ _ _ _ _ _ _ C)). by rewrite (cf_proc _ _ _ _ _ _ _ C).
  - apply (vm_inv_ext _ _ _ _ s); [done..| |done]. split; [by apply wf_settle, C|by apply C].
Qed.

(** ** The child's memory *)

(** From the moment the child has a trapframe and an empty address space. *)
Section Copy.
Context {own D M l s pt sz tf rt D5 l5 s5} (Hnn : nonneg own) (HI : vm_inv own D M l s)
  (K5 : keeps D s D5 s5) (X : extends D M rt D5) (HI5 : vm_inv (addown own tf 1) D5 M l5 s5) (P5 : proc_space D5 M s5 rt 0)
  (Htf : page tf) (Hz : refs s tf = 0) (P : proc_space D M s pt sz).

#[local] Abbreviation n := (Z.to_nat ((sz + 4095) / 4096)).

Lemma copy_apart : pt ≠ rt ∧ D5 !! (pt, []) = Some pt.
Proof.
  pose proof (ps_root _ _ _ _ _ P) as Hr. split; [|by eapply lookup_weaken, (kp_sub _ _ _ _ K5)].
  intros E. rewrite E in Hr. by rewrite (xt_fresh _ _ _ _ X) in Hr.
Qed.

Lemma copy_nonneg : nonneg (addown own tf 1).
Proof. intros y. specialize (Hnn y). unfold addown. case_decide; lia. Qed.

Lemma copy_refs t : page t → refs s5 t ≤ refs s t + 1.
Proof.
  intros Ht. rewrite (vi_refs HI5 t Ht). pose proof (ki_refs _ _ (vi_kmem HI) t Ht).
  destruct (decide (cnt D5 t = 0)) as [Hc|Hc].
  - rewrite Hc, (vi_refs HI t Ht). pose proof (cnt_nonneg D t). unfold addown. case_decide; lia.
  - apply cnt_ex in Hc as [k Hk]. pose proof (table_refs HI5 k t Hk) as E. rewrite (vi_refs HI5 t Ht) in E. lia.
Qed.

Lemma copy_old j : (j < n)%nat → is_Some (M !! leaf pt (Z.of_nat j * 4096)).
Proof.
  intros Hj. destruct (pages_of_size sz (ps_size _ _ _ _ _ P)) as [En _]. pose proof (ps_all _ _ _ _ _ P) as HA.
  rewrite En in HA.  specialize (HA j Hj). by rewrite Z.add_0_l in HA.
Qed.

Lemma copy_below j : (j < n)%nat → 0 ≤ Z.of_nat j * 4096 < MAXVA ∧ Z.of_nat j * 4096 / 4096 < TRAPFRAME / 4096.
Proof.
  intros Hj. destruct (pages_of_size sz (ps_size _ _ _ _ _ P)) as [_ En]. 
  pose proof (size_below sz (ps_size _ _ _ _ _ P)) as Hb. destruct frame_vals as (F1 & F2 & F3). rewrite F2, F3 in *. zlia.
Qed.

Lemma copy_new j : (j < n)%nat → pte_at (k_mem s5) rt (Z.of_nat j * 4096) = 0.
Proof.
  intros Hj. destruct (copy_below j Hj) as [Hb Ht]. assert (TRAPFRAME / 4096 < TRAMPOLINE / 4096) by done.
  apply (ps_clean _ _ _ _ _ P5); [lia|lia|lia|]. by apply X.
Qed.

(** The pages copied, or not enough memory. *)
Lemma copy_run e : (∀ t, page t → refs s t + Z.of_nat n + 1 < 2 ^ 31 - 1) →
  ∃ res s', uvmcopy pt rt sz e s5 = Ret res e s' ∧ mem_only s5 s' ∧ (∀ x, protected D s x → k_mem s' x = k_mem s x) ∧
    (res = 0 ∧ (∃ D' M' l', cowed (addown own tf 1) D5 M s5 pt rt n D' M' l' s') ∨
     res = -1 ∧ (length l5 < 2 * n)%nat ∧ cow_failed (addown own tf 1) D5 M s5 pt rt s').
Proof.
  intros Hlim. destruct copy_apart as [Hne Hpt]. pose proof (ps_size _ _ _ _ _ P) as Hsz. destruct frame_vals as (F1 & F2 & F3).
  destruct (uvmcopy_run (addown own tf 1) D5 M l5 s5 pt rt sz e copy_nonneg HI5 Hpt (ps_root _ _ _ _ _ P5) Hne)
    as (res & s' & E & Ho & Hm & Hres).
  - rewrite F2, F3 in *. lia.
  - exact copy_old.
  - exact copy_new.
  - intros t Ht. specialize (Hlim t Ht). pose proof (copy_refs t Ht). lia.
  - exists res, s'. split_and!; [done|done| |done]. intros x Hx. rewrite Hm by (by eapply keeps_protected). by apply (kp_mem _ _ _ _ K5).
Qed.

(** After a failed copy the child is taken apart. *)
Lemma copy_undo i q5 t e : idle (k_mach s) → (i < NPROC)%nat → length (k_procs s) = NPROC → mem_only (in_slot s i q5) s5 →
  p_trapframe q5 = tf ∧ p_pagetable q5 = rt ∧ p_sz q5 = 0 ∧ p_ofile q5 = replicate NOFILE None → mem_only s5 t → (∀ x, protected D s x → k_mem t x = k_mem s x) → cow_failed (addown own tf 1) D5 M s5 pt rt t →
  ∃ l' s', (freeproc i;; release (LProc i);; mret (-1)) e t = Ret (-1) e s' ∧ k_mach s' = k_mach s ∧ vm_inv own D M l' s' ∧
    (∀ x, protected D s x → k_mem s' x = k_mem s x) ∧
    (∀ x va, 0 ≤ va < MAXVA → D !! (x, []) = Some x → pte_at (k_mem s') x va = pte_at (k_mem s) x va ∨
       x = pt ∧ pte_at (k_mem s') x va = cow_pte (pte_at (k_mem s) x va)) ∧
    ∃ q, empty_slot q ∧ slot_changed i q s s'.
Proof.
  intros I Hi Hlen O5 Eq5 Ho Hm ((D' & l' & HI' & Hsub & Hnew & Hroot & Hloc) & Hoth & Hold). destruct copy_apart as [Hne Hpt].
  destruct Eq5 as (Q1 & Q2 & Q3 & Q4). destruct frame_vals as (F1 & F2 & F3).
  assert (mem_only (in_slot s i q5) t) as Ot by (eapply mem_only_trans; [by apply idle_nested|exact O5|exact Ho]).
  pose proof (in_slot_lookup s i q5 t ltac:(by rewrite Hlen) Ot) as Hq.
  assert (extends D M rt D') as X' by (destruct X as [X1 X2 X3 X4]; split; [done|done|intros k Hk; by rewrite Hloc, X3|by rewrite Hroot]).
  destruct (extends_spare _ _ _ _ X') as [ED EM].
  assert (owns_memory (addown own tf 1) D' M t q5) as HO.
  { split; rewrite ?Q1, ?Q2, ?Q3; [split; [done|unfold addown; rewrite decide_True by done; specialize (Hnn tf); lia]|].
    pose proof (ps_root _ _ _ _ _ P5) as Hr5. destruct P5 as [A1 A2 A3 A4 A5 A6 A7]. split; try done.
    - by rewrite Hroot.
    - rewrite Hoth; [done|by rewrite F1, F3|done|done].
    - rewrite Hoth; [done|by rewrite F2, F3|done|done].
    - intros va Hva B1 B2 B3. rewrite Hoth by done. by apply A7. }
  destruct (freeproc_run (addown own tf 1) D' M l' t i q5 e copy_nonneg HI' Hq HO) as (l2 & s2 & E & [R1 R2 R3 R4]).
  rewrite Q1, Q2 in *. rewrite ED, EM, addown_cancel in R1. 
  destruct (in_slot_pset s i q5 t freed_proc e ltac:(by rewrite Hlen) Ot) as [_ Of].
  assert (mem_only (in_slot s i (freed_proc q5)) s2) as O2 by (eapply mem_only_trans; [by apply idle_nested|exact Of|exact R2]).
  pose proof (in_slot_mach _ _ _ _ I O2) as Em.
  exists l2, (s2 <| k_mach := k_mach s |>). split_and!.
  - run E. by run (release_slot i e s2 (k_mach s) I Em Hi).
  - done.
  - apply (vm_inv_ext _ _ _ _ s2); [done..| |done]. split; apply I.
  - intros x Hx. change (k_mem s2 x = k_mem s x). rewrite R4; [by apply Hm|]. intros y Hy Hin. destruct (Hx y Hy Hin) as [Hy1 Hy2].
    split; [by rewrite (refs_same own D M l s l2 s2 y HI R1 Hy)|]. intros k Hk. pose proof (kp_refs _ _ _ _ K5 y Hy Hy1).
    apply Hnew in Hk as [Hk|]; [|lia]. apply (kp_new _ _ _ _ K5) in Hk as [Hk|]; [by apply (Hy2 k)|lia].
  - intros x va Hva Hx. 
    change (pte_at (k_mem s2) x va = pte_at (k_mem s) x va ∨ x = pt ∧ pte_at (k_mem s2) x va = cow_pte (pte_at (k_mem s) x va)).
    assert (x ≠ rt) as Hxr by (intros ->; by rewrite (xt_fresh _ _ _ _ X) in Hx).
    assert (D5 !! (x, []) = Some x) as Hx5 by (by eapply lookup_weaken, (kp_sub _ _ _ _ K5)).
    rewrite (R3 x va Hxr Hva) by (by rewrite Hroot). rewrite <- (kp_pte _ _ _ _ K5 x va Hva Hx).
    destruct (decide (x = pt)) as [->|Hxp]; [|left; by apply Hoth]. destruct (Hold va Hva); [by left|by right].
  - exists (freed_proc q5). split; [by split|]. exact (in_slot_done s i _ s2 O2).
Qed.

(** After the copy and the write to the child's trapframe. *)
Section Done.
Context {ptf D' M' l' t s'}
  (Hptf : page ptf) (Hown : 1 ≤ own ptf)
  (Hm : ∀ x, protected D s x → k_mem t x = k_mem s x) (C : cowed (addown own tf 1) D5 M s5 pt rt n D' M' l' t)
  (Em : k_mem s' = child_frame tf ptf (k_mem t)) (Ef : k_freelist s' = k_freelist t) (Er : k_refCount s' = k_refCount t)
  (Hk : kmem_ready s').

Lemma frame_outside x : x < tf ∨ tf + PGSIZE ≤ x → child_frame tf ptf (k_mem t) x = k_mem t x.
Proof.
  unfold PGSIZE. intros Hx. unfold child_frame. change TF_a0 with 112. change sizeof_trapframe with 288.
  rewrite le_store_other by lia. rewrite memmove_spec by (change (2 ^ 32) with 4294967296; lia).
  destruct (Z.leb_spec tf x), (Z.ltb_spec x (tf + 288)); cbn [andb]; lia || done.
Qed.

Lemma done_inv : vm_inv (addown own tf 1) D' M' l' s' ∧
  ∀ x va, 0 ≤ va → D' !! (x, []) = Some x → pte_at (k_mem s') x va = pte_at (k_mem t) x va.
Proof.
  pose proof (cw_inv _ _ _ _ _ _ _ _ _ _ _ C) as HI'.
  destruct (owned_used _ _ _ _ _ tf HI' Htf) as [Hu Hn]; [unfold addown; rewrite decide_True by done; specialize (Hnn tf); lia|].
  destruct (vm_inv_data _ D' M' l' t tf (child_frame tf ptf) HI' Htf Hu Hn) as [HI2 Hp]; [intros x Hx; by apply frame_outside|].
  split; [|intros x va Hva Hx; rewrite Em; by apply Hp]. by apply (vm_inv_ext _ _ _ _ (t <| k_mem ::= child_frame tf ptf |>)).
Qed.

Lemma done_mem x : protected D s x → k_mem s' x = k_mem s x.
Proof.
  intros Hx. rewrite Em, frame_outside; [by apply Hm|].
  destruct (Z.le_gt_cases tf x), (Z.lt_ge_cases x (tf + PGSIZE)); try lia. destruct (Hx tf Htf ltac:(lia)). lia.
Qed.

Lemma done_frame : (∀ j, 0 ≤ j < sizeof_trapframe → j < TF_a0 ∨ TF_a0 + 8 ≤ j → k_mem s' (tf + j) = k_mem s (ptf + j)) ∧
  le_load (k_mem s') (tf + TF_a0) 8 = 0.
Proof.
  rewrite Em. unfold child_frame. change TF_a0 with 112. change sizeof_trapframe with 288. split.
  - intros j Hj Ho. rewrite le_store_other by lia. rewrite memmove_spec by (change (2 ^ 32) with 4294967296; lia).
    destruct (Z.leb_spec tf (tf + j)), (Z.ltb_spec (tf + j) (tf + 288)); try lia. cbn [andb].
    replace (ptf + (tf + j - tf)) with (ptf + j) by lia. apply Hm. destruct (owned_used own D M l s ptf HI Hptf Hown) as [Hu Hn].
    apply (page_protected D s ptf); [done..|]. unfold PGSIZE. lia.
  - by rewrite le_load_store.
Qed.

Lemma done_spaces : proc_space D' M' s' pt sz ∧ proc_space D' M' s' rt sz.
Proof.
  destruct copy_apart as [Hne Hpt]. destruct done_inv as [_ Hp]. destruct frame_vals as (F1 & F2 & F3).
  pose proof (ps_root _ _ _ _ _ P5) as Hrt.
  assert (proc_space D5 M s5 pt sz) as P5'.
  { destruct P as [A1 A2 A3 A4 A5 A6 A7]. split; try done.
    - rewrite (kp_pte _ _ _ _ K5); [done|by rewrite F1, F3|done].
    - rewrite (kp_pte _ _ _ _ K5); [done|by rewrite F2, F3|done].
    - intros va Hva B1 B2 B3. rewrite (kp_pte _ _ _ _ K5) by done. by apply A7. }
  destruct (cowed_spaces _ D5 M l5 s5 pt rt sz D' M' l' t HI5 C P5' P5 (xt_unmapped _ _ _ _ X) Hne) as [Q1 Q2].
  assert (∀ x z, proc_space D' M' t x z → proc_space D' M' s' x z) as Hext; [|split; by apply Hext].
  intros x z [A1 A2 A3 A4 A5 A6 A7]. split; try done.
  - rewrite Hp by (done || by rewrite F1). done.
  - rewrite Hp by (done || by rewrite F2). done.
  - intros va Hva B1 B2 B3. rewrite Hp by (done || lia). by apply A7.
Qed.

Lemma done_pte x va : 0 ≤ va < MAXVA → D5 !! (x, []) = Some x →
  pte_at (k_mem s') x va = cow_range pt rt (Z.of_nat n) (pte_at (k_mem s5)) x va.
Proof.
  intros Hva Hx. destruct done_inv as [_ Hp]. rewrite Hp; [|lia|by rewrite (cw_roots _ _ _ _ _ _ _ _ _ _ _ C)].
  by apply (cw_pte _ _ _ _ _ _ _ _ _ _ _ C).
Qed.

(** Both processes see the bytes the parent saw. *)
Lemma done_shared x va : x = pt ∨ x = rt → 0 ≤ va < Z.of_nat n * 4096 →
  pte_at (k_mem s') x va = cow_pte (pte_at (k_mem s) pt va) ∧ uread (k_mem s') x va = uread (k_mem s) pt va.
Proof.
  intros Hx Hva. destruct copy_apart as [Hne Hpt]. pose proof (ps_root _ _ _ _ _ P5) as Hrt.
  destruct (copy_below (Z.to_nat (va / 4096)) ltac:(zlia)) as [Hb _]. rewrite Z2Nat.id in Hb by zlia.
  assert (va < MAXVA) as Hmax by (destruct frame_vals as (_ & _ & F3); rewrite F3 in *; zlia).
  assert (pte_at (k_mem s') x va = cow_pte (pte_at (k_mem s) pt va)) as Ep.
  { rewrite done_pte by (lia || by destruct Hx as [->| ->]). unfold cow_range.
    rewrite (kp_pte _ _ _ _ K5) by (lia || by apply P). destruct (Z.ltb_spec (va / 4096) (Z.of_nat n)); [|zlia].
    destruct Hx as [->| ->]; by rewrite Z.eqb_refl, ?orb_true_r. }
  split; [done|]. unfold uread. rewrite Ep.
  destruct (copy_old (Z.to_nat (va / 4096)) ltac:(zlia)) as [pa Hpa]. rewrite Z2Nat.id in Hpa by zlia.
  assert (leaf pt va = leaf pt (va / 4096 * 4096)) as El by (apply leaf_eq; [lia|lia|split; [done|zlia]]). rewrite <- El in Hpa.
  destruct (leaf_owned own D M l s pt va pa HI (ps_root _ _ _ _ _ P) ltac:(lia) Hpa) as (_ & _ & Hg & Hpg & Hrf & Hnt).
  rewrite (good_pte_pa _ _ Hg), (good_pte_pa _ _ (good_pte_cow _ _ Hg)). apply done_mem.
  apply (page_protected D s pa); [done..|]. unfold PGSIZE. pose proof (Z.mod_pos_bound va 4096). lia.
Qed.
End Done.
End Copy.

Lemma mid_others (s : kstate) i q (t : kstate) m a b g : (i < length (k_procs s))%nat → mem_only (in_slot s i q) t →
  others (mid (t := t) (i := i) m a b g) =
  others (s <| k_nextpid := i32 (k_nextpid s + 1) |> <| k_procs ::= <[i := g q]> |> <| k_fs ::= b |>).
Proof.
  intros Hi [_ Ho]. unfold others, mid, in_slot, set in *; cbn in *. injection Ho as E1 E2 E3 E4 E5 E6 E7 E8 E9 E10 E11 E12 E13.
  rewrite E1, E2, E3, E4, E5, E6, E7, E8, E9, E10, E11, E12, E13. do 12 f_equal.
  rewrite (alter_is_insert g i _ q) by (by apply list_lookup_insert_eq). by rewrite list_insert_insert_eq.
Qed.

(** What the child and the state are when fork has succeeded. *)
Lemma fork_made own D M l p qp c i q tf r D5 l5 s5 t D' M' l' s (s0 := s <| k_mach ::= settle |>)
  (q5 := equipped (k_nextpid s0) tf r (k_ticks s0) q) :
  calls_fork own D M p qp c s → nonneg own → vm_inv own D M l s0 → k_procs s !! i = Some q → p_state q = UNUSED →
  keeps D s0 D5 s5 → extends D M r D5 → vm_inv (addown own tf 1) D5 M l5 s5 → proc_space D5 M s5 r 0 →
  page tf → refs s0 tf = 0 → page r → mem_only (in_slot s0 i q5) t → k_fs t = k_fs s →
  (∀ x, protected D s0 x → k_mem t x = k_mem s0 x) →
  cowed (addown own tf 1) D5 M s5 (p_pagetable qp) r (pages qp) D' M' l' t →
  forked own D M p qp c i (child p qp c q5) tf r s
    (mid (t := t) (i := i) (k_mach s0) (child_frame tf (p_trapframe qp)) (shared_files qp c) (child p qp c)).
Proof.
  intros [C1 C2 C3 C4 C5 C6 [[Hptf Hown] P] C8 C9 C10 C11 C12 C13] Hnn HI Hq Hu K5 X HI5 P5 Htf Hz Hr Ot' Efs Hm Hc.
  change (idle (k_mach s0)) in C2. assert (i < length (k_procs s0))%nat as Hlt by (by eapply lookup_lt_Some).
  assert (proc_space D M s0 (p_pagetable qp) (p_sz qp)) as P0 by (destruct P; by split).
  set (s' := mid _ _ _ _). assert (kmem_ready s') as Hk by (split; apply C2).
  split.
  - by exists q.
  - by apply (mid_others s0 i q5).
  - intros f x Hf Hx. destruct (C9 f Hf) as (y & Hy & Y1 & Y2). rewrite Hx in Hy. injection Hy as <-.
    change (f_files (k_fs s')) with (dup_all (p_ofile qp) (f_files (k_fs t))). rewrite Efs.
    pose proof (opened_le f (p_ofile qp)). apply dup_all_lookup; [done|lia|lia].
  - split_and!; [done|done|done|]. destruct (kp_new _ _ _ _ K5 (r, []) r (xt_root _ _ _ _ X)) as [E|]; [|done].
    by rewrite (xt_fresh _ _ _ _ X) in E.
  - destruct (done_inv Hnn Htf Hc (s' := s') eq_refl eq_refl eq_refl Hk) as [HI' _].
    destruct (done_spaces Hnn K5 X HI5 P5 Htf P0 Hc (s' := s') eq_refl eq_refl eq_refl Hk) as [S1 S2].
    exists D', M', l'. destruct Hc as [B1 B2 B3 B4 BL B5 B6 B7 B8 B9 B10]. split_and!.
    + done.
    + transitivity D5; [apply K5|done].
    + intros k Hkr. apply B8. intros j Hj ->. by destruct Hkr.
    + done.
    + split; [split; [done|]|done]. unfold addown. case_decide; lia.
    + split; [split; [done|]|done]. change (p_trapframe (child p qp c q5)) with tf. unfold addown. rewrite decide_True by done.
      specialize (Hnn tf). lia.
  - by apply (done_frame HI Hptf Hown Hm (s' := s') eq_refl).
  - intros va Hva. by apply (done_shared Hnn HI K5 X P5 Htf Hz P0 Hm Hc (s' := s') eq_refl eq_refl eq_refl Hk); [right|].
  - intros va Hva. by apply (done_shared Hnn HI K5 X P5 Htf Hz P0 Hm Hc (s' := s') eq_refl eq_refl eq_refl Hk); [left|].
  - intros x va Hva Hx Hxp. assert (x ≠ r) as Hxr by (intros ->; by rewrite (xt_fresh _ _ _ _ X) in Hx).
    rewrite (done_pte Hnn Htf Hc (s' := s') eq_refl eq_refl eq_refl Hk x va Hva) by (by eapply lookup_weaken, (kp_sub _ _ _ _ K5)).
    unfold cow_range. destruct (Z.eqb_spec x (p_pagetable qp)), (Z.eqb_spec x r); try done. cbn [orb andb].
    by apply (kp_pte _ _ _ _ K5).
Qed.

(** ** The theorem *)

(** C11: fork, called by a process that holds no lock, returns with the locks as
    they were and no byte in use changed.  Either it makes a process: the child
    is RUNNABLE in an unused slot, with the parent's size, files, directory,
    name and trace mask, a trapframe that differs from the parent's in a0 only,
    which is 0, and an address space in which it sees the bytes the parent sees,
    in the same physical pages, now read-only and copy-on-write for both; every
    open file has one more reference per descriptor; the pid is returned.  Or it
    returns -1: there was no unused slot, or fewer free pages than the child
    needs, and everything the child got is free again. *)
Theorem fork_correct own D M l p qp c e s : calls_fork own D M p qp c s → nonneg own → vm_inv own D M l s →
  ∃ res s', fork e s = Ret res e s' ∧ k_mach s' = settle (k_mach s) ∧ (∀ x, protected D s x → k_mem s' x = k_mem s x) ∧
    (res = -1 ∧ fork_failed own D M qp l s s' ∨
     res = k_nextpid s ∧ ∃ i q' tf r, forked own D M p qp c i q' tf r s s').
Proof.
  intros C Hnn HI0. destruct (fork_enter own D M l p qp c e s C HI0) as [Eenter HI].
  pose proof C as [C1 C2 C3 C4 C5 C6 C7 C8 C9 C10 C11 C12 C13]. destruct C7 as [[Hptf Hown] P].
  unfold fork. rewrite Eenter. set (s0 := s <| k_mach ::= settle |>) in *. change (idle (k_mach s0)) in C2.
  destruct (list_find (λ q, unused q = true) (k_procs s0)) as [[i q]|] eqn:Hfind.
  2: { exists (-1), s0. assert (allocproc e s0 = Ret None e s0) as Ea.
       { unfold allocproc. by erewrite bind_Ret by (rewrite find_unused_run, Hfind by done; reflexivity). }
       run Ea. split_and!; [done|done|done|left; split; [done|]]. split; [|by left|].
       - exists l. split; [done|]. done.
       - left. split; [|done]. intros q Hq Hu. apply list_find_None in Hfind. rewrite Forall_forall in Hfind.
         apply (Hfind q Hq). unfold unused. by apply bool_decide_eq_true. }
  apply list_find_Some in Hfind as Hf. destruct Hf as (Hq & Hu & _). unfold unused in Hu. apply bool_decide_eq_true in Hu.
  assert (i < length (k_procs s0))%nat as Hlt by (by eapply lookup_lt_Some). assert (i < NPROC)%nat as Hi by (by rewrite <- C4).
  assert (p ≠ i) as Hne by (intros ->; change (k_procs s0) with (k_procs s) in Hq; congruence).
  destruct (allocproc_run own D M l s0 i q e Hnn HI C2 C4 Hfind (C12 i q Hq Hu))
    as (res & D5 & l5 & s5 & Ea & K5 & [(-> & -> & Hl & HI5 & Em & q' & Hq' & Hs)|(tf & r & -> & Htf & Hz & Hr & Hl & HI5 & X & P5 & N & O5)]); run Ea.
  { exists (-1), s5. split_and!; [done|done|apply K5|left; split; [done|]]. split.
    - exists l5. split; [done|]. intros t. by apply (same_free own D M l s0 l5 s5).
    - left. by apply (kp_pte _ _ _ _ K5).
    - right. split; [lia|]. by exists i, q'. }
  set (q5 := equipped (k_nextpid s0) tf r (k_ticks s0) q) in *. destruct (C12 i q Hq Hu) as [_ Q2 Q3 Q4 Q5].
  assert (p_trapframe q5 = tf ∧ p_pagetable q5 = r ∧ p_sz q5 = 0 ∧ p_ofile q5 = replicate NOFILE None) as Eq5 by done.
  assert (k_procs s5 = <[i := q5]> (k_procs s)) as Eps by (destruct O5 as [_ Ho]; unfold others in Ho; by simplify_eq).
  pose proof (in_slot_lookup s0 i q5 s5 Hlt O5) as Hi5.
  assert (k_procs s5 !! p = Some qp) as Hp5 by (by rewrite Eps, list_lookup_insert_ne).
  cbn [deref]. krun. do 3 (erewrite bind_Ret by (by apply pget_run)). change (p_pagetable q5) with r.
  assert (proc_space D M s0 (p_pagetable qp) (p_sz qp)) as P0 by (destruct P; by split).
  destruct (copy_run Hnn HI K5 X HI5 P5 P0 e C13) as (res & t & Ec & Ot & Hm & Hres). run Ec.
  destruct Hres as [[-> (D' & M' & l' & Hc)]|(-> & Hl5 & Hf)]; cbn [Z.ltb Z.compare].
  2: { destruct (copy_undo Hnn HI K5 X P5 Htf P0 i q5 t e C2 Hi C4 O5 Eq5 Ot Hm Hf) as (l' & s' & Eu & A1 & A2 & A3 & A4 & q' & A5 & A6).
       exists (-1), s'. split_and!; [exact Eu|done|done|left; split; [done|]]. split.
       - exists l'. split; [done|]. intros y. by apply (same_free own D M l s0 l' s').
       - done.
       - right. split; [unfold pages; lia|]. by exists i, q'. }
  assert (mem_only (in_slot s0 i q5) t) as Ot' by (eapply mem_only_trans; [by apply idle_nested|exact O5|exact Ot]).
  assert (k_fs t = k_fs s) as Efs by (destruct Ot' as [_ Ho]; unfold others in Ho; by simplify_eq).
  assert (k_procs t = <[i := q5]> (k_procs s)) as Ept by (destruct Ot' as [_ Ho]; unfold others in Ho; by simplify_eq).
  pose proof (in_slot_lookup s0 i q5 t Hlt Ot') as Hit.
  assert (k_procs t !! p = Some qp) as Hpt by (by rewrite Ept, list_lookup_insert_ne).
  rewrite (fork_tail_run Hne Hpt Hit (k_mach s0) c e C2 (in_slot_mach _ _ _ _ C2 Ot') Hi Hptf Htf C8 Q5) by (done || by rewrite Efs).
  rewrite (proj1 Eq5). eexists _, _. split; [reflexivity|]. split; [done|]. split; [by apply (done_mem (ptf := p_trapframe qp) Htf Hz Hm)|right]. split; [done|].
  exists i, (child p qp c q5), tf, r. 
  exact (fork_made own D M l p qp c i q tf r D5 l5 s5 t D' M' l' s C Hnn HI Hq Hu K5 X HI5 P5 Htf Hz Hr Ot' Efs Hm Hc).
Qed.
End Fork.

(** ** Example: process 3 of the small machine (root page 3, trapframe page 8)
    forks with seven free pages *)

Section Witness.
#[local] Existing Instance small_image.
#[local] Existing Instance small_image_ok.

(** Pages held by hand are freed. *)
Lemma vm_inv_free own D M l s q : vm_inv own D M l s → page q → own q = 1 → refs s q = 1 →
  vm_inv (addown own q (-1)) D M (q :: l) (st_free q s) ∧
  (∀ t, page t → refs (st_free q s) t = refs s t - if decide (q = t) then 1 else 0) ∧
  (∀ r sz, proc_space D M s r sz → proc_space D M (st_free q s) r sz).
Proof.
  intros HI Hq Ho Hr. destruct (kfree_own own D M l s q [] HI Hq ltac:(lia)) as (l' & s' & E & HI' & _ & _ & Hrf & _ & Hp).
  rewrite (kfree_last q [] s (vi_ready HI) Hq Hr) in E. injection E as <-. split_and!; [|done|].
  - destruct HI' as [V1 V2 V3 V4 V5 V6]. split; try done. apply kmem_inv_free; [done|done|apply (vi_kmem HI)].
  - intros r sz [A1 A2 A3 A4 A5 A6 A7]. destruct frame_vals as (F1 & F2 & F3). split; try done.
    + rewrite Hp by (done || by rewrite F1). done.
    + rewrite Hp by (done || by rewrite F2). done.
    + intros va Hva B1 B2 B3. rewrite Hp by (done || lia). by apply A7.
Qed.

Definition ex_more (ps : list Z) (s : kstate) : kstate := foldr st_free s ps.
Definition ex_less (ps : list Z) (own : Z → Z) : Z → Z := foldr (λ q own, addown own q (-1)) own ps.

Lemma ex_more_inv D M l s r sz own ps : vm_inv own D M l s → proc_space D M s r sz → NoDup ps →
  Forall (λ q, page q ∧ own q = 1 ∧ refs s q = 1) ps →
  vm_inv (ex_less ps own) D M (ps ++ l) (ex_more ps s) ∧ proc_space D M (ex_more ps s) r sz ∧
  (∀ t, t ∉ ps → ex_less ps own t = own t) ∧ (nonneg own → nonneg (ex_less ps own)) ∧ (∀ t, page t → refs (ex_more ps s) t ≤ refs s t ∧ (t ∉ ps → refs (ex_more ps s) t = refs s t)).
Proof.
  intros HI HP HN HF. induction ps as [|q ps IH]; [by split_and!|].
  apply NoDup_cons in HN as [Hnq HN]. apply Forall_cons in HF as [(Hq & Ho & Hr) HF].
  destruct (IH HN HF) as (I1 & I2 & I3 & IN & I4). destruct (I4 q Hq) as [_ Hrq].
  destruct (vm_inv_free _ D M (ps ++ l) (ex_more ps s) q I1 Hq) as (J1 & J2 & J3); [by rewrite I3|by rewrite Hrq|].
  split_and!; [exact J1|by apply J3| | |].
  - intros t Ht. cbn [ex_less foldr]. fold (ex_less ps own). unfold addown.
    rewrite decide_False by (intros ->; apply Ht; by left). rewrite I3 by (intros Hi; apply Ht; by right). lia.
  - intros Hnn t. cbn [ex_less foldr]. fold (ex_less ps own). unfold addown. specialize (IN Hnn t).
    case_decide; [subst; rewrite I3 by done; lia|lia].
  - intros t Ht. change (ex_more (q :: ps) s) with (st_free q (ex_more ps s)). rewrite J2 by done. destruct (I4 t Ht) as [I5 I6].
    split; [case_decide; lia|]. intros Hn. rewrite decide_False by (intros ->; apply Hn; by left).
    rewrite I6 by (intros Hi; apply Hn; by right). lia.
Qed.

Definition ex_spent : list Z := [ex_pg 9; ex_pg 10; ex_pg 11; ex_pg 12; ex_pg 13; ex_pg 14].
Definition ex_self : proc :=
  proc0 <| p_state := RUNNING |> <| p_pid := 7 |> <| p_pagetable := ex_pg 3 |> <| p_trapframe := ex_pg 8 |>
    <| p_ofile := <[0%nat := Some 5%nat]> (<[1%nat := Some 5%nat]> (replicate NOFILE None)) |> <| p_cwd := Some 2%nat |>.
Definition ex_forker : kstate :=
  ex_more ex_spent ex_z4 <| k_mach := k_mach (ex_procs (Some 3%nat) []) |> <| k_procs := <[3%nat := ex_self]> (replicate NPROC proc0) |>
    <| k_fs := fsstate0 <| f_files := <[5%nat := file0 <| fl_ref := 2 |>]> (replicate NFILE file0) |> |>.

Lemma ex_spent_ok : vm_inv (ex_less ex_spent ex_own) ex_zD ex_M (ex_spent ++ [ex_pg 7]) (ex_more ex_spent ex_z4) ∧
  proc_space ex_zD ex_M (ex_more ex_spent ex_z4) (ex_pg 3) 0 ∧
  ex_less ex_spent ex_own (ex_pg 8) = 1 ∧ nonneg (ex_less ex_spent ex_own) ∧ ∀ t, page t → refs (ex_more ex_spent ex_z4) t ≤ 1.
Proof.
  destruct (ex_more_inv ex_zD ex_M [ex_pg 7] ex_z4 (ex_pg 3) 0 ex_own ex_spent ex_z4_inv ex_dead_space) as (A & B & C & N & E).
  - apply (bool_decide_unpack _). by vm_compute.
  - repeat (apply Forall_cons; split; [split; [by apply ex_page|split; by vm_compute]|]). by apply Forall_nil.
  - split_and!; [done|done| |by apply N, ex_nonneg|].
    + rewrite C; [by vm_compute|]. apply (bool_decide_unpack _). by vm_compute.
    + intros t Ht. destruct (E t Ht) as [Hle _]. etransitivity; [exact Hle|]. apply ex_pages in Ht as (i & Hi & ->).
      assert (Forall (λ i, refs ex_z4 (ex_pg i) ≤ 1) (seqZ 0 16)) as HF by (apply (bool_decide_unpack _); by vm_compute).
      rewrite Forall_forall in HF. apply HF, elem_of_seqZ. lia.
Qed.

Lemma ex_self_fields : p_trapframe ex_self = ex_pg 8 ∧ p_pagetable ex_self = ex_pg 3 ∧ p_sz ex_self = 0.
Proof. by split_and!. Qed.

(** Changing the machine, the processes and the files leaves memory alone. *)
Lemma run_space D M s m ps f r sz : proc_space D M s r sz →
  proc_space D M (s <| k_mach := m |> <| k_procs := ps |> <| k_fs := f |>) r sz.
Proof. intros []. by split. Qed.

Lemma run_refs s m ps f t : refs (s <| k_mach := m |> <| k_procs := ps |> <| k_fs := f |>) t = refs s t.
Proof. done. Qed.

Lemma run_inv own D M l s m ps f : vm_inv own D M l s → wf_mach m → lock_free LKmem m →
  vm_inv own D M l (s <| k_mach := m |> <| k_procs := ps |> <| k_fs := f |>).
Proof. intros HI Hw Hf. by apply (vm_inv_ext _ _ _ _ s); [..|split|]. Qed.

Lemma ex_forker_ok : calls_fork (ex_less ex_spent ex_own) ex_zD ex_M 3 ex_self 2 ex_forker.
Proof.
  destruct (ex_procs_ready (Some 3%nat) (replicate NPROC proc0) eq_refl) as [R1 R2 _]. destruct ex_spent_ok as (_ & A2 & A3 & _ & A5).
  assert (wf_mach (k_mach ex_forker)) as Hw by exact R1.
  split; [exact Hw| |reflexivity|reflexivity|reflexivity|discriminate| |reflexivity| |reflexivity| | |].
  - split; [by apply wf_settle|by apply settle_settle|reflexivity..|intros; reflexivity].
  - destruct ex_self_fields as (E1 & E2 & E3). split; rewrite ?E1, ?E2, ?E3.
    + split; [by apply (ex_page 8)|by rewrite A3].
    + unfold ex_forker. by apply run_space.
  - intros f Hf. assert (f = 5%nat) as ->; [|by exists (file0 <| fl_ref := 2 |>)].
    change (p_ofile ex_self) with (Some 5%nat :: Some 5%nat :: replicate 14 None) in Hf.
    rewrite !elem_of_cons in Hf. destruct Hf as [[=]|[[=]|Hf]]; [done|done|]. apply elem_of_replicate in Hf as [[=] _].
  - by vm_compute; lia.
  - intros i q Hq Hu. change (k_procs ex_forker) with (<[3%nat := ex_self]> (replicate NPROC proc0)) in Hq.
    apply list_lookup_insert_Some in Hq as [(_ & <- & _)|[_ Hq]]; [done|]. apply lookup_replicate in Hq as [-> _]. by split.
  - intros t Ht. specialize (A5 t Ht). unfold ex_forker. rewrite run_refs. change (Z.of_nat (pages ex_self)) with 0. lia.
Qed.

Lemma fork_correct_witness : ∃ s', fork [] ex_forker = Ret 1 [] s' ∧
  ∃ i q' tf r, forked (ex_less ex_spent ex_own) ex_zD ex_M 3 ex_self 2 i q' tf r ex_forker s'.
Proof.
  destruct ex_spent_ok as (A1 & _ & _ & A4 & _).
  destruct (fork_correct (ex_less ex_spent ex_own) ex_zD ex_M (ex_spent ++ [ex_pg 7]) 3 ex_self 2 [] ex_forker ex_forker_ok A4)
    as (res & s' & E & _ & _ & [[-> [_ _ [[F _]|[F _]]]]|[-> F]]).
  - unfold ex_forker. destruct (ex_procs_ready (Some 3%nat) (replicate NPROC proc0) eq_refl) as [R1 _ _]. by apply run_inv.
  - exfalso. apply (F proc0); [|done]. apply (list_elem_of_lookup_2 _ 0%nat). done.
  - exfalso. vm_compute in F. lia.
  - exists s'. by split.
Defined.
End Witness.
