(* ===== verification/Exec.v ===== *)
(** * Exec: loading a program (kernel/exec.c)

    [exec] builds a new user image from an ELF file and commits the current
    process to it.  A path or an argument is the list of its characters, without
    the final NUL. *)

From S2P Require Import Prelude Params CString State Spinlock PhysMem Kalloc Vm ProcBase Sleeplock Virtio Bio Blocks Bytes Log Fs Console File Proc.

Definition ELF_MAGIC : Z := 0x464C457F.
Definition ELF_PROG_LOAD : Z := 1.

(** The fields of [struct elfhdr] (64 bytes) that [exec] uses. *)
Definition sizeof_elfhdr : Z := 64.
Definition elf_magic (elf : list Z) : Z := get_le elf 0 4.
Definition elf_entry (elf : list Z) : Z := get_le elf 24 8.
Definition elf_phoff (elf : list Z) : Z := get_le elf 32 8.
Definition elf_phnum (elf : list Z) : Z := get_le elf 56 2.

(** [struct proghdr] (56 bytes). *)
Definition sizeof_proghdr : Z := 56.
Definition ph_type (ph : list Z) : Z := get_le ph 0 4.
Definition ph_flags (ph : list Z) : Z := get_le ph 4 4.
Definition ph_off (ph : list Z) : Z := get_le ph 8 8.
Definition ph_vaddr (ph : list Z) : Z := get_le ph 16 8.
Definition ph_filesz (ph : list Z) : Z := get_le ph 32 8.
Definition ph_memsz (ph : list Z) : Z := get_le ph 40 8.

Definition flags2perm (flags : Z) : Z :=
  let perm := if ctrue (Z.land flags 1) then PTE_X else 0 in
  if ctrue (Z.land flags 2) then Z.lor perm PTE_W else perm.

(** The characters of [path] after its last slash: the loop that leaves [last]
    behind the last slash seen. *)
Fixpoint after_last_slash (last s : list Z) : list Z :=
  match s with
  | [] => last
  | c :: s' => after_last_slash (if c =? slash then s' else last) s'
  end.
Definition progname (path : list Z) : list Z := after_last_slash path path.

Section Exec.
Context `{!Image}.

Definition loadseg (pagetable va : Z) (ip : nat) (offset sz : Z) : K Z :=
  while_ (λ i,
    if i <? sz then
      pa ← walkaddr pagetable (u64 (va + i));
      panic_if (pa =? 0) "loadseg: address should exist";;
      let n := if sz - i <? PGSIZE then sz - i else PGSIZE in
      '(r, _) ← readi ip (KernDst pa) (u32 (offset + i)) n;
      if negb (u32 r =? n) then mret (inr (-1))
      else mret (inl (u32 (i + PGSIZE)))
    else mret (inr 0)) 0.

(** The loop over the program headers: whether it ran to its end, and [sz]. *)
Definition load_segments (pagetable : Z) (ip : nat) (elf : list Z) : K (bool * Z) :=
  while_ (λ '(i, off, sz),
    if i <? elf_phnum elf then
      '(r, ph) ← readi ip LocalDst (u32 off) sizeof_proghdr;
      let next := (i + 1, i32 (off + sizeof_proghdr)) in
      if negb (r =? sizeof_proghdr) then mret (inr (false, sz))
      else if negb (ph_type ph =? ELF_PROG_LOAD) then mret (inl (next, sz))
      else if ph_memsz ph <? ph_filesz ph then mret (inr (false, sz))
      else if u64 (ph_vaddr ph + ph_memsz ph) <? ph_vaddr ph then mret (inr (false, sz))
      else if negb (ph_vaddr ph mod PGSIZE =? 0) then mret (inr (false, sz))
      else
        sz1 ← uvmalloc pagetable sz (u64 (ph_vaddr ph + ph_memsz ph)) (flags2perm (i32 (ph_flags ph)));
        if sz1 =? 0 then mret (inr (false, sz))
        else
          r ← loadseg pagetable (ph_vaddr ph) ip (u32 (ph_off ph)) (u32 (ph_filesz ph));
          if r <? 0 then mret (inr (false, sz1))
          else mret (inl (next, sz1))
    else mret (inr (true, sz))) (0, i32 (elf_phoff elf), 0).

(** The loop that pushes the argument strings: the stack pointer and the
    contents of [ustack], or [None] for the jump to [bad]. *)
Fixpoint push_args (pagetable stackbase : Z) (argv : list (list Z)) (argc sp : Z) (ustack : list Z)
  : K (option (Z * list Z)) :=
  match argv with
  | [] => mret (Some (sp, ustack))
  | arg :: argv' =>
      if Z.of_nat MAXARG <=? argc then mret None
      else
        let sp := u64 (sp - (Z.of_nat (length arg) + 1)) in
        let sp := sp - sp mod 16 in
        if sp <? stackbase then mret None
        else
          r ← copyout pagetable sp (arg ++ [0]);
          if r <? 0 then mret None
          else push_args pagetable stackbase argv' (argc + 1) sp (ustack ++ [sp])
  end.

(** [bad]: free the new image, put the inode if it is still held. *)
Definition exec_bad (pagetable sz : Z) (ip : option nat) : K Z :=
  when (ctrue pagetable) (proc_freepagetable pagetable sz);;
  match ip with
  | Some ip => iunlockput ip;; end_op
  | None => mret ()
  end;;
  mret (-1).

(** From the new stack to the commitment to the new image. *)
Definition exec_stack (p : nat) (path : list Z) (argv : list (list Z)) (entry pagetable sz : Z) : K Z :=
  oldsz ← pget p p_sz;
  let sz := PGROUNDUP sz in
  sz1 ← uvmalloc pagetable sz (u64 (sz + 2 * PGSIZE)) PTE_W;
  if sz1 =? 0 then exec_bad pagetable sz None
  else
    let sz := sz1 in
    uvmclear pagetable (u64 (sz - 2 * PGSIZE));;
    let stackbase := u64 (sz - PGSIZE) in
    r ← push_args pagetable stackbase argv 0 sz [];
    match r with
    | None => exec_bad pagetable sz None
    | Some (sp, ustack) =>
        let argc := Z.of_nat (length argv) in
        check (argc <? Z.of_nat MAXARG) "ustack";;
        let ustack := ustack ++ [0] in
        let sp := u64 (sp - (argc + 1) * 8) in
        let sp := sp - sp mod 16 in
        if sp <? stackbase then exec_bad pagetable sz None
        else
          r ← copyout pagetable sp (concat (le_bytes 8 <$> ustack));
          if r <? 0 then exec_bad pagetable sz None
          else
            tf ← pget p p_trapframe;
            tf_set tf TF_a1 sp;;
            pset p (λ q, q <| p_name := safe_copy (p_name q) (progname path) 16 |>);;
            oldpagetable ← pget p p_pagetable;
            pset p (λ q, q <| p_pagetable := pagetable |> <| p_sz := sz |>);;
            tf_set tf TF_epc entry;;
            tf_set tf TF_sp sp;;
            proc_freepagetable oldpagetable oldsz;;
            mret (i32 argc)
    end.

Definition exec (path : list Z) (argv : list (list Z)) : K Z :=
  p ← myproc;
  begin_op;;
  ip ← namei path;
  match ip with
  | None => end_op;; mret (-1)
  | Some ip =>
      ilock ip;;
      '(r, elf) ← readi ip LocalDst 0 sizeof_elfhdr;
      if negb (r =? sizeof_elfhdr) then exec_bad 0 0 (Some ip)
      else if negb (elf_magic elf =? ELF_MAGIC) then exec_bad 0 0 (Some ip)
      else
        p' ← deref p;
        pagetable ← proc_pagetable p';
        if pagetable =? 0 then exec_bad 0 0 (Some ip)
        else
          '(ok, sz) ← load_segments pagetable ip elf;
          if negb ok then exec_bad pagetable sz (Some ip)
          else
            iunlockput ip;;
            end_op;;
            p ← myproc;
            p ← deref p;
            exec_stack p path argv (elf_entry elf) pagetable sz
  end.
End Exec.
