(* ===== verification/SysArgs.v ===== *)
(** * SysArgs: fetching system-call arguments (kernel/syscall.c)

    Where the C code fills a buffer through a pointer, the routine returns the
    value stored there next to its result.  A fetched string is the list of its
    characters. *)

From S2P Require Import Prelude Params CString State Spinlock PhysMem Kalloc Vm ProcBase Sleeplock Virtio Bio Blocks Bytes Log Fs Console File Proc.

Section SysArgs.
Context `{!Image}.

(** Both size tests are needed: the addition wraps around. *)
Definition fetchaddr (addr : Z) : K (Z * Z) :=
  p ← myproc;
  p ← deref p;
  sz ← pget p p_sz;
  if (sz <=? addr) || (sz <? u64 (addr + 8)) then mret (-1, 0)
  else
    pagetable ← pget p p_pagetable;
    '(r, bytes) ← copyin pagetable addr 8;
    if negb (r =? 0) then mret (-1, 0) else mret (0, of_le bytes).

(** [buf] after the call, and the length of the string in it. *)
Definition fetchstr_buf (addr max : Z) : K (Z * list Z) :=
  p ← myproc;
  p ← deref p;
  pagetable ← pget p p_pagetable;
  '(r, buf) ← copyinstr pagetable addr max;
  if r <? 0 then mret (-1, buf) else mret (Z.of_nat (length (cstring buf)), buf).

Definition fetchstr (addr max : Z) : K (Z * list Z) :=
  '(r, buf) ← fetchstr_buf addr max;
  mret (r, cstring buf).

Definition argraw (n : Z) : K Z :=
  p ← myproc;
  p ← deref p;
  tf ← pget p p_trapframe;
  match n with
  | 0 => tf_get tf TF_a0
  | 1 => tf_get tf TF_a1
  | 2 => tf_get tf TF_a2
  | 3 => tf_get tf TF_a3
  | 4 => tf_get tf TF_a4
  | 5 => tf_get tf TF_a5
  | _ => panic "argraw"
  end.

Definition argint (n : Z) : K Z := x ← argraw n; mret (i32 x).
Definition argaddr (n : Z) : K Z := argraw n.

Definition argstr (n max : Z) : K (Z * list Z) :=
  addr ← argaddr n;
  fetchstr addr max.
End SysArgs.
