(* ===== verification/Sysproc.v ===== *)
(** * Sysproc: the system calls on processes (kernel/sysproc.c)

    A handler returns the C value before its conversion to uint64; [syscall]
    stores it in the trapframe, which converts it. *)

From S2P Require Import Prelude Params CString State Spinlock PhysMem Kalloc Vm ProcBase Sleeplock Virtio Bio Blocks Bytes Log Fs Console File Proc SysArgs.

Section Sysproc.
Context `{!Image}.

Definition sys_exit : K Z :=
  n ← argint 0;
  exit n.

Definition sys_getpid : K Z :=
  p ← myproc;
  p ← deref p;
  pget p p_pid.

Definition sys_fork : K Z := fork.

Definition sys_wait : K Z :=
  p ← argaddr 0;
  wait p.

Definition sys_sbrk : K Z :=
  n ← argint 0;
  p ← myproc;
  p ← deref p;
  addr ← pget p p_sz;
  r ← growproc n;
  if r <? 0 then mret (-1) else mret addr.

(** [ticks - ticks0 < n] compares unsigned numbers. *)
Definition sys_sleep : K Z :=
  n ← argint 0;
  acquire LTicks;;
  ticks0 ← gets k_ticks;
  while_ (λ _ : (),
    ticks ← gets k_ticks;
    if u32 (ticks - ticks0) <? u32 n then
      p ← myproc;
      p ← deref p;
      k ← killed p;
      if ctrue k then
        release LTicks;;
        mret (inr (-1))
      else
        sleep ChTicks LTicks;;
        mret (inl ())
    else
      release LTicks;;
      mret (inr 0)) ().

Definition sys_kill : K Z :=
  pid ← argint 0;
  kill pid.

Definition sys_uptime : K Z :=
  acquire LTicks;;
  xticks ← gets k_ticks;
  release LTicks;;
  mret xticks.

Definition sys_trace : K Z :=
  num ← argint 0;
  p ← myproc;
  p ← deref p;
  pset p (λ q, q <| p_trace_mask := num |>);;
  mret 0.

(** The handler's address is read as an int. *)
Definition sys_sigalarm : K Z :=
  ticks ← argint 0;
  handle ← argint 1;
  if 0 <=? ticks then
    p ← myproc;
    p ← deref p;
    pset p (λ q, q <| p_handler := u64 handle |> <| p_alarm_ticks := 0 |> <| p_max_alarm_ticks := ticks |>);;
    mret 0
  else mret (-1).

(** The bytes of the saved trapframe [p->alarm_trap]. *)
Definition trap_bytes (words : list Z) : list Z := concat (le_bytes 8 <$> words).

Definition sys_sigreturn : K Z :=
  p ← myproc;
  p ← deref p;
  at' ← pget p p_alarm_ticks;
  if at' =? -1 then
    pset p (λ q, q <| p_alarm_ticks := 0 |>);;
    tf ← pget p p_trapframe;
    saved ← pget p p_alarm_trap;
    put_bytes tf (trap_bytes saved);;
    mret 0
  else mret (-1).

(** When [waitx] has found no zombie the two local variables are copied out
    uninitialised. *)
Definition sys_waitx : K Z :=
  addr ← argaddr 0;
  addr1 ← argaddr 1;
  addr2 ← argaddr 2;
  '(ret, times) ← waitx addr;
  let '(wtime, rtime) := default (uninit, uninit) times in
  p ← myproc;
  p ← deref p;
  pagetable ← pget p p_pagetable;
  r ← copyout pagetable addr1 (le_bytes 4 wtime);
  if r <? 0 then mret (-1)
  else
    pagetable ← pget p p_pagetable;
    r ← copyout pagetable addr2 (le_bytes 4 rtime);
    if r <? 0 then mret (-1) else mret ret.

Definition sys_set_priority : K Z :=
  priority ← argint 0;
  pid ← argint 1;
  set_static_priority priority pid.

Definition sys_settickets : K Z :=
  num ← argint 0;
  if 1 <=? num then settickets num;; mret 0 else mret (-1).
End Sysproc.
