(* ===== verification/Sysfile.v ===== *)
(** * Sysfile: the system calls on files (kernel/sysfile.c)

    [isdirempty] and [create] use only the interface of Blocks.v; the handlers
    run on the kernel.  A null pointer is [None]. *)

From S2P Require Import Prelude Params CString State Spinlock PhysMem Kalloc Vm ProcBase Sleeplock Virtio Bio Blocks Bytes Log Fs Console File Proc Exec SysArgs.

Definition O_RDONLY : Z := 0x000.
Definition O_WRONLY : Z := 0x001.
Definition O_RDWR : Z := 0x002.
Definition O_CREATE : Z := 0x200.
Definition O_TRUNC : Z := 0x400.

Definition dot : list Z := bytes_of ".".
Definition dotdot : list Z := bytes_of "..".

Section Create.
Context {S : Type} `{!Kern S}.

Definition isdirempty (dp : nat) : KM S bool :=
  while_ (λ off,
    ip ← kn_inode dp;
    if off <? i_size ip then
      '(r, de) ← readi dp LocalDst off sizeof_dirent;
      panic_if (negb (r =? sizeof_dirent)) "isdirempty: readi";;
      if negb (de_inum de =? 0) then mret (inr false)
      else mret (inl (off + sizeof_dirent))
    else mret (inr true)) (2 * sizeof_dirent).

(** [fail]: de-allocate the new inode. *)
Definition create_fail (ip dp : nat) : KM S (option nat) :=
  kn_set_inode ip (λ x, x <| i_nlink := 0 |>);;
  iupdate ip;;
  iunlockput ip;;
  iunlockput dp;;
  mret None.

(** The "." and ".." entries of a new directory; [false] is a jump to [fail]. *)
Definition link_dots (ip dp : nat) : KM S bool :=
  x ← kn_inode ip;
  r ← dirlink ip dot (i_inum x);
  if r <? 0 then mret false
  else
    y ← kn_inode dp;
    r ← dirlink ip dotdot (i_inum y);
    mret (negb (r <? 0)).

Definition create (path : list Z) (type major minor : Z) : KM S (option nat) :=
  r ← nameiparent path;
  match r with
  | None => mret None
  | Some (dp, name) =>
      ilock dp;;
      r ← dirlookup dp name;
      match r with
      | Some (ip, _) =>
          iunlockput dp;;
          ilock ip;;
          x ← kn_inode ip;
          if (type =? T_FILE) && ((i_type x =? T_FILE) || (i_type x =? T_DEVICE)) then mret (Some ip)
          else
            iunlockput ip;;
            mret None
      | None =>
          d ← kn_inode dp;
          r ← ialloc (i_dev d) type;
          match r with
          | None => iunlockput dp;; mret None
          | Some ip =>
              ilock ip;;
              kn_set_inode ip (λ x, x <| i_major := major |> <| i_minor := minor |> <| i_nlink := 1 |>);;
              iupdate ip;;
              ok ← (if type =? T_DIR then link_dots ip dp else mret true);
              if negb ok then create_fail ip dp
              else
                x ← kn_inode ip;
                r ← dirlink dp name (i_inum x);
                if r <? 0 then create_fail ip dp
                else
                  when (type =? T_DIR) (
                    kn_set_inode dp (λ x, x <| i_nlink ::= λ n, i16 (n + 1) |>);;
                    iupdate dp);;
                  iunlockput dp;;
                  mret (Some ip)
          end
      end
  end.
End Create.

Section Sysfile.
Context `{!Image}.

(** ** File descriptors *)

Definition argfd (n : Z) : K (option (nat * nat)) :=
  fd ← argint n;
  if (fd <? 0) || (Z.of_nat NOFILE <=? fd) then mret None
  else
    p ← myproc;
    p ← deref p;
    ofile ← pget p p_ofile;
    match ofile !! Z.to_nat fd with
    | Some (Some f) => mret (Some (Z.to_nat fd, f))
    | _ => mret None
    end.

Definition set_ofile (p fd : nat) (f : option nat) : K () :=
  pset p (λ q, q <| p_ofile ::= insert fd f |>).

Definition fdalloc (f : nat) : K Z :=
  p ← myproc;
  p ← deref p;
  r ← scan (seq 0 NOFILE) (λ fd,
    ofile ← pget p p_ofile;
    match ofile !! fd with
    | Some None =>
        set_ofile p fd (Some f);;
        mret (Some fd)
    | _ => mret None
    end);
  mret (match r with Some fd => Z.of_nat fd | None => -1 end).

Definition sys_dup : K Z :=
  r ← argfd 0;
  match r with
  | None => mret (-1)
  | Some (_, f) =>
      fd ← fdalloc f;
      if fd <? 0 then mret (-1)
      else
        filedup f;;
        mret fd
  end.

Definition sys_read : K Z :=
  p ← argaddr 1;
  n ← argint 2;
  r ← argfd 0;
  match r with
  | None => mret (-1)
  | Some (_, f) => fileread f p n
  end.

Definition sys_write : K Z :=
  p ← argaddr 1;
  n ← argint 2;
  r ← argfd 0;
  match r with
  | None => mret (-1)
  | Some (_, f) => filewrite f p n
  end.

Definition sys_close : K Z :=
  r ← argfd 0;
  match r with
  | None => mret (-1)
  | Some (fd, f) =>
      p ← myproc;
      p ← deref p;
      set_ofile p fd None;;
      fileclose f;;
      mret 0
  end.

Definition sys_fstat : K Z :=
  st ← argaddr 1;
  r ← argfd 0;
  match r with
  | None => mret (-1)
  | Some (_, f) => filestat f st
  end.

(** ** Links *)

Definition sys_link : K Z :=
  '(r, old) ← argstr 0 MAXPATH;
  if r <? 0 then mret (-1)
  else
  '(r, new) ← argstr 1 MAXPATH;
  if r <? 0 then mret (-1)
  else
    begin_op;;
    r ← namei old;
    match r with
    | None => end_op;; mret (-1)
    | Some ip =>
        ilock ip;;
        x ← kn_inode ip;
        if i_type x =? T_DIR then
          iunlockput ip;;
          end_op;;
          mret (-1)
        else
          kn_set_inode ip (λ x, x <| i_nlink ::= λ n, i16 (n + 1) |>);;
          iupdate ip;;
          iunlock ip;;
          let bad : K Z :=
            ilock ip;;
            kn_set_inode ip (λ x, x <| i_nlink ::= λ n, i16 (n - 1) |>);;
            iupdate ip;;
            iunlockput ip;;
            end_op;;
            mret (-1) in
          r ← nameiparent new;
          match r with
          | None => bad
          | Some (dp, name) =>
              ilock dp;;
              d ← kn_inode dp;
              x ← kn_inode ip;
              r ← (if negb (i_dev d =? i_dev x) then mret (-1) else dirlink dp name (i_inum x));
              if r <? 0 then
                iunlockput dp;;
                bad
              else
                iunlockput dp;;
                iput ip;;
                end_op;;
                mret 0
          end
    end.

Definition sys_unlink : K Z :=
  '(r, path) ← argstr 0 MAXPATH;
  if r <? 0 then mret (-1)
  else
    begin_op;;
    r ← nameiparent path;
    match r with
    | None => end_op;; mret (-1)
    | Some (dp, name) =>
        ilock dp;;
        let bad : K Z :=
          iunlockput dp;;
          end_op;;
          mret (-1) in
        if (namecmp name dot =? 0) || (namecmp name dotdot =? 0) then bad
        else
          r ← dirlookup dp name;
          match r with
          | None => bad
          | Some (ip, off) =>
              ilock ip;;
              x ← kn_inode ip;
              panic_if (i_nlink x <? 1) "unlink: nlink < 1";;
              empty ← (if i_type x =? T_DIR then isdirempty ip else mret true);
              if negb empty then
                iunlockput ip;;
                bad
              else
                r ← writei dp (LocalSrc (replicate 16 0)) off sizeof_dirent;
                panic_if (negb (r =? sizeof_dirent)) "unlink: writei";;
                x ← kn_inode ip;
                when (i_type x =? T_DIR) (
                  kn_set_inode dp (λ d, d <| i_nlink ::= λ n, i16 (n - 1) |>);;
                  iupdate dp);;
                iunlockput dp;;
                kn_set_inode ip (λ x, x <| i_nlink ::= λ n, i16 (n - 1) |>);;
                iupdate ip;;
                iunlockput ip;;
                end_op;;
                mret 0
          end
    end.

(** ** Opening and creating *)

(** The inode of [sys_open], locked; [None] when the call fails, the
    transaction then being ended. *)
Definition open_inode (path : list Z) (omode : Z) : K (option nat) :=
  if ctrue (Z.land omode O_CREATE) then
    r ← create path T_FILE 0 0;
    match r with
    | None => end_op;; mret None
    | Some ip => mret (Some ip)
    end
  else
    r ← namei path;
    match r with
    | None => end_op;; mret None
    | Some ip =>
        ilock ip;;
        x ← kn_inode ip;
        if (i_type x =? T_DIR) && negb (omode =? O_RDONLY) then
          iunlockput ip;;
          end_op;;
          mret None
        else mret (Some ip)
    end.

Definition sys_open : K Z :=
  omode ← argint 1;
  '(n, path) ← argstr 0 MAXPATH;
  if n <? 0 then mret (-1)
  else
    begin_op;;
    r ← open_inode path omode;
    match r with
    | None => mret (-1)
    | Some ip =>
        x ← kn_inode ip;
        if (i_type x =? T_DEVICE) && ((i_major x <? 0) || (NDEV <=? i_major x)) then
          iunlockput ip;;
          end_op;;
          mret (-1)
        else
          f ← filealloc;
          fd ← (match f with None => mret (-1) | Some f => fdalloc f end);
          match f with
          | Some f =>
              if fd <? 0 then
                fileclose f;;
                iunlockput ip;;
                end_op;;
                mret (-1)
              else
                x ← kn_inode ip;
                (if i_type x =? T_DEVICE then
                   fset f (λ y, y <| fl_type := FD_DEVICE |> <| fl_major := i_major x |>)
                 else fset f (λ y, y <| fl_type := FD_INODE |> <| fl_off := 0 |>));;
                fset f (λ y, y <| fl_ip := ip |>
                               <| fl_readable := negb (ctrue (Z.land omode O_WRONLY)) |>
                               <| fl_writable := ctrue (Z.land omode O_WRONLY) || ctrue (Z.land omode O_RDWR) |>);;
                when (ctrue (Z.land omode O_TRUNC) && (i_type x =? T_FILE)) (itrunc ip);;
                iunlock ip;;
                end_op;;
                mret fd
          | None =>
              iunlockput ip;;
              end_op;;
              mret (-1)
          end
    end.

Definition sys_mkdir : K Z :=
  begin_op;;
  '(r, path) ← argstr 0 MAXPATH;
  ip ← (if r <? 0 then mret None else create path T_DIR 0 0);
  match ip with
  | None => end_op;; mret (-1)
  | Some ip =>
      iunlockput ip;;
      end_op;;
      mret 0
  end.

Definition sys_mknod : K Z :=
  begin_op;;
  major ← argint 1;
  minor ← argint 2;
  '(r, path) ← argstr 0 MAXPATH;
  ip ← (if r <? 0 then mret None else create path T_DEVICE (i16 major) (i16 minor));
  match ip with
  | None => end_op;; mret (-1)
  | Some ip =>
      iunlockput ip;;
      end_op;;
      mret 0
  end.

Definition sys_chdir : K Z :=
  p ← myproc;
  begin_op;;
  '(r, path) ← argstr 0 MAXPATH;
  ip ← (if r <? 0 then mret None else namei path);
  match ip with
  | None => end_op;; mret (-1)
  | Some ip =>
      ilock ip;;
      x ← kn_inode ip;
      if negb (i_type x =? T_DIR) then
        iunlockput ip;;
        end_op;;
        mret (-1)
      else
        iunlock ip;;
        p ← deref p;
        cwd ← pget p p_cwd;
        cwd ← deref cwd;
        iput cwd;;
        end_op;;
        pset p (λ q, q <| p_cwd := Some ip |>);;
        mret 0
  end.

(** ** exec *)

(** The loop of [sys_exec] over [i]: the pages allocated so far with the
    strings fetched into them, and whether it ended well. *)
Fixpoint fetch_args (uargv i : Z) (fuel : nat) : K (bool * list (Z * list Z)) :=
  match fuel with
  | O => mret (false, [])               (* i >= NELEM(argv) *)
  | S fuel' =>
      '(r, uarg) ← fetchaddr (u64 (uargv + 8 * i));
      if r <? 0 then mret (false, [])
      else if uarg =? 0 then mret (true, [])
      else
        page ← kalloc;
        if page =? 0 then mret (false, [])
        else
          '(r, buf) ← fetchstr_buf uarg PGSIZE;
          put_bytes page buf;;
          if r <? 0 then mret (false, [(page, cstring buf)])
          else
            '(ok, rest) ← fetch_args uargv (i + 1) fuel';
            mret (ok, (page, cstring buf) :: rest)
  end.

Definition sys_exec : K Z :=
  uargv ← argaddr 1;
  '(r, path) ← argstr 0 MAXPATH;
  if r <? 0 then mret (-1)
  else
    '(ok, argv) ← fetch_args uargv 0 MAXARG;
    if ok : bool then
      ret ← exec path (snd <$> argv);
      foreach (fst <$> argv) kfree;;
      mret ret
    else
      foreach (fst <$> argv) kfree;;
      mret (-1).

(** ** pipe *)

Definition sys_pipe : K Z :=
  p ← myproc;
  fdarray ← argaddr 0;
  r ← pipealloc;
  match r with
  | None => mret (-1)
  | Some (rf, wf) =>
      fd0 ← fdalloc rf;
      fd1 ← (if fd0 <? 0 then mret (-1) else fdalloc wf);
      p ← deref p;
      if fd1 <? 0 then
        when (0 <=? fd0) (set_ofile p (Z.to_nat fd0) None);;
        fileclose rf;;
        fileclose wf;;
        mret (-1)
      else
        pagetable ← pget p p_pagetable;
        r ← copyout pagetable fdarray (le_bytes 4 fd0);
        r ← (if r <? 0 then mret r
             else pagetable ← pget p p_pagetable; copyout pagetable (u64 (fdarray + 4)) (le_bytes 4 fd1));
        if r <? 0 then
          set_ofile p (Z.to_nat fd0) None;;
          set_ofile p (Z.to_nat fd1) None;;
          fileclose rf;;
          fileclose wf;;
          mret (-1)
        else mret 0
  end.
End Sysfile.
