(* ===== verification/Syscall.v ===== *)
(** * Syscall: the system-call dispatcher (kernel/syscall.c) *)

From S2P Require Import Prelude Params CString State Spinlock PhysMem Kalloc Vm ProcBase Sleeplock Virtio Bio Blocks Bytes Log Fs Console File Proc Exec SysArgs Sysproc Sysfile.

(** NELEM(syscalls): the largest number in the table, plus one. *)
Definition NSYSCALLS : Z := 28.

Section Syscall.
Context `{!Image}.

(** The handler in [syscalls[num]]; [None] for a hole of the array. *)
Definition syscalls (num : Z) : option (K Z) :=
  match num with
  | 1 => Some sys_fork
  | 2 => Some sys_exit
  | 3 => Some sys_wait
  | 4 => Some sys_pipe
  | 5 => Some sys_read
  | 6 => Some sys_kill
  | 7 => Some sys_exec
  | 8 => Some sys_fstat
  | 9 => Some sys_chdir
  | 10 => Some sys_dup
  | 11 => Some sys_getpid
  | 12 => Some sys_sbrk
  | 13 => Some sys_sleep
  | 14 => Some sys_uptime
  | 15 => Some sys_open
  | 16 => Some sys_write
  | 17 => Some sys_mknod
  | 18 => Some sys_unlink
  | 19 => Some sys_link
  | 20 => Some sys_mkdir
  | 21 => Some sys_close
  | 22 => Some sys_trace
  | 23 => Some sys_sigalarm
  | 24 => Some sys_sigreturn
  | 25 => Some sys_waitx
  | 26 => Some sys_set_priority
  | 27 => Some sys_settickets
  | _ => None
  end.

(** Names and argument counts for tracing; the arrays have holes at the two
    alarm calls, a null name and a count of 0. *)
Definition syscall_name (num : Z) : option string :=
  match num with
  | 1 => Some "fork" | 2 => Some "exit" | 3 => Some "wait" | 4 => Some "pipe"
  | 5 => Some "read" | 6 => Some "kill" | 7 => Some "exec" | 8 => Some "fstat"
  | 9 => Some "chdir" | 10 => Some "dup" | 11 => Some "getpid" | 12 => Some "sbrk"
  | 13 => Some "sleep" | 14 => Some "uptime" | 15 => Some "open" | 16 => Some "write"
  | 17 => Some "mknod" | 18 => Some "unlink" | 19 => Some "link" | 20 => Some "mkdir"
  | 21 => Some "close" | 22 => Some "trace" | 25 => Some "waitx"
  | 26 => Some "set_priority" | 27 => Some "settickets"
  | _ => None
  end.

Definition syscall_argc (num : Z) : Z :=
  match num with
  | 1 => 0 | 2 => 1 | 3 => 1 | 4 => 1 | 5 => 3 | 6 => 1 | 7 => 2 | 8 => 2 | 9 => 1
  | 10 => 1 | 11 => 0 | 12 => 1 | 13 => 1 | 14 => 0 | 15 => 2 | 16 => 3 | 17 => 1
  | 18 => 1 | 19 => 2 | 20 => 2 | 21 => 1 | 22 => 1 | 25 => 3 | 26 => 1 | 27 => 1
  | _ => 0
  end.

(** A name as an argument of printf; a missing one is a null pointer. *)
Definition name_arg (name : option string) : parg :=
  match name with Some n => PStr (bytes_of n) | None => PInt 0 end.

(** The trace line; [a0] has been overwritten with the result by now. *)
Definition trace_call (p : nat) (num : Z) : K () :=
  pid ← pget p p_pid;
  tf ← pget p p_trapframe;
  printk "%d: syscall %s (" [PInt pid; name_arg (syscall_name num)];;
  let argc := syscall_argc num in
  when (0 <? argc) (a ← tf_get tf TF_a0; printk "%d" [PInt a]);;
  when (1 <? argc) (a ← tf_get tf TF_a1; printk " %d" [PInt a]);;
  when (2 <? argc) (a ← tf_get tf TF_a2; printk " %d" [PInt a]);;
  when (3 <? argc) (a ← tf_get tf TF_a3; printk " %d" [PInt a]);;
  when (4 <? argc) (a ← tf_get tf TF_a4; printk " %d" [PInt a]);;
  when (5 <? argc) (a ← tf_get tf TF_a5; printk " %d" [PInt a]);;
  printk ") " [];;
  a ← tf_get tf TF_a0;
  printk ("-> %d" +:+ nl) [PInt a].

Definition syscall : K () :=
  p ← myproc;
  p ← deref p;
  tf ← pget p p_trapframe;
  num ← tf_get tf TF_a7;
  let num := i32 num in
  match (if (0 <? num) && (num <? NSYSCALLS) then syscalls num else None) with
  | Some handler =>
      r ← handler;
      tf ← pget p p_trapframe;
      tf_set tf TF_a0 r;;
      mask ← pget p p_trace_mask;
      when (ctrue (Z.land (i32 (Z.shiftl 1 num)) mask)) (trace_call p num)
  | None =>
      pid ← pget p p_pid;
      name ← pget p p_name;
      printk ("%d %s: unknown sys call %d" +:+ nl) [PInt pid; PStr name; PInt num];;
      tf ← pget p p_trapframe;
      tf_set tf TF_a0 (-1)
  end.
End Syscall.
