(* ===== verification/Trap.v ===== *)
(** * Trap: interrupts, exceptions and the way back to user space (kernel/trap.c)

    The handlers read and write the supervisor registers of the executing hart.
    [usertrap], [usertrapret] and [forkret] end in the jump to [userret] in the
    trampoline, which does not return: their value is the address jumped to
    and the argument given, the satp of the user page table.  The scheduling
    policy the kernel is built with is a parameter, and so is what the virtio
    device's registers read as. *)

From S2P Require Import Prelude Params CString State Spinlock PhysMem Kalloc Vm ProcBase Queue Sched Sleeplock Virtio Bio Blocks Bytes Log Fs Console File Proc Exec SysArgs Sysproc Sysfile Syscall.

(** The jump to [userret]. *)
Record user_entry := UserEntry { ue_target : Z; ue_satp : Z }.

Definition trapinit : K () := initlock LTicks.

Section Trap.
Context `{!Image}.
Variable pol : policy.
Variable reg : Z → Z.

Definition trapinithart : K () := write_csr (λ c, c <| r_stvec := kernelvec |>).

(** ** The clock and the devices *)

Definition clockintr : K () :=
  acquire LTicks;;
  modify (λ s, s <| k_ticks ::= λ t, u32 (t + 1) |>);;
  update_time;;
  wakeup ChTicks;;
  release LTicks.

Definition devintr : K Z :=
  scause ← read_csr r_scause;
  if ctrue (Z.land scause 0x8000000000000000) && (Z.land scause 0xff =? 9) then
    irq ← plic_claim;
    (if irq =? UART0_IRQ then uartintr
     else if irq =? VIRTIO0_IRQ then virtio_disk_intr (reg R_INTERRUPT_STATUS)
     else when (ctrue irq) (printk ("unexpected interrupt irq=%d" +:+ nl) [PInt irq]));;
    when (ctrue irq) (plic_complete irq);;
    mret 1
  else if scause =? 0x8000000000000001 then
    id ← cpuid;
    when (id =? 0)%nat clockintr;;
    write_csr (λ c, c <| r_sip ::= λ x, Z.land x (Z.lnot 2) |>);;
    mret 2
  else mret 0.

(** ** Preemption under MLFQ

    The part of [usertrap] and [kerneltrap] that is compiled for MLFQ: a
    process is preempted when a queue above its own is not empty, and is moved
    down when it has used up its slice.  The two handlers test for the last
    queue differently ([lower]). *)

Definition mlfq_preempt (p : nat) : K () :=
  while_ (λ i,
    qpos ← pget p p_queue_position;
    if i <? qpos then
      size ← qget q_size i;
      when (ctrue size) (
        pset p (λ q, q <| p_ticks_used := 0 |>);;
        qpos ← pget p p_queue_position;
        push_queue p qpos;;
        yield);;
      mret (inl (i + 1))
    else mret (inr ())) 0.

Definition mlfq_demote (p : nat) (lower : Z → bool) : K () :=
  qpos ← pget p p_queue_position;
  limit ← qget q_max_ticks qpos;
  used ← pget p p_ticks_used;
  when (limit <=? used) (
    pset p (λ q, q <| p_ticks_used := 0 |>);;
    (if lower qpos then push_queue p (qpos + 1) else push_queue p 4);;
    yield).

Definition mlfq_tick (lower : Z → bool) : K () :=
  me ← myproc;
  match me with
  | None => mret ()
  | Some p =>
      st ← pget p p_state;
      when (bool_decide (st = RUNNING)) (
        pset p (λ q, q <| p_ticks_used ::= λ t, i32 (t + 1) |>);;
        mlfq_preempt p;;
        mlfq_demote p lower)
  end.

(** ** Back to user space *)

Definition usertrapret : K user_entry :=
  p ← myproc;
  intr_off;;
  write_csr (λ c, c <| r_stvec := TRAMPOLINE + (uservec - trampoline) |>);;
  p ← deref p;
  tf ← pget p p_trapframe;
  satp ← read_csr r_satp;
  tf_set tf TF_kernel_satp satp;;
  kstack ← pget p p_kstack;
  tf_set tf TF_kernel_sp (kstack + PGSIZE);;
  tf_set tf TF_kernel_trap usertrap_addr;;
  tp ← cpuid;
  tf_set tf TF_kernel_hartid (Z.of_nat tp);;
  x ← read_csr r_sstatus;
  write_csr (λ c, c <| r_sstatus := Z.lor (Z.land x (Z.lnot SSTATUS_SPP)) SSTATUS_SPIE |>);;
  epc ← tf_get tf TF_epc;
  write_csr (λ c, c <| r_sepc := epc |>);;
  pagetable ← pget p p_pagetable;
  mret (UserEntry (TRAMPOLINE + (userret - trampoline)) (MAKE_SATP pagetable)).

Definition forkret : K user_entry :=
  p ← myproc;
  p ← deref p;
  release (LProc p);;
  first ← gets k_first;
  when first (
    modify (λ s, s <| k_first := false |>);;
    fsinit ROOTDEV);;
  usertrapret.

(** ** usertrap *)

(** [memmove(&p->alarm_trap, p->trapframe, sizeof(p->alarm_trap))]. *)
Definition save_trapframe (p : nat) (tf : Z) : K () :=
  bytes ← get_bytes tf sizeof_trapframe;
  pset p (λ q, q <| p_alarm_trap := (λ k, get_le bytes (8 * k) 8) <$> seq 0 tf_words |>).

(** The timer interrupt of a process with an alarm: [true] when the process is
    sent to its handler at once. *)
Definition alarm_tick (p : nat) : K bool :=
  maxt ← pget p p_max_alarm_ticks;
  t ← pget p p_alarm_ticks;
  when ((1 <=? maxt) && (-1 <? t)) (pset p (λ q, q <| p_alarm_ticks := i32 (t + 1) |>));;
  t ← pget p p_alarm_ticks;
  if (1 <=? maxt) && (t =? maxt) then
    pset p (λ q, q <| p_alarm_ticks := -1 |>);;
    tf ← pget p p_trapframe;
    save_trapframe p tf;;
    handler ← pget p p_handler;
    tf_set tf TF_epc handler;;
    mret true
  else mret false.

(** The store-fault handler: give the page its own copy.  [false] is the jump
    to [err]. *)
Definition cow_fault (p : nat) : K bool :=
  pagetable ← pget p p_pagetable;
  stval ← read_csr r_stval;
  pte_addr ← walk pagetable (PGROUNDDOWN stval) false;
  pte ← ld64 pte_addr;
  if Z.land pte PTE_COW =? 0 then mret false
  else
    pte ← ld64 pte_addr;
    let pa := PTE2PA pte in
    mem ← kalloc;
    kmemmove mem pa PGSIZE;;
    stval ← read_csr r_stval;
    r ← mappages pagetable (PGROUNDDOWN stval) PGSIZE mem (Z.lor (Z.lor (Z.lor PTE_R PTE_W) PTE_X) PTE_U);
    (if negb (r =? 0) then
       printk ("ERROR" +:+ nl) [];;
       pset p (λ q, q <| p_killed := 1 |>)
     else kfree pa);;
    mret true.

Definition unexpected_trap (p : nat) : K () :=
  scause ← read_csr r_scause;
  pid ← pget p p_pid;
  printk ("error in usertrap(): unexpected scause %p pid=%d" +:+ nl) [PInt scause; PInt pid];;
  sepc ← read_csr r_sepc;
  stval ← read_csr r_stval;
  printk ("            sepc=%p stval=%p" +:+ nl) [PInt sepc; PInt stval];;
  setkilled p.

(** The part of [usertrap] from the label [bad] on. *)
Definition usertrap_end (p : nat) (which_dev : Z) : K user_entry :=
  k ← pget p p_killed;
  if 1 <=? k then exit (-1)
  else
    k ← killed p;
    if ctrue k then exit (-1)
    else
      (match pol with
       | RR => when (which_dev =? 2) yield
       | MLFQ => when (which_dev =? 2) (mlfq_tick (λ qpos, qpos <=? 3))
       | _ => mret ()
       end);;
      usertrapret.

Definition usertrap : K user_entry :=
  sstatus ← read_csr r_sstatus;
  panic_if (ctrue (Z.land sstatus SSTATUS_SPP)) "usertrap: not from user mode";;
  write_csr (λ c, c <| r_stvec := kernelvec |>);;
  p ← myproc;
  p ← deref p;
  tf ← pget p p_trapframe;
  sepc ← read_csr r_sepc;
  tf_set tf TF_epc sepc;;
  scause ← read_csr r_scause;
  if scause =? 8 then
    k ← killed p;
    if ctrue k then exit (-1)
    else
      epc ← tf_get tf TF_epc;
      tf_set tf TF_epc (u64 (epc + 4));;
      intr_on;;
      syscall;;
      usertrap_end p 0
  else
    which_dev ← devintr;
    if negb (which_dev =? 0) then
      alarm ← (if which_dev =? 2 then alarm_tick p else mret false);
      if alarm : bool then usertrapret
      else
        when (which_dev =? 2) yield;;
        usertrap_end p which_dev
    else
      scause ← read_csr r_scause;
      handled ← (if scause =? 15 then cow_fault p else mret false);
      when (negb handled) (unexpected_trap p);;
      usertrap_end p which_dev.

(** ** kerneltrap *)

Definition kerneltrap : K () :=
  sepc ← read_csr r_sepc;
  sstatus ← read_csr r_sstatus;
  scause ← read_csr r_scause;
  panic_if (Z.land sstatus SSTATUS_SPP =? 0) "kerneltrap: not from supervisor mode";;
  on ← intr_get;
  panic_if on "kerneltrap: interrupts enabled";;
  which_dev ← devintr;
  if which_dev =? 0 then
    printk ("scause %p" +:+ nl) [PInt scause];;
    sepc ← read_csr r_sepc;
    stval ← read_csr r_stval;
    printk ("sepc=%p stval=%p" +:+ nl) [PInt sepc; PInt stval];;
    panic "kerneltrap"
  else
    (match pol with
     | RR =>
         when (which_dev =? 2) (
           me ← myproc;
           match me with
           | None => mret ()
           | Some _ =>
               me ← myproc;
               me ← deref me;
               st ← pget me p_state;
               when (bool_decide (st = RUNNING)) yield
           end)
     | MLFQ => when (which_dev =? 2) (mlfq_tick (λ qpos, negb (qpos =? 4)))
     | _ => mret ()
     end);;
    write_csr (λ c, c <| r_sepc := sepc |>);;
    write_csr (λ c, c <| r_sstatus := sstatus |>).
End Trap.
