(* ===== verification/TrapTick.v ===== *)
(** * TrapTick: what a clock tick does

    [clockintr] counts the tick, charges every process for it and wakes the
    processes that sleep on the clock. *)

From S2P Require Import Prelude Params CString State Spinlock PhysMem Kalloc Vm ProcBase Queue Sched Sleeplock Virtio Bio Blocks Bytes Log Fs Console File Proc Exec SysArgs Sysproc Sysfile Syscall Trap.

Implicit Types (s t : kstate) (e : env) (q : proc).

(** The accounting fields of a process are in the ranges of their C types, and
    the queue position of a live process is a queue. *)
Record proc_typed q : Prop := ProcTyped {
  pt_rtime : 0 ≤ p_rtime q < 2 ^ 32;
  pt_stime : 0 ≤ p_stime q < 2 ^ 32;
  pt_wait : 0 ≤ p_curr_wait_time q < 2 ^ 64;
  pt_qtime : length (p_queue_time q) = 5%nat ∧ Forall (λ x, - 2 ^ 31 ≤ x < 2 ^ 31) (p_queue_time q);
  pt_queue : queue_ok q;
}.

(** A tick as process [i] sees it when process [me] is running on this hart. *)
Definition ticked_woken (me : option nat) (i : nat) q : proc := woken me ChTicks i (ticked q).

Lemma incr_at_typed i l :
  length l = 5%nat ∧ Forall (λ x, - 2 ^ 31 ≤ x < 2 ^ 31) l →
  length (incr_at i l) = 5%nat ∧ Forall (λ x, - 2 ^ 31 ≤ x < 2 ^ 31) (incr_at i l).
Proof.
  intros [Hl Hf]. unfold incr_at. rewrite length_alter. split; [done|]. apply Forall_alter; [done|].
  intros x _ _. by apply (wraps_range 32).
Qed.

Lemma ticked_typed q : proc_typed q → proc_typed (ticked q).
Proof.
  intros [Hr Hs Hw Hq Hk]. unfold queue_ok in Hk. unfold ticked. destruct (p_state q) eqn:E; try (by split; rewrite ?E).
  all: split; unfold set; cbn [p_rtime p_stime p_curr_wait_time p_queue_time]; try done; try (by apply wrapu_range);
    try (by apply incr_at_typed); unfold queue_ok; cbn [p_state p_queue_position]; rewrite ?E; auto.
Qed.

Lemma woken_typed me ch i q : proc_typed q → proc_typed (woken me ch i q).
Proof.
  intros [Hr Hs Hw Hq Hk]. unfold woken. destruct (decide _) as [(_ & E & _)|]; [|done].
  split; unfold set; cbn [p_rtime p_stime p_curr_wait_time p_queue_time]; try done.
  unfold queue_ok in *. cbn [p_state p_queue_position]. rewrite E in Hk. auto.
Qed.

(** Two states with the same fields are equal. *)
Lemma kstate_eq s s' :
  k_mach s = k_mach s' → k_mem s = k_mem s' → k_freelist s = k_freelist s' → k_refCount s = k_refCount s' →
  k_procs s = k_procs s' → k_initproc s = k_initproc s' → k_nextpid s = k_nextpid s' → k_lfsr s = k_lfsr s' →
  k_bit s = k_bit s' → k_ticks s = k_ticks s' → k_queues s = k_queues s' → k_first s = k_first s' →
  k_kernel_pagetable s = k_kernel_pagetable s' → k_out s = k_out s' → k_fs s = k_fs s' → k_cons s = k_cons s' →
  k_irq s = k_irq s' → k_started s = k_started s' → s = s'.
Proof. destruct s, s'; cbn. intros; subst; reflexivity. Qed.

Section Tick.
Variables (e : env) (s : kstate).
Hypothesis Hready : proc_ready s.
Hypothesis Hfree : lock_free LTicks (k_mach s).
Hypothesis Hqueue : Forall queue_ok (k_procs s).

Let me := c_proc (cpu_of (k_mach s)).

Lemma clockintr_run :
  clockintr e s = Ret () e (s <| k_mach ::= settle |> <| k_ticks ::= λ n, u32 (n + 1) |>
                              <| k_procs ::= imap (ticked_woken me) |>).
Proof using Hready Hfree Hqueue.
  destruct Hready as [Hw Hf Hl]. unfold clockintr. run (acquire_free LTicks e s Hw Hfree). krun.
  set (m1 := mlock LTicks (k_mach s)).
  assert (wf_mach m1) as Hw1 by (by apply wf_mlock).
  assert (settle m1 = m1) as Hs1 by (by apply settle_mlock).
  assert (c_proc (cpu_of m1) = me) as Hme by (by apply mlock_proc).
  set (s1 := s <| k_mach ::= mlock LTicks |> <| k_ticks ::= λ n, u32 (n + 1) |>).
  assert (proc_ready s1) as Hr1.
  { split; [done| |done]. intros i Hi. apply mlock_free; [done|by apply Hf]. }
  run (update_time_run e s1 Hr1 Hqueue).
  set (s2 := s1 <| k_mach ::= settle |> <| k_procs ::= imap (λ _, ticked) |>).
  assert (k_mach s2 = m1) as Hm2 by exact Hs1.
  assert (proc_ready s2) as Hr2.
  { split; [by rewrite Hm2| |].
    - intros i Hi. rewrite Hm2. apply mlock_free; [done|by apply Hf].
    - change (length (imap (λ _, ticked) (k_procs s)) = NPROC). by rewrite length_imap. }
  run (wakeup_run ChTicks e s2 Hr2). rewrite Hm2, Hme.
  set (s3 := s2 <| k_mach ::= settle |> <| k_procs ::= imap (woken me ChTicks) |>).
  assert (k_mach s3 = m1) as Hm3 by (change (settle (k_mach s2) = m1); by rewrite Hm2).
  rewrite (release_after LTicks e s3 (k_mach s) Hm3 Hw Hfree). f_equal.
  assert (k_procs s3 = imap (ticked_woken me) (k_procs s)) as Hp3.
  { change (k_procs s3) with (imap (woken me ChTicks) (imap (λ _, ticked) (k_procs s))). 
    apply list_eq. intros i. rewrite !list_lookup_imap. by destruct (k_procs s !! i). }
  clearbody me. apply kstate_eq; try reflexivity. exact Hp3.
Qed.
End Tick.

(** C37: a clock tick.  [clockintr] adds one to [ticks], modulo 2^32; it charges
    the tick to every process according to its state (running time, sleeping
    time, waiting time, time in its queue); it makes runnable exactly the other
    processes that sleep on the clock; it changes nothing else and leaves no lock
    held; and the accounting fields keep within their C types. *)
Theorem clockintr_correct e s :
  proc_ready s → lock_free LTicks (k_mach s) → Forall proc_typed (k_procs s) →
  clockintr e s = Ret () e (s <| k_mach ::= settle |> <| k_ticks ::= λ n, u32 (n + 1) |>
    <| k_procs ::= imap (ticked_woken (c_proc (cpu_of (k_mach s)))) |>) ∧
  Forall proc_typed (imap (ticked_woken (c_proc (cpu_of (k_mach s)))) (k_procs s)).
Proof.
  intros Hr Hf Ht. split.
  - apply clockintr_run; [done|done|]. eapply Forall_impl; [exact Ht|]. by intros q [].
  - apply Forall_lookup. intros i q. rewrite list_lookup_imap. destruct (k_procs s !! i) as [p|] eqn:E; [|done].
    intros [= <-]. apply woken_typed, ticked_typed. by eapply (Forall_lookup_1 _ _ i _ Ht).
Qed.

(** A process asleep on the clock, another one running. *)
Definition ex_tick : kstate :=
  ex_procs (Some 3%nat) (<[3%nat := proc0 <| p_state := RUNNING |>]>
    (<[5%nat := proc0 <| p_state := SLEEPING |> <| p_chan := Some ChTicks |>]> (replicate NPROC proc0))).

Lemma proc0_typed (st : procstate) (ch : option chan) : proc_typed (proc0 <| p_state := st |> <| p_chan := ch |>).
Proof.
  split; unfold set; cbn [p_rtime p_stime p_curr_wait_time p_queue_time proc0]; try lia.
  - split; [done|]. by apply Forall_replicate.
  - intros _. unfold proc0. cbn. lia.
Qed.

Lemma clockintr_correct_witness :
  ∃ s', clockintr [] ex_tick = Ret () [] s' ∧ k_ticks s' = 1 ∧
    p_rtime <$> k_procs s' !! 3%nat = Some 1 ∧ p_state <$> k_procs s' !! 5%nat = Some RUNNABLE.
Proof.
  destruct (clockintr_correct [] ex_tick) as [E _].
  - apply ex_procs_ready. rewrite !length_insert. apply length_replicate.
  - vm_compute. reflexivity.
  - unfold ex_tick. cbn [k_procs ex_procs]. apply Forall_insert; [apply Forall_insert; [apply Forall_replicate|]|].
    + apply (proc0_typed UNUSED None).
    + apply proc0_typed.
    + apply (proc0_typed RUNNING None).
  - eexists. split; [exact E|]. split; [reflexivity|]. split; vm_compute; reflexivity.
Defined.
