(* ===== verification/Alarm.v ===== *)
(** * Alarm: sigalarm and sigreturn

    When an alarm expires, [usertrap] saves the interrupted process's registers
    and sends it to its handler; the handler ends with the sigreturn system
    call.  This file relates the registers at the interrupt to those after the
    system call. *)

From S2P Require Import Prelude Params CString State Spinlock PhysMem Kalloc Vm VmCopy ProcBase Queue Sched Sleeplock Virtio Bio Blocks Bytes Log Fs Console File Proc Exec SysArgs Sysproc Sysfile Syscall Trap.

Implicit Types (s : kstate) (e : env) (q : proc).

(** ** Words and bytes *)

Lemma le_bytes_of_le l : Forall (λ x, 0 ≤ x < 256) l → le_bytes (length l) (of_le l) = l.
Proof.
  induction 1 as [|x l Hx _ IH]; [done|]. cbn [length le_bytes of_le].
  rewrite (Z.mul_comm 256), Z.mod_add, Z.mod_small, Z.div_add, Z.div_small by lia. by rewrite Z.add_0_l, IH.
Qed.

Definition is_byte (x : Z) : Prop := 0 ≤ x < 256.

Lemma words_of_bytes bs n j :
  Forall is_byte bs → (8 * (j + n) ≤ length bs)%nat →
  concat (le_bytes 8 <$> ((λ k : nat, get_le bs (8 * k) 8) <$> seq j n)) = take (8 * n) (drop (8 * j) bs).
Proof.
  intros Hb. revert j. induction n as [|n IH]; intros j Hl; [by rewrite Nat.mul_0_r|].
  cbn [seq fmap list_fmap concat]. rewrite IH by lia.
  assert (length (slice bs (8 * j) 8) = 8%nat) as H8 by (unfold slice; rewrite length_take, length_drop; lia).
  assert (le_bytes 8 (get_le bs (8 * j) 8) = slice bs (8 * j) 8) as ->.
  { unfold get_le. rewrite <- H8 at 1. apply le_bytes_of_le. apply Forall_take, Forall_drop, Hb. }
  unfold slice. replace (8 * S n)%nat with (8 + 8 * n)%nat by lia.
  rewrite <- take_take_drop, drop_drop. do 3 f_equal. lia.
Qed.

(** The registers saved in [p->alarm_trap]. *)
Definition saved_words (m : memory) (tf : Z) : list Z :=
  (λ k : nat, get_le (load_bytes m tf 288) (8 * k) 8) <$> seq 0 tf_words.

Lemma trap_bytes_saved m tf :
  (∀ x, tf ≤ x < tf + 288 → is_byte (m x)) → trap_bytes (saved_words m tf) = load_bytes m tf 288.
Proof.
  intros Hm. unfold trap_bytes, saved_words. assert (length (load_bytes m tf 288) = 288%nat) as Hl.
  { unfold load_bytes. by rewrite length_fmap, length_seq. }
  rewrite (words_of_bytes _ tf_words 0).
  - rewrite Nat.mul_0_r, drop_0, take_ge; [done|]. rewrite Hl. unfold tf_words. lia.
  - apply Forall_lookup. intros i x Hx. unfold load_bytes in Hx. apply list_lookup_fmap_Some in Hx as (k & -> & Hk).
    apply lookup_seq in Hk as [-> Hk]. apply Hm. lia.
  - rewrite Hl. unfold tf_words. lia.
Qed.

(** ** Running the two halves *)

(** The trapframe at [tf] lies in RAM. *)
Definition tf_ok (tf : Z) : Prop := KERNBASE ≤ tf ∧ tf + 288 ≤ PHYSTOP.

Lemma tf_ram tf off n : tf_ok tf → 0 ≤ off → off + n ≤ 288 → in_ram (tf + off) n = true.
Proof. intros [H1 H2] Ho Hn. apply in_ram_spec. lia. Qed.

Lemma tf_set_run tf off v e s : tf_ok tf → 0 ≤ off ≤ 280 →
  tf_set tf off v e s = Ret () e (s <| k_mem ::= λ m, le_store m (tf + off) (u64 v) 8 |>).
Proof. intros Ht Ho. apply st64_run. apply tf_ram; [done|lia|lia]. Qed.

Lemma tf_get_run tf off e s : tf_ok tf → 0 ≤ off ≤ 280 →
  tf_get tf off e s = Ret (le_load (k_mem s) (tf + off) 8) e s.
Proof. intros Ht Ho. apply ld64_run. apply tf_ram; [done|lia|lia]. Qed.

Lemma save_trapframe_run p tf e s : tf_ok tf → (p < length (k_procs s))%nat →
  save_trapframe p tf e s =
    Ret () e (s <| k_procs ::= alter (λ q, q <| p_alarm_trap := saved_words (k_mem s) tf |>) p |>).
Proof.
  intros Ht Hp. unfold save_trapframe, get_bytes. krun.
  assert (in_ram tf sizeof_trapframe = true) as Hr.
  { pose proof (tf_ram tf 0 288 Ht ltac:(lia) ltac:(lia)) as H. by rewrite Z.add_0_r in H. }
  rewrite Hr, orb_true_r. krun. by rewrite pset_run.
Qed.

(** The process after its alarm has gone off. *)
Definition alarmed (m : memory) (q : proc) : proc :=
  q <| p_alarm_ticks := -1 |> <| p_alarm_trap := saved_words m (p_trapframe q) |>.

Lemma alarm_fires p q e s :
  k_procs s !! p = Some q → tf_ok (p_trapframe q) → 1 ≤ p_max_alarm_ticks q < 2 ^ 31 → -1 < p_alarm_ticks q →
  p_alarm_ticks q + 1 = p_max_alarm_ticks q →
  ∃ s1, alarm_tick p e s = Ret true e s1 ∧ k_procs s1 !! p = Some (alarmed (k_mem s) q) ∧
    k_mem s1 = le_store (k_mem s) (p_trapframe q + TF_epc) (u64 (p_handler q)) 8.
Proof.
  intros Hq Ht Hm Hp He. assert (p < length (k_procs s))%nat as Hl by (by eapply lookup_lt_Some).
  change (2 ^ 31) with 2147483648 in Hm.
  unfold alarm_tick. run (pget_run p p_max_alarm_ticks q e s Hq). run (pget_run p p_alarm_ticks q e s Hq). krun.
  destruct (Z.leb_spec 1 (p_max_alarm_ticks q)); [|lia]. destruct (Z.ltb_spec (-1) (p_alarm_ticks q)); [|lia].
  cbn [andb]. rewrite (wraps_id 32) by (change (2 ^ (32 - 1)) with 2147483648; lia). rewrite He.
  erewrite bind_Ret by (by apply pset_run).
  set (s1 := s <| k_procs ::= alter _ p |>). set (q1 := q <| p_alarm_ticks := p_max_alarm_ticks q |>).
  assert (k_procs s1 !! p = Some q1) as H1 by (by apply k_procs_alter_eq). 
  assert (p < length (k_procs s1))%nat as L1 by (by eapply lookup_lt_Some).
  run (pget_run p p_alarm_ticks q1 e s1 H1). change (p_alarm_ticks q1) with (p_max_alarm_ticks q). rewrite Z.eqb_refl.
  erewrite bind_Ret by (by apply pset_run).
  set (s2 := s1 <| k_procs ::= alter _ p |>). set (q2 := q1 <| p_alarm_ticks := -1 |>).
  assert (k_procs s2 !! p = Some q2) as H2 by (by apply k_procs_alter_eq).
  assert (p < length (k_procs s2))%nat as L2 by (by eapply lookup_lt_Some).
  run (pget_run p p_trapframe q2 e s2 H2). change (p_trapframe q2) with (p_trapframe q).
  run (save_trapframe_run p (p_trapframe q) e s2 Ht L2). change (k_mem s2) with (k_mem s).
  set (s3 := s2 <| k_procs ::= alter _ p |>).
  assert (k_procs s3 !! p = Some (alarmed (k_mem s) q)) as H3 by (by apply (k_procs_alter_eq _ _ _ q2)).
  run (pget_run p p_handler _ e s3 H3). change (p_handler (alarmed (k_mem s) q)) with (p_handler q).
  run (tf_set_run (p_trapframe q) TF_epc (p_handler q) e s3 Ht ltac:(unfold TF_epc; lia)).
  eexists. split; [reflexivity|]. split; [exact H3|done].
Qed.

(** While a handler runs, or when no alarm is set, a tick does not send the
    process to its handler. *)
Lemma alarm_quiet p q e s :
  k_procs s !! p = Some q → p_max_alarm_ticks q < 1 ∨ p_alarm_ticks q = -1 → alarm_tick p e s = Ret false e s.
Proof.
  intros Hq Hc. unfold alarm_tick. run (pget_run p p_max_alarm_ticks q e s Hq). run (pget_run p p_alarm_ticks q e s Hq). krun.
  assert ((1 <=? p_max_alarm_ticks q) && (-1 <? p_alarm_ticks q) = false) as ->.
  { destruct Hc as [Hc| ->]; [by destruct (Z.leb_spec 1 (p_max_alarm_ticks q)); [lia|]|by rewrite andb_false_r]. }
  run (pget_run p p_alarm_ticks q e s Hq).
  destruct (Z.leb_spec 1 (p_max_alarm_ticks q)), (Z.eqb_spec (p_alarm_ticks q) (p_max_alarm_ticks q)); (done || lia).
Qed.

(** Putting the saved registers back. *)
Lemma restore_mem m0 m tf x :
  (∀ y, tf ≤ y < tf + 288 → is_byte (m0 y)) →
  store_bytes m tf (trap_bytes (saved_words m0 tf)) x = if (tf <=? x) && (x <? tf + 288) then m0 x else m x.
Proof.
  intros Hb. rewrite trap_bytes_saved, store_bytes_spec by done. unfold load_bytes at 1. rewrite length_fmap, length_seq.
  change (Z.of_nat 288) with 288. destruct (Z.leb_spec tf x), (Z.ltb_spec x (tf + 288)); cbn [andb]; try done.
  unfold load_bytes. rewrite nth_lookup, list_lookup_fmap, lookup_seq_lt by lia. cbn. f_equal. lia.
Qed.

(** Process [p], described by [q], makes system call [num] on this hart. *)
Record calls (p : nat) q (num : Z) s : Prop := Calls {
  cl_wf : wf_mach (k_mach s);
  cl_proc : c_proc (cpu_of (k_mach s)) = Some p;
  cl_q : k_procs s !! p = Some q;
  cl_tf : tf_ok (p_trapframe q);
  cl_num : le_load (k_mem s) (p_trapframe q + TF_a7) 8 = num;
}.

Lemma myproc_calls p q num e s : calls p q num s →
  myproc e s = Ret (Some p) e (s <| k_mach ::= settle |>) ∧ calls p q num (s <| k_mach ::= settle |>).
Proof.
  intros [Hw Hp Hq Ht Hn]. split; [rewrite <- Hp; by apply myproc_run|]. split; [by apply wf_settle| |done|done|done].
  change (c_proc (cpu_of (settle (k_mach s))) = Some p). by rewrite settle_proc.
Qed.

Lemma sys_sigreturn_run p q num e s :
  calls p q num s → p_alarm_ticks q = -1 → length (trap_bytes (p_alarm_trap q)) = 288%nat →
  sys_sigreturn e s = Ret 0 e (s <| k_mach ::= settle |>
    <| k_procs ::= alter (λ r, r <| p_alarm_ticks := 0 |>) p |>
    <| k_mem ::= λ m, store_bytes m (p_trapframe q) (trap_bytes (p_alarm_trap q)) |>).
Proof.
  intros Hc Ha Hlen. destruct (myproc_calls p q num e s Hc) as [E [_ _ Hq Ht _]].
  unfold sys_sigreturn. run E. cbn [deref]. krun. set (s1 := s <| k_mach ::= settle |>) in *.
  assert (p < length (k_procs s1))%nat as Hl by (by eapply lookup_lt_Some).
  run (pget_run p p_alarm_ticks q e s1 Hq). rewrite Ha. change (-1 =? -1) with true. cbv match.
  erewrite bind_Ret by (by apply pset_run). set (s2 := s1 <| k_procs ::= alter _ p |>).
  set (q2 := q <| p_alarm_ticks := 0 |>). assert (k_procs s2 !! p = Some q2) as H2 by (by apply k_procs_alter_eq).
  run (pget_run p p_trapframe q2 e s2 H2). run (pget_run p p_alarm_trap q2 e s2 H2).
  change (p_trapframe q2) with (p_trapframe q). change (p_alarm_trap q2) with (p_alarm_trap q).
  unfold put_bytes. krun. rewrite Hlen. change (Z.of_nat 288) with 288.
  pose proof (tf_ram (p_trapframe q) 0 288 Ht ltac:(lia) ltac:(lia)) as Hr. rewrite Z.add_0_r in Hr.
  rewrite Hr, orb_true_r. done.
Qed.

(** Outside a handler, or when the handler has set a new alarm, sigreturn fails. *)
Lemma sys_sigreturn_idle p q num e s :
  calls p q num s → p_alarm_ticks q ≠ -1 → sys_sigreturn e s = Ret (-1) e (s <| k_mach ::= settle |>).
Proof.
  intros Hc Ha. destruct (myproc_calls p q num e s Hc) as [E [_ _ Hq _ _]]. unfold sys_sigreturn. run E. cbn [deref]. krun.
  run (pget_run p p_alarm_ticks q e (s <| k_mach ::= settle |>) Hq). by destruct (Z.eqb_spec (p_alarm_ticks q) (-1)).
Qed.

Section Sigreturn.
Context `{!Image}.

(** The dispatcher around system call 24, which is sigreturn. *)
Lemma syscall_24 p q q2 e s s2 r :
  calls p q 24 s → sys_sigreturn e (s <| k_mach ::= settle |>) = Ret r e s2 →
  k_procs s2 !! p = Some q2 → p_trapframe q2 = p_trapframe q → p_trace_mask q2 = 0 →
  syscall e s = Ret () e (s2 <| k_mem ::= λ m, le_store m (p_trapframe q + TF_a0) (u64 r) 8 |>).
Proof.
  intros Hc E2 H2 Htf Hmask. destruct (myproc_calls p q 24 e s Hc) as [E Hc1]. pose proof Hc1 as [_ _ Hq Ht Hn].
  unfold syscall. run E. cbn [deref]. krun. set (s1 := s <| k_mach ::= settle |>) in *.
  run (pget_run p p_trapframe q e s1 Hq). run (tf_get_run (p_trapframe q) TF_a7 e s1 Ht ltac:(unfold TF_a7; lia)).
  rewrite Hn. change (i32 24) with 24. cbv zeta.
  change (if (0 <? 24) && (24 <? NSYSCALLS) then syscalls 24 else None) with (Some sys_sigreturn). cbv match.
  run E2. run (pget_run p p_trapframe q2 e s2 H2). rewrite Htf.
  run (tf_set_run (p_trapframe q) TF_a0 r e s2 Ht ltac:(unfold TF_a0; lia)).
  set (s4 := s2 <| k_mem ::= _ |>). assert (k_procs s4 !! p = Some q2) as H4 by exact H2.
  run (pget_run p p_trace_mask q2 e s4 H4). rewrite Hmask, Z.land_0_r. done.
Qed.

Lemma syscall_sigreturn p q e s :
  calls p q 24 s → p_alarm_ticks q = -1 → length (trap_bytes (p_alarm_trap q)) = 288%nat → p_trace_mask q = 0 →
  ∃ s', syscall e s = Ret () e s' ∧ k_procs s' = alter (λ r, r <| p_alarm_ticks := 0 |>) p (k_procs s) ∧
    k_mem s' = le_store (store_bytes (k_mem s) (p_trapframe q) (trap_bytes (p_alarm_trap q))) (p_trapframe q + TF_a0) 0 8.
Proof.
  intros Hc Ha Hlen Hmask. destruct (myproc_calls p q 24 e s Hc) as [_ Hc1]. pose proof Hc1 as [_ _ Hq _ _].
  pose proof (sys_sigreturn_run p q 24 e _ Hc1 Ha Hlen) as E2.
  eexists. split; [apply (syscall_24 p q (q <| p_alarm_ticks := 0 |>) e s _ 0 Hc E2); [|done..]|done].
  match goal with |- k_procs ?t !! p = _ => change (k_procs t) with (alter (λ r, r <| p_alarm_ticks := 0 |>) p (k_procs s)) end.
  rewrite list_lookup_alter_eq. by change (k_procs (s <| k_mach ::= settle |>)) with (k_procs s) in Hq; rewrite Hq.
Qed.

Lemma syscall_sigreturn_idle p q e s :
  calls p q 24 s → p_alarm_ticks q ≠ -1 → p_trace_mask q = 0 →
  ∃ s', syscall e s = Ret () e s' ∧ k_procs s' = k_procs s ∧
    k_mem s' = le_store (k_mem s) (p_trapframe q + TF_a0) (u64 (-1)) 8.
Proof.
  intros Hc Ha Hmask. destruct (myproc_calls p q 24 e s Hc) as [_ Hc1]. pose proof Hc1 as [_ _ Hq _ _].
  pose proof (sys_sigreturn_idle p q 24 e _ Hc1 Ha) as E2.
  eexists. split; [apply (syscall_24 p q q e s _ (-1) Hc E2); [exact Hq|done..]|done].
Qed.
End Sigreturn.

Lemma length_trap_bytes m tf : length (trap_bytes (saved_words m tf)) = 288%nat.
Proof.
  unfold trap_bytes, saved_words. generalize (load_bytes m tf 288). intros l. unfold tf_words.
  cbn [seq fmap list_fmap concat]. rewrite !length_app, !length_le_bytes. done.
Qed.

(** ** Ticks *)

(** The next [n] timer interrupts of a process: which ones send it to its handler. *)
Fixpoint ticks (p n : nat) : K (list bool) :=
  match n with O => mret [] | S n' => b ← alarm_tick p; bs ← ticks p n'; mret (b :: bs) end.

Lemma alarm_counts p q e s :
  k_procs s !! p = Some q → 1 ≤ p_max_alarm_ticks q < 2 ^ 31 → 0 ≤ p_alarm_ticks q → p_alarm_ticks q + 1 < p_max_alarm_ticks q →
  alarm_tick p e s = Ret false e (s <| k_procs ::= alter (λ q, q <| p_alarm_ticks := p_alarm_ticks q + 1 |>) p |>).
Proof.
  intros Hq Hm Hp Hlt. change (2 ^ 31) with 2147483648 in Hm. assert (p < length (k_procs s))%nat as Hl by (by eapply lookup_lt_Some).
  unfold alarm_tick. run (pget_run p p_max_alarm_ticks q e s Hq). run (pget_run p p_alarm_ticks q e s Hq). krun.
  destruct (Z.leb_spec 1 (p_max_alarm_ticks q)); [|lia]. destruct (Z.ltb_spec (-1) (p_alarm_ticks q)); [|lia].
  cbn [andb]. rewrite (wraps_id 32) by (change (2 ^ (32 - 1)) with 2147483648; lia).
  erewrite bind_Ret by (by apply pset_run).
  set (s1 := s <| k_procs ::= alter _ p |>). set (q1 := q <| p_alarm_ticks := p_alarm_ticks q + 1 |>).
  assert (k_procs s1 !! p = Some q1) as H1 by (by apply k_procs_alter_eq).
  run (pget_run p p_alarm_ticks q1 e s1 H1). change (p_alarm_ticks q1) with (p_alarm_ticks q + 1).
  destruct (Z.eqb_spec (p_alarm_ticks q + 1) (p_max_alarm_ticks q)); [lia|]. unfold mret, KM_ret. f_equal.
  unfold s1, set. f_equal. apply list_alter_ext; [|done]. intros x Hx. congruence.
Qed.

(** The alarm of a process whose count is [t] goes off at the tick that takes the
    count to the maximum, and not before. *)
Lemma ticks_fire n p q e s :
  k_procs s !! p = Some q → tf_ok (p_trapframe q) → 1 ≤ p_max_alarm_ticks q < 2 ^ 31 → 0 ≤ p_alarm_ticks q →
  p_alarm_ticks q + Z.of_nat n + 1 = p_max_alarm_ticks q →
  ∃ s1, ticks p (S n) e s = Ret (replicate n false ++ [true]) e s1 ∧
    k_procs s1 !! p = Some (alarmed (k_mem s) q) ∧
    k_mem s1 = le_store (k_mem s) (p_trapframe q + TF_epc) (u64 (p_handler q)) 8.
Proof.
  revert q s. induction n as [|n IH]; intros q s Hq Ht Hm H0 Hn.
  - destruct (alarm_fires p q e s Hq Ht Hm) as (s1 & E & H1 & Hmem); [lia|lia|]. exists s1. cbn [ticks]. run E. done.
  - change (ticks p (S (S n))) with (b ← alarm_tick p; bs ← ticks p (S n); mret (b :: bs)).
    run (alarm_counts p q e s Hq Hm H0 ltac:(lia)). set (s1 := s <| k_procs ::= _ |>).
    set (q1 := q <| p_alarm_ticks := p_alarm_ticks q + 1 |>).
    assert (k_procs s1 !! p = Some q1) as H1 by exact (k_procs_alter_eq s (λ q, q <| p_alarm_ticks := p_alarm_ticks q + 1 |>) p q Hq).
    destruct (IH q1 s1 H1 Ht Hm) as (s2 & E & H2 & Hmem);
      [change (0 ≤ p_alarm_ticks q + 1); lia|change (p_alarm_ticks q + 1 + Z.of_nat n + 1 = p_max_alarm_ticks q); lia|].
    exists s2. run E. done.
Qed.

(** The process record has the same alarm, whatever the kernel has counted in its
    other fields, as [update_time] does at every tick. *)
Record same_alarm q q' : Prop := SameAlarm {
  sa_max : p_max_alarm_ticks q' = p_max_alarm_ticks q;
  sa_ticks : p_alarm_ticks q' = p_alarm_ticks q;
  sa_handler : p_handler q' = p_handler q;
  sa_trap : p_alarm_trap q' = p_alarm_trap q;
  sa_frame : p_trapframe q' = p_trapframe q;
}.

(** C19: alarms.  When the alarm of a process expires, the process continues in
    its handler with its registers saved, and until it calls sigreturn or
    sigalarm no tick sends it to the handler again.  The sigreturn system call
    then puts every saved register back as it was at the interrupt, whatever the
    handler has done to them, with the exception of a0: the dispatcher stores the
    system call's return value there.  The count starts again from 0: the alarm
    goes off at the [p_max_alarm_ticks q]-th tick after the sigreturn and not before.  A
    sigreturn of a process whose count is not -1, as it is after sigalarm
    has been called in the handler, returns -1 and restores nothing. *)
Theorem alarm_roundtrip `{!Image} p q e s :
  k_procs s !! p = Some q → tf_ok (p_trapframe q) → 1 ≤ p_max_alarm_ticks q < 2 ^ 31 →
  -1 < p_alarm_ticks q → p_alarm_ticks q + 1 = p_max_alarm_ticks q →
  (∀ x, p_trapframe q ≤ x < p_trapframe q + 288 → is_byte (k_mem s x)) →
  ∃ s1 q1, alarm_tick p e s = Ret true e s1 ∧ k_procs s1 !! p = Some q1 ∧ p_alarm_ticks q1 = -1 ∧
    le_load (k_mem s1) (p_trapframe q + TF_epc) 8 = u64 (p_handler q) ∧
    (∀ e' s2 q2, k_procs s2 !! p = Some q2 → p_alarm_ticks q2 = -1 → alarm_tick p e' s2 = Ret false e' s2) ∧
    (∀ e' s2 q2, calls p q2 24 s2 → same_alarm q1 q2 → p_trace_mask q2 = 0 →
      ∃ s3, syscall e' s2 = Ret () e' s3 ∧
        le_load (k_mem s3) (p_trapframe q + TF_a0) 8 = 0 ∧
        (∀ x, p_trapframe q ≤ x < p_trapframe q + 288 →
          x < p_trapframe q + TF_a0 ∨ p_trapframe q + TF_a1 ≤ x → k_mem s3 x = k_mem s x) ∧
        k_procs s3 = alter (λ r, r <| p_alarm_ticks := 0 |>) p (k_procs s2) ∧
        ∃ s4, ticks p (Z.to_nat (p_max_alarm_ticks q)) e' s3 =
                Ret (replicate (Z.to_nat (p_max_alarm_ticks q) - 1) false ++ [true]) e' s4 ∧
          le_load (k_mem s4) (p_trapframe q + TF_epc) 8 = u64 (p_handler q)) ∧
    (∀ e' s2 q2, calls p q2 24 s2 → p_alarm_ticks q2 ≠ -1 → p_trace_mask q2 = 0 →
      ∃ s3, syscall e' s2 = Ret () e' s3 ∧ k_procs s3 = k_procs s2 ∧
        k_mem s3 = le_store (k_mem s2) (p_trapframe q2 + TF_a0) (u64 (-1)) 8).
Proof.
  intros Hq Ht Hm Ha He Hb. destruct (alarm_fires p q e s Hq Ht Hm Ha He) as (s1 & E & H1 & Hmem).
  assert (∀ m v, le_load (le_store m (p_trapframe q + TF_epc) (u64 v) 8) (p_trapframe q + TF_epc) 8 = u64 v) as Hld.
  { intros m v. rewrite le_load_store. change (256 ^ Z.of_nat 8) with (2 ^ 64). apply Z.mod_small. by apply wrapu_range. }
  exists s1, (alarmed (k_mem s) q). split; [done|]. split; [done|]. split; [done|]. split; [by rewrite Hmem|].
  split; [intros e' s2 q2 H2 Hm2; apply (alarm_quiet p q2 e' s2 H2); by right|].
  split; [|intros e' s2 q2; apply syscall_sigreturn_idle].
  intros e' s2 q2 Hc [S1 S2 S3 S4 S5] Hmask. cbn [alarmed] in *.
  change (p_alarm_trap (alarmed (k_mem s) q)) with (saved_words (k_mem s) (p_trapframe q)) in S4.
  change (p_trapframe (alarmed (k_mem s) q)) with (p_trapframe q) in S5.
  destruct (syscall_sigreturn p q2 e' s2 Hc S2 ltac:(rewrite S4; apply length_trap_bytes) Hmask) as (s3 & E3 & P3 & M3).
  rewrite S4, S5 in M3. exists s3. split; [done|]. split; [by rewrite M3, le_load_store|]. split; [|split; [done|]].
  - intros x Hx Ho. rewrite M3, le_store_other by (unfold TF_a0, TF_a1 in *; lia).
    rewrite restore_mem by done. destruct (Z.leb_spec (p_trapframe q) x); [|lia].
    by destruct (Z.ltb_spec x (p_trapframe q + 288)); [|lia].
  - set (q3 := q2 <| p_alarm_ticks := 0 |>).
    assert (k_procs s3 !! p = Some q3) as H3 by (by rewrite P3, list_lookup_alter_eq, (cl_q _ _ _ _ Hc)).
    change (p_max_alarm_ticks (alarmed (k_mem s) q)) with (p_max_alarm_ticks q) in S1.
    destruct (ticks_fire (Z.to_nat (p_max_alarm_ticks q) - 1) p q3 e' s3 H3) as (s4 & E4 & _ & M4).
    + change (tf_ok (p_trapframe q2)). by rewrite S5.
    + change (1 ≤ p_max_alarm_ticks q2 < 2 ^ 31). by rewrite S1.
    + done.
    + change (0 + Z.of_nat (Z.to_nat (p_max_alarm_ticks q) - 1) + 1 = p_max_alarm_ticks q2). rewrite S1. lia.
    + exists s4. replace (S (Z.to_nat (p_max_alarm_ticks q) - 1)) with (Z.to_nat (p_max_alarm_ticks q)) in E4 by lia.
      split; [exact E4|]. change (p_trapframe q3) with (p_trapframe q2) in M4. change (p_handler q3) with (p_handler q2) in M4.
      rewrite M4, S5, S3. change (p_handler (alarmed (k_mem s) q)) with (p_handler q). apply Hld.
Qed.

(** Process 3 asks for an alarm after one tick. *)
Definition ex_alarm_proc : proc :=
  proc0 <| p_state := RUNNING |> <| p_trapframe := KERNBASE |> <| p_max_alarm_ticks := 1 |> <| p_handler := 64 |>.
Definition ex_alarm : kstate := ex_procs (Some 3%nat) (<[3%nat := ex_alarm_proc]> (replicate NPROC proc0)).

Lemma alarm_roundtrip_witness :
  ∃ s1, alarm_tick 3%nat [] ex_alarm = Ret true [] s1 ∧ le_load (k_mem s1) (KERNBASE + TF_epc) 8 = 64.
Proof.
  destruct (@alarm_roundtrip small_image 3%nat ex_alarm_proc [] ex_alarm) as (s1 & q1 & E & _ & _ & Hepc & _).
  - vm_compute. reflexivity.
  - vm_compute. split; discriminate.
  - vm_compute. split; [discriminate|reflexivity].
  - vm_compute. reflexivity.
  - vm_compute. reflexivity.
  - intros x _. change (0 ≤ 0 < 256). lia.
  - exists s1. split; [exact E|]. exact Hepc.
Defined.
