(* ===== verification/ProcLife.v ===== *)
(** * ProcLife: killing processes, and what the priority scheduler picks

    [kill] as a function on the process table, and the behaviour of the
    priority scheduler's search for the smallest priority. *)

From S2P Require Import Prelude Params CString State Spinlock PhysMem Kalloc Vm ProcBase Queue Sched.

Implicit Types (s t : kstate) (e : env) (q : proc).

(** ** Searching the process table *)

(** A search over the table, from index [n] on, whose body leaves the table
    alone until it finds a process that satisfies [P]. *)
Lemma scan_procs {R} (body : nat → K (option R)) (P : proc → bool) (g : proc → proc) (r : R) e s :
  proc_ready s →
  (∀ i q t, proc_ready t → (i < NPROC)%nat → k_procs t !! i = Some q →
     body i e t = if P q then Ret (Some r) e (t <| k_mach ::= settle |> <| k_procs ::= alter g i |>)
                  else Ret None e (t <| k_mach ::= settle |>)) →
  scan procs body e s =
    match list_find (λ q, P q = true) (k_procs s) with
    | Some (i, _) => Ret (Some r) e (s <| k_mach ::= settle |> <| k_procs ::= alter g i |>)
    | None => Ret None e (s <| k_mach ::= settle |>)
    end.
Proof.
  intros Hr Hb. pose proof Hr as [Hw Hf Hl].
  assert (s <| k_mach ::= settle |> <| k_mach ::= settle |> = s <| k_mach ::= settle |>) as Hss.
  { rewrite k_mach_upd2. apply k_mach_ext. by apply settle_settle. }
  assert (∀ k n, (n + k = NPROC)%nat →
    scan (seq n k) body e (s <| k_mach ::= settle |>) =
    match list_find (λ q, P q = true) (drop n (k_procs s)) with
    | Some (i, _) => Ret (Some r) e (s <| k_mach ::= settle |> <| k_procs ::= alter g (n + i)%nat |>)
    | None => Ret None e (s <| k_mach ::= settle |>)
    end) as Hloop.
  { induction k as [|k IH]; intros n Hn.
    - rewrite drop_ge by lia. done.
    - destruct (lookup_lt_is_Some_2 (k_procs s) n ltac:(lia)) as [q Hq].
      rewrite (drop_S _ _ _ Hq). cbn [seq scan list_find].
      pose proof (Hb n q _ (proc_ready_settle s Hr) ltac:(lia) Hq) as Hbn. rewrite Hss in Hbn.
      destruct (P q) eqn:EP; rewrite (bind_Ret _ _ _ _ _ _ _ Hbn).
      + rewrite decide_True by done. by rewrite Nat.add_0_r.
      + rewrite decide_False by done. rewrite IH by lia.
        destruct (list_find _ (drop (S n) (k_procs s))) as [[i x]|]; [|done]. cbn. by rewrite Nat.add_succ_r. }
  destruct (lookup_lt_is_Some_2 (k_procs s) 0%nat ltac:(rewrite Hl; unfold NPROC; lia)) as [q Hq].
  pose proof (Hb 0%nat q s Hr ltac:(unfold NPROC; lia) Hq) as Hb0.
  destruct (k_procs s) as [|q' ps] eqn:Eps; [done|]. injection Hq as ->.
  change procs with (0%nat :: seq 1 63). cbn [scan list_find]. destruct (P q) eqn:EP; rewrite (bind_Ret _ _ _ _ _ _ _ Hb0).
  - by rewrite decide_True.
  - rewrite decide_False by done. rewrite (Hloop 63%nat 1%nat) by done. cbn [drop].
    rewrite drop_0. by destruct (list_find _ ps) as [[i x]|].
Qed.

(** ** kill *)

(** What [kill] does to its victim. *)
Definition victim q : proc :=
  if decide (p_state q = SLEEPING) then q <| p_killed := 1 |> <| p_state := RUNNABLE |> else q <| p_killed := 1 |>.

Lemma kill_run pid e s : proc_ready s →
  kill pid e s =
    match list_find (λ q, (p_pid q =? pid) = true) (k_procs s) with
    | Some (i, _) => Ret 0 e (s <| k_mach ::= settle |> <| k_procs ::= alter victim i |>)
    | None => Ret (-1) e (s <| k_mach ::= settle |>)
    end.
Proof.
  intros Hr. unfold kill.
  match goal with |- (scan procs ?body ≫= _) e s = _ =>
    pose proof (scan_procs body (λ q, p_pid q =? pid) victim 0 e s Hr) as H end.
  match type of H with ?A → _ => assert A as Hbody; [|specialize (H Hbody)] end.
  { intros i q t Ht Hi Hq. run (acquire_crit i e t Ht Hi). erewrite bind_Ret by (by apply (pget_crit i _ _ q)).
    destruct (p_pid q =? pid).
    - erewrite bind_Ret by (by apply (pset_crit i _ _ q)). erewrite bind_Ret by (by apply (pget_crit i _ _ q)). krun.
      change (p_state (q <| p_killed := 1 |>)) with (p_state q).
      destruct (bool_decide (p_state q = SLEEPING)) eqn:E; breflect.
      + erewrite bind_Ret by (by apply (pset_crit i _ _ q)).
        erewrite bind_Ret; [|eapply (release_crit i _ victim q); [done|done|done|unfold victim; by rewrite decide_True]]. done.
      + erewrite bind_Ret; [|eapply (release_crit i _ victim q); [done|done|done|unfold victim; by rewrite decide_False]]. done.
    - erewrite bind_Ret; [|by eapply (release_crit i _ (λ x, x) q)]. krun. f_equal.
      apply set_procs_id. by apply (alter_noop _ _ _ q). }
  destruct (list_find _ (k_procs s)) as [[i x]|]; by run H.
Qed.

(** Killing.  [kill] marks the first process of the table with the given pid
    as killed, makes it runnable if it was asleep, and returns 0; when no process
    has that pid it returns -1 and changes nothing.  No lock stays held. *)
Theorem kill_correct pid e s : proc_ready s →
  (∀ i q, k_procs s !! i = Some q → p_pid q = pid → (∀ j r, (j < i)%nat → k_procs s !! j = Some r → p_pid r ≠ pid) →
     kill pid e s = Ret 0 e (s <| k_mach ::= settle |> <| k_procs ::= alter victim i |>)) ∧
  ((∀ q, q ∈ k_procs s → p_pid q ≠ pid) → kill pid e s = Ret (-1) e (s <| k_mach ::= settle |>)).
Proof.
  intros Hr. split.
  - intros i q Hq Hp Hmin. rewrite kill_run by done.
    assert (list_find (λ q, (p_pid q =? pid) = true) (k_procs s) = Some (i, q)) as ->; [|done].
    apply list_find_Some. split_and!; [done|by apply Z.eqb_eq|]. intros j r Hj Hlt. rewrite Z.eqb_eq. by eapply Hmin.
  - intros Hno. rewrite kill_run by done.
    assert (list_find (λ q, (p_pid q =? pid) = true) (k_procs s) = None) as ->; [|done].
    apply list_find_None, Forall_forall. intros q Hq. rewrite Z.eqb_eq. by apply Hno.
Qed.

(** Process 5, with pid 7, is asleep. *)
Definition ex_victim : proc := proc0 <| p_pid := 7 |> <| p_state := SLEEPING |>.
Definition ex_kill : kstate := ex_procs None (<[5%nat := ex_victim]> (replicate NPROC proc0)).

Lemma kill_correct_witness :
  ∃ s', kill 7 [] ex_kill = Ret 0 [] s' ∧ p_state <$> k_procs s' !! 5%nat = Some RUNNABLE.
Proof.
  destruct (kill_correct 7 [] ex_kill) as [H _]; [apply ex_procs_ready; vm_compute; reflexivity|].
  specialize (H 5%nat ex_victim). eexists. split.
  - apply H; [vm_compute; reflexivity|vm_compute; reflexivity|].
    intros j r Hj Hr. assert (j = 0 ∨ j = 1 ∨ j = 2 ∨ j = 3 ∨ j = 4)%nat as Hc by lia.
    destruct Hc as [->|[->|[->|[->| ->]]]]; vm_compute in Hr; injection Hr as <-; vm_compute; discriminate.
  - vm_compute. reflexivity.
Defined.

(** ** The priority scheduler *)




(** [q'] is [q], with its niceness computed anew. *)
Definition reniced q q' : Prop := q' = q <| p_niceness := p_niceness q' |>.



(** In the middle of the scan, with [m] the process kept: its lock is the only
    one held, and the table is the one of [s0]. *)
Record scanning (s0 : kstate) (m : option nat) s : Prop := Scanning {
  sc_wf : wf_mach (k_mach s);
  sc_noff : c_noff (cpu_of (k_mach s)) = if m then 1 else 0;
  sc_held : ∀ p, m = Some p → m_locks (k_mach s) !! LProc p = Some (m_tp (k_mach s));
  sc_free : ∀ j, (j < NPROC)%nat → m ≠ Some j → lock_free (LProc j) (k_mach s);
  sc_procs : Forall2 reniced (k_procs s0) (k_procs s);
}.

Lemma scanning_lookup s0 m s p q0 : scanning s0 m s → k_procs s0 !! p = Some q0 → ∃ q, k_procs s !! p = Some q ∧ reniced q0 q.
Proof. intros Hs Hq. destruct (Forall2_lookup_l _ _ _ _ _ (sc_procs _ _ _ Hs) Hq) as (q & ? & ?). by exists q. Qed.















