(* ===== verification/Main.v ===== *)
(** * Main: starting the kernel (kernel/main.c)

    Hart 0 initialises every component in order and lets the others go; then
    every hart enters the scheduler.  The first [n] rounds of the scheduler
    stand for its endless loop. *)

From S2P Require Import Prelude Params CString State Spinlock PhysMem Kalloc Vm ProcBase Queue Sched Sleeplock Virtio Bio Blocks Bytes Log Fs Console File Proc Exec SysArgs Sysproc Sysfile Syscall Trap.

Section Main.
Context `{!Image}.
Variable pol : policy.
Variable reg : Z → Z.

(** What hart 0 does. *)
Definition boot0 : K () :=
  consoleinit;;
  printfinit;;
  printk nl [];;
  printk ("xv6 kernel is booting" +:+ nl) [];;
  printk nl [];;
  kinit;;
  kvminit;;
  kvminithart;;
  procinit;;
  trapinit;;
  trapinithart;;
  plicinit;;
  plicinithart;;
  binit;;
  iinit;;
  fileinit;;
  virtio_disk_init reg;;
  userinit;;
  modify (λ s, s <| k_started := true |>).

(** [while(started == 0) ;] *)
Definition wait_started : K () :=
  while_ (λ _ : (),
    started ← gets k_started;
    if started : bool then mret (inr ()) else interfere;; mret (inl ())) ().

(** What the other harts do. *)
Definition boot_other : K () :=
  wait_started;;
  id ← cpuid;
  printk ("hart %d starting" +:+ nl) [PInt (Z.of_nat id)];;
  kvminithart;;
  trapinithart;;
  plicinithart.

Definition main (n : nat) : K (list nat) :=
  id ← cpuid;
  (if (id =? 0)%nat then boot0 else boot_other);;
  (match pol with MLFQ => initialize_queue | _ => mret () end);;
  scheduler pol n.
End Main.
