(* ===== verification/Start.v ===== *)
(** * Start: machine mode (kernel/start.c, the machine registers of kernel/riscv.h)

    One hart from [start] to its first instruction in supervisor mode, and the
    machine-mode timer interrupt (timervec in kernelvec.S) that goes on behind
    the kernel's back.  A control register holds the last value written to it.
    Memory is doublewords: the scratch areas, and the registers of the CLINT at
    their addresses.  The instruction [mret] and the entry of a trap are those of
    the privileged architecture. *)

From S2P Require Import Prelude Params CString State.

Inductive priv := PrivU | PrivS | PrivM.

(** A hart, and the memory it shares with the others. *)
Record boot := Boot {
  bt_pc : Z; bt_priv : priv;
  bt_a0 : Z; bt_a1 : Z; bt_a2 : Z; bt_a3 : Z; bt_tp : Z;
  mhartid : Z; mstatus : Z; mepc : Z; medeleg : Z; mideleg : Z;
  pmpaddr0 : Z; pmpcfg0 : Z; mscratch : Z; mtvec : Z; mie : Z;
  satp : Z; sie : Z; sip : Z;
  bt_mem : Z → Z;
}.
#[export] Instance boot_settable : Settable boot :=
  λ b, Boot (bt_pc b) (bt_priv b) (bt_a0 b) (bt_a1 b) (bt_a2 b) (bt_a3 b) (bt_tp b)
    (mhartid b) (mstatus b) (mepc b) (medeleg b) (mideleg b) (pmpaddr0 b) (pmpcfg0 b) (mscratch b) (mtvec b) (mie b)
    (satp b) (sie b) (sip b) (bt_mem b).

Abbreviation B := (KM boot).

(** ** riscv.h and memlayout.h *)

Definition MSTATUS_MPP_MASK : Z := Z.shiftl 3 11.
Definition MSTATUS_MPP_S : Z := Z.shiftl 1 11.
Definition MSTATUS_MIE : Z := Z.shiftl 1 3.
Definition SIE_SEIE : Z := Z.shiftl 1 9.
Definition SIE_STIE : Z := Z.shiftl 1 5.
Definition SIE_SSIE : Z := Z.shiftl 1 1.
Definition MIE_MTIE : Z := Z.shiftl 1 7.

Definition CLINT : Z := 0x2000000.
Definition CLINT_MTIMECMP (hartid : Z) : Z := CLINT + 0x4000 + 8 * hartid.
Definition CLINT_MTIME : Z := CLINT + 0xBFF8.

Definition r_mhartid : B Z := gets mhartid.
Definition r_mstatus : B Z := gets mstatus.
Definition w_mstatus (x : Z) : B () := modify (λ b, b <| mstatus := x |>).
Definition w_mepc (x : Z) : B () := modify (λ b, b <| mepc := x |>).
Definition w_medeleg (x : Z) : B () := modify (λ b, b <| medeleg := x |>).
Definition w_mideleg (x : Z) : B () := modify (λ b, b <| mideleg := x |>).
Definition r_sie : B Z := gets sie.
Definition w_sie (x : Z) : B () := modify (λ b, b <| sie := x |>).
Definition r_mie : B Z := gets mie.
Definition w_mie (x : Z) : B () := modify (λ b, b <| mie := x |>).
Definition w_mtvec (x : Z) : B () := modify (λ b, b <| mtvec := x |>).
Definition w_pmpcfg0 (x : Z) : B () := modify (λ b, b <| pmpcfg0 := x |>).
Definition w_pmpaddr0 (x : Z) : B () := modify (λ b, b <| pmpaddr0 := x |>).
Definition w_satp (x : Z) : B () := modify (λ b, b <| satp := x |>).
Definition w_mscratch (x : Z) : B () := modify (λ b, b <| mscratch := x |>).
Definition w_tp (x : Z) : B () := modify (λ b, b <| bt_tp := x |>).

(** Of the bits of sip only SSIP can be written. *)
Definition w_sip (x : Z) : B () := modify (λ b, b <| sip ::= λ y, Z.lor (Z.land y (Z.lnot SIE_SSIE)) (Z.land x SIE_SSIE) |>).

(** Loads and stores of doublewords. *)
Definition ld (a : Z) : B Z := gets (λ b, bt_mem b a).
Definition store (a x : Z) (m : Z → Z) : Z → Z := λ a', if a' =? a then x else m a'.
Definition sd (x a : Z) : B () := modify (λ b, b <| bt_mem ::= store a x |>).

(** ** The privileged architecture *)

(** The previous privilege mode in mstatus, as a mode and as its two bits. *)
Definition mpp (x : Z) : priv :=
  match Z.land (Z.shiftr x 11) 3 with 0 => PrivU | 1 => PrivS | _ => PrivM end.
Definition mpp_bits (p : priv) : Z := match p with PrivU => 0 | PrivS => 1 | PrivM => 3 end.

(** [mret]: to the previous mode, which becomes user mode; MIE becomes MPIE. *)
Definition mret_ : B () := modify (λ b,
  let x := mstatus b in
  b <| bt_priv := mpp x |> <| bt_pc := mepc b |>
    <| mstatus := Z.lor (Z.lor (Z.land x (Z.lnot (Z.lor MSTATUS_MPP_MASK MSTATUS_MIE)))
                               (if Z.testbit x 7 then MSTATUS_MIE else 0)) (Z.shiftl 1 7) |>).

(** The entry of a trap into machine mode. *)
Definition mtrap : B () := modify (λ b,
  let x := mstatus b in
  b <| mepc := bt_pc b |> <| bt_pc := mtvec b |> <| bt_priv := PrivM |>
    <| mstatus := Z.lor (Z.lor (Z.land x (Z.lnot (Z.lor MSTATUS_MPP_MASK (Z.lor MSTATUS_MIE (Z.shiftl 1 7)))))
                               (if Z.testbit x 3 then Z.shiftl 1 7 else 0)) (Z.shiftl (mpp_bits (bt_priv b)) 11) |>).

(** ** start.c *)

(** Addresses the linker fixes. *)
Class StartImage := { main_addr : Z; timervec_addr : Z; timer_scratch : Z }.

Section Start.
Context `{!StartImage}.

Definition timerinit : B () :=
  id ← r_mhartid;
  let id := i32 id in
  let interval := 1000000 in
  t ← ld CLINT_MTIME;
  sd (u64 (t + interval)) (CLINT_MTIMECMP id);;
  check ((0 <=? id) && (id <? Z.of_nat NCPU)) "timer_scratch";;
  let scratch := timer_scratch + 40 * id in
  sd (CLINT_MTIMECMP id) (scratch + 24);;
  sd interval (scratch + 32);;
  w_mscratch scratch;;
  w_mtvec timervec_addr;;
  x ← r_mstatus;
  w_mstatus (Z.lor x MSTATUS_MIE);;
  y ← r_mie;
  w_mie (Z.lor y MIE_MTIE).

Definition start : B () :=
  x ← r_mstatus;
  let x := Z.land x (Z.lnot MSTATUS_MPP_MASK) in
  let x := Z.lor x MSTATUS_MPP_S in
  w_mstatus x;;
  w_mepc main_addr;;
  w_satp 0;;
  w_medeleg 0xffff;;
  w_mideleg 0xffff;;
  y ← r_sie;
  w_sie (Z.lor (Z.lor (Z.lor y SIE_SEIE) SIE_STIE) SIE_SSIE);;
  w_pmpaddr0 0x3fffffffffffff;;
  w_pmpcfg0 0xf;;
  timerinit;;
  id ← r_mhartid;
  w_tp (u64 (i32 id));;
  mret_.

(** timervec of kernelvec.S. *)
Definition swap_a0 : B () := modify (λ b, b <| bt_a0 := mscratch b |> <| mscratch := bt_a0 b |>).
Definition set_a1 (x : Z) : B () := modify (λ b, b <| bt_a1 := x |>).
Definition set_a2 (x : Z) : B () := modify (λ b, b <| bt_a2 := x |>).
Definition set_a3 (x : Z) : B () := modify (λ b, b <| bt_a3 := x |>).

Definition timervec : B () :=
  swap_a0;;
  b ← get; sd (bt_a1 b) (bt_a0 b);;
  b ← get; sd (bt_a2 b) (bt_a0 b + 8);;
  b ← get; sd (bt_a3 b) (bt_a0 b + 16);;
  b ← get; x ← ld (bt_a0 b + 24); set_a1 x;;
  b ← get; x ← ld (bt_a0 b + 32); set_a2 x;;
  b ← get; x ← ld (bt_a1 b); set_a3 x;;
  b ← get; set_a3 (u64 (bt_a3 b + bt_a2 b));;
  b ← get; sd (bt_a3 b) (bt_a1 b);;
  set_a1 2;;
  b ← get; w_sip (bt_a1 b);;
  b ← get; x ← ld (bt_a0 b + 16); set_a3 x;;
  b ← get; x ← ld (bt_a0 b + 8); set_a2 x;;
  b ← get; x ← ld (bt_a0 b); set_a1 x;;
  swap_a0;;
  mret_.
End Start.

(** ** What start establishes *)

Class StartImageOK `{StartImage} := { scratch_range : KERNBASE ≤ timer_scratch ≤ PHYSTOP - 40 * Z.of_nat NCPU }.

(** The machine registers and the scratch area of a hart whose timer runs. *)
Record timer_ready `{StartImage} (b : boot) : Prop := TimerReady {
  tr_hart : 0 ≤ mhartid b < Z.of_nat NCPU;
  tr_mtvec : mtvec b = timervec_addr;
  tr_mscratch : mscratch b = timer_scratch + 40 * mhartid b;
  tr_cmp : bt_mem b (mscratch b + 24) = CLINT_MTIMECMP (mhartid b);
  tr_interval : bt_mem b (mscratch b + 32) = 1000000;
}.

(** The previous mode is in bits 11 and 12. *)
Lemma mpp_ext x y : Z.testbit x 11 = Z.testbit y 11 → Z.testbit x 12 = Z.testbit y 12 → mpp x = mpp y.
Proof.
  intros H1 H2. unfold mpp. replace (Z.land (Z.shiftr x 11) 3) with (Z.land (Z.shiftr y 11) 3); [done|].
  apply Z.bits_inj'. intros n Hn. rewrite !Z.land_spec, !Z.shiftr_spec by done.
  assert (n = 0 ∨ n = 1 ∨ 2 ≤ n) as [-> | [-> | Hn2]] by lia; [by change (0 + 11) with 11; rewrite H1|by change (1 + 11) with 12; rewrite H2|].
  change 3 with (Z.ones 2). by rewrite Z.ones_spec_high, !andb_false_r by lia.
Qed.

(** Bit [n] of a mask and a combination of masks. *)
Ltac bits := rewrite ?Z.lor_spec, ?Z.land_spec, ?Z.lnot_spec by lia;
  repeat match goal with
  | |- context [Z.testbit ?c ?n] => let v := eval vm_compute in (Z.testbit c n) in
      match v with true => idtac | false => idtac end; change (Z.testbit c n) with v
  end; rewrite ?andb_true_r, ?andb_false_r, ?orb_true_r, ?orb_false_r.

Lemma store_eq a x m : store a x m a = x.
Proof. unfold store. by rewrite Z.eqb_refl. Qed.
Lemma store_ne a x m a' : a' ≠ a → store a x m a' = m a'.
Proof. intros H. unfold store. by destruct (Z.eqb_spec a' a). Qed.

Section Correct.
Context `{StartImageOK}.
Implicit Types (b : boot) (e : list (boot → boot)).

(** Where the words of a hart lie. *)
Definition save_area (h : Z) : Z := timer_scratch + 40 * h.

Lemma area_apart h k : 0 ≤ h < Z.of_nat NCPU → 0 ≤ k ≤ 32 → 0x80000000 ≤ save_area h + k.
Proof. intros Hh Hk. pose proof scratch_range as [Hs _]. unfold save_area, KERNBASE in *. lia. Qed.

Lemma cmp_below h : 0 ≤ h < Z.of_nat NCPU → CLINT_MTIMECMP h < 0x80000000 ∧ CLINT_MTIMECMP h ≠ CLINT_MTIME.
Proof. intros Hh. unfold CLINT_MTIMECMP, CLINT_MTIME, CLINT, NCPU in *. lia. Qed.

(** Reading the words of the save area and the comparator after some stores. *)
Ltac fields := unfold set; cbn [bt_pc bt_priv bt_a0 bt_a1 bt_a2 bt_a3 bt_tp mhartid mstatus mepc medeleg mideleg pmpaddr0 pmpcfg0 mscratch mtvec mie satp sie sip bt_mem].
Ltac bt_steps := repeat (first [rewrite bind_bind | rewrite gets_bind | rewrite modify_bind]; fields).
Ltac mem_solve := repeat match goal with
  | |- context [store ?a ?x ?m ?a] => rewrite (store_eq a x m)
  | |- context [store ?a ?x ?m ?b] => rewrite (store_ne a x m b) by lia
  end.

Lemma start_run b e : 0 ≤ mhartid b < Z.of_nat NCPU → ∃ b', start e b = Ret () e b' ∧
  bt_priv b' = PrivS ∧ bt_pc b' = main_addr ∧ bt_tp b' = mhartid b ∧ mhartid b' = mhartid b ∧ satp b' = 0 ∧
  medeleg b' = 0xffff ∧ mideleg b' = 0xffff ∧ sie b' = Z.lor (sie b) (Z.lor SIE_SEIE (Z.lor SIE_STIE SIE_SSIE)) ∧
  pmpaddr0 b' = 2 ^ 54 - 1 ∧ pmpcfg0 b' = 0xf ∧ mie b' = Z.lor (mie b) MIE_MTIE ∧
  timer_ready b' ∧ bt_mem b' (CLINT_MTIMECMP (mhartid b)) = u64 (bt_mem b CLINT_MTIME + 1000000) ∧
  (∀ a, a ≠ CLINT_MTIMECMP (mhartid b) → a ≠ save_area (mhartid b) + 24 → a ≠ save_area (mhartid b) + 32 → bt_mem b' a = bt_mem b a).
Proof.
  intros Hh. pose proof Hh as Hh'. unfold NCPU in Hh'. pose proof (cmp_below _ Hh) as [Hc1 Hc2].
  pose proof (area_apart _ 24 Hh ltac:(lia)) as Ha1. pose proof (area_apart _ 32 Hh ltac:(lia)) as Ha2.
  assert (i32 (mhartid b) = mhartid b) as Ei by (apply wraps_id; change (2 ^ (32 - 1)) with 2147483648; lia).
  assert (u64 (mhartid b) = mhartid b) as Eu by (apply wrapu_id; change (2 ^ 64) with 18446744073709551616; lia).
  assert ((0 <=? mhartid b) && (mhartid b <? Z.of_nat NCPU) = true) as Eb.
  { apply andb_true_iff. split; [apply Z.leb_le; lia|apply Z.ltb_lt; lia]. }
  destruct b as [pc pr a0 a1 a2 a3 tp h mst mep med mid pa pcf msc mtv mi sat si sp mem]. cbn [mhartid sie mie bt_mem] in *.
  eexists. split.
  { unfold start, timerinit, r_mstatus, r_mhartid, r_mie, r_sie, ld, w_mstatus, w_mepc, w_satp, w_medeleg, w_mideleg, w_sie, w_pmpaddr0, w_pmpcfg0, w_mscratch, w_mtvec, w_mie, w_tp, sd, mret_.
    bt_steps. rewrite check_bind, Ei, Eb. bt_steps. rewrite Ei, Eu, modify_run. fields. reflexivity. }
  fields. fold (save_area h).
  split_and!; try reflexivity; [| | | |].
  - rewrite (mpp_ext _ MSTATUS_MPP_S); [done|bits; done..].
  - by rewrite <- !Z.lor_assoc.
  - split; fields; [done..| |]; fold (save_area h); mem_solve; done.
  - mem_solve. done.
  - intros a H1 H2 H3. mem_solve. done.
Qed.

(** What a program below machine mode sees of its hart. *)
Record same_program b b' : Prop := SameProgram {
  sp_pc : bt_pc b' = bt_pc b; sp_priv : bt_priv b' = bt_priv b;
  sp_regs : (bt_a0 b', bt_a1 b', bt_a2 b', bt_a3 b', bt_tp b') = (bt_a0 b, bt_a1 b, bt_a2 b, bt_a3 b, bt_tp b);
  sp_csrs : (satp b', sie b') = (satp b, sie b);
  sp_sip : ∀ n, 0 ≤ n → n ≠ 1 → Z.testbit (sip b') n = Z.testbit (sip b) n;
  sp_status : ∀ n, 0 ≤ n → n ∉ [3; 7; 11; 12] → Z.testbit (mstatus b') n = Z.testbit (mstatus b) n;
}.

(** The masks that a trap uses have no other bit than 3, 7, 11 and 12. *)
Lemma small_bit c k n : 0 ≤ c < 2 ^ k → k ≤ n → Z.testbit c n = false.
Proof.
  intros Hc Hk. destruct (decide (c = 0)) as [->|Hn]; [apply Z.testbit_0_l|].
  apply Z.bits_above_log2; [lia|]. assert (Z.log2 c < k) by (apply Z.log2_lt_pow2; lia). lia.
Qed.

Lemma shifted_bit c k j n : 0 ≤ c < 2 ^ k → 0 ≤ j → 0 ≤ n → n < j ∨ j + k ≤ n → Z.testbit (Z.shiftl c j) n = false.
Proof.
  intros Hc Hj Hn Ho. rewrite Z.shiftl_spec by done.
  destruct Ho; [apply Z.testbit_neg_r; lia|by apply (small_bit c k); lia].
Qed.

Lemma trap_masks n p : 0 ≤ n → n ∉ [3; 7; 11; 12] →
  Z.testbit MSTATUS_MPP_MASK n = false ∧ Z.testbit MSTATUS_MIE n = false ∧ Z.testbit (Z.shiftl 1 7) n = false ∧
  Z.testbit (Z.shiftl (mpp_bits p) 11) n = false.
Proof.
  intros Hn Hl. rewrite !not_elem_of_cons in Hl. split_and!.
  - apply (shifted_bit 3 2); lia.
  - apply (shifted_bit 1 1); lia.
  - apply (shifted_bit 1 1); lia.
  - apply (shifted_bit _ 2); [destruct p; cbn; lia|lia..].
Qed.

Lemma mpp_trap x y p : mpp (Z.lor (Z.lor (Z.land x (Z.lnot (Z.lor MSTATUS_MPP_MASK (Z.lor MSTATUS_MIE (Z.shiftl 1 7)))))
  (if Z.testbit y 3 then Z.shiftl 1 7 else 0)) (Z.shiftl (mpp_bits p) 11)) = p.
Proof. transitivity (mpp (Z.shiftl (mpp_bits p) 11)); [|by destruct p]. apply mpp_ext; bits; by destruct (Z.testbit y 3). Qed.

Lemma timervec_run b e : timer_ready b → bt_priv b ≠ PrivM → ∃ b', (mtrap;; timervec) e b = Ret () e b' ∧
  same_program b b' ∧ timer_ready b' ∧ mie b' = mie b ∧ mhartid b' = mhartid b ∧ Z.testbit (sip b') 1 = true ∧
  bt_mem b' (CLINT_MTIMECMP (mhartid b)) = u64 (bt_mem b (CLINT_MTIMECMP (mhartid b)) + 1000000) ∧
  (∀ a, a ≠ CLINT_MTIMECMP (mhartid b) → a ∉ [mscratch b; mscratch b + 8; mscratch b + 16] → bt_mem b' a = bt_mem b a).
Proof.
  intros [Hh Hv Hs Hc Hi] Hp. pose proof (cmp_below _ Hh) as [Hc1 Hc2].
  pose proof (area_apart _ 0 Hh ltac:(lia)) as Ha. fold (save_area (mhartid b)) in Hs.
  destruct b as [pc pr a0 a1 a2 a3 tp h mst mep med mid pa pcf msc mtv mi sat si sp mem]. cbn [mhartid mtvec mscratch bt_mem bt_priv] in *. subst mtv msc.
  eexists. split.
  { unfold timervec, mtrap, swap_a0, set_a1, set_a2, set_a3, ld, sd, w_sip, mret_.
    repeat (first [rewrite bind_bind | rewrite gets_bind | rewrite modify_bind | rewrite get_bind]; fields). rewrite modify_run. fields. reflexivity. }
  fields. mem_solve. rewrite !Hc. mem_solve. rewrite !Hi. split_and!.
  - split; fields.
    + done.
    + apply mpp_trap.
    + done.
    + done.
    + intros n Hn H1. rewrite Z.lor_spec, !Z.land_spec, Z.lnot_spec by done. unfold SIE_SSIE.
      rewrite (shifted_bit 1 1 1 n) by lia. cbn [negb]. by rewrite andb_true_r, andb_false_r, orb_false_r.
    + intros n Hn Hl. destruct (trap_masks n pr Hn Hl) as (M1 & M2 & M3 & M4).
      rewrite ?Z.lor_spec, ?Z.land_spec, ?Z.lnot_spec, ?Z.lor_spec, ?Z.land_spec, ?Z.lnot_spec, ?Z.lor_spec by done.
      assert (∀ (c : bool) m, Z.testbit m n = false → Z.testbit (if c then m else 0) n = false) as Hif by (intros [] m Hm; [done|apply Z.testbit_0_l]).
      rewrite M1, M2, M3, M4, !Hif by done. cbn [negb orb]. by rewrite !andb_true_r, !orb_false_r.
  - split; fields; mem_solve; done.
  - done.
  - done.
  - rewrite Z.lor_spec, Z.land_spec. apply orb_true_r.
  - mem_solve. done.
  - intros a H1 H2. rewrite !not_elem_of_cons in H2. mem_solve. done.
Qed.

(** ** A hart from start on

    Between two timer interrupts the kernel and the programs run, below machine
    mode: they change neither a machine register nor the hart's words of memory. *)
Inductive hart_step : nat → boot → boot → Prop :=
| hart_run b b' : bt_priv b ≠ PrivM → bt_priv b' ≠ PrivM → mhartid b' = mhartid b → mtvec b' = mtvec b → mscratch b' = mscratch b → mie b' = mie b →
    bt_mem b' (mscratch b + 24) = bt_mem b (mscratch b + 24) → bt_mem b' (mscratch b + 32) = bt_mem b (mscratch b + 32) →
    bt_mem b' (CLINT_MTIMECMP (mhartid b)) = bt_mem b (CLINT_MTIMECMP (mhartid b)) → hart_step 0 b b'
| hart_tick b b' : bt_priv b ≠ PrivM → (mtrap;; timervec) [] b = Ret () [] b' → hart_step 1 b b'.

(** [hart_steps k]: any number of steps, [k] of them timer interrupts. *)
Inductive hart_steps : nat → boot → boot → Prop :=
| steps_nil b : hart_steps 0 b b
| steps_snoc j k b b1 b2 : hart_steps j b b1 → hart_step k b1 b2 → hart_steps (j + k) b b2.

Lemma hart_steps_ready k b b' : hart_steps k b b' → timer_ready b → bt_priv b ≠ PrivM →
  timer_ready b' ∧ bt_priv b' ≠ PrivM ∧ mhartid b' = mhartid b ∧ mie b' = mie b ∧
  bt_mem b' (CLINT_MTIMECMP (mhartid b)) mod 2 ^ 64 = (bt_mem b (CLINT_MTIMECMP (mhartid b)) + 1000000 * Z.of_nat k) mod 2 ^ 64.
Proof.
  induction 1 as [b|j k b b1 b2 H1 IH Hs]; intros Hr Hp; [rewrite Z.add_0_r; done|].
  destruct (IH Hr Hp) as (R1 & P1 & Hh1 & Hm1 & C1). destruct Hs as [b1 b2 _ Hp2 E1 E2 E3 E4 E5 E6 E7|b1 b2 _ E].
  - destruct R1 as [A1 A2 A3 A4 A5]. split_and!; [split; congruence|done|congruence|congruence|].
    rewrite Hh1 in E7. rewrite E7, C1. do 2 f_equal. lia.
  - destruct (timervec_run b1 [] R1 P1) as (b2' & E' & Sp & R2 & Hm2 & Hh2 & _ & C2 & _). rewrite E' in E. injection E as ->.
    split_and!; [done|by rewrite (sp_priv _ _ Sp)|congruence|congruence|].
    rewrite Hh1 in C2. rewrite C2. unfold wrapu. rewrite Z.mod_mod by done. rewrite <- Zplus_mod_idemp_l, C1, Zplus_mod_idemp_l. f_equal. lia.
Qed.
End Correct.

(** ** Statements *)

(** C35: [start] leaves machine mode for good and keeps the clock going.  On every
    hart it jumps to main in supervisor mode, with tp the number of the hart,
    paging off, every trap and interrupt delegated, the supervisor's interrupts
    enabled and all memory accessible.  From then on, whatever runs below machine
    mode and however often the timer has interrupted it ([k] times), the
    comparator of the hart is [k + 1] intervals after the time at the start, and
    the next timer interrupt is invisible to the program it interrupts: it ends,
    at the same instruction in the same mode, with the same registers, and
    changes nothing but the comparator, the scratch area and the pending bit of
    the software interrupt, which is set. *)
Theorem start_correct `{StartImageOK} b e : 0 ≤ mhartid b < Z.of_nat NCPU →
  ∃ b1, start e b = Ret () e b1 ∧
    bt_priv b1 = PrivS ∧ bt_pc b1 = main_addr ∧ bt_tp b1 = mhartid b ∧ satp b1 = 0 ∧ medeleg b1 = 0xffff ∧ mideleg b1 = 0xffff ∧
    sie b1 = Z.lor (sie b) (Z.lor SIE_SEIE (Z.lor SIE_STIE SIE_SSIE)) ∧ pmpaddr0 b1 = 2 ^ 54 - 1 ∧ pmpcfg0 b1 = 0xf ∧
    ∀ k b2, hart_steps k b1 b2 →
      Z.testbit (mie b2) 7 = true ∧
      bt_mem b2 (CLINT_MTIMECMP (mhartid b)) mod 2 ^ 64 = (bt_mem b CLINT_MTIME + 1000000 * (Z.of_nat k + 1)) mod 2 ^ 64 ∧
      ∃ b3, (mtrap;; timervec) [] b2 = Ret () [] b3 ∧ same_program b2 b3 ∧ Z.testbit (sip b3) 1 = true ∧
        ∀ a, a ≠ CLINT_MTIMECMP (mhartid b) → a ∉ [save_area (mhartid b); save_area (mhartid b) + 8; save_area (mhartid b) + 16] → bt_mem b3 a = bt_mem b2 a.
Proof.
  intros Hh. destruct (start_run b e Hh) as (b1 & E & Hp & Hpc & Htp & Hid & Hsat & Hed & Hid2 & Hsie & Hpa & Hpf & Hmie & Hr & Hc & _).
  exists b1. split_and!; try done. intros k b2 Hs.
  destruct (hart_steps_ready k b1 b2 Hs Hr) as (R2 & P2 & I2 & M2 & C2); [by rewrite Hp|].
  rewrite Hid, Hc in C2. split_and!.
  - rewrite M2, Hmie, Z.lor_spec. apply orb_true_r.
  - rewrite C2. unfold wrapu. rewrite Zplus_mod_idemp_l. f_equal. lia.
  - destruct (timervec_run b2 [] R2 P2) as (b3 & E3 & Sp & _ & _ & _ & Hsip & _ & Hmem).
    exists b3. split_and!; try done. rewrite (tr_mscratch _ R2), I2, Hid in Hmem. exact Hmem.
Qed.

#[local] Instance ex_start_image : StartImage := Build_StartImage (KERNBASE + 0x1000) (KERNBASE + 0x2000) (KERNBASE + 0x3000).
#[local] Instance ex_start_image_ok : StartImageOK.
Proof. split. vm_compute. split; discriminate. Qed.

Definition ex_hart : boot :=
  Boot KERNBASE PrivM 0 0 0 0 0 3 (Z.shiftl 3 11) 0 0 0 0 0 0 0 0 0 0 0 (store CLINT_MTIME 42 (λ _, 0)).

Lemma start_correct_witness : ∃ b1 b3, start [] ex_hart = Ret () [] b1 ∧ bt_pc b1 = main_addr ∧ bt_tp b1 = 3 ∧
  (mtrap;; timervec) [] b1 = Ret () [] b3 ∧ bt_pc b3 = main_addr.
Proof.
  destruct (start_correct ex_hart []) as (b1 & E & _ & Hpc & Htp & _ & _ & _ & _ & _ & _ & Hk); [vm_compute; split; [discriminate|reflexivity]|].
  destruct (Hk 0%nat b1) as (_ & _ & b3 & E3 & Sp & _); [apply steps_nil|].
  exists b1, b3. split_and!; [exact E|exact Hpc|exact Htp|exact E3|]. rewrite (sp_pc _ _ Sp). exact Hpc.
Defined.
