(* ===== verification/User.v ===== *)
(** * User: what user programs see of the kernel (user/user.h)

    A user program is written against the class [Sys]: the system calls that
    user/user.h declares, with buffers passed by value.  [exit] ends the program,
    and so does a successful [exec].  After [fork] the definition is the program
    as one of the two processes continues it: the one whose answer it got.

    [Streams] states what programs that filter their input rely on: a read
    returns a non-empty piece of what is left, of any size up to the one asked
    for, and nothing only at the end; a write is appended.  [uworld] is a small
    world of open files that keeps these promises, whatever the sizes of the
    pieces; it also has pipes, [dup] and [fork], for the shell. *)

From S2P Require Import Prelude.

Record stat_t := Stat { st_dev : Z; st_ino : Z; st_type : Z; st_nlink : Z; st_size : Z }.
Definition no_stat : stat_t := Stat 0 0 0 0 0.

Definition O_RDONLY : Z := 0x000.
Definition O_WRONLY : Z := 0x001.
Definition O_RDWR : Z := 0x002.
Definition O_CREATE : Z := 0x200.
Definition O_TRUNC : Z := 0x400.

Class Sys (S : Type) := {
  fork : KM S Z;
  wait : KM S (Z * Z);                           (* pid and status *)
  waitx : KM S (Z * Z * Z);                      (* pid, wtime, rtime *)
  pipe : KM S (Z * (Z * Z));                     (* result, p[0] and p[1] *)
  write : Z → list Z → KM S Z;
  read : Z → Z → KM S (Z * list Z);              (* result and the bytes stored *)
  close : Z → KM S Z;
  kill : Z → KM S Z;
  exec : list Z → list (list Z) → KM S Z;
  open : list Z → Z → KM S Z;
  mknod : list Z → Z → Z → KM S Z;
  unlink : list Z → KM S Z;
  fstat : Z → KM S (Z * stat_t);
  link : list Z → list Z → KM S Z;
  mkdir : list Z → KM S Z;
  chdir : list Z → KM S Z;
  dup : Z → KM S Z;
  sleep : Z → KM S Z;
  trace : Z → KM S Z;
  set_priority : Z → Z → KM S Z;
}.

Definition exit {S A} (status : Z) : KM S A := ended (Exited status).

(** ** Reading and writing streams *)

Class Streams (S : Type) `{Sys S} := {
  pending : S → Z → option (list Z);    (* what is left to read from a descriptor open for reading *)
  writable : S → Z → Prop;
  written : S → Z → list Z;             (* what has been written to a descriptor *)
  read_law fd n data e s :
    pending s fd = Some data → 0 < n →
    ∃ k s', read fd n e s = Ret (Z.of_nat k, take k data) e s' ∧ (k ≤ length data)%nat ∧ Z.of_nat k ≤ n ∧
      (k = 0%nat → data = []) ∧
      pending s' fd = Some (drop k data) ∧ written s' = written s ∧ (∀ x, writable s x → writable s' x);
  write_law fd bytes e s :
    writable s fd →
    ∃ s', write fd bytes e s = Ret (Z.of_nat (length bytes)) e s' ∧
      pending s' = pending s ∧ (∀ x, writable s x → writable s' x) ∧
      written s' fd = written s fd ++ bytes;
}.

(** ** A world of open files *)

Record uworld := UWorld {
  w_fds : gmap Z Z;                (* descriptor table: the open file of a descriptor *)
  w_in : gmap Z (list Z);          (* what is left to read of an open file *)
  w_out : gmap Z (list Z);         (* what has been written to an open file *)
  w_cuts : list Z;                 (* sizes of the pieces the next reads return *)
  w_forks : list Z;                (* answers of the next forks *)
  w_names : list Z → Z → option Z; (* the open file that open(path, mode) gives *)
  w_progs : list Z → bool;         (* programs that can be executed *)
  w_next : Z;                      (* the number of the next open file *)
}.
#[export] Instance uworld_settable : Settable uworld :=
  λ w, UWorld (w_fds w) (w_in w) (w_out w) (w_cuts w) (w_forks w) (w_names w) (w_progs w) (w_next w).

Definition NOFDS : nat := 16.

(** The lowest free descriptor. *)
Definition free_fd (fds : gmap Z Z) : option Z :=
  head (filter (λ fd, fds !! fd = None) (seqZ 0 (Z.of_nat NOFDS))).

Definition new_fd (f : Z) : KM uworld Z :=
  fds ← gets w_fds;
  match free_fd fds with
  | Some fd => modify (λ w, w <| w_fds ::= insert fd f |>);; mret fd
  | None => mret (-1)
  end.

(** How many of [n] bytes asked for a read returns, of [len] that are left. *)
Definition piece (cuts : list Z) (n : Z) (len : nat) : nat :=
  Nat.min len (Z.to_nat (Z.max 1 (Z.min n (default n (head cuts))))).

Definition world_read (fd n : Z) : KM uworld (Z * list Z) :=
  w ← get;
  match f ← w_fds w !! fd; data ← w_in w !! f; Some (f, data) with
  | None => mret (-1, [])
  | Some (f, data) =>
      let k := if n <=? 0 then 0%nat else piece (w_cuts w) n (length data) in
      modify (λ w, w <| w_in ::= insert f (drop k data) |> <| w_cuts ::= tail |>);;
      mret (Z.of_nat k, take k data)
  end.

Definition world_write (fd : Z) (bytes : list Z) : KM uworld Z :=
  w ← get;
  match f ← w_fds w !! fd; out ← w_out w !! f; Some (f, out) with
  | None => mret (-1)
  | Some (f, out) => modify (λ w, w <| w_out ::= insert f (out ++ bytes) |>);; mret (Z.of_nat (length bytes))
  end.

Definition world_fork : KM uworld Z :=
  w ← get;
  match w_forks w with
  | [] => mret (-1)
  | pid :: forks => modify (λ w, w <| w_forks := forks |>);; mret pid
  end.

(** The two ends of a new pipe are the open files [n] (read) and [n+1] (write). *)
Definition world_pipe : KM uworld (Z * (Z * Z)) :=
  n ← gets w_next;
  modify (λ w, w <| w_next := n + 2 |> <| w_in ::= insert n [] |> <| w_out ::= insert (n + 1) [] |>);;
  r ← new_fd n;
  if r <? 0 then mret (-1, (0, 0))
  else
    r' ← new_fd (n + 1);
    if r' <? 0 then modify (λ w, w <| w_fds ::= delete r |>);; mret (-1, (0, 0))
    else mret (0, (r, r')).

#[export] Instance sys_uworld : Sys uworld := {
  fork := world_fork;
  wait := mret (-1, 0);
  waitx := mret (-1, 0, 0);
  pipe := world_pipe;
  write := world_write;
  read := world_read;
  close fd := w ← get;
              match w_fds w !! fd with
              | Some _ => modify (λ w, w <| w_fds ::= delete fd |>);; mret 0
              | None => mret (-1)
              end;
  kill _ := mret 0;
  exec path argv := w ← get; if w_progs w path then ended (Execed path argv) else mret (-1);
  open path mode := w ← get;
                    match w_names w path mode with Some f => new_fd f | None => mret (-1) end;
  mknod _ _ _ := mret 0;
  unlink _ := mret 0;
  fstat _ := mret (-1, no_stat);
  link _ _ := mret 0;
  mkdir _ := mret 0;
  chdir _ := mret 0;
  dup fd := w ← get;
            match w_fds w !! fd with Some f => new_fd f | None => mret (-1) end;
  sleep _ := mret 0;
  trace _ := mret 0;
  set_priority _ _ := mret 0;
}.

Definition world_pending (w : uworld) (fd : Z) : option (list Z) := f ← w_fds w !! fd; w_in w !! f.
Definition world_writable (w : uworld) (fd : Z) : Prop := is_Some (f ← w_fds w !! fd; w_out w !! f).
Definition world_written (w : uworld) (fd : Z) : list Z := default [] (f ← w_fds w !! fd; w_out w !! f).

Lemma piece_spec cuts n len : 0 < n →
  (piece cuts n len ≤ len)%nat ∧ Z.of_nat (piece cuts n len) ≤ n ∧ (piece cuts n len = 0%nat → len = 0%nat).
Proof. intros. unfold piece. split_and!; lia. Qed.

#[export] Program Instance streams_uworld : Streams uworld := {
  pending := world_pending; writable := world_writable; written := world_written;
}.
Next Obligation.
  intros fd n data e w Hp Hn. cbn [read sys_uworld]. unfold world_pending in Hp.
  destruct (w_fds w !! fd) as [f|] eqn:Hf; [|done]. cbn [mbind option_bind] in Hp.
  exists (piece (w_cuts w) n (length data)). destruct (piece_spec (w_cuts w) n (length data) Hn) as (H1 & H2 & H3).
  unfold world_read. krun. rewrite Hf. cbn [mbind option_bind]. rewrite Hp. cbn [mbind option_bind].
  destruct (Z.leb_spec n 0); [lia|]. eexists. split; [krun; reflexivity|]. split_and!; [done|done|by intros ?%H3%length_zero_iff_nil| |done|done].
  unfold world_pending. unfold set; cbn [w_fds w_in]. rewrite Hf. cbn [mbind option_bind]. by rewrite lookup_insert_eq.
Qed.
Next Obligation.
  intros fd bytes e w [out Ho]. cbn [write sys_uworld]. unfold world_writable in *.
  destruct (w_fds w !! fd) as [f|] eqn:Hf; [|done]. cbn [mbind option_bind] in Ho.
  unfold world_write. krun. rewrite Hf. cbn [mbind option_bind]. rewrite Ho. cbn [mbind option_bind].
  eexists. split; [krun; reflexivity|]. split_and!; [done| |].
  - intros x (o & Hx). unfold set; cbn [w_fds w_out]. destruct (w_fds w !! x) as [g|]; [|done]. cbn [mbind option_bind] in *. rewrite lookup_insert.
    by case_decide; [eexists|exists o].
  - unfold world_written. unfold set; cbn [w_fds w_out]. rewrite Hf. cbn [mbind option_bind]. by rewrite lookup_insert_eq, Ho.
Qed.
