(* ===== verification/ULib.v ===== *)
(** * ULib: the C library of user programs (user/ulib.c)

    The routines that store through a pointer run on memory, as those of
    CString.v do.  A string that is only read is the list of its bytes from the
    pointer on; the end of the list stands for the NUL. *)

From S2P Require Import Prelude CString User.

(** Copy up to and including the NUL. *)
Fixpoint strcpy (m : memory) (s : Z) (t : list Z) : memory :=
  match t with
  | [] => mupd m s 0
  | c :: t' => if c =? 0 then mupd m s c else strcpy (mupd m s c) (s + 1) t'
  end.

Definition char_at (s : list Z) : Z := default 0 (head s).

Fixpoint strcmp (p q : list Z) : Z :=
  match p with
  | c :: p' => if ctrue c && (c =? char_at q) then strcmp p' (tail q) else c - char_at q
  | [] => 0 - char_at q
  end.

Fixpoint strlen_from (s : list Z) (n : Z) : Z :=
  match s with
  | [] => n
  | c :: s' => if c =? 0 then n else strlen_from s' (i32 (n + 1))
  end.
Definition strlen (s : list Z) : Z := u32 (strlen_from s 0).

Definition memset (m : memory) (dst c n : Z) : memory :=
  memset_loop m dst (u8 c) 0 (Z.to_nat (u32 n)).

(** The offset of the character, or [None] for the null pointer. *)
Fixpoint strchr (s : list Z) (c : Z) : option nat :=
  match s with
  | [] => None
  | x :: s' => if x =? 0 then None else if x =? c then Some O else S <$> strchr s' c
  end.

Definition isdigit (c : Z) : bool := (48 <=? c) && (c <=? 57).

Fixpoint atoi_from (s : list Z) (n : Z) : Z :=
  match s with
  | c :: s' => if isdigit c then atoi_from s' (i32 (n * 10 + c - 48)) else n
  | [] => n
  end.
Definition atoi (s : list Z) : Z := atoi_from s 0.

(** Forward copy when the source is above the destination, backward copy
    otherwise; nothing is copied for a negative [n]. *)
Definition memmove (m : memory) (vdst vsrc n : Z) : memory :=
  let n := i32 n in
  if vdst <? vsrc then move_forth m vdst vsrc (Z.to_nat n)
  else move_back m (vdst + n) (vsrc + n) (Z.to_nat n).

Fixpoint memcmp_from (m : memory) (p1 p2 : Z) (n : nat) : Z :=
  match n with
  | O => 0
  | S n' => if negb (m p1 =? m p2) then m p1 - m p2 else memcmp_from m (p1 + 1) (p2 + 1) n'
  end.
Definition memcmp (m : memory) (s1 s2 n : Z) : Z := memcmp_from m s1 s2 (Z.to_nat (u32 n)).

Definition memcpy (m : memory) (dst src n : Z) : memory := memmove m dst src (i32 n).

Section Calls.
Context {S : Type} `{!Sys S}.

(** The bytes [gets] stores at [buf], the final NUL included. *)
Definition gets (max : Z) : KM S (list Z) :=
  buf ← while_ (λ buf,
    if Z.of_nat (length buf) + 1 <? max then
      '(cc, c) ← read 0 1;
      if cc <? 1 then mret (inr buf)
      else
        let buf := buf ++ c in
        if bool_decide (c = [10]) || bool_decide (c = [13]) then mret (inr buf)
        else mret (inl buf)
    else mret (inr buf)) [];
  mret (buf ++ [0]).

Definition stat (n : list Z) : KM S (Z * stat_t) :=
  fd ← open n O_RDONLY;
  if fd <? 0 then mret (-1, no_stat)
  else
    '(r, st) ← fstat fd;
    close fd;;
    mret (r, st).

(** [_main]: the program's own [main], then [exit(0)]. *)
Definition _main (main : KM S ()) : KM S () :=
  main;;
  exit 0.
End Calls.

(** ** What the routines compute *)

Lemma umemmove_spec m dst src n x : 0 ≤ n < 2 ^ 31 →
  memmove m dst src n x = if (dst <=? x) && (x <? dst + n) then m (src + (x - dst)) else m x.
Proof.
  intros Hn. unfold memmove. rewrite wraps_id by (change (2 ^ (32 - 1)) with (2 ^ 31); lia).
  destruct (Z.ltb_spec dst src).
  - rewrite move_forth_spec by lia. by rewrite Z2Nat.id by lia.
  - pose proof (move_back_spec m dst src (Z.to_nat n) x ltac:(lia)) as E. by rewrite Z2Nat.id in E by lia.
Qed.

Lemma strlen_from_spec s n : Forall (λ c, c ≠ 0) s → 0 ≤ n → n + Z.of_nat (length s) < 2 ^ 31 →
  strlen_from s n = n + Z.of_nat (length s).
Proof.
  intros Hs. revert n. induction Hs as [|c s Hc Hs IH]; intros n Hn Hl; cbn [strlen_from length] in *; [lia|].
  destruct (Z.eqb_spec c 0); [done|]. rewrite wraps_id by (change (2 ^ (32 - 1)) with (2 ^ 31); lia).
  rewrite IH by lia. lia.
Qed.

Lemma strlen_spec s : Forall (λ c, c ≠ 0) s → Z.of_nat (length s) < 2 ^ 31 → strlen s = Z.of_nat (length s).
Proof. intros Hs Hl. unfold strlen. rewrite strlen_from_spec by (done || lia). by rewrite wrapu_id by lia. Qed.

Lemma strchr_spec s c : c ≠ 0 → Forall (λ x, x ≠ 0) s →
  match strchr s c with
  | Some k => s !! k = Some c ∧ c ∉ take k s
  | None => c ∉ s
  end.
Proof.
  intros Hc. induction 1 as [|x s Hx Hs IH]; cbn [strchr]; [set_solver|].
  destruct (Z.eqb_spec x 0); [done|]. destruct (Z.eqb_spec x c) as [->|Hne]; [set_solver|].
  destruct (strchr s c) as [k|]; cbn [fmap option_fmap option_map]; [|set_solver].
  destruct IH as [H1 H2]. split; [done|]. cbn [take]. set_solver.
Qed.

(** Is the character in the string? *)
Lemma strchr_is_Some s c : c ≠ 0 → Forall (λ x, x ≠ 0) s → is_Some (strchr s c) ↔ c ∈ s.
Proof.
  intros Hc Hs. pose proof (strchr_spec s c Hc Hs) as H. destruct (strchr s c) as [k|].
  - split; [|done]. intros _. destruct H as [H _]. by eapply list_elem_of_lookup_2.
  - split; [by intros []|done].
Qed.

Lemma strchr_nul s : strchr s 0 = None.
Proof. induction s as [|x s IH]; cbn [strchr]; [done|]. destruct (Z.eqb_spec x 0); [done|]. by rewrite IH. Qed.
