(* ===== verification/UPrintf.v ===== *)
(** * UPrintf: formatted output of user programs (user/printf.c)

    [vprintf] writes one character per system call.  [format] is the reference:
    the characters a format and its arguments stand for. *)

From S2P Require Import Prelude User ULib.

Inductive uarg := UInt (x : Z) | UStr (s : list Z) | UNull.

Definition digits : list Z := bytes_of "0123456789ABCDEF".
Definition digit (d : Z) : Z := default 0 (digits !! Z.to_nat d).

(** The digits of [x] in the base, least significant first; a 32-bit number has
    at most 32 digits. *)
Fixpoint digits_loop (fuel : nat) (x base : Z) : list Z :=
  match fuel with
  | O => []
  | S fuel' =>
      digit (x mod base) :: (if x / base =? 0 then [] else digits_loop fuel' (x / base) base)
  end.

(** The contents of [printint]'s array [buf]. *)
Definition printint_buf (xx base : Z) (sgn : bool) : list Z :=
  let neg := sgn && (xx <? 0) in
  let x := u32 (if neg then - xx else xx) in
  digits_loop 32 x base ++ (if neg then [45] else []).

Fixpoint printptr_digits (n : nat) (x : Z) : list Z :=
  match n with
  | O => []
  | S n' => digit (Z.shiftr x 60) :: printptr_digits n' (u64 (Z.shiftl x 4))
  end.

Section Printf.
Context {S : Type} `{!Sys S}.

Definition putc (fd c : Z) : KM S () := write fd [u8 c];; mret ().

Definition printint (fd xx base : Z) (sgn : bool) : KM S () :=
  foreach (reverse (printint_buf xx base sgn)) (putc fd).

Definition printptr (fd x : Z) : KM S () :=
  putc fd 48;;
  putc fd 120;;
  foreach (printptr_digits 16 x) (putc fd).

(** The conversion [c], with the arguments left; a missing or wrong argument is
    a fault. *)
Definition convert (fd c : Z) (ap : list uarg) : KM S (list uarg) :=
  if c =? 100 then
    match ap with UInt x :: ap' => printint fd (i32 x) 10 true;; mret ap' | _ => fault "va_arg" end
  else if c =? 108 then
    match ap with UInt x :: ap' => printint fd (i32 x) 10 false;; mret ap' | _ => fault "va_arg" end
  else if c =? 120 then
    match ap with UInt x :: ap' => printint fd (i32 x) 16 false;; mret ap' | _ => fault "va_arg" end
  else if c =? 112 then
    match ap with UInt x :: ap' => printptr fd (u64 x);; mret ap' | _ => fault "va_arg" end
  else if c =? 115 then
    match ap with
    | UStr s :: ap' => foreach (cstring s) (putc fd);; mret ap'
    | UNull :: ap' => foreach (bytes_of "(null)") (putc fd);; mret ap'
    | _ => fault "va_arg"
    end
  else if c =? 99 then
    match ap with UInt x :: ap' => putc fd (u32 x);; mret ap' | _ => fault "va_arg" end
  else if c =? 37 then putc fd c;; mret ap
  else putc fd 37;; putc fd c;; mret ap.

(** The loop over the format; [state] is true after a '%'. *)
Fixpoint vprintf_loop (fd : Z) (fmt : list Z) (state : bool) (ap : list uarg) : KM S () :=
  match fmt with
  | [] => mret ()
  | c :: fmt' =>
      if c =? 0 then mret ()
      else if state then
        ap ← convert fd c ap;
        vprintf_loop fd fmt' false ap
      else if c =? 37 then vprintf_loop fd fmt' true ap
      else putc fd c;; vprintf_loop fd fmt' false ap
  end.

Definition vprintf (fd : Z) (fmt : list Z) (ap : list uarg) : KM S () := vprintf_loop fd fmt false ap.
Definition fprintf (fd : Z) (fmt : string) (ap : list uarg) : KM S () := vprintf fd (bytes_of fmt) ap.
Definition printf (fmt : string) (ap : list uarg) : KM S () := vprintf 1 (bytes_of fmt) ap.
End Printf.

(** ** What is printed *)

Definition conversion (c : Z) (ap : list uarg) : option (list Z * list uarg) :=
  if c =? 100 then match ap with UInt x :: ap' => Some (reverse (printint_buf (i32 x) 10 true), ap') | _ => None end
  else if c =? 108 then match ap with UInt x :: ap' => Some (reverse (printint_buf (i32 x) 10 false), ap') | _ => None end
  else if c =? 120 then match ap with UInt x :: ap' => Some (reverse (printint_buf (i32 x) 16 false), ap') | _ => None end
  else if c =? 112 then match ap with UInt x :: ap' => Some ([48; 120] ++ printptr_digits 16 (u64 x), ap') | _ => None end
  else if c =? 115 then
    match ap with
    | UStr s :: ap' => Some (cstring s, ap')
    | UNull :: ap' => Some (bytes_of "(null)", ap')
    | _ => None
    end
  else if c =? 99 then match ap with UInt x :: ap' => Some ([u32 x], ap') | _ => None end
  else if c =? 37 then Some ([c], ap)
  else Some ([37; c], ap).

Fixpoint format_from (fmt : list Z) (state : bool) (ap : list uarg) : option (list Z) :=
  match fmt with
  | [] => Some []
  | c :: fmt' =>
      if c =? 0 then Some []
      else if state then
        '(out, ap) ← conversion c ap;
        (app out) <$> format_from fmt' false ap
      else if c =? 37 then format_from fmt' true ap
      else (cons c) <$> format_from fmt' false ap
  end.

(** The characters that a format and its arguments stand for. *)
Definition format (fmt : list Z) (ap : list uarg) : option (list Z) := (map u8) <$> format_from fmt false ap.

Section PrintfSpec.
Context {S : Type} `{!Sys S, !Streams S}.
Implicit Types (e : list (S → S)) (s : S).

(** [s'] is [s] after [bytes] have been written to [fd]. *)
Record wrote fd (bytes : list Z) s s' : Prop := Wrote {
  wr_pending : pending s' = pending s;
  wr_writable : ∀ x, writable s x → writable s' x;
  wr_written : written s' fd = written s fd ++ bytes;
}.

Lemma wrote_nil fd s : wrote fd [] s s.
Proof. split; [done|done|by rewrite app_nil_r]. Qed.

Lemma wrote_app fd l1 l2 s1 s2 s3 : wrote fd l1 s1 s2 → wrote fd l2 s2 s3 → wrote fd (l1 ++ l2) s1 s3.
Proof. intros [] []. split; [congruence|auto|]. rewrite app_assoc. congruence. Qed.

Lemma putc_run fd c e s : writable s fd → ∃ s', putc fd c e s = Ret () e s' ∧ wrote fd [u8 c] s s'.
Proof.
  intros Hw. destruct (write_law fd [u8 c] e s Hw) as (s' & E & H1 & H2 & H3).
  exists s'. unfold putc. run E. by split.
Qed.

Lemma puts_run fd l e s : writable s fd →
  ∃ s', foreach l (putc fd) e s = Ret () e s' ∧ wrote fd (map u8 l) s s'.
Proof.
  revert s. induction l as [|c l IH]; intros s Hw; [by exists s; split; [|apply wrote_nil]|].
  destruct (putc_run fd c e s Hw) as (s1 & E1 & W1). destruct (IH s1 ltac:(by apply (wr_writable _ _ _ _ W1))) as (s2 & E2 & W2).
  exists s2. cbn [foreach]. run E1. split; [done|]. by apply (wrote_app fd [u8 c] (map u8 l) s s1 s2).
Qed.

Lemma convert_run fd c ap out ap' e s : writable s fd → conversion c ap = Some (out, ap') →
  ∃ s', convert fd c ap e s = Ret ap' e s' ∧ wrote fd (map u8 out) s s'.
Proof.
  intros Hw Hc. assert (∀ l (a : list uarg), ∃ s', (foreach l (putc fd);; mret a) e s = Ret a e s' ∧ wrote fd (map u8 l) s s') as Hl.
  { intros l a. destruct (puts_run fd l e s Hw) as (s' & E & W). exists s'. by run E. }
  unfold conversion in Hc. unfold convert, printint.
  destruct (c =? 100); [destruct ap as [|[]]; simplify_eq; apply Hl|].
  destruct (c =? 108); [destruct ap as [|[]]; simplify_eq; apply Hl|].
  destruct (c =? 120); [destruct ap as [|[]]; simplify_eq; apply Hl|].
  destruct (c =? 112).
  { destruct ap as [|[x| |] ap0]; simplify_eq. unfold printptr.
    destruct (putc_run fd 48 e s Hw) as (s1 & E1 & W1).
    destruct (putc_run fd 120 e s1 ltac:(by apply (wr_writable _ _ _ _ W1))) as (s2 & E2 & W2).
    destruct (puts_run fd (printptr_digits 16 (u64 x)) e s2) as (s3 & E3 & W3);
      [by apply (wr_writable _ _ _ _ W2), (wr_writable _ _ _ _ W1)|].
    exists s3. krun. run E1. krun. run E2. run E3. split; [done|].
    exact (wrote_app fd [u8 48] _ s s1 s3 W1 (wrote_app fd [u8 120] _ s1 s2 s3 W2 W3)). }
  destruct (c =? 115); [destruct ap as [|[]]; simplify_eq; apply Hl|].
  destruct (c =? 99).
  { destruct ap as [|[x| |] ap0]; simplify_eq. destruct (putc_run fd (u32 x) e s Hw) as (s1 & E1 & W1).
    exists s1. by run E1. }
  destruct (putc_run fd c e s Hw) as (s1 & E1 & W1).
  destruct (c =? 37); simplify_eq; [exists s1; by run E1|].
  destruct (putc_run fd 37 e s Hw) as (s2 & E2 & W2).
  destruct (putc_run fd c e s2 ltac:(by apply (wr_writable _ _ _ _ W2))) as (s3 & E3 & W3).
  exists s3. run E2. run E3. split; [done|]. exact (wrote_app fd [u8 37] [u8 c] s s2 s3 W2 W3).
Qed.

Lemma vprintf_loop_run fd fmt state ap out e s : writable s fd → format_from fmt state ap = Some out →
  ∃ s', vprintf_loop fd fmt state ap e s = Ret () e s' ∧ wrote fd (map u8 out) s s'.
Proof.
  revert state ap out s. induction fmt as [|c fmt IH]; intros state ap out s Hw Hf; cbn [vprintf_loop format_from] in *.
  { simplify_eq. exists s. split; [done|apply wrote_nil]. }
  destruct (c =? 0); [simplify_eq; exists s; split; [done|apply wrote_nil]|]. destruct state.
  - destruct (conversion c ap) as [[out1 ap1]|] eqn:Ec; [|done]. cbn in Hf.
    apply fmap_Some in Hf as (out2 & Hf & ->).
    destruct (convert_run fd c ap out1 ap1 e s Hw Ec) as (s1 & E1 & W1). run E1.
    destruct (IH false ap1 out2 s1 ltac:(by apply (wr_writable _ _ _ _ W1)) Hf) as (s2 & E2 & W2).
    exists s2. split; [done|]. rewrite map_app. by eapply wrote_app.
  - destruct (c =? 37); [by apply IH|]. apply fmap_Some in Hf as (out2 & Hf & ->).
    destruct (putc_run fd c e s Hw) as (s1 & E1 & W1). run E1.
    destruct (IH false ap out2 s1 ltac:(by apply (wr_writable _ _ _ _ W1)) Hf) as (s2 & E2 & W2).
    exists s2. split; [done|]. by apply (wrote_app fd [u8 c] (map u8 out2) s s1 s2).
Qed.

(** [vprintf] writes the characters its format and arguments stand for. *)
Lemma vprintf_run fd fmt ap out e s : writable s fd → format fmt ap = Some out →
  ∃ s', vprintf fd fmt ap e s = Ret () e s' ∧ wrote fd out s s'.
Proof. intros Hw Hf. apply fmap_Some in Hf as (l & Hf & ->). by eapply vprintf_loop_run. Qed.
End PrintfSpec.
