(* ===== verification/UProgs.v ===== *)
(** * UProgs: the small user programs
    (user/cat.c, wc.c, echo.c, ls.c, init.c, kill.c, ln.c, mkdir.c, rm.c, time.c,
    strace.c, setpriority.c, zombie.c)

    One module per program.  [argv] is the list of the arguments, the program's
    name first; its length is [argc]. *)

From S2P Require Import Prelude CString Bytes User ULib UPrintf.

(** [argv[i]] for an index below [argc]. *)
Definition arg (argv : list (list Z)) (i : nat) : list Z := default [] (argv !! i).

Definition newline : string := String (Ascii.ascii_of_nat 10) EmptyString.

(** ** cat *)
Module Cat.
Section Cat.
Context {S : Type} `{!Sys S}.

Definition cat (fd : Z) : KM S () :=
  while_ (λ _ : (),
    '(n, buf) ← read fd 512;
    if 0 <? n then
      r ← write 1 buf;
      if negb (r =? n) then
        fprintf 2 ("cat: write error" +:+ newline) [];;
        exit 1
      else mret (inl ())
    else if n <? 0 then
      fprintf 2 ("cat: read error" +:+ newline) [];;
      exit 1
    else mret (inr ())) ().

Definition main (argv : list (list Z)) : KM S () :=
  if (length argv <=? 1)%nat then
    cat 0;;
    exit 0
  else
    foreach (tail argv) (λ a,
      fd ← open a 0;
      (if fd <? 0 then
         fprintf 2 ("cat: cannot open %s" +:+ newline) [UStr a];;
         exit 1
       else mret ());;
      cat fd;;
      close fd;;
      mret ());;
    exit 0.
End Cat.
End Cat.

(** ** wc *)
Module Wc.
Record counts := Counts { c_l : Z; c_w : Z; c_c : Z; c_inword : bool }.

Definition blanks : list Z := [32; 13; 9; 10; 11].     (* space, \r, \t, \n, \v *)

(** The body of the loop over the buffer. *)
Definition count (x : counts) (ch : Z) : counts :=
  let '(Counts l w c inword) := x in
  let c := i32 (c + 1) in
  let l := if ch =? 10 then i32 (l + 1) else l in
  if bool_decide (is_Some (strchr blanks ch)) then Counts l w c false
  else if negb inword then Counts l (i32 (w + 1)) c true
  else Counts l w c inword.

Section Wc.
Context {S : Type} `{!Sys S}.

Definition wc (fd : Z) (name : list Z) : KM S () :=
  x ← while_ (λ x,
    '(n, buf) ← read fd 512;
    if 0 <? n then mret (inl (foldl count x buf))
    else if n <? 0 then
      printf ("wc: read error" +:+ newline) [];;
      exit 1
    else mret (inr x)) (Counts 0 0 0 false);
  printf ("%d %d %d %s" +:+ newline) [UInt (c_l x); UInt (c_w x); UInt (c_c x); UStr name].

Definition main (argv : list (list Z)) : KM S () :=
  if (length argv <=? 1)%nat then
    wc 0 [];;
    exit 0
  else
    foreach (tail argv) (λ a,
      fd ← open a 0;
      (if fd <? 0 then
         printf ("wc: cannot open %s" +:+ newline) [UStr a];;
         exit 1
       else mret ());;
      wc fd a;;
      close fd;;
      mret ());;
    exit 0.
End Wc.
End Wc.

(** ** echo *)
Module Echo.
Section Echo.
Context {S : Type} `{!Sys S}.

Fixpoint echo_args (args : list (list Z)) : KM S () :=
  match args with
  | [] => mret ()
  | a :: args' =>
      write 1 (cstring a);;
      (if bool_decide (args' = []) then write 1 [10] else write 1 [32]);;
      echo_args args'
  end.

Definition main (argv : list (list Z)) : KM S () :=
  echo_args (tail argv);;
  exit 0.
End Echo.
End Echo.

(** ** ls *)
Module Ls.
Definition DIRSIZ : Z := 14.
Definition T_DIR : Z := 1.
Definition T_FILE : Z := 2.
Definition T_DEVICE : Z := 3.

(** The index after the last slash at or before [k], 0 when there is none. *)
Fixpoint after_slash (path : list Z) (k : nat) : nat :=
  if default 0 (path !! k) =? 47 then S k
  else match k with O => O | S k' => after_slash path k' end.

Definition fmtname (path : list Z) : list Z :=
  let p := drop (after_slash path (Z.to_nat (strlen path))) path in
  if DIRSIZ <=? strlen p then p
  else
    let m := memmove (two_bufs (replicate 15 0) p) 0 65536 (strlen p) in
    buf_of (memset m (strlen p) 32 (DIRSIZ - strlen p)) 15.

(** A memory whose upper half holds [bytes]. *)
Definition with_src (m : memory) (bytes : list Z) : memory := λ x,
  if x <? 65536 then m x else default 0 (bytes !! Z.to_nat (x - 65536)).

Section Ls.
Context {S : Type} `{!Sys S}.

(** The loop over the directory's entries; [m] holds [buf] at 0. *)
Definition ls_entries (fd p : Z) (m : memory) : KM S () :=
  while_ (λ m,
    '(r, de) ← read fd 16;
    if negb (r =? 16) then mret (inr ())
    else if get16 de 0%nat =? 0 then mret (inl m)
    else
      let m := memmove (with_src m (slice de 2 14)) p 65536 DIRSIZ in
      let m := mupd m (p + DIRSIZ) 0 in
      let buf := cstring (buf_of m 512) in
      '(r, st) ← stat buf;
      (if r <? 0 then printf ("ls: cannot stat %s" +:+ newline) [UStr buf]
       else printf ("%s %d %d %d" +:+ newline)
              [UStr (fmtname buf); UInt (st_type st); UInt (st_ino st); UInt (st_size st)]);;
      mret (inl m)) m.

Definition ls (path : list Z) : KM S () :=
  fd ← open path 0;
  if fd <? 0 then fprintf 2 ("ls: cannot open %s" +:+ newline) [UStr path]
  else
    '(r, st) ← fstat fd;
    if r <? 0 then
      fprintf 2 ("ls: cannot stat %s" +:+ newline) [UStr path];;
      close fd;;
      mret ()
    else
      (if (st_type st =? T_DEVICE) || (st_type st =? T_FILE) then
         printf ("%s %d %d %l" +:+ newline)
           [UStr (fmtname path); UInt (st_type st); UInt (st_ino st); UInt (st_size st)]
       else if st_type st =? T_DIR then
         if 512 <? strlen path + 1 + DIRSIZ + 1 then printf ("ls: path too long" +:+ newline) []
         else
           let m := strcpy (λ _, 0) 0 path in
           let p := strlen path in
           let m := mupd m p 47 in
           ls_entries fd (p + 1) m
       else mret ());;
      close fd;;
      mret ().

Definition main (argv : list (list Z)) : KM S () :=
  if (length argv <? 2)%nat then
    ls (bytes_of ".");;
    exit 0
  else
    foreach (tail argv) ls;;
    exit 0.
End Ls.
End Ls.

(** ** init *)
Module Init.
Section Init.
Context {S : Type} `{!Sys S}.
Definition CONSOLE : Z := 1.

(** Wait until the shell [pid] exits. *)
Definition reap (pid : Z) : KM S () :=
  while_ (λ _ : (),
    '(wpid, _) ← wait;
    if wpid =? pid then mret (inr ())
    else if wpid <? 0 then
      printf ("init: wait returned an error" +:+ newline) [];;
      exit 1
    else mret (inl ())) ().

Definition main : KM S () :=
  fd ← open (bytes_of "console") O_RDWR;
  (if fd <? 0 then
     mknod (bytes_of "console") CONSOLE 0;;
     open (bytes_of "console") O_RDWR;;
     mret ()
   else mret ());;
  dup 0;;
  dup 0;;
  while_ (λ _ : (),
    printf ("init: starting sh" +:+ newline) [];;
    pid ← fork;
    (if pid <? 0 then
       printf ("init: fork failed" +:+ newline) [];;
       exit 1
     else mret ());;
    (if pid =? 0 then
       exec (bytes_of "sh") [bytes_of "sh"];;
       printf ("init: exec sh failed" +:+ newline) [];;
       exit 1
     else mret ());;
    reap pid;;
    mret (inl ())) ().
End Init.
End Init.

(** ** kill, ln, mkdir, rm *)
Module Kill.
Section Kill.
Context {S : Type} `{!Sys S}.
Definition main (argv : list (list Z)) : KM S () :=
  (if (length argv <? 2)%nat then
     fprintf 2 ("usage: kill pid..." +:+ newline) [];;
     exit 1
   else mret ());;
  foreach (tail argv) (λ a, kill (atoi a);; mret ());;
  exit 0.
End Kill.
End Kill.

Module Ln.
Section Ln.
Context {S : Type} `{!Sys S}.
Definition main (argv : list (list Z)) : KM S () :=
  (if negb (length argv =? 3)%nat then
     fprintf 2 ("Usage: ln old new" +:+ newline) [];;
     exit 1
   else mret ());;
  r ← link (arg argv 1) (arg argv 2);
  (if r <? 0 then fprintf 2 ("link %s %s: failed" +:+ newline) [UStr (arg argv 1); UStr (arg argv 2)]
   else mret ());;
  exit 0.
End Ln.
End Ln.

Module Mkdir.
Section Mkdir.
Context {S : Type} `{!Sys S}.
Definition main (argv : list (list Z)) : KM S () :=
  (if (length argv <? 2)%nat then
     fprintf 2 ("Usage: mkdir files..." +:+ newline) [];;
     exit 1
   else mret ());;
  scan (tail argv) (λ a,
    r ← mkdir a;
    if r <? 0 then
      fprintf 2 ("mkdir: %s failed to create" +:+ newline) [UStr a];;
      mret (Some ())
    else mret None);;
  exit 0.
End Mkdir.
End Mkdir.

Module Rm.
Section Rm.
Context {S : Type} `{!Sys S}.
Definition main (argv : list (list Z)) : KM S () :=
  (if (length argv <? 2)%nat then
     fprintf 2 ("Usage: rm files..." +:+ newline) [];;
     exit 1
   else mret ());;
  scan (tail argv) (λ a,
    r ← unlink a;
    if r <? 0 then
      fprintf 2 ("rm: %s failed to delete" +:+ newline) [UStr a];;
      mret (Some ())
    else mret None);;
  exit 0.
End Rm.
End Rm.

(** ** time, strace, setpriority, zombie *)
Module Time.
Section Time.
Context {S : Type} `{!Sys S}.
Definition main (argv : list (list Z)) : KM S () :=
  pid ← fork;
  (if pid <? 0 then
     printf ("fork(): failed" +:+ newline) [];;
     exit 1
   else if pid =? 0 then
     if (length argv =? 1)%nat then
       sleep 10;;
       exit 0
     else
       exec (arg argv 1) (drop 1 argv);;
       printf ("exec(): failed" +:+ newline) [];;
       exit 1
   else
     '(_, wtime, rtime) ← waitx;
     printf (newline +:+ "waiting:%d" +:+ newline +:+ "running:%d" +:+ newline) [UInt wtime; UInt rtime]);;
  exit 0.
End Time.
End Time.

Module Strace.
Section Strace.
Context {S : Type} `{!Sys S}.
Definition main (argv : list (list Z)) : KM S () :=
  if (3 <=? length argv)%nat then
    pid ← fork;
    (if pid =? 0 then
       trace (atoi (arg argv 1));;
       exec (arg argv 2) (drop 2 argv);;
       exit 0
     else mret ());;
    wait;;
    exit 0
  else
    printf ("ERROR" +:+ newline) [];;
    exit 1.
End Strace.
End Strace.

Module Setpriority.
Section Setpriority.
Context {S : Type} `{!Sys S}.
(** The bytes at address 0, the program's own code: [argv[argc]] is the null
    pointer. *)
Variable text : list Z.

Definition main (argv : list (list Z)) : KM S () :=
  (if (length argv <? 2)%nat then
     printf ("ERROR" +:+ newline) [];;
     exit 1
   else mret ());;
  set_priority (atoi (arg argv 1)) (atoi (default text (argv !! 2%nat)));;
  exit 0.
End Setpriority.
End Setpriority.

Module Zombie.
Section Zombie.
Context {S : Type} `{!Sys S}.
Definition main : KM S () :=
  pid ← fork;
  (if 0 <? pid then sleep 5;; mret () else mret ());;
  exit 0.
End Zombie.
End Zombie.
