(* ===== verification/Grep.v ===== *)
(** * Grep: pattern matching on lines (user/grep.c)

    The matcher is related to the language its pattern denotes; [grep] prints
    exactly the lines that match, however its input is cut into pieces. *)

From S2P Require Import Prelude CString Bytes User ULib UPrintf UProgs.

(** ** The matcher *)

(** [matchstar(c, re, text)], with [matchhere(re, _)] given as [here]. *)
Fixpoint matchstar (c : Z) (here : list Z → bool) (text : list Z) : bool :=
  here text ||
  match text with
  | [] => false
  | t :: text' => if ctrue t && ((t =? c) || (c =? 46)) then matchstar c here text' else false
  end.

Fixpoint matchhere (re : list Z) (text : list Z) : bool :=
  match re with
  | [] => true
  | c :: re1 =>
      if c =? 0 then true
      else if char_at re1 =? 42 then
        match re1 with
        | _ :: re2 => matchstar c (matchhere re2) text
        | [] => false
        end
      else if (c =? 36) && (char_at re1 =? 0) then char_at text =? 0
      else if ctrue (char_at text) && ((c =? 46) || (c =? char_at text)) then matchhere re1 (tail text)
      else false
  end.

(** The loop of [match]: try every suffix of the text, the empty one too. *)
Fixpoint match_from (re : list Z) (text : list Z) : bool :=
  matchhere re text ||
  match text with
  | [] => false
  | t :: text' => if t =? 0 then false else match_from re text'
  end.

Definition match_ (re text : list Z) : bool :=
  if char_at re =? 94 then matchhere (tail re) text else match_from re text.

(** ** The program *)

Section Grep.
Context {S : Type} `{!Sys S}.

(** Print the matching ones of the complete lines of [buf] from [p] on; returns
    [buf] and the start of the incomplete line. *)
Definition grep_lines (pattern : list Z) (buf : list Z) : KM S (nat * list Z) :=
  while_ (λ '(p, buf),
    match strchr (drop p buf) 10 with
    | None => mret (inr (p, buf))
    | Some k =>
        let q := (p + k)%nat in
        let buf := <[q := 0]> buf in
        buf ← (if match_ pattern (cstring (drop p buf)) then
                 let buf := <[q := 10]> buf in
                 write 1 (slice buf p (q + 1 - p)%nat);;
                 mret buf
               else mret buf);
        mret (inl ((q + 1)%nat, buf))
    end) (0%nat, buf).

(** [buf] is a global array: its contents are passed from one call to the next. *)
Definition grep (pattern : list Z) (fd : Z) (buf : list Z) : KM S (list Z) :=
  while_ (λ '(m, buf),
    '(n, data) ← read fd (1024 - m - 1);
    if 0 <? n then
      let buf := splice buf (Z.to_nat m) data in
      let m := m + n in
      let buf := <[Z.to_nat m := 0]> buf in
      '(p, buf) ← grep_lines pattern buf;
      if 0 <? m then
        let m := m - Z.of_nat p in
        mret (inl (m, buf_of (memmove (two_bufs buf []) 0 (Z.of_nat p) m) 1024))
      else mret (inl (m, buf))
    else mret (inr buf)) (0, buf).

Definition main (argv : list (list Z)) : KM S () :=
  if (length argv <=? 1)%nat then
    fprintf 2 ("usage: grep pattern [file ...]" +:+ newline) [];;
    exit 1
  else
    let pattern := arg argv 1 in
    let buf := replicate 1024 0 in
    if (length argv <=? 2)%nat then
      grep pattern 0 buf;;
      exit 0
    else
      (fix files (args : list (list Z)) (buf : list Z) : KM S () :=
         match args with
         | [] => mret ()
         | a :: args' =>
             fd ← open a 0;
             (if fd <? 0 then
                printf ("grep: cannot open %s" +:+ newline) [UStr a];;
                exit 1
              else mret ());;
             buf ← grep pattern fd buf;
             close fd;;
             files args' buf
         end) (drop 2 argv) buf;;
      exit 0.
End Grep.

(** ** The language of a pattern *)

Inductive atom := Any | Lit (c : Z).
Inductive item := One (a : atom) | Star (a : atom).

Definition atom_of (c : Z) : atom := if c =? 46 then Any else Lit c.
Definition fits (a : atom) (x : Z) : Prop := match a with Any => True | Lit c => x = c end.

(** The items of a pattern, and whether it ends in a '$' that anchors it. *)
Fixpoint parse_re (re : list Z) : list item * bool :=
  match re with
  | [] => ([], false)
  | c :: re1 =>
      match re1 with
      | d :: re2 =>
          if d =? 42 then let '(l, b) := parse_re re2 in (Star (atom_of c) :: l, b)
          else let '(l, b) := parse_re re1 in (One (atom_of c) :: l, b)
      | [] => if c =? 36 then ([], true) else ([One (atom_of c)], false)
      end
  end.

Inductive lang : list item → list Z → Prop :=
| lang_nil : lang [] []
| lang_one a x l w : fits a x → lang l w → lang (One a :: l) (x :: w)
| lang_star a l u w : Forall (fits a) u → lang l w → lang (Star a :: l) (u ++ w).

(** [text] starts with a word of the pattern, or is one when the pattern ends in '$'. *)
Definition starts (re text : list Z) : Prop :=
  ∃ u v, text = u ++ v ∧ lang (parse_re re).1 u ∧ ((parse_re re).2 = true → v = []).

(** What [match] decides: a word of the pattern occurs in the text, at its
    beginning when the pattern starts with '^'. *)
Definition matches (re text : list Z) : Prop :=
  match re with
  | c :: re' => if c =? 94 then starts re' text else ∃ pre text', text = pre ++ text' ∧ starts re text'
  | [] => True
  end.

Lemma fits_atom_of c x : (x =? c) || (c =? 46) = true ↔ fits (atom_of c) x.
Proof.
  unfold atom_of. destruct (Z.eqb_spec c 46); cbn; [by rewrite orb_true_r|]. rewrite orb_false_r, Z.eqb_eq. done.
Qed.

Lemma matchstar_spec c here (P : list Z → Prop) text : Forall (λ x, x ≠ 0) text →
  (∀ t, t `suffix_of` text → here t = true ↔ P t) →
  matchstar c here text = true ↔ ∃ u v, text = u ++ v ∧ Forall (fits (atom_of c)) u ∧ P v.
Proof.
  induction 1 as [|t text Ht Htext IH]; intros Hh; cbn [matchstar]; rewrite orb_true_iff, Hh by done.
  - split; [intros [HP|]; [|done]; exists [], []; by split_and!|].
    intros (u & v & E & _ & HP). symmetry in E. apply app_nil in E as [-> ->]. by left.
  - assert (ctrue t = true) as -> by (unfold ctrue; by destruct (Z.eqb_spec t 0)). cbn [andb]. split.
    + intros [HP|Hm]; [by exists [], (t :: text)|]. destruct ((t =? c) || (c =? 46)) eqn:E; [|done].
      apply fits_atom_of in E. apply IH in Hm as (u & v & -> & Hu & HP); [|intros t' [k ->]; apply Hh; by exists (t :: k)].
      exists (t :: u), v. split_and!; [done|by constructor|done].
    + intros (u & v & E & Hu & HP). destruct u as [|x u]; cbn in E; [by left; subst v|]. right. simplify_eq.
      apply Forall_cons in Hu as [Hx Hu]. apply fits_atom_of in Hx. rewrite Hx.
      apply IH; [intros t' [k Ek]; apply Hh; exists (x :: k); cbn; by rewrite Ek|]. by exists u, v.
Qed.

Lemma lang_One a l w : lang (One a :: l) w ↔ ∃ x w', w = x :: w' ∧ fits a x ∧ lang l w'.
Proof. split; [inversion 1; eauto|]. intros (x & w' & -> & ? & ?). by constructor. Qed.
Lemma lang_Star a l w : lang (Star a :: l) w ↔ ∃ u w', w = u ++ w' ∧ Forall (fits a) u ∧ lang l w'.
Proof. split; [inversion 1; eauto|]. intros (x & w' & -> & ? & ?). by constructor. Qed.
Lemma lang_empty w : lang [] w ↔ w = [].
Proof. split; [by inversion 1|intros ->; constructor]. Qed.

Lemma starts_One c re text : parse_re (c :: re) = (One (atom_of c) :: (parse_re re).1, (parse_re re).2) →
  starts (c :: re) text ↔ ∃ x text', text = x :: text' ∧ fits (atom_of c) x ∧ starts re text'.
Proof.
  unfold starts. intros ->. cbn [fst snd]. split.
  - intros (u & v & -> & (x & w & -> & Hx & Hw)%lang_One & Hv). exists x, (w ++ v). eauto 8.
  - intros (x & t & -> & Hx & u & v & -> & Hu & Hv). exists (x :: u), v. split_and!; [done|by constructor|done].
Qed.

Lemma starts_Star c re text : parse_re (c :: 42 :: re) = (Star (atom_of c) :: (parse_re re).1, (parse_re re).2) →
  starts (c :: 42 :: re) text ↔ ∃ u text', text = u ++ text' ∧ Forall (fits (atom_of c)) u ∧ starts re text'.
Proof.
  unfold starts. intros ->. cbn [fst snd]. split.
  - intros (u & v & -> & (x & w & -> & Hx & Hw)%lang_Star & Hv). exists x, (w ++ v). rewrite <- app_assoc. eauto 8.
  - intros (x & t & -> & Hx & u & v & -> & Hu & Hv). exists (x ++ u), v. rewrite <- app_assoc. split_and!; [done|by constructor|done].
Qed.

Lemma matchhere_spec re text : Forall (λ x, x ≠ 0) re → Forall (λ x, x ≠ 0) text →
  matchhere re text = true ↔ starts re text.
Proof.
  remember (length re) as n eqn:Hn. revert re text Hn.
  induction (lt_wf n) as [n _ IH]. intros re text -> Hre Htext.
  destruct re as [|c re1]; [by cbn; split; [intros _; exists [], text; split_and!; [done|constructor|done]|]|].
  apply Forall_cons in Hre as [Hc Hre]. cbn [matchhere]. destruct (Z.eqb_spec c 0); [done|].
  assert (∀ t, ctrue (char_at t) && ((c =? 46) || (c =? char_at t)) = true → Forall (λ x, x ≠ 0) t →
    ∃ x t', t = x :: t' ∧ fits (atom_of c) x) as Hstep.
  { intros [|x t] Hb _; [done|]. exists x, t. split; [done|]. apply fits_atom_of. cbn in Hb.
    apply andb_prop in Hb as [_ Hb]. by rewrite orb_comm, (Z.eqb_sym x c). }
  assert (parse_re (c :: re1) = (One (atom_of c) :: (parse_re re1).1, (parse_re re1).2) →
    ((if ctrue (char_at text) && ((c =? 46) || (c =? char_at text)) then matchhere re1 (tail text) else false) = true ↔
     starts (c :: re1) text)) as Hone.
  { intros Hp. rewrite starts_One by done. split.
    - destruct (ctrue (char_at text) && _) eqn:Hb; [|done]. destruct (Hstep _ Hb Htext) as (x & t & -> & Hx).
      apply Forall_cons in Htext as [_ Ht]. intros Hm%(IH (length re1)); [eauto|cbn; lia|done|done|done].
    - intros (x & t & -> & Hx & Hs). apply Forall_cons in Htext as [Hx0 Ht]. apply fits_atom_of in Hx.
      change (char_at (x :: t)) with x. assert (ctrue x = true) as -> by (unfold ctrue; by destruct (Z.eqb_spec x 0)).
      rewrite orb_comm, (Z.eqb_sym c x), Hx. cbn [andb tail].
      by apply (IH (length re1)); [cbn; lia|done|done|done|]. }
  destruct re1 as [|d re2].
  - cbn [char_at head default]. change (char_at []) with 0. rewrite (Z.eqb_refl 0), andb_true_r.
    destruct (Z.eqb_spec 0 42); [done|]. destruct (Z.eqb_spec c 36) as [->|Hd].
    + destruct text as [|x t]; cbn.
      * split; [|done]. intros _. exists [], []. split_and!; [done|constructor|done].
      * apply Forall_cons in Htext as [Hx _]. unfold char_at. cbn. split; [by intros ?%Z.eqb_eq|].
        intros (u & v & E & Hu%lang_empty & Hv). subst u. rewrite (Hv eq_refl) in E. done.
    + apply Hone. cbn. destruct (Z.eqb_spec c 36); [done|]. done.
  - apply Forall_cons in Hre as [Hd Hre]. unfold char_at at 1. cbn [head default from_option id].
    destruct (Z.eqb_spec d 42) as [->|Hn42].
    + rewrite starts_Star by (cbn; by destruct (parse_re re2)).
      apply matchstar_spec; [done|]. intros t [k ->]. apply Forall_app in Htext as [_ Ht].
      apply (IH (length re2)); [cbn; lia|done|done|done].
    + unfold char_at at 1. cbn [head default from_option id]. destruct (Z.eqb_spec d 0); [done|]. rewrite andb_false_r.
      apply Hone. cbn. destruct (Z.eqb_spec d 42); [done|]. destruct re2; by repeat case_match.
Qed.

Lemma match_from_spec re text : Forall (λ x, x ≠ 0) re → Forall (λ x, x ≠ 0) text →
  match_from re text = true ↔ ∃ pre text', text = pre ++ text' ∧ starts re text'.
Proof.
  intros Hre. induction text as [|t text IH]; intros Ht; cbn [match_from]; rewrite orb_true_iff, matchhere_spec by done.
  - split; [intros [Hs|]; [by exists [], []|done]|]. intros (pre & t' & E & Hs). symmetry in E. apply app_nil in E as [-> ->]. by left.
  - apply Forall_cons in Ht as [Ht0 Ht]. destruct (Z.eqb_spec t 0); [done|]. rewrite IH by done. split.
    + intros [Hs|(pre & t' & -> & Hs)]; [by exists [], (t :: text)|by exists (t :: pre), t'].
    + intros (pre & t' & E & Hs). destruct pre as [|x pre]; cbn in E; [by left; subst|]. right. simplify_eq. by exists pre, t'.
Qed.

Lemma match_spec re text : Forall (λ x, x ≠ 0) re → Forall (λ x, x ≠ 0) text →
  match_ re text = true ↔ matches re text.
Proof.
  intros Hre Ht. unfold match_, matches. destruct re as [|c re].
  - unfold char_at. cbn. rewrite match_from_spec by done. split; [done|]. intros _. exists [], text. split; [done|].
    exists [], text. split_and!; [done|constructor|done].
  - unfold char_at. cbn [head default from_option id tail]. destruct (Z.eqb_spec c 94); [|by apply match_from_spec].
    apply Forall_cons in Hre as [_ Hre]. by apply matchhere_spec.
Qed.
