(* ===== verification/GrepLines.v ===== *)
(** * GrepLines: what grep prints

    [grep] reads its input in pieces of any size, keeps an incomplete line in
    its buffer until the rest arrives, and prints the lines that match. *)

From S2P Require Import Prelude CString Bytes User ULib UPrintf UProgs Grep.

(** ** Lines *)

(** The complete lines of a text, and what follows the last newline. *)
Fixpoint split_lines (data : list Z) : list (list Z) * list Z :=
  match data with
  | [] => ([], [])
  | c :: data' =>
      let '(ls, r) := split_lines data' in
      if c =? 10 then ([] :: ls, r)
      else match ls with [] => ([], c :: r) | l :: ls' => ((c :: l) :: ls', r) end
  end.

Definition complete_lines (data : list Z) : list (list Z) := (split_lines data).1.
Definition last_part (data : list Z) : list Z := (split_lines data).2.

(** The lines that match, each with its newline. *)
Definition selected (pattern : list Z) (lines : list (list Z)) : list Z :=
  concat ((λ l, l ++ [10]) <$> filter (λ l, match_ pattern l = true) lines).

Lemma split_lines_none d : 10 ∉ d → split_lines d = ([], d).
Proof.
  induction d as [|c d IH]; intros Hn; [done|]. cbn [split_lines]. rewrite IH by set_solver.
  destruct (Z.eqb_spec c 10) as [->|]; [set_solver|done].
Qed.

Lemma split_lines_cons l d : 10 ∉ l →
  split_lines (l ++ 10 :: d) = (l :: complete_lines d, last_part d).
Proof.
  unfold complete_lines, last_part. induction l as [|c l IH]; intros Hn; cbn [app split_lines].
  - by destruct (split_lines d).
  - rewrite IH by set_solver. destruct (Z.eqb_spec c 10) as [->|]; [set_solver|done].
Qed.

(** Every text is a line followed by a text, or has no newline. *)
Lemma line_cases d : 10 ∉ d ∨ ∃ l d', d = l ++ 10 :: d' ∧ 10 ∉ l.
Proof.
  destruct (decide (10 ∈ d)) as [Hin|]; [|by left]. right.
  by apply list_elem_of_split_l in Hin as (l & d' & -> & Hl); eauto.
Qed.

Lemma complete_none d : 10 ∉ d → complete_lines d = [].
Proof. intros. unfold complete_lines. by rewrite split_lines_none. Qed.
Lemma last_none d : 10 ∉ d → last_part d = d.
Proof. intros. unfold last_part. by rewrite split_lines_none. Qed.
Lemma complete_cons l d : 10 ∉ l → complete_lines (l ++ 10 :: d) = l :: complete_lines d.
Proof. intros. unfold complete_lines at 1. by rewrite split_lines_cons. Qed.
Lemma last_cons l d : 10 ∉ l → last_part (l ++ 10 :: d) = last_part d.
Proof. intros. unfold last_part at 1. by rewrite split_lines_cons. Qed.

(** Induction over the lines of a text. *)
Lemma lines_ind (P : list Z → Prop) :
  (∀ d, 10 ∉ d → P d) → (∀ l d, 10 ∉ l → P d → P (l ++ 10 :: d)) → ∀ d, P d.
Proof.
  intros H0 H1 d. remember (length d) as n eqn:Hn. revert d Hn. induction (lt_wf n) as [n _ IH]. intros d ->.
  destruct (line_cases d) as [Ha|(l & d' & -> & Hl)]; [by apply H0|]. apply H1; [done|].
  apply (IH (length d')); [rewrite length_app; cbn; lia|done].
Qed.

Lemma complete_app a b : complete_lines (a ++ b) = complete_lines a ++ complete_lines (last_part a ++ b).
Proof.
  induction a as [a Ha|l d Hl IH] using lines_ind; [by rewrite (complete_none a), (last_none a)|].
  rewrite <- app_assoc. cbn [app]. rewrite !complete_cons, last_cons by done. by rewrite IH.
Qed.

Lemma last_app a b : last_part (a ++ b) = last_part (last_part a ++ b).
Proof.
  induction a as [a Ha|l d Hl IH] using lines_ind; [by rewrite (last_none a)|].
  rewrite <- app_assoc. cbn [app]. by rewrite !last_cons by done.
Qed.

Lemma last_part_no_newline d : 10 ∉ last_part d.
Proof. induction d as [d Hd|l d Hl IH] using lines_ind; [by rewrite last_none|by rewrite last_cons]. Qed.

Lemma Forall_last_part (P : Z → Prop) d : Forall P d → Forall P (last_part d).
Proof.
  induction d as [d Hd|l d Hl IH] using lines_ind; [by rewrite last_none|]. rewrite last_cons by done.
  intros [_ H]%Forall_app. apply Forall_cons in H as [_ H]. auto.
Qed.

Lemma selected_app pattern l1 l2 : selected pattern (l1 ++ l2) = selected pattern l1 ++ selected pattern l2.
Proof. unfold selected. by rewrite filter_app, fmap_app, concat_app. Qed.

Lemma selected_cons pattern l ls :
  selected pattern (l :: ls) = (if match_ pattern l then l ++ [10] else []) ++ selected pattern ls.
Proof.
  unfold selected. rewrite filter_cons. destruct (match_ pattern l) eqn:E.
  - rewrite decide_True by done. done.
  - rewrite decide_False by done. done.
Qed.

(** ** Buffers *)

Lemma cstring_app l r : Forall (λ c, c ≠ 0) l → cstring (l ++ 0 :: r) = l.
Proof. induction 1 as [|c l Hc Hl IH]; cbn; [done|]. destruct (Z.eqb_spec c 0); [done|]. by rewrite IH. Qed.

Lemma strchr_line l d c : Forall (λ x, x ≠ 0) l → c ≠ 0 → c ∉ l → strchr (l ++ c :: d) c = Some (length l).
Proof.
  intros Hl Hc. induction Hl as [|x l Hx Hl IH]; intros Hn; cbn [app strchr length].
  - destruct (Z.eqb_spec c 0); [done|]. by rewrite Z.eqb_refl.
  - destruct (Z.eqb_spec x 0); [done|]. destruct (Z.eqb_spec x c) as [->|]; [set_solver|].
    by rewrite IH by set_solver.
Qed.

Lemma strchr_none d r c : c ∉ d → strchr (d ++ 0 :: r) c = None.
Proof.
  induction d as [|x d IH]; intros Hn; cbn [app strchr]; [done|].
  destruct (Z.eqb_spec x 0); [done|]. destruct (Z.eqb_spec x c) as [->|]; [set_solver|]. by rewrite IH by set_solver.
Qed.

Lemma insert_app_mid {A} (l r : list A) x y : <[length l := y]> (l ++ x :: r) = l ++ y :: r.
Proof. rewrite insert_app_r_alt by done. by rewrite Nat.sub_diag. Qed.

(** [memmove(buf, p, m)] within an array: what was at [p] is at the front. *)
Lemma memmove_front front r rest : length (front ++ r ++ rest) = 1024%nat →
  ∃ rest', buf_of (memmove (two_bufs (front ++ r ++ rest) []) 0 (Z.of_nat (length front)) (Z.of_nat (length r))) 1024
    = r ++ rest' ∧ length (r ++ rest') = 1024%nat.
Proof.
  intros Hlen. rewrite !length_app in Hlen. set (buf := front ++ r ++ rest) in *.
  set (b := buf_of _ _). assert (length b = 1024%nat) as Hb by (unfold b, buf_of; by rewrite length_fmap, length_seq).
  assert (length r ≤ 1024)%nat by lia.
  exists (drop (length r) b). assert (take (length r) b = r) as E.
  { apply list_eq. intros i. destruct (decide (i < length r)%nat) as [Hi|Hi].
    2:{ rewrite !lookup_ge_None_2; [done| |rewrite length_take]; lia. }
    rewrite lookup_take_lt by done. unfold b, buf_of. rewrite list_lookup_fmap, lookup_seq_lt by lia. cbn [fmap option_fmap option_map].
    rewrite umemmove_spec by (change (2 ^ 31) with 2147483648; lia).
    rewrite Nat.add_0_l. destruct (Z.leb_spec 0 (Z.of_nat i)); [|lia]. destruct (Z.ltb_spec (Z.of_nat i) (0 + Z.of_nat (length r))); [|lia].
    cbn [andb]. unfold two_bufs. rewrite Z.sub_0_r. destruct (Z.ltb_spec (Z.of_nat (length front) + Z.of_nat i) 65536); [|lia].
    replace (Z.to_nat (Z.of_nat (length front) + Z.of_nat i)) with (length front + i)%nat by lia.
    unfold buf. rewrite lookup_app_r by lia. replace (length front + i - length front)%nat with i by lia.
    rewrite lookup_app_l by done. destruct (lookup_lt_is_Some_2 r i Hi) as [x Hx]. by rewrite Hx. }
  assert (r ++ drop (length r) b = b) as Eb by (rewrite <- E at 1; apply take_drop). by rewrite Eb.
Qed.

(** ** The program *)

Section GrepRun.
Context {S : Type} `{!Sys S, !Streams S}.
Implicit Types (e : list (S → S)) (s : S).
Variable pattern : list Z.

(** The body of the loop of [grep_lines]. *)
Abbreviation line_step := (λ '((p, buf) : nat * list Z),
    match strchr (drop p buf) 10 with
    | None => mret (inr (p, buf))
    | Some k =>
        let q := (p + k)%nat in
        let buf := <[q := 0]> buf in
        buf ← (if match_ pattern (cstring (drop p buf)) then
                 let buf := <[q := 10]> buf in
                 write 1 (slice buf p (q + 1 - p)%nat);;
                 mret buf
               else mret buf);
        mret (inl ((q + 1)%nat, buf))
    end : KM S ((nat * list Z) + (nat * list Z))).

Lemma grep_line front l d junk e s : Forall (λ c, c ≠ 0) l → 10 ∉ l → writable s 1 →
  ∃ front' s', length front' = (length front + length l + 1)%nat ∧
    line_step (length front, front ++ l ++ 10 :: d ++ 0 :: junk) e s =
      Ret (inl (length front', front' ++ d ++ 0 :: junk)) e s' ∧
    wrote 1 (if match_ pattern l then l ++ [10] else []) s s'.
Proof.
  intros Hl Hn Hw. cbv beta iota zeta.
  rewrite drop_app_length, strchr_line by done.
  assert (∀ x y, <[(length front + length l)%nat := y]> (front ++ l ++ x :: d ++ 0 :: junk) = front ++ l ++ y :: d ++ 0 :: junk) as Hins.
  { intros x y. rewrite !(app_assoc front l). rewrite <- length_app. apply insert_app_mid. }
  rewrite !Hins, drop_app_length, cstring_app by done.
  assert (∀ y, front ++ l ++ y :: d ++ 0 :: junk = (front ++ l ++ [y]) ++ d ++ 0 :: junk) as Hsh
    by (intros y; by rewrite <- !app_assoc).
  destruct (match_ pattern l).
  - destruct (write_law 1 (l ++ [10]) e s Hw) as (s' & E & H1 & H2 & H3).
    exists (front ++ l ++ [10]), s'. rewrite !length_app. split; [cbn; lia|].
    replace (slice (front ++ l ++ 10 :: d ++ 0 :: junk) (length front) (length front + length l + 1 - length front)) with (l ++ [10]).
    2:{ unfold slice. rewrite drop_app_length. replace (length front + length l + 1 - length front)%nat with (length l + 1)%nat by lia.
        change (10 :: d ++ 0 :: junk) with ([10] ++ d ++ 0 :: junk). rewrite app_assoc.
        symmetry. apply take_app_length'. rewrite length_app. done. }
    krun. run E. krun. split; [|by split]. rewrite Hsh. do 2 f_equal. cbn [length]. f_equal. lia.
  - exists (front ++ l ++ [0]), s. rewrite !length_app. split; [cbn; lia|]. krun. split; [|apply wrote_nil].
    rewrite Hsh. do 2 f_equal. cbn [length]. f_equal. lia.
Qed.

Lemma grep_lines_loop front d junk e s : Forall (λ c, c ≠ 0) d → writable s 1 →
  ∃ n front' s', runs line_step (length front, front ++ d ++ 0 :: junk) e s n (length front', front' ++ last_part d ++ 0 :: junk) e s' ∧
    n ≤ Z.of_nat (length d) + 1 ∧ wrote 1 (selected pattern (complete_lines d)) s s' ∧
    (length front' + length (last_part d) = length front + length d)%nat.
Proof.
  revert front s. induction d as [d Hn|l d' Hl IH] using lines_ind; intros front s Hd Hw.
  - rewrite complete_none, last_none by done.
    exists 1, front, s. split_and!; [|lia|apply wrote_nil|lia]. apply runs_done. cbv beta iota zeta.
    by rewrite drop_app_length, strchr_none.
  - apply Forall_app in Hd as [Hdl Hd']. apply Forall_cons in Hd' as [_ Hd'].
    destruct (grep_line front l d' junk e s Hdl Hl Hw) as (f1 & s1 & L1 & E1 & W1).
    destruct (IH f1 s1 Hd' ltac:(by apply (wr_writable _ _ _ _ W1)))
      as (n & f2 & s2 & R & Hn & W2 & L2).
    exists (n + 1), f2, s2. rewrite complete_cons, last_cons, length_app by done. cbn [length].
    split_and!; [|lia| |lia].
    + eapply runs_step; [|exact R]. rewrite <- app_assoc. exact E1.
    + rewrite selected_cons. by eapply wrote_app.
Qed.

(** The lines of the buffer are printed and the incomplete line is kept. *)
Lemma grep_lines_run d junk e s : Forall (λ c, c ≠ 0) d → Z.of_nat (length d) < 2 ^ 63 → writable s 1 →
  ∃ front s', grep_lines pattern (d ++ 0 :: junk) e s = Ret (length front, front ++ last_part d ++ 0 :: junk) e s' ∧
    wrote 1 (selected pattern (complete_lines d)) s s' ∧
    (length front + length (last_part d) = length d)%nat.
Proof.
  intros Hd Hlen Hw. destruct (grep_lines_loop [] d junk e s Hd Hw) as (n & f & s' & R & Hn & W & L).
  exists f, s'. split_and!; [|done|done]. apply (while_runs _ _ _ _ n); [exact R|lia].
Qed.

(** One piece of input. *)
Definition short_lines (data : list Z) : Prop :=
  Forall (λ l, (length l ≤ 1022)%nat) (complete_lines data) ∧ (length (last_part data) ≤ 1022)%nat.

Lemma short_lines_rest a b : short_lines (a ++ b) → short_lines (last_part a ++ b).
Proof.
  unfold short_lines. rewrite complete_app, last_app.
  intros [Hc Hl]. apply Forall_app in Hc as [_ Hc]. done.
Qed.

Lemma short_lines_front a b : 10 ∉ a → short_lines (a ++ b) → (length a ≤ 1022)%nat.
Proof.
  intros Ha [Hc Hl]. destruct (line_cases b) as [Hb|(l & d & -> & Hd)].
  - rewrite last_none, length_app in Hl by set_solver. lia.
  - rewrite app_assoc, complete_cons in Hc by set_solver.
    apply Forall_cons in Hc as [Hc _]. rewrite length_app in Hc. lia.
Qed.


(** The body of the loop of [grep]. *)
Abbreviation grep_step fd := (λ '((m, buf) : Z * list Z),
    '(n, data) ← read fd (1024 - m - 1);
    if 0 <? n then
      let buf := splice buf (Z.to_nat m) data in
      let m := m + n in
      let buf := <[Z.to_nat m := 0]> buf in
      '(p, buf) ← grep_lines pattern buf;
      if 0 <? m then
        let m := m - Z.of_nat p in
        mret (inl (m, buf_of (memmove (two_bufs buf []) 0 (Z.of_nat p) m) 1024))
      else mret (inl (m, buf))
    else mret (inr buf) : KM S ((Z * list Z) + list Z)).

(** One piece [d] arrives while [r] is the incomplete line in the buffer. *)
Lemma grep_piece r d rest data fd n e s s1 :
  read fd (1024 - Z.of_nat (length r) - 1) e s = Ret (Z.of_nat (length d), d) e s1 →
  length (r ++ rest) = 1024%nat → (length r ≤ 1022)%nat → 0 < Z.of_nat (length d) ≤ 1024 - Z.of_nat (length r) - 1 →
  Forall (λ c, c ≠ 0) (r ++ d) → writable s1 1 → pending s1 fd = Some data → written s1 = written s → n = length r →
  ∃ rest' s2, grep_step fd (Z.of_nat n, r ++ rest) e s = Ret (inl (Z.of_nat (length (last_part (r ++ d))), last_part (r ++ d) ++ rest')) e s2 ∧
    length (last_part (r ++ d) ++ rest') = 1024%nat ∧ writable s2 1 ∧ pending s2 fd = Some data ∧
    written s2 1 = written s 1 ++ selected pattern (complete_lines (r ++ d)).
Proof.
  intros Er Hlen Hr Hd Hnz Hw Hp Hwr ->. cbv beta iota zeta. run Er. destruct (Z.ltb_spec 0 (Z.of_nat (length d))); [|lia].
  rewrite length_app in Hlen. rewrite Nat2Z.id. set (a := r ++ d) in *. assert (length a = length r + length d)%nat as Ha by apply length_app.
  assert (∃ junk, <[Z.to_nat (Z.of_nat (length r) + Z.of_nat (length d)) := 0]> (splice (r ++ rest) (length r) d) = a ++ 0 :: junk ∧
    (length a + 1 + length junk = 1024)%nat) as (junk & -> & Hjunk).
  { unfold splice. rewrite take_app_length, drop_app_ge by lia. replace (length r + length d - length r)%nat with (length d) by lia.
    destruct (drop (length d) rest) as [|x junk] eqn:Edrop.
    { apply (f_equal length) in Edrop. rewrite length_drop in Edrop. cbn in Edrop. lia. }
    exists junk. rewrite app_assoc. fold a. replace (Z.to_nat _) with (length a) by lia. split; [apply insert_app_mid|].
    apply (f_equal length) in Edrop. rewrite length_drop in Edrop. cbn in Edrop. lia. }
  destruct (grep_lines_run a junk e s1 Hnz ltac:(lia) Hw) as (front & s2 & E2 & W2 & L2). run E2.
  destruct (Z.ltb_spec 0 (Z.of_nat (length r) + Z.of_nat (length d))); [|lia].
  replace (Z.of_nat (length r) + Z.of_nat (length d) - Z.of_nat (length front)) with (Z.of_nat (length (last_part a))) by lia.
  destruct (memmove_front front (last_part a) (0 :: junk)) as (rest' & Em & Hrest).
  1: rewrite !length_app; cbn [length]; lia.
  exists rest', s2. rewrite Em. krun. split_and!; [done|done|by apply (wr_writable _ _ _ _ W2)| |].
  - by rewrite (wr_pending _ _ _ _ W2).
  - by rewrite (wr_written _ _ _ _ W2), Hwr.
Qed.

Lemma grep_loop fd data r rest e s :
  pending s fd = Some data → writable s 1 → length (r ++ rest) = 1024%nat → 10 ∉ r →
  Forall (λ c, c ≠ 0) (r ++ data) → short_lines (r ++ data) →
  ∃ n buf s', runs (grep_step fd) (Z.of_nat (length r), r ++ rest) e s n buf e s' ∧ n ≤ Z.of_nat (length data) + 1 ∧
    pending s' fd = Some [] ∧ written s' 1 = written s 1 ++ selected pattern (complete_lines (r ++ data)).
Proof.
  remember (length data) as k eqn:Hk. revert data r rest s Hk. induction (lt_wf k) as [k _ IH].
  intros data r rest s -> Hp Hw Hlen Hr Hnz Hsh. pose proof (short_lines_front r data Hr Hsh) as Hr22.
  destruct (read_law fd (1024 - Z.of_nat (length r) - 1) data e s Hp ltac:(lia)) as (j & s1 & E1 & Hj1 & Hj2 & Hj0 & Hp1 & Hw1 & Hwr1).
  destruct (decide (j = 0%nat)) as [->|Hjne].
  - rewrite (Hj0 eq_refl) in *. exists 1, (r ++ rest), s1. rewrite app_nil_r, complete_none by done. cbn. rewrite app_nil_r.
    split_and!; [|lia|done|by rewrite Hw1]. apply runs_done. cbv beta iota zeta. by run E1.
  - rewrite <- (take_drop j data) in Hnz, Hsh. rewrite app_assoc in Hnz, Hsh. apply Forall_app in Hnz as [Hnz1 Hnz2].
    assert (length (take j data) = j) as Hlj by (rewrite length_take; lia).
    destruct (grep_piece r (take j data) rest (drop j data) fd (length r) e s s1) as (rest' & s2 & E2 & L2 & Hw2 & Hp2 & Hwr2);
      [by rewrite Hlj|done|done|lia|done|auto|done|done|done|].
    destruct (IH (length (drop j data)) ltac:(rewrite length_drop; lia) (drop j data) (last_part (r ++ take j data)) rest' s2 eq_refl)
      as (n & buf & s' & R & Hn & Hp' & Hwr').
    + done.
    + done.
    + done.
    + apply last_part_no_newline.
    + apply Forall_app. split; [|done]. by apply Forall_last_part.
    + by apply short_lines_rest.
    + exists (n + 1), buf, s'. split_and!; [by eapply runs_step| |done|].
      * rewrite length_drop in Hn. lia.
      * rewrite Hwr', Hwr2, <- app_assoc, <- selected_app. do 2 f_equal.
        rewrite <- complete_app, <- app_assoc, take_drop. done.
Qed.
End GrepRun.

(** C31: the pattern matcher.  [match] decides whether a word of the language that
    the pattern denotes occurs in the text: '.' stands for any character, 'c*'
    for any number of c, a leading '^' ties the word to the beginning of the
    text and a trailing '$' to its end. *)
Theorem match_correct re text : Forall (λ c, c ≠ 0) re → Forall (λ c, c ≠ 0) text →
  match_ re text = true ↔ matches re text.
Proof. apply match_spec. Qed.

(** C32: grep.  On an input without NULs whose lines fit in the buffer, [grep]
    reads to the end of the input, whatever the sizes of the pieces in which it
    arrives, and writes exactly the complete lines that match the pattern, in
    order. *)
Theorem grep_correct {S} `{!Sys S, !Streams S} pattern fd data buf (e : list (S → S)) s :
  pending s fd = Some data → writable s 1 → length buf = 1024%nat →
  Forall (λ c, c ≠ 0) data → short_lines data → Z.of_nat (length data) < 2 ^ 63 →
  ∃ buf' s', grep pattern fd buf e s = Ret buf' e s' ∧ pending s' fd = Some [] ∧
    written s' 1 = written s 1 ++ selected pattern (complete_lines data).
Proof.
  intros Hp Hw Hb Hnz Hsh Hlen.
  destruct (grep_loop pattern fd data [] buf e s) as (n & buf' & s' & R & Hn & Hp' & Hwr); [done..|set_solver|done|done|].
  exists buf', s'. split_and!; [|done|done]. apply (while_runs _ _ _ _ n); [exact R|lia].
Qed.

(** ** Examples *)

Ltac nz_string := vm_compute; repeat (apply Forall_cons; split; [discriminate|]); by apply Forall_nil.

(** Three lines arrive in pieces of two and three bytes; two of them match "a*c". *)
Definition ex_text : list Z := bytes_of "aac" ++ [10] ++ bytes_of "xb" ++ [10] ++ bytes_of "c" ++ [10].
Definition ex_world : uworld :=
  UWorld {[0 := 0; 1 := 1]} {[0 := ex_text]} {[1 := []]} [2; 3; 2; 3; 2] [] (λ _ _, None) (λ _, false) 10.

Lemma match_correct_witness : matches (bytes_of "^a*c$") (bytes_of "aac").
Proof.
  apply (match_correct (bytes_of "^a*c$") (bytes_of "aac")); [nz_string..|]. vm_compute. reflexivity.
Defined.

Lemma grep_correct_witness :
  ∃ buf w', grep (bytes_of "^a*c") 0 (replicate 1024 0) [] ex_world = Ret buf [] w' ∧ pending w' 0 = Some [] ∧
    written w' 1 = bytes_of "aac" ++ [10] ++ bytes_of "c" ++ [10].
Proof.
  destruct (grep_correct (bytes_of "^a*c") 0 ex_text (replicate 1024 0) [] ex_world) as (buf & w' & E & Hp & Hw).
  - vm_compute. reflexivity.
  - exists []. vm_compute. reflexivity.
  - apply length_replicate.
  - nz_string.
  - split; [vm_compute; repeat (apply Forall_cons; split; [lia|]); by apply Forall_nil|vm_compute; lia].
  - vm_compute. reflexivity.
  - exists buf, w'. split_and!; [done|done|]. rewrite Hw. vm_compute. reflexivity.
Defined.
