(* ===== verification/UFilter.v ===== *)
(** * UFilter: cat and wc on streams

    What the two filters write, for an input that arrives in pieces of any
    size. *)

From S2P Require Import Prelude User ULib UPrintf UProgs.

(** ** Words *)

Definition blank (c : Z) : Prop := c ∈ Wc.blanks.
#[export] Instance blank_dec c : Decision (blank c) := decide (c ∈ Wc.blanks).

(** The segments between the blanks of a text: the first one and the others. *)
Fixpoint segments (data : list Z) : list Z * list (list Z) :=
  match data with
  | [] => ([], [])
  | c :: data' =>
      let '(g, gs) := segments data' in
      if decide (blank c) then ([], g :: gs) else (c :: g, gs)
  end.

(** The words of a text: its non-empty segments. *)
Definition words (data : list Z) : list (list Z) :=
  filter (λ g, g ≠ []) ((segments data).1 :: (segments data).2).

Definition newlines (data : list Z) : nat := length (filter (λ c, c = 10) data).

(** Segments that begin a new word when the text before them is ([inword]) or
    is not inside a word. *)
Definition new_words (inword : bool) (data : list Z) : Z :=
  (if inword then 0 else if decide ((segments data).1 = []) then 0 else 1) +
  Z.of_nat (length (filter (λ g, g ≠ []) (segments data).2)).

Lemma new_words_false data : new_words false data = Z.of_nat (length (words data)).
Proof.
  unfold new_words, words. rewrite filter_cons. destruct (decide ((segments data).1 = [])) as [E|E].
  - rewrite decide_False by naive_solver. lia.
  - rewrite decide_True by done. cbn [length]. lia.
Qed.

Lemma new_words_cons b c data :
  new_words b (c :: data) =
    (if decide (blank c) then 0 else if b then 0 else 1) + new_words (bool_decide (¬ blank c)) data.
Proof.
  unfold new_words. cbn [segments]. destruct (segments data) as [g gs]. cbn [fst snd].
  destruct (decide (blank c)) as [Hb|Hb]; cbn [fst snd].
  - rewrite bool_decide_false by naive_solver. rewrite filter_cons, decide_True by done.
    destruct (decide (g = [])) as [E|E]; [rewrite decide_False by naive_solver|rewrite decide_True by done; cbn [length]]; destruct b; lia.
  - rewrite bool_decide_true by done. destruct (decide (c :: g = [])); [done|]. destruct b; lia.
Qed.

(** ** Counting *)

(** The counts after [data], from the counts [x]. *)
Definition counted (x x' : Wc.counts) (data : list Z) : Prop :=
  Wc.c_l x' = Wc.c_l x + Z.of_nat (newlines data) ∧
  Wc.c_c x' = Wc.c_c x + Z.of_nat (length data) ∧
  ∀ rest, Wc.c_w x' + new_words (Wc.c_inword x') rest = Wc.c_w x + new_words (Wc.c_inword x) (data ++ rest).

Definition small (x : Wc.counts) (n : Z) : Prop :=
  0 ≤ Wc.c_l x ∧ 0 ≤ Wc.c_w x ∧ 0 ≤ Wc.c_c x ∧ Wc.c_l x + n < 2 ^ 31 ∧ Wc.c_w x + n < 2 ^ 31 ∧ Wc.c_c x + n < 2 ^ 31.

Lemma blanks_strchr c : c ≠ 0 → is_Some (strchr Wc.blanks c) ↔ blank c.
Proof. intros Hc. apply strchr_is_Some; [done|]. repeat constructor; lia. Qed.

Lemma count_blank c : bool_decide (is_Some (strchr Wc.blanks c)) = bool_decide (blank c).
Proof.
  destruct (decide (c = 0)) as [->|Hc].
  - rewrite strchr_nul. symmetry. rewrite (bool_decide_false (is_Some None)) by (by intros []).
    apply bool_decide_false. unfold blank, Wc.blanks. intros H. set_solver by lia.
  - apply bool_decide_ext. by apply blanks_strchr.
Qed.

Lemma count_step x c n : small x (n + 1) → 0 ≤ n → counted x (Wc.count x c) [c] ∧ small (Wc.count x c) n.
Proof.
  destruct x as [l w k inw]. intros (H1 & H2 & H3 & H4 & H5 & H6) Hn. cbn in H1, H2, H3, H4, H5, H6.
  assert (∀ v, 0 ≤ v → v + (n + 1) < 2 ^ 31 → i32 (v + 1) = v + 1) as Hw
    by (intros v ? ?; apply wraps_id; change (2 ^ (32 - 1)) with (2 ^ 31); lia).
  unfold Wc.count. rewrite !Hw by done. rewrite count_blank.
  assert (newlines [c] = if c =? 10 then 1%nat else 0%nat) as Hnl.
  { unfold newlines. rewrite filter_cons, filter_nil. destruct (Z.eqb_spec c 10); [by rewrite decide_True|by rewrite decide_False]. }
  split.
  - unfold counted. rewrite Hnl. cbn [length app]. split_and!.
    + destruct (bool_decide (blank c)), inw, (c =? 10); cbn; lia.
    + destruct (bool_decide (blank c)), inw; cbn; lia.
    + intros rest. cbn [Wc.c_inword Wc.c_w]. rewrite new_words_cons. destruct (decide (blank c)) as [Hb|Hb].
      * rewrite (bool_decide_true (blank c)) by done. rewrite bool_decide_false by naive_solver. cbn. lia.
      * rewrite (bool_decide_false (blank c)) by done. rewrite bool_decide_true by done. destruct inw; cbn; lia.
  - unfold small. destruct (bool_decide (blank c)), inw, (c =? 10); cbn; lia.
Qed.

Lemma newlines_app d1 d2 : newlines (d1 ++ d2) = (newlines d1 + newlines d2)%nat.
Proof. unfold newlines. by rewrite filter_app, length_app. Qed.

Lemma count_all data x n : small x (n + Z.of_nat (length data)) → 0 ≤ n →
  counted x (foldl Wc.count x data) data ∧ small (foldl Wc.count x data) n.
Proof.
  revert x. induction data as [|c data IH]; intros x Hs Hn; cbn [foldl length] in *.
  - split; [|by replace (n + Z.of_nat 0) with n in Hs by lia]. unfold counted, newlines. cbn. split_and!; [lia|lia|done].
  - destruct (count_step x c (n + Z.of_nat (length data))) as [(A1 & A2 & A3) Hs1]; [by replace (n + _ + 1) with (n + Z.of_nat (S (length data))) by lia|lia|].
    destruct (IH _ Hs1 Hn) as [(B1 & B2 & B3) Hs2]. split; [|done]. unfold counted.
    change (c :: data) with ([c] ++ data). rewrite newlines_app, length_app. split_and!; [lia|lia|].
    intros rest. rewrite B3, A3. done.
Qed.

(** The format of [wc] takes three numbers and a string. *)
Lemma wc_format a b c name :
  is_Some (format (bytes_of ("%d %d %d %s" +:+ newline)) [UInt a; UInt b; UInt c; UStr name]).
Proof.
  unfold format. apply fmap_is_Some.
  assert (bytes_of ("%d %d %d %s" +:+ newline) = [37; 100; 32; 37; 100; 32; 37; 100; 32; 37; 115; 10]) as -> by (vm_compute; reflexivity).
  cbn [format_from conversion Z.eqb Pos.eqb mbind option_bind fmap option_fmap option_map]. by eexists.
Qed.

Section Filters.
Context {S : Type} `{!Sys S, !Streams S}.
Implicit Types (e : list (S → S)) (s : S).

Abbreviation wc_step fd := (λ x : Wc.counts,
    '(n, buf) ← read fd 512;
    if 0 <? n then mret (inl (foldl Wc.count x buf))
    else if n <? 0 then
      printf ("wc: read error" +:+ newline) [];;
      exit 1
    else mret (inr x) : KM S (Wc.counts + Wc.counts)).

Lemma wc_loop fd data x e s : pending s fd = Some data → small x (Z.of_nat (length data)) →
  ∃ n x' s', runs (wc_step fd) x e s n x' e s' ∧ n ≤ Z.of_nat (length data) + 1 ∧ counted x x' data ∧
    pending s' fd = Some [] ∧ written s' = written s ∧ (∀ y, writable s y → writable s' y).
Proof.
  remember (length data) as k eqn:Hk. revert data x s Hk. induction (lt_wf k) as [k _ IH]. intros data x s -> Hp Hs.
  destruct (read_law fd 512 data e s Hp ltac:(lia)) as (j & s1 & E1 & Hj1 & Hj2 & Hj0 & Hp1 & Hw1 & Hwr1).
  destruct (decide (j = 0%nat)) as [->|Hjne].
  - rewrite (Hj0 eq_refl) in *. exists 1, x, s1. split_and!; [|lia| |done|done|done].
    + apply runs_done. cbv beta. by run E1.
    + split_and!; [cbn; lia|cbn; lia|done].
  - assert (length (take j data) = j) as Hlj by (rewrite length_take; lia).
    assert (length data = (length (take j data) + length (drop j data))%nat) as Hld by (by rewrite <- length_app, take_drop).
    destruct (count_all (take j data) x (Z.of_nat (length (drop j data)))) as [(A1 & A2 & A3) Hs1];
      [by replace (Z.of_nat (length (drop j data)) + Z.of_nat (length (take j data))) with (Z.of_nat (length data)) by lia|lia|].
    destruct (IH (length (drop j data)) ltac:(lia) (drop j data) _ s1 eq_refl Hp1 Hs1) as (n & x' & s' & R & Hn & (B1 & B2 & B3) & Hp' & Hw' & Hwr').
    exists (n + 1), x', s'. split_and!; [|lia| |done|by rewrite Hw'|auto].
    + eapply runs_step; [|exact R]. cbv beta. run E1. destruct (Z.ltb_spec 0 (Z.of_nat j)); [done|lia].
    + rewrite <- (take_drop j data). split_and!; [rewrite newlines_app; lia|rewrite length_app; lia|].
      intros rest. by rewrite B3, A3, <- app_assoc.
Qed.

Lemma wc_run fd name data e s : pending s fd = Some data → writable s 1 → Z.of_nat (length data) < 2 ^ 31 →
  ∃ s', Wc.wc fd name e s = Ret () e s' ∧ pending s' fd = Some [] ∧
    ∃ out, format (bytes_of ("%d %d %d %s" +:+ newline))
        [UInt (Z.of_nat (newlines data)); UInt (Z.of_nat (length (words data))); UInt (Z.of_nat (length data)); UStr name] = Some out ∧
      written s' 1 = written s 1 ++ out.
Proof.
  intros Hp Hw Hl.
  destruct (wc_loop fd data (Wc.Counts 0 0 0 false) e s Hp) as (n & x & s1 & R & Hn & (H1 & H2 & H3) & Hp1 & Hw1 & Hwr1); [unfold small; cbn [Wc.c_l Wc.c_w Wc.c_c]; lia|].
  specialize (H3 []). rewrite app_nil_r in H3. cbn [Wc.c_w Wc.c_inword Wc.c_l Wc.c_c] in *. rewrite !Z.add_0_l in *.
  assert (Wc.c_w x = Z.of_nat (length (words data))) as Hx.
  { rewrite <- new_words_false, <- H3. unfold new_words. cbn [segments fst snd]. rewrite decide_True by done.
    rewrite filter_nil. destruct (Wc.c_inword x); cbn [length]; lia. }
  unfold Wc.wc. run (while_runs _ _ _ _ n _ _ _ R ltac:(lia)). rewrite H1, Hx, H2.
  destruct (wc_format (Z.of_nat (newlines data)) (Z.of_nat (length (words data))) (Z.of_nat (length data)) name) as [out Ef].
  destruct (vprintf_run 1 _ _ out e s1 (Hwr1 _ Hw) Ef) as (s' & E & W). exists s'. split_and!; [exact E| |].
  - by rewrite (wr_pending _ _ _ _ W).
  - exists out. split; [done|]. by rewrite (wr_written _ _ _ _ W), Hw1.
Qed.

(** [cat] copies its input to its output, to the end. *)
Lemma cat_run fd data e s : pending s fd = Some data → writable s 1 → Z.of_nat (length data) < 2 ^ 63 →
  ∃ s', Cat.cat fd e s = Ret () e s' ∧ pending s' fd = Some [] ∧ written s' 1 = written s 1 ++ data.
Proof.
  intros Hp Hw Hl.
  assert (∀ k data s, length data = k → pending s fd = Some data → writable s 1 →
    ∃ n s', runs (λ _ : (), '(n, buf) ← read fd 512;
      if 0 <? n then
        r ← write 1 buf;
        if negb (r =? n) then fprintf 2 ("cat: write error" +:+ newline) [];; exit 1
        else mret (inl ())
      else if n <? 0 then fprintf 2 ("cat: read error" +:+ newline) [];; exit 1
      else mret (inr ())) () e s n () e s' ∧ n ≤ Z.of_nat k + 1 ∧
      pending s' fd = Some [] ∧ written s' 1 = written s 1 ++ data) as Hloop.
  { clear. intros k. induction (lt_wf k) as [k _ IH]. intros data s <- Hp Hw.
    destruct (read_law fd 512 data e s Hp ltac:(lia)) as (j & s1 & E1 & Hj1 & Hj2 & Hj0 & Hp1 & Hw1 & Hwr1).
    destruct (decide (j = 0%nat)) as [->|Hjne].
    - rewrite (Hj0 eq_refl) in *. exists 1, s1. rewrite app_nil_r. split_and!; [|lia|done|by rewrite Hw1].
      apply runs_done. cbv beta. by run E1.
    - assert (length (take j data) = j) as Hlj by (rewrite length_take; lia).
      destruct (write_law 1 (take j data) e s1 (Hwr1 _ Hw)) as (s2 & E2 & P2 & Wr2 & W2).
      destruct (IH (length (drop j data)) ltac:(rewrite length_drop; lia) (drop j data) s2 eq_refl) as (n & s' & R & Hn & Hp' & Hw').
      + by rewrite P2.
      + auto.
      + exists (n + 1), s'. rewrite length_drop in Hn. split_and!; [|lia|done|].
        * eapply runs_step; [|exact R]. cbv beta. run E1. destruct (Z.ltb_spec 0 (Z.of_nat j)); [|lia].
          run E2. rewrite Hlj, Z.eqb_refl. done.
        * by rewrite Hw', W2, Hw1, <- app_assoc, take_drop. }
  destruct (Hloop (length data) data s eq_refl Hp Hw) as (n & s' & R & Hn & Hp' & Hw').
  exists s'. split_and!; [|done|done]. apply (while_runs _ _ _ _ n); [exact R|lia].
Qed.
End Filters.

(** C33: wc.  Whatever the sizes of the pieces in which its input arrives, [wc]
    reads it to the end and prints the number of its newlines, of its words
    (maximal sequences without blanks) and of its bytes, and the name. *)
Theorem wc_correct {S} `{!Sys S, !Streams S} fd name data (e : list (S → S)) s :
  pending s fd = Some data → writable s 1 → Z.of_nat (length data) < 2 ^ 31 →
  ∃ s', Wc.wc fd name e s = Ret () e s' ∧ pending s' fd = Some [] ∧
    ∃ out, format (bytes_of ("%d %d %d %s" +:+ newline))
        [UInt (Z.of_nat (newlines data)); UInt (Z.of_nat (length (words data))); UInt (Z.of_nat (length data)); UStr name] = Some out ∧
      written s' 1 = written s 1 ++ out.
Proof. apply wc_run. Qed.

(** ** An example *)

Definition ex_input : list Z := bytes_of "one  two" ++ [10] ++ bytes_of "three" ++ [10].
Definition ex_world : uworld :=
  UWorld {[0 := 0; 1 := 1]} {[0 := ex_input]} {[1 := []]} [2; 3; 1; 30] [] (λ _ _, None) (λ _, false) 10.

Lemma wc_correct_witness : ∃ w', Wc.wc 0 [] [] ex_world = Ret () [] w' ∧
  written w' 1 = bytes_of ("2 3 15 " +:+ newline).
Proof.
  destruct (wc_correct 0 [] ex_input [] ex_world) as (w' & E & _ & out & Ho & Hw).
  - vm_compute. reflexivity.
  - exists []. vm_compute. reflexivity.
  - vm_compute. reflexivity.
  - exists w'. split; [done|]. rewrite Hw. vm_compute in Ho. simplify_eq. vm_compute. reflexivity.
Defined.
