(* ===== verification/Umalloc.v ===== *)
(** * Umalloc: the allocator of user programs (user/umalloc.c)

    A block starts with a header of 16 bytes: the address of the next free block
    (8 bytes) and the size of the block in units of 16 bytes (4 bytes).  The free
    blocks form a circular list in address order that starts at the static
    header [base].  [sbrk] is the system call: it extends the program's memory
    with zeroed bytes, or fails when the limit is reached. *)

From stdpp Require Import sorting.
From S2P Require Import Prelude CString State PhysMem.

Record heap := Heap {
  h_mem : memory;
  h_freep : Z;                 (* static Header *freep *)
  h_brk : Z;                   (* the end of the program's memory *)
  h_limit : Z;                 (* how far it can be extended *)
}.
#[export] Instance heap_settable : Settable heap :=
  λ h, Heap (h_mem h) (h_freep h) (h_brk h) (h_limit h).

Definition hptr (m : memory) (p : Z) : Z := le_load m p 8.
Definition hsize (m : memory) (p : Z) : Z := le_load m (p + 8) 4.

(** A header inside the program's memory. *)
Definition header_ok (p : Z) : KM heap () :=
  brk ← gets h_brk;
  check ((0 <? p) && (p + 16 <=? brk)) "header".

Definition get_ptr (p : Z) : KM heap Z := header_ok p;; gets (λ h, hptr (h_mem h) p).
Definition get_size (p : Z) : KM heap Z := header_ok p;; gets (λ h, hsize (h_mem h) p).
Definition set_ptr (p v : Z) : KM heap () := header_ok p;; modify (λ h, h <| h_mem ::= λ m, le_store m p v 8 |>).
Definition set_size (p v : Z) : KM heap () := header_ok p;; modify (λ h, h <| h_mem ::= λ m, le_store m (p + 8) v 4 |>).

Definition sbrk (n : Z) : KM heap Z :=
  brk ← gets h_brk;
  limit ← gets h_limit;
  if (n <? 0) || (brk + n <=? limit) then
    modify (λ h, h <| h_mem ::= λ m x, if (brk <=? x) && (x <? brk + n) then 0 else m x |> <| h_brk := brk + n |>);;
    mret brk
  else mret (-1).

(** The search for the place of the block [bp] in the list. *)
Definition find_place (bp : Z) : KM heap Z :=
  freep ← gets h_freep;
  while_ (λ p,
    next ← get_ptr p;
    if (p <? bp) && (bp <? next) then mret (inr p)
    else if (next <=? p) && ((p <? bp) || (bp <? next)) then mret (inr p)
    else mret (inl next)) freep.

(** Join the block [bp] with the free block after it, or link it to that block. *)
Definition join_next (bp p : Z) : KM heap () :=
  size ← get_size bp;
  next ← get_ptr p;
  if u64 (bp + 16 * size) =? next then
    nsize ← get_size next;
    set_size bp (u32 (size + nsize));;
    nnext ← get_ptr next;
    set_ptr bp nnext
  else set_ptr bp next.

(** Join the free block [p] with the block [bp] after it, or link [p] to it. *)
Definition join_prev (bp p : Z) : KM heap () :=
  psize ← get_size p;
  if u64 (p + 16 * psize) =? bp then
    bsize ← get_size bp;
    set_size p (u32 (psize + bsize));;
    bnext ← get_ptr bp;
    set_ptr p bnext
  else set_ptr p bp.

Definition free (ap : Z) : KM heap () :=
  let bp := u64 (ap - 16) in
  p ← find_place bp;
  join_next bp p;;
  join_prev bp p;;
  modify (λ h, h <| h_freep := p |>).

Definition morecore (nu : Z) : KM heap Z :=
  let nu := if nu <? 4096 then 4096 else nu in
  p ← sbrk (i32 (nu * 16));
  if p =? -1 then mret 0
  else
    set_size p nu;;
    free (p + 16);;
    gets h_freep.

Definition units (nbytes : Z) : Z := u32 ((nbytes + 16 - 1) / 16 + 1).

Section Malloc.
(** The address of the static header. *)
Variable base : Z.

(** Take [nunits] from the block [p], which has at least as many. *)
Definition take_block (prevp p nunits : Z) : KM heap Z :=
  size ← get_size p;
  p ← (if size =? nunits then
         next ← get_ptr p;
         set_ptr prevp next;;
         mret p
       else
         set_size p (size - nunits);;
         let p := u64 (p + 16 * (size - nunits)) in
         set_size p nunits;;
         mret p);
  modify (λ h, h <| h_freep := prevp |>);;
  mret (p + 16).

Definition malloc (nbytes : Z) : KM heap Z :=
  let nunits := units nbytes in
  freep ← gets h_freep;
  prevp ← (if freep =? 0 then
             set_ptr base base;;
             modify (λ h, h <| h_freep := base |>);;
             set_size base 0;;
             mret base
           else mret freep);
  p ← get_ptr prevp;
  while_ (λ '(prevp, p),
    size ← get_size p;
    if nunits <=? size then
      r ← take_block prevp p nunits;
      mret (inr r)
    else
      freep ← gets h_freep;
      if p =? freep then
        p ← morecore nunits;
        if p =? 0 then mret (inr 0)
        else next ← get_ptr p; mret (inl (p, next))
      else next ← get_ptr p; mret (inl (p, next))) (prevp, p).
End Malloc.

(** ** The heap as blocks *)

Implicit Types (m : memory) (h : heap) (l : list (Z * Z)).

(** The block occupies the address. *)
Definition occupies (b : Z * Z) (x : Z) : Prop := b.1 ≤ x < b.1 + 16 * b.2.
Definition free_at l (x : Z) : Prop := ∃ b, b ∈ l ∧ occupies b x.

(** The free blocks in address order, no two of them adjacent. *)
Fixpoint spaced (lo : Z) l : Prop :=
  match l with
  | [] => True
  | (a, n) :: l' => lo ≤ a ∧ 1 ≤ n ∧ spaced (a + 16 * n + 1) l'
  end.

Fixpoint above (lo : Z) l : Z :=
  match l with [] => lo | (a, n) :: l' => above (a + 16 * n + 1) l' end.

(** The address of the first block of [l], or [last]. *)
Definition next_of l (last : Z) : Z := match l with [] => last | (a, _) :: _ => a end.

(** The headers of the blocks [l] are linked in order, the last one to [last]. *)
Fixpoint links m l (last : Z) : Prop :=
  match l with
  | [] => True
  | (a, n) :: l' => hptr m a = next_of l' last ∧ hsize m a = n ∧ links m l' last
  end.

Definition apart (b c : Z * Z) : Prop := b.1 + 16 * b.2 ≤ c.1 ∨ c.1 + 16 * c.2 ≤ b.1.

(** [l]: the free blocks; [u]: the blocks handed out, with their sizes. *)
Record heap_inv (base : Z) l (u : gmap Z Z) h : Prop := HeapInv {
  hi_base : 0 < base;
  hi_brk : base + 16 ≤ h_brk h ≤ h_limit h;
  hi_limit : h_limit h ≤ 2 ^ 35;
  hi_spaced : spaced (base + 16) l;
  hi_top : Forall (λ b, b.1 + 16 * b.2 ≤ h_brk h) l;
  hi_links : links (h_mem h) ((base, 0) :: l) base;
  hi_freep : h_freep h ∈ ((base, 0) :: l).*1;
  hi_used : ∀ a n, u !! a = Some n →
    base + 16 ≤ a ∧ 1 ≤ n ∧ a + 16 * n ≤ h_brk h ∧ hsize (h_mem h) a = n;
  hi_apart : ∀ b a n, b ∈ l → u !! a = Some n → apart b (a, n);
  hi_pairs : ∀ a n a' n', u !! a = Some n → u !! a' = Some n' → a ≠ a' → apart (a, n) (a', n');
}.

(** ** Lemmas on lists of blocks *)

Lemma spaced_app lo l1 l2 : spaced lo (l1 ++ l2) ↔ spaced lo l1 ∧ spaced (above lo l1) l2.
Proof. revert lo. induction l1 as [|[a n] l1 IH]; intros lo; cbn; [tauto|]. rewrite IH. tauto. Qed.

Lemma above_app lo l1 l2 : above lo (l1 ++ l2) = above (above lo l1) l2.
Proof. revert lo. induction l1 as [|[a n] l1 IH]; intros lo; cbn; [done|apply IH]. Qed.

Lemma above_ge lo l : spaced lo l → lo ≤ above lo l.
Proof. revert lo. induction l as [|[a n] l IH]; intros lo; cbn; [lia|]. intros (H1 & H2 & H3). specialize (IH _ H3). lia. Qed.

Lemma spaced_weaken lo lo' l : lo' ≤ lo → spaced lo l → spaced lo' l.
Proof. destruct l as [|[a n] l]; cbn; [done|]. intros ? (? & ? & ?). split_and!; [lia|done|done]. Qed.

Lemma spaced_in lo l b : spaced lo l → b ∈ l → lo ≤ b.1 ∧ 1 ≤ b.2 ∧ b.1 + 16 * b.2 < above lo l.
Proof.
  revert lo. induction l as [|[a n] l IH]; intros lo; cbn; [set_solver|]. intros (H1 & H2 & H3) [->|Hb]%elem_of_cons.
  - cbn. pose proof (above_ge _ _ H3). lia.
  - specialize (IH _ H3 Hb). lia.
Qed.

Lemma next_of_app l1 l2 last : next_of (l1 ++ l2) last = next_of l1 (next_of l2 last).
Proof. by destruct l1 as [|[a n] l1]. Qed.

Lemma links_app m l1 l2 last : links m (l1 ++ l2) last ↔ links m l1 (next_of l2 last) ∧ links m l2 last.
Proof. induction l1 as [|[a n] l1 IH]; cbn; [tauto|]. rewrite next_of_app, IH. tauto. Qed.

Lemma links_ext m m' l last :
  (∀ b x, b ∈ l → b.1 ≤ x < b.1 + 16 → m' x = m x) → links m l last → links m' l last.
Proof.
  intros Hx. induction l as [|[a n] l IH]; [done|]. cbn. intros (H1 & H2 & H3).
  assert (∀ x, a ≤ x < a + 16 → m' x = m x) as Ha by (intros x; apply (Hx (a, n)); set_solver).
  split_and!.
  - rewrite <- H1. unfold hptr. apply le_load_ext. intros. apply Ha. lia.
  - rewrite <- H2. unfold hsize. apply le_load_ext. intros. apply Ha. lia.
  - apply IH; [|done]. intros b x Hb. apply Hx. set_solver.
Qed.

Lemma hptr_store_ptr m p v : 0 ≤ v < 2 ^ 64 → hptr (le_store m p v 8) p = v.
Proof. intros. unfold hptr. rewrite le_load_store. by apply Z.mod_small. Qed.
Lemma hsize_store_size m p v : 0 ≤ v < 2 ^ 32 → hsize (le_store m (p + 8) v 4) p = v.
Proof. intros. unfold hsize. rewrite le_load_store. by apply Z.mod_small. Qed.
Lemma hsize_store_ptr m p q v : p + 8 ≤ q + 8 ∨ q + 12 ≤ p → p = q ∨ p + 8 ≤ q + 8 ∨ q + 12 ≤ p →
  hsize (le_store m p v 8) q = hsize m q.
Proof. intros. unfold hsize. apply le_load_store_ne. lia. Qed.

(** ** Headers *)

Lemma get_ptr_run p e h : 0 < p → p + 16 ≤ h_brk h → get_ptr p e h = Ret (hptr (h_mem h) p) e h.
Proof.
  intros. unfold get_ptr, header_ok. krun. destruct (Z.ltb_spec 0 p); [|lia]. destruct (Z.leb_spec (p + 16) (h_brk h)); [done|lia].
Qed.
Lemma get_size_run p e h : 0 < p → p + 16 ≤ h_brk h → get_size p e h = Ret (hsize (h_mem h) p) e h.
Proof.
  intros. unfold get_size, header_ok. krun. destruct (Z.ltb_spec 0 p); [|lia]. destruct (Z.leb_spec (p + 16) (h_brk h)); [done|lia].
Qed.
Lemma set_ptr_run p v e h : 0 < p → p + 16 ≤ h_brk h →
  set_ptr p v e h = Ret () e (h <| h_mem ::= λ m, le_store m p v 8 |>).
Proof.
  intros. unfold set_ptr, header_ok. krun. destruct (Z.ltb_spec 0 p); [|lia]. destruct (Z.leb_spec (p + 16) (h_brk h)); [done|lia].
Qed.
Lemma set_size_run p v e h : 0 < p → p + 16 ≤ h_brk h →
  set_size p v e h = Ret () e (h <| h_mem ::= λ m, le_store m (p + 8) v 4 |>).
Proof.
  intros. unfold set_size, header_ok. krun. destruct (Z.ltb_spec 0 p); [|lia]. destruct (Z.leb_spec (p + 16) (h_brk h)); [done|lia].
Qed.

(** [m'] is [m] with the header at [p] set to [(v, n)]. *)
Record sets_header m m' (p v n : Z) : Prop := SetsHeader {
  sh_ptr : hptr m' p = v;
  sh_size : hsize m' p = n;
  sh_frame : ∀ x, x < p ∨ p + 16 ≤ x → m' x = m x;
}.

Lemma store_ptr_sets m p v : 0 ≤ v < 2 ^ 64 → sets_header m (le_store m p v 8) p v (hsize m p).
Proof.
  intros Hv. split.
  - by apply hptr_store_ptr.
  - unfold hsize. apply le_load_store_ne. lia.
  - intros x Hx. apply le_store_other. lia.
Qed.

Lemma store_size_sets m p n : 0 ≤ n < 2 ^ 32 → sets_header m (le_store m (p + 8) n 4) p (hptr m p) n.
Proof.
  intros Hn. split.
  - unfold hptr. apply le_load_store_ne. lia.
  - by apply hsize_store_size.
  - intros x Hx. apply le_store_other. lia.
Qed.

Lemma sets_header_trans m1 m2 m3 p v n v' n' :
  sets_header m1 m2 p v n → sets_header m2 m3 p v' n' → sets_header m1 m3 p v' n'.
Proof. intros [_ _ F1] [P2 S2 F2]. split; [done|done|]. intros x Hx. by rewrite F2, F1. Qed.

Lemma sets_header_other m m' p v n q : sets_header m m' p v n → q + 16 ≤ p ∨ p + 16 ≤ q →
  hptr m' q = hptr m q ∧ hsize m' q = hsize m q.
Proof.
  intros [_ _ F] Hq. split; apply le_load_ext; intros x Hx; apply F; lia.
Qed.

Lemma links_sets m m' p v n l last : sets_header m m' p v n →
  Forall (λ b, b.1 + 16 ≤ p ∨ p + 16 ≤ b.1) l → links m l last → links m' l last.
Proof.
  intros Hs Hl. apply links_ext. intros b x Hb Hx. apply (sh_frame _ _ _ _ _ Hs).
  rewrite Forall_forall in Hl. specialize (Hl b Hb). cbn in Hl. lia.
Qed.

(** ** Order of the free blocks *)

Lemma spaced_sorted lo l : spaced lo l → StronglySorted Z.lt l.*1 ∧ Forall (λ x, lo ≤ x) l.*1.
Proof.
  revert lo. induction l as [|[a n] l IH]; intros lo; cbn [spaced fmap list_fmap]; [intros; split; constructor|].
  intros (H1 & H2 & H3). destruct (IH _ H3) as [Hs Hf]. split; constructor; cbn; try lia; try done.
  - eapply Forall_impl; [exact Hf|]. cbn. intros. lia.
  - eapply Forall_impl; [exact Hf|]. cbn. intros. lia.
Qed.

Lemma base_sorted base l : spaced (base + 16) l → StronglySorted Z.lt ((base, 0) :: l).*1.
Proof.
  intros Hs. apply spaced_sorted in Hs as [Hs Hf]. constructor; [done|]. eapply Forall_impl; [exact Hf|]. cbn. intros. lia.
Qed.

Lemma sorted_split (l1 l2 : list (Z * Z)) a n : StronglySorted Z.lt (l1 ++ (a, n) :: l2).*1 →
  (∀ b, b ∈ l1 → b.1 < a) ∧ (∀ b, b ∈ l2 → a < b.1).
Proof.
  rewrite fmap_app. cbn [fmap list_fmap]. intros Hs. apply StronglySorted_app in Hs as (H1 & H2 & H3).
  apply StronglySorted_inv in H3 as [_ H3]. split.
  - intros b Hb. apply H1; [by apply list_elem_of_fmap_2|cbn; set_solver].
  - intros b Hb. rewrite Forall_forall in H3. apply H3. by apply list_elem_of_fmap_2.
Qed.

Lemma spaced_length lo l : spaced lo l → lo + 16 * Z.of_nat (length l) ≤ above lo l.
Proof. revert lo. induction l as [|[a n] l IH]; intros lo; cbn [spaced above length]; [lia|]. intros (H1 & H2 & H3). specialize (IH _ H3). lia. Qed.

Lemma above_top lo l top : Forall (λ b, b.1 + 16 * b.2 ≤ top) l → lo ≤ top + 1 → above lo l ≤ top + 1.
Proof. revert lo. induction l as [|[a n] l IH]; intros lo; cbn [above]; [done|]. intros [H1 H2]%Forall_cons Hlo. cbn in H1. apply IH; [done|lia]. Qed.

(** The place of a block in the list. *)
Lemma place_exists bp q (k : Z) l : q < bp → StronglySorted Z.lt ((q, k) :: l).*1 → (∀ b, b ∈ l → b.1 ≠ bp) →
  ∃ l1 p n l2, (q, k) :: l = l1 ++ (p, n) :: l2 ∧ p < bp ∧ (∀ b, b ∈ l2 → bp < b.1).
Proof.
  revert q k. induction l as [|[a n] l IH]; intros q k Hq Hs Hne.
  - exists [], q, k, []. split_and!; [done|done|set_solver].
  - assert (a ≠ bp) by (apply (Hne (a, n)); set_solver). cbn [fmap list_fmap] in Hs.
    apply StronglySorted_inv in Hs as [Hs Hf]. destruct (Z.lt_ge_cases a bp) as [Hlt|Hge].
    + destruct (IH a n Hlt Hs ltac:(intros; apply Hne; set_solver)) as (l1 & p & n' & l2 & E & Hp & H2).
      exists ((q, k) :: l1), p, n', l2. rewrite E. split_and!; [done|done|done].
    + exists [], q, k, ((a, n) :: l). split_and!; [done|done|]. intros b [->|Hb]%elem_of_cons; [cbn; lia|].
      apply StronglySorted_inv in Hs as [_ Hf']. rewrite Forall_forall in Hf'.
      assert (a < b.1) by (apply Hf'; by apply list_elem_of_fmap_2). lia.
Qed.
