(* ===== verification/UmallocFree.v ===== *)
(** * UmallocFree: giving a block back (free of user/umalloc.c)

    [free] finds the place of the block in the address order, joins it with its
    neighbours when they are adjacent, and leaves everything else alone. *)

From stdpp Require Import sorting.
From S2P Require Import Prelude CString State PhysMem Umalloc.

Implicit Types (m : memory) (h : heap) (l : list (Z * Z)) (u : gmap Z Z) (e : list (heap → heap)).

(** Membership in lists that are put together from others. *)
Ltac in_list :=
  first [ assumption | reflexivity | by apply list_elem_of_here | by apply list_elem_of_further; in_list
        | apply elem_of_app; first [by left; in_list | by right; in_list] ].

Section Inv.
Context (base : Z) (l : list (Z * Z)) (u : gmap Z Z) (h : heap).
Hypothesis HI : heap_inv base l u h.

Lemma node_range q k : (q, k) ∈ (base, 0) :: l → base ≤ q ∧ q + 16 ≤ h_brk h ∧ 0 ≤ k ∧ q + 16 * k ≤ h_brk h ∧ q ≠ 0.
Proof using HI.
  destruct HI as [Hb Hbrk Hlim Hs Ht _ _ _ _ _]. intros [E|Hin]%elem_of_cons; [simplify_eq; lia|].
  destruct (spaced_in _ _ _ Hs Hin) as (H1 & H2 & _). rewrite Forall_forall in Ht. specialize (Ht _ Hin). cbn in *. lia.
Qed.

Lemma node_at l1 q k l2 : (base, 0) :: l = l1 ++ (q, k) :: l2 →
  hptr (h_mem h) q = next_of l2 base ∧ hsize (h_mem h) q = k.
Proof using HI.
  intros E. pose proof (hi_links _ _ _ _ HI) as Hl. rewrite E in Hl. apply links_app in Hl as [_ Hl]. cbn in Hl. tauto.
Qed.

Lemma node_ptr l1 q k l2 e : (base, 0) :: l = l1 ++ (q, k) :: l2 → get_ptr q e h = Ret (next_of l2 base) e h.
Proof using HI.
  intros E. destruct (node_range q k ltac:(rewrite E; in_list)) as (? & ? & _).
  rewrite get_ptr_run by (pose proof (hi_base _ _ _ _ HI); lia). by rewrite (proj1 (node_at _ _ _ _ E)).
Qed.

Lemma node_size l1 q k l2 e : (base, 0) :: l = l1 ++ (q, k) :: l2 → get_size q e h = Ret k e h.
Proof using HI.
  intros E. destruct (node_range q k ltac:(rewrite E; in_list)) as (? & ? & _).
  rewrite get_size_run by (pose proof (hi_base _ _ _ _ HI); lia). by rewrite (proj2 (node_at _ _ _ _ E)).
Qed.

Lemma inv_sorted : StronglySorted Z.lt ((base, 0) :: l).*1.
Proof using HI. apply base_sorted, HI. Qed.

Lemma inv_length : Z.of_nat (length l) ≤ 2 ^ 35.
Proof using HI.
  destruct HI as [Hb Hbrk Hlim Hs Ht _ _ _ _ _]. pose proof (spaced_length _ _ Hs).
  assert (base + 16 ≤ h_brk h + 1) as Hlo by lia. pose proof (above_top _ _ _ Ht Hlo). lia.
Qed.

(** ** The search *)

Abbreviation place_step bp := (λ p : Z,
    next ← get_ptr p;
    if (p <? bp) && (bp <? next) then mret (inr p)
    else if (next <=? p) && ((p <? bp) || (bp <? next)) then mret (inr p)
    else mret (inl next) : KM heap (Z + Z)).

Context (bp p k : Z) (l1 l2 : list (Z * Z)).
Hypothesis Hsplit : (base, 0) :: l = l1 ++ (p, k) :: l2.
Hypothesis Hp : p < bp.
Hypothesis Hnext : ∀ b, b ∈ l2 → bp < b.1.

Lemma bp_base : base < bp.
Proof using HI Hsplit Hp Hnext. destruct (node_range p k ltac:(rewrite Hsplit; in_list)) as (? & _). lia. Qed.

(** At the place the loop is left, and at any other block it goes on. *)
Lemma place_here e : place_step bp p e h = Ret (inr p) e h.
Proof using HI Hsplit Hp Hnext.
  cbv beta. run (node_ptr _ _ _ _ e Hsplit). pose proof bp_base as Hbb. pose proof (hi_base _ _ _ _ HI).
  destruct (node_range p k ltac:(rewrite Hsplit; in_list)) as (? & _).
  destruct (Z.ltb_spec p bp); [|lia]. destruct l2 as [|[a n] l2']; cbn [next_of andb orb].
  - destruct (Z.ltb_spec bp base); [lia|]. cbn. destruct (Z.leb_spec base p); [done|lia].
  - pose proof (Hnext (a, n) ltac:(in_list)) as Hn. cbn in Hn. destruct (Z.ltb_spec bp a); [done|lia].
Qed.

Lemma place_before e c q j l3 : l1 = c ++ (q, j) :: l3 →
  place_step bp q e h = Ret (inl (next_of (l3 ++ (p, k) :: l2) base)) e h.
Proof using HI Hsplit Hp Hnext.
  intros E. assert ((base, 0) :: l = c ++ (q, j) :: l3 ++ (p, k) :: l2) as E' by (by rewrite Hsplit, E, <- app_assoc).
  cbv beta. run (node_ptr _ _ _ _ e E'). pose proof inv_sorted as Hs. rewrite E' in Hs. apply sorted_split in Hs as [_ Hs].
  assert (∃ a i, next_of (l3 ++ (p, k) :: l2) base = a ∧ (a, i) ∈ l3 ++ [(p, k)]) as (a & i & Ea & Hin).
  { destruct l3 as [|[a i] l3]; [exists p, k|exists a, i]; (split; [done|constructor]). }
  rewrite Ea. assert (q < a) as Hqa by (apply (Hs (a, i)); apply elem_of_app in Hin as [Hin|Hin]; [in_list|]; apply list_elem_of_singleton in Hin as [= -> ->]; in_list).
  assert (a ≤ p) as Hap.
  { apply elem_of_app in Hin as [Hin|Hin]; [|apply list_elem_of_singleton in Hin as [= -> ->]; lia]. pose proof inv_sorted as Hs2. rewrite Hsplit in Hs2.
    apply sorted_split in Hs2 as [Hs2 _]. assert (a < p) by (apply (Hs2 (a, i)); rewrite E; in_list). lia. }
  destruct (Z.ltb_spec bp a); [lia|]. rewrite andb_false_r. destruct (Z.leb_spec a q); [lia|]. done.
Qed.

Lemma place_after e c q j l3 : l2 = c ++ (q, j) :: l3 →
  place_step bp q e h = Ret (inl (next_of l3 base)) e h.
Proof using HI Hsplit Hp Hnext.
  intros E. assert ((base, 0) :: l = (l1 ++ (p, k) :: c) ++ (q, j) :: l3) as E' by (rewrite Hsplit, E, <- app_assoc; done).
  cbv beta. run (node_ptr _ _ _ _ e E'). assert (bp < q) as Hq by (apply (Hnext (q, j)); rewrite E; in_list).
  destruct (Z.ltb_spec q bp); [lia|]. cbn [andb orb]. pose proof bp_base.
  destruct l3 as [|[a i] l3]; cbn [next_of].
  - destruct (Z.ltb_spec bp base); [lia|]. by rewrite andb_false_r.
  - pose proof inv_sorted as Hs. rewrite E' in Hs. apply sorted_split in Hs as [_ Hs].
    assert (q < a) by (apply (Hs (a, i)); in_list). destruct (Z.leb_spec a q); [lia|]. done.
Qed.

Lemma place_from_before e c l3 : l1 = c ++ l3 →
  runs (place_step bp) (next_of (l3 ++ (p, k) :: l2) base) e h (Z.of_nat (length l3) + 1) p e h.
Proof using HI Hsplit Hp Hnext.
  revert c. induction l3 as [|[q j] l3 IH]; intros c E; cbn [app next_of length].
  - apply runs_done. apply place_here.
  - replace (Z.of_nat (S (length l3)) + 1) with (Z.of_nat (length l3) + 1 + 1) by lia.
    eapply runs_step; [by eapply place_before|]. apply (IH (c ++ [(q, j)])). by rewrite <- app_assoc.
Qed.

Lemma place_from_after e c l3 : l2 = c ++ l3 →
  ∃ n, runs (place_step bp) (next_of l3 base) e h n p e h ∧ n ≤ Z.of_nat (length l3) + Z.of_nat (length l1) + 1.
Proof using HI Hsplit Hp Hnext.
  revert c. induction l3 as [|[q j] l3 IH]; intros c E; cbn [next_of length].
  - exists (Z.of_nat (length l1) + 1). split; [|lia]. pose proof (place_from_before e [] l1 eq_refl) as R.
    rewrite <- Hsplit in R. exact R.
  - destruct (IH (c ++ [(q, j)])) as (n & R & Hn); [by rewrite <- app_assoc|].
    exists (n + 1). split; [eapply runs_step; [by eapply place_after|done]|lia].
Qed.

Lemma find_place_run e : find_place bp e h = Ret p e h.
Proof using HI Hsplit Hp Hnext.
  unfold find_place. krun. pose proof inv_length as Hlen.
  assert (length l + 1 = length l1 + 1 + length l2)%nat as Hll.
  { apply (f_equal length) in Hsplit. rewrite length_app in Hsplit. cbn in Hsplit. lia. }
  pose proof (hi_freep _ _ _ _ HI) as Hf. rewrite Hsplit in Hf.
  apply list_elem_of_fmap in Hf as ([q j] & -> & Hq). cbn [fst]. apply elem_of_app in Hq as [Hq|Hq].
  - apply list_elem_of_split in Hq as (c & l3 & E).
    pose proof (place_from_before e c ((q, j) :: l3) E) as R. cbn [app next_of] in R.
    apply (f_equal length) in E. rewrite length_app in E. cbn [length] in E.
    eapply while_runs; [exact R|]. cbn [length]. lia.
  - apply elem_of_cons in Hq as [Hq|Hq].
    + simplify_eq. eapply while_runs; [apply runs_done, place_here|lia].
    + apply list_elem_of_split in Hq as (c & l3 & E). destruct (place_from_after e c ((q, j) :: l3) E) as (n & R & Hn).
      cbn [next_of] in R. apply (f_equal length) in E. rewrite length_app in E. cbn [length] in E.
      eapply while_runs; [exact R|]. cbn [length] in Hn. lia.
Qed.
End Inv.

(** ** Joining with the neighbours *)

(** Only the memory differs. *)
Definition same_bounds h h' : Prop := h_brk h' = h_brk h ∧ h_limit h' = h_limit h ∧ h_freep h' = h_freep h.

Section Free.
Context (base : Z) (l : list (Z * Z)) (u : gmap Z Z) (h : heap).
Hypothesis HI : heap_inv base l u h.
Context (a n p k : Z) (l1 l2 : list (Z * Z)).
Hypothesis Ha : u !! a = Some n.
Hypothesis Hsplit : (base, 0) :: l = l1 ++ (p, k) :: l2.
Hypothesis Hp : p < a.
Hypothesis Hnext : ∀ b, b ∈ l2 → a < b.1.

(** Where the blocks lie: those before [p], [p], the block, those after it. *)
Record layout : Prop := Layout {
  ly_a : base + 16 ≤ a ∧ 1 ≤ n ∧ a + 16 * n ≤ h_brk h ∧ hsize (h_mem h) a = n ∧ 0 < base ∧ h_brk h ≤ 2 ^ 35;
  ly_p : base ≤ p ∧ p + 16 ≤ a ∧ p + 16 * k ≤ a ∧ 0 ≤ k;
  ly_l1 : ∀ b, b ∈ l1 → b.1 + 16 ≤ p ∧ base ≤ b.1;
  ly_l2 : ∀ b, b ∈ l2 → a + 16 * n ≤ b.1 ∧ 1 ≤ b.2 ∧ b.1 + 16 * b.2 ≤ h_brk h;
  ly_sp2 : spaced (p + 16 * k + 1) l2 ∨ l1 = [] ∧ p = base ∧ k = 0 ∧ spaced (base + 16) l2;
}.

Lemma layout_holds : layout.
Proof using HI Ha Hsplit Hp Hnext.
  destruct (hi_used _ _ _ _ HI a n Ha) as (A1 & A2 & A3 & A4). destruct HI as [Hb Hbrk Hlim Hs Ht _ _ _ Hap _].
  assert (∀ b, b ∈ l2 → b ∈ l) as Hl2.
  { intros b Hb2. destruct l1 as [|x l1']; cbn [app] in Hsplit; simplify_eq; [done|in_list]. }
  assert (∀ b, b ∈ l → b.1 + 16 * b.2 ≤ h_brk h ∧ base + 16 ≤ b.1 ∧ 1 ≤ b.2 ∧ apart b (a, n)) as Hin.
  { intros b Hbl. rewrite Forall_forall in Ht. specialize (Ht _ Hbl). cbn in Ht. destruct (spaced_in _ _ _ Hs Hbl) as (? & ? & _).
    split_and!; [done|done|done|by apply Hap]. }
  unfold apart in Hin. cbn [fst snd] in Hin. split.
  - split_and!; try done; lia.
  - destruct l1 as [|x l1']; cbn [app] in Hsplit; simplify_eq; [lia|]. destruct (Hin (p, k)) as (? & ? & ? & ?); [in_list|]. cbn in *. lia.
  - destruct l1 as [|x l1']; cbn [app] in Hsplit; [intros b Hbn; by apply elem_of_nil in Hbn|]. injection Hsplit as <- ->.
    apply spaced_app in Hs as [Hs1 Hs2]. cbn in Hs2. pose proof (above_ge _ _ Hs1).
    intros b [->|Hb1]%elem_of_cons; [cbn; lia|]. destruct (spaced_in _ _ _ Hs1 Hb1). lia.
  - intros b Hb2. pose proof (Hnext b Hb2). destruct (Hin b (Hl2 b Hb2)) as (? & ? & ? & ?). lia.
  - destruct l1 as [|x l1']; cbn [app] in Hsplit; simplify_eq; [by right|]. left. by apply spaced_app in Hs as (_ & _ & _ & Hs2).
Qed.

(** What joining with the next block gives: the block has [n1] units and is
    followed by [l3]. *)
Record joined (ll : list (Z * Z)) (n1 : Z) (l3 : list (Z * Z)) : Prop := Joined {
  jo_size : n ≤ n1 ∧ a + 16 * n1 ≤ h_brk h;
  jo_spaced : spaced (a + 16 * n1 + 1) l3;
  jo_sub : ∀ b, b ∈ l3 → b ∈ ll;
  jo_links : links (h_mem h) l3 base;
  jo_cover : ∀ x, occupies (a, n1) x ∨ free_at l3 x ↔ occupies (a, n) x ∨ free_at ll x;
  jo_apart : ∀ c j, u !! c = Some j → c ≠ a → apart (a, n1) (c, j);
}.

Lemma free_at_cons b l' x : free_at (b :: l') x ↔ occupies b x ∨ free_at l' x.
Proof. unfold free_at. setoid_rewrite elem_of_cons. naive_solver. Qed.

Lemma free_at_app l' l'' x : free_at (l' ++ l'') x ↔ free_at l' x ∨ free_at l'' x.
Proof. unfold free_at. setoid_rewrite elem_of_app. naive_solver. Qed.

Lemma links_l2 : hptr (h_mem h) p = next_of l2 base ∧ hsize (h_mem h) p = k ∧ links (h_mem h) l2 base ∧ links (h_mem h) l1 p.
Proof using HI Hsplit.
  pose proof (hi_links _ _ _ _ HI) as Hl. rewrite Hsplit in Hl. apply links_app in Hl as [H1 H2]. cbn in H1, H2. tauto.
Qed.

Lemma join_next_run e : ∃ h1 n1 l3, join_next a p e h = Ret () e h1 ∧ same_bounds h h1 ∧
  sets_header (h_mem h) (h_mem h1) a (next_of l3 base) n1 ∧ joined l2 n1 l3.
Proof using HI Ha Hsplit Hp Hnext.
  destruct layout_holds as [(A1 & A2 & A3 & A4 & Hb0 & Hlim) (P1 & P2 & P3 & P4) _ L2 Hs2].
  destruct links_l2 as (Lp & _ & Ll2 & _). pose proof (hi_pairs _ _ _ _ HI) as Hpairs.
  unfold join_next. run (get_size_run a e h ltac:(lia) ltac:(lia)). run (get_ptr_run p e h ltac:(lia) ltac:(lia)).
  rewrite A4, Lp, wrapu_id by lia. destruct l2 as [|[b nb] l3]; cbn [next_of].
  - destruct (Z.eqb_spec (a + 16 * n) base); [lia|]. rewrite set_ptr_run by lia.
    eexists _, n, []. split_and!; [done|done| |].
    + cbn [next_of]. rewrite <- A4. apply store_ptr_sets. lia.
    + split; [lia|done|auto|done|intros; reflexivity|]. intros c j Hc Hne. by apply Hpairs.
  - destruct (L2 (b, nb) ltac:(in_list)) as (B1 & B2 & B3). cbn [fst snd] in *. cbn in Ll2. destruct Ll2 as (Lb1 & Lb2 & Ll3).
    assert (spaced (b + 16 * nb + 1) l3) as Hs3 by (destruct Hs2 as [(_ & _ & ?)|(_ & _ & _ & _ & _ & ?)]; done).
    destruct (Z.eqb_spec (a + 16 * n) b) as [E|E].
    + run (get_size_run b e h ltac:(lia) ltac:(lia)). rewrite Lb2, wrapu_id by lia.
      run (set_size_run a (n + nb) e h ltac:(lia) ltac:(lia)). set (h1 := h <| h_mem ::= _ |>).
      assert (sets_header (h_mem h) (h_mem h1) a (hptr (h_mem h) a) (n + nb)) as S1 by (apply store_size_sets; lia).
      run (get_ptr_run b e h1 ltac:(lia) ltac:(change (h_brk h1) with (h_brk h); lia)).
      destruct (sets_header_other _ _ _ _ _ b S1 ltac:(lia)) as [-> _]. rewrite Lb1.
      assert (0 ≤ next_of l3 base < 2 ^ 64) as Hr.
      { destruct l3 as [|[c nc] l3']; cbn [next_of]; [lia|]. destruct (L2 (c, nc) ltac:(in_list)) as (? & ? & ?). cbn in *. lia. }
      rewrite set_ptr_run by (change (h_brk h1) with (h_brk h); lia).
      eexists _, (n + nb), l3. split_and!; [done|done| |].
      * eapply sets_header_trans; [exact S1|]. rewrite <- (sh_size _ _ _ _ _ S1). by apply store_ptr_sets.
      * split; [lia| | |done| |].
        -- by replace (a + 16 * (n + nb) + 1) with (b + 16 * nb + 1) by lia.
        -- intros; in_list.
        -- intros x. rewrite free_at_cons. unfold occupies. cbn [fst snd]. split; [|intros [|[|]]; [left; lia|left; lia|by right]].
           intros [|]; [|by right; right]. destruct (Z.lt_ge_cases x b); [left; lia|right; left; lia].
        -- intros c j Hc Hne. destruct (hi_used _ _ _ _ HI c j Hc) as (_ & C2 & _).
           pose proof (Hpairs a n c j Ha Hc ltac:(done)) as H1. assert ((b, nb) ∈ l) as Hbl.
           { destruct l1 as [|y l1']; cbn [app] in Hsplit; simplify_eq; in_list. }
           pose proof (hi_apart _ _ _ _ HI (b, nb) c j Hbl Hc) as H2. unfold apart in *. cbn [fst snd] in *. lia.
    + rewrite set_ptr_run by lia. eexists _, n, ((b, nb) :: l3). split_and!; [done|done| |].
      * cbn [next_of]. rewrite <- A4. apply store_ptr_sets. lia.
      * split; [lia| |auto| |intros; reflexivity|].
        -- cbn. split_and!; [lia|lia|done].
        -- cbn. done.
        -- intros c j Hc Hne. by apply Hpairs.
Qed.

(** ** The resulting heap *)

(** The blocks handed out lie apart from the two headers that are written. *)
Lemma used_apart c j : u !! c = Some j → c ≠ a →
  (c + 16 ≤ a ∨ a + 16 ≤ c) ∧ (c + 16 ≤ p ∨ p + 16 ≤ c).
Proof using HI Ha Hsplit Hp Hnext.
  intros Hc Hne. destruct (hi_used _ _ _ _ HI c j Hc) as (C1 & C2 & _).
  destruct (hi_used _ _ _ _ HI a n Ha) as (_ & A2 & _).
  pose proof (hi_pairs _ _ _ _ HI a n c j Ha Hc ltac:(done)) as H1. unfold apart in H1. cbn [fst snd] in H1. split; [lia|].
  destruct l1 as [|y l1'] eqn:E1; cbn [app] in Hsplit; simplify_eq; [lia|].
  assert ((p, k) ∈ l1' ++ (p, k) :: l2) as Hpl by in_list.
  pose proof (hi_apart _ _ _ _ HI (p, k) c j Hpl Hc) as H2. destruct (spaced_in _ _ _ (hi_spaced _ _ _ _ HI) Hpl) as (_ & K & _).
  unfold apart in H2. cbn [fst snd] in *. lia.
Qed.

Section Result.
Context (m1 m2 : memory) (n1 v kp : Z) (l3 : list (Z * Z)).
Hypothesis S1 : sets_header (h_mem h) m1 a (next_of l3 base) n1.
Hypothesis S2 : sets_header m1 m2 p v kp.
Hypothesis HJ : joined l2 n1 l3.

Lemma result_before : links m2 l1 p.
Proof using HI Ha Hsplit Hp Hnext S1 S2.
  destruct layout_holds as [(A1 & _) (P1 & P2 & _) L1 _ _].
  eapply links_sets; [exact S2| |eapply links_sets; [exact S1| |apply links_l2]].
  - apply Forall_forall. intros b Hb. destruct (L1 b Hb). lia.
  - apply Forall_forall. intros b Hb. destruct (L1 b Hb). lia.
Qed.

Lemma result_after : links m2 l3 base.
Proof using HI Ha Hsplit Hp Hnext S1 S2 HJ.
  destruct layout_holds as [(A1 & A2 & _) (P1 & P2 & _) _ L2 _].
  eapply links_sets; [exact S2| |eapply links_sets; [exact S1| |apply HJ]].
  - apply Forall_forall. intros b Hb%(jo_sub _ _ _ HJ). destruct (L2 b Hb). lia.
  - apply Forall_forall. intros b Hb%(jo_sub _ _ _ HJ). destruct (L2 b Hb). lia.
Qed.

Lemma result_p : hptr m2 p = v ∧ hsize m2 p = kp.
Proof using S2. by destruct S2. Qed.

Lemma result_a : hptr m2 a = next_of l3 base ∧ hsize m2 a = n1.
Proof using HI Ha Hsplit Hp Hnext S1 S2.
  destruct layout_holds as [_ (P1 & P2 & _) _ _ _].
  destruct (sets_header_other _ _ _ _ _ a S2 ltac:(lia)) as [-> ->]. by destruct S1.
Qed.

Lemma result_used c j : delete a u !! c = Some j →
  base + 16 ≤ c ∧ 1 ≤ j ∧ c + 16 * j ≤ h_brk h ∧ hsize m2 c = j.
Proof using HI Ha Hsplit Hp Hnext S1 S2.
  intros [Hne Hc]%lookup_delete_Some. destruct (hi_used _ _ _ _ HI c j Hc) as (C1 & C2 & C3 & C4).
  destruct (used_apart c j Hc ltac:(done)) as [U1 U2]. split_and!; [done|done|done|].
  destruct (sets_header_other _ _ _ _ _ c S2 U2) as [_ ->]. by destruct (sets_header_other _ _ _ _ _ c S1 U1) as [_ ->].
Qed.

Lemma result_frame x : (x < p ∨ p + 16 ≤ x) → (x < a ∨ a + 16 ≤ x) → m2 x = h_mem h x.
Proof using S1 S2. intros. rewrite (sh_frame _ _ _ _ _ S2) by done. by rewrite (sh_frame _ _ _ _ _ S1). Qed.

(** The invariant, for the new list of free blocks. *)
Lemma result_inv h' l' : h_mem h' = m2 → h_brk h' = h_brk h → h_limit h' = h_limit h → h_freep h' = p →
  spaced (base + 16) l' → links m2 ((base, 0) :: l') base → p ∈ ((base, 0) :: l').*1 →
  (∀ b, b ∈ l' → b ∈ l ∨ a ≤ b.1 + 16 * b.2 ∧ b.1 + 16 * b.2 ≤ h_brk h ∧ ∀ c j, u !! c = Some j → c ≠ a → apart b (c, j)) →
  heap_inv base l' (delete a u) h'.
Proof using HI Ha Hsplit Hp Hnext S1 S2.
  intros Em Eb El Ef Hs Hl Hf Hin. destruct HI as [Hb Hbrk Hlim _ Ht _ _ _ Hap Hpairs]. split; rewrite ?Em, ?Eb, ?El, ?Ef; try done.
  - apply Forall_forall. intros b Hbl. destruct (Hin b Hbl) as [Hb'|(_ & ? & _)]; [|done]. rewrite Forall_forall in Ht. by apply Ht.
  - intros c j. apply result_used.
  - intros b c j Hbl [Hne Hc]%lookup_delete_Some. destruct (Hin b Hbl) as [Hb'|(_ & _ & H3)]; [by apply Hap|by apply H3].
  - intros c j c' j' [_ Hc]%lookup_delete_Some [_ Hc']%lookup_delete_Some. by apply Hpairs.
Qed.
End Result.

(** What giving back the block has changed. *)
Record freed l' h' : Prop := Freed {
  fr_inv : heap_inv base l' (delete a u) h';
  fr_brk : h_brk h' = h_brk h ∧ h_limit h' = h_limit h;
  fr_cover : ∀ x, free_at l' x ↔ free_at l x ∨ occupies (a, n) x;
  fr_block : ∃ b, b ∈ l' ∧ n ≤ b.2;
  fr_frame : ∀ x, x < base ∨ base + 16 ≤ x → ¬ free_at l' x → h_mem h' x = h_mem h x;
}.

Lemma freed_alone h1 h2 n1 l3 :
  same_bounds h h2 → sets_header (h_mem h) (h_mem h1) a (next_of l3 base) n1 → joined l2 n1 l3 →
  sets_header (h_mem h1) (h_mem h2) p a k → p + 16 * k ≠ a →
  ∃ l', freed l' (h2 <| h_freep := p |>).
Proof using HI Ha Hsplit Hp Hnext.
  intros (B1 & B2 & _) S1 HJ S2 Hne. pose proof layout_holds as [(A1 & A2 & A3 & _) (P1 & P2 & P3 & P4) L1 L2 Hs2].
  pose proof (result_inv _ _ _ _ _ _ S1 S2) as RI. pose proof (result_frame _ _ _ _ _ _ S1 S2) as RF.
  pose proof (result_before _ _ _ _ _ _ S1 S2) as R1. pose proof (result_after _ _ _ _ _ _ S1 S2 HJ) as R2.
  destruct (result_p _ _ _ _ S2) as [R3 R4]. destruct (result_a _ _ _ _ _ _ S1 S2) as [R5 R6].
  destruct HJ as [[J1 J2] J3 J4 _ J5 J6]. pose proof (hi_spaced _ _ _ _ HI) as Hsp.
  destruct l1 as [|y l1'] eqn:E1; cbn [app] in Hsplit.
  - injection Hsplit as Eb Ek El. subst p k l2. exists ((a, n1) :: l3). split.
    + eapply RI; [reflexivity|done|done|reflexivity| | |in_list|].
      * cbn. split_and!; [lia|lia|done].
      * cbn. done.
      * intros b [->|Hb]%elem_of_cons; [right; cbn; split_and!; [lia|lia|done]|left; auto].
    + by split.
    + intros x. rewrite free_at_cons, J5. tauto.
    + exists (a, n1). split; [in_list|done].
    + intros x Hx Hf. change (h_mem (h2 <| h_freep := base |>)) with (h_mem h2). apply RF; [lia|].
      destruct (decide (x < a ∨ a + 16 ≤ x)) as [|Hin]; [done|]. destruct Hf. apply free_at_cons. left. unfold occupies. cbn. lia.
  - injection Hsplit as Ey El. subst y. exists (l1' ++ (p, k) :: (a, n1) :: l3).
    rewrite El in Hsp. apply spaced_app in Hsp as [Hsp1 Hsp2]. cbn in Hsp2.
    assert (∀ b, b ∈ l1' → b ∈ l) as Hsub1 by (intros b Hb; rewrite El; in_list).
    assert (∀ b, b ∈ l2 → b ∈ l) as Hsub2 by (intros b Hb; rewrite El; in_list).
    split.
    + eapply RI; [reflexivity|done|done|reflexivity| | | |].
      * apply spaced_app. cbn. split_and!; [done|lia|lia|lia|lia|done].
      * change (links (h_mem h2) (((base, 0) :: l1') ++ (p, k) :: (a, n1) :: l3) base). apply links_app. cbn [next_of links]. done.
      * cbn [fmap list_fmap]. rewrite fmap_app. cbn [fmap list_fmap fst]. in_list.
      * intros b [Hb|[->|[->|Hb]%elem_of_cons]%elem_of_cons]%elem_of_app; [left; auto|left; rewrite El; in_list| |left; auto].
        right. cbn. split_and!; [lia|lia|done].
    + by split.
    + intros x. rewrite El, !free_at_app, !free_at_cons, J5. tauto.
    + exists (a, n1). split; [in_list|done].
    + intros x Hx Hf. change (h_mem (h2 <| h_freep := p |>)) with (h_mem h2).
      rewrite free_at_app, !free_at_cons in Hf. unfold occupies in Hf. cbn in Hf.
      apply RF.
      * destruct (decide (x < p ∨ p + 16 ≤ x)) as [|Hin]; [done|]. destruct Hf. right. left. lia.
      * destruct (decide (x < a ∨ a + 16 ≤ x)) as [|Hin]; [done|]. destruct Hf. right. right. left. lia.
Qed.

Lemma freed_joined h1 h2 n1 l3 :
  same_bounds h h2 → sets_header (h_mem h) (h_mem h1) a (next_of l3 base) n1 → joined l2 n1 l3 →
  sets_header (h_mem h1) (h_mem h2) p (next_of l3 base) (k + n1) → p + 16 * k = a →
  ∃ l', freed l' (h2 <| h_freep := p |>).
Proof using HI Ha Hsplit Hp Hnext.
  intros (B1 & B2 & _) S1 HJ S2 He. pose proof layout_holds as [(A1 & A2 & A3 & _) (P1 & P2 & P3 & P4) L1 L2 Hs2].
  pose proof (result_inv _ _ _ _ _ _ S1 S2) as RI. pose proof (result_frame _ _ _ _ _ _ S1 S2) as RF.
  pose proof (result_before _ _ _ _ _ _ S1 S2) as R1. pose proof (result_after _ _ _ _ _ _ S1 S2 HJ) as R2.
  destruct (result_p _ _ _ _ S2) as [R3 R4].
  destruct HJ as [[J1 J2] J3 J4 _ J5 J6]. pose proof (hi_spaced _ _ _ _ HI) as Hsp.
  destruct l1 as [|y l1'] eqn:E1; cbn [app] in Hsplit; [injection Hsplit as Eb Ek El; lia|].
  injection Hsplit as Ey El. subst y. exists (l1' ++ (p, k + n1) :: l3).
  rewrite El in Hsp. apply spaced_app in Hsp as [Hsp1 Hsp2]. cbn in Hsp2.
  assert (∀ b, b ∈ l1' → b ∈ l) as Hsub1 by (intros b Hb; rewrite El; in_list).
  assert (∀ b, b ∈ l2 → b ∈ l) as Hsub2 by (intros b Hb; rewrite El; in_list).
  assert ((p, k) ∈ l) as Hpl by (rewrite El; in_list).
  split.
  - eapply RI; [reflexivity|done|done|reflexivity| | | |].
    + apply spaced_app. cbn. split_and!; [done|lia|lia|]. by replace (p + 16 * (k + n1) + 1) with (a + 16 * n1 + 1) by lia.
    + change (links (h_mem h2) (((base, 0) :: l1') ++ (p, k + n1) :: l3) base). apply links_app. cbn [next_of links]. done.
    + cbn [fmap list_fmap]. rewrite fmap_app. cbn [fmap list_fmap fst]. in_list.
    + intros b [Hb|[->|Hb]%elem_of_cons]%elem_of_app; [left; auto| |left; auto].
      right. cbn [fst snd]. split_and!; [lia|lia|]. intros c j Hc Hne. specialize (J6 c j Hc Hne).
      pose proof (hi_apart _ _ _ _ HI (p, k) c j Hpl Hc) as H2. destruct (hi_used _ _ _ _ HI c j Hc) as (_ & C2 & _).
      unfold apart in *. cbn [fst snd] in *. lia.
  - by split.
  - intros x. rewrite El, !free_at_app, !free_at_cons. specialize (J5 x).
    assert (occupies (p, k + n1) x ↔ occupies (p, k) x ∨ occupies (a, n1) x) as Ho by (unfold occupies; cbn [fst snd]; lia).
    rewrite Ho. tauto.
  - exists (p, k + n1). split; [in_list|cbn; lia].
  - intros x Hx Hf. change (h_mem (h2 <| h_freep := p |>)) with (h_mem h2).
    rewrite free_at_app, !free_at_cons in Hf. unfold occupies in Hf. cbn in Hf.
    apply RF.
    + destruct (decide (x < p ∨ p + 16 ≤ x)) as [|Hin]; [done|]. destruct Hf. right. left. lia.
    + destruct (decide (x < a ∨ a + 16 ≤ x)) as [|Hin]; [done|]. destruct Hf. right. left. lia.
Qed.

Lemma join_prev_run e h1 n1 l3 :
  same_bounds h h1 → sets_header (h_mem h) (h_mem h1) a (next_of l3 base) n1 → joined l2 n1 l3 →
  ∃ h2 l', join_prev a p e h1 = Ret () e h2 ∧ freed l' (h2 <| h_freep := p |>).
Proof using HI Ha Hsplit Hp Hnext.
  intros (B1 & B2 & B3) S1 HJ. pose proof layout_holds as [(A1 & A2 & A3 & _ & Hb0 & Hlim) (P1 & P2 & P3 & P4) _ L2 _].
  destruct links_l2 as (_ & Lk & _). destruct HJ as [[J1 J2] J3 J4 J7 J5 J6] eqn:EJ. clear EJ.
  unfold join_prev. run (get_size_run p e h1 ltac:(lia) ltac:(lia)).
  destruct (sets_header_other _ _ _ _ _ p S1 ltac:(lia)) as [_ ->]. rewrite Lk, wrapu_id by lia.
  destruct (Z.eqb_spec (p + 16 * k) a) as [E|E].
  - run (get_size_run a e h1 ltac:(lia) ltac:(lia)). rewrite (sh_size _ _ _ _ _ S1), wrapu_id by lia.
    run (set_size_run p (k + n1) e h1 ltac:(lia) ltac:(lia)). set (h2 := h1 <| h_mem ::= _ |>).
    assert (sets_header (h_mem h1) (h_mem h2) p (hptr (h_mem h1) p) (k + n1)) as S2 by (apply store_size_sets; lia).
    run (get_ptr_run a e h2 ltac:(lia) ltac:(change (h_brk h2) with (h_brk h1); lia)).
    destruct (sets_header_other _ _ _ _ _ a S2 ltac:(lia)) as [-> _]. rewrite (sh_ptr _ _ _ _ _ S1).
    assert (0 ≤ next_of l3 base < 2 ^ 64) as Hr.
    { destruct l3 as [|[c nc] l3']; cbn [next_of]; [lia|]. destruct (L2 (c, nc) ltac:(apply J4; in_list)) as (? & ? & ?). cbn in *. lia. }
    rewrite set_ptr_run by (change (h_brk h2) with (h_brk h1); lia). eexists _. edestruct freed_joined as [l' Hfr]; [| | | | |exists l'; split; [reflexivity|exact Hfr]].
    + by split_and!.
    + exact S1.
    + by split.
    + eapply sets_header_trans; [exact S2|]. rewrite <- (sh_size _ _ _ _ _ S2). by apply store_ptr_sets.
    + done.
  - rewrite set_ptr_run by lia. eexists _. edestruct freed_alone as [l' Hfr]; [| | | | |exists l'; split; [reflexivity|exact Hfr]].
    + by split_and!.
    + exact S1.
    + by split.
    + rewrite <- Lk. destruct (sets_header_other _ _ _ _ _ p S1 ltac:(lia)) as [_ <-]. apply store_ptr_sets. lia.
    + done.
Qed.
End Free.

(** [free] gives the block back. *)
Lemma free_run base l u h a n e : heap_inv base l u h → u !! a = Some n →
  ∃ h' l', free (a + 16) e h = Ret () e h' ∧ freed base l u h a n l' h'.
Proof.
  intros HI Ha. destruct (hi_used _ _ _ _ HI a n Ha) as (A1 & A2 & A3 & _).
  destruct (place_exists a base 0 l ltac:(lia) (inv_sorted _ _ _ _ HI)) as (l1 & p & k & l2 & Hsplit & Hp & Hnext).
  { intros b Hb. pose proof (hi_apart _ _ _ _ HI b a n Hb Ha) as H. destruct (spaced_in _ _ _ (hi_spaced _ _ _ _ HI) Hb).
    unfold apart in H. cbn [fst snd] in H. lia. }
  unfold free. pose proof (hi_brk _ _ _ _ HI). pose proof (hi_limit _ _ _ _ HI). pose proof (hi_base _ _ _ _ HI).
  rewrite wrapu_id by lia. replace (a + 16 - 16) with a by lia.
  run (find_place_run base l u h HI a p k l1 l2 Hsplit Hp Hnext e).
  destruct (join_next_run base l u h HI a n p k l1 l2 Ha Hsplit Hp Hnext e) as (h1 & n1 & l3 & E1 & B1 & S1 & J1). run E1.
  destruct (join_prev_run base l u h HI a n p k l1 l2 Ha Hsplit Hp Hnext e h1 n1 l3 B1 S1 J1) as (h2 & l' & E2 & F). run E2.
  eexists _, l'. split; [krun; reflexivity|done].
Qed.
