(* ===== verification/UmallocAlloc.v ===== *)
(** * UmallocAlloc: getting a block (malloc of user/umalloc.c)

    [malloc] goes once around the free list; it takes the first block that is
    large enough, or extends the heap and then finds one. *)

From stdpp Require Import sorting.
From S2P Require Import Prelude CString State PhysMem Umalloc UmallocFree.

Implicit Types (m : memory) (h : heap) (l : list (Z * Z)) (u : gmap Z Z) (e : list (heap → heap)).

(** ** Taking a block from the list *)

(** What taking the block [(a, n)] has changed. *)
Record taken base l u h a n l' h' : Prop := Taken {
  tk_inv : heap_inv base l' (<[a := n]> u) h';
  tk_new : u !! a = None;
  tk_bounds : h_brk h' = h_brk h ∧ h_limit h' = h_limit h;
  tk_cover : ∀ x, free_at l x ↔ free_at l' x ∨ occupies (a, n) x;
  tk_frame : ∀ x, x < base ∨ base + 16 ≤ x → ¬ free_at l x → h_mem h' x = h_mem h x;
}.

Section Take.
Context (base : Z) (l : list (Z * Z)) (u : gmap Z Z) (h : heap).
Hypothesis HI : heap_inv base l u h.
Context (pv pk q j n : Z) (la lb : list (Z * Z)).
Hypothesis Hsplit : (base, 0) :: l = la ++ (pv, pk) :: (q, j) :: lb.
Hypothesis Hn : 1 ≤ n ≤ j.

(** The list without the block's part, with [mid] in place of the block. *)
Definition without (mid : list (Z * Z)) : list (Z * Z) := tail (la ++ (pv, pk) :: mid ++ lb).

Lemma without_cons mid : (base, 0) :: without mid = la ++ (pv, pk) :: mid ++ lb.
Proof using HI Hsplit Hn. unfold without. destruct la; cbn in *; by simplify_eq. Qed.

Lemma l_without : l = without [(q, j)].
Proof using HI Hsplit Hn. unfold without. destruct la; cbn in *; by simplify_eq. Qed.

Lemma without_free mid x : free_at (without mid) x ↔ free_at (without []) x ∨ free_at mid x.
Proof using HI Hsplit Hn.
  unfold without. destruct la as [|y la']; cbn [tail app].
  - rewrite free_at_app. tauto.
  - rewrite !free_at_app, !free_at_cons, free_at_app. tauto.
Qed.

Lemma q_in : (q, j) ∈ l.
Proof using HI Hsplit Hn. rewrite l_without. unfold without. destruct la; cbn [tail app]; in_list. Qed.

Lemma q_range : base + 16 ≤ q ∧ q + 16 * j ≤ h_brk h ∧ h_brk h ≤ 2 ^ 35 ∧ 0 < base ∧ base ≤ pv.
Proof using HI Hsplit Hn.
  destruct (spaced_in _ _ _ (hi_spaced _ _ _ _ HI) q_in) as (H1 & _ & _).
  pose proof (hi_top _ _ _ _ HI) as Ht. rewrite Forall_forall in Ht. pose proof (Ht _ q_in) as H2.
  pose proof (hi_brk _ _ _ _ HI). pose proof (hi_limit _ _ _ _ HI). pose proof (hi_base _ _ _ _ HI).
  destruct (node_range _ _ _ _ HI pv pk ltac:(rewrite Hsplit; in_list)). cbn in *. lia.
Qed.

(** The other headers of the list lie apart from those of [pv] and of the block. *)
Lemma list_apart : (∀ b, b ∈ la → b.1 + 16 ≤ pv ∧ b.1 + 16 ≤ q) ∧ pv + 16 ≤ q ∧ (∀ b, b ∈ lb → q + 16 * j ≤ b.1).
Proof using HI Hsplit Hn.
  pose proof (hi_spaced _ _ _ _ HI) as Hs. rewrite l_without in Hs. unfold without in Hs.
  destruct la as [|y la']; cbn [tail app] in *.
  - injection Hsplit as Eb Ek _. cbn in Hs. destruct Hs as (H1 & H2 & H3). split_and!; [intros b []%elem_of_nil|lia|].
    intros b Hb. destruct (spaced_in _ _ _ H3 Hb). lia.
  - injection Hsplit as Ey _. subst y. apply spaced_app in Hs as [Hs1 Hs2]. cbn in Hs2. destruct Hs2 as (H1 & H2 & H3 & H4 & H5).
    pose proof (above_ge _ _ Hs1). split_and!; [|lia|].
    + intros b [->|Hb]%elem_of_cons; [cbn; lia|]. destruct (spaced_in _ _ _ Hs1 Hb). lia.
    + intros b Hb. destruct (spaced_in _ _ _ H5 Hb). lia.
Qed.

Lemma used_from_q c i : u !! c = Some i → c + 16 * i ≤ q ∨ q + 16 * j ≤ c.
Proof using HI Hsplit Hn.
  intros Hc. pose proof (hi_apart _ _ _ _ HI (q, j) c i q_in Hc) as H. unfold apart in H. cbn in H. lia.
Qed.

Lemma used_from_pv c i : u !! c = Some i → c + 16 ≤ pv ∨ pv + 16 ≤ c.
Proof using HI Hsplit Hn.
  intros Hc. destruct (hi_used _ _ _ _ HI c i Hc) as (C1 & C2 & _).
  destruct la as [|y la'] eqn:E; cbn [app] in Hsplit; simplify_eq; [lia|].
  assert ((pv, pk) ∈ la' ++ (pv, pk) :: (q, j) :: lb) as Hin by in_list.
  pose proof (hi_apart _ _ _ _ HI _ c i Hin Hc) as H. destruct (spaced_in _ _ _ (hi_spaced _ _ _ _ HI) Hin).
  unfold apart in H. cbn in *. lia.
Qed.

(** The invariant after the change of the memory to [m'], where the new block
    has the header [a]. *)
Lemma taken_intro mid a h' :
  (mid = [] ∧ a = q ∧ n = j ∨ mid = [(q, j - n)] ∧ a = q + 16 * (j - n) ∧ n < j) →
  h_brk h' = h_brk h → h_limit h' = h_limit h → h_freep h' = pv →
  links (h_mem h') (la ++ (pv, pk) :: mid ++ lb) base → hsize (h_mem h') a = n →
  (∀ x, x < pv ∨ pv + 16 ≤ x → x < q ∨ q + 16 * j ≤ x → h_mem h' x = h_mem h x) →
  taken base l u h a n (without mid) h'.
Proof using HI Hsplit Hn.
  intros Hmid Eb El Ef Hl Hsz Hfr. destruct q_range as (Q1 & Q2 & Q3 & Q4 & Q5). destruct list_apart as (L1 & L2 & L3).
  assert (q ≤ a ∧ a + 16 * n = q + 16 * j) as [A1 A2] by lia.
  assert (∀ b, b ∈ mid → b.1 = q ∧ 1 ≤ b.2 ∧ b.1 + 16 * b.2 = a) as Hm.
  { intros b Hb. destruct Hmid as [(-> & _ & _)|(-> & -> & Hlt)]; [by apply elem_of_nil in Hb|].
    apply list_elem_of_singleton in Hb as ->. cbn. lia. }
  assert (∀ b, b ∈ without mid → b ∈ l ∧ (b.1 + 16 * b.2 ≤ q ∨ q + 16 * j ≤ b.1) ∨ b ∈ mid) as Hin.
  { intros b Hb. rewrite l_without. unfold without in *. pose proof (hi_spaced _ _ _ _ HI) as Hs. rewrite l_without in Hs. unfold without in Hs.
    destruct la as [|y la']; cbn [tail app] in *.
    - apply elem_of_app in Hb as [Hb|Hb]; [by right|left]. split; [in_list|right; auto].
    - apply spaced_app in Hs as [Hs1 Hs2]. cbn in Hs2. destruct Hs2 as (H1 & H2 & H3 & H4 & H5).
      apply elem_of_app in Hb as [Hb|[->|[Hb|Hb]%elem_of_app]%elem_of_cons]; [left|left|by right|left].
      + split; [in_list|left]. destruct (spaced_in _ _ _ Hs1 Hb) as (_ & _ & ?). lia.
      + split; [in_list|left]. cbn. lia.
      + split; [in_list|right; auto]. }
  pose proof (hi_top _ _ _ _ HI) as Ht. rewrite Forall_forall in Ht. cbn in Ht.
  assert (u !! a = None) as Hnone.
  { destruct (u !! a) as [i|] eqn:Hu; [|done]. destruct (hi_used _ _ _ _ HI a i Hu) as (_ & ? & _). destruct (used_from_q a i Hu); lia. }
  split; [split|done|done| |]; rewrite ?Eb, ?El, ?Ef.
  - done.
  - apply HI.
  - apply HI.
  - pose proof (hi_spaced _ _ _ _ HI) as Hs. rewrite l_without in Hs. unfold without in *. destruct la as [|y la']; cbn [tail app] in *.
    + cbn in Hs. destruct Hmid as [(-> & _ & _)|(-> & _ & ?)]; cbn; [eapply spaced_weaken; [|apply Hs]; lia|].
      split_and!; [lia|lia|eapply spaced_weaken; [|apply Hs]; lia].
    + apply spaced_app in Hs as [Hs1 Hs2]. apply spaced_app. split; [done|]. cbn in Hs2 |- *.
      destruct Hs2 as (? & ? & ? & ? & Hs3). split_and!; [done|done|].
      destruct Hmid as [(-> & _ & _)|(-> & _ & ?)]; cbn; [eapply spaced_weaken; [|exact Hs3]; lia|].
      split_and!; [lia|lia|eapply spaced_weaken; [|exact Hs3]; lia].
  - apply Forall_forall. intros b Hb. destruct (Hin b Hb) as [[Hbl _]|Hbm]; [by apply Ht|]. destruct (Hm b Hbm). lia.
  - by rewrite without_cons.
  - rewrite without_cons, fmap_app. cbn [fmap list_fmap fst]. in_list.
  - intros c i [[<- <-]|[Hne Hc]]%lookup_insert_Some; [split_and!; [lia|lia|lia|done]|].
    destruct (hi_used _ _ _ _ HI c i Hc) as (C1 & C2 & C3 & C4). split_and!; [done|done|done|].
    rewrite <- C4. unfold hsize. apply le_load_ext. intros x Hx. pose proof (used_from_q c i Hc). pose proof (used_from_pv c i Hc).
    apply Hfr; lia.
  - intros b c i Hb [[<- <-]|[Hne Hc]]%lookup_insert_Some; unfold apart; cbn [fst snd].
    + destruct (Hin b Hb) as [[_ Hbl]|Hbm]; [lia|]. destruct (Hm b Hbm) as (? & ? & ?). lia.
    + destruct (Hin b Hb) as [[Hbl _]|Hbm]; [apply (hi_apart _ _ _ _ HI b c i Hbl Hc)|]. destruct (Hm b Hbm) as (? & ? & ?).
      pose proof (used_from_q c i Hc). lia.
  - intros c i c' i' [[<- <-]|[Hne Hc]]%lookup_insert_Some [[<- <-]|[Hne' Hc']]%lookup_insert_Some Hcc; [done| | |by apply (hi_pairs _ _ _ _ HI)];
      unfold apart; cbn [fst snd].
    + pose proof (used_from_q c' i' Hc'). lia.
    + pose proof (used_from_q c i Hc). lia.
  - intros x. rewrite l_without, (without_free [(q, j)]), (without_free mid), free_at_cons. unfold occupies at 1 2. cbn [fst snd].
    assert (¬ free_at [] x) as Hno by (intros (b & []%elem_of_nil & _)).
    destruct Hmid as [(-> & -> & ->)|(-> & -> & ?)]; [tauto|]. rewrite free_at_cons. unfold occupies. cbn [fst snd].
    assert (q ≤ x < q + 16 * j ↔ q ≤ x < q + 16 * (j - n) ∨ q + 16 * (j - n) ≤ x < q + 16 * (j - n) + 16 * n) by lia. tauto.
  - intros x Hx Hnf. apply Hfr.
    + destruct (decide (x < pv ∨ pv + 16 ≤ x)) as [|Hp]; [done|]. exfalso. destruct la as [|y la'] eqn:Ela; cbn [app] in Hsplit; simplify_eq; [lia|].
      assert ((pv, pk) ∈ la' ++ (pv, pk) :: (q, j) :: lb) as Hpin by in_list. apply Hnf. exists (pv, pk). split; [done|].
      destruct (spaced_in _ _ _ (hi_spaced _ _ _ _ HI) Hpin) as (_ & ? & _). unfold occupies. cbn in *. lia.
    + destruct (decide (x < q ∨ q + 16 * j ≤ x)) as [|Hq]; [done|]. exfalso. apply Hnf. exists (q, j). split; [apply q_in|].
      unfold occupies. cbn. lia.
Qed.

Lemma take_block_run e : ∃ a l' h', take_block pv q n e h = Ret (a + 16) e h' ∧ taken base l u h a n l' h'.
Proof using HI Hsplit Hn.
  destruct q_range as (Q1 & Q2 & Q3 & Q4 & Q5). destruct list_apart as (L1 & L2 & L3).
  pose proof (hi_links _ _ _ _ HI) as Hl. rewrite Hsplit in Hl. apply links_app in Hl as [Hla Hl]. cbn [next_of links] in Hl.
  destruct Hl as (Pp & Ps & Qp & Qs & Hlb). unfold take_block.
  run (get_size_run q e h ltac:(lia) ltac:(lia)). rewrite Qs. destruct (Z.eqb_spec j n) as [Hjn|Hjn].
  - krun. run (get_ptr_run q e h ltac:(lia) ltac:(lia)). rewrite Qp. krun. run (set_ptr_run pv (next_of lb base) e h ltac:(lia) ltac:(lia)). krun.
    eexists q, (without []), _. split; [reflexivity|]. set (h' := _ <| h_freep := _ |>).
    assert (0 ≤ next_of lb base < 2 ^ 64) as Hr.
    { destruct lb as [|[c i] lb']; cbn [next_of]; [lia|]. pose proof (L3 (c, i) ltac:(in_list)). cbn in *.
      destruct (node_range _ _ _ _ HI c i ltac:(rewrite Hsplit; in_list)). lia. }
    pose proof (store_ptr_sets (h_mem h) pv (next_of lb base) Hr) as S1. change (le_store _ _ _ _) with (h_mem h') in S1.
    apply taken_intro; [left; split_and!; [done|done|lia]|done|done|done| | |].
    + apply links_app. cbn [next_of links app]. split; [|split_and!].
      * eapply links_sets; [exact S1| |exact Hla]. apply Forall_forall. intros b Hb. destruct (L1 b Hb). lia.
      * apply S1.
      * by rewrite (sh_size _ _ _ _ _ S1).
      * eapply links_sets; [exact S1| |exact Hlb]. apply Forall_forall. intros b Hb. specialize (L3 b Hb). lia.
    + destruct (sets_header_other _ _ _ _ _ q S1 ltac:(lia)) as [_ ->]. lia.
    + intros x Hx _. by apply (sh_frame _ _ _ _ _ S1).
  - krun. run (set_size_run q (j - n) e h ltac:(lia) ltac:(lia)). krun. set (h1 := h <| h_mem ::= _ |>).
    pose proof (store_size_sets (h_mem h) q (j - n) ltac:(lia)) as S1. change (le_store _ _ _ _) with (h_mem h1) in S1.
    rewrite wrapu_id by lia. set (a := q + 16 * (j - n)).
    run (set_size_run a n e h1 ltac:(lia) ltac:(change (h_brk h1) with (h_brk h); lia)). krun.
    eexists a, (without [(q, j - n)]), _. split; [reflexivity|]. set (h' := _ <| h_freep := _ |>).
    pose proof (store_size_sets (h_mem h1) a n ltac:(lia)) as S2. change (le_store _ _ _ _) with (h_mem h') in S2.
    apply taken_intro; [right; split_and!; [done|done|lia]|done|done|done| | |].
    + apply links_app. cbn [next_of links app]. split; [|split_and!].
      * eapply links_sets; [exact S2| |eapply links_sets; [exact S1| |exact Hla]]; apply Forall_forall; intros b Hb; destruct (L1 b Hb); lia.
      * destruct (sets_header_other _ _ _ _ _ pv S2 ltac:(lia)) as [-> _]. by destruct (sets_header_other _ _ _ _ _ pv S1 ltac:(lia)) as [-> _].
      * destruct (sets_header_other _ _ _ _ _ pv S2 ltac:(lia)) as [_ ->]. by destruct (sets_header_other _ _ _ _ _ pv S1 ltac:(lia)) as [_ ->].
      * destruct (sets_header_other _ _ _ _ _ q S2 ltac:(lia)) as [-> _]. by rewrite (sh_ptr _ _ _ _ _ S1).
      * destruct (sets_header_other _ _ _ _ _ q S2 ltac:(lia)) as [_ ->]. by rewrite (sh_size _ _ _ _ _ S1).
      * eapply links_sets; [exact S2| |eapply links_sets; [exact S1| |exact Hlb]]; apply Forall_forall; intros b Hb; specialize (L3 b Hb); lia.
    + apply S2.
    + intros x _ Hx. rewrite (sh_frame _ _ _ _ _ S2) by lia. apply (sh_frame _ _ _ _ _ S1). lia.
Qed.
End Take.

(** ** Extending the heap *)

(** How many units [morecore] asks for. *)
Definition core_units (nu : Z) : Z := if nu <? 4096 then 4096 else nu.

(** What a successful [morecore] has changed. *)
Record extended base l u h nu l' h' : Prop := Extended {
  ex_inv : heap_inv base l' u h';
  ex_bounds : h_brk h' = h_brk h + 16 * core_units nu ∧ h_limit h' = h_limit h;
  ex_cover : ∀ x, free_at l' x ↔ free_at l x ∨ h_brk h ≤ x < h_brk h';
  ex_block : ∃ b, b ∈ l' ∧ nu ≤ b.2;
  ex_frame : ∀ x, x < base ∨ base + 16 ≤ x → ¬ free_at l' x → h_mem h' x = h_mem h x;
}.

Lemma sbrk_inv base l u h nu m : heap_inv base l u h → 1 ≤ nu → h_brk h + 16 * nu ≤ h_limit h →
  (∀ x, x < h_brk h → m x = h_mem h x) → hsize m (h_brk h) = nu →
  heap_inv base l (<[h_brk h := nu]> u) (Heap m (h_freep h) (h_brk h + 16 * nu) (h_limit h)).
Proof.
  intros HI Hnu Hlim Hm Hsz. destruct HI as [Hb Hbrk Hl2 Hs Ht Hl Hf Hu Hap Hpairs].
  assert (∀ b, b ∈ (base, 0) :: l → b.1 + 16 ≤ h_brk h) as Hin.
  { intros b [->|Hbl]%elem_of_cons; [cbn; lia|]. rewrite Forall_forall in Ht. specialize (Ht b Hbl). cbn in Ht.
    destruct (spaced_in _ _ _ Hs Hbl). lia. }
  split; cbn [h_mem h_freep h_brk h_limit]; try done.
  - lia.
  - eapply Forall_impl; [exact Ht|]. cbn. intros. lia.
  - eapply links_ext; [|exact Hl]. intros b x Hbl Hx. specialize (Hin b Hbl). apply Hm. lia.
  - intros a n [[<- <-]|[_ Ha]]%lookup_insert_Some; [split_and!; [lia|lia|lia|done]|].
    destruct (Hu a n Ha) as (? & ? & ? & Hsa). split_and!; [done|done|lia|]. rewrite <- Hsa. unfold hsize.
    apply le_load_ext. intros x Hx. apply Hm. lia.
  - intros b a n Hbl [[<- <-]|[_ Ha]]%lookup_insert_Some; [|by apply Hap]. rewrite Forall_forall in Ht. specialize (Ht b Hbl).
    unfold apart. cbn in *. lia.
  - intros a n a' n' [[<- <-]|[_ Ha]]%lookup_insert_Some [[<- <-]|[_ Ha']]%lookup_insert_Some Hne; [done| | |by apply (Hpairs a n a' n')].
    + destruct (Hu a' n' Ha') as (? & ? & ? & _). unfold apart. cbn. lia.
    + destruct (Hu a n Ha) as (? & ? & ? & _). unfold apart. cbn. lia.
Qed.

Lemma sbrk_run n e h : 0 ≤ n →
  sbrk n e h = if h_brk h + n <=? h_limit h then
    Ret (h_brk h) e (Heap (λ x, if (h_brk h <=? x) && (x <? h_brk h + n) then 0 else h_mem h x) (h_freep h) (h_brk h + n) (h_limit h))
  else Ret (-1) e h.
Proof.
  intros Hn. unfold sbrk. krun. destruct (Z.ltb_spec n 0); [lia|]. cbn [orb]. destruct (h_brk h + n <=? h_limit h); [|done]. done.
Qed.

Lemma morecore_run base l u h nu e : heap_inv base l u h → 1 ≤ nu < 2 ^ 27 →
  (h_limit h < h_brk h + 16 * core_units nu → morecore nu e h = Ret 0 e h) ∧
  (h_brk h + 16 * core_units nu ≤ h_limit h →
   ∃ l' h', morecore nu e h = Ret (h_freep h') e h' ∧ h_freep h' ≠ 0 ∧ extended base l u h nu l' h').
Proof.
  intros HI Hnu. assert (nu ≤ core_units nu < 2 ^ 27) as Hcu by (unfold core_units; destruct (Z.ltb_spec nu 4096); lia).
  pose proof (hi_base _ _ _ _ HI). pose proof (hi_brk _ _ _ _ HI). pose proof (hi_limit _ _ _ _ HI).
  unfold morecore. fold (core_units nu). cbv zeta. rewrite wraps_id by (change (2 ^ (32 - 1)) with (2 ^ 31); lia).
  split; intros Hlim.
  - erewrite bind_Ret; [|rewrite sbrk_run by lia; destruct (Z.leb_spec (h_brk h + core_units nu * 16) (h_limit h)); [lia|reflexivity]].
    destruct (Z.eqb_spec (-1) (-1)); done.
  - erewrite bind_Ret; [|rewrite sbrk_run by lia; destruct (Z.leb_spec (h_brk h + core_units nu * 16) (h_limit h)); [reflexivity|lia]].
    set (h1 := Heap _ _ _ _). destruct (Z.eqb_spec (h_brk h) (-1)); [lia|].
    run (set_size_run (h_brk h) (core_units nu) e h1 ltac:(lia) ltac:(cbn; lia)). set (h2 := h1 <| h_mem ::= _ |>).
    pose proof (store_size_sets (h_mem h1) (h_brk h) (core_units nu) ltac:(lia)) as S1. change (le_store _ _ _ _) with (h_mem h2) in S1.
    assert (∀ x, x < h_brk h → h_mem h2 x = h_mem h x) as Hm.
    { intros x Hx. rewrite (sh_frame _ _ _ _ _ S1) by lia. cbn. destruct (Z.leb_spec (h_brk h) x); [lia|done]. }
    pose proof (sbrk_inv base l u h (core_units nu) (h_mem h2) HI ltac:(lia) Hlim Hm (sh_size _ _ _ _ _ S1)) as HI2.
    assert (Heap (h_mem h2) (h_freep h) (h_brk h + 16 * core_units nu) (h_limit h) = h2) as Eh2 by (unfold h2, h1, set; cbn; do 2 f_equal; lia).
    rewrite Eh2 in HI2.
    destruct (free_run base l _ h2 (h_brk h) (core_units nu) e HI2 (lookup_insert_eq _ _ _)) as (h3 & l' & E3 & F). run E3. krun.
    assert (u !! h_brk h = None) as Hnone.
    { destruct (u !! h_brk h) as [i|] eqn:Hu; [|done]. destruct (hi_used _ _ _ _ HI _ _ Hu) as (_ & ? & ? & _). lia. }
    destruct F as [Fi [Fb Fl] Fc [b [Fb1 Fb2]] Ff]. rewrite delete_insert_id in Fi by done.
    change (h_brk h2) with (h_brk h + core_units nu * 16) in Fb.
    exists l', h3. split_and!; [done| |split].
    + pose proof (hi_freep _ _ _ _ Fi) as Hf. apply list_elem_of_fmap in Hf as ([q k] & -> & Hq).
      by destruct (node_range _ _ _ _ Fi q k Hq) as (_ & _ & _ & _ & ?).
    + done.
    + split; [lia|by rewrite Fl].
    + intros x. rewrite Fc. unfold occupies. cbn [fst snd]. rewrite Fb. split; (intros [|]; [by left|right; lia]).
    + exists b. split; [done|lia].
    + intros x Hx Hnf. rewrite Ff by done. destruct (Z.lt_ge_cases x (h_brk h)); [by apply Hm|].
      destruct (Z.lt_ge_cases x (h_brk h + 16 * core_units nu)).
      * destruct Hnf. apply Fc. right. unfold occupies. cbn. lia.
      * rewrite (sh_frame _ _ _ _ _ S1) by lia. cbn. destruct (Z.ltb_spec x (h_brk h + core_units nu * 16)); [lia|]. by rewrite andb_false_r.
Qed.

(** ** The search *)

Section Search.
Context (base : Z) (l : list (Z * Z)) (u : gmap Z Z) (h : heap).
Hypothesis HI : heap_inv base l u h.
Context (n : Z) (Q : Z → heap → Prop) (N : Z) (e : list (heap → heap)).
Hypothesis Hn : 1 ≤ n.

Abbreviation malloc_step := (λ '((prevp, p) : Z * Z),
    size ← get_size p;
    if n <=? size then
      r ← take_block prevp p n;
      mret (inr r)
    else
      freep ← gets h_freep;
      if p =? freep then
        p ← morecore n;
        if p =? 0 then mret (inr 0)
        else next ← get_ptr p; mret (inl (p, next))
      else next ← get_ptr p; mret (inl (p, next)) : KM heap ((Z * Z) + Z)).

(** [p] is the block after the block [prevp]. *)
Definition follows (prevp p : Z) : Prop :=
  ∃ la pk lb, (base, 0) :: l = la ++ (prevp, pk) :: lb ∧ next_of lb base = p.

(** The loop is left from the state [x] with a result in [Q], within [c] iterations. *)
Definition ends (x : Z * Z) (c : Z) : Prop := ∃ k r h', runs malloc_step x e h k r e h' ∧ Q r h' ∧ k ≤ c.

Hypothesis Htake : ∀ a l' h', taken base l u h a n l' h' → Q (a + 16) h'.
Context (f k : Z) (l1 l2 : list (Z * Z)).
Hypothesis Hsplit : (base, 0) :: l = l1 ++ (f, k) :: l2.
Hypothesis Hf : h_freep h = f.
(** What happens when the search comes back to [freep] without success. *)
Hypothesis Hmore : (∀ b, b ∈ l → b.2 < n) → ∀ prevp, ends (prevp, f) N.

Lemma take_here prevp q j la lb : (base, 0) :: l = la ++ (q, j) :: lb → follows prevp q → n ≤ j → ends (prevp, q) 1.
Proof using HI Hn Htake Hsplit Hf Hmore.
  intros Hq (ca & pk & cb & Hp & Hnx) Hj. assert (q ≠ base) as Hqb.
  { intros ->. destruct la as [|y la']; cbn [app] in Hq; simplify_eq; [lia|].
    assert ((base, j) ∈ la' ++ (base, j) :: lb) as Hin by in_list.
    destruct (spaced_in _ _ _ (hi_spaced _ _ _ _ HI) Hin). cbn in *. lia. }
  destruct cb as [|[q' j'] cb]; cbn [next_of] in Hnx; [done|]. subst q'.
  assert (j' = j) as ->.
  { destruct (node_at _ _ _ _ HI _ _ _ _ Hq) as [_ <-].
    assert ((base, 0) :: l = (ca ++ [(prevp, pk)]) ++ (q, j') :: cb) as Hp' by (by rewrite <- app_assoc).
    by destruct (node_at _ _ _ _ HI _ _ _ _ Hp') as [_ <-]. }
  destruct (take_block_run base l u h HI prevp pk q j n ca cb Hp ltac:(lia) e) as (a & l' & h' & E & T).
  exists 1, (a + 16), h'. split_and!; [|by eapply Htake|done]. apply runs_done.
  run (node_size _ _ _ _ HI _ _ _ _ e Hq). destruct (Z.leb_spec n j); [|lia]. by run E.
Qed.

(** A block that is too small is passed over, unless it is [freep]. *)
Lemma pass_over prevp q j la lb c : (base, 0) :: l = la ++ (q, j) :: lb → j < n → q ≠ f →
  ends (q, next_of lb base) c → ends (prevp, q) (c + 1).
Proof using HI Hn Htake Hsplit Hf Hmore.
  intros Hq Hj Hqf (i & r & h' & R & HQ & Hi). exists (i + 1), r, h'. split_and!; [|done|lia].
  eapply runs_step; [|exact R]. run (node_size _ _ _ _ HI _ _ _ _ e Hq). destruct (Z.leb_spec n j); [lia|].
  krun. rewrite Hf. destruct (Z.eqb_spec q f); [done|]. by run (node_ptr _ _ _ _ HI _ _ _ _ e Hq).
Qed.

Lemma nodes_distinct q j la lb : (base, 0) :: l = la ++ (q, j) :: lb → (q, j) ∈ l1 ∨ (q, j) ∈ l2 → q ≠ f.
Proof using HI Hn Htake Hsplit Hf Hmore.
  intros _ Hin. pose proof (inv_sorted _ _ _ _ HI) as Hs. rewrite Hsplit in Hs. apply sorted_split in Hs as [H1 H2].
  destruct Hin as [Hin|Hin]; [specialize (H1 _ Hin)|specialize (H2 _ Hin)]; cbn in *; lia.
Qed.

Lemma in_parts b : b ∈ l → b ∈ l1 ∨ b = (f, k) ∨ b ∈ l2.
Proof using HI Hn Htake Hsplit Hf Hmore.
  intros Hb. assert (b ∈ (base, 0) :: l) as Hb' by in_list. rewrite Hsplit in Hb'.
  apply elem_of_app in Hb' as [|[|]%elem_of_cons]; auto.
Qed.

Lemma search_before c l3 prevp : l1 = c ++ l3 → follows prevp (next_of (l3 ++ (f, k) :: l2) base) →
  (∀ b, b ∈ l2 ++ c → b.2 < n) → ends (prevp, next_of (l3 ++ (f, k) :: l2) base) (Z.of_nat (length l3) + 1 + Z.max N 0).
Proof using HI Hn Htake Hsplit Hf Hmore.
  revert c prevp. induction l3 as [|[q j] l3 IH]; intros c prevp E Hfo Hsmall; cbn [app next_of length] in *.
  - rewrite app_nil_r in E. subst c. destruct (Z.lt_ge_cases k n) as [Hk|Hk].
    + destruct (Hmore ltac:(intros b [Hb|[->|Hb]]%in_parts; [apply Hsmall; in_list|done|apply Hsmall; in_list]) prevp)
        as (i & r & h' & R & HQ & Hi). exists i, r, h'. split_and!; [done|done|lia].
    + destruct (take_here prevp f k l1 l2 Hsplit Hfo Hk) as (i & r & h' & R & HQ & Hi). exists i, r, h'. split_and!; [done|done|lia].
  - assert ((base, 0) :: l = c ++ (q, j) :: l3 ++ (f, k) :: l2) as Hq by (rewrite Hsplit, E, <- app_assoc; done).
    destruct (Z.lt_ge_cases j n) as [Hj|Hj].
    + replace (Z.of_nat (S (length l3)) + 1 + Z.max N 0) with (Z.of_nat (length l3) + 1 + Z.max N 0 + 1) by lia.
      eapply (pass_over prevp q j); [exact Hq|done|eapply nodes_distinct; [exact Hq|left; rewrite E; in_list]|].
      apply (IH (c ++ [(q, j)])); [by rewrite <- app_assoc|by exists c, j, (l3 ++ (f, k) :: l2)|].
      intros b [Hb|[Hb|Hb]%elem_of_app]%elem_of_app; [apply Hsmall; in_list|apply Hsmall; in_list|].
      by apply list_elem_of_singleton in Hb as ->.
    + destruct (take_here prevp q j _ _ Hq Hfo Hj) as (i & r & h' & R & HQ & Hi). exists i, r, h'. split_and!; [done|done|lia].
Qed.

Lemma search_after c l3 prevp : l2 = c ++ l3 → follows prevp (next_of l3 base) → (∀ b, b ∈ c → b.2 < n) →
  ends (prevp, next_of l3 base) (Z.of_nat (length l3) + Z.of_nat (length l1) + 1 + Z.max N 0).
Proof using HI Hn Htake Hsplit Hf Hmore.
  revert c prevp. induction l3 as [|[q j] l3 IH]; intros c prevp E Hfo Hsmall; cbn [next_of length] in *.
  - rewrite app_nil_r in E. subst c. assert (next_of (l1 ++ (f, k) :: l2) base = base) as Eb by (rewrite <- Hsplit; done).
    pose proof (search_before [] l1 prevp eq_refl) as H. rewrite Eb in H. rewrite app_nil_r in H. destruct (H Hfo Hsmall) as (i & r & h' & R & HQ & Hi).
    exists i, r, h'. split_and!; [done|done|lia].
  - assert ((base, 0) :: l = (l1 ++ (f, k) :: c) ++ (q, j) :: l3) as Hq by (rewrite Hsplit, E, <- app_assoc; done).
    destruct (Z.lt_ge_cases j n) as [Hj|Hj].
    + replace (Z.of_nat (S (length l3)) + Z.of_nat (length l1) + 1 + Z.max N 0) with (Z.of_nat (length l3) + Z.of_nat (length l1) + 1 + Z.max N 0 + 1) by lia.
      eapply (pass_over prevp q j); [exact Hq|done|eapply nodes_distinct; [exact Hq|right; rewrite E; in_list]|].
      apply (IH (c ++ [(q, j)])); [by rewrite <- app_assoc|by exists (l1 ++ (f, k) :: c), j, l3|].
      intros b [Hb|Hb]%elem_of_app; [by apply Hsmall|]. by apply list_elem_of_singleton in Hb as ->.
    + destruct (take_here prevp q j _ _ Hq Hfo Hj) as (i & r & h' & R & HQ & Hi). exists i, r, h'. split_and!; [done|done|lia].
Qed.

(** From the block after [freep], once around. *)
Lemma search_run : ends (f, next_of l2 base) (Z.of_nat (length l) + 2 + Z.max N 0).
Proof using HI Hn Htake Hsplit Hf Hmore.
  destruct (search_after [] l2 f eq_refl) as (i & r & h' & R & HQ & Hi); [by exists l1, k, l2|by intros b ?%elem_of_nil|].
  exists i, r, h'. split_and!; [done|done|]. apply (f_equal length) in Hsplit. rewrite length_app in Hsplit. cbn [length] in Hsplit. lia.
Qed.
End Search.

(** ** malloc *)

(** The block at [r - 16] has been handed out for [nbytes] bytes. *)
Record allocated base l u h nbytes r h' : Prop := Allocated {
  al_block : ∃ n l', heap_inv base l' (<[r - 16 := n]> u) h' ∧ nbytes ≤ 16 * (n - 1) ∧
    ∀ x, free_at l' x ∨ occupies (r - 16, n) x ↔ free_at l x ∨ h_brk h ≤ x < h_brk h';
  al_new : u !! (r - 16) = None;
  al_nonzero : r ≠ 0;
  al_frame : ∀ x, x < base ∨ base + 16 ≤ x → ¬ free_at l x → x < h_brk h → h_mem h' x = h_mem h x;
}.

(** [malloc] returned null: no free block is large enough and the heap cannot be extended. *)
Record refused base l u h n r h' : Prop := Refused {
  re_null : r = 0;
  re_inv : heap_inv base l u h';
  re_small : ∀ b, b ∈ l → b.2 < n;
  re_limit : h_limit h < h_brk h + 16 * core_units n;
  re_frame : ∀ x, x < base ∨ base + 16 ≤ x → h_mem h' x = h_mem h x;
}.

Lemma units_spec nbytes : 0 ≤ nbytes ≤ 2 ^ 30 → 1 ≤ units nbytes < 2 ^ 27 ∧ nbytes ≤ 16 * (units nbytes - 1).
Proof. intros H. unfold units. rewrite wrapu_id; zlia. Qed.

Lemma allocated_taken base l u h nbytes a l' h' : 0 ≤ nbytes ≤ 2 ^ 30 → heap_inv base l u h →
  taken base l u h a (units nbytes) l' h' → allocated base l u h nbytes (a + 16) h'.
Proof.
  intros Hb HI [Ti Tn [Tb _] Tc Tf]. destruct (units_spec nbytes Hb) as [Hu1 Hu2].
  split; replace (a + 16 - 16) with a by lia; [|done| |].
  - exists (units nbytes), l'. split_and!; [done|done|]. intros x. rewrite Tc. split; [tauto|intros [|]; [done|lia]].
  - destruct (hi_used _ _ _ _ Ti a (units nbytes) (lookup_insert_eq _ _ _)) as (? & _). pose proof (hi_base _ _ _ _ Ti). lia.
  - intros x Hx Hnf _. by apply Tf.
Qed.

Lemma allocated_extended base l u h nbytes l1 h1 a l' h' : 0 ≤ nbytes ≤ 2 ^ 30 → heap_inv base l u h →
  extended base l u h (units nbytes) l1 h1 → taken base l1 u h1 a (units nbytes) l' h' →
  allocated base l u h nbytes (a + 16) h'.
Proof.
  intros Hb HI [Ei [Eb _] Ec _ Ef] T. destruct (allocated_taken _ _ _ _ _ _ _ _ Hb Ei T) as [(n & l2 & A1 & A2 & A3) An Az Af].
  destruct T as [_ _ [Tb _] _ _]. split; [|done|done|].
  - exists n, l2. split_and!; [done|done|]. intros x. rewrite A3, Ec, Tb. split; [intros [|]; [done|lia]|tauto].
  - intros x Hx Hnf Hlt. assert (¬ free_at l1 x) as Hnf1 by (rewrite Ec; intros [|]; [done|lia]).
    assert (h_brk h ≤ h_brk h1) by (rewrite Eb; unfold core_units; destruct (Z.ltb_spec (units nbytes) 4096); lia).
    rewrite Af by (done || lia). by apply Ef.
Qed.

Lemma malloc_search base l u h nbytes e : heap_inv base l u h → 0 ≤ nbytes ≤ 2 ^ 30 →
  ∃ k l1 l2 r h', (base, 0) :: l = l1 ++ (h_freep h, k) :: l2 ∧
    while_ (λ '((prevp, p) : Z * Z),
      size ← get_size p;
      if units nbytes <=? size then r ← take_block prevp p (units nbytes); mret (inr r)
      else
        freep ← gets h_freep;
        if p =? freep then
          p ← morecore (units nbytes);
          if p =? 0 then mret (inr 0) else next ← get_ptr p; mret (inl (p, next))
        else next ← get_ptr p; mret (inl (p, next))) (h_freep h, next_of l2 base) e h = Ret r e h' ∧
    (refused base l u h (units nbytes) r h' ∨ allocated base l u h nbytes r h').
Proof.
  intros HI Hb. destruct (units_spec nbytes Hb) as [Hu1 Hu2].
  pose proof (hi_freep _ _ _ _ HI) as Hf. apply list_elem_of_fmap in Hf as ([f k] & Ef & Hin). cbn in Ef.
  apply list_elem_of_split in Hin as (l1 & l2 & Hsplit). exists k, l1, l2.
  set (Q := λ r h', refused base l u h (units nbytes) r h' ∨ allocated base l u h nbytes r h').
  destruct (search_run base l u h HI (units nbytes) Q (2 ^ 36) e ltac:(lia)) with (f := f) (k := k) (l1 := l1) (l2 := l2)
    as (i & r & h' & R & HQ & Hi); [|done|done| |].
  - intros a l' h' T. right. by apply allocated_taken with l'.
  - intros Hsmall prevp. assert ((base, 0) :: l = l1 ++ (f, k) :: l2) as Hs by done.
    assert (k < units nbytes) as Hk.
    { destruct l1 as [|y l1']; cbn [app] in Hs; [injection Hs as _ Ek _; lia|]. injection Hs as _ El. apply (Hsmall (f, k)). rewrite El. in_list. }
    destruct (morecore_run base l u h (units nbytes) e HI ltac:(lia)) as [Hno Hyes].
    destruct (Z.lt_ge_cases (h_limit h) (h_brk h + 16 * core_units (units nbytes))) as [Hlim|Hlim].
    + exists 1, 0, h. split_and!; [|left; by split|lia]. apply runs_done. run (node_size _ _ _ _ HI _ _ _ _ e Hs).
      destruct (Z.leb_spec (units nbytes) k); [lia|]. krun. rewrite Ef, Z.eqb_refl. by run (Hno Hlim).
    + destruct (Hyes Hlim) as (l3 & h3 & E3 & Hnz & X). pose proof (ex_inv _ _ _ _ _ _ _ X) as HI3.
      pose proof (hi_freep _ _ _ _ HI3) as Hf3. apply list_elem_of_fmap in Hf3 as ([f3 k3] & Ef3 & Hin3). cbn in Ef3.
      apply list_elem_of_split in Hin3 as (l31 & l32 & Hsplit3).
      destruct (search_run base l3 u h3 HI3 (units nbytes) Q 0 e ltac:(lia)) with (f := f3) (k := k3) (l1 := l31) (l2 := l32)
        as (i & r & h' & R & HQ & Hi); [|done|done| |].
      * intros a l' h' T. right. by eapply allocated_extended.
      * intros Hno3. exfalso. destruct (ex_block _ _ _ _ _ _ _ X) as (b & Hb3 & Hb4). specialize (Hno3 b Hb3). lia.
      * exists (i + 1), r, h'. split_and!; [|done|]. 2:{ pose proof (inv_length _ _ _ _ HI3). lia. }
        eapply runs_step; [|exact R]. run (node_size _ _ _ _ HI _ _ _ _ e Hs).
        destruct (Z.leb_spec (units nbytes) k); [lia|]. krun. rewrite Ef, Z.eqb_refl. run E3.
        destruct (Z.eqb_spec (h_freep h3) 0); [done|]. rewrite Ef3. by run (node_ptr _ _ _ _ HI3 _ _ _ _ e Hsplit3).
  - exists r, h'. rewrite Ef. split_and!; [done| |done]. eapply while_runs; [exact R|].
    pose proof (inv_length _ _ _ _ HI). lia.
Qed.

(** Before the first call there is no list. *)
Definition heap_start base h : Prop :=
  0 < base ∧ base + 16 ≤ h_brk h ≤ h_limit h ∧ h_limit h ≤ 2 ^ 35 ∧ h_freep h = 0.

Definition heap_ready base l u h : Prop := heap_inv base l u h ∨ heap_start base h ∧ l = [] ∧ u = ∅.

Lemma malloc_run base l u h nbytes e : heap_ready base l u h → 0 ≤ nbytes ≤ 2 ^ 30 →
  ∃ r h', malloc base nbytes e h = Ret r e h' ∧
    (refused base l u h (units nbytes) r h' ∨ allocated base l u h nbytes r h').
Proof.
  intros [HI|((S1 & S2 & S3 & S4) & -> & ->)] Hb.
  - destruct (malloc_search base l u h nbytes e HI Hb) as (k & l1 & l2 & r & h' & Hs & E & HQ). exists r, h'. split; [|done].
    unfold malloc. krun. pose proof (hi_freep _ _ _ _ HI) as Hf. apply list_elem_of_fmap in Hf as ([f k'] & Ef & Hin). cbn in Ef.
    destruct (node_range _ _ _ _ HI f k' Hin) as (_ & _ & _ & _ & Hz). destruct (Z.eqb_spec (h_freep h) 0); [congruence|]. krun.
    by run (node_ptr _ _ _ _ HI _ _ _ _ e Hs).
  - unfold malloc. krun. rewrite S4. cbn [Z.eqb]. krun. run (set_ptr_run base base e h S1 ltac:(lia)). krun.
    set (h1 := _ <| h_freep := base |>). run (set_size_run base 0 e h1 S1 ltac:(change (h_brk h1) with (h_brk h); lia)). krun.
    set (h2 := h1 <| h_mem ::= _ |>).
    pose proof (store_ptr_sets (h_mem h) base base ltac:(lia)) as T1. change (le_store _ _ _ _) with (h_mem h1) in T1.
    pose proof (store_size_sets (h_mem h1) base 0 ltac:(lia)) as T2. change (le_store _ _ _ _) with (h_mem h2) in T2.
    assert (∀ x, x < base ∨ base + 16 ≤ x → h_mem h2 x = h_mem h x) as Hm.
    { intros x Hx. rewrite (sh_frame _ _ _ _ _ T2) by done. by apply (sh_frame _ _ _ _ _ T1). }
    assert (heap_inv base [] ∅ h2) as HI.
    { split; [done|done|done|done|by apply Forall_nil| |cbn; in_list| | |].
      - cbn. split_and!; [|apply T2|done]. rewrite (sh_ptr _ _ _ _ _ T2). apply T1.
      - intros a n Ha. by rewrite lookup_empty in Ha.
      - intros b a n []%elem_of_nil.
      - intros a n a' n' Ha. by rewrite lookup_empty in Ha. }
    destruct (malloc_search base [] ∅ h2 nbytes e HI Hb) as (k & l1 & l2 & r & h' & Hs & E & HQ).
    change (h_freep h2) with base in *. run (node_ptr _ _ _ _ HI _ _ _ _ e Hs). exists r, h'. split; [done|].
    destruct HQ as [[R1 R2 R3 R4 R5]|[A1 A2 A3 A4]]; [left|right]; split; try done.
    + intros x Hx. rewrite R5 by done. by apply Hm.
    + intros x Hx Hnf Hlt. rewrite A4 by done. by apply Hm.
Qed.

(** C27: allocating memory in a user program.  [malloc] of up to 2^30 bytes
    (the sizes whose number of units and of bytes to ask sbrk for fit an int)
    terminates.  It returns the
    address of a block of at least the size asked for that was free memory or
    new memory from sbrk, that overlaps no block in use, and whose allocation
    changes no byte of the blocks in use; the heap's invariant (the free blocks
    in a circular list in address order, no two adjacent, disjoint from the
    blocks in use) holds again.  Or it returns null, and then no free block is
    large enough and the program's memory cannot be extended. *)
Theorem malloc_correct base l u h nbytes e : heap_ready base l u h → 0 ≤ nbytes ≤ 2 ^ 30 →
  ∃ r h', malloc base nbytes e h = Ret r e h' ∧
    (refused base l u h (units nbytes) r h' ∨ allocated base l u h nbytes r h').
Proof. apply malloc_run. Qed.

(** C28: giving memory back.  [free] of a block in use terminates; the block's
    memory becomes free, joined with the free memory next to it on either side,
    nothing else becomes free, no byte of the other blocks changes, and the
    heap's invariant holds again. *)
Theorem free_correct base l u h a n e : heap_inv base l u h → u !! a = Some n →
  ∃ h' l', free (a + 16) e h = Ret () e h' ∧ freed base l u h a n l' h'.
Proof. apply free_run. Qed.

(** ** An example *)

(** A program whose memory ends at 8192, with the static header at 4096. *)
Definition ex_heap : heap := Heap (λ _, 0) 0 8192 1000000.

Lemma ex_heap_ready : heap_ready 4096 [] ∅ ex_heap.
Proof. right. unfold heap_start. cbn. split_and!; lia || done. Qed.

Lemma ex_size : 0 ≤ 100 ≤ 2 ^ 30.
Proof. lia. Qed.

Lemma malloc_correct_witness :
  ∃ r h', malloc 4096 100 [] ex_heap = Ret r [] h' ∧ allocated 4096 [] ∅ ex_heap 100 r h'.
Proof.
  pose proof (malloc_correct 4096 [] ∅ ex_heap 100 [] ex_heap_ready ex_size) as H. destruct H as (r & h' & E & H).
  exists r, h'. split; [exact E|]. destruct H as [R|A]; [exfalso|exact A]. destruct R as [_ _ _ Hlim _]. vm_compute in Hlim. discriminate.
Defined.

Lemma free_correct_witness :
  ∃ a n h h' l l', free (a + 16) [] h = Ret () [] h' ∧ freed 4096 l {[a := n]} h a n l' h'.
Proof.
  pose proof (malloc_run 4096 [] ∅ ex_heap 100 [] ex_heap_ready ex_size) as H. destruct H as (r & h & _ & H).
  destruct H as [R|A].
  - exfalso. destruct R as [_ _ _ Hlim _]. vm_compute in Hlim. discriminate.
  - destruct (al_block _ _ _ _ _ _ _ A) as (n & l & HI & _).
    destruct (free_correct 4096 l (<[r - 16 := n]> ∅) h (r - 16) n [] HI (lookup_insert_eq _ _ _)) as (h' & l' & E & F).
    exists (r - 16), n, h, h', l, l'. split; [exact E|exact F].
Defined.
