(* ===== verification/Sh.v ===== *)
(** * Sh: the shell (user/sh.c)

    The command line is an array of bytes; a [char *] into it is a position.  The
    parser builds its commands in the shell's heap: a [struct cmd *] is the
    number of a node, a null pointer is [None].  [nd_room] says how many more
    nodes malloc can supply; when it is used up, clearing the node that malloc
    did not return faults. *)

From S2P Require Import Prelude Bytes User ULib UPrintf UProgs.

Definition MAXARGS : nat := 10.

(** ** Commands *)

(** The structs execcmd, redircmd, pipecmd, listcmd and backcmd; the constructor
    is the field [type]. *)
Inductive cnode :=
| EXEC (argv eargv : list (option nat))
| REDIR (cmd : option nat) (file efile : nat) (mode fd : Z)
| PIPE (left right : option nat)
| LIST (left right : option nat)
| BACK (cmd : option nat).

Record nodes := Nodes { nd_cells : list cnode; nd_room : nat }.

(** The parser's state: the heap and the position [*ps]. *)
Record pstate := PState { ps_nodes : nodes; ps_s : nat }.

(** ** Tokens *)

Definition whitespace : list Z := [32; 9; 13; 10; 11].
Definition symbols : list Z := bytes_of "<|>&;()".

Definition in_set (set : list Z) (c : Z) : bool := bool_decide (is_Some (strchr set c)).
Definition byte_at (buf : list Z) (s : nat) : Z := default 0 (buf !! s).

(** [while(s < es && strchr(whitespace, s[0])) s++], in at most [n] = es - s steps. *)
Fixpoint skip_space (buf : list Z) (s n : nat) : nat :=
  match n with
  | O => s
  | S n' => if in_set whitespace (byte_at buf s) then skip_space buf (S s) n' else s
  end.

Fixpoint skip_word (buf : list Z) (s n : nat) : nat :=
  match n with
  | O => s
  | S n' =>
      let c := byte_at buf s in
      if negb (in_set whitespace c) && negb (in_set symbols c) then skip_word buf (S s) n' else s
  end.

Record token := Token { tk_ret : Z; tk_q : nat; tk_eq : nat; tk_s : nat }.

(** The token's kind, its bounds and the new position. *)
Definition gettoken (buf : list Z) (s es : nat) : token :=
  let s := skip_space buf s (es - s) in
  let q := s in
  let c := byte_at buf s in
  let '(ret, s) :=
    if c =? 0 then (c, s)
    else if (c =? 124) || (c =? 40) || (c =? 41) || (c =? 59) || (c =? 38) || (c =? 60) then (c, S s)
    else if c =? 62 then
      let s := S s in
      if byte_at buf s =? 62 then (43, S s) else (c, s)
    else (97, skip_word buf s (es - s)) in
  Token ret q s (skip_space buf s (es - s)).

Definition peek (buf : list Z) (s es : nat) (toks : list Z) : bool * nat :=
  let s := skip_space buf s (es - s) in
  let c := byte_at buf s in
  (ctrue c && in_set toks c, s).

Section Sh.
Context {S : Type} `{!Sys S}.

Definition panic {A} (s : string) : KM S A :=
  fprintf 2 ("%s" +:+ newline) [UStr (bytes_of s)];;
  exit 1.

Definition fork1 : KM S Z :=
  pid ← fork;
  if pid =? -1 then panic "fork" else mret pid.

(** ** Constructors *)

Definition new_node (st : pstate) (c : cnode) : KM S (option nat * pstate) :=
  match nd_room (ps_nodes st) with
  | O => fault "memset"
  | Datatypes.S room =>
      let cells := nd_cells (ps_nodes st) in
      mret (Some (length cells), PState (Nodes (cells ++ [c]) room) (ps_s st))
  end.

Definition execcmd (st : pstate) := new_node st (EXEC (replicate MAXARGS None) (replicate MAXARGS None)).
Definition redircmd (st : pstate) (subcmd : option nat) (file efile : nat) (mode fd : Z) :=
  new_node st (REDIR subcmd file efile mode fd).
Definition pipecmd (st : pstate) (left right : option nat) := new_node st (PIPE left right).
Definition listcmd (st : pstate) (left right : option nat) := new_node st (LIST left right).
Definition backcmd (st : pstate) (subcmd : option nat) := new_node st (BACK subcmd).

(** [cmd->argv[i] = q; cmd->eargv[i] = eq;] for the node [cmd]. *)
Definition set_arg (st : pstate) (cmd : option nat) (i : nat) (q eq : option nat) : KM S pstate :=
  match p ← cmd; c ← nd_cells (ps_nodes st) !! p; Some (p, c) with
  | Some (p, EXEC argv eargv) =>
      if (i <? MAXARGS)%nat then
        mret (PState (Nodes (<[p := EXEC (<[i := q]> argv) (<[i := eq]> eargv)]> (nd_cells (ps_nodes st))) (nd_room (ps_nodes st))) (ps_s st))
      else fault "argv"
  | _ => fault "execcmd"
  end.

(** ** The parser *)

Section Parser.
Variables (buf : list Z) (es : nat).

Definition peek_ (st : pstate) (toks : string) : bool * pstate :=
  let '(b, s) := peek buf (ps_s st) es (bytes_of toks) in (b, PState (ps_nodes st) s).
Definition gettoken_ (st : pstate) : token * pstate :=
  let t := gettoken buf (ps_s st) es in (t, PState (ps_nodes st) (tk_s t)).

Definition parseredirs (cmd : option nat) (st : pstate) : KM S (option nat * pstate) :=
  while_ (λ '(cmd, st),
    let '(b, st) := peek_ st "<>" in
    if b : bool then
      let '(tok, st) := gettoken_ st in
      let '(t, st) := gettoken_ st in
      (if negb (tk_ret t =? 97) then panic "missing file for redirection" else mret ());;
      let tok := tk_ret tok in
      let q := tk_q t in
      let eq := tk_eq t in
      r ← (if tok =? 60 then redircmd st cmd q eq O_RDONLY 0
           else if tok =? 62 then redircmd st cmd q eq (Z.lor (Z.lor O_WRONLY O_CREATE) O_TRUNC) 1
           else if tok =? 43 then redircmd st cmd q eq (Z.lor O_WRONLY O_CREATE) 1
           else mret (cmd, st));
      mret (inl r)
    else mret (inr (cmd, st))) (cmd, st).

(** The loop of [parseexec] over the arguments. *)
Definition parse_args (cmd ret : option nat) (st : pstate) : KM S (option nat * nat * pstate) :=
  while_ (λ '(ret, argc, st),
    let '(b, st) := peek_ st "|)&;" in
    if b : bool then mret (inr (ret, argc, st))
    else
      let '(t, st) := gettoken_ st in
      if tk_ret t =? 0 then mret (inr (ret, argc, st))
      else
        (if negb (tk_ret t =? 97) then panic "syntax" else mret ());;
        st ← set_arg st cmd argc (Some (tk_q t)) (Some (tk_eq t));
        let argc := (argc + 1)%nat in
        (if (MAXARGS <=? argc)%nat then panic "too many args" else mret ());;
        '(ret, st) ← parseredirs ret st;
        mret (inl (ret, argc, st))) (ret, 0%nat, st).

(** [fuel] bounds the depth of the recursion. *)
Fixpoint parseline (fuel : nat) (st : pstate) : KM S (option nat * pstate) :=
  match fuel with
  | O => blocked
  | Datatypes.S fuel =>
      '(cmd, st) ← parsepipe fuel st;
      '(cmd, st) ← while_ (λ '(cmd, st),
        let '(b, st) := peek_ st "&" in
        if b : bool then
          let '(_, st) := gettoken_ st in
          r ← backcmd st cmd;
          mret (inl r)
        else mret (inr (cmd, st))) (cmd, st);
      let '(b, st) := peek_ st ";" in
      if b : bool then
        let '(_, st) := gettoken_ st in
        '(rcmd, st) ← parseline fuel st;
        listcmd st cmd rcmd
      else mret (cmd, st)
  end
with parsepipe (fuel : nat) (st : pstate) : KM S (option nat * pstate) :=
  match fuel with
  | O => blocked
  | Datatypes.S fuel =>
      '(cmd, st) ← parseexec fuel st;
      let '(b, st) := peek_ st "|" in
      if b : bool then
        let '(_, st) := gettoken_ st in
        '(rcmd, st) ← parsepipe fuel st;
        pipecmd st cmd rcmd
      else mret (cmd, st)
  end
with parseexec (fuel : nat) (st : pstate) : KM S (option nat * pstate) :=
  match fuel with
  | O => blocked
  | Datatypes.S fuel =>
      let '(b, st) := peek_ st "(" in
      if b : bool then parseblock fuel st
      else
        '(ret, st) ← execcmd st;
        let cmd := ret in
        '(ret, st) ← parseredirs ret st;
        '(ret, argc, st) ← parse_args cmd ret st;
        st ← set_arg st cmd argc None None;
        mret (ret, st)
  end
with parseblock (fuel : nat) (st : pstate) : KM S (option nat * pstate) :=
  match fuel with
  | O => blocked
  | Datatypes.S fuel =>
      let '(b, st) := peek_ st "(" in
      (if negb b then panic "parseblock" else mret ());;
      let '(_, st) := gettoken_ st in
      '(cmd, st) ← parseline fuel st;
      let '(b, st) := peek_ st ")" in
      (if negb b then panic "syntax - missing )" else mret ());;
      let '(_, st) := gettoken_ st in
      parseredirs cmd st
  end.
End Parser.

(** ** NUL-terminating the strings *)

(** A store through a pointer into the command line. *)
Definition put_nul (buf : list Z) (p : nat) : KM S (list Z) :=
  check (p <? length buf)%nat "buf";;
  mret (<[p := 0]> buf).

Fixpoint put_nuls (buf : list Z) (argv eargv : list (option nat)) : KM S (list Z) :=
  match argv, eargv with
  | Some _ :: argv', Some p :: eargv' => buf ← put_nul buf p; put_nuls buf argv' eargv'
  | Some _ :: _, _ => fault "eargv"
  | None :: _, _ => mret buf
  | [], _ => fault "argv"
  end.

Fixpoint nulterminate (fuel : nat) (nd : nodes) (buf : list Z) (cmd : option nat) : KM S (list Z) :=
  match fuel with
  | O => blocked
  | Datatypes.S fuel =>
      match cmd with
      | None => mret buf
      | Some p =>
          match nd_cells nd !! p with
          | None => fault "cmd"
          | Some (EXEC argv eargv) => put_nuls buf argv eargv
          | Some (REDIR c _ efile _ _) =>
              buf ← nulterminate fuel nd buf c;
              put_nul buf efile
          | Some (PIPE l r) | Some (LIST l r) =>
              buf ← nulterminate fuel nd buf l;
              nulterminate fuel nd buf r
          | Some (BACK c) => nulterminate fuel nd buf c
          end
      end
  end.

(** The command, the heap and the command line with the strings terminated. *)
Definition parsecmd (room : nat) (buf : list Z) : KM S (option nat * nodes * list Z) :=
  let es := Z.to_nat (strlen buf) in
  '(cmd, st) ← parseline buf es (4 * es + 4) (PState (Nodes [] room) 0);
  let '(_, st) := peek_ buf es st "" in
  (if negb (ps_s st =? es)%nat then
     fprintf 2 ("leftovers: %s" +:+ newline) [UStr (drop (ps_s st) buf)];;
     panic "syntax"
   else mret ());;
  buf ← nulterminate (Datatypes.S (length (nd_cells (ps_nodes st)))) (ps_nodes st) buf cmd;
  mret (cmd, ps_nodes st, buf).

(** ** Running commands *)

Definition str (buf : list Z) (p : nat) : list Z := cstring (drop p buf).

(** The strings of [argv] up to the null pointer. *)
Fixpoint arg_strings (buf : list Z) (argv : list (option nat)) : list (list Z) :=
  match argv with Some p :: argv' => str buf p :: arg_strings buf argv' | _ => [] end.

Fixpoint runcmd (fuel : nat) (nd : nodes) (buf : list Z) (cmd : option nat) : KM S () :=
  match fuel with
  | O => blocked
  | Datatypes.S fuel =>
      match cmd with
      | None => exit 1
      | Some p =>
          (match nd_cells nd !! p with
           | None => panic "runcmd"
           | Some (EXEC argv _) =>
               match head argv with
               | Some (Some a0) =>
                   exec (str buf a0) (arg_strings buf argv);;
                   fprintf 2 ("exec %s failed" +:+ newline) [UStr (str buf a0)]
               | _ => exit 1
               end
           | Some (REDIR c file _ mode fd) =>
               close fd;;
               r ← open (str buf file) mode;
               (if r <? 0 then
                  fprintf 2 ("open %s failed" +:+ newline) [UStr (str buf file)];;
                  exit 1
                else mret ());;
               runcmd fuel nd buf c
           | Some (LIST l r) =>
               pid ← fork1;
               (if pid =? 0 then runcmd fuel nd buf l else mret ());;
               wait;;
               runcmd fuel nd buf r
           | Some (PIPE l r) =>
               '(res, (p0, p1)) ← pipe;
               (if res <? 0 then panic "pipe" else mret ());;
               pid ← fork1;
               (if pid =? 0 then
                  close 1;;
                  dup p1;;
                  close p0;;
                  close p1;;
                  runcmd fuel nd buf l
                else mret ());;
               pid ← fork1;
               (if pid =? 0 then
                  close 0;;
                  dup p0;;
                  close p0;;
                  close p1;;
                  runcmd fuel nd buf r
                else mret ());;
               close p0;;
               close p1;;
               wait;;
               wait;;
               mret ()
           | Some (BACK c) =>
               pid ← fork1;
               (if pid =? 0 then runcmd fuel nd buf c else mret ())
           end);;
          exit 0
      end
  end.

(** ** The main loop *)

(** [getcmd]: the result and the command line. *)
Definition getcmd (nbuf : Z) : KM S (Z * list Z) :=
  write 2 (bytes_of "$ ");;
  line ← gets nbuf;
  let buf := splice (replicate (Z.to_nat nbuf) 0) 0 line in
  if byte_at buf 0 =? 0 then mret (-1, buf) else mret (0, buf).

Definition main (room : nat) : KM S () :=
  while_ (λ _ : (),
    fd ← open (bytes_of "console") O_RDWR;
    if 0 <=? fd then
      if 3 <=? fd then close fd;; mret (inr ())
      else mret (inl ())
    else mret (inr ())) ();;
  while_ (λ _ : (),
    '(r, buf) ← getcmd 100;
    if 0 <=? r then
      if (byte_at buf 0 =? 99) && (byte_at buf 1 =? 100) && (byte_at buf 2 =? 32) then
        let buf := <[(Z.to_nat (strlen buf) - 1)%nat := 0]> buf in
        r ← chdir (str buf 3);
        (if r <? 0 then fprintf 2 ("cannot cd %s" +:+ newline) [UStr (str buf 3)] else mret ());;
        mret (inl ())
      else
        pid ← fork1;
        (if pid =? 0 then
           '(cmd, nd, buf) ← parsecmd room buf;
           runcmd (Datatypes.S (length (nd_cells nd))) nd buf cmd
         else mret ());;
        wait;;
        mret (inl ())
    else mret (inr ())) ();;
  exit 0.
End Sh.
