(* ===== verification/ShLex.v ===== *)
(** * ShLex: the tokens of a command line

    [spells ts text]: the text is a spelling of the token sequence [ts], with any
    white space around the tokens.  [peek] and [gettoken] read the tokens of the
    text they are at. *)

From S2P Require Import Prelude Bytes User ULib UPrintf UProgs Sh.

(** [TSym c] is one of the characters of [symbols]; [TApp] is ">>". *)
Inductive tok := TWord (w : list Z) | TSym (c : Z) | TApp.

Definition blank (c : Z) : Prop := c ∈ whitespace.
Definition wordchar (c : Z) : Prop := c ≠ 0 ∧ c ∉ whitespace ∧ c ∉ symbols.

Inductive spells : list tok → list Z → Prop :=
| spells_nil ws : Forall blank ws → spells [] ws
| spells_sym ws c ts r : Forall blank ws → c ∈ symbols → c ≠ 62 → spells ts r → spells (TSym c :: ts) (ws ++ c :: r)
| spells_gt ws ts r : Forall blank ws → head r ≠ Some 62 → spells ts r → spells (TSym 62 :: ts) (ws ++ 62 :: r)
| spells_app ws ts r : Forall blank ws → spells ts r → spells (TApp :: ts) (ws ++ 62 :: 62 :: r)
| spells_word ws w ts r :
    Forall blank ws → w ≠ [] → Forall wordchar w → (∀ c, head r = Some c → ¬ wordchar c) →
    spells ts r → spells (TWord w :: ts) (ws ++ w ++ r).

(** What [gettoken] returns for a token, and the character [peek] looks at. *)
Definition kind (t : tok) : Z := match t with TWord _ => 97 | TSym c => c | TApp => 43 end.
Definition first_char (t : tok) : Z := match t with TWord w => default 0 (head w) | TSym c => c | TApp => 62 end.

(** Is the first token one of the symbols [toks]? *)
Definition starts_with (toks : list Z) (ts : list tok) : bool :=
  match ts with [] => false | t :: _ => in_set toks (first_char t) end.

Lemma in_set_spec set c : c ≠ 0 → Forall (λ x, x ≠ 0) set → in_set set c = bool_decide (c ∈ set).
Proof. intros Hc Hs. apply bool_decide_ext. by apply strchr_is_Some. Qed.

Lemma whitespace_nz : Forall (λ x, x ≠ 0) whitespace.
Proof. repeat (constructor; [lia|]). constructor. Qed.
Lemma symbols_nz : Forall (λ x, x ≠ 0) symbols.
Proof. vm_compute. repeat (constructor; [discriminate|]). constructor. Qed.

Lemma blank_nz c : blank c → c ≠ 0.
Proof. intros Hb. pose proof whitespace_nz as H. rewrite Forall_forall in H. by apply H. Qed.

Lemma in_whitespace c : in_set whitespace c = true ↔ blank c.
Proof.
  destruct (decide (c = 0)) as [->|Hc].
  - unfold in_set. rewrite strchr_nul, bool_decide_eq_true. split; [by intros []|by intros ?%blank_nz].
  - rewrite in_set_spec, bool_decide_eq_true by (done || apply whitespace_nz). done.
Qed.

Lemma not_whitespace c : ¬ blank c → in_set whitespace c = false.
Proof. intros Hb. destruct (in_set whitespace c) eqn:E; [by apply in_whitespace in E|done]. Qed.

Lemma word_cond c : negb (in_set whitespace c) && negb (in_set symbols c) = true ↔ wordchar c ∨ c = 0.
Proof.
  destruct (decide (c = 0)) as [->|Hc].
  - unfold in_set. rewrite !strchr_nul. cbn. tauto.
  - rewrite !in_set_spec by (done || apply whitespace_nz || apply symbols_nz).
    rewrite andb_true_iff, !negb_true_iff, !bool_decide_eq_false. unfold wordchar. naive_solver.
Qed.

Section Text.
(** The command line: the text up to the NUL, and what follows it in the array. *)
Context (text junk : list Z).
Let buf := text ++ 0 :: junk.
Let es := length text.
Hypothesis Htext : Forall (λ c, c ≠ 0) text.

(** The parser is at a spelling of the tokens. *)
Definition at_tokens (s : nat) (ts : list tok) : Prop := (s ≤ es)%nat ∧ spells ts (drop s text).

(** The bytes from [q] to [eq] are the word, and no longer word. *)
Definition word_at (b : list Z) (q eq : nat) (w : list Z) : Prop :=
  eq = (q + length w)%nat ∧ (∀ i c, w !! i = Some c → b !! (q + i)%nat = Some c) ∧ Forall wordchar w ∧
  (eq < length b)%nat ∧ ¬ wordchar (byte_at b eq).

Lemma byte_at_text s c r : drop s text = c :: r → byte_at buf s = c.
Proof.
  intros E. assert (text !! s = Some c) as Hs by (rewrite <- (Nat.add_0_r s), <- lookup_drop, E; done).
  unfold byte_at, buf. by rewrite lookup_app_l, Hs by (by eapply lookup_lt_Some).
Qed.

Lemma byte_at_end s : s = es → byte_at buf s = 0.
Proof. intros ->. unfold byte_at, buf, es. by rewrite lookup_app_r, Nat.sub_diag by lia. Qed.

Lemma drop_length_le s r : (s ≤ es)%nat → drop s text = r → (es - s)%nat = length r.
Proof. intros _ <-. by rewrite length_drop. Qed.

Lemma drop_step s c r : drop s text = c :: r → drop (S s) text = r ∧ (S s ≤ es)%nat.
Proof.
  intros E. split; [by rewrite <- Nat.add_1_r, <- drop_drop, E|].
  apply (f_equal length) in E. rewrite length_drop in E. cbn in E. fold es in E. lia.
Qed.

Lemma drop_steps s w r : (s ≤ es)%nat → drop s text = w ++ r → drop (s + length w) text = r ∧ (s + length w ≤ es)%nat.
Proof.
  intros Hs E. split; [by rewrite <- drop_drop, E, drop_app_length|].
  apply (f_equal length) in E. rewrite length_drop, length_app in E. fold es in E. lia.
Qed.

Lemma skip_space_run s ws r n : (s ≤ es)%nat → drop s text = ws ++ r → Forall blank ws →
  (∀ c, head r = Some c → ¬ blank c) → n = (es - s)%nat → skip_space buf s n = (s + length ws)%nat.
Proof.
  intros Hs E Hws Hr. revert s Hs E n. induction Hws as [|c ws Hc Hws IH]; intros s Hs E n Hn; cbn [app length] in *.
  - rewrite (drop_length_le s r Hs E) in Hn. rewrite Nat.add_0_r. destruct r as [|c r]; cbn [length] in Hn; subst n; [done|].
    cbn [skip_space]. rewrite (byte_at_text s c r E), not_whitespace by (by apply Hr). done.
  - destruct (drop_step _ _ _ E) as [E' Hs']. rewrite (drop_length_le s _ Hs E) in Hn. cbn [length] in Hn. subst n.
    cbn [skip_space]. rewrite (byte_at_text s _ _ E). assert (in_set whitespace c = true) as -> by (by apply in_whitespace).
    rewrite (IH (S s) Hs' E'); [lia|]. by rewrite (drop_length_le (S s) _ Hs' E').
Qed.

Lemma skip_word_run s w r n : (s ≤ es)%nat → drop s text = w ++ r → Forall wordchar w →
  (∀ c, head r = Some c → ¬ wordchar c) → n = (es - s)%nat → skip_word buf s n = (s + length w)%nat.
Proof.
  intros Hs E Hw Hr. revert s Hs E n. induction Hw as [|c w Hc Hw IH]; intros s Hs E n Hn; cbn [app length] in *.
  - rewrite (drop_length_le s r Hs E) in Hn. rewrite Nat.add_0_r. destruct r as [|c r]; cbn [length] in Hn; subst n; [done|].
    cbn [skip_word]. rewrite (byte_at_text s c r E).
    destruct (negb (in_set whitespace c) && negb (in_set symbols c)) eqn:Ec; [|done].
    apply word_cond in Ec as [Hc| ->]; [by destruct (Hr c eq_refl)|].
    exfalso. rewrite Forall_forall in Htext. apply (Htext 0); [|done]. rewrite <- (take_drop s text), E. apply elem_of_app. right. apply list_elem_of_here.
  - destruct (drop_step _ _ _ E) as [E' Hs']. rewrite (drop_length_le s _ Hs E) in Hn. cbn [length] in Hn. subst n.
    cbn [skip_word]. rewrite (byte_at_text s _ _ E).
    assert (negb (in_set whitespace c) && negb (in_set symbols c) = true) as -> by (apply word_cond; by left).
    rewrite (IH (S s) Hs' E'); [lia|]. by rewrite (drop_length_le (S s) _ Hs' E').
Qed.

(** The text without its leading white space spells the same tokens. *)
Lemma spells_direct ts txt : spells ts txt →
  ∃ ws r, txt = ws ++ r ∧ Forall blank ws ∧ spells ts r ∧ (∀ c, head r = Some c → ¬ blank c) ∧
    head r = (match ts with [] => None | t :: _ => Some (first_char t) end).
Proof.
  assert (∀ c, c ∈ symbols → ¬ blank c) as Hsym.
  { intros c Hc Hb. vm_compute in Hc. unfold blank in Hb. vm_compute in Hb. set_solver by lia. }
  intros H. destruct H as [ws Hws|ws c ts r Hws Hc Hc' Hr|ws ts r Hws Hr0 Hr|ws ts r Hws Hr|ws w ts r Hws Hw Hwc Hr0 Hr].
  - exists ws, []. rewrite app_nil_r. split_and!; [done|done|by apply spells_nil|done|done].
  - exists ws, (c :: r). split_and!; [done|done|by apply (spells_sym [])| |done]. intros ? [= <-]. by apply Hsym.
  - exists ws, (62 :: r). split_and!; [done|done|by apply (spells_gt [])| |done]. intros ? [= <-]. apply Hsym. vm_compute. set_solver.
  - exists ws, (62 :: 62 :: r). split_and!; [done|done|by apply (spells_app [])| |done]. intros ? [= <-]. apply Hsym. vm_compute. set_solver.
  - exists ws, (w ++ r). destruct w as [|c w]; [done|]. split_and!; [done|done|by apply (spells_word [] (c :: w))| |done].
    intros ? [= <-]. apply Forall_cons in Hwc as [(_ & Hc & _) _]. done.
Qed.

Lemma peek_spec s ts toks : at_tokens s ts → toks = [] ∨ Forall (λ x, x ∈ symbols) toks →
  ∃ s', peek buf s es toks = (starts_with toks ts, s') ∧ at_tokens s' ts ∧
    (ts = [] → s' = es) ∧ (∀ t ts', ts = t :: ts' → byte_at buf s' = first_char t) ∧ (s ≤ s')%nat.
Proof.
  intros [Hs Hsp] Htoks. destruct (spells_direct _ _ Hsp) as (ws & r & E & Hws & Hr & Hh & Hhd).
  destruct (drop_steps s ws r Hs E) as [E' Hs']. exists (s + length ws)%nat. unfold peek.
  rewrite (skip_space_run s ws r) by done.
  assert (∀ t ts', ts = t :: ts' → byte_at buf (s + length ws)%nat = first_char t) as Hb.
  { intros t ts' ->. destruct r as [|c r]; [done|]. rewrite (byte_at_text _ c r E'). cbn in Hhd. congruence. }
  split_and!; [|split; [done|by rewrite E']| |done|lia].
  - f_equal. destruct ts as [|t ts'].
    + destruct r as [|c r]; [|done]. apply (f_equal length) in E'. rewrite length_drop in E'. cbn in E'. fold es in E'.
      rewrite byte_at_end by lia. done.
    + rewrite (Hb t ts' eq_refl). cbn [starts_with]. unfold ctrue. destruct (Z.eqb_spec (first_char t) 0) as [E0|]; [|done].
      rewrite E0. unfold in_set. by rewrite strchr_nul.
  - intros ->. destruct r as [|c r]; [|done]. apply (f_equal length) in E'. rewrite length_drop in E'. cbn in E'. fold es in E'. lia.
Qed.

(** What [gettoken] finds when the parser is at a token. *)
Lemma gettoken_spec s t ts : at_tokens s (t :: ts) →
  ∃ q eq s', gettoken buf s es = Token (kind t) q eq s' ∧ at_tokens s' ts ∧ (s ≤ q)%nat ∧ (eq ≤ s')%nat ∧ (q < eq)%nat ∧
    (∀ w, t = TWord w → word_at buf q eq w).
Proof.
  intros [Hs Hsp]. destruct (spells_direct _ _ Hsp) as (ws & r & E & Hws & Hr & Hh & Hhd).
  destruct (drop_steps s ws r Hs E) as [E' Hs']. set (q := (s + length ws)%nat) in *.
  assert (skip_space buf s (es - s) = q) as Hq by (by apply (skip_space_run s ws r)).
  assert (∀ r' s1, drop s1 text = r' → (s1 ≤ es)%nat → spells ts r' →
    ∃ s', skip_space buf s1 (es - s1) = s' ∧ at_tokens s' ts ∧ (s1 ≤ s')%nat) as Hrest.
  { intros r' s1 E1 Hs1 Hr'. destruct (spells_direct _ _ Hr') as (ws2 & r2 & E2 & Hws2 & Hr2 & Hh2 & _).
    destruct (drop_steps s1 ws2 r2 Hs1 ltac:(by rewrite E1)) as [E3 Hs3].
    exists (s1 + length ws2)%nat. split_and!; [by apply (skip_space_run s1 ws2 r2 _ Hs1 ltac:(by rewrite E1))|split; [done|by rewrite E3]|lia]. }
  unfold gettoken. rewrite Hq. clear Hq Hsp. revert E'. inversion Hr as [|ws' c ts' r' Hws' Hc Hc' Hr' Et Er|ws' ts' r' Hws' Hne Hr' Et Er|ws' ts' r' Hws' Hr' Et Er|ws' w ts' r' Hws' Hw Hwc Hne Hr' Et Er]; subst; intros E'.
  - assert (ws' = []) as -> by (destruct ws' as [|x ws']; [done|]; apply Forall_cons in Hws' as [Hx _]; by destruct (Hh x eq_refl)).
    cbn [app] in E'. rewrite (byte_at_text q c r' E'). destruct (drop_step _ _ _ E') as [E2 Hs2].
    destruct (Hrest r' (S q) E2 Hs2 Hr') as (s' & Hs3 & Hat & Hle).
    assert (c = 60 ∨ c = 124 ∨ c = 38 ∨ c = 59 ∨ c = 40 ∨ c = 41) as Hcases.
    { vm_compute in Hc. repeat (apply elem_of_cons in Hc as [->|Hc]; [try done; tauto|]). by apply elem_of_nil in Hc. }
    exists q, (S q), s'. destruct Hcases as [->|[->|[->|[->|[->| ->]]]]]; cbn; rewrite Hs3; (split_and!; [done|done|lia|lia|lia|done]).
  - assert (ws' = []) as -> by (destruct ws' as [|x ws']; [done|]; apply Forall_cons in Hws' as [Hx _]; by destruct (Hh x eq_refl)).
    cbn [app] in E'. rewrite (byte_at_text q 62 r' E'). destruct (drop_step _ _ _ E') as [E2 Hs2].
    destruct (Hrest r' (S q) E2 Hs2 Hr') as (s' & Hs3 & Hat & Hle). exists q, (S q), s'. cbn.
    assert ((byte_at buf (S q) =? 62) = false) as ->.
    { apply Z.eqb_neq. destruct r' as [|c r'].
      - apply (f_equal length) in E2. rewrite length_drop in E2. cbn in E2. fold es in E2. rewrite byte_at_end by lia. done.
      - rewrite (byte_at_text _ c r' E2). intros ->. by apply Hne. }
    rewrite Hs3. split_and!; [done|done|lia|lia|lia|done].
  - assert (ws' = []) as -> by (destruct ws' as [|x ws']; [done|]; apply Forall_cons in Hws' as [Hx _]; by destruct (Hh x eq_refl)).
    cbn [app] in E'. rewrite (byte_at_text q 62 _ E'). destruct (drop_step _ _ _ E') as [E2 Hs2]. destruct (drop_step _ _ _ E2) as [E3 Hs3].
    destruct (Hrest r' (S (S q)) E3 Hs3 Hr') as (s' & Hs4 & Hat & Hle). exists q, (S (S q)), s'. cbn.
    rewrite (byte_at_text _ _ _ E2). cbn. rewrite Hs4. split_and!; [done|done|lia|lia|lia|done].
  - assert (ws' = []) as ->.
    { destruct ws' as [|x ws']; [done|]. apply Forall_cons in Hws' as [Hx _]. by destruct (Hh x eq_refl). }
    cbn [app] in E'. destruct w as [|c w]; [done|]. pose proof Hwc as Hwc0. apply Forall_cons in Hwc as [(Hc0 & Hc1 & Hc2) Hwc].
    destruct (drop_steps q (c :: w) r' Hs' E') as [E2 Hs2].
    destruct (Hrest r' _ E2 Hs2 Hr') as (s' & Hs3 & Hat & Hle).
    exists q, (q + length (c :: w))%nat, s'.
    rewrite (byte_at_text q c (w ++ r') E'). destruct (Z.eqb_spec c 0); [done|].
    assert ((c =? 124) || (c =? 40) || (c =? 41) || (c =? 59) || (c =? 38) || (c =? 60) = false ∧ (c =? 62) = false) as [-> ->].
    { assert (∀ d, d ∈ symbols → (c =? d) = false) as Hd by (intros d Hd; apply Z.eqb_neq; by intros ->).
      rewrite !Hd; [done|vm_compute; repeat (first [apply list_elem_of_here|apply list_elem_of_further])..]. }
    rewrite (skip_word_run q (c :: w) r') by done. rewrite Hs3. split_and!; [done|done|lia|lia|cbn; lia|].
    intros w0 [= <-]. split_and!; [done| |done| |].
    + intros i d Hi. unfold buf. rewrite lookup_app_l. 2:{ apply lookup_lt_Some in Hi. unfold es in Hs2. lia. }
      rewrite <- lookup_drop, E'. by rewrite lookup_app_l by (by eapply lookup_lt_Some).
    + unfold buf. rewrite length_app. cbn [length]. unfold es in Hs2. cbn [length] in Hs2. lia.
    + destruct r' as [|d r'].
      * apply (f_equal length) in E2. rewrite length_drop in E2. cbn [length] in E2, Hs2. fold es in E2. rewrite byte_at_end by (cbn [length]; lia). by intros [].
      * rewrite (byte_at_text _ d r' E2). by apply Hne.
Qed.

(** At the end of the text. *)
Lemma gettoken_end s : at_tokens s [] → ∃ q eq s', gettoken buf s es = Token 0 q eq s' ∧ at_tokens s' [].
Proof.
  intros Hat. pose proof Hat as [Hs Hsp]. inversion Hsp as [ws Hws E| | | |]; subst.
  destruct (drop_steps s (drop s text) [] Hs ltac:(by rewrite app_nil_r)) as [E' Hs'].
  assert (s + length (drop s text) = es)%nat as Ees by (rewrite length_drop; fold es; lia).
  assert (skip_space buf s (es - s) = es) as Hq.
  { rewrite (skip_space_run s (drop s text) []) by (done || by rewrite app_nil_r). done. }
  exists es, es, es. unfold gettoken. rewrite Hq, byte_at_end by done. cbn [Z.eqb]. split; [by rewrite Nat.sub_diag|].
  split; [done|]. rewrite drop_ge by (unfold es; lia). by apply spells_nil.
Qed.
End Text.
