(* ===== verification/ShTree.v ===== *)
(** * ShTree: command trees

    A node of the shell's heap represents a command: its words are where the
    pointers say, and its children are older nodes.  [nulterminate] turns the
    words into strings in place, and [runcmd] on a node runs the command it
    represents. *)

From S2P Require Import Prelude Bytes User ULib UPrintf UProgs Sh ShLex.

Inductive cmd :=
| CExec (argv : list (list Z))
| CRedir (c : cmd) (file : list Z) (mode fd : Z)
| CPipe (l r : cmd)
| CList (l r : cmd)
| CBack (c : cmd).

#[export] Instance cmd_eq_dec : EqDecision cmd.
Proof. intros c1 c2. unfold Decision. repeat decide equality. Defined.

(** The number of nodes of a command. *)
Fixpoint cmd_size (c : cmd) : nat :=
  match c with
  | CExec _ => 1
  | CRedir c _ _ _ | CBack c => S (cmd_size c)
  | CPipe l r | CList l r => S (cmd_size l + cmd_size r)
  end.

(** The command at a node, read back from the heap and the command line. *)
Fixpoint cmd_at (fuel : nat) (nd : nodes) (buf : list Z) (p : option nat) : option cmd :=
  match fuel with
  | O => None
  | S fuel =>
      p ← p;
      node ← nd_cells nd !! p;
      match node with
      | EXEC argv _ => Some (CExec (arg_strings buf argv))
      | REDIR c file _ mode fd => c ← cmd_at fuel nd buf c; Some (CRedir c (str buf file) mode fd)
      | PIPE l r => l ← cmd_at fuel nd buf l; r ← cmd_at fuel nd buf r; Some (CPipe l r)
      | LIST l r => l ← cmd_at fuel nd buf l; r ← cmd_at fuel nd buf r; Some (CList l r)
      | BACK c => c ← cmd_at fuel nd buf c; Some (CBack c)
      end
  end.

(** ** Running a command tree *)

Section Run.
Context {S : Type} `{!Sys S}.

(** [child m]: a new process runs [m], the parent goes on. *)
Definition child (m : KM S ()) : KM S () :=
  pid ← fork1;
  if pid =? 0 then m else mret ().

(** What it is to run a command, without a heap and without a command line. *)
Fixpoint run_cmd (c : cmd) : KM S () :=
  (match c with
   | CExec [] => exit 1
   | CExec (a0 :: argv) =>
       exec a0 (a0 :: argv);;
       fprintf 2 ("exec %s failed" +:+ newline) [UStr a0]
   | CRedir c file mode fd =>
       close fd;;
       r ← open file mode;
       (if r <? 0 then fprintf 2 ("open %s failed" +:+ newline) [UStr file];; exit 1 else mret ());;
       run_cmd c
   | CList l r => child (run_cmd l);; wait;; run_cmd r
   | CPipe l r =>
       '(res, (p0, p1)) ← pipe;
       (if res <? 0 then Sh.panic "pipe" else mret ());;
       child (close 1;; dup p1;; close p0;; close p1;; run_cmd l);;
       child (close 0;; dup p0;; close p0;; close p1;; run_cmd r);;
       close p0;;
       close p1;;
       wait;;
       wait;;
       mret ()
   | CBack c => child (run_cmd c)
   end);;
  exit 0.
End Run.

(** ** Representation *)

Section Rep.
Implicit Types (word : nat → nat → list Z → Prop).

(** The pointers of an EXEC node: the words, then null. *)
Inductive arg_ptrs word : list (option nat) → list (option nat) → list (list Z) → Prop :=
| arg_ptrs_nil argv eargv : arg_ptrs word (None :: argv) eargv []
| arg_ptrs_cons q eq w argv eargv ws :
    word q eq w → arg_ptrs word argv eargv ws → arg_ptrs word (Some q :: argv) (Some eq :: eargv) (w :: ws).

Inductive rep word (cells : list cnode) : nat → cmd → Prop :=
| rep_exec p argv eargv ws :
    cells !! p = Some (EXEC argv eargv) → arg_ptrs word argv eargv ws → rep word cells p (CExec ws)
| rep_redir p r q eq w mode fd c :
    cells !! p = Some (REDIR (Some r) q eq mode fd) → (r < p)%nat → word q eq w →
    rep word cells r c → rep word cells p (CRedir c w mode fd)
| rep_pipe p l r cl cr :
    cells !! p = Some (PIPE (Some l) (Some r)) → (l < p)%nat → (r < p)%nat →
    rep word cells l cl → rep word cells r cr → rep word cells p (CPipe cl cr)
| rep_list p l r cl cr :
    cells !! p = Some (LIST (Some l) (Some r)) → (l < p)%nat → (r < p)%nat →
    rep word cells l cl → rep word cells r cr → rep word cells p (CList cl cr)
| rep_back p r c :
    cells !! p = Some (BACK (Some r)) → (r < p)%nat → rep word cells r c → rep word cells p (CBack c).

Lemma rep_lt word cells p c : rep word cells p c → (p < length cells)%nat.
Proof. intros H. by destruct H; eapply lookup_lt_Some. Qed.

Lemma arg_ptrs_mono word word' argv eargv ws : (∀ q eq w, word q eq w → word' q eq w) →
  arg_ptrs word argv eargv ws → arg_ptrs word' argv eargv ws.
Proof. intros Hw. induction 1; constructor; auto. Qed.

(** The heap only grows, and words stay words. *)
Lemma rep_mono word word' cells cells' p c : (∀ q eq w, word q eq w → word' q eq w) → cells `prefix_of` cells' →
  rep word cells p c → rep word' cells' p c.
Proof.
  intros Hw [k ->]. induction 1; econstructor; eauto using arg_ptrs_mono, lookup_app_l_Some.
Qed.

Lemma rep_grow word cells k p c : rep word cells p c → rep word (cells ++ k) p c.
Proof. apply rep_mono; [done|]. by exists k. Qed.
End Rep.

(** ** Strings in place *)

(** A word with the NUL after it. *)
Definition ended_at (b : list Z) (q eq : nat) (w : list Z) : Prop := word_at b q eq w ∧ b !! eq = Some 0.

(** NULs have been put where there is no word. *)
Definition nulls (b b' : list Z) : Prop :=
  length b' = length b ∧ ∀ i, b' !! i = b !! i ∨ (b' !! i = Some 0 ∧ ¬ wordchar (byte_at b i)).

Lemma nul_not_word : ¬ wordchar 0.
Proof. by intros []. Qed.

#[export] Instance nulls_preorder : PreOrder nulls.
Proof.
  split; [split; auto|]. intros b1 b2 b3 [L1 H1] [L2 H2]. split; [congruence|]. intros i.
  destruct (H2 i) as [E2|[E2 N2]].
  - destruct (H1 i) as [E1|[E1 N1]]; [left; congruence|right; split; [congruence|done]].
  - right. split; [done|]. destruct (H1 i) as [E1|[E1 N1]]; [|done]. unfold byte_at in *. by rewrite <- E1.
Qed.

Lemma nulls_word b b' q eq w : nulls b b' → word_at b q eq w → word_at b' q eq w.
Proof.
  intros [L H] (-> & Hl & Hw & Hlen & He). split_and!; [done| |done|lia|].
  - intros i c Hi. specialize (Hl i c Hi). destruct (H (q + i)%nat) as [->|[_ []]]; [done|].
    unfold byte_at. rewrite Hl. rewrite Forall_forall in Hw. apply Hw. by eapply list_elem_of_lookup_2.
  - destruct (H (q + length w)%nat) as [E|[E _]]; unfold byte_at in *; rewrite E; [done|apply nul_not_word].
Qed.

Lemma nulls_ended b b' q eq w : nulls b b' → ended_at b q eq w → ended_at b' q eq w.
Proof.
  intros Hn [Hw He]. split; [by eapply nulls_word|]. destruct Hn as [_ H]. by destruct (H eq) as [->|[-> _]].
Qed.

Lemma str_ended b q eq w : ended_at b q eq w → str b q = w.
Proof.
  intros [(-> & Hl & Hw & Hlen & _) He]. unfold str.
  assert (drop q b = w ++ 0 :: drop (S (q + length w)) b) as ->.
  { rewrite <- (take_drop (length w) (drop q b)), drop_drop. f_equal.
    - apply list_eq. intros i. destruct (decide (i < length w)%nat) as [Hi|Hi].
      + rewrite lookup_take_lt, lookup_drop by done. destruct (lookup_lt_is_Some_2 w i Hi) as [c Hc]. by rewrite Hc, (Hl i c Hc).
      + rewrite (lookup_ge_None_2 w) by lia. apply lookup_ge_None_2. rewrite length_take. lia.
    - by apply drop_S. }
  generalize (drop (S (q + length w)) b) as k. clear -Hw. intros k. induction Hw as [|c w [Hc _] Hw IH]; [done|]. cbn [app cstring]. destruct (Z.eqb_spec c 0); [done|]. by rewrite IH.
Qed.

Section Terminate.
Context {S : Type} `{!Sys S}.
Implicit Types (e : list (S → S)) (s : S).

Lemma put_nul_run b q eq w e s : word_at b q eq w →
  put_nul b eq e s = Ret (<[eq := 0]> b) e s ∧ nulls b (<[eq := 0]> b) ∧ ended_at (<[eq := 0]> b) q eq w.
Proof.
  intros Hw. pose proof Hw as (_ & _ & _ & Hlen & He).
  assert (nulls b (<[eq := 0]> b)) as Hn.
  { split; [by rewrite length_insert|]. intros i. destruct (decide (i = eq)) as [->|Hi].
    - right. by rewrite list_lookup_insert_eq.
    - left. by rewrite list_lookup_insert_ne. }
  split_and!; [|done|split; [by eapply nulls_word|by apply list_lookup_insert_eq]].
  unfold put_nul. assert ((eq <? length b)%nat = true) as -> by (by apply Nat.ltb_lt). done.
Qed.

Lemma put_nuls_run b argv eargv ws e s : arg_ptrs (word_at b) argv eargv ws →
  ∃ b', put_nuls b argv eargv e s = Ret b' e s ∧ nulls b b' ∧ arg_ptrs (ended_at b') argv eargv ws.
Proof.
  intros H. remember b as b0 eqn:Eb in H. assert (nulls b0 b) as H0 by (by subst). clear Eb.
  revert b H0. induction H as [argv eargv|q eq w argv eargv ws Hw H IH]; intros b H0.
  - exists b. split_and!; [done|done|constructor].
  - destruct (put_nul_run b q eq w e s) as (E & Hn & He); [by eapply nulls_word|].
    destruct (IH (<[eq := 0]> b)) as (b' & E' & Hn' & Ha); [by etrans|].
    exists b'. split_and!; [|by etrans|constructor; [by eapply nulls_ended|done]].
    cbn [put_nuls]. by run E.
Qed.

(** [nulterminate] makes strings of all the words of a command. *)
Lemma nulterminate_run fuel nd b p c e s : rep (word_at b) (nd_cells nd) p c → (p < fuel)%nat →
  ∃ b', nulterminate fuel nd b (Some p) e s = Ret b' e s ∧ nulls b b' ∧ rep (ended_at b') (nd_cells nd) p c.
Proof.
  intros H. remember b as b0 eqn:Eb in H. assert (nulls b0 b) as H0 by (by subst). clear Eb.
  revert fuel b H0. induction H as [p argv eargv ws Hp Ha|p r q eq w mode fd c Hp Hr Hw H IH|p l r cl cr Hp Hl Hr H1 IH1 H2 IH2|
    p l r cl cr Hp Hl Hr H1 IH1 H2 IH2|p r c Hp Hr H IH]; intros fuel b H0 Hf; (destruct fuel as [|fuel]; [lia|]); cbn [nulterminate]; rewrite Hp.
  - destruct (put_nuls_run b argv eargv ws e s) as (b' & E & Hn & Ha'); [by eapply arg_ptrs_mono; [intros ???; by apply nulls_word|]|].
    exists b'. split_and!; [done|done|by econstructor].
  - destruct (IH fuel b H0 ltac:(lia)) as (b1 & E1 & N1 & R1).
    destruct (put_nul_run b1 q eq w e s) as (E2 & N2 & W2); [by eapply nulls_word; [|done]; etrans|].
    eexists. split_and!; [run E1; exact E2|by etrans|]. econstructor; try done. eapply rep_mono; [|done|exact R1]. intros ???. by apply nulls_ended.
  - destruct (IH1 fuel b H0 ltac:(lia)) as (b1 & E1 & N1 & R1). destruct (IH2 fuel b1 ltac:(by etrans) ltac:(lia)) as (b2 & E2 & N2 & R2).
    exists b2. split_and!; [by run E1|by etrans|]. econstructor; try done. eapply rep_mono; [|done|exact R1]. intros ???. by apply nulls_ended.
  - destruct (IH1 fuel b H0 ltac:(lia)) as (b1 & E1 & N1 & R1). destruct (IH2 fuel b1 ltac:(by etrans) ltac:(lia)) as (b2 & E2 & N2 & R2).
    exists b2. split_and!; [by run E1|by etrans|]. econstructor; try done. eapply rep_mono; [|done|exact R1]. intros ???. by apply nulls_ended.
  - destruct (IH fuel b H0 ltac:(lia)) as (b1 & E1 & N1 & R1). exists b1. split_and!; [done|done|]. by econstructor.
Qed.

Lemma arg_strings_ended b argv eargv ws : arg_ptrs (ended_at b) argv eargv ws → arg_strings b argv = ws.
Proof. induction 1 as [|q eq w argv eargv ws Hw H IH]; [done|]. cbn [arg_strings]. by rewrite IH, (str_ended _ _ _ _ Hw). Qed.

Lemma rep_cmd_at fuel nd b p c : rep (ended_at b) (nd_cells nd) p c → (p < fuel)%nat → cmd_at fuel nd b (Some p) = Some c.
Proof.
  intros H. revert fuel. induction H as [p argv eargv ws Hp Ha|p r q eq w mode fd c Hp Hr Hw H IH|p l r cl cr Hp Hl Hr H1 IH1 H2 IH2|
    p l r cl cr Hp Hl Hr H1 IH1 H2 IH2|p r c Hp Hr H IH]; intros fuel Hf; (destruct fuel as [|fuel]; [lia|]);
    cbn [cmd_at mbind option_bind]; rewrite Hp; cbn [mbind option_bind].
  - by rewrite (arg_strings_ended _ _ _ _ Ha).
  - rewrite IH by lia. cbn. by rewrite (str_ended _ _ _ _ Hw).
  - rewrite IH1, IH2 by lia. done.
  - rewrite IH1, IH2 by lia. done.
  - rewrite IH by lia. done.
Qed.
End Terminate.

(** ** Running a node *)

Section RunNode.
Context {S : Type} `{!Sys S}.
Implicit Types (e : list (S → S)) (s : S).

Lemma bind_ext {A B} (m : KM S A) (f f' : A → KM S B) e s :
  (∀ a e s, f a e s = f' a e s) → (m ≫= f) e s = (m ≫= f') e s.
Proof. intros H. unfold mbind, KM_bind. by destruct (m e s). Qed.

Lemma child_ext {B} (m m' : KM S ()) (k : () → KM S B) (k' : () → KM S ()) (h : B → KM S ()) e s :
  (∀ e s, m e s = m' e s) → (∀ u e s, (k u ≫= h) e s = k' u e s) →
  ((pid ← fork1; (if pid =? 0 then m else mret ()) ≫= k) ≫= h) e s = (child m' ≫= k') e s.
Proof.
  intros Hm Hk. unfold child. rewrite !bind_bind. apply bind_ext. intros pid e' s'. rewrite bind_bind.
  unfold mbind at 1 3, KM_bind at 1 3. destruct (pid =? 0); [rewrite Hm; by destruct (m' e' s')|apply Hk].
Qed.

Lemma runcmd_run fuel nd b p c e s : rep (ended_at b) (nd_cells nd) p c → (p < fuel)%nat →
  runcmd fuel nd b (Some p) e s = run_cmd c e s.
Proof.
  intros H. revert fuel e s. induction H as [p argv eargv ws Hp Ha|p r q eq w mode fd c Hp Hr Hw H IH|p l r cl cr Hp Hl Hr H1 IH1 H2 IH2|
    p l r cl cr Hp Hl Hr H1 IH1 H2 IH2|p r c Hp Hr H IH]; intros fuel e s Hf; (destruct fuel as [|fuel]; [lia|]); cbn [runcmd]; rewrite Hp.
  - destruct Ha as [argv eargv|q eq w argv eargv ws Hw Ha]; [done|]. cbn [head run_cmd arg_strings].
    by rewrite (arg_strings_ended _ _ _ _ Ha), (str_ended _ _ _ _ Hw).
  - cbn [run_cmd]. rewrite (str_ended _ _ _ _ Hw), !bind_bind. apply bind_ext. intros ? e' s'. rewrite !bind_bind.
    apply bind_ext. intros r' e2 s2. rewrite !bind_bind. apply bind_ext. intros [] e3 s3.
    unfold mbind, KM_bind. rewrite IH by lia. done.
  - cbn [run_cmd]. rewrite !bind_bind. apply bind_ext. intros [res [p0 p1]] e1 s1. rewrite !bind_bind. apply bind_ext. intros [] e2 s2.
    etrans; [|symmetry; apply bind_bind]. apply child_ext.
    + intros e3 s3. do 4 (apply bind_ext; intros). apply IH1. lia.
    + intros [] e3 s3. etrans; [|symmetry; apply bind_bind]. apply child_ext; [|done]. intros e4 s4. do 4 (apply bind_ext; intros). apply IH2. lia.
  - cbn [run_cmd]. etrans; [|symmetry; apply bind_bind]. apply child_ext; [intros; apply IH1; lia|]. intros [] e3 s3. rewrite !bind_bind.
    apply bind_ext. intros ? e4 s4. unfold mbind, KM_bind. rewrite IH2 by lia. done.
  - cbn [run_cmd].
    etrans; [|apply (child_ext (runcmd fuel nd b (Some r)) (run_cmd c) mret (λ _, exit 0) (λ _, exit 0)); [intros; apply IH; lia|done]].
    rewrite !bind_bind. apply bind_ext. intros pid e1 s1. by rewrite bind_bind.
Qed.
End RunNode.
