(* ===== verification/ShGram.v ===== *)
(** * ShGram: the grammar of command lines

    The grammar's trees, the tokens they are written with, and the commands they
    mean. *)

From S2P Require Import Prelude Bytes User ULib UPrintf UProgs Sh ShLex ShTree.

(** ** The grammar *)

Inductive redir_kind := RIn | ROut | RApp.
Record redir := Redir { rd_kind : redir_kind; rd_file : list Z }.

Inductive line :=
| LEnd (p : pipeline) (bg : nat)               (* p & ... & *)
| LSeq (p : pipeline) (bg : nat) (l : line)    (* p & ... & ; l *)
with pipeline :=
| PEnd (x : simple)
| PPipe (x : simple) (p : pipeline)            (* x | p *)
with simple :=
| Simple (pre : list redir) (args : list (list Z * list redir))
| Block (l : line) (rs : list redir).          (* ( l ) rs *)

Scheme line_mind := Induction for line Sort Prop
  with pipeline_mind := Induction for pipeline Sort Prop
  with simple_mind := Induction for simple Sort Prop.
Combined Scheme grammar_ind from line_mind, pipeline_mind, simple_mind.

Definition tok_redir (rd : redir) : list tok :=
  [match rd_kind rd with RIn => TSym 60 | ROut => TSym 62 | RApp => TApp end; TWord (rd_file rd)].
Definition tok_redirs (rs : list redir) : list tok := rs ≫= tok_redir.
Definition tok_args (args : list (list Z * list redir)) : list tok :=
  args ≫= λ a, TWord a.1 :: tok_redirs a.2.

Fixpoint tok_line (l : line) : list tok :=
  match l with
  | LEnd p n => tok_pipeline p ++ replicate n (TSym 38)
  | LSeq p n l => tok_pipeline p ++ replicate n (TSym 38) ++ TSym 59 :: tok_line l
  end
with tok_pipeline (p : pipeline) : list tok :=
  match p with
  | PEnd x => tok_simple x
  | PPipe x p => tok_simple x ++ TSym 124 :: tok_pipeline p
  end
with tok_simple (x : simple) : list tok :=
  match x with
  | Simple pre args => tok_redirs pre ++ tok_args args
  | Block l rs => TSym 40 :: tok_line l ++ TSym 41 :: tok_redirs rs
  end.

Definition rd_mode (rd : redir) : Z :=
  match rd_kind rd with
  | RIn => O_RDONLY
  | ROut => Z.lor (Z.lor O_WRONLY O_CREATE) O_TRUNC
  | RApp => Z.lor O_WRONLY O_CREATE
  end.
Definition rd_fd (rd : redir) : Z := match rd_kind rd with RIn => 0 | _ => 1 end.

(** Redirections apply from the right: the last one is the outermost. *)
Definition redirect (c : cmd) (rd : redir) : cmd := CRedir c (rd_file rd) (rd_mode rd) (rd_fd rd).

Fixpoint cmd_line (l : line) : cmd :=
  match l with
  | LEnd p n => Nat.iter n CBack (cmd_pipeline p)
  | LSeq p n l => CList (Nat.iter n CBack (cmd_pipeline p)) (cmd_line l)
  end
with cmd_pipeline (p : pipeline) : cmd :=
  match p with
  | PEnd x => cmd_simple x
  | PPipe x p => CPipe (cmd_simple x) (cmd_pipeline p)
  end
with cmd_simple (x : simple) : cmd :=
  match x with
  | Simple pre args => foldl redirect (CExec args.*1) (pre ++ concat args.*2)
  | Block l rs => foldl redirect (cmd_line l) rs
  end.

(** No command has more words than [argv] takes. *)
Fixpoint fits_line (l : line) : bool :=
  match l with
  | LEnd p _ => fits_pipeline p
  | LSeq p _ l => fits_pipeline p && fits_line l
  end
with fits_pipeline (p : pipeline) : bool :=
  match p with
  | PEnd x => fits_simple x
  | PPipe x p => fits_simple x && fits_pipeline p
  end
with fits_simple (x : simple) : bool :=
  match x with
  | Simple _ args => (length args <? MAXARGS)%nat
  | Block l _ => fits_line l
  end.

Lemma size_redirect c rs : cmd_size (foldl redirect c rs) = (cmd_size c + length rs)%nat.
Proof. revert c. induction rs as [|rd rs IH]; intros c; cbn [foldl length]; [lia|]. rewrite IH. cbn [redirect cmd_size]. lia. Qed.

Lemma size_back c n : cmd_size (Nat.iter n CBack c) = (cmd_size c + n)%nat.
Proof. induction n as [|n IH]; [cbn; lia|]. rewrite Nat.iter_succ. cbn [cmd_size]. lia. Qed.

Lemma length_tok_redirs rs : length (tok_redirs rs) = (2 * length rs)%nat.
Proof. induction rs as [|rd rs IH]; [done|]. unfold tok_redirs in *. cbn [mbind list_bind tok_redir app length] in *. lia. Qed.

(** ** What may follow *)

Definition follows (set : list Z) (ts : list tok) : Prop :=
  match ts with [] => True | TSym c :: _ => c ∈ set | _ => False end.

Lemma follows_not set toks ts : follows set ts → Forall (λ c, in_set toks c = false) set → starts_with toks ts = false.
Proof.
  intros H Hs. destruct ts as [|[w|c|] ts]; [done|done| |done]. cbn. rewrite Forall_forall in Hs. by apply Hs.
Qed.

Lemma follows_yes set toks ts : follows set ts → Forall (λ c, in_set toks c = true) set →
  ts = [] ∨ starts_with toks ts = true.
Proof.
  intros H Hs. destruct ts as [|[w|c|] ts]; [by left|done| |done]. right. cbn. rewrite Forall_forall in Hs. by apply Hs.
Qed.

Lemma follows_sub set set' ts : follows set ts → set ⊆ set' → follows set' ts.
Proof. intros H Hs. destruct ts as [|[w|c|] ts]; [done|done| |done]. by apply Hs. Qed.

(** Decide the membership of the concrete characters of a concrete set. *)
Ltac chars := vm_compute; repeat (first [constructor|reflexivity|progress (intros ?)|set_solver]).

(** The tokens [ts] do not begin with a symbol of [toks], whatever their words are. *)
Lemma word_not_symbol toks w : Forall (λ x, x ∈ symbols) toks → Forall wordchar w → starts_with toks [TWord w] = false.
Proof.
  intros Ht Hw. cbn. assert (Forall (λ x, x ≠ 0) toks) as Hnz.
  { eapply Forall_impl; [exact Ht|]. intros x Hx ->. pose proof symbols_nz as H. rewrite Forall_forall in H. by apply (H 0). }
  destruct w as [|c w]; cbn; [unfold in_set; by rewrite strchr_nul|]. apply Forall_cons in Hw as [(Hc & _ & Hs) _].
  rewrite in_set_spec by done. apply bool_decide_false. intros Hin. rewrite Forall_forall in Ht. by apply Hs, Ht.
Qed.

(** A token takes at least one character. *)
Lemma spells_length ts txt : spells ts txt → (length ts ≤ length txt)%nat.
Proof.
  induction 1 as [| | | |ws w ts r Hws Hw]; cbn [length]; rewrite ?length_app; cbn [length]; rewrite ?length_app; try lia.
  destruct w; [done|]. cbn [length]. lia.
Qed.

Lemma spells_nz ts txt : spells ts txt → Forall (λ c, c ≠ 0) txt.
Proof.
  assert (∀ ws, Forall blank ws → Forall (λ c, c ≠ 0) ws) as Hb by (intros ws Hw; eapply Forall_impl; [exact Hw|apply blank_nz]).
  induction 1 as [ws Hws|ws c ts r Hws Hc Hc' Hr IH|ws ts r Hws Hr0 Hr IH|ws ts r Hws Hr IH|ws w ts r Hws Hw Hwc Hr0 Hr IH].
  - by apply Hb.
  - apply Forall_app; split; [by apply Hb|]. constructor; [|done]. pose proof symbols_nz as H. rewrite Forall_forall in H. by apply H.
  - apply Forall_app; split; [by apply Hb|]. by constructor.
  - apply Forall_app; split; [by apply Hb|]. by repeat constructor.
  - apply Forall_app; split; [by apply Hb|]. apply Forall_app; split; [|done]. eapply Forall_impl; [exact Hwc|]. by intros c [].
Qed.

Definition tok_ok (t : tok) : Prop := match t with TWord w => Forall wordchar w | _ => True end.

Lemma spells_ok ts txt : spells ts txt → Forall tok_ok ts.
Proof. induction 1; by constructor. Qed.

Lemma word_start w ts toks : tok_ok (TWord w) → Forall (λ x, x ∈ symbols) toks → starts_with toks (TWord w :: ts) = false.
Proof. intros Hw Ht. by apply word_not_symbol. Qed.

(** The end of a command. *)
Definition args_follow : list Z := [124; 41; 38; 59].

(** Neither a word nor what follows a command is a redirection. *)
Lemma args_start args ts : Forall tok_ok (tok_args args) → follows args_follow ts → starts_with (bytes_of "<>") (tok_args args ++ ts) = false.
Proof.
  intros Hs Hf. destruct args as [|[w rs] args]; [apply (follows_not _ _ _ Hf); chars|].
  apply Forall_cons in Hs as [Hw _]. apply word_start; [exact Hw|chars].
Qed.
