(* ===== verification/ShParse.v ===== *)
(** * ShParse: the shell's parser against the grammar of command lines

    The recursive-descent parser turns every spelling of the tokens of a command
    line into the command that the line means, and [runcmd] runs that command. *)

From S2P Require Import Prelude Bytes User ULib UPrintf UProgs Sh ShLex ShTree ShGram.

(** [r] is reached from [p] through the REDIR nodes of [rs]. *)
Inductive rchain (word : nat → nat → list Z → Prop) (cells : list cnode) (p : nat) : nat → list redir → Prop :=
| rchain_nil : rchain word cells p p []
| rchain_snoc r rs r' q eq rd :
    rchain word cells p r rs → (p ≤ r < r')%nat → cells !! r' = Some (REDIR (Some r) q eq (rd_mode rd) (rd_fd rd)) →
    word q eq (rd_file rd) → rchain word cells p r' (rs ++ [rd]).

Section Chains.
Context (word : nat → nat → list Z → Prop).

Lemma rchain_le cells p r rs : rchain word cells p r rs → (p ≤ r)%nat.
Proof. induction 1; lia. Qed.

Lemma rchain_trans cells p r rs r' rs' : rchain word cells p r rs → rchain word cells r r' rs' → rchain word cells p r' (rs ++ rs').
Proof.
  intros H1 H2. pose proof (rchain_le _ _ _ _ H1). induction H2 as [|r' rs' r'' q eq rd H2 IH Hr Hc Hw]; [by rewrite app_nil_r|].
  rewrite app_assoc. econstructor; [done|lia|done|done].
Qed.

Lemma rchain_cells cells cells' p r rs : (∀ i x, (p < i)%nat → cells !! i = Some x → cells' !! i = Some x) →
  rchain word cells p r rs → rchain word cells' p r rs.
Proof. intros Hc. induction 1 as [|r rs r' q eq rd H IH Hr Hc' Hw]; [constructor|]. econstructor; [done|done| |done]. apply Hc; [lia|done]. Qed.

Lemma rchain_grow cells k p r rs : rchain word cells p r rs → rchain word (cells ++ k) p r rs.
Proof. apply rchain_cells. intros i x _. apply lookup_app_l_Some. Qed.

Lemma rchain_lt cells p r rs : rchain word cells p r rs → (p < length cells)%nat → (r < length cells)%nat.
Proof. intros [|????????] Hp; [done|]. by eapply lookup_lt_Some. Qed.

Lemma rchain_rep cells p c r rs : rep word cells p c → rchain word cells p r rs → rep word cells r (foldl redirect c rs).
Proof.
  intros Hp. induction 1 as [|r rs r' q eq rd H IH Hr Hc Hw]; [done|]. rewrite foldl_app. cbn [foldl]. unfold redirect at 1.
  econstructor; [done|lia|done|done].
Qed.
End Chains.

Lemma arg_ptrs_Forall3 word qs eqs ws argv eargv : Forall3 word qs eqs ws →
  arg_ptrs word ((Some <$> qs) ++ None :: argv) ((Some <$> eqs) ++ eargv) ws.
Proof. induction 1; cbn; constructor; done. Qed.

Section Parse.
Context {S : Type} `{!Sys S}.
Context (text junk : list Z).
Hypothesis Htext : Forall (λ c, c ≠ 0) text.
Hypothesis Hlen : Z.of_nat (length text) < 2 ^ 31.
Notation buf := (text ++ 0 :: junk).
Notation es := (length text).
Notation wrd := (word_at buf).
Notation at_tok := (at_tokens text).
Implicit Types (e : list (S → S)) (u : S).

Lemma at_tokens_length s ts : at_tok s ts → (length ts ≤ es)%nat.
Proof. intros [Hs H]. apply spells_length in H. rewrite length_drop in H. lia. Qed.

Lemma peek_run nd s ts toks : at_tok s ts → bytes_of toks = [] ∨ Forall (λ x, x ∈ symbols) (bytes_of toks) →
  ∃ s', peek_ buf es (PState nd s) toks = (starts_with (bytes_of toks) ts, PState nd s') ∧ at_tok s' ts ∧ (ts = [] → s' = es).
Proof.
  intros Hs Ht. destruct (peek_spec text junk Htext s ts _ Hs Ht) as (s' & E & Ha & He & _).
  exists s'. split_and!; [|done|done]. unfold peek_. cbn [ps_s ps_nodes]. by rewrite E.
Qed.

Lemma gettoken_run nd s t ts : at_tok s (t :: ts) →
  ∃ q eq s', gettoken_ buf es (PState nd s) = (Token (kind t) q eq s', PState nd s') ∧ at_tok s' ts ∧ (∀ w, t = TWord w → wrd q eq w).
Proof.
  intros Hs. destruct (gettoken_spec text junk Htext s t ts Hs) as (q & eq & s' & E & Ha & _ & _ & _ & Hw).
  exists q, eq, s'. split_and!; [|done|done]. unfold gettoken_. cbn [ps_s ps_nodes]. by rewrite E.
Qed.

Lemma new_node_run cells room s c e u : (0 < room)%nat →
  new_node (PState (Nodes cells room) s) c e u = Ret (Some (length cells), PState (Nodes (cells ++ [c]) (room - 1)) s) e u.
Proof. intros Hr. unfold new_node. cbn [ps_nodes nd_room nd_cells ps_s]. destruct room as [|room]; [lia|]. by rewrite Nat.sub_1_r. Qed.

(** ** Redirections *)

Lemma parseredirs_run rs cells room s r ts e u :
  at_tok s (tok_redirs rs ++ ts) → starts_with (bytes_of "<>") ts = false → (length rs ≤ room)%nat → (r < length cells)%nat →
  ∃ new r' s', parseredirs buf es (Some r) (PState (Nodes cells room) s) e u
      = Ret (Some r', PState (Nodes (cells ++ new) (room - length new)) s') e u ∧
    length new = length rs ∧ at_tok s' ts ∧ rchain wrd (cells ++ new) r r' rs.
Proof.
  intros Hs Hts Hroom Hr. unfold parseredirs.
  match goal with |- context [while_ ?f] => set (step := f) end.
  assert (∃ new r' s', runs step (Some r, PState (Nodes cells room) s) e u (Z.of_nat (length rs) + 1)
      (Some r', PState (Nodes (cells ++ new) (room - length new)) s') e u ∧
    length new = length rs ∧ at_tok s' ts ∧ rchain wrd (cells ++ new) r r' rs) as (new & r' & s' & Hruns & H).
  { revert cells room s r Hs Hroom Hr. induction rs as [|rd rs IH]; intros cells room s r Hs Hroom Hr.
    - destruct (peek_run (Nodes cells room) s ts "<>" Hs) as (s' & E & Ha & _); [right; chars|]. rewrite Hts in E.
      exists [], r, s'. rewrite app_nil_r, Nat.sub_0_r. split_and!; [|done|done|constructor].
      apply runs_done. unfold step. cbv beta. by rewrite E.
    - cbn [length] in *. destruct rd as [k w].
      pose proof Hs as Hs0. unfold tok_redirs in Hs0. cbn [mbind list_bind tok_redir rd_kind rd_file app] in Hs0.
      destruct (peek_run (Nodes cells room) s _ "<>" Hs0) as (s1 & E1 & Ha1 & _); [right; chars|].
      destruct (gettoken_run (Nodes cells room) s1 _ _ Ha1) as (q1 & eq1 & s2 & E2 & Ha2 & _).
      destruct (gettoken_run (Nodes cells room) s2 _ _ Ha2) as (q & eq & s3 & E3 & Ha3 & Hw). specialize (Hw w eq_refl).
      set (c := REDIR (Some r) q eq (rd_mode (Redir k w)) (rd_fd (Redir k w))).
      destruct (IH (cells ++ [c]) (room - 1)%nat s3 (length cells) Ha3) as (new & r' & s' & R & Hn & Ha & Hc); [lia|rewrite length_app; cbn; lia|].
      exists (c :: new), r', s'. rewrite <- app_assoc in R, Hc. cbn [app] in R, Hc. split_and!; [| cbn; lia|done|].
      + replace (Z.of_nat (Datatypes.S (length rs)) + 1) with (Z.of_nat (length rs) + 1 + 1) by lia.
        replace (room - length (c :: new))%nat with (room - 1 - length new)%nat by (cbn [length]; lia).
        eapply runs_step; [|exact R]. unfold step. cbv beta. rewrite E1. destruct k; cbn [rd_kind starts_with first_char].
        all: match goal with |- context [in_set ?a ?b] => change (in_set a b) with true end.
        all: cbv beta iota; rewrite E2; cbn [tk_ret]; rewrite E3; cbn [tk_ret tk_q tk_eq kind Z.eqb Pos.eqb negb].
        all: etrans; [exact (bind_Ret _ _ _ _ _ _ _ (new_node_run cells room s3 c e u ltac:(lia)))|done].
      + change (Redir k w :: rs) with ([Redir k w] ++ rs). eapply rchain_trans; [|exact Hc].
        apply (rchain_snoc _ _ _ r [] (length cells) q eq (Redir k w)); [constructor|lia| |done].
        by rewrite list_lookup_middle. }
  exists new, r', s'. split; [|done]. apply (while_runs _ _ _ _ _ _ _ _ Hruns).
  apply at_tokens_length in Hs. rewrite length_app, length_tok_redirs in Hs. lia.
Qed.

(** ** Arguments *)

(** The pointers of the words read so far, in an array of [MAXARGS]. *)
Definition ptrs (qs : list nat) : list (option nat) := (Some <$> qs) ++ replicate (MAXARGS - length qs) None.

Lemma ptrs_insert qs q : (length qs < MAXARGS)%nat → <[length qs := Some q]> (ptrs qs) = ptrs (qs ++ [q]).
Proof.
  intros H. unfold ptrs. rewrite length_app. cbn [length]. replace (MAXARGS - length qs)%nat with (Datatypes.S (MAXARGS - (length qs + 1))) by lia.
  cbn [replicate]. rewrite fmap_app, <- app_assoc. cbn [fmap list_fmap app].
  rewrite <- (Nat.add_0_r (length qs)), insert_app_r_alt, length_fmap by (rewrite length_fmap; lia).
  by replace (length qs + 0 - length qs)%nat with 0%nat by lia.
Qed.

Lemma ptrs_end qs : (length qs < MAXARGS)%nat → <[length qs := None]> (ptrs qs) = ptrs qs.
Proof.
  intros H. apply list_insert_id. unfold ptrs. rewrite lookup_app_r; rewrite length_fmap; [|lia].
  rewrite Nat.sub_diag. by apply lookup_replicate_2; lia.
Qed.

Lemma set_arg_run pre argv eargv post room s i q eq e u : (i < MAXARGS)%nat →
  set_arg (PState (Nodes (pre ++ EXEC argv eargv :: post) room) s) (Some (length pre)) i q eq e u =
    Ret (PState (Nodes (pre ++ EXEC (<[i := q]> argv) (<[i := eq]> eargv) :: post) room) s) e u.
Proof.
  intros Hi. unfold set_arg. cbn [ps_nodes nd_cells mbind option_bind nd_room ps_s].
  rewrite list_lookup_middle by done. cbn [mbind option_bind].
  assert ((i <? MAXARGS)%nat = true) as -> by (by apply Nat.ltb_lt).
  rewrite <- (Nat.add_0_r (length pre)) at 1. rewrite insert_app_r. done.
Qed.

Lemma redirs_size (args : list (list Z * list redir)) a :
  length (concat (a :: args).*2) = (length a.2 + length (concat args.*2))%nat.
Proof. cbn [fmap list_fmap concat]. by rewrite length_app. Qed.

Lemma at_tokens_ok s ts : at_tok s ts → Forall tok_ok ts.
Proof. intros [_ Hs]. by eapply spells_ok. Qed.

Definition args_step (cmd : option nat) : option nat * nat * pstate → KM S (option nat * nat * pstate + option nat * nat * pstate) :=
  λ '(ret, argc, st),
    let '(b, st) := peek_ buf es st "|)&;" in
    if b : bool then mret (inr (ret, argc, st))
    else
      let '(t, st) := gettoken_ buf es st in
      if tk_ret t =? 0 then mret (inr (ret, argc, st))
      else
        (if negb (tk_ret t =? 97) then Sh.panic "syntax" else mret ());;
        st ← set_arg st cmd argc (Some (tk_q t)) (Some (tk_eq t));
        let argc := (argc + 1)%nat in
        (if (MAXARGS <=? argc)%nat then Sh.panic "too many args" else mret ());;
        '(ret, st) ← parseredirs buf es ret st;
        mret (inl (ret, argc, st)).

(** The state of the loop: [qs], [eqs] hold the words [ws] read so far. *)
Definition args_state (pre : list cnode) (qs eqs : list nat) (ws : list (list Z)) (post : list cnode) (r : nat) (rs : list redir) : Prop :=
  Forall3 wrd qs eqs ws ∧ rchain wrd (pre ++ EXEC (ptrs qs) (ptrs eqs) :: post) (length pre) r rs.

Lemma args_done cmd nd s r n ts e u : at_tok s ts → follows args_follow ts →
  ∃ s', args_step cmd (r, n, PState nd s) e u = Ret (inr (r, n, PState nd s')) e u ∧ at_tok s' ts.
Proof.
  intros Hs Hf. destruct (peek_run nd s ts "|)&;" Hs) as (s1 & E1 & Ha1 & _); [right; chars|].
  unfold args_step. rewrite E1. destruct (follows_yes _ (bytes_of "|)&;") _ Hf) as [->|Hy]; [chars| |].
  - destruct (gettoken_end text junk s1 Ha1) as (q & eq & s2 & E2 & Ha2). exists s2. split; [|done].
    cbn [starts_with]. unfold gettoken_. cbn [ps_s ps_nodes]. rewrite E2. done.
  - exists s1. by rewrite Hy.
Qed.

Lemma args_word pre qs eqs ws post room s r rs w rs' ts e u :
  at_tok s (TWord w :: tok_redirs rs' ++ ts) → starts_with (bytes_of "<>") ts = false →
  args_state pre qs eqs ws post r rs → (length ws + 1 < MAXARGS)%nat → (length rs' ≤ room)%nat →
  ∃ q eq new r' s', args_step (Some (length pre)) (Some r, length ws, PState (Nodes (pre ++ EXEC (ptrs qs) (ptrs eqs) :: post) room) s) e u
      = Ret (inl (Some r', (length ws + 1)%nat, PState (Nodes (pre ++ EXEC (ptrs (qs ++ [q])) (ptrs (eqs ++ [eq])) :: post ++ new) (room - length new)) s')) e u ∧
    length new = length rs' ∧ at_tok s' ts ∧ args_state pre (qs ++ [q]) (eqs ++ [eq]) (ws ++ [w]) (post ++ new) r' (rs ++ rs').
Proof.
  intros Hs Hts [H3 Hc] Hn Hroom. pose proof (Forall3_length_lm _ _ _ _ H3) as Hl1. pose proof (Forall3_length_lr _ _ _ _ H3) as Hl2.
  set (nd := Nodes (pre ++ EXEC (ptrs qs) (ptrs eqs) :: post) room).
  destruct (peek_run nd s _ "|)&;" Hs) as (s1 & E1 & Ha1 & _); [right; chars|].
  pose proof (at_tokens_ok _ _ Hs) as Hok. apply Forall_cons in Hok as [Hok _]. rewrite word_start in E1 by (done || chars).
  destruct (gettoken_run nd s1 _ _ Ha1) as (q & eq & s2 & E2 & Ha2 & Hw). specialize (Hw w eq_refl).
  assert (rchain wrd (pre ++ EXEC (ptrs (qs ++ [q])) (ptrs (eqs ++ [eq])) :: post) (length pre) r rs) as Hc'.
  { eapply rchain_cells; [|exact Hc]. intros i x Hi. rewrite !lookup_app_r by lia. by destruct (i - length pre)%nat eqn:E; [lia|]. }
  destruct (parseredirs_run rs' (pre ++ EXEC (ptrs (qs ++ [q])) (ptrs (eqs ++ [eq])) :: post) room s2 r ts e u Ha2 Hts Hroom)
    as (new & r' & s' & E3 & Hnew & Ha & Hr').
  { apply (rchain_lt _ _ _ _ _ Hc'). rewrite length_app. cbn. lia. }
  exists q, eq, new, r', s'. rewrite <- app_assoc in E3, Hr'. cbn [app] in E3, Hr'. split_and!; [|done|done|split].
  - unfold args_step. rewrite E1. cbv beta iota. rewrite E2. cbn [tk_ret tk_q tk_eq kind Z.eqb Pos.eqb negb].
    unfold nd. rewrite mret_bind.
    rewrite (bind_Ret _ _ _ _ _ _ _ (set_arg_run pre _ _ post room s2 (length ws) (Some q) (Some eq) e u ltac:(lia))).
    assert (∀ l x, length l = length ws → <[length ws := Some x]> (ptrs l) = ptrs (l ++ [x])) as Hins by (intros l x El; rewrite <- El; apply ptrs_insert; lia).
    rewrite !Hins by congruence.
    assert ((MAXARGS <=? length ws + 1)%nat = false) as -> by (apply Nat.leb_gt; lia). rewrite mret_bind. run E3. reflexivity.
  - apply Forall3_app; [done|]. constructor; [exact Hw|constructor].
  - eapply rchain_trans; [|exact Hr']. apply (rchain_grow _ _ new) in Hc'. by rewrite <- app_assoc in Hc'.
Qed.

Lemma args_loop args pre qs eqs ws post room s r rs ts e u :
  at_tok s (tok_args args ++ ts) → follows args_follow ts → args_state pre qs eqs ws post r rs →
  (length ws + length args < MAXARGS)%nat → (length (concat args.*2) ≤ room)%nat →
  ∃ qs' eqs' new r' s', runs (args_step (Some (length pre))) (Some r, length ws, PState (Nodes (pre ++ EXEC (ptrs qs) (ptrs eqs) :: post) room) s) e u
      (Z.of_nat (length args) + 1)
      (Some r', (length ws + length args)%nat, PState (Nodes (pre ++ EXEC (ptrs qs') (ptrs eqs') :: post ++ new) (room - length new)) s') e u ∧
    length new = length (concat args.*2) ∧ at_tok s' ts ∧ args_state pre qs' eqs' (ws ++ args.*1) (post ++ new) r' (rs ++ concat args.*2).
Proof.
  revert qs eqs ws post room s r rs. induction args as [|[w rs'] args IH]; intros qs eqs ws post room s r rs Hs Hf Hst Hn Hroom.
  - destruct (args_done (Some (length pre)) (Nodes (pre ++ EXEC (ptrs qs) (ptrs eqs) :: post) room) s (Some r) (length ws) ts e u Hs Hf) as (s' & E & Ha).
    exists qs, eqs, [], r, s'. cbn [fmap list_fmap concat length]. rewrite !app_nil_r, Nat.sub_0_r, Nat.add_0_r. split_and!; [by apply runs_done|done|done|done].
  - rewrite redirs_size in *. cbn [length snd fst] in *. unfold tok_args in Hs. cbn [mbind list_bind fst snd app] in Hs. rewrite <- app_assoc in Hs.
    assert (starts_with (bytes_of "<>") (tok_args args ++ ts) = false) as Hts.
    { apply at_tokens_ok in Hs. apply Forall_cons in Hs as [_ Hs]. apply Forall_app in Hs as [_ Hs]. rewrite Forall_app in Hs. apply args_start; [by destruct Hs|done]. }
    destruct (args_word pre qs eqs ws post room s r rs w rs' _ e u Hs Hts Hst ltac:(lia) ltac:(lia)) as (q & eq & new & r1 & s1 & E & Hnew & Ha & Hst1).
    assert (length (ws ++ [w]) = (length ws + 1)%nat) as Hl by (by rewrite length_app).
    destruct (IH _ _ _ _ (room - length new)%nat s1 _ _ Ha Hf Hst1) as (qs' & eqs' & new2 & r' & s' & R & Hn2 & Ha' & Hst'); [lia|lia|].
    exists qs', eqs', (new ++ new2), r', s'. rewrite !length_app, Hl in *. cbn [fmap list_fmap fst concat].
    rewrite !app_assoc. rewrite <- !app_assoc in Hst'. cbn [app] in Hst'. rewrite <- !app_assoc. split_and!; [|lia|done|done].
    rewrite <- app_assoc in R. replace (Z.of_nat (Datatypes.S (length args)) + 1) with (Z.of_nat (length args) + 1 + 1) by lia.
    eapply runs_step; [exact E|]. replace (length ws + Datatypes.S (length args))%nat with (length ws + 1 + length args)%nat by lia.
    by rewrite Nat.sub_add_distr.
Qed.

(** ** Commands *)

(** The parser [m] reads the command [c], and is then at the tokens [ts]. *)
Definition parsed (m : pstate → KM S (option nat * pstate)) (cells : list cnode) (room s : nat) (ts : list tok) (c : cmd) e u : Prop :=
  ∃ new r s', m (PState (Nodes cells room) s) e u = Ret (Some r, PState (Nodes (cells ++ new) (room - length new)) s') e u ∧
    length new = cmd_size c ∧ at_tok s' ts ∧ rep wrd (cells ++ new) r c.

Lemma tok_simple_start pre args ts : Forall tok_ok (tok_redirs pre ++ tok_args args) → follows args_follow ts →
  starts_with (bytes_of "(") (tok_redirs pre ++ tok_args args ++ ts) = false.
Proof.
  intros Hok Hf. destruct pre as [|[[] w] pre]; [|done..]. destruct args as [|[w rs] args]; [apply (follows_not _ _ _ Hf); chars|].
  apply Forall_cons in Hok as [Hok _]. apply word_start; [exact Hok|chars].
Qed.

Lemma parse_simple pre args fuel cells room s ts e u :
  at_tok s (tok_simple (Simple pre args) ++ ts) → follows args_follow ts → (length args < MAXARGS)%nat →
  (cmd_size (cmd_simple (Simple pre args)) ≤ room)%nat → (1 ≤ fuel)%nat →
  parsed (parseexec buf es fuel) cells room s ts (cmd_simple (Simple pre args)) e u.
Proof.
  intros Hs Hf Hfit Hroom Hfuel. cbn [tok_simple cmd_simple] in *. rewrite <- app_assoc in Hs. rewrite size_redirect, length_app in Hroom. cbn [cmd_size] in Hroom.
  destruct fuel as [|fuel]; [lia|]. pose proof (at_tokens_ok _ _ Hs) as Hok. rewrite app_assoc in Hok. apply Forall_app in Hok as [Hok _].
  destruct (peek_run (Nodes cells room) s _ "(" Hs) as (s1 & E1 & Ha1 & _); [right; chars|]. rewrite tok_simple_start in E1 by done.
  set (x := EXEC (ptrs []) (ptrs [])).
  pose proof (new_node_run cells room s1 x e u ltac:(lia)) as E2.
  destruct (parseredirs_run pre (cells ++ [x]) (room - 1) s1 (length cells) _ e u Ha1) as (new1 & r1 & s2 & E3 & Hn1 & Ha2 & Hc1).
  { apply args_start; [|done]. by apply Forall_app in Hok as [_ Hok]. } { lia. } { rewrite length_app. cbn. lia. }
  rewrite <- app_assoc in E3, Hc1. cbn [app] in E3, Hc1.
  destruct (args_loop args cells [] [] [] new1 (room - 1 - length new1) s2 r1 pre ts e u Ha2 Hf) as (qs & eqs & new2 & r & s3 & R & Hn2 & Ha3 & H3 & Hc3);
    [by split; [constructor|]|cbn [length]; lia|lia|].
  cbn [app length] in R, H3.
  pose proof (Forall3_length_lm _ _ _ _ H3) as Hl1. pose proof (Forall3_length_lr _ _ _ _ H3) as Hl2. rewrite length_fmap in Hl2.
  exists (EXEC (ptrs qs) (ptrs eqs) :: new1 ++ new2), r, s3. split_and!; [| |done|].
  - cbn [parseexec]. rewrite E1. cbv beta iota. unfold execcmd. change (replicate MAXARGS None) with (ptrs []). run E2. run E3.
    unfold parse_args. fold (args_step (Some (length cells))).
    rewrite (bind_Ret _ _ _ _ _ _ _ (while_runs _ _ _ _ _ _ _ _ R ltac:(unfold MAXARGS in Hfit; lia))).
    rewrite (bind_Ret _ _ _ _ _ _ _ (set_arg_run cells _ _ (new1 ++ new2) _ s3 (length args) None None e u Hfit)).
    rewrite <- Hl2, ptrs_end, Hl1, ptrs_end by lia. unfold mret, KM_ret. do 4 f_equal. cbn [length]. rewrite length_app. lia.
  - cbn [length]. rewrite size_redirect, !length_app. cbn [cmd_size]. lia.
  - apply (rchain_rep _ _ (length cells)); [|exact Hc3]. eapply rep_exec; [by rewrite list_lookup_middle|].
    unfold ptrs. rewrite <- Hl1. replace (MAXARGS - length qs)%nat with (Datatypes.S (MAXARGS - length qs - 1)) by lia. by apply arg_ptrs_Forall3.
Qed.

(** The loop on '&'. *)
Lemma back_loop n cells room s r c ts e u :
  at_tok s (replicate n (TSym 38) ++ ts) → follows [41; 59] ts → (n ≤ room)%nat → rep wrd cells r c →
  ∃ new r' s', while_ (λ '(cmd, st),
        let '(b, st) := peek_ buf es st "&" in
        if b : bool then
          let '(_, st) := gettoken_ buf es st in
          r ← backcmd st cmd;
          mret (inl r)
        else mret (inr (cmd, st))) (Some r, PState (Nodes cells room) s) e u
      = Ret (Some r', PState (Nodes (cells ++ new) (room - length new)) s') e u ∧
    length new = n ∧ at_tok s' ts ∧ rep wrd (cells ++ new) r' (Nat.iter n CBack c).
Proof.
  intros Hs Hf Hroom Hr.
  match goal with |- context [while_ ?f] => set (step := f) end.
  assert (∃ new r' s', runs step (Some r, PState (Nodes cells room) s) e u (Z.of_nat n + 1)
      (Some r', PState (Nodes (cells ++ new) (room - length new)) s') e u ∧
    length new = n ∧ at_tok s' ts ∧ rep wrd (cells ++ new) r' (Nat.iter n CBack c)) as (new & r' & s' & Hruns & H).
  { revert cells room s r c Hs Hroom Hr. induction n as [|n IH]; intros cells room s r c Hs Hroom Hr.
    - cbn [replicate app] in Hs. destruct (peek_run (Nodes cells room) s ts "&" Hs) as (s1 & E1 & Ha1 & _); [right; chars|].
      rewrite (follows_not _ _ _ Hf) in E1 by chars. exists [], r, s1. rewrite app_nil_r, Nat.sub_0_r. split_and!; [|done|done|done].
      apply runs_done. unfold step. by rewrite E1.
    - cbn [replicate app] in Hs. destruct (peek_run (Nodes cells room) s _ "&" Hs) as (s1 & E1 & Ha1 & _); [right; chars|].
      destruct (gettoken_run (Nodes cells room) s1 _ _ Ha1) as (q & eq & s2 & E2 & Ha2 & _).
      destruct (IH (cells ++ [BACK (Some r)]) (room - 1)%nat s2 (length cells) (CBack c) Ha2) as (new & r' & s' & R & Hn & Ha & Hr'); [lia| |].
      { eapply rep_back; [by rewrite list_lookup_middle|by eapply rep_lt|by apply rep_grow]. }
      exists (BACK (Some r) :: new), r', s'. rewrite <- app_assoc in R, Hr'. split_and!; [|cbn; lia|done|by rewrite Nat.iter_succ_r].
      replace (Z.of_nat (Datatypes.S n) + 1) with (Z.of_nat n + 1 + 1) by lia. cbn [length].
      replace (room - Datatypes.S (length new))%nat with (room - 1 - length new)%nat by lia.
      eapply runs_step; [|exact R]. unfold step. rewrite E1. change (starts_with _ _) with true. cbv beta iota. rewrite E2.
      unfold backcmd. by run (new_node_run cells room s2 (BACK (Some r)) e u ltac:(lia)). }
  exists new, r', s'. split; [|done]. apply (while_runs _ _ _ _ _ _ _ _ Hruns).
  apply at_tokens_length in Hs. rewrite length_app, length_replicate in Hs. lia.
Qed.

(** ** Lines *)

Definition line_spec (l : line) : Prop := ∀ fuel cells room s ts e u,
  at_tok s (tok_line l ++ ts) → follows [41] ts → fits_line l = true → (cmd_size (cmd_line l) ≤ room)%nat →
  (4 * length (tok_line l) + 4 ≤ fuel)%nat → parsed (parseline buf es fuel) cells room s ts (cmd_line l) e u.

Definition pipeline_spec (p : pipeline) : Prop := ∀ fuel cells room s ts e u,
  at_tok s (tok_pipeline p ++ ts) → follows [41; 38; 59] ts → fits_pipeline p = true → (cmd_size (cmd_pipeline p) ≤ room)%nat →
  (4 * length (tok_pipeline p) + 3 ≤ fuel)%nat → parsed (parsepipe buf es fuel) cells room s ts (cmd_pipeline p) e u.

Definition simple_spec (x : simple) : Prop := ∀ fuel cells room s ts e u,
  at_tok s (tok_simple x ++ ts) → follows args_follow ts → fits_simple x = true → (cmd_size (cmd_simple x) ≤ room)%nat →
  (4 * length (tok_simple x) + 2 ≤ fuel)%nat → parsed (parseexec buf es fuel) cells room s ts (cmd_simple x) e u.

Lemma follows_backs n ts : follows [41; 59] ts → follows [41; 38; 59] (replicate n (TSym 38) ++ ts).
Proof. intros Hf. destruct n as [|n]; [|cbn; set_solver]. eapply follows_sub; [exact Hf|set_solver]. Qed.

(** A pipeline and the '&'s after it. *)
Definition pipe_backs (fuel : nat) (st : pstate) : KM S (option nat * pstate) :=
  '(cmd, st) ← parsepipe buf es fuel st;
  while_ (λ '(cmd, st),
    let '(b, st) := peek_ buf es st "&" in
    if b : bool then
      let '(_, st) := gettoken_ buf es st in
      r ← backcmd st cmd;
      mret (inl r)
    else mret (inr (cmd, st))) (cmd, st).

Lemma parseline_S fuel st e u : parseline buf es (Datatypes.S fuel) st e u =
  ('(cmd, st) ← pipe_backs fuel st;
   let '(b, st) := peek_ buf es st ";" in
   if b : bool then
     let '(_, st) := gettoken_ buf es st in
     '(rcmd, st) ← parseline buf es fuel st;
     listcmd st cmd rcmd
   else mret (cmd, st)) e u.
Proof. unfold pipe_backs. cbn [parseline]. rewrite bind_bind. apply bind_ext. by intros [cmd st'] e' u'. Qed.

Lemma parse_backs p n fuel cells room s ts e u : pipeline_spec p →
  at_tok s (tok_pipeline p ++ replicate n (TSym 38) ++ ts) → follows [41; 59] ts → fits_pipeline p = true →
  (cmd_size (cmd_pipeline p) + n ≤ room)%nat → (4 * length (tok_pipeline p) + 3 ≤ fuel)%nat →
  parsed (pipe_backs fuel) cells room s ts (Nat.iter n CBack (cmd_pipeline p)) e u.
Proof.
  intros Hp Hs Hf Hfit Hroom Hfuel.
  destruct (Hp fuel cells room s _ e u Hs (follows_backs n ts Hf) Hfit ltac:(lia) Hfuel) as (new1 & r1 & s1 & E1 & Hn1 & Ha1 & Hr1).
  destruct (back_loop n (cells ++ new1) (room - length new1) s1 r1 _ ts e u Ha1 Hf ltac:(lia) Hr1) as (new2 & r & s2 & E2 & Hn2 & Ha2 & Hr).
  exists (new1 ++ new2), r, s2. rewrite app_assoc. split_and!; [|rewrite length_app, size_back; lia|done|done].
  unfold pipe_backs. run E1. rewrite E2. by rewrite length_app, Nat.sub_add_distr.
Qed.

Lemma parse_line_end p n : pipeline_spec p → line_spec (LEnd p n).
Proof.
  intros Hp fuel cells room s ts e u Hs Hf Hfit Hroom Hfuel. cbn [tok_line cmd_line fits_line] in *.
  rewrite length_app, length_replicate in Hfuel. rewrite size_back in Hroom. rewrite <- app_assoc in Hs. destruct fuel as [|fuel]; [lia|].
  destruct (parse_backs p n fuel cells room s ts e u Hp Hs) as (new & r & s1 & E1 & Hn & Ha1 & Hr); [eapply follows_sub; [exact Hf|set_solver]|done|lia|lia|].
  destruct (peek_run (Nodes (cells ++ new) (room - length new)) s1 ts ";" Ha1) as (s2 & E2 & Ha2 & _); [right; chars|].
  rewrite (follows_not _ _ _ Hf) in E2 by chars. exists new, r, s2. split_and!; [|done|done|done].
  rewrite parseline_S. run E1. rewrite E2. done.
Qed.

Lemma parse_line_seq p n l : pipeline_spec p → line_spec l → line_spec (LSeq p n l).
Proof.
  intros Hp Hl fuel cells room s ts e u Hs Hf Hfit Hroom Hfuel. cbn [tok_line cmd_line fits_line cmd_size] in *.
  rewrite !length_app, length_replicate in Hfuel. cbn [length] in Hfuel. rewrite size_back in Hroom. rewrite <- !app_assoc in Hs. cbn [app] in Hs.
  destruct fuel as [|fuel]; [lia|]. apply andb_true_iff in Hfit as [Hfit1 Hfit2].
  destruct (parse_backs p n fuel cells room s (TSym 59 :: tok_line l ++ ts) e u Hp Hs) as (new1 & r1 & s1 & E1 & Hn1 & Ha1 & Hr1); [cbn; set_solver|done|lia|lia|].
  rewrite size_back in Hn1.
  destruct (peek_run (Nodes (cells ++ new1) (room - length new1)) s1 _ ";" Ha1) as (s2 & E2 & Ha2 & _); [right; chars|].
  destruct (gettoken_run (Nodes (cells ++ new1) (room - length new1)) s2 _ _ Ha2) as (q & eq & s3 & E3 & Ha3 & _).
  destruct (Hl fuel (cells ++ new1) (room - length new1)%nat s3 ts e u Ha3 Hf Hfit2 ltac:(lia) ltac:(lia)) as (new2 & r2 & s4 & E4 & Hn2 & Ha4 & Hr2).
  exists (new1 ++ new2 ++ [LIST (Some r1) (Some r2)]), (length ((cells ++ new1) ++ new2)), s4. rewrite !app_assoc. split_and!; [| |done|].
  - rewrite parseline_S. run E1. rewrite E2. change (starts_with _ _) with true. cbv beta iota. rewrite E3. run E4.
    unfold listcmd. rewrite new_node_run by lia. unfold mret. do 4 f_equal. rewrite !length_app. cbn [length]. lia.
  - cbn [cmd_size]. rewrite !length_app, size_back. cbn [length]. lia.
  - apply rep_list with r1 r2; [by rewrite list_lookup_middle|apply rep_lt in Hr1; rewrite !length_app in *; lia|by apply rep_lt in Hr2|by do 2 apply rep_grow|by apply rep_grow].
Qed.

Lemma parse_pipe_end x : simple_spec x → pipeline_spec (PEnd x).
Proof.
  intros Hx fuel cells room s ts e u Hs Hf Hfit Hroom Hfuel. cbn [tok_pipeline cmd_pipeline fits_pipeline] in *. destruct fuel as [|fuel]; [lia|].
  destruct (Hx fuel cells room s ts e u Hs) as (new & r & s1 & E1 & Hn & Ha1 & Hr); [eapply follows_sub; [exact Hf|set_solver]|done|done|lia|].
  destruct (peek_run (Nodes (cells ++ new) (room - length new)) s1 ts "|" Ha1) as (s2 & E2 & Ha2 & _); [right; chars|].
  rewrite (follows_not _ _ _ Hf) in E2 by chars. exists new, r, s2. split_and!; [|done|done|done].
  cbn [parsepipe]. run E1. rewrite E2. done.
Qed.

Lemma parse_pipe_pipe x p : simple_spec x → pipeline_spec p → pipeline_spec (PPipe x p).
Proof.
  intros Hx Hp fuel cells room s ts e u Hs Hf Hfit Hroom Hfuel. cbn [tok_pipeline cmd_pipeline fits_pipeline cmd_size] in *.
  rewrite !length_app in Hfuel. cbn [length] in Hfuel. rewrite <- app_assoc in Hs. cbn [app] in Hs.
  destruct fuel as [|fuel]; [lia|]. apply andb_true_iff in Hfit as [Hfit1 Hfit2].
  destruct (Hx fuel cells room s _ e u Hs) as (new1 & r1 & s1 & E1 & Hn1 & Ha1 & Hr1); [cbn; set_solver|done|lia|lia|].
  destruct (peek_run (Nodes (cells ++ new1) (room - length new1)) s1 _ "|" Ha1) as (s2 & E2 & Ha2 & _); [right; chars|].
  destruct (gettoken_run (Nodes (cells ++ new1) (room - length new1)) s2 _ _ Ha2) as (q & eq & s3 & E3 & Ha3 & _).
  destruct (Hp fuel (cells ++ new1) (room - length new1)%nat s3 ts e u Ha3 Hf Hfit2 ltac:(lia) ltac:(lia)) as (new2 & r2 & s4 & E4 & Hn2 & Ha4 & Hr2).
  exists (new1 ++ new2 ++ [PIPE (Some r1) (Some r2)]), (length ((cells ++ new1) ++ new2)), s4. rewrite !app_assoc. split_and!; [| |done|].
  - cbn [parsepipe]. run E1. rewrite E2. change (starts_with _ _) with true. cbv beta iota. rewrite E3. run E4.
    unfold pipecmd. rewrite new_node_run by lia. do 4 f_equal. rewrite !length_app. cbn [length]. lia.
  - cbn [cmd_size]. rewrite !length_app. cbn [length]. lia.
  - apply rep_pipe with r1 r2; [by rewrite list_lookup_middle|apply rep_lt in Hr1; rewrite !length_app in *; lia|by apply rep_lt in Hr2|by do 2 apply rep_grow|by apply rep_grow].
Qed.

Lemma parse_block l rs : line_spec l → simple_spec (Block l rs).
Proof.
  intros Hl fuel cells room s ts e u Hs Hf Hfit Hroom Hfuel. cbn [tok_simple cmd_simple fits_simple] in *.
  cbn [length] in Hfuel. rewrite length_app in Hfuel. cbn [length] in Hfuel. rewrite size_redirect in Hroom. cbn [app] in Hs. rewrite <- app_assoc in Hs. cbn [app] in Hs.
  destruct fuel as [|[|fuel]]; [lia..|].
  destruct (peek_run (Nodes cells room) s _ "(" Hs) as (s1 & E1 & Ha1 & _); [right; chars|].
  destruct (peek_run (Nodes cells room) s1 _ "(" Ha1) as (s2 & E2 & Ha2 & _); [right; chars|].
  destruct (gettoken_run (Nodes cells room) s2 _ _ Ha2) as (q & eq & s3 & E3 & Ha3 & _).
  destruct (Hl fuel cells room s3 _ e u Ha3) as (new1 & r1 & s4 & E4 & Hn1 & Ha4 & Hr1); [cbn; set_solver|done|lia|lia|].
  destruct (peek_run (Nodes (cells ++ new1) (room - length new1)) s4 _ ")" Ha4) as (s5 & E5 & Ha5 & _); [right; chars|].
  destruct (gettoken_run (Nodes (cells ++ new1) (room - length new1)) s5 _ _ Ha5) as (q' & eq' & s6 & E6 & Ha6 & _).
  destruct (parseredirs_run rs (cells ++ new1) (room - length new1) s6 r1 ts e u Ha6) as (new2 & r & s7 & E7 & Hn2 & Ha7 & Hc);
    [apply (follows_not _ _ _ Hf); chars|lia|by eapply rep_lt|].
  exists (new1 ++ new2), r, s7. rewrite app_assoc. split_and!; [|rewrite length_app, size_redirect; lia|done|].
  - cbn [parseexec]. rewrite E1. change (starts_with _ _) with true. cbv beta iota. cbn [parseblock]. rewrite E2.
    change (starts_with _ _) with true. cbn [negb]. rewrite mret_bind, E3. run E4. rewrite E5. change (starts_with _ _) with true. cbn [negb]. rewrite mret_bind, E6, E7.
    by rewrite length_app, Nat.sub_add_distr.
  - apply (rchain_rep _ _ r1); [by apply rep_grow|done].
Qed.

Lemma parser_spec : (∀ l, line_spec l) ∧ (∀ p, pipeline_spec p) ∧ (∀ x, simple_spec x).
Proof.
  apply grammar_ind; intros.
  - by apply parse_line_end.
  - by apply parse_line_seq.
  - by apply parse_pipe_end.
  - by apply parse_pipe_pipe.
  - intros fuel cells room s ts e u Hs Hf Hfit Hroom Hfuel. apply parse_simple; [done|done|by apply Nat.ltb_lt|done|lia].
  - by apply parse_block.
Qed.
End Parse.
