(* ===== verification/ShCorrect.v ===== *)
(** * ShCorrect: from the text of a command line to the processes it runs

    Whatever spelling of a command line the shell reads, it runs the command that
    the line means; and in a pipeline the two commands have the two ends of one
    pipe, and nothing else of it. *)

From S2P Require Import Prelude Bytes User ULib UPrintf UProgs Sh ShLex ShTree ShGram ShParse.

Lemma strlen_from_nul text junk n : Forall (λ c, c ≠ 0) text → strlen_from (text ++ 0 :: junk) n = strlen_from text n.
Proof.
  intros H. revert n. induction H as [|c text Hc H IH]; intros n; [done|]. cbn [app strlen_from].
  destruct (Z.eqb_spec c 0); [done|]. apply IH.
Qed.

Section Parsed.
Context {S : Type} `{!Sys S}.
Implicit Types (e : list (S → S)) (s : S).

Lemma parsecmd_run l text junk room e s :
  spells (tok_line l) text → fits_line l = true → Z.of_nat (length text) < 2 ^ 31 → (cmd_size (cmd_line l) ≤ room)%nat →
  ∃ p nd buf, parsecmd room (text ++ 0 :: junk) e s = Ret (Some p, nd, buf) e s ∧
    rep (ended_at buf) (nd_cells nd) p (cmd_line l).
Proof.
  intros Hsp Hfit Hlen Hroom. pose proof (spells_nz _ _ Hsp) as Hnz.
  assert (Z.to_nat (strlen (text ++ 0 :: junk)) = length text) as Hes.
  { unfold strlen. rewrite strlen_from_nul by done. change (u32 (strlen_from text 0)) with (strlen text). rewrite strlen_spec by done. lia. }
  assert (at_tokens text 0 (tok_line l ++ [])) as Hat by (rewrite app_nil_r; split; [lia|done]).
  pose proof (at_tokens_length text _ _ Hat) as Htl. rewrite app_nil_r in Htl.
  destruct (parser_spec text junk Hnz Hlen) as [Hparse _].
  destruct (Hparse l (4 * length text + 4)%nat [] room 0%nat [] e s Hat I Hfit Hroom ltac:(lia)) as (new & r & s1 & E1 & Hn & Ha1 & Hr).
  cbn [app] in E1, Hr. destruct (peek_run text junk Hnz (Nodes new (room - length new)) s1 [] "" Ha1 ltac:(by left)) as (s2 & E2 & _ & Hend).
  rewrite (Hend eq_refl) in E2. unfold peek_ in E2. cbn [ps_s ps_nodes] in E2.
  destruct (nulterminate_run (Datatypes.S (length new)) (Nodes new (room - length new)) (text ++ 0 :: junk) r (cmd_line l) e s Hr) as (buf & E3 & _ & Hr');
    [apply rep_lt in Hr; lia|].
  exists r, (Nodes new (room - length new)), buf. split; [|done].
  unfold parsecmd. rewrite Hes. run E1. unfold peek_. cbn [ps_s ps_nodes nd_cells].
  destruct (peek (text ++ 0 :: junk) s1 (length text) (bytes_of "")) as [b s3]. injection E2 as -> ->.
  cbn [ps_s ps_nodes nd_cells]. rewrite Nat.eqb_refl. cbn [negb]. rewrite mret_bind. by run E3.
Qed.
End Parsed.

(** C29: the parser.  However the tokens of a command line are spelled (any white
    space between them, none where none is needed), [parsecmd] returns the
    command that the line means: the heap it has built, read with the strings
    it has terminated in place, is that command's tree.  The line may hold any
    bytes after its NUL; each command has fewer than MAXARGS words. *)
Theorem parsecmd_correct {S} `{!Sys S} l text junk room (e : list (S → S)) (s : S)
    (Hspell : spells (tok_line l) text) (Hfit : fits_line l = true) (Hlen : Z.of_nat (length text) < 2 ^ 31)
    (Hroom : (cmd_size (cmd_line l) ≤ room)%nat) :
  ∃ cmd nd buf, parsecmd room (text ++ 0 :: junk) e s = Ret (cmd, nd, buf) e s ∧
    cmd_at (Datatypes.S (length (nd_cells nd))) nd buf cmd = Some (cmd_line l).
Proof.
  destruct (parsecmd_run l text junk room e s Hspell Hfit Hlen Hroom) as (p & nd & buf & E & Hr).
  exists (Some p), nd, buf. split; [done|]. apply rep_cmd_at; [done|]. apply rep_lt in Hr. lia.
Qed.

(** C26: the shell runs the line.  Parsing a spelling of a command line and
    running the node that the parser returns is running the command the line
    means. *)
Theorem shell_correct {S} `{!Sys S} l text junk room (e : list (S → S)) (s : S)
    (Hspell : spells (tok_line l) text) (Hfit : fits_line l = true) (Hlen : Z.of_nat (length text) < 2 ^ 31)
    (Hroom : (cmd_size (cmd_line l) ≤ room)%nat) :
  ('(cmd, nd, buf) ← parsecmd room (text ++ 0 :: junk);
   runcmd (Datatypes.S (length (nd_cells nd))) nd buf cmd) e s = run_cmd (cmd_line l) e s.
Proof.
  destruct (parsecmd_run l text junk room e s Hspell Hfit Hlen Hroom) as (p & nd & buf & E & Hr).
  run E. apply runcmd_run; [done|]. apply rep_lt in Hr. lia.
Qed.

(** A line with an argument, redirections, a pipeline and a block. *)
Definition sample_line : line :=
  LSeq (PPipe (Simple [] [(bytes_of "cat", [Redir RIn (bytes_of "f")]); (bytes_of "x", [])])
          (PEnd (Block (LEnd (PEnd (Simple [] [(bytes_of "wc", [])])) 1) [Redir RApp (bytes_of "g")]))) 0
    (LEnd (PEnd (Simple [] [(bytes_of "ls", [])])) 0).
Definition sample_text : list Z := bytes_of "cat<f x | (wc&)>>g ;ls ".

(** Spellings of concrete tokens: the white space, the token, and the rest. *)
Ltac decided := apply (bool_decide_unpack _); vm_compute; exact I.
Ltac spell_word ws w r :=
  apply (spells_word (bytes_of ws) (bytes_of w) _ (bytes_of r));
  [decided|done|decided|let c := fresh in let H := fresh in intros c H; injection H as <-; apply (bool_decide_unpack (¬ _)); vm_compute; exact I|].
Ltac spell_sym ws c r := apply (spells_sym (bytes_of ws) c _ (bytes_of r)); [decided|decided|done|].

#[export] Instance blank_dec c : Decision (blank c) := decide (c ∈ whitespace).
#[export] Instance wordchar_dec c : Decision (wordchar c) := decide (c ≠ 0 ∧ c ∉ whitespace ∧ c ∉ symbols).

Lemma sample_spells : spells (tok_line sample_line) sample_text.
Proof.
  spell_word "" "cat" "<f x | (wc&)>>g ;ls ".
  spell_sym "" 60 "f x | (wc&)>>g ;ls ".
  spell_word "" "f" " x | (wc&)>>g ;ls ".
  spell_word " " "x" " | (wc&)>>g ;ls ".
  spell_sym " " 124 " (wc&)>>g ;ls ".
  spell_sym " " 40 "wc&)>>g ;ls ".
  spell_word "" "wc" "&)>>g ;ls ".
  spell_sym "" 38 ")>>g ;ls ".
  spell_sym "" 41 ">>g ;ls ".
  apply (spells_app (bytes_of "") _ (bytes_of "g ;ls ")); [decided|].
  spell_word "" "g" " ;ls ".
  spell_sym " " 59 "ls ".
  spell_word "" "ls" " ".
  apply spells_nil. decided.
Qed.

Lemma parsecmd_correct_witness :
  ∃ cmd nd buf, parsecmd 10 (sample_text ++ 0 :: [99; 97]) [] (UWorld ∅ ∅ ∅ [] [] (λ _ _, None) (λ _, true) 3)
      = Ret (cmd, nd, buf) [] (UWorld ∅ ∅ ∅ [] [] (λ _ _, None) (λ _, true) 3) ∧
    cmd_at (Datatypes.S (length (nd_cells nd))) nd buf cmd =
      Some (CList
        (CPipe (CRedir (CExec [bytes_of "cat"; bytes_of "x"]) (bytes_of "f") O_RDONLY 0)
               (CRedir (CBack (CExec [bytes_of "wc"])) (bytes_of "g") 0x201 1))
        (CExec [bytes_of "ls"])).
Proof.
  apply (parsecmd_correct sample_line sample_text [99; 97] 10 [] (UWorld ∅ ∅ ∅ [] [] (λ _ _, None) (λ _, true) 3) sample_spells);
    [reflexivity|vm_compute; reflexivity|vm_compute; lia].
Defined.

Lemma shell_correct_witness :
  ('(cmd, nd, buf) ← parsecmd 10 (sample_text ++ 0 :: [99; 97]);
   runcmd (Datatypes.S (length (nd_cells nd))) nd buf cmd) [] (UWorld ∅ ∅ ∅ [] [0; 0] (λ _ _, None) (λ _, true) 3)
  = run_cmd (cmd_line sample_line) [] (UWorld ∅ ∅ ∅ [] [0; 0] (λ _ _, None) (λ _, true) 3).
Proof.
  apply (shell_correct sample_line sample_text [99; 97] 10 [] (UWorld ∅ ∅ ∅ [] [0; 0] (λ _ _, None) (λ _, true) 3) sample_spells);
    [reflexivity|vm_compute; reflexivity|vm_compute; lia].
Defined.
