(* ===== verification/ShPipe.v ===== *)
(** * ShPipe: what the processes of a pipeline have open

    A PIPE node, run in the world of open files of [User]: the left command has
    the write end of a new pipe as its standard output and the right one the read
    end as its standard input; neither, nor the shell, keeps another end open, so
    the right command sees the end of its input when the left one has exited. *)

From S2P Require Import Prelude Bytes User ULib UPrintf UProgs Sh ShTree.

Lemma free_fd_fresh fds fd : free_fd fds = Some fd → fds !! fd = None.
Proof.
  intros H. apply head_Some_elem_of in H. by apply list_elem_of_filter in H as [H _].
Qed.

(** With descriptor 0 in use and 1 not, 1 is the lowest free one; with 1 in use
    and 0 not, it is 0. *)
Lemma free_fd_0 fds : fds !! 0 = None → free_fd fds = Some 0.
Proof. intros H. unfold free_fd. change (seqZ 0 (Z.of_nat NOFDS)) with (0 :: seqZ 1 15). by rewrite filter_cons, decide_True. Qed.

Lemma free_fd_1 fds : is_Some (fds !! 0) → fds !! 1 = None → free_fd fds = Some 1.
Proof.
  intros [f H0] H1. unfold free_fd. change (seqZ 0 (Z.of_nat NOFDS)) with (0 :: 1 :: seqZ 2 14).
  rewrite filter_cons, decide_False by congruence. by rewrite filter_cons, decide_True.
Qed.

Section Runcmd.
Context {S : Type} `{!Sys S}.
Implicit Types (e : list (S → S)) (s : S).

(** [runcmd] never returns. *)
Lemma runcmd_ends fuel nd buf c {B} (k : () → KM S B) e s a e' s' : (runcmd fuel nd buf c ≫= k) e s ≠ Ret a e' s'.
Proof.
  destruct fuel as [|fuel]; [done|]. cbn [runcmd]. destruct c as [p|]; [|done]. rewrite bind_bind. intros (b & e1 & s1 & _ & H)%bind_Ret_inv. done.
Qed.

Lemma bind_eq {A B} (m m' : KM S A) (k : A → KM S B) e s s' : m e s = m' e s' → (m ≫= k) e s = (m' ≫= k) e s'.
Proof. intros H. unfold mbind, KM_bind. by rewrite H. Qed.

Lemma runcmd_bind fuel nd buf c (k : () → KM S ()) e s : (runcmd fuel nd buf c ≫= k) e s = runcmd fuel nd buf c e s.
Proof.
  unfold mbind, KM_bind. destruct (runcmd fuel nd buf c e s) eqn:E; try done.
  exfalso. apply (runcmd_ends fuel nd buf c (mret (M := KM S)) e s a e0 s0). unfold mbind, KM_bind. by rewrite E.
Qed.
End Runcmd.

(** The world after pipe() and the forks, with the descriptors [fds]. *)
Definition piped (w : uworld) (fds : gmap Z Z) (forks : list Z) : uworld :=
  UWorld fds (<[w_next w := []]> (w_in w)) (<[w_next w + 1 := []]> (w_out w)) (w_cuts w) forks (w_names w) (w_progs w) (w_next w + 2).

Lemma new_fd_run f e w fd : free_fd (w_fds w) = Some fd → new_fd f e w = Ret fd e (w <| w_fds ::= insert fd f |>).
Proof. intros H. unfold new_fd. krun. by rewrite H. Qed.

Section Pipeline.
Context (w : uworld) (a b : Z).
Hypothesis Ha : free_fd (w_fds w) = Some a.
Hypothesis Hb : free_fd (<[a := w_next w]> (w_fds w)) = Some b.
Hypothesis H0 : is_Some (w_fds w !! 0).
Hypothesis H1 : is_Some (w_fds w !! 1).

Let both := <[b := w_next w + 1]> (<[a := w_next w]> (w_fds w)).

Lemma free_facts : w_fds w !! a = None ∧ w_fds w !! b = None ∧ a ≠ b ∧ a ≠ 0 ∧ a ≠ 1 ∧ b ≠ 0 ∧ b ≠ 1.
Proof.
  pose proof (free_fd_fresh _ _ Ha) as Fa. pose proof (free_fd_fresh _ _ Hb) as Fb.
  assert (a ≠ b) by (intros ->; by rewrite lookup_insert_eq in Fb). rewrite lookup_insert_ne in Fb by done.
  destruct H0 as [f0 E0], H1 as [f1 E1]. split_and!; try done; intros ->; congruence.
Qed.

Lemma pipe_run e : pipe e w = Ret (0, (a, b)) e (piped w both (w_forks w)) ∧ 0 ≤ a ∧ 0 ≤ b.
Proof.
  assert (∀ fds x, free_fd fds = Some x → 0 ≤ x) as Hpos.
  { intros fds x H. apply head_Some_elem_of in H. apply list_elem_of_filter in H as [_ H]. apply elem_of_seqZ in H. lia. }
  pose proof (Hpos _ _ Ha). pose proof (Hpos _ _ Hb). split_and!; [|done|done].
  cbn [pipe sys_uworld]. unfold world_pipe. rewrite gets_bind, !modify_bind.
  etrans; [refine (bind_Ret _ _ _ _ _ _ _ (new_fd_run _ _ _ a _)); exact Ha|]. cbv beta. destruct (Z.ltb_spec a 0); [lia|].
  etrans; [refine (bind_Ret _ _ _ _ _ _ _ (new_fd_run _ _ _ b _)); exact Hb|]. cbv beta. destruct (Z.ltb_spec b 0); [lia|]. done.
Qed.

Lemma close_run e fds fk fd f : fds !! fd = Some f → close fd e (piped w fds fk) = Ret 0 e (piped w (delete fd fds) fk).
Proof. intros Hf. cbn [close sys_uworld]. krun. unfold piped at 1. cbn [w_fds]. by rewrite Hf. Qed.

Lemma dup_run e fds fk fd f d : fds !! fd = Some f → free_fd fds = Some d → dup fd e (piped w fds fk) = Ret d e (piped w (<[d := f]> fds) fk).
Proof.
  intros Hf Hd. cbn [dup sys_uworld]. krun. unfold piped at 1. cbn [w_fds]. rewrite Hf. by apply new_fd_run.
Qed.

Lemma fork1_run e fds pid fk : pid ≠ -1 → fork1 e (piped w fds (pid :: fk)) = Ret pid e (piped w fds fk).
Proof.
  intros Hp. unfold fork1. cbn [fork sys_uworld]. unfold world_fork. unfold mbind at 1, KM_bind at 1. krun. cbn [w_forks piped].
  krun. by destruct (Z.eqb_spec pid (-1)).
Qed.

(** A child moves the end [fd] of the pipe to [std] and closes both ends. *)
Lemma child_fds std fd f : std ≠ a → std ≠ b → both !! fd = Some f →
  delete b (delete a (<[std := f]> (delete std both))) = <[std := f]> (w_fds w).
Proof.
  intros Hsa Hsb Hf. destruct free_facts as (Fa & Fb & _). apply map_eq. intros i. unfold both.
  destruct (decide (i = std)) as [->|?]; [by rewrite !lookup_delete_ne, !lookup_insert_eq by done|].
  rewrite (lookup_insert_ne (w_fds w)) by done.
  destruct (decide (i = b)) as [->|?]; [by rewrite lookup_delete_eq|]. rewrite lookup_delete_ne by done.
  destruct (decide (i = a)) as [->|?]; [by rewrite lookup_delete_eq|]. rewrite lookup_delete_ne by done.
  by rewrite lookup_insert_ne, lookup_delete_ne, !lookup_insert_ne by done.
Qed.

Lemma both_fds : both !! a = Some (w_next w) ∧ both !! b = Some (w_next w + 1) ∧ is_Some (both !! 0) ∧ is_Some (both !! 1) ∧
  delete b (delete a both) = w_fds w.
Proof.
  destruct free_facts as (Fa & Fb & Hab & ? & ? & ? & ?). unfold both. split_and!.
  - by rewrite lookup_insert_ne, lookup_insert_eq.
  - by rewrite lookup_insert_eq.
  - by rewrite !lookup_insert_ne.
  - by rewrite !lookup_insert_ne.
  - apply map_eq. intros i. destruct (decide (i = b)) as [->|?]; [by rewrite lookup_delete_eq|]. rewrite lookup_delete_ne by done.
    destruct (decide (i = a)) as [->|?]; [by rewrite lookup_delete_eq|]. by rewrite lookup_delete_ne, !lookup_insert_ne by done.
Qed.

Context (nd : nodes) (buf : list Z) (p fuel : nat) (l r : option nat).
Hypothesis Hnode : nd_cells nd !! p = Some (PIPE l r).

(** The pipeline after the pipe has been made. *)
Lemma runcmd_pipe e : runcmd (S fuel) nd buf (Some p) e w =
  ((pid ← fork1;
    (if pid =? 0 then close 1;; dup b;; close a;; close b;; runcmd fuel nd buf l else mret ());;
    pid ← fork1;
    (if pid =? 0 then close 0;; dup a;; close a;; close b;; runcmd fuel nd buf r else mret ());;
    close a;; close b;; wait;; wait;; mret ());; exit 0) e (piped w both (w_forks w)).
Proof.
  cbn [runcmd]. rewrite Hnode. rewrite bind_bind. destruct (pipe_run e) as (E & _ & _). run E. cbv beta iota. cbn [Z.ltb Z.compare].
  rewrite bind_bind, mret_bind. done.
Qed.

Lemma left_run e fk : (close 1;; dup b;; close a;; close b;; runcmd fuel nd buf l) e (piped w both fk) =
  runcmd fuel nd buf l e (piped w (<[1 := w_next w + 1]> (w_fds w)) fk).
Proof.
  destruct free_facts as (Fa & Fb & Hab & ? & ? & ? & ?). destruct both_fds as (Ba & Bb & B0 & [f1 B1] & _).
  run (close_run e both fk 1 f1 B1).
  assert (delete 1 both !! b = Some (w_next w + 1)) as Eb by (by rewrite lookup_delete_ne).
  run (dup_run e (delete 1 both) fk b _ 1 Eb ltac:(apply free_fd_1; [by rewrite lookup_delete_ne|by rewrite lookup_delete_eq])).
  erewrite (bind_Ret _ _ _ _ _ _ _ (close_run e _ fk a (w_next w) _)).
  erewrite (bind_Ret _ _ _ _ _ _ _ (close_run e _ fk b (w_next w + 1) _)).
  by rewrite (child_fds 1 b) by done.
  Unshelve. all: by rewrite ?lookup_delete_ne, ?lookup_insert_ne, ?lookup_delete_ne by done.
Qed.

Lemma right_run e fk : (close 0;; dup a;; close a;; close b;; runcmd fuel nd buf r) e (piped w both fk) =
  runcmd fuel nd buf r e (piped w (<[0 := w_next w]> (w_fds w)) fk).
Proof.
  destruct free_facts as (Fa & Fb & Hab & ? & ? & ? & ?). destruct both_fds as (Ba & Bb & [f0 B0] & B1 & _).
  run (close_run e both fk 0 f0 B0).
  assert (delete 0 both !! a = Some (w_next w)) as Eb by (by rewrite lookup_delete_ne).
  run (dup_run e (delete 0 both) fk a _ 0 Eb ltac:(apply free_fd_0; by rewrite lookup_delete_eq)).
  erewrite (bind_Ret _ _ _ _ _ _ _ (close_run e _ fk a (w_next w) _)).
  erewrite (bind_Ret _ _ _ _ _ _ _ (close_run e _ fk b (w_next w + 1) _)).
  by rewrite (child_fds 0 a) by done.
  Unshelve. all: by rewrite ?lookup_delete_ne, ?lookup_insert_ne, ?lookup_delete_ne by done.
Qed.
End Pipeline.

(** C30: pipelines.  [runcmd] on a PIPE node, with the standard descriptors open
    and two more free: in the first child the left command runs with the write
    end of a new pipe as descriptor 1, in the second one the right command with
    its read end as descriptor 0, every other descriptor being as in the shell:
    no process keeps an end that is not its own.  The parent ends with the
    descriptors it had. *)
Theorem pipeline_correct (w : uworld) a b nd buf p fuel l r e
    (Ha : free_fd (w_fds w) = Some a) (Hb : free_fd (<[a := w_next w]> (w_fds w)) = Some b)
    (H0 : is_Some (w_fds w !! 0)) (H1 : is_Some (w_fds w !! 1))
    (Hnode : nd_cells nd !! p = Some (PIPE l r)) :
  (∀ fk, w_forks w = 0 :: fk →
     runcmd (S fuel) nd buf (Some p) e w = runcmd fuel nd buf l e (piped w (<[1 := w_next w + 1]> (w_fds w)) fk)) ∧
  (∀ pid fk, pid ≠ 0 → pid ≠ -1 → w_forks w = pid :: 0 :: fk →
     runcmd (S fuel) nd buf (Some p) e w = runcmd fuel nd buf r e (piped w (<[0 := w_next w]> (w_fds w)) fk)) ∧
  (∀ pid pid' fk, pid ≠ 0 → pid ≠ -1 → pid' ≠ 0 → pid' ≠ -1 → w_forks w = pid :: pid' :: fk →
     runcmd (S fuel) nd buf (Some p) e w = Ended (Exited 0) (piped w (w_fds w) fk)).
Proof.
  split_and!.
  - intros fk Hfk. rewrite (runcmd_pipe w a b Ha Hb nd buf p fuel l r Hnode), Hfk, bind_bind.
    run (fork1_run w e (<[b := w_next w + 1]> (<[a := w_next w]> (w_fds w))) 0 fk ltac:(lia)). cbn [Z.eqb].
    rewrite bind_bind. rewrite (bind_eq _ _ _ _ _ _ (left_run w a b Ha Hb H0 H1 nd buf fuel l e fk)). apply runcmd_bind.
  - intros pid fk Hp0 Hp1 Hfk. rewrite (runcmd_pipe w a b Ha Hb nd buf p fuel l r Hnode), Hfk, bind_bind.
    run (fork1_run w e (<[b := w_next w + 1]> (<[a := w_next w]> (w_fds w))) pid (0 :: fk) Hp1).
    destruct (Z.eqb_spec pid 0); [done|]. rewrite bind_bind, mret_bind, bind_bind.
    run (fork1_run w e (<[b := w_next w + 1]> (<[a := w_next w]> (w_fds w))) 0 fk ltac:(lia)). cbn [Z.eqb].
    rewrite bind_bind. rewrite (bind_eq _ _ _ _ _ _ (right_run w a b Ha Hb H0 H1 nd buf fuel r e fk)). apply runcmd_bind.
  - intros pid pid' fk Hp0 Hp1 Hp0' Hp1' Hfk. rewrite (runcmd_pipe w a b Ha Hb nd buf p fuel l r Hnode), Hfk, bind_bind.
    run (fork1_run w e (<[b := w_next w + 1]> (<[a := w_next w]> (w_fds w))) pid (pid' :: fk) Hp1).
    destruct (Z.eqb_spec pid 0); [done|]. rewrite bind_bind, mret_bind, bind_bind.
    run (fork1_run w e (<[b := w_next w + 1]> (<[a := w_next w]> (w_fds w))) pid' fk Hp1').
    destruct (Z.eqb_spec pid' 0); [done|]. rewrite bind_bind, mret_bind, bind_bind.
    destruct (both_fds w a b Ha Hb H0 H1) as (Ba & Bb & _ & _ & Hrest).
    run (close_run w e _ fk a _ Ba). rewrite bind_bind.
    assert (a ≠ b) as Hab by (by destruct (free_facts w a b Ha Hb H0 H1) as (_ & _ & ? & _)).
    erewrite (bind_Ret _ _ _ _ _ _ _ (close_run w e _ fk b (w_next w + 1) _)). rewrite Hrest. done.
    Unshelve. by rewrite lookup_delete_ne.
Qed.

Definition sample_world (forks : list Z) : uworld :=
  UWorld (<[2 := 0]> (<[1 := 0]> (<[0 := 0]> ∅))) ∅ ∅ [] forks (λ _ _, None) (λ _, true) 1.
Definition sample_nodes : nodes := Nodes [EXEC [Some 0%nat; None] [Some 2%nat; None]; EXEC [Some 3%nat; None] [Some 5%nat; None]; PIPE (Some 0%nat) (Some 1%nat)] 0.

Lemma pipeline_correct_witness :
  runcmd 2 sample_nodes (bytes_of "ls" ++ [0] ++ bytes_of "wc" ++ [0]) (Some 2%nat) [] (sample_world [7; 0])
  = runcmd 1 sample_nodes (bytes_of "ls" ++ [0] ++ bytes_of "wc" ++ [0]) (Some 1%nat) []
      (piped (sample_world [7; 0]) (<[0 := 1]> (w_fds (sample_world [7; 0]))) []).
Proof.
  pose proof (pipeline_correct (sample_world [7; 0]) 3 4 sample_nodes (bytes_of "ls" ++ [0] ++ bytes_of "wc" ++ [0]) 2 1
    (Some 0%nat) (Some 1%nat) [] ltac:(vm_compute; reflexivity) ltac:(vm_compute; reflexivity)
    ltac:(by eexists) ltac:(by eexists) eq_refl) as (_ & H & _).
  apply (H 7); [lia|lia|reflexivity].
Defined.
