(* ===== verification/Mkfs.v ===== *)
(** * Mkfs: the builder of the file-system image (mkfs/mkfs.c)

    A program of the build host.  [mk_img] is the image file, as the sectors that
    have been written; [mk_room] is the number of sectors the host has room for.
    A struct dinode is its 64 bytes, a struct dirent its 16.  The host is little-endian,
    like the target.  [die] ends the program with status 1, a failed assert
    aborts it; what it prints is left out. *)

From S2P Require Import Prelude Params CString State Bytes Fs.

Record mkfs := Mkfs {
  mk_img : gmap Z (list Z);
  mk_room : Z;
  mk_sb : superblock;
  mk_freeinode : Z;
  mk_freeblock : Z;
}.
#[export] Instance mkfs_settable : Settable mkfs :=
  λ m, Mkfs (mk_img m) (mk_room m) (mk_sb m) (mk_freeinode m) (mk_freeblock m).

Abbreviation MK := (KM mkfs).

Definition NINODES : Z := 200.
Definition nbitmap : Z := FSSIZE / (BSIZE * 8) + 1.
Definition ninodeblocks : Z := NINODES / IPB + 1.
Definition nlog : Z := LOGSIZE.
Definition nmeta : Z := 2 + nlog + ninodeblocks + nbitmap.
Definition nblocks : Z := FSSIZE - nmeta.
Definition zeroes : list Z := replicate (Z.to_nat BSIZE) 0.

(** The value whose bytes in memory are those of [x], least significant first. *)
Definition xshort (x : Z) : Z := of_le [u8 x; u8 (Z.shiftr x 8)].
Definition xint (x : Z) : Z := of_le [u8 x; u8 (Z.shiftr x 8); u8 (Z.shiftr x 16); u8 (Z.shiftr x 24)].

Definition die {A} : MK A := ended (Exited 1).

(** [lseek(fsfd, sec * BSIZE, 0)], then the sector there. *)
Definition seek (sec : Z) : Z := u32 (sec * BSIZE) / BSIZE.

Definition wsect (sec : Z) (buf : list Z) : MK () :=
  m ← get;
  if seek sec <? mk_room m then modify (λ m, m <| mk_img ::= insert (seek sec) buf |>)
  else die.

Definition rsect (sec : Z) : MK (list Z) :=
  m ← get;
  match mk_img m !! seek sec with Some buf => mret buf | None => die end.

Definition winode (inum : Z) (ip : list Z) : MK () :=
  sb ← gets mk_sb;
  let bn := IBLOCK inum sb in
  buf ← rsect bn;
  wsect bn (splice buf (dinode_off inum) ip).

Definition rinode (inum : Z) : MK (list Z) :=
  sb ← gets mk_sb;
  let bn := IBLOCK inum sb in
  buf ← rsect bn;
  mret (slice buf (dinode_off inum) 64).

Definition ialloc (type : Z) : MK Z :=
  inum ← gets mk_freeinode;
  modify (λ m, m <| mk_freeinode := u32 (inum + 1) |>);;
  let din := replicate 64 0 in
  let din := put16 din 0%nat (xshort type) in
  let din := put16 din 6%nat (xshort 1) in
  let din := put32 din 8%nat (xint 0) in
  winode inum din;;
  mret inum.

(** The bitmap with the first [n] bits set. *)
Fixpoint first_bits (n : nat) (buf : list Z) : list Z :=
  match n with
  | O => buf
  | S n' =>
      let buf := first_bits n' buf in
      alter (λ x, Z.lor x (Z.shiftl 1 (Z.of_nat n' mod 8))) (n' / 8)%nat buf
  end.

Definition balloc (used : Z) : MK () :=
  panic_if (negb (used <? BSIZE * 8)) "assert";;
  sb ← gets mk_sb;
  wsect (sb_bmapstart sb) (first_bits (Z.to_nat used) zeroes).

(** [din.addrs[k]] *)
Definition addr_of (din : list Z) (k : Z) : Z := get32 din (Z.to_nat (12 + 4 * k)).
Definition set_addr_of (din : list Z) (k v : Z) : list Z := put32 din (Z.to_nat (12 + 4 * k)) v.

(** [freeblock++] *)
Definition next_block : MK Z :=
  b ← gets mk_freeblock;
  modify (λ m, m <| mk_freeblock := u32 (b + 1) |>);;
  mret b.

(** [if(xint(din.addrs[k]) == 0) din.addrs[k] = xint(freeblock++);] *)
Definition addr_alloc (din : list Z) (k : Z) : MK (list Z) :=
  if xint (addr_of din k) =? 0 then
    b ← next_block;
    mret (set_addr_of din k (xint b))
  else mret din.

(** The block [x] for the file's block [fbn], and the dinode. *)
Definition iappend_block (din : list Z) (fbn : Z) : MK (Z * list Z) :=
  if fbn <? Z.of_nat NDIRECT then
    din ← addr_alloc din fbn;
    mret (xint (addr_of din fbn), din)
  else
    let ind := Z.of_nat NDIRECT in
    din ← addr_alloc din ind;
    indirect ← rsect (xint (addr_of din ind));
    let o := Z.to_nat (4 * (fbn - ind)) in
    indirect ← (if get32 indirect o =? 0 then
                  b ← next_block;
                  let indirect := put32 indirect o (xint b) in
                  wsect (xint (addr_of din ind)) indirect;;
                  mret indirect
                else mret indirect);
    mret (xint (get32 indirect o), din).

(** The loop of [iappend], over the bytes left, the offset and the dinode. *)
Definition iappend_step : list Z * Z * Z * list Z → MK (list Z * Z * Z * list Z + Z * list Z) :=
  λ '(p, n, off, din),
    if 0 <? n then
      let fbn := off / BSIZE in
      panic_if (negb (fbn <? MAXFILE)) "assert";;
      '(x, din) ← iappend_block din fbn;
      let n1 := Z.min n ((fbn + 1) * BSIZE - off) in
      buf ← rsect x;
      wsect x (splice buf (Z.to_nat (off - fbn * BSIZE)) (take (Z.to_nat n1) p));;
      mret (inl (drop (Z.to_nat n1) p, n - n1, u32 (off + n1), din))
    else mret (inr (off, din)).

Definition iappend (inum : Z) (xp : list Z) (n : Z) : MK () :=
  din ← rinode inum;
  let off := xint (get32 din 8%nat) in
  '(off, din) ← while_ iappend_step (xp, n, off, din);
  winode inum (put32 din 8%nat (xint off)).

(** ** main *)

(** What the host answers: whether the image can be created, and for a file that
    can be opened the pieces that the reads return before the end of the file. *)
Record host := Host { h_create : bool; h_open : list Z → option (list (list Z)) }.

(** The bytes of the superblock. *)
Definition sb_bytes (sb : superblock) : list Z :=
  le_bytes 4 (sb_magic sb) ++ le_bytes 4 (sb_size sb) ++ le_bytes 4 (sb_nblocks sb) ++ le_bytes 4 (sb_ninodes sb) ++
  le_bytes 4 (sb_nlog sb) ++ le_bytes 4 (sb_logstart sb) ++ le_bytes 4 (sb_inodestart sb) ++ le_bytes 4 (sb_bmapstart sb).

Definition the_sb : superblock :=
  Superblock FSMAGIC (xint FSSIZE) (xint nblocks) (xint NINODES) (xint nlog) (xint 2) (xint (2 + nlog)) (xint (2 + nlog + ninodeblocks)).

(** [bzero(&de, sizeof(de)); de.inum = xshort(inum); strncpy(de.name, name, DIRSIZ);] *)
Definition dirent (inum : Z) (name : list Z) : list Z :=
  let de := put16 (replicate 16 0) 0%nat (xshort inum) in
  splice de 2 (take DIRSIZ (cstring name ++ replicate DIRSIZ 0)).

(** The name in the image of the file [path]. *)
Definition shortname (path : list Z) : list Z :=
  if bool_decide (take 5 path = bytes_of "user/") then drop 5 path else path.
Definition skip_underscore (name : list Z) : list Z :=
  match name with 95 :: name' => name' | _ => name end.

Definition add_file (h : host) (rootino : Z) (path : list Z) : MK () :=
  let name := shortname path in
  panic_if (bool_decide (47 ∈ name)) "assert";;
  match h_open h path with
  | None => die
  | Some pieces =>
      let name := skip_underscore name in
      inum ← ialloc T_FILE;
      iappend rootino (dirent inum name) 16;;
      foreach pieces (λ buf, iappend inum buf (Z.of_nat (length buf)))
  end.

Definition main (h : host) (argv : list (list Z)) : MK () :=
  if (length argv <? 2)%nat then ended (Exited 1)
  else if negb (h_create h) then die
  else
    modify (λ m, m <| mk_sb := the_sb |>);;
    modify (λ m, m <| mk_freeblock := nmeta |>);;
    foreach (seqZ 0 FSSIZE) (λ i, wsect i zeroes);;
    wsect 1 (splice zeroes 0 (sb_bytes the_sb));;
    rootino ← ialloc T_DIR;
    panic_if (negb (rootino =? ROOTINO)) "assert";;
    iappend rootino (dirent rootino (bytes_of ".")) 16;;
    iappend rootino (dirent rootino (bytes_of "..")) 16;;
    foreach (drop 2 argv) (add_file h rootino);;
    din ← rinode rootino;
    let off := xint (get32 din 8%nat) in
    let off := u32 ((off / BSIZE + 1) * BSIZE) in
    winode rootino (put32 din 8%nat (xint off));;
    freeblock ← gets mk_freeblock;
    balloc freeblock;;
    ended (Exited 0).

(** The state the program starts in, on a host with room for [room] sectors. *)
Definition mkfs0 (room : Z) : mkfs := Mkfs ∅ room (Superblock 0 0 0 0 0 0 0 0) 1 0.
