(* ===== verification/MkfsInv.v ===== *)
(** * MkfsInv: the image while mkfs builds it

    [bref] is the block that one of the 269 block slots of a file refers to: 12
    direct ones, the indirect block, and the 256 entries of the indirect block.
    The invariant is that a block belongs to one slot of one file at most, that
    the blocks from [freeblock] on are unused and zero, and that a file has the
    blocks its size needs. *)

From S2P Require Import Prelude Params CString State Bytes Fs Mkfs.

Implicit Types (m : mkfs) (din : list Z) (e : list (mkfs → mkfs)).

Definition blk m (b : Z) : list Z := default zeroes (mk_img m !! b).

(** Numbers of the slots: 0 .. 11 direct, 12 the indirect block, 13 .. its entries. *)
Definition slots : Z := 269.
Definition slot (bn : Z) : Z := if bn <? 12 then bn else bn + 1.

Definition bref m din (k : Z) : Z :=
  if k <=? 12 then addr_of din k
  else if addr_of din 12 =? 0 then 0
  else get32 (blk m (addr_of din 12)) (Z.to_nat (4 * (k - 13))).

(** Does a file of [size] bytes need the slot? *)
Definition needs (size k : Z) : Prop :=
  if k <? 12 then k * BSIZE < size else if k =? 12 then 12 * BSIZE < size else (k - 1) * BSIZE < size.

Definition allotted m din (size : Z) : Prop := ∀ k, 0 ≤ k < slots → bref m din k ≠ 0 ↔ needs size k.

Definition live m (i : Z) : Prop := 1 ≤ i < mk_freeinode m.

(** [dins] are the dinodes of the files: on disk, or in the memory of [iappend]. *)
Record image_ok m (dins : Z → list Z) : Prop := ImageOk {
  io_room : FSSIZE ≤ mk_room m;
  io_sb : mk_sb m = the_sb;
  io_sect : ∀ b, is_Some (mk_img m !! b) ↔ 0 ≤ b < FSSIZE;
  io_size : ∀ b, length (blk m b) = 1024%nat;
  io_fb : nmeta ≤ mk_freeblock m ≤ FSSIZE;
  io_fi : 1 ≤ mk_freeinode m ≤ NINODES;
  io_zero : ∀ b, mk_freeblock m ≤ b → blk m b = zeroes;
  io_len : ∀ i, live m i → length (dins i) = 64%nat;
  io_range : ∀ i k, live m i → 0 ≤ k < slots → bref m (dins i) k = 0 ∨ nmeta ≤ bref m (dins i) k < mk_freeblock m;
  io_inj : ∀ i k i' k', live m i → live m i' → 0 ≤ k < slots → 0 ≤ k' < slots →
    bref m (dins i) k ≠ 0 → bref m (dins i) k = bref m (dins i') k' → i = i' ∧ k = k';
}.

Definition upd (dins : Z → list Z) (i : Z) din : Z → list Z := λ j, if j =? i then din else dins j.

Lemma upd_eq dins i din : upd dins i din i = din.
Proof. unfold upd. by rewrite Z.eqb_refl. Qed.
Lemma upd_ne dins i din j : j ≠ i → upd dins i din j = dins j.
Proof. intros. unfold upd. by destruct (Z.eqb_spec j i). Qed.

(** Nothing that a file refers to has changed. *)
Record kept m m' din : Prop := Kept {
  kp_bref : ∀ k, 0 ≤ k < slots → bref m' din k = bref m din k;
  kp_data : ∀ k, 0 ≤ k < slots → k ≠ 12 → bref m din k ≠ 0 → blk m' (bref m din k) = blk m (bref m din k);
}.

Lemma kept_refl m din : kept m m din.
Proof. by split. Qed.
Lemma kept_trans m1 m2 m3 din : kept m1 m2 din → kept m2 m3 din → kept m1 m3 din.
Proof.
  intros [B1 D1] [B2 D2]. split.
  - intros k Hk. by rewrite B2, B1.
  - intros k Hk Hne H0. rewrite <- (D1 k) by done. rewrite <- (B1 k) in * by done. by apply D2.
Qed.

(** ** Sectors *)

Lemma consts : nmeta = 46 ∧ FSSIZE = 2000 ∧ BSIZE = 1024 ∧ MAXFILE = 268 ∧ NINODES = 200.
Proof. by vm_compute. Qed.

Lemma seek_small b : 0 ≤ b < FSSIZE → seek b = b.
Proof.
  intros Hb. unfold seek, BSIZE. change FSSIZE with 2000 in Hb. rewrite wrapu_id by (change (2 ^ 32) with 4294967296; lia). by rewrite Z.div_mul.
Qed.

Lemma rsect_run m dins b e : image_ok m dins → 0 ≤ b < FSSIZE → rsect b e m = Ret (blk m b) e m.
Proof.
  intros Hok Hb. unfold rsect. rewrite get_bind. rewrite seek_small by done.
  destruct (proj2 (io_sect _ _ Hok b) Hb) as [buf E]. unfold blk. by rewrite E.
Qed.

(** The state after sector [b] has been written. *)
Definition wrote m (b : Z) (buf : list Z) : mkfs := m <| mk_img ::= insert b buf |>.

Lemma wsect_run m b buf e : FSSIZE ≤ mk_room m → 0 ≤ b < FSSIZE → wsect b buf e m = Ret () e (wrote m b buf).
Proof.
  intros Hr Hb. unfold wsect. rewrite get_bind. rewrite seek_small by done. by destruct (Z.ltb_spec b (mk_room m)); [|lia].
Qed.

Lemma blk_wrote m b buf b' : blk (wrote m b buf) b' = if b' =? b then buf else blk m b'.
Proof.
  unfold blk, wrote. unfold set; cbn [mk_img]. destruct (Z.eqb_spec b' b) as [->|]; [by rewrite lookup_insert_eq|by rewrite lookup_insert_ne].
Qed.

Lemma blk_wrote_ne m b buf b' : b' ≠ b → blk (wrote m b buf) b' = blk m b'.
Proof. intros. rewrite blk_wrote. by destruct (Z.eqb_spec b' b). Qed.
Lemma blk_wrote_eq m b buf : blk (wrote m b buf) b = buf.
Proof. rewrite blk_wrote. by rewrite Z.eqb_refl. Qed.

(** A sector changes which no file refers to as its indirect block. *)
Lemma bref_wrote m b buf din k : addr_of din 12 ≠ b ∨ addr_of din 12 = 0 → bref (wrote m b buf) din k = bref m din k.
Proof.
  intros Hb. unfold bref. destruct (k <=? 12); [done|]. destruct (Z.eqb_spec (addr_of din 12) 0); [done|].
  rewrite blk_wrote_ne; [done|]. by destruct Hb.
Qed.

Lemma bref_12 m din : bref m din 12 = addr_of din 12.
Proof. done. Qed.

(** ** Fields *)

Lemma of_le_xint x : 0 ≤ x < 2 ^ 32 → xint x = x.
Proof.
  change (2 ^ 32) with 4294967296. intros Hx. unfold xint, of_le, wrapu. rewrite !Z.shiftr_div_pow2 by lia.
  change (2 ^ 8) with 256. change (2 ^ 16) with 65536. change (2 ^ 24) with 16777216. zlia.
Qed.

Lemma xshort_id x : 0 ≤ x < 2 ^ 16 → xshort x = x.
Proof.
  change (2 ^ 16) with 65536. intros Hx. unfold xshort, of_le, wrapu. rewrite !Z.shiftr_div_pow2 by lia.
  change (2 ^ 8) with 256. zlia.
Qed.

Lemma addr_set_eq din k v : length din = 64%nat → 0 ≤ k ≤ 12 → 0 ≤ v < 2 ^ 32 → addr_of (set_addr_of din k v) k = v.
Proof.
  intros Hl Hk Hv. unfold addr_of, set_addr_of. rewrite get_put by lia. by apply Z.mod_small.
Qed.

Lemma addr_set_ne din k v k' : length din = 64%nat → 0 ≤ k ≤ 12 → 0 ≤ k' ≤ 12 → k' ≠ k → addr_of (set_addr_of din k v) k' = addr_of din k'.
Proof. intros Hl Hk Hk' Hne. unfold addr_of, set_addr_of. apply get_put_ne; lia. Qed.

Lemma length_set_addr din k v : length din = 64%nat → 0 ≤ k ≤ 12 → length (set_addr_of din k v) = 64%nat.
Proof. intros Hl Hk. unfold set_addr_of. rewrite length_put; lia. Qed.

Lemma take_put data off n v : (off + n ≤ length data)%nat → take off (put_le data off n v) = take off data.
Proof. intros. unfold put_le, splice. rewrite take_app_le by (rewrite length_take; lia). by rewrite take_take, Nat.min_id. Qed.

Lemma head_set_addr din k v : length din = 64%nat → 0 ≤ k ≤ 12 → take 12 (set_addr_of din k v) = take 12 din.
Proof.
  intros Hl Hk. unfold set_addr_of. set (o := Z.to_nat (12 + 4 * k)).
  assert (∀ l : list Z, take 12 l = take 12 (take o l)) as E by (intros l; rewrite take_take; f_equal; unfold o; lia).
  rewrite E, take_put by (unfold o; lia). by rewrite <- E.
Qed.

Lemma get32_zeroes o : get32 zeroes o = 0.
Proof. apply get_zeros. Qed.

(** ** Allocating a block *)

(** [m'] and [din'] differ from [m] and [din], the dinode of file [i], in that
    slot [k] refers to the block that was the first free one. *)
Record allocated m din m' din' (k : Z) : Prop := Allocated {
  al_room : mk_room m' = mk_room m;
  al_sb : mk_sb m' = mk_sb m;
  al_fi : mk_freeinode m' = mk_freeinode m;
  al_fb : mk_freeblock m' = mk_freeblock m + 1;
  al_dom : ∀ b, is_Some (mk_img m' !! b) ↔ is_Some (mk_img m !! b);
  al_blk : ∀ b, blk m' b = blk m b ∨ (13 ≤ k ∧ b = bref m din 12 ∧ b ≠ 0 ∧ length (blk m' b) = 1024%nat);
  al_len : length din' = 64%nat;
  al_head : take 12 din' = take 12 din;
  al_new : bref m' din' k = mk_freeblock m;
  al_old : ∀ k', 0 ≤ k' < slots → k' ≠ k → bref m' din' k' = bref m din k';
}.

Section Alloc.
Variables (i : Z) (dins : Z → list Z) (m m' : mkfs) (din' : list Z) (k : Z).
Hypothesis Hok : image_ok m dins.
Hypothesis Hlive : live m i.
Hypothesis Hk : 0 ≤ k < slots.
Hypothesis Hroom : mk_freeblock m < FSSIZE.
Hypothesis Hal : allocated m (dins i) m' din' k.

(** The other files keep what they have. *)
Lemma allocated_kept j : live m j → j ≠ i → kept m m' (dins j).
Proof using Hok Hlive Hk Hroom Hal.
  intros Hj Hne. assert (∀ b k', 0 ≤ k' < slots → b = bref m (dins j) k' → b ≠ 0 → blk m' b = blk m b) as Hb.
  { intros b k' Hk' -> H0. destruct (al_blk _ _ _ _ _ Hal (bref m (dins j) k')) as [E|(Hk13 & E & _)]; [done|].
    destruct (io_inj _ _ Hok j k' i 12) as [-> _]; done. }
  split.
  - intros k' Hk'. unfold bref at 1 2. destruct (Z.leb_spec k' 12); [done|]. destruct (Z.eqb_spec (addr_of (dins j) 12) 0); [done|].
    by rewrite (Hb _ 12).
  - intros k' Hk' _ H0. by apply (Hb _ k').
Qed.

Lemma allocated_live j : live m' j ↔ live m j.
Proof using Hal. unfold live. by rewrite (al_fi _ _ _ _ _ Hal). Qed.

Lemma allocated_bref j k' : live m j → 0 ≤ k' < slots →
  bref m' (upd dins i din' j) k' = if (j =? i) && (k' =? k) then mk_freeblock m else bref m (dins j) k'.
Proof using Hok Hlive Hk Hroom Hal.
  intros Hj Hk'. destruct (Z.eqb_spec j i) as [->|Hne].
  - rewrite upd_eq. destruct (Z.eqb_spec k' k) as [->|Hne]; [apply (al_new _ _ _ _ _ Hal)|by apply (al_old _ _ _ _ _ Hal)].
  - rewrite upd_ne by done. by apply (kp_bref _ _ _ (allocated_kept j Hj Hne)).
Qed.

Lemma allocated_ok : image_ok m' (upd dins i din').
Proof using Hok Hlive Hk Hroom Hal.
  pose proof (io_fb _ _ Hok) as Hfb. pose proof consts as (Hc1 & Hc2 & _).
  split.
  - rewrite (al_room _ _ _ _ _ Hal). apply (io_room _ _ Hok).
  - rewrite (al_sb _ _ _ _ _ Hal). apply (io_sb _ _ Hok).
  - intros b. rewrite (al_dom _ _ _ _ _ Hal). apply (io_sect _ _ Hok).
  - intros b. destruct (al_blk _ _ _ _ _ Hal b) as [->|(_ & _ & _ & E)]; [apply (io_size _ _ Hok)|done].
  - rewrite (al_fb _ _ _ _ _ Hal). lia.
  - rewrite (al_fi _ _ _ _ _ Hal). apply (io_fi _ _ Hok).
  - intros b. rewrite (al_fb _ _ _ _ _ Hal). intros Hb. destruct (al_blk _ _ _ _ _ Hal b) as [->|(_ & -> & H0 & _)]; [apply (io_zero _ _ Hok); lia|].
    destruct (io_range _ _ Hok i 12 Hlive ltac:(unfold slots; lia)); lia.
  - intros j Hj%allocated_live. destruct (Z.eq_dec j i) as [->|Hne]; [by rewrite upd_eq; apply (al_len _ _ _ _ _ Hal)|rewrite upd_ne by done; by apply (io_len _ _ Hok)].
  - intros j k' Hj%allocated_live Hk'. rewrite allocated_bref by done. rewrite (al_fb _ _ _ _ _ Hal).
    destruct ((j =? i) && (k' =? k)); [lia|]. destruct (io_range _ _ Hok j k' Hj Hk'); lia.
  - intros j1 k1 j2 k2 H1%allocated_live H2%allocated_live Hk1 Hk2. rewrite !allocated_bref by done.
    pose proof (io_range _ _ Hok j1 k1 H1 Hk1) as R1. pose proof (io_range _ _ Hok j2 k2 H2 Hk2) as R2.
    destruct ((j1 =? i) && (k1 =? k)) eqn:E1, ((j2 =? i) && (k2 =? k)) eqn:E2; breflect.
    + intros _ _. lia.
    + intros _ E. lia.
    + intros _ E. lia.
    + by apply (io_inj _ _ Hok).
Qed.
End Alloc.

Lemma next_block_run m e : mk_freeblock m < 2 ^ 32 - 1 → 0 ≤ mk_freeblock m →
  next_block e m = Ret (mk_freeblock m) e (m <| mk_freeblock := mk_freeblock m + 1 |>).
Proof. intros H1 H2. unfold next_block. krun. by rewrite wrapu_id by lia. Qed.

(** A direct slot, or the slot of the indirect block. *)
Lemma alloc_direct i dins m k e : image_ok m dins → live m i → 0 ≤ k ≤ 12 → mk_freeblock m < FSSIZE → bref m (dins i) k = 0 →
  ∃ m' din', addr_alloc (dins i) k e m = Ret din' e m' ∧ allocated m (dins i) m' din' k.
Proof.
  intros Hok Hi Hk Hr H0. pose proof (io_len _ _ Hok i Hi) as Hl. pose proof (io_fb _ _ Hok) as Hfb. pose proof consts as (Hc1 & Hc2 & _).
  unfold bref in H0. destruct (Z.leb_spec k 12); [|lia].
  unfold addr_alloc. rewrite H0. change (xint 0 =? 0) with true. cbv iota. run (next_block_run m e ltac:(lia) ltac:(lia)).
  rewrite of_le_xint by lia. eexists _, _. split; [reflexivity|].
  assert (∀ b, blk (m <| mk_freeblock := mk_freeblock m + 1 |>) b = blk m b) as Hb by done.
  split; try done; [by left|by apply length_set_addr|by apply head_set_addr| |].
  - unfold bref. destruct (Z.leb_spec k 12); [|lia]. apply addr_set_eq; lia.
  - intros k' Hk' Hne. unfold bref. destruct (Z.leb_spec k' 12); [apply addr_set_ne; lia|].
    destruct (Z.eq_dec k 12) as [->|Hne12].
    + rewrite addr_set_eq, H0 by lia. cbn [Z.eqb]. destruct (Z.eqb_spec (mk_freeblock m) 0); [done|].
      rewrite Hb, (io_zero _ _ Hok) by lia. apply get32_zeroes.
    + rewrite !addr_set_ne by lia. done.
Qed.

Lemma ind_range m dins i k : image_ok m dins → live m i → 0 ≤ k < slots → bref m (dins i) k ≠ 0 → nmeta ≤ bref m (dins i) k < FSSIZE.
Proof. intros Hok Hi Hk H0. pose proof (io_fb _ _ Hok). destruct (io_range _ _ Hok i k Hi Hk); lia. Qed.

(** An entry of the indirect block. *)
Lemma alloc_indirect i dins m k e : image_ok m dins → live m i → 13 ≤ k < slots → mk_freeblock m < FSSIZE →
  bref m (dins i) 12 ≠ 0 → bref m (dins i) k = 0 →
  ∃ m', (let indirect := blk m (bref m (dins i) 12) in
         let o := Z.to_nat (4 * (k - 13)) in
         b ← next_block;
         wsect (bref m (dins i) 12) (put32 indirect o (xint b));;
         mret (put32 indirect o (xint b))) e m = Ret (blk m' (bref m (dins i) 12)) e m' ∧ allocated m (dins i) m' (dins i) k.
Proof.
  intros Hok Hi Hk Hr Hind H0. pose proof (io_len _ _ Hok i Hi) as Hl. pose proof (io_fb _ _ Hok) as Hfb. pose proof consts as (Hc1 & Hc2 & _).
  pose proof (ind_range m dins i 12 Hok Hi ltac:(unfold slots; lia) Hind) as Hir. rewrite bref_12 in *.
  set (ind := addr_of (dins i) 12) in *. set (o := Z.to_nat (4 * (k - 13))). cbv zeta.
  run (next_block_run m e ltac:(lia) ltac:(lia)). rewrite of_le_xint by lia.
  set (m1 := m <| mk_freeblock := mk_freeblock m + 1 |>).
  pose proof (io_size _ _ Hok ind) as Hsz. unfold slots in *.
  assert (length (put32 (blk m ind) o (mk_freeblock m)) = 1024%nat) as Hlp by (rewrite length_put; [done|unfold o; lia]).
  run (wsect_run m1 ind (put32 (blk m ind) o (mk_freeblock m)) e (io_room _ _ Hok) ltac:(lia)).
  exists (wrote m1 ind (put32 (blk m ind) o (mk_freeblock m))). split; [by rewrite blk_wrote_eq|].
  assert (∀ b, blk m1 b = blk m b) as Hb by done. split; try done.
  - intros b. unfold wrote, m1. unfold set; cbn [mk_img]. rewrite lookup_insert_is_Some'. rewrite (io_sect _ _ Hok). naive_solver lia.
  - intros b. rewrite blk_wrote. destruct (Z.eqb_spec b ind) as [->|]; [right|by left]. split_and!; [lia|done|lia|done].
  - unfold bref. fold ind. destruct (Z.leb_spec k 12); [lia|]. destruct (Z.eqb_spec ind 0); [lia|]. rewrite blk_wrote_eq. fold o.
    rewrite get_put by (unfold o; lia). apply Z.mod_small. change (256 ^ Z.of_nat 4) with 4294967296. lia.
  - intros k' Hk' Hne. unfold bref. fold ind. destruct (Z.leb_spec k' 12); [done|]. destruct (Z.eqb_spec ind 0); [done|].
    rewrite blk_wrote_eq. apply get_put_ne; unfold o; lia.
Qed.

(** ** Writing data *)

(** Another block of the file [i] gets new bytes. *)
Lemma data_kept i k dins m buf j : image_ok m dins → live m i → live m j → 0 ≤ k < slots → k ≠ 12 → bref m (dins i) k ≠ 0 →
  length buf = 1024%nat →
  (∀ k', 0 ≤ k' < slots → bref (wrote m (bref m (dins i) k) buf) (dins j) k' = bref m (dins j) k') ∧
  (∀ k', 0 ≤ k' < slots → k' ≠ 12 → bref m (dins j) k' ≠ 0 → (j, k') ≠ (i, k) →
     blk (wrote m (bref m (dins i) k) buf) (bref m (dins j) k') = blk m (bref m (dins j) k')).
Proof.
  intros Hok Hi Hj Hk Hne H0 Hl. split.
  - intros k' Hk'. apply bref_wrote. destruct (Z.eq_dec (addr_of (dins j) 12) 0); [by right|left]. intros E.
    destruct (io_inj _ _ Hok j 12 i k) as [_ E']; [done|done|unfold slots; lia|done|done|done|]. lia.
  - intros k' Hk' _ H0' Hd. apply blk_wrote_ne. intros E. apply Hd.
    by destruct (io_inj _ _ Hok j k' i k Hj Hi Hk' Hk H0' E) as [-> ->].
Qed.

Lemma data_ok i k dins m buf : image_ok m dins → live m i → 0 ≤ k < slots → k ≠ 12 → bref m (dins i) k ≠ 0 → length buf = 1024%nat →
  image_ok (wrote m (bref m (dins i) k) buf) dins.
Proof.
  intros Hok Hi Hk Hne H0 Hl. pose proof (ind_range m dins i k Hok Hi Hk H0) as Hr. pose proof consts as (Hc1 & Hc2 & _).
  assert (∀ j k', live m j → 0 ≤ k' < slots → bref (wrote m (bref m (dins i) k) buf) (dins j) k' = bref m (dins j) k') as Hb.
  { intros j k' Hj. by apply (data_kept i k dins m buf j). }
  destruct (io_range _ _ Hok i k Hi Hk); [done|].
  split; try apply Hok.
  - intros b. unfold wrote. unfold set; cbn [mk_img]. rewrite lookup_insert_is_Some'. rewrite (io_sect _ _ Hok). naive_solver lia.
  - intros b. rewrite blk_wrote. destruct (Z.eqb_spec b (bref m (dins i) k)); [done|apply (io_size _ _ Hok)].
  - intros b Hb'. change (mk_freeblock m ≤ b) in Hb'. rewrite blk_wrote_ne by lia. by apply (io_zero _ _ Hok).
  - intros j k' Hj Hk'. rewrite Hb by done. by apply (io_range _ _ Hok).
  - intros j1 k1 j2 k2 Hj1 Hj2 Hk1 Hk2. rewrite !Hb by done. by apply (io_inj _ _ Hok).
Qed.

(** ** The block for a position *)

Lemma slot_range bn : 0 ≤ bn < MAXFILE → 0 ≤ slot bn < slots ∧ slot bn ≠ 12.
Proof. change MAXFILE with 268. unfold slot, slots. destruct (Z.ltb_spec bn 12); lia. Qed.

Lemma bref_xint m dins i k : image_ok m dins → live m i → 0 ≤ k < slots → xint (bref m (dins i) k) = bref m (dins i) k.
Proof.
  intros Hok Hi Hk. apply of_le_xint. pose proof (io_fb _ _ Hok). pose proof consts as (Hc1 & Hc2 & _).
  destruct (io_range _ _ Hok i k Hi Hk); lia.
Qed.

(** Blocks that a file of [size] bytes takes. *)
Definition blocks_of (size : Z) : Z := (size + 1023) / 1024 + (if 12 * 1024 <? size then 1 else 0).

(** The slots [ks] of file [i] have been allotted; it keeps the others, and every
    other file keeps everything. *)
Record grown i dins m m' din' (ks : list Z) : Prop := Grown {
  gr_ok : image_ok m' (upd dins i din');
  gr_fi : mk_freeinode m' = mk_freeinode m;
  gr_fb : mk_freeblock m' = mk_freeblock m + Z.of_nat (length ks);
  gr_head : take 12 din' = take 12 (dins i);
  gr_ref : ∀ k, k ∈ ks → bref m' din' k ≠ 0;
  gr_old : ∀ k, 0 ≤ k < slots → bref m (dins i) k ≠ 0 → bref m' din' k = bref m (dins i) k;
  gr_data : ∀ k, 0 ≤ k < slots → k ≠ 12 → bref m (dins i) k ≠ 0 → blk m' (bref m (dins i) k) = blk m (bref m (dins i) k);
  gr_new : ∀ k, 0 ≤ k < slots → bref m' din' k ≠ 0 → bref m (dins i) k ≠ 0 ∨ k ∈ ks;
  gr_kept : ∀ j, live m j → j ≠ i → kept m m' (dins j);
  gr_meta : ∀ b, b < nmeta → blk m' b = blk m b;
}.

Lemma image_ok_ext m dins dins' : (∀ j, dins j = dins' j) → image_ok m dins → image_ok m dins'.
Proof.
  intros E [H1 H2 H3 H4 H5 H6 H7 H8 H9 H10]. split; try done.
  - intros j. rewrite <- E. apply H8.
  - intros j k. rewrite <- E. apply H9.
  - intros j k j' k'. rewrite <- !E. apply H10.
Qed.

Lemma allocated_meta i dins m m' din' k b : image_ok m dins → live m i → allocated m (dins i) m' din' k → b < nmeta → blk m' b = blk m b.
Proof.
  intros Hok Hi Hal Hb. destruct (al_blk _ _ _ _ _ Hal b) as [E|(_ & -> & H0 & _)]; [done|].
  pose proof (ind_range m dins i 12 Hok Hi ltac:(unfold slots; lia) H0). lia.
Qed.

(** The data of the file itself stays when a slot is allotted. *)
Lemma allocated_data i dins m m' din' k k' : image_ok m dins → live m i → allocated m (dins i) m' din' k →
  0 ≤ k' < slots → k' ≠ 12 → bref m (dins i) k' ≠ 0 → blk m' (bref m (dins i) k') = blk m (bref m (dins i) k').
Proof.
  intros Hok Hi Hal Hk' Hne H0. destruct (al_blk _ _ _ _ _ Hal (bref m (dins i) k')) as [E|(_ & E & _)]; [done|].
  destruct (io_inj _ _ Hok i k' i 12) as [_ E']; [done|done|done|unfold slots; lia|done|done|]. lia.
Qed.

Lemma live_mono m m' i : mk_freeinode m' = mk_freeinode m → live m' i ↔ live m i.
Proof. intros E. unfold live. by rewrite E. Qed.

Lemma grown_refl i dins m : image_ok m dins → grown i dins m m (dins i) [].
Proof.
  intros Hok. split; try done; [|cbn; lia|set_solver|by left].
  apply (image_ok_ext m dins); [|done]. intros j. unfold upd. by destruct (Z.eqb_spec j i) as [->|].
Qed.

Lemma grown_one i dins m m' din' k : image_ok m dins → live m i → mk_freeblock m < FSSIZE → 0 ≤ k < slots →
  bref m (dins i) k = 0 → allocated m (dins i) m' din' k → grown i dins m m' din' [k].
Proof.
  intros Hok Hi Hr Hk H0 Hal. pose proof (io_fb _ _ Hok) as Hfb. pose proof consts as (Hc1 & _). split.
  - by apply (allocated_ok i dins m m' din' k Hok Hi Hk Hr Hal).
  - apply (al_fi _ _ _ _ _ Hal).
  - apply (al_fb _ _ _ _ _ Hal).
  - apply (al_head _ _ _ _ _ Hal).
  - intros k' ->%list_elem_of_singleton. rewrite (al_new _ _ _ _ _ Hal). lia.
  - intros k' Hk' Hk0. apply (al_old _ _ _ _ _ Hal); [done|]. by intros ->.
  - intros k' Hk' Hk12 Hk0. by apply (allocated_data i dins m m' din' k k' Hok Hi Hal).
  - intros k' Hk' Hk0. destruct (Z.eq_dec k' k) as [->|Hne]; [right; set_solver|left]. by rewrite <- (al_old _ _ _ _ _ Hal).
  - intros j Hj Hne. by apply (allocated_kept i dins m m' din' k Hok Hi Hk Hr Hal).
  - intros b Hb. by apply (allocated_meta i dins m m' din' k b Hok Hi Hal).
Qed.

Lemma grown_trans i dins m m1 m2 din1 din2 ks1 ks2 :
  Forall (λ k, 0 ≤ k < slots) ks1 → grown i dins m m1 din1 ks1 → grown i (upd dins i din1) m1 m2 din2 ks2 → grown i dins m m2 din2 (ks1 ++ ks2).
Proof.
  intros Hks G1 G2. rewrite Forall_forall in Hks. destruct G1 as [O1 I1 F1 T1 R1 P1 D1 N1 K1 M1], G2 as [O2 I2 F2 T2 R2 P2 D2 N2 K2 M2].
  rewrite upd_eq in P2, D2, N2, T2. split.
  - eapply image_ok_ext; [|exact O2]. intros j. unfold upd. by destruct (j =? i).
  - congruence.
  - rewrite length_app. lia.
  - congruence.
  - intros k [Hk|Hk]%elem_of_app; [rewrite P2; auto|auto].
  - intros k Hk H0. rewrite P2, P1; [done|done|done|done|]. by rewrite P1.
  - intros k Hk H12 H0. rewrite <- (D1 k) by done. rewrite <- (P1 k) in * by done. apply D2; done.
  - intros k Hk H0. destruct (N2 k Hk H0) as [H|H]; [destruct (N1 k Hk H); [by left|right; set_solver]|right; set_solver].
  - intros j Hj Hne. eapply kept_trans; [by apply K1|]. specialize (K2 j). rewrite upd_ne in K2 by done. apply K2; [|done]. by apply (live_mono m m1 j I1).
  - intros b Hb. rewrite M2, M1; done.
Qed.

Section Block.
Variables (i : Z) (dins : Z → list Z) (m : mkfs) (off : Z) (e : list (mkfs → mkfs)).
Hypothesis Hok : image_ok m dins.
Hypothesis Hi : live m i.
Hypothesis Hal : allotted m (dins i) off.
Hypothesis Hoff : 0 ≤ off < MAXFILE * BSIZE.
Hypothesis Hroom : mk_freeblock m + (blocks_of (off + 1) - blocks_of off) ≤ FSSIZE.
Let fbn := off / 1024.

Lemma fbn_range : 0 ≤ fbn < 268.
Proof using Hoff. unfold fbn. change (MAXFILE * BSIZE) with (268 * 1024) in Hoff. zlia. Qed.

(** Which slots have a block, in terms of the offset. *)
Lemma slot_used k : 0 ≤ k < slots → bref m (dins i) k ≠ 0 ↔ needs off k.
Proof using Hal. apply Hal. Qed.

Lemma fbn_used : bref m (dins i) (slot fbn) ≠ 0 ↔ off mod 1024 ≠ 0.
Proof using Hal Hoff.
  pose proof fbn_range. rewrite slot_used by (apply slot_range; change MAXFILE with 268; lia).
  unfold needs, slot, BSIZE. unfold fbn in *. destruct (Z.ltb_spec (off / 1024) 12).
  - destruct (Z.ltb_spec (off / 1024) 12); [|lia]. zlia.
  - destruct (Z.ltb_spec (off / 1024 + 1) 12); [lia|]. destruct (Z.eqb_spec (off / 1024 + 1) 12); [lia|]. zlia.
Qed.

Lemma ind_used : bref m (dins i) 12 ≠ 0 ↔ 12 * 1024 < off.
Proof using Hal Hoff. rewrite slot_used by (unfold slots; lia). done. Qed.

(** The run of [iappend_block] when the indirect block is in place. *)
Lemma block_indirect m1 dins1 : image_ok m1 dins1 → live m1 i → 12 ≤ fbn → bref m1 (dins1 i) 12 ≠ 0 →
  iappend_block (dins1 i) fbn e m1 =
    (indirect ← (if get32 (blk m1 (bref m1 (dins1 i) 12)) (Z.to_nat (4 * (slot fbn - 13))) =? 0 then
        let indirect := blk m1 (bref m1 (dins1 i) 12) in
        let o := Z.to_nat (4 * (slot fbn - 13)) in
        b ← next_block;
        wsect (bref m1 (dins1 i) 12) (put32 indirect o (xint b));;
        mret (put32 indirect o (xint b))
      else mret (blk m1 (bref m1 (dins1 i) 12)));
     mret (xint (get32 indirect (Z.to_nat (4 * (slot fbn - 13)))), dins1 i)) e m1.
Proof using Type.
  intros Hok1 Hi1 Hf H12. pose proof (ind_range m1 dins1 i 12 Hok1 Hi1 ltac:(unfold slots; lia) H12) as Hir.
  pose proof (bref_xint m1 dins1 i 12 Hok1 Hi1 ltac:(unfold slots; lia)) as Hx. rewrite bref_12 in *.
  unfold iappend_block. destruct (Z.ltb_spec fbn (Z.of_nat NDIRECT)) as [Hlt|]; [unfold NDIRECT in Hlt; lia|].
  change (Z.of_nat NDIRECT) with 12. unfold addr_alloc. rewrite Hx. destruct (Z.eqb_spec (addr_of (dins1 i) 12) 0); [done|].
  rewrite mret_bind. cbv zeta. rewrite Hx. pose proof consts as (Hc1 & Hc2 & _).
  run (rsect_run m1 dins1 (addr_of (dins1 i) 12) e Hok1 ltac:(lia)).
  assert (4 * (slot fbn - 13) = 4 * (fbn - 12)) as -> by (unfold slot; destruct (Z.ltb_spec fbn 12); lia). done.
Qed.

(** The slot has its block already. *)
Lemma block_present m1 dins1 : image_ok m1 dins1 → live m1 i → bref m1 (dins1 i) (slot fbn) ≠ 0 → (12 ≤ fbn → bref m1 (dins1 i) 12 ≠ 0) →
  iappend_block (dins1 i) fbn e m1 = Ret (bref m1 (dins1 i) (slot fbn), dins1 i) e m1.
Proof using Hoff.
  intros Hok1 Hi1 H0 H12. pose proof fbn_range as Hf. pose proof (slot_range fbn ltac:(change MAXFILE with 268; lia)) as [Hs Hs12].
  pose proof (bref_xint m1 dins1 i (slot fbn) Hok1 Hi1 Hs) as Hx.
  destruct (Z.lt_ge_cases fbn 12) as [Hlt|Hge].
  - assert (slot fbn = fbn) as Es by (unfold slot; destruct (Z.ltb_spec fbn 12); lia). rewrite Es in *.
    assert (bref m1 (dins1 i) fbn = addr_of (dins1 i) fbn) as Eb by (unfold bref; destruct (Z.leb_spec fbn 12); [done|lia]). rewrite Eb in *.
    unfold iappend_block. destruct (Z.ltb_spec fbn (Z.of_nat NDIRECT)) as [|Hx']; [|unfold NDIRECT in Hx'; lia].
    unfold addr_alloc. rewrite Hx. destruct (Z.eqb_spec (addr_of (dins1 i) fbn) 0); [done|]. rewrite mret_bind. by rewrite Hx.
  - specialize (H12 Hge). rewrite block_indirect by done.
    assert (bref m1 (dins1 i) (slot fbn) = get32 (blk m1 (bref m1 (dins1 i) 12)) (Z.to_nat (4 * (slot fbn - 13)))) as Eb.
    { rewrite bref_12 in *. unfold bref. destruct (Z.leb_spec (slot fbn) 12) as [Hle|]; [unfold slot in Hle; destruct (Z.ltb_spec fbn 12); lia|].
      by destruct (Z.eqb_spec (addr_of (dins1 i) 12) 0). }
    rewrite <- Eb. destruct (Z.eqb_spec (bref m1 (dins1 i) (slot fbn)) 0); [done|]. rewrite mret_bind, <- Eb. by rewrite Hx.
Qed.

(** One entry of the indirect block is allotted. *)
Lemma block_entry m1 dins1 : image_ok m1 dins1 → live m1 i → 12 ≤ fbn → mk_freeblock m1 < FSSIZE →
  bref m1 (dins1 i) 12 ≠ 0 → bref m1 (dins1 i) (slot fbn) = 0 →
  ∃ m', iappend_block (dins1 i) fbn e m1 = Ret (bref m' (dins1 i) (slot fbn), dins1 i) e m' ∧ allocated m1 (dins1 i) m' (dins1 i) (slot fbn).
Proof using Hoff.
  intros Hok1 Hi1 Hge Hr H12 H0. pose proof fbn_range as Hf.
  assert (slot fbn = fbn + 1) as Es by (unfold slot; destruct (Z.ltb_spec fbn 12); lia).
  destruct (alloc_indirect i dins1 m1 (slot fbn) e Hok1 Hi1 ltac:(unfold slots; lia) Hr H12 H0) as (m' & E & Hall).
  exists m'. split; [|done]. rewrite block_indirect by done.
  assert (∀ mm, bref mm (dins1 i) (slot fbn) = get32 (blk mm (bref m1 (dins1 i) 12)) (Z.to_nat (4 * (slot fbn - 13)))) as Eb.
  { intros mm. rewrite bref_12 in *. unfold bref. destruct (Z.leb_spec (slot fbn) 12) as [Hle|]; [lia|].
    by destruct (Z.eqb_spec (addr_of (dins1 i) 12) 0). }
  rewrite <- Eb, H0. cbn [Z.eqb]. run E. rewrite <- Eb.
  pose proof (allocated_ok i dins1 m1 m' (dins1 i) (slot fbn) Hok1 Hi1 ltac:(unfold slots; lia) Hr Hall) as Hok'.
  pose proof (bref_xint m' (upd dins1 i (dins1 i)) i (slot fbn) Hok' ltac:(by eapply allocated_live) ltac:(unfold slots; lia)) as Hx.
  rewrite upd_eq in Hx. by rewrite Hx.
Qed.
End Block.
