(* ===== verification/MkfsAppend.v ===== *)
(** * MkfsAppend: iappend extends a file

    [iappend] adds its bytes to the end of the file, allotting a block whenever
    the file has none for the next byte, and leaves every other file alone. *)

From S2P Require Import Prelude Params CString State Bytes Fs Mkfs MkfsInv.

Implicit Types (m : mkfs) (din : list Z) (e : list (mkfs → mkfs)).

(** The slots to allot for the byte at [off]. *)
Definition new_slots (off : Z) : list Z :=
  if off mod 1024 =? 0 then
    if off / 1024 <? 12 then [off / 1024] else if off / 1024 =? 12 then [12; 13] else [off / 1024 + 1]
  else [].

Lemma new_slots_count off : 0 ≤ off → Z.of_nat (length (new_slots off)) = blocks_of (off + 1) - blocks_of off.
Proof.
  intros Ho. unfold new_slots, blocks_of. destruct (Z.eqb_spec (off mod 1024) 0).
  - destruct (Z.ltb_spec (off / 1024) 12); [|destruct (Z.eqb_spec (off / 1024) 12)]; cbn [length].
    + destruct (Z.ltb_spec (12 * 1024) (off + 1)), (Z.ltb_spec (12 * 1024) off); zlia.
    + destruct (Z.ltb_spec (12 * 1024) (off + 1)), (Z.ltb_spec (12 * 1024) off); zlia.
    + destruct (Z.ltb_spec (12 * 1024) (off + 1)), (Z.ltb_spec (12 * 1024) off); zlia.
  - cbn [length]. destruct (Z.ltb_spec (12 * 1024) (off + 1)), (Z.ltb_spec (12 * 1024) off); zlia.
Qed.

(** The slots cover exactly what one byte more needs. *)
Lemma new_slots_needs off k : 0 ≤ off → 0 ≤ k < slots → needs (off + 1) k ↔ needs off k ∨ k ∈ new_slots off.
Proof.
  intros Ho Hk. unfold needs, new_slots, BSIZE. destruct (Z.eqb_spec (off mod 1024) 0).
  - destruct (Z.ltb_spec (off / 1024) 12); [|destruct (Z.eqb_spec (off / 1024) 12)].
    all: rewrite ?elem_of_cons, ?elem_of_nil; destruct (Z.ltb_spec k 12), (Z.eqb_spec k 12); zlia.
  - rewrite elem_of_nil. destruct (Z.ltb_spec k 12), (Z.eqb_spec k 12); zlia.
Qed.

Section Block.
Variables (i : Z) (dins : Z → list Z) (m : mkfs) (off : Z) (e : list (mkfs → mkfs)).
Hypothesis Hok : image_ok m dins.
Hypothesis Hi : live m i.
Hypothesis Hal : allotted m (dins i) off.
Hypothesis Hoff : 0 ≤ off < MAXFILE * BSIZE.
Hypothesis Hroom : mk_freeblock m + (blocks_of (off + 1) - blocks_of off) ≤ FSSIZE.
Let fbn := off / 1024.

Lemma fbn_bound : 0 ≤ fbn < 268.
Proof. unfold fbn. change (MAXFILE * BSIZE) with (268 * 1024) in Hoff. zlia. Qed.

Lemma iappend_block_run : ∃ m' din', iappend_block (dins i) fbn e m = Ret (bref m' din' (slot fbn), din') e m' ∧
  grown i dins m m' din' (new_slots off) ∧ bref m' din' (slot fbn) ≠ 0.
Proof.
  pose proof fbn_bound as Hf. pose proof (slot_range fbn ltac:(change MAXFILE with 268; lia)) as [Hs Hs12].
  pose proof (fbn_used i dins m off Hal Hoff) as Hused. fold fbn in Hused. pose proof (ind_used i dins m off Hal Hoff) as Hind.
  pose proof (new_slots_count off ltac:(lia)) as Hcount. unfold new_slots in *. fold fbn in Hcount |- *.
  destruct (Z.eqb_spec (off mod 1024) 0) as [Hz|Hz].
  2:{ exists m, (dins i). split_and!; [|by apply grown_refl|exact (proj2 Hused Hz)].
      apply (block_present i off e Hoff); [done|done|exact (proj2 Hused Hz)|]. intros H12. apply (proj2 Hind). unfold fbn in H12. zlia. }
  assert (bref m (dins i) (slot fbn) = 0) as H0 by (destruct (Z.eq_dec (bref m (dins i) (slot fbn)) 0) as [|Hn]; [done|by apply Hused in Hn]).
  destruct (Z.ltb_spec fbn 12) as [Hlt|Hge]; [|destruct (Z.eqb_spec fbn 12) as [H12|Hgt]].
  - assert (slot fbn = fbn) as Es by (unfold slot; destruct (Z.ltb_spec fbn 12); lia). rewrite Es in *. cbn [length] in Hcount.
    destruct (alloc_direct i dins m fbn e Hok Hi ltac:(lia) ltac:(lia) H0) as (m' & din' & E & Ha).
    pose proof (grown_one i dins m m' din' fbn Hok Hi ltac:(lia) Hs H0 Ha) as G.
    exists m', din'. split_and!; [|done|by apply (gr_ref _ _ _ _ _ _ G); set_solver].
    unfold iappend_block. destruct (Z.ltb_spec fbn (Z.of_nat NDIRECT)) as [|Hx]; [|unfold NDIRECT in Hx; lia]. run E.
    pose proof (bref_xint m' (upd dins i din') i fbn (gr_ok _ _ _ _ _ _ G) ltac:(by apply (live_mono m m' i (gr_fi _ _ _ _ _ _ G))) Hs) as Hx.
    rewrite upd_eq in Hx. unfold bref in Hx |- *. destruct (Z.leb_spec fbn 12); [|lia]. by rewrite Hx.
  - cbn [length] in Hcount. assert (slot fbn = 13) as Es by (unfold slot; destruct (Z.ltb_spec fbn 12); lia). rewrite Es in *.
    assert (bref m (dins i) 12 = 0) as H0'.
    { destruct (Z.eq_dec (bref m (dins i) 12) 0) as [|Hn]; [done|]. pose proof (proj1 Hind Hn). unfold fbn in *. zlia. }
    destruct (alloc_direct i dins m 12 e Hok Hi ltac:(lia) ltac:(lia) H0') as (m1 & din1 & E1 & Ha1).
    pose proof (grown_one i dins m m1 din1 12 Hok Hi ltac:(lia) ltac:(unfold slots; lia) H0' Ha1) as G1.
    set (dins1 := upd dins i din1) in *. assert (dins1 i = din1) as Ed by apply upd_eq.
    assert (live m1 i) as Hi1 by (by apply (live_mono m m1 i (gr_fi _ _ _ _ _ _ G1))).
    pose proof (gr_fb _ _ _ _ _ _ G1) as Hfb1. cbn [length] in Hfb1.
    pose proof (gr_ref _ _ _ _ _ _ G1 12 ltac:(set_solver)) as R1.
    assert (bref m1 din1 13 = 0) as H13 by (rewrite (al_old _ _ _ _ _ Ha1) by (unfold slots; lia); done).
    rewrite <- Ed in R1, H13.
    destruct (block_entry i off e Hoff m1 dins1 (gr_ok _ _ _ _ _ _ G1) Hi1) as (m' & E & Ha); fold fbn; [lia|lia|done|by rewrite Es|].
    fold fbn in E, Ha. rewrite Es in E, Ha. rewrite Ed in E. rewrite Ed in Ha at 2.
    pose proof (grown_one i dins1 m1 m' din1 13 (gr_ok _ _ _ _ _ _ G1) Hi1 ltac:(lia) Hs H13 Ha) as G2.
    exists m', din1. split_and!; [|by apply (grown_trans i dins m m1 m' din1 din1 [12] [13]); [repeat constructor|..]|apply (gr_ref _ _ _ _ _ _ G2); set_solver].
    rewrite <- E. rewrite H12. unfold iappend_block. destruct (Z.ltb_spec 12 (Z.of_nat NDIRECT)) as [Hx|]; [unfold NDIRECT in Hx; lia|].
    change (Z.of_nat NDIRECT) with 12. run E1.
    assert (addr_alloc din1 12 e m1 = Ret din1 e m1) as E2.
    { pose proof (bref_xint m1 dins1 i 12 (gr_ok _ _ _ _ _ _ G1) Hi1 ltac:(unfold slots; lia)) as Hx. rewrite bref_12, Ed in *.
      unfold addr_alloc. rewrite Hx. by destruct (Z.eqb_spec (addr_of din1 12) 0). }
    by run E2.
  - cbn [length] in Hcount. assert (slot fbn = fbn + 1) as Es by (unfold slot; destruct (Z.ltb_spec fbn 12); lia).
    assert (bref m (dins i) 12 ≠ 0) as H12 by (apply (proj2 Hind); unfold fbn in *; zlia).
    destruct (block_entry i off e Hoff m dins Hok Hi) as (m' & E & Ha); [done|lia|done|done|]. fold fbn in E, Ha.
    pose proof (grown_one i dins m m' (dins i) (slot fbn) Hok Hi ltac:(lia) Hs H0 Ha) as G.
    exists m', (dins i). rewrite <- Es. split_and!; [done|done|]. apply (gr_ref _ _ _ _ _ _ G). set_solver.
Qed.
End Block.

(** ** The bytes of a file *)

Definition fbyte m din (o : Z) : Z := default 0 (blk m (bref m din (slot (o / 1024))) !! Z.to_nat (o mod 1024)).
Definition fbytes m din (n : nat) : list Z := (λ k : nat, fbyte m din (Z.of_nat k)) <$> seq 0 n.

Lemma fbyte_kept m m' din o : kept m m' din → 0 ≤ o < MAXFILE * BSIZE → bref m din (slot (o / 1024)) ≠ 0 → fbyte m' din o = fbyte m din o.
Proof.
  intros [B D] Ho H0. pose proof (slot_range (o / 1024) ltac:(change (MAXFILE * BSIZE) with (268 * 1024) in Ho; change MAXFILE with 268; zlia)) as [Hs Hs12].
  unfold fbyte. by rewrite B, D.
Qed.

Lemma needs_byte size o : 0 ≤ o < size → needs size (slot (o / 1024)).
Proof.
  intros Ho. unfold needs, slot, BSIZE. destruct (Z.ltb_spec (o / 1024) 12).
  - destruct (Z.ltb_spec (o / 1024) 12); [|lia]. zlia.
  - destruct (Z.ltb_spec (o / 1024 + 1) 12); [lia|]. destruct (Z.eqb_spec (o / 1024 + 1) 12); zlia.
Qed.

Lemma needs_block off n1 k : 0 ≤ off → 1 ≤ n1 ≤ 1024 - off mod 1024 → 0 ≤ k → needs (off + n1) k ↔ needs (off + 1) k.
Proof. intros Ho Hn Hk. unfold needs, BSIZE. destruct (Z.ltb_spec k 12), (Z.eqb_spec k 12); zlia. Qed.

Lemma blocks_block off n1 : 0 ≤ off → 1 ≤ n1 ≤ 1024 - off mod 1024 → blocks_of (off + n1) = blocks_of (off + 1).
Proof.
  intros Ho Hn. unfold blocks_of. f_equal; [zlia|]. destruct (Z.ltb_spec (12 * 1024) (off + n1)), (Z.ltb_spec (12 * 1024) (off + 1)); zlia.
Qed.

(** Bytes have been added to the file [i], whose dinode is now [din'] and whose
    size was [off]. *)
Record appended i dins m (off : Z) m' din' (bytes : list Z) : Prop := Appended {
  ap_ok : image_ok m' (upd dins i din');
  ap_fi : mk_freeinode m' = mk_freeinode m;
  ap_fb : mk_freeblock m' = mk_freeblock m + (blocks_of (off + Z.of_nat (length bytes)) - blocks_of off);
  ap_head : take 12 din' = take 12 (dins i);
  ap_allot : allotted m' din' (off + Z.of_nat (length bytes));
  ap_bytes : fbytes m' din' (Z.to_nat (off + Z.of_nat (length bytes))) = fbytes m (dins i) (Z.to_nat off) ++ bytes;
  ap_kept : ∀ j, live m j → j ≠ i → kept m m' (dins j);
  ap_meta : ∀ b, b < nmeta → blk m' b = blk m b;
}.

Lemma appended_nil i dins m off : image_ok m dins → allotted m (dins i) off → 0 ≤ off → appended i dins m off m (dins i) [].
Proof.
  intros Hok Ha Ho. split; try done; cbn [length]; rewrite ?Z.add_0_r, ?app_nil_r; [|lia|done|done].
  apply (image_ok_ext m dins); [|done]. intros j. unfold upd. by destruct (Z.eqb_spec j i) as [->|].
Qed.

Lemma appended_app i dins m off m1 din1 b1 m2 din2 b2 : 0 ≤ off → appended i dins m off m1 din1 b1 →
  appended i (upd dins i din1) m1 (off + Z.of_nat (length b1)) m2 din2 b2 → appended i dins m off m2 din2 (b1 ++ b2).
Proof.
  intros Ho [O1 I1 F1 T1 A1 B1 K1 M1] [O2 I2 F2 T2 A2 B2 K2 M2]. rewrite upd_eq in T2, B2. rewrite <- Z.add_assoc, <- Nat2Z.inj_add, <- length_app in *. split.
  - eapply image_ok_ext; [|exact O2]. intros j. unfold upd. by destruct (j =? i).
  - congruence.
  - lia.
  - congruence.
  - done.
  - by rewrite B2, B1, app_assoc.
  - intros j Hj Hne. eapply kept_trans; [by apply K1|]. specialize (K2 j). rewrite upd_ne in K2 by done. apply K2; [|done]. by apply (live_mono m m1 j I1).
  - intros b Hb. rewrite M2, M1; done.
Qed.

Lemma splice_lookup data off bs k : (off + length bs ≤ length data)%nat →
  splice data off bs !! k = if decide (off ≤ k < off + length bs)%nat then bs !! (k - off)%nat else data !! k.
Proof.
  intros Hl. unfold splice. destruct (decide (off ≤ k < off + length bs)%nat) as [[H1 H2]|Hn].
  - rewrite lookup_app_r by (rewrite length_take; lia). rewrite length_take_le by lia. by rewrite lookup_app_l by lia.
  - destruct (decide (k < off)%nat).
    + rewrite lookup_app_l by (rewrite length_take; lia). by rewrite lookup_take_lt.
    + rewrite lookup_app_r by (rewrite length_take; lia). rewrite length_take_le by lia. rewrite lookup_app_r by lia.
      rewrite lookup_drop. f_equal. lia.
Qed.

(** ** One iteration *)

Lemma blocks_mono a b : a ≤ b → blocks_of a ≤ blocks_of b.
Proof. intros H. unfold blocks_of. destruct (Z.ltb_spec (12 * 1024) a), (Z.ltb_spec (12 * 1024) b); zlia. Qed.

Section Step.
Variables (i : Z) (dins : Z → list Z) (m : mkfs) (off : Z) (p : list Z) (e : list (mkfs → mkfs)).
Let n := Z.of_nat (length p).
Let fbn := off / 1024.
Let n1 := Z.min n (1024 - off mod 1024).
Hypothesis Hok : image_ok m dins.
Hypothesis Hi : live m i.
Hypothesis Hal : allotted m (dins i) off.
Hypothesis Hoff : 0 ≤ off.
Hypothesis Hn : 0 < n.
Hypothesis Hmax : off + n ≤ MAXFILE * BSIZE.
Hypothesis Hroom : mk_freeblock m + (blocks_of (off + n) - blocks_of off) ≤ FSSIZE.

Lemma n1_range : 1 ≤ n1 ≤ 1024 - off mod 1024 ∧ n1 ≤ n.
Proof. unfold n1. zlia. Qed.

Variables (m1 : mkfs) (din1 : list Z).
Hypothesis G : grown i dins m m1 din1 (new_slots off).
Hypothesis Href : bref m1 din1 (slot fbn) ≠ 0.
Let x := bref m1 din1 (slot fbn).
Let buf := splice (blk m1 x) (Z.to_nat (off - fbn * BSIZE)) (take (Z.to_nat n1) p).
Let m2 := wrote m1 x buf.
Let dins1 := upd dins i din1.

Lemma fbn_ok : 0 ≤ slot fbn < slots ∧ slot fbn ≠ 12.
Proof. apply slot_range. unfold fbn. change (MAXFILE * BSIZE) with (268 * 1024) in Hmax. change MAXFILE with 268. zlia. Qed.

Lemma piece_length : length (take (Z.to_nat n1) p) = Z.to_nat n1.
Proof. pose proof n1_range. rewrite length_take. unfold n in *. lia. Qed.

Lemma block_offset : off - fbn * BSIZE = off mod 1024.
Proof. unfold fbn, BSIZE. zlia. Qed.

Lemma length_buf : length buf = 1024%nat.
Proof.
  unfold buf. rewrite length_splice; rewrite (io_size _ _ (gr_ok _ _ _ _ _ _ G)); [done|].
  rewrite piece_length, block_offset. pose proof n1_range. zlia.
Qed.

Lemma step_live j : live m j → live m1 j.
Proof. apply (live_mono m m1 j (gr_fi _ _ _ _ _ _ G)). Qed.

Lemma step_x : x = bref m1 (dins1 i) (slot fbn).
Proof. unfold dins1. by rewrite upd_eq. Qed.

Lemma step_ok : image_ok m2 dins1.
Proof.
  destruct fbn_ok as [Hs Hs12]. unfold m2. rewrite step_x.
  apply data_ok; [apply (gr_ok _ _ _ _ _ _ G)|by apply step_live|done|done|by unfold dins1; rewrite upd_eq|apply length_buf].
Qed.

Lemma step_bref j k : live m j → 0 ≤ k < slots → bref m2 (dins1 j) k = bref m1 (dins1 j) k.
Proof.
  intros Hj Hk. destruct fbn_ok as [Hs Hs12]. unfold m2. rewrite step_x.
  apply (data_kept i (slot fbn) dins1 m1 buf j (gr_ok _ _ _ _ _ _ G) (step_live _ Hi) (step_live _ Hj) Hs Hs12); [by unfold dins1; rewrite upd_eq|apply length_buf|done].
Qed.

Lemma step_data j k : live m j → 0 ≤ k < slots → k ≠ 12 → bref m1 (dins1 j) k ≠ 0 → (j, k) ≠ (i, slot fbn) →
  blk m2 (bref m1 (dins1 j) k) = blk m1 (bref m1 (dins1 j) k).
Proof.
  intros Hj Hk H12 H0 Hd. destruct fbn_ok as [Hs Hs12]. unfold m2. rewrite step_x.
  by apply (data_kept i (slot fbn) dins1 m1 buf j (gr_ok _ _ _ _ _ _ G) (step_live _ Hi) (step_live _ Hj) Hs Hs12); [unfold dins1; rewrite upd_eq|apply length_buf|..].
Qed.

Lemma step_kept j : live m j → j ≠ i → kept m m2 (dins j).
Proof.
  intros Hj Hne. eapply kept_trans; [by apply (gr_kept _ _ _ _ _ _ G)|].
  assert (dins1 j = dins j) as E by (by apply upd_ne). rewrite <- E. split.
  - intros k Hk. by apply step_bref.
  - intros k Hk H12 H0. apply step_data; try done. by intros [= ? _].
Qed.

Lemma step_allot : allotted m2 din1 (off + n1).
Proof.
  intros k Hk. pose proof n1_range as [H1 H2]. rewrite needs_block by lia. rewrite new_slots_needs by done. rewrite <- (Hal k Hk).
  pose proof (step_bref i k Hi Hk) as E. unfold dins1 in E. rewrite upd_eq in E. rewrite E. split.
  - by apply (gr_new _ _ _ _ _ _ G).
  - intros [H0|Hin]; [by rewrite (gr_old _ _ _ _ _ _ G)|by apply (gr_ref _ _ _ _ _ _ G)].
Qed.

(** What the block of the offset holds now. *)
Lemma step_new o : off ≤ o < off + n1 → fbyte m2 din1 o = default 0 (p !! Z.to_nat (o - off)).
Proof.
  intros Ho. pose proof n1_range as [H1 H2]. assert (o / 1024 = fbn) as Eo by (unfold fbn; zlia).
  destruct fbn_ok as [Hs _]. unfold fbyte. rewrite Eo.
  pose proof (step_bref i (slot fbn) Hi Hs) as E. unfold dins1 in E. rewrite upd_eq in E. rewrite E. fold x. unfold m2. rewrite blk_wrote_eq.
  unfold buf. rewrite splice_lookup.
  2:{ rewrite piece_length, (io_size _ _ (gr_ok _ _ _ _ _ _ G)), block_offset. zlia. }
  rewrite piece_length, block_offset. rewrite decide_True by zlia. rewrite lookup_take_lt by zlia. do 2 f_equal. zlia.
Qed.

Lemma step_old o : 0 ≤ o < off → fbyte m2 din1 o = fbyte m (dins i) o.
Proof.
  intros Ho. pose proof n1_range as [H1 H2]. pose proof (slot_range (o / 1024)) as Hso. change (MAXFILE * BSIZE) with (268 * 1024) in Hmax. change MAXFILE with 268 in Hso.
  destruct Hso as [Hs Hs12]; [unfold n in *; zlia|].
  pose proof (needs_byte off o Ho) as Hneed. apply (Hal _ Hs) in Hneed.
  unfold fbyte. pose proof (step_bref i (slot (o / 1024)) Hi Hs) as E. unfold dins1 in E. rewrite upd_eq in E. rewrite E.
  rewrite <- (gr_data _ _ _ _ _ _ G) by done. rewrite <- (gr_old _ _ _ _ _ _ G) in * by done.
  destruct (Z.eq_dec (slot (o / 1024)) (slot fbn)) as [Es|Hne].
  - rewrite Es. fold x. unfold m2. rewrite blk_wrote_eq. unfold buf. rewrite splice_lookup.
    2:{ rewrite piece_length, (io_size _ _ (gr_ok _ _ _ _ _ _ G)), block_offset. zlia. }
    assert (o / 1024 = fbn) as Eo by (unfold slot in Es; destruct (Z.ltb_spec (o / 1024) 12), (Z.ltb_spec fbn 12); lia).
    rewrite decide_False; [done|]. rewrite block_offset. unfold fbn in Eo. zlia.
  - pose proof (step_data i (slot (o / 1024)) Hi Hs Hs12) as D. unfold dins1 in D. rewrite upd_eq in D. rewrite D; [done|done|]. by intros [= ?].
Qed.

Lemma step_appended : appended i dins m off m2 din1 (take (Z.to_nat n1) p).
Proof.
  pose proof n1_range as [H1 H2]. assert (off + Z.of_nat (length (take (Z.to_nat n1) p)) = off + n1) as El by (rewrite piece_length; lia).
  split; try rewrite El.
  - apply step_ok.
  - apply (gr_fi _ _ _ _ _ _ G).
  - rewrite blocks_block by lia. rewrite <- new_slots_count by done. apply (gr_fb _ _ _ _ _ _ G).
  - apply (gr_head _ _ _ _ _ _ G).
  - apply step_allot.
  - unfold fbytes. rewrite Z2Nat.inj_add by lia. rewrite seq_app, fmap_app. f_equal.
    + apply list_fmap_ext. intros j k [-> Hj]%lookup_seq. apply step_old. lia.
    + apply list_eq. intros k. rewrite list_lookup_fmap. destruct (decide (k < Z.to_nat n1)%nat) as [Hk|Hk].
      * rewrite lookup_seq_lt by done. cbn. rewrite step_new by lia. rewrite lookup_take_lt by done.
        replace (Z.to_nat (Z.of_nat (Z.to_nat off + k) - off)) with k by lia.
        destruct (lookup_lt_is_Some_2 p k) as [c Hc]; [unfold n in *; lia|]. by rewrite Hc.
      * rewrite lookup_seq_ge by lia. rewrite lookup_take_ge by lia. done.
  - apply step_kept.
  - intros b Hb. unfold m2. destruct fbn_ok as [Hs Hs12].
    pose proof (ind_range m1 dins1 i (slot fbn) (gr_ok _ _ _ _ _ _ G) (step_live _ Hi) Hs) as Hr. rewrite <- step_x in Hr. specialize (Hr Href).
    rewrite blk_wrote_ne by lia. by apply (gr_meta _ _ _ _ _ _ G).
Qed.
End Step.

Lemma iappend_step_run i dins m off p e : image_ok m dins → live m i → allotted m (dins i) off → 0 ≤ off → p ≠ [] →
  off + Z.of_nat (length p) ≤ MAXFILE * BSIZE → mk_freeblock m + (blocks_of (off + Z.of_nat (length p)) - blocks_of off) ≤ FSSIZE →
  ∃ n1 m' din', (1 ≤ n1 ≤ length p)%nat ∧
    iappend_step (p, Z.of_nat (length p), off, dins i) e m = Ret (inl (drop n1 p, Z.of_nat (length (drop n1 p)), off + Z.of_nat n1, din')) e m' ∧
    appended i dins m off m' din' (take n1 p).
Proof.
  intros Hok Hi Hal Hoff Hp Hmax Hroom. assert (0 < Z.of_nat (length p)) as Hn by (destruct p; [done|cbn; lia]).
  pose proof (n1_range off p Hn) as [N1 N2].
  set (n1 := Z.min (Z.of_nat (length p)) (1024 - off mod 1024)) in *.
  assert (MAXFILE * BSIZE = 274432) as Emax by done.
  destruct (iappend_block_run i dins m off e Hok Hi Hal) as (m1 & din1 & E & G & Href); [lia| |].
  { pose proof (blocks_mono (off + 1) (off + Z.of_nat (length p)) ltac:(lia)). lia. }
  pose proof (step_appended i dins m off p Hi Hal Hoff Hn Hmax m1 din1 G Href) as Hap. fold n1 in Hap.
  set (x := bref m1 din1 (slot (off / 1024))) in *.
  pose proof (block_offset off) as Ebo.
  exists (Z.to_nat n1), (wrote m1 x (splice (blk m1 x) (Z.to_nat (off - off / 1024 * BSIZE)) (take (Z.to_nat n1) p))), din1.
  split_and!; [lia|lia| |exact Hap].
  assert (off / BSIZE = off / 1024) as Ed by done.
  assert (0 ≤ x < FSSIZE) as Hx.
  { pose proof (slot_range (off / 1024) ltac:(change MAXFILE with 268; zlia)) as [Hs Hs12]. unfold x.
    pose proof (ind_range m1 (upd dins i din1) i (slot (off / 1024)) (gr_ok _ _ _ _ _ _ G) ltac:(by apply (live_mono m m1 i (gr_fi _ _ _ _ _ _ G))) Hs) as Hr.
    rewrite upd_eq in Hr. specialize (Hr Href). pose proof consts as (Hc1 & _). lia. }
  unfold iappend_step. destruct (Z.ltb_spec 0 (Z.of_nat (length p))); [|lia]. rewrite Ed.
  destruct (Z.ltb_spec (off / 1024) MAXFILE) as [_|Hbad]; [|change MAXFILE with 268 in Hbad; zlia]. cbn [negb]. rewrite panic_if_bind.
  run E. run (rsect_run m1 _ x e (gr_ok _ _ _ _ _ _ G) Hx).
  assert (Z.min (Z.of_nat (length p)) ((off / 1024 + 1) * BSIZE - off) = n1) as -> by (unfold n1, BSIZE; zlia).
  run (wsect_run m1 x (splice (blk m1 x) (Z.to_nat (off - off / 1024 * BSIZE)) (take (Z.to_nat n1) p)) e (io_room _ _ (gr_ok _ _ _ _ _ _ G)) Hx).
  unfold mret, KM_ret. rewrite length_drop. rewrite wrapu_id by (change (2 ^ 32) with 4294967296; lia). repeat f_equal; lia.
Qed.

Lemma iappend_loop i dins m off p e : image_ok m dins → live m i → allotted m (dins i) off → 0 ≤ off →
  off + Z.of_nat (length p) ≤ MAXFILE * BSIZE → mk_freeblock m + (blocks_of (off + Z.of_nat (length p)) - blocks_of off) ≤ FSSIZE →
  ∃ k m' din', runs iappend_step (p, Z.of_nat (length p), off, dins i) e m k (off + Z.of_nat (length p), din') e m' ∧ k ≤ Z.of_nat (length p) + 1 ∧
    appended i dins m off m' din' p.
Proof.
  remember (length p) as len eqn:Hlen. revert dins m off p Hlen. induction (lt_wf len) as [len _ IH]. intros dins m off p -> Hok Hi Hal Hoff Hmax Hroom.
  destruct (decide (p = [])) as [->|Hp].
  - exists 1, m, (dins i). split_and!; [|cbn; lia|by apply appended_nil]. cbn [length]. rewrite Z.add_0_r. by apply runs_done.
  - destruct (iappend_step_run i dins m off p e Hok Hi Hal Hoff Hp Hmax Hroom) as (n1 & m1 & din1 & Hn1 & E & A).
    assert (length (take n1 p) = n1) as Ht by (rewrite length_take; lia).
    pose proof (ap_fb _ _ _ _ _ _ _ A) as Hfb. pose proof (ap_allot _ _ _ _ _ _ _ A) as Hal1. rewrite Ht in Hfb, Hal1.
    assert (length (drop n1 p) = (length p - n1)%nat) as Hd by apply length_drop.
    destruct (IH (length (drop n1 p)) ltac:(lia) (upd dins i din1) m1 (off + Z.of_nat n1) (drop n1 p) eq_refl) as (k & m' & din' & R & Hk & A').
    + apply (ap_ok _ _ _ _ _ _ _ A).
    + by apply (live_mono m m1 i (ap_fi _ _ _ _ _ _ _ A)).
    + by rewrite upd_eq.
    + lia.
    + lia.
    + replace (off + Z.of_nat n1 + Z.of_nat (length (drop n1 p))) with (off + Z.of_nat (length p)) by lia. lia.
    + rewrite upd_eq in R. exists (k + 1), m', din'. split_and!; [|lia|].
      * eapply runs_step; [exact E|]. replace (off + Z.of_nat (length p)) with (off + Z.of_nat n1 + Z.of_nat (length (drop n1 p))) by lia. exact R.
      * rewrite <- (take_drop n1 p). eapply appended_app; [done|exact A|]. by rewrite Ht.
Qed.

(** ** Dinodes on disk *)

Definition dsize din : Z := get32 din 8%nat.

(** Every file's dinode is on disk, and says how much of it there is. *)
Record files_ok m dins : Prop := FilesOk {
  fl_ok : image_ok m dins;
  fl_disk : ∀ j, live m j → slice (blk m (IBLOCK j the_sb)) (dinode_off j) 64 = dins j;
  fl_size : ∀ j, live m j → 0 ≤ dsize (dins j) ≤ MAXFILE * BSIZE;
  fl_allot : ∀ j, live m j → allotted m (dins j) (dsize (dins j));
}.

Lemma IBLOCK_val j : 1 ≤ j ≤ 200 → IBLOCK j the_sb = 32 + j / 16.
Proof.
  intros Hj. unfold IBLOCK. change IPB with 16. change (sb_inodestart the_sb) with 32. rewrite wrapu_id by (change (2 ^ 32) with 4294967296; zlia). lia.
Qed.

Lemma dinode_off_val j : dinode_off j = (64 * Z.to_nat (j mod 16))%nat.
Proof. unfold dinode_off. change IPB with 16. zlia. Qed.

(** Writing a sector in front of the data blocks. *)
Lemma meta_bref m dins b buf j k : image_ok m dins → b < nmeta → live m j → 0 ≤ k < slots → bref (wrote m b buf) (dins j) k = bref m (dins j) k.
Proof.
  intros Hok Hb Hj Hk. apply bref_wrote. destruct (Z.eq_dec (addr_of (dins j) 12) 0) as [|H0]; [by right|left].
  pose proof (ind_range m dins j 12 Hok Hj ltac:(unfold slots; lia) H0) as Hr. rewrite bref_12 in Hr. lia.
Qed.

Lemma meta_kept m dins b buf j : image_ok m dins → b < nmeta → live m j → kept m (wrote m b buf) (dins j).
Proof.
  intros Hok Hb Hj. split; [intros k Hk; by apply (meta_bref m dins)|]. intros k Hk _ H0.
  pose proof (ind_range m dins j k Hok Hj Hk H0). rewrite blk_wrote_ne by lia. done.
Qed.

Lemma meta_ok m dins b buf : image_ok m dins → 0 ≤ b < nmeta → length buf = 1024%nat → image_ok (wrote m b buf) dins.
Proof.
  intros Hok Hb Hl. pose proof consts as (Hc1 & Hc2 & _). pose proof (io_fb _ _ Hok).
  split; try apply Hok.
  - intros b'. unfold wrote. unfold set; cbn [mk_img]. rewrite lookup_insert_is_Some'. rewrite (io_sect _ _ Hok). naive_solver lia.
  - intros b'. rewrite blk_wrote. destruct (Z.eqb_spec b' b); [done|apply (io_size _ _ Hok)].
  - intros b' Hb'. change (mk_freeblock m ≤ b') in Hb'. rewrite blk_wrote_ne by lia. by apply (io_zero _ _ Hok).
  - intros j k Hj Hk. rewrite (meta_bref m dins) by (done || lia). by apply (io_range _ _ Hok).
  - intros j k j' k' Hj Hj' Hk Hk'. rewrite !(meta_bref m dins) by (done || lia). by apply (io_inj _ _ Hok).
Qed.

(** The size is no part of the block map. *)
Lemma bref_size m din v k : length din = 64%nat → 0 ≤ k → bref m (put32 din 8%nat v) k = bref m din k.
Proof.
  intros Hl Hk. assert (∀ k, 0 ≤ k ≤ 12 → addr_of (put32 din 8%nat v) k = addr_of din k) as Ha by (intros k' Hk'; apply get_put_ne; lia).
  unfold bref. destruct (Z.leb_spec k 12); [by apply Ha; lia|]. by rewrite Ha by lia.
Qed.

Lemma image_ok_size m dins i v : image_ok m dins → live m i → image_ok m (upd dins i (put32 (dins i) 8%nat v)).
Proof.
  intros Hok Hi. pose proof (io_len _ _ Hok i Hi) as Hl.
  assert (∀ j k, live m j → 0 ≤ k < slots → bref m (upd dins i (put32 (dins i) 8%nat v) j) k = bref m (dins j) k) as Hb.
  { intros j k Hj Hk. unfold upd. destruct (Z.eqb_spec j i) as [->|]; [apply bref_size; [done|lia]|done]. }
  split; try apply Hok.
  - intros j Hj. unfold upd. destruct (Z.eqb_spec j i) as [->|]; [rewrite length_put; lia|by apply (io_len _ _ Hok)].
  - intros j k Hj Hk. rewrite Hb by done. by apply (io_range _ _ Hok).
  - intros j k j' k' Hj Hj' Hk Hk'. rewrite !Hb by done. by apply (io_inj _ _ Hok).
Qed.
