(* ===== verification/MkfsFiles.v ===== *)
(** * MkfsFiles: the files of the image

    [iappend] and [ialloc] on the files as a whole: dinodes on disk, sizes and
    contents. *)

From S2P Require Import Prelude Params CString State Bytes Fs Mkfs MkfsInv MkfsAppend.

Implicit Types (m : mkfs) (din ip : list Z) (e : list (mkfs → mkfs)).

(** What a file contains. *)
Definition contents m din : list Z := fbytes m din (Z.to_nat (dsize din)).

Lemma kept_contents m m' din : kept m m' din → allotted m din (dsize din) → 0 ≤ dsize din ≤ MAXFILE * BSIZE → contents m' din = contents m din.
Proof.
  intros K A Hs. unfold contents, fbytes. apply list_fmap_ext. intros j k [-> Hj]%lookup_seq.
  apply fbyte_kept; [done|lia|]. assert (MAXFILE * BSIZE = 274432) as Em by done.
  pose proof (slot_range (Z.of_nat (0 + j) / 1024) ltac:(change MAXFILE with 268; zlia)) as [Hsl _].
  apply (A _ Hsl). apply needs_byte. lia.
Qed.

Lemma sb_inode_block i : 1 ≤ i ≤ 200 → 32 ≤ IBLOCK i the_sb < 45.
Proof. intros Hi. rewrite IBLOCK_val by done. zlia. Qed.

(** ** Dinodes *)

Section Inodes.
Variables (m : mkfs) (dins : Z → list Z) (e : list (mkfs → mkfs)).
Hypothesis Hok : image_ok m dins.

Definition with_inode m (i : Z) (ip : list Z) : mkfs :=
  wrote m (IBLOCK i the_sb) (splice (blk m (IBLOCK i the_sb)) (dinode_off i) ip).

Lemma rinode_run i : 1 ≤ i ≤ 200 → rinode i e m = Ret (slice (blk m (IBLOCK i the_sb)) (dinode_off i) 64) e m.
Proof.
  intros Hi. pose proof (sb_inode_block i Hi). pose proof consts as (Hc1 & Hc2 & _). unfold rinode. rewrite gets_bind, (io_sb _ _ Hok).
  by run (rsect_run m dins (IBLOCK i the_sb) e Hok ltac:(lia)).
Qed.

Lemma winode_run i ip : 1 ≤ i ≤ 200 → winode i ip e m = Ret () e (with_inode m i ip).
Proof.
  intros Hi. pose proof (sb_inode_block i Hi). pose proof consts as (Hc1 & Hc2 & _). unfold winode. rewrite gets_bind, (io_sb _ _ Hok).
  run (rsect_run m dins (IBLOCK i the_sb) e Hok ltac:(lia)).
  apply (wsect_run m (IBLOCK i the_sb) _ e (io_room _ _ Hok)). lia.
Qed.

Lemma inode_fits i ip : length ip = 64%nat → (dinode_off i + length ip ≤ length (blk m (IBLOCK i the_sb)))%nat.
Proof. intros ->. rewrite (io_size _ _ Hok), dinode_off_val. zlia. Qed.

Lemma with_inode_ok i ip : 1 ≤ i ≤ 200 → length ip = 64%nat → image_ok (with_inode m i ip) dins.
Proof.
  intros Hi Hl. pose proof (sb_inode_block i Hi). pose proof consts as (Hc1 & Hc2 & _).
  apply meta_ok; [done|lia|]. rewrite length_splice by (by apply inode_fits). apply (io_size _ _ Hok).
Qed.

Lemma with_inode_slice i ip j : 1 ≤ i ≤ 200 → 1 ≤ j ≤ 200 → length ip = 64%nat →
  slice (blk (with_inode m i ip) (IBLOCK j the_sb)) (dinode_off j) 64 = if j =? i then ip else slice (blk m (IBLOCK j the_sb)) (dinode_off j) 64.
Proof.
  intros Hi Hj Hl. unfold with_inode. rewrite blk_wrote. destruct (Z.eqb_spec j i) as [->|Hne].
  - rewrite Z.eqb_refl, <- Hl. apply slice_splice. by apply inode_fits.
  - destruct (Z.eqb_spec (IBLOCK j the_sb) (IBLOCK i the_sb)) as [E|]; [|done]. rewrite E. rewrite !IBLOCK_val in E by done.
    apply slice_splice_ne; [by apply inode_fits|]. rewrite Hl, !dinode_off_val. zlia.
Qed.

Lemma with_inode_kept i ip j : 1 ≤ i ≤ 200 → live m j → kept m (with_inode m i ip) (dins j).
Proof. intros Hi Hj. pose proof (sb_inode_block i Hi). pose proof consts as (Hc1 & _). apply meta_kept; [done|lia|done]. Qed.

Lemma with_inode_meta i ip b : 1 ≤ i ≤ 200 → b < 32 ∨ 45 ≤ b → blk (with_inode m i ip) b = blk m b.
Proof. intros Hi Hb. pose proof (sb_inode_block i Hi). apply blk_wrote_ne. lia. Qed.
End Inodes.

(** ** iappend *)

Record extended i dins m m' din' (bytes : list Z) : Prop := Extended {
  ex_ok : files_ok m' (upd dins i din');
  ex_fi : mk_freeinode m' = mk_freeinode m;
  ex_fb : mk_freeblock m' = mk_freeblock m + (blocks_of (dsize din') - blocks_of (dsize (dins i)));
  ex_size : dsize din' = dsize (dins i) + Z.of_nat (length bytes);
  ex_head : take 8 din' = take 8 (dins i);
  ex_bytes : contents m' din' = contents m (dins i) ++ bytes;
  ex_kept : ∀ j, live m j → j ≠ i → kept m m' (dins j);
  ex_meta : ∀ b, b < 32 ∨ b = 45 → blk m' b = blk m b;
}.

Lemma live_200 m dins i : image_ok m dins → live m i → 1 ≤ i ≤ 200.
Proof. intros Hok Hi. pose proof (io_fi _ _ Hok) as H. change NINODES with 200 in H. unfold live in Hi. lia. Qed.

Lemma fbytes_ext m m' din din' n : (∀ o, 0 ≤ o → fbyte m din o = fbyte m' din' o) → fbytes m din n = fbytes m' din' n.
Proof. intros E. unfold fbytes. apply list_fmap_ext. intros _ k _. apply E. lia. Qed.

Lemma iappend_run i dins m p e : files_ok m dins → live m i → dsize (dins i) + Z.of_nat (length p) ≤ MAXFILE * BSIZE →
  mk_freeblock m + (blocks_of (dsize (dins i) + Z.of_nat (length p)) - blocks_of (dsize (dins i))) ≤ FSSIZE →
  ∃ m' din', iappend i p (Z.of_nat (length p)) e m = Ret () e m' ∧ extended i dins m m' din' p.
Proof.
  intros Hf Hi Hmax Hroom. pose proof (fl_ok _ _ Hf) as Hok. pose proof (live_200 m dins i Hok Hi) as Hi2.
  pose proof (fl_size _ _ Hf i Hi) as Hs. assert (MAXFILE * BSIZE = 274432) as Em by done.
  destruct (iappend_loop i dins m (dsize (dins i)) p e Hok Hi (fl_allot _ _ Hf i Hi) ltac:(lia) Hmax Hroom) as (k & m1 & din1 & R & Hk & A).
  set (size := dsize (dins i) + Z.of_nat (length p)) in *. set (din2 := put32 din1 8%nat (xint size)).
  pose proof (ap_ok _ _ _ _ _ _ _ A) as Hok1. assert (live m1 i) as Hi1 by (by apply (live_mono m m1 i (ap_fi _ _ _ _ _ _ _ A))).
  pose proof (io_len _ _ Hok1 i Hi1) as Hl1. rewrite upd_eq in Hl1.
  assert (length din2 = 64%nat) as Hl2 by (unfold din2; rewrite length_put; lia).
  assert (dsize din2 = size) as Hsize.
  { unfold dsize, din2. rewrite get_put by lia. rewrite of_le_xint by lia. apply Z.mod_small. change (256 ^ Z.of_nat 4) with 4294967296. lia. }
  pose proof (image_ok_size m1 (upd dins i din1) i (xint size) Hok1 Hi1) as Hok2. rewrite upd_eq in Hok2. fold din2 in Hok2.
  assert (image_ok m1 (upd dins i din2)) as Hok2'.
  { eapply image_ok_ext; [|exact Hok2]. intros j. unfold upd. by destruct (j =? i). }
  pose proof (with_inode_ok m1 (upd dins i din2) Hok2' i din2 Hi2 Hl2) as Hok3.
  assert (∀ j, live m j → kept m1 (with_inode m1 i din2) (upd dins i din2 j)) as Hk3.
  { intros j Hj. apply with_inode_kept; [done|done|]. by apply (live_mono m m1 j (ap_fi _ _ _ _ _ _ _ A)). }
  pose proof (Hk3 i Hi) as Hki. rewrite upd_eq in Hki.
  assert (∀ q, 0 ≤ q → bref m1 din2 q = bref m1 din1 q) as Hb2 by (intros q Hq; by apply bref_size).
  exists (with_inode m1 i din2), din2. split; [|split].
  - unfold iappend. run (rinode_run m dins e Hok i Hi2). rewrite (fl_disk _ _ Hf i Hi). cbv zeta.
    pose proof (of_le_xint (dsize (dins i)) ltac:(lia)) as Ex. unfold dsize in Ex at 1. rewrite Ex. clear Ex.
    run (while_runs _ _ _ _ k _ _ _ R ltac:(change (2 ^ 64) with 18446744073709551616; lia)). cbv beta iota.
    apply (winode_run m1 (upd dins i din1) e Hok1 i din2 Hi2).
  - split.
    + done.
    + intros j Hj. change (live m1 j) in Hj. pose proof (live_200 m1 _ j Hok1 Hj) as Hj2.
      rewrite (with_inode_slice m1 (upd dins i din2) Hok2' i din2 j Hi2 Hj2 Hl2). unfold upd. destruct (Z.eqb_spec j i) as [->|Hne]; [done|].
      pose proof (sb_inode_block j Hj2). rewrite (ap_meta _ _ _ _ _ _ _ A) by (change nmeta with 46; lia).
      apply (fl_disk _ _ Hf). by apply (live_mono m m1 j (ap_fi _ _ _ _ _ _ _ A)).
    + intros j Hj. unfold upd. destruct (Z.eqb_spec j i) as [->|Hne]; [rewrite Hsize; lia|].
      apply (fl_size _ _ Hf). by apply (live_mono m m1 j (ap_fi _ _ _ _ _ _ _ A)).
    + intros j Hj q Hq. change (live m1 j) in Hj. assert (live m j) as Hjm by (by apply (live_mono m m1 j (ap_fi _ _ _ _ _ _ _ A))).
      rewrite (kp_bref _ _ _ (Hk3 j Hjm)) by done. unfold upd. destruct (Z.eqb_spec j i) as [->|Hne].
      * rewrite Hsize. rewrite Hb2 by lia. by apply (ap_allot _ _ _ _ _ _ _ A).
      * rewrite (kp_bref _ _ _ (ap_kept _ _ _ _ _ _ _ A j Hjm Hne)) by done. by apply (fl_allot _ _ Hf).
  - apply (ap_fi _ _ _ _ _ _ _ A).
  - rewrite Hsize. apply (ap_fb _ _ _ _ _ _ _ A).
  - done.
  - pose proof (ap_head _ _ _ _ _ _ _ A) as Hh. unfold din2. rewrite take_put by lia.
    assert (∀ l : list Z, take 8 l = take 8 (take 12 l)) as E8 by (intros l; by rewrite take_take). by rewrite E8, Hh, <- E8.
  - rewrite (kept_contents m1); [|done| |rewrite Hsize; lia].
    2:{ intros q Hq. rewrite Hsize. rewrite Hb2 by lia. by apply (ap_allot _ _ _ _ _ _ _ A). }
    unfold contents at 1. rewrite Hsize, (fbytes_ext _ m1 _ din1); [apply (ap_bytes _ _ _ _ _ _ _ A)|].
    intros o Ho. unfold fbyte. rewrite Hb2; [done|]. unfold slot. destruct (Z.ltb_spec (o / 1024) 12); zlia.
  - intros j Hj Hne. eapply kept_trans; [by apply (ap_kept _ _ _ _ _ _ _ A)|]. pose proof (Hk3 j Hj) as K. by rewrite upd_ne in K.
  - intros b Hb. rewrite with_inode_meta by (done || lia). apply (ap_meta _ _ _ _ _ _ _ A). change nmeta with 46. lia.
Qed.

Lemma files_ok_ext m dins dins' : (∀ j, dins j = dins' j) → files_ok m dins → files_ok m dins'.
Proof.
  intros E [H1 H2 H3 H4]. split; [by eapply image_ok_ext|..]; intros j Hj; rewrite <- E; auto.
Qed.

Lemma upd_id dins i j : dins j = upd dins i (dins i) j.
Proof. unfold upd. by destruct (Z.eqb_spec j i) as [->|]. Qed.
Lemma upd_upd dins i d1 d2 j : upd (upd dins i d1) i d2 j = upd dins i d2 j.
Proof. unfold upd. by destruct (j =? i). Qed.

Lemma extended_nil i dins m : files_ok m dins → extended i dins m m (dins i) [].
Proof.
  intros Hf. split; try done; cbn [length]; [|lia|lia|by rewrite app_nil_r].
  eapply files_ok_ext; [|exact Hf]. apply upd_id.
Qed.

Lemma extended_app i dins m m1 m2 d1 d2 b1 b2 :
  extended i dins m m1 d1 b1 → extended i (upd dins i d1) m1 m2 d2 b2 → extended i dins m m2 d2 (b1 ++ b2).
Proof.
  intros [F1 I1 B1 S1 H1 C1 K1 M1] [F2 I2 B2 S2 H2 C2 K2 M2]. rewrite upd_eq in B2, S2, H2, C2. split.
  - eapply files_ok_ext; [|exact F2]. apply upd_upd.
  - congruence.
  - lia.
  - rewrite length_app. lia.
  - congruence.
  - by rewrite C2, C1, app_assoc.
  - intros j Hj Hne. eapply kept_trans; [by apply K1|]. specialize (K2 j). rewrite upd_ne in K2 by done. apply K2; [|done]. by apply (live_mono m m1 j I1).
  - intros b Hb. rewrite M2, M1; done.
Qed.

(** The file is appended to piece by piece. *)
Lemma pieces_run pieces i dins m e : files_ok m dins → live m i →
  dsize (dins i) + Z.of_nat (length (concat pieces)) ≤ MAXFILE * BSIZE →
  mk_freeblock m + (blocks_of (dsize (dins i) + Z.of_nat (length (concat pieces))) - blocks_of (dsize (dins i))) ≤ FSSIZE →
  ∃ m' din', foreach pieces (λ buf, iappend i buf (Z.of_nat (length buf))) e m = Ret () e m' ∧ extended i dins m m' din' (concat pieces).
Proof.
  revert dins m. induction pieces as [|p pieces IH]; intros dins m Hf Hi Hmax Hroom.
  - exists m, (dins i). split; [done|by apply extended_nil].
  - cbn [concat foreach] in *. rewrite length_app in Hmax, Hroom.
    pose proof (blocks_mono (dsize (dins i) + Z.of_nat (length p)) (dsize (dins i) + Z.of_nat (length p + length (concat pieces))) ltac:(lia)).
    destruct (iappend_run i dins m p e Hf Hi ltac:(lia) ltac:(lia)) as (m1 & d1 & E1 & X1).
    pose proof (ex_size _ _ _ _ _ _ X1) as Hs1. pose proof (ex_fb _ _ _ _ _ _ X1) as Hb1.
    destruct (IH (upd dins i d1) m1 (ex_ok _ _ _ _ _ _ X1)) as (m2 & d2 & E2 & X2); rewrite ?upd_eq.
    + by apply (live_mono m m1 i (ex_fi _ _ _ _ _ _ X1)).
    + lia.
    + rewrite Hs1 in *. replace (dsize (dins i) + Z.of_nat (length p) + Z.of_nat (length (concat pieces)))
        with (dsize (dins i) + Z.of_nat (length p + length (concat pieces))) by lia. lia.
    + exists m2, d2. split; [by run E1|]. by eapply extended_app.
Qed.

(** ** ialloc *)

Definition new_inode (type : Z) : list Z :=
  put32 (put16 (put16 (replicate 64 0) 0%nat (xshort type)) 6%nat (xshort 1)) 8%nat (xint 0).

Lemma length_new_inode type : length (new_inode type) = 64%nat.
Proof.
  assert (length (put16 (replicate 64 0) 0%nat (xshort type)) = 64%nat) as H1 by (rewrite length_put; [done|cbn; lia]).
  assert (length (put16 (put16 (replicate 64 0) 0%nat (xshort type)) 6%nat (xshort 1)) = 64%nat) as H2 by (rewrite length_put; [done|rewrite H1; lia]).
  unfold new_inode. rewrite length_put; [done|rewrite H2; lia].
Qed.

Lemma new_inode_fields type : 0 ≤ type < 2 ^ 16 →
  get16 (new_inode type) 0%nat = type ∧ get16 (new_inode type) 6%nat = 1 ∧ dsize (new_inode type) = 0 ∧
  (∀ o n, (12 ≤ o)%nat → get_le (new_inode type) o n = 0).
Proof.
  intros Ht. unfold new_inode, dsize. set (d0 := replicate 64 0).
  set (d1 := put16 d0 0%nat (xshort type)). assert (length d1 = 64%nat) as H1 by (unfold d1; rewrite length_put; [done|cbn; lia]).
  set (d2 := put16 d1 6%nat (xshort 1)). assert (length d2 = 64%nat) as H2 by (unfold d2; rewrite length_put; [exact H1|rewrite H1; lia]).
  split_and!.
  - rewrite get_put_ne by lia. unfold d2. rewrite get_put_ne by lia. unfold d1. rewrite get_put by (cbn; lia). rewrite xshort_id by done. by apply Z.mod_small.
  - rewrite get_put_ne by lia. unfold d2. rewrite get_put by lia. done.
  - rewrite get_put by lia. done.
  - intros o n Ho. rewrite get_put_ne by lia. unfold d2. rewrite get_put_ne by lia. unfold d1. rewrite get_put_ne by (cbn; lia). apply get_zeros.
Qed.

Lemma new_inode_bref m type k : 0 ≤ type < 2 ^ 16 → 0 ≤ k → bref m (new_inode type) k = 0.
Proof.
  intros Ht Hk. destruct (new_inode_fields type Ht) as (_ & _ & _ & Hz).
  unfold bref, addr_of. rewrite (Hz (Z.to_nat (12 + 4 * 12))) by lia. destruct (Z.leb_spec k 12); [apply Hz; lia|done].
Qed.

Lemma ialloc_run m dins type e : files_ok m dins → mk_freeinode m < NINODES → 0 ≤ type < 2 ^ 16 →
  ∃ m', ialloc type e m = Ret (mk_freeinode m) e m' ∧ files_ok m' (upd dins (mk_freeinode m) (new_inode type)) ∧
    mk_freeinode m' = mk_freeinode m + 1 ∧ mk_freeblock m' = mk_freeblock m ∧ contents m' (new_inode type) = [] ∧
    (∀ j, live m j → kept m m' (dins j)) ∧ (∀ b, b < 32 ∨ b = 45 → blk m' b = blk m b).
Proof.
  intros Hf Hr Ht. pose proof (fl_ok _ _ Hf) as Hok. pose proof (io_fi _ _ Hok) as Hfi. change NINODES with 200 in *.
  set (i := mk_freeinode m) in *. set (m1 := m <| mk_freeinode := i + 1 |>). set (din := new_inode type).
  destruct (new_inode_fields type Ht) as (_ & _ & Hsize & _). fold din in Hsize.
  assert (∀ j, live m1 j → j ≠ i → live m j) as Hlive by (intros j Hj Hne; unfold live, m1 in *; unfold set in Hj; cbn [mk_freeinode] in Hj; fold i in Hj |- *; lia).
  assert (∀ j k, bref m1 (dins j) k = bref m (dins j) k) as Hb by done.
  assert (∀ mm k, 0 ≤ k → bref mm din k = 0) as Hz by (intros; by apply new_inode_bref).
  assert (image_ok m1 (upd dins i din)) as Hok1.
  { split; try apply Hok.
    - unfold m1. unfold set; cbn [mk_freeinode]. change NINODES with 200. lia.
    - intros j Hj. unfold upd. destruct (Z.eqb_spec j i); [apply length_new_inode|]. apply (io_len _ _ Hok). by apply Hlive.
    - intros j k Hj Hk. unfold upd. destruct (Z.eqb_spec j i); [left; apply Hz; lia|]. apply (io_range _ _ Hok); [by apply Hlive|done].
    - intros j k j' k' Hj Hj' Hk Hk'. unfold upd. destruct (Z.eqb_spec j i), (Z.eqb_spec j' i); rewrite ?Hz by lia.
      + done.
      + done.
      + intros H0 E. by rewrite E in H0.
      + apply (io_inj _ _ Hok); auto. }
  assert (1 ≤ i ≤ 200) as Hi by lia.
  exists (with_inode m1 i din). split_and!; [|split| | | | |].
  - unfold ialloc. rewrite gets_bind, modify_bind. rewrite wrapu_id by (change (2 ^ 32) with 4294967296; fold i; lia). fold m1. cbv zeta.
    run (winode_run m1 _ e Hok1 i din Hi). done.
  - apply with_inode_ok; [done|done|apply length_new_inode].
  - intros j Hj. change (live m1 j) in Hj. pose proof (live_200 m1 _ j Hok1 Hj) as Hj2. rewrite (with_inode_slice m1 _ Hok1 i din j Hi Hj2 (length_new_inode type)).
    unfold upd. destruct (Z.eqb_spec j i); [done|]. apply (fl_disk _ _ Hf). by apply Hlive.
  - intros j Hj. unfold upd. destruct (Z.eqb_spec j i); [rewrite Hsize; by vm_compute|]. apply (fl_size _ _ Hf). by apply Hlive.
  - intros j Hj k Hk. change (live m1 j) in Hj. pose proof (with_inode_kept m1 _ Hok1 i din j Hi Hj) as K. rewrite (kp_bref _ _ _ K) by done.
    unfold upd. destruct (Z.eqb_spec j i).
    + rewrite Hsize. rewrite Hz by lia. unfold needs, BSIZE. destruct (Z.ltb_spec k 12), (Z.eqb_spec k 12); lia.
    + apply (fl_allot _ _ Hf); [by apply Hlive|done].
  - done.
  - done.
  - unfold contents. by rewrite Hsize.
  - intros j Hj. pose proof (with_inode_kept m1 _ Hok1 i din j Hi) as K. rewrite upd_ne in K by (unfold live in Hj; fold i in Hj; lia).
    destruct K as [K1 K2]; [|split; [exact K1|exact K2]]. unfold live, m1 in *. unfold set; cbn [mk_freeinode]. fold i in Hj. lia.
  - intros b Hb'. rewrite with_inode_meta by (done || lia). done.
Qed.
