(* ===== verification/MkfsMain.v ===== *)
(** * MkfsMain: the image that mkfs builds

    After [main] the image holds the files it was given, a root directory that
    names them, and a bitmap of the blocks in use. *)

From S2P Require Import Prelude Params CString State Bytes Fs Mkfs MkfsInv MkfsAppend MkfsFiles.

Implicit Types (m : mkfs) (din : list Z) (e : list (mkfs → mkfs)) (files : list (list Z * list Z)).

(** The root directory for files with their names and contents. *)
Definition root_entries files : list (list Z) :=
  dirent 1 (bytes_of ".") :: dirent 1 (bytes_of "..") :: imap (λ k f, dirent (2 + Z.of_nat k) f.1) files.
Definition root_data files : list Z := concat (root_entries files).

(** The data blocks that the files and the root directory take. *)
Definition file_blocks files : Z := foldr (λ f n, blocks_of (Z.of_nat (length f.2)) + n) 0 files.
Definition blocks_used files : Z := blocks_of (16 * (2 + Z.of_nat (length files))) + file_blocks files.

Record built m (dins : Z → list Z) files : Prop := Built {
  bl_files : files_ok m dins;
  bl_fi : mk_freeinode m = 2 + Z.of_nat (length files);
  bl_fb : mk_freeblock m = nmeta + blocks_used files;
  bl_root : contents m (dins 1) = root_data files;
  bl_root_type : get16 (dins 1) 0%nat = T_DIR ∧ get16 (dins 1) 6%nat = 1;
  bl_data : ∀ k f, files !! k = Some f → contents m (dins (2 + Z.of_nat k)) = f.2;
  bl_type : ∀ k f, files !! k = Some f → get16 (dins (2 + Z.of_nat k)) 0%nat = T_FILE ∧ get16 (dins (2 + Z.of_nat k)) 6%nat = 1;
  bl_super : blk m 1 = splice zeroes 0 (sb_bytes the_sb);
  bl_map : blk m 45 = zeroes;
}.

Lemma length_dirent inum name : length (dirent inum name) = 16%nat.
Proof.
  unfold dirent. assert (length (put16 (replicate 16 0) 0%nat (xshort inum)) = 16%nat) as H by (rewrite length_put; [done|cbn; lia]).
  assert (length (take DIRSIZ (cstring name ++ replicate DIRSIZ 0)) = 14%nat) as H'.
  { rewrite length_take, length_app, length_replicate. unfold DIRSIZ. lia. }
  rewrite length_splice; [done|]. rewrite H, H'. lia.
Qed.

Lemma length_concat16 (l : list (list Z)) : Forall (λ x, length x = 16%nat) l → length (concat l) = (16 * length l)%nat.
Proof. induction 1 as [|x l Hx Hl IH]; [done|]. cbn [concat length]. rewrite length_app. lia. Qed.

Lemma root_entries_16 files : Forall (λ x, length x = 16%nat) (root_entries files).
Proof.
  constructor; [apply length_dirent|constructor; [apply length_dirent|]]. apply Forall_forall. intros x Hx.
  apply list_elem_of_lookup in Hx as [k Hk]. rewrite list_lookup_imap in Hk. apply fmap_Some in Hk as (f & _ & ->). apply length_dirent.
Qed.

Lemma length_root_data files : Z.of_nat (length (root_data files)) = 16 * (2 + Z.of_nat (length files)).
Proof. unfold root_data. rewrite (length_concat16 _ (root_entries_16 files)). unfold root_entries. cbn [length]. rewrite length_imap. lia. Qed.

Lemma root_data_snoc files f : root_data (files ++ [f]) = root_data files ++ dirent (2 + Z.of_nat (length files)) f.1.
Proof.
  unfold root_data, root_entries. rewrite imap_app. cbn [imap]. rewrite !app_comm_cons, concat_app. cbn [concat]. rewrite app_nil_r.
  do 3 f_equal. lia.
Qed.

Lemma file_blocks_app fs1 fs2 : file_blocks (fs1 ++ fs2) = file_blocks fs1 + file_blocks fs2.
Proof. unfold file_blocks. induction fs1 as [|f fs1 IH]; [done|]. cbn [app foldr]. lia. Qed.

Lemma blocks_nonneg n : 0 ≤ n → 0 ≤ blocks_of n.
Proof. intros. unfold blocks_of. destruct (12 * 1024 <? n); zlia. Qed.

Lemma file_blocks_nonneg files : 0 ≤ file_blocks files.
Proof. unfold file_blocks. induction files as [|f files IH]; cbn [foldr]; [lia|]. pose proof (blocks_nonneg (Z.of_nat (length f.2)) ltac:(lia)). lia. Qed.

Lemma used_mono fs1 fs2 : blocks_used fs1 ≤ blocks_used (fs1 ++ fs2).
Proof.
  unfold blocks_used. rewrite file_blocks_app, length_app. pose proof (file_blocks_nonneg fs2).
  pose proof (blocks_mono (16 * (2 + Z.of_nat (length fs1))) (16 * (2 + Z.of_nat (length fs1 + length fs2))) ltac:(lia)). lia.
Qed.

Lemma length_contents m din : length (contents m din) = Z.to_nat (dsize din).
Proof. unfold contents, fbytes. by rewrite length_fmap, length_seq. Qed.

Lemma get_le_take (l : list Z) o n k : (o + n ≤ k)%nat → get_le l o n = get_le (take k l) o n.
Proof. intros H. unfold get_le, slice. rewrite skipn_firstn_comm, take_take. by rewrite Nat.min_l by lia. Qed.

Lemma extended_fields i dins m m' din' bytes o : extended i dins m m' din' bytes → (o + 2 ≤ 8)%nat → get16 din' o = get16 (dins i) o.
Proof. intros X Ho. cbv beta. rewrite (get_le_take din' o 2 8), (ex_head _ _ _ _ _ _ X), <- get_le_take; done. Qed.

(** ** One file *)

Section Add.
Variables (h : host) (e : list (mkfs → mkfs)).

Definition file_of (path : list Z) (pieces : list (list Z)) : list Z * list Z := (skip_underscore (shortname path), concat pieces).

Lemma add_file_run path pieces m dins files : built m dins files → h_open h path = Some pieces → 47 ∉ shortname path →
  (length files < 198)%nat → Z.of_nat (length (concat pieces)) ≤ MAXFILE * BSIZE → blocks_used (files ++ [file_of path pieces]) ≤ nblocks →
  ∃ m' dins', add_file h 1 path e m = Ret () e m' ∧ built m' dins' (files ++ [file_of path pieces]).
Proof.
  intros B Hopen Hsl Hcount Hmax Hused. set (f := file_of path pieces) in *.
  pose proof (bl_files _ _ _ B) as Hf. pose proof (fl_ok _ _ Hf) as Hok. pose proof (bl_fi _ _ _ B) as Hfi. pose proof (bl_fb _ _ _ B) as Hfb.
  assert (nblocks = 1954 ∧ nmeta = 46 ∧ FSSIZE = 2000 ∧ NINODES = 200 ∧ MAXFILE * BSIZE = 274432) as (C1 & C2 & C3 & C4 & C5) by done.
  assert (blocks_used (files ++ [f]) = blocks_of (16 * (2 + Z.of_nat (length files)) + 16) + file_blocks files + blocks_of (Z.of_nat (length (concat pieces)))) as Eu.
  { unfold blocks_used. rewrite file_blocks_app, length_app. cbn [length file_blocks foldr f file_of snd].
    replace (16 * (2 + Z.of_nat (length files + 1))) with (16 * (2 + Z.of_nat (length files)) + 16) by lia. lia. }
  pose proof (blocks_nonneg (Z.of_nat (length (concat pieces))) ltac:(lia)) as Hnn. unfold blocks_used in Hfb.
  destruct (ialloc_run m dins T_FILE e Hf ltac:(lia) ltac:(by vm_compute)) as (m1 & E1 & F1 & I1 & B1 & Ct1 & K1 & M1).
  set (i := mk_freeinode m) in *. set (dins1 := upd dins i (new_inode T_FILE)) in *.
  assert (live m 1) as L1 by (unfold live; fold i; lia).
  assert (dins1 1 = dins 1) as Ed1 by (apply upd_ne; unfold live in L1; fold i in L1; lia).
  pose proof (K1 1 L1) as K11. pose proof (fl_allot _ _ Hf 1 L1) as A1. pose proof (fl_size _ _ Hf 1 L1) as S1.
  assert (dsize (dins 1) = 16 * (2 + Z.of_nat (length files))) as Hs1.
  { pose proof (length_contents m (dins 1)) as Hl. rewrite (bl_root _ _ _ B) in Hl. pose proof (length_root_data files). lia. }
  assert (live m1 1) as L11 by (unfold live in *; lia).
  destruct (iappend_run 1 dins1 m1 (dirent i f.1) e F1 L11) as (m2 & d2 & E2 & X2); [rewrite Ed1, length_dirent; lia|rewrite Ed1, length_dirent, Hs1, B1; change (Z.of_nat 16) with 16; lia|].
  rewrite length_dirent in E2.
  set (dins2 := upd dins1 1 d2) in *. pose proof (ex_fi _ _ _ _ _ _ X2) as I2. pose proof (ex_fb _ _ _ _ _ _ X2) as B2. pose proof (ex_size _ _ _ _ _ _ X2) as S2.
  rewrite Ed1 in B2, S2. rewrite length_dirent in S2. change (Z.of_nat 16) with 16 in S2.
  assert (i ≠ 1) as Hi1 by (unfold live in L1; fold i in L1; lia).
  assert (dins2 i = new_inode T_FILE) as Ed2 by (unfold dins2; rewrite upd_ne by done; apply upd_eq).
  destruct (new_inode_fields T_FILE ltac:(by vm_compute)) as (Nt & Nn & Ns & _).
  assert (live m1 i) as Li1 by (unfold live in *; lia). assert (live m2 i) as Li2 by (unfold live in *; lia).
  destruct (pieces_run pieces i dins2 m2 e (ex_ok _ _ _ _ _ _ X2) Li2) as (m3 & d3 & E3 & X3).
  { rewrite Ed2, Ns. lia. }
  { rewrite Eu in Hused. rewrite Ed2, Ns, Z.add_0_l. change (blocks_of 0) with 0. rewrite B2, S2, B1, Hs1. lia. }
  pose proof (ex_fb _ _ _ _ _ _ X3) as B3. pose proof (ex_size _ _ _ _ _ _ X3) as S3. rewrite Ed2, Ns in B3, S3.
  exists m3, (upd dins2 i d3). split.
  { unfold add_file. rewrite bool_decide_false by done. rewrite panic_if_bind, Hopen. run E1. run E2. exact E3. }
  (* nothing else has changed *)
  assert (∀ j, live m j → j ≠ 1 → contents m3 (dins j) = contents m (dins j)) as Hsame.
  { intros j Hj Hne. assert (j ≠ i) as Hji by (unfold live in Hj; fold i in Hj; lia).
    apply kept_contents; [|by apply (fl_allot _ _ Hf)|by apply (fl_size _ _ Hf)].
    eapply kept_trans; [by apply K1|]. eapply kept_trans.
    - pose proof (ex_kept _ _ _ _ _ _ X2 j ltac:(unfold live in *; lia) Hne) as K. unfold dins1 in K. by rewrite upd_ne in K.
    - pose proof (ex_kept _ _ _ _ _ _ X3 j ltac:(unfold live in *; lia) Hji) as K. unfold dins2, dins1 in K. by rewrite !upd_ne in K. }
  assert (contents m3 d2 = root_data (files ++ [f])) as Hroot.
  { pose proof (ex_kept _ _ _ _ _ _ X3 1 ltac:(unfold live in *; lia) ltac:(done)) as K. unfold dins2 in K. rewrite upd_eq in K.
    pose proof (ex_ok _ _ _ _ _ _ X2) as F2. assert (live m2 1) as L12 by (unfold live in *; lia).
    rewrite (kept_contents m2 m3); [|done|pose proof (fl_allot _ _ F2 1 L12) as A; by rewrite upd_eq in A|pose proof (fl_size _ _ F2 1 L12) as A; by rewrite upd_eq in A].
    rewrite (ex_bytes _ _ _ _ _ _ X2), Ed1, (kept_contents m m1) by done. rewrite (bl_root _ _ _ B), root_data_snoc, Hfi. done. }
  assert (∀ k, Z.of_nat (length files) = Z.of_nat k → 2 + Z.of_nat k = i) as Hik by lia.
  split.
  - apply (ex_ok _ _ _ _ _ _ X3).
  - rewrite (ex_fi _ _ _ _ _ _ X3), I2, I1, Hfi, length_app. cbn [length]. lia.
  - rewrite B3, B2, B1, Hfb, S2, S3, Hs1, Eu, Z.add_0_l. change (blocks_of 0) with 0. lia.
  - unfold upd at 1. destruct (Z.eqb_spec 1 i); [lia|]. unfold dins2. by rewrite upd_eq.
  - unfold upd at 1 2. destruct (Z.eqb_spec 1 i); [lia|]. unfold dins2. rewrite !upd_eq.
    rewrite !(extended_fields _ _ _ _ _ _ _ X2), Ed1 by lia. apply (bl_root_type _ _ _ B).
  - intros k g [Hg|[Hk Hg]]%lookup_app_Some.
    + pose proof (lookup_lt_Some _ _ _ Hg). unfold upd. destruct (Z.eqb_spec (2 + Z.of_nat k) i); [lia|].
      unfold dins2. rewrite upd_ne by lia. unfold dins1. rewrite upd_ne by lia. rewrite Hsame by (unfold live in *; fold i; lia). by apply (bl_data _ _ _ B).
    + apply list_lookup_singleton_Some in Hg as [Hk0 <-]. rewrite (Hik k) by lia. rewrite upd_eq.
      rewrite (ex_bytes _ _ _ _ _ _ X3), Ed2. unfold contents. rewrite Ns. done.
  - intros k g [Hg|[Hk Hg]]%lookup_app_Some.
    + pose proof (lookup_lt_Some _ _ _ Hg). unfold upd. destruct (Z.eqb_spec (2 + Z.of_nat k) i); [lia|].
      unfold dins2. rewrite upd_ne by lia. unfold dins1. rewrite upd_ne by lia. by apply (bl_type _ _ _ B k g).
    + apply list_lookup_singleton_Some in Hg as [Hk0 <-]. rewrite (Hik k) by lia. rewrite upd_eq.
      rewrite !(extended_fields _ _ _ _ _ _ _ X3), Ed2 by lia. done.
  - rewrite (ex_meta _ _ _ _ _ _ X3), (ex_meta _ _ _ _ _ _ X2), M1 by lia. apply (bl_super _ _ _ B).
  - rewrite (ex_meta _ _ _ _ _ _ X3), (ex_meta _ _ _ _ _ _ X2), M1 by lia. apply (bl_map _ _ _ B).
Qed.
End Add.

(** ** The empty image *)

Definition zeroed (l : list Z) (img : gmap Z (list Z)) : gmap Z (list Z) := foldl (λ im b, <[b := zeroes]> im) img l.

Lemma zero_run l m e : Forall (λ b, 0 ≤ b < FSSIZE) l → FSSIZE ≤ mk_room m →
  foreach l (λ i, wsect i zeroes) e m = Ret () e (m <| mk_img := zeroed l (mk_img m) |>).
Proof.
  intros Hl. revert m. induction Hl as [|b l Hb Hl IH]; intros m Hr; [by destruct m|].
  cbn [foreach]. run (wsect_run m b zeroes e Hr Hb). by rewrite IH.
Qed.

Lemma zeroed_lookup l img b : zeroed l img !! b = if decide (b ∈ l) then Some zeroes else img !! b.
Proof.
  revert img. induction l as [|c l IH]; intros img; [done|]. cbn [zeroed foldl]. unfold zeroed in IH. rewrite IH.
  destruct (decide (b ∈ l)); [by rewrite decide_True by set_solver|]. destruct (decide (b = c)) as [->|Hne].
  - rewrite decide_True by set_solver. by rewrite lookup_insert_eq.
  - rewrite decide_False by set_solver. by rewrite lookup_insert_ne.
Qed.

(** The state after the sectors have been zeroed and the superblock written. *)
Definition blank_image (room : Z) : mkfs :=
  wrote (Mkfs (zeroed (seqZ 0 FSSIZE) ∅) room the_sb 1 nmeta) 1 (splice zeroes 0 (sb_bytes the_sb)).

Lemma blank_blk room b : blk (blank_image room) b = if b =? 1 then splice zeroes 0 (sb_bytes the_sb) else zeroes.
Proof.
  unfold blank_image. rewrite blk_wrote. destruct (b =? 1); [done|]. unfold blk. cbn [mk_img]. rewrite zeroed_lookup.
  by destruct (decide (b ∈ seqZ 0 FSSIZE)).
Qed.

Lemma blank_fi room : mk_freeinode (blank_image room) = 1.
Proof. done. Qed.
Lemma blank_fb room : mk_freeblock (blank_image room) = nmeta.
Proof. done. Qed.

Lemma blank_live room j : ¬ live (blank_image room) j.
Proof. unfold live. change (mk_freeinode (blank_image room)) with 1. lia. Qed.

Lemma blank_ok room dins : FSSIZE ≤ room → files_ok (blank_image room) dins.
Proof.
  intros Hr. pose proof (blank_live room) as Hno. split; [|intros j Hj; by destruct (Hno j Hj)..].
  split.
  - exact Hr.
  - reflexivity.
  - intros b. unfold blank_image, wrote. unfold set; cbn [mk_img]. rewrite lookup_insert_is_Some', zeroed_lookup.
    destruct (decide (b ∈ seqZ 0 FSSIZE)) as [Hin|Hin]; rewrite elem_of_seqZ in Hin.
    + split; [intros _; lia|]. intros _. right. by eexists.
    + rewrite lookup_empty. change FSSIZE with 2000 in *. split; [intros [<-|[? ?]]; [lia|discriminate]|lia].
  - intros b. rewrite blank_blk. by destruct (b =? 1).
  - rewrite blank_fb. split; discriminate.
  - rewrite blank_fi. split; discriminate.
  - intros b. rewrite blank_fb. change nmeta with 46. intros Hb. rewrite blank_blk. by destruct (Z.eqb_spec b 1); [lia|].
  - intros j Hj. destruct (Hno j Hj).
  - intros j k Hj. destruct (Hno j Hj).
  - intros j k j' k' Hj. destruct (Hno j Hj).
Qed.

(** ** The run of main up to the files *)

(** A comparison of numbers. *)
Ltac num := vm_compute; repeat split; discriminate.

Lemma root_run m0 d0 e : files_ok m0 d0 → mk_freeinode m0 = 1 → mk_freeblock m0 = nmeta →
  blk m0 1 = splice zeroes 0 (sb_bytes the_sb) → blk m0 45 = zeroes →
  ∃ m dins, built m dins [] ∧ ∀ k : Z → MK (),
    (rootino ← ialloc T_DIR;
     panic_if (negb (rootino =? ROOTINO)) "assert";;
     iappend rootino (dirent rootino (bytes_of ".")) 16;;
     iappend rootino (dirent rootino (bytes_of "..")) 16;;
     k rootino) e m0 = k 1 e m.
Proof.
  intros F0 Hi0 Hb0 Hsb Hmap.
  destruct (ialloc_run m0 d0 T_DIR e F0) as (m1 & E1 & F1 & I1 & B1 & C1 & K1 & M1); [rewrite Hi0; num|num|].
  rewrite Hi0 in *. rewrite Hb0 in *.
  destruct (new_inode_fields T_DIR ltac:(num)) as (Nt & Nn & Ns & _).
  set (dins1 := upd d0 1 (new_inode T_DIR)) in *. assert (dins1 1 = new_inode T_DIR) as Ed1 by apply upd_eq.
  assert (live m1 1) as L1 by (unfold live; lia).
  destruct (iappend_run 1 dins1 m1 (dirent 1 (bytes_of ".")) e F1 L1) as (m2 & d2 & E2 & X2); [rewrite Ed1, Ns, length_dirent; num|rewrite Ed1, Ns, length_dirent, B1; num|].
  pose proof (ex_size _ _ _ _ _ _ X2) as S2. pose proof (ex_fb _ _ _ _ _ _ X2) as B2. rewrite Ed1, Ns, length_dirent in S2. rewrite Ed1, Ns, B1, S2 in B2.
  set (dins2 := upd dins1 1 d2) in *. assert (dins2 1 = d2) as Ed2 by apply upd_eq.
  assert (live m2 1) as L2 by (by apply (live_mono m1 m2 1 (ex_fi _ _ _ _ _ _ X2))).
  destruct (iappend_run 1 dins2 m2 (dirent 1 (bytes_of "..")) e (ex_ok _ _ _ _ _ _ X2) L2) as (m3 & d3 & E3 & X3); [rewrite Ed2, S2, length_dirent; num|rewrite Ed2, S2, length_dirent, B2; num|].
  pose proof (ex_size _ _ _ _ _ _ X3) as S3. pose proof (ex_fb _ _ _ _ _ _ X3) as B3. rewrite Ed2, S2, length_dirent in S3. rewrite Ed2, S2, B2, S3 in B3.
  rewrite length_dirent in E2, E3. exists m3, (upd dins2 1 d3). split.
  2:{ intros k. run E1. change (negb (1 =? ROOTINO)) with false. rewrite panic_if_bind. run E2. by run E3. }
  split.
  - apply (ex_ok _ _ _ _ _ _ X3).
  - rewrite (ex_fi _ _ _ _ _ _ X3), (ex_fi _ _ _ _ _ _ X2), I1. reflexivity.
  - rewrite B3. clear. vm_compute. reflexivity.
  - rewrite upd_eq, (ex_bytes _ _ _ _ _ _ X3), Ed2, (ex_bytes _ _ _ _ _ _ X2), Ed1, C1. reflexivity.
  - rewrite upd_eq. rewrite !(extended_fields _ _ _ _ _ _ _ X3), Ed2, !(extended_fields _ _ _ _ _ _ _ X2), Ed1 by lia. exact (conj Nt Nn).
  - intros k f Hk. discriminate Hk.
  - intros k f Hk. discriminate Hk.
  - rewrite (ex_meta _ _ _ _ _ _ X3), (ex_meta _ _ _ _ _ _ X2), M1 by lia. exact Hsb.
  - rewrite (ex_meta _ _ _ _ _ _ X3), (ex_meta _ _ _ _ _ _ X2), M1 by lia. exact Hmap.
Qed.

(** ** The files, one after the other *)

(** A file that mkfs can put into the image: it can be opened, its name has no
    slash, and it is not too long. *)
Definition addable (h : host) (path : list Z) (pieces : list (list Z)) : Prop :=
  h_open h path = Some pieces ∧ 47 ∉ shortname path ∧ Z.of_nat (length (concat pieces)) ≤ MAXFILE * BSIZE.

Lemma files_run h e paths piecess m dins files : Forall2 (addable h) paths piecess → built m dins files →
  (length files + length paths ≤ 198)%nat → blocks_used (files ++ zip_with file_of paths piecess) ≤ nblocks →
  ∃ m' dins', foreach paths (add_file h 1) e m = Ret () e m' ∧ built m' dins' (files ++ zip_with file_of paths piecess).
Proof.
  intros Hall. revert m dins files. induction Hall as [|path pieces paths piecess (H1 & H2 & H3) Hall IH]; intros m dins files B Hn Hu.
  - exists m, dins. split; [done|]. by rewrite app_nil_r.
  - cbn [zip_with length foreach] in *. rewrite cons_middle, app_assoc in Hu |- *.
    pose proof (used_mono (files ++ [file_of path pieces]) (zip_with file_of paths piecess)).
    destruct (add_file_run h e path pieces m dins files B H1 H2 ltac:(lia) H3 ltac:(lia)) as (m1 & dins1 & E1 & B1).
    destruct (IH m1 dins1 _ B1) as (m2 & dins2 & E2 & B2); [rewrite length_app; cbn; lia|done|].
    exists m2, dins2. split; [by run E1|done].
Qed.

(** ** The end of main *)

(** The size that [main] gives to the root directory. *)
Definition rounded (off : Z) : Z := (off / BSIZE + 1) * BSIZE.

Lemma needs_rounded off k : 0 ≤ off → off mod 1024 ≠ 0 → 0 ≤ k → needs (rounded off) k ↔ needs off k.
Proof. intros Ho Hm Hk. unfold needs, rounded, BSIZE. destruct (Z.ltb_spec k 12), (Z.eqb_spec k 12); zlia. Qed.

Definition finished m (map : list Z) (root : list Z) : mkfs := wrote (with_inode m 1 root) 45 map.

(** Rounding up the root directory's size and writing the bitmap. *)
Lemma finish_run m dins files e : built m dins files → (length files ≤ 198)%nat → (2 + Z.of_nat (length files)) mod 64 ≠ 0 →
  blocks_used files ≤ nblocks →
  let root := put32 (dins 1) 8%nat (xint (rounded (dsize (dins 1)))) in
  (din ← rinode 1;
   let off := xint (get32 din 8%nat) in
   let off := u32 ((off / BSIZE + 1) * BSIZE) in
   winode 1 (put32 din 8%nat (xint off));;
   freeblock ← gets mk_freeblock;
   balloc freeblock;;
   ended (Exited 0)) e m = (Ended (Exited 0) (finished m (first_bits (Z.to_nat (mk_freeblock m)) zeroes) root) : outcome mkfs ()) ∧
  files_ok (finished m (first_bits (Z.to_nat (mk_freeblock m)) zeroes) root) (upd dins 1 root) ∧
  dsize root = rounded (dsize (dins 1)).
Proof.
  intros B Hn Hmod Hu root. set (m' := finished m (first_bits (Z.to_nat (mk_freeblock m)) zeroes) root).
  pose proof (bl_files _ _ _ B) as Hf. pose proof (fl_ok _ _ Hf) as Hok. pose proof (bl_fi _ _ _ B) as Hfi. pose proof (bl_fb _ _ _ B) as Hfb.
  assert (nblocks = 1954 ∧ nmeta = 46 ∧ BSIZE = 1024 ∧ MAXFILE * BSIZE = 274432) as (C1 & C2 & C3 & C4) by done.
  assert (live m 1) as L1 by (unfold live; lia).
  assert (dsize (dins 1) = 16 * (2 + Z.of_nat (length files))) as Hs1.
  { pose proof (length_contents m (dins 1)) as Hl. rewrite (bl_root _ _ _ B) in Hl. pose proof (length_root_data files). pose proof (fl_size _ _ Hf 1 L1). lia. }
  assert (0 ≤ rounded (dsize (dins 1)) ≤ 4096) as Hr by (unfold rounded; rewrite C3, Hs1; zlia).
  pose proof (io_len _ _ Hok 1 L1) as Hl1. assert (length root = 64%nat) as Hlr by (unfold root; rewrite length_put; lia).
  pose proof (image_ok_size m dins 1 (xint (rounded (dsize (dins 1)))) Hok L1) as Hok1. fold root in Hok1.
  pose proof (with_inode_ok m _ Hok1 1 root ltac:(lia) Hlr) as Hok2.
  assert (∀ n, length (first_bits n zeroes) = 1024%nat) as Hlb.
  { intros n. induction n as [|n IH]; [done|]. cbn [first_bits]. by rewrite length_alter. }
  pose proof (meta_ok (with_inode m 1 root) _ 45 (first_bits (Z.to_nat (mk_freeblock m)) zeroes) Hok2 ltac:(lia) (Hlb _)) as Hok3.
  assert (dsize root = rounded (dsize (dins 1))) as Hsr.
  { unfold dsize at 1, root. rewrite get_put by lia. rewrite of_le_xint by lia. apply Z.mod_small. change (256 ^ Z.of_nat 4) with 4294967296. lia. }
  split_and!; [|split|done].
  - run (rinode_run m dins e Hok 1 ltac:(lia)). rewrite (fl_disk _ _ Hf 1 L1). cbv zeta.
    pose proof (of_le_xint (dsize (dins 1)) ltac:(pose proof (fl_size _ _ Hf 1 L1); lia)) as Ex. unfold dsize in Ex at 1. rewrite Ex. clear Ex.
    fold (rounded (dsize (dins 1))). rewrite wrapu_id by (change (2 ^ 32) with 4294967296; lia). fold root.
    run (winode_run m dins e Hok 1 root ltac:(lia)). rewrite gets_bind. change (mk_freeblock (with_inode m 1 root)) with (mk_freeblock m).
    unfold balloc. change (BSIZE * 8) with 8192. destruct (Z.ltb_spec (mk_freeblock m) 8192); [|lia]. cbn [negb]. rewrite !bind_bind, panic_if_bind, bind_bind, gets_bind.
    change (mk_sb (with_inode m 1 root)) with (mk_sb m). rewrite (io_sb _ _ Hok). change (sb_bmapstart the_sb) with 45.
    run (wsect_run (with_inode m 1 root) 45 (first_bits (Z.to_nat (mk_freeblock m)) zeroes) e (io_room _ _ Hok2) ltac:(change FSSIZE with 2000; lia)). reflexivity.
  - exact Hok3.
  - intros j Hj. change (live m j) in Hj. pose proof (live_200 m _ j Hok Hj) as Hj2. pose proof (sb_inode_block j Hj2).
    unfold m', finished. rewrite blk_wrote_ne by lia. rewrite (with_inode_slice m _ Hok1 1 root j ltac:(lia) Hj2 Hlr).
    unfold upd. destruct (Z.eqb_spec j 1); [done|]. by apply (fl_disk _ _ Hf).
  - intros j Hj. change (live m j) in Hj. unfold upd. destruct (Z.eqb_spec j 1) as [->|]; [rewrite Hsr, C4; lia|by apply (fl_size _ _ Hf)].
  - intros j Hj k Hk. change (live m j) in Hj.
    pose proof (with_inode_kept m _ Hok1 1 root j ltac:(lia) Hj) as K1.
    pose proof (meta_kept (with_inode m 1 root) _ 45 (first_bits (Z.to_nat (mk_freeblock m)) zeroes) j Hok2 ltac:(lia) Hj) as K2.
    unfold m', finished. rewrite (kp_bref _ _ _ K2), (kp_bref _ _ _ K1) by done.
    unfold upd. destruct (Z.eqb_spec j 1) as [->|]; [|by apply (fl_allot _ _ Hf)].
    rewrite Hsr. pose proof (fl_size _ _ Hf 1 L1). rewrite needs_rounded by (lia || rewrite Hs1; zlia).
    unfold root. rewrite bref_size by (done || lia). by apply (fl_allot _ _ Hf).
Qed.

(** ** The whole program *)

Lemma main_run h e a0 image paths piecess room : h_create h = true → FSSIZE ≤ room → Forall2 (addable h) paths piecess →
  (length paths ≤ 198)%nat → (2 + Z.of_nat (length paths)) mod 64 ≠ 0 → blocks_used (zip_with file_of paths piecess) ≤ nblocks →
  ∃ m dins, built m dins (zip_with file_of paths piecess) ∧
    let root := put32 (dins 1) 8%nat (xint (rounded (dsize (dins 1)))) in
    let m' := finished m (first_bits (Z.to_nat (mk_freeblock m)) zeroes) root in
    main h (a0 :: image :: paths) e (mkfs0 room) = Ended (Exited 0) m' ∧ files_ok m' (upd dins 1 root) ∧ dsize root = rounded (dsize (dins 1)).
Proof.
  intros Hc Hr Hall Hn Hmod Hu.
  pose proof (Forall2_length _ _ _ Hall) as Hlen. assert (length (zip_with file_of paths piecess) = length paths) as Hlz by (rewrite length_zip_with_l; lia).
  destruct (root_run (blank_image room) (λ _, []) e (blank_ok room _ Hr) (blank_fi room) (blank_fb room)) as (m1 & dins1 & B1 & E1); [by rewrite blank_blk..|].
  destruct (files_run h e paths piecess m1 dins1 [] Hall B1) as (m & dins & E2 & B); [cbn; lia|done|]. cbn [app] in B.
  destruct (finish_run m dins _ e B) as (E3 & F & Hs); [lia|by rewrite Hlz|done|].
  exists m, dins. split; [done|]. cbv zeta. split; [|done].
  unfold main. change (length (a0 :: image :: paths) <? 2)%nat with false. rewrite Hc. cbn [negb]. rewrite !modify_bind.
  change (drop 2 (a0 :: image :: paths)) with paths.
  erewrite bind_Ret.
  2:{ apply zero_run; [|exact Hr]. apply Forall_forall. intros b Hb. by apply elem_of_seqZ in Hb. }
  erewrite bind_Ret by (apply wsect_run; [exact Hr|change FSSIZE with 2000; lia]).
  etrans; [apply (E1 (λ rootino, foreach paths (add_file h rootino);; din ← rinode rootino;
    let off := xint (get32 din 8%nat) in
    let off := u32 ((off / BSIZE + 1) * BSIZE) in
    winode rootino (put32 din 8%nat (xint off));;
    freeblock ← gets mk_freeblock;
    balloc freeblock;;
    ended (Exited 0)))|]. cbv beta. run E2. exact E3.
Qed.
