(* ===== verification/MkfsImage.v ===== *)
(** * MkfsImage: the kernel reads the image

    The image as the kernel's file system sees it, on the sequential machine of
    Blocks.v: the inodes that ilock reads, the bytes of their files, the entries
    of the root directory, the bitmap. *)

From S2P Require Import Prelude Params CString State Virtio Bio Blocks Bytes Log LogCrash Fs FsRead FsWrite Mkfs MkfsInv MkfsAppend MkfsFiles MkfsMain.

Lemma get_le_slice (l : list Z) o k a n : (a + n ≤ k)%nat → get_le (slice l o k) a n = get_le l (o + a) n.
Proof. intros H. unfold get_le, slice. rewrite skipn_firstn_comm, take_take, drop_drop. f_equal. f_equal. lia. Qed.

Section View.
Variables (m : mkfs) (dins : Z → list Z) (mm : mini) (i : Z) (x : inode).
Hypothesis Hf : files_ok m dins.
Hypothesis Hi : live m i.
Hypothesis Hdisk : ∀ b, content mm b = blk m b.

(** The inode as ilock reads it. *)
Definition kernel_inode (d : disk) (i : Z) (x : inode) : inode := get_dinode (d (IBLOCK i the_sb)) (dinode_off i) x.
Let ip := kernel_inode (blk m) i x.

Lemma ip_field a n : (a + n ≤ 64)%nat → get_le (blk m (IBLOCK i the_sb)) (dinode_off i + a) n = get_le (dins i) a n.
Proof. intros H. rewrite <- (fl_disk _ _ Hf i Hi). by rewrite get_le_slice. Qed.

Lemma ip_size : i_size ip = dsize (dins i).
Proof. unfold dsize. by rewrite <- ip_field by lia. Qed.

Lemma ip_type : i_type ip = i16 (get16 (dins i) 0%nat).
Proof. cbv beta. rewrite <- ip_field by lia. by rewrite Nat.add_0_r. Qed.

Lemma ip_nlink : i_nlink ip = i16 (get16 (dins i) 6%nat).
Proof. cbv beta. by rewrite <- ip_field by lia. Qed.

Lemma ip_addr k : 0 ≤ k ≤ 12 → default 0 (i_addrs ip !! Z.to_nat k) = addr_of (dins i) k.
Proof.
  intros Hk. change (i_addrs ip) with (d_addrs (blk m (IBLOCK i the_sb)) (dinode_off i)). unfold d_addrs.
  rewrite list_lookup_fmap, lookup_seq_lt by (unfold NDIRECT; lia). cbn [fmap option_fmap option_map default].
  unfold addr_of. rewrite <- ip_field by lia. unfold id. f_equal. lia.
Qed.

Lemma ip_fblock bn : 0 ≤ bn < 268 → bref m (dins i) (slot bn) ≠ 0 → fblock mm ip bn = bref m (dins i) (slot bn).
Proof.
  intros Hb H0. unfold fblock, slot in *. change (Z.of_nat NDIRECT) with 12. unfold bref in *.
  destruct (Z.ltb_spec bn 12).
  - destruct (Z.leb_spec bn 12); [|lia]. by rewrite ip_addr by lia.
  - destruct (Z.leb_spec (bn + 1) 12); [lia|]. change (i_addrs ip !! NDIRECT) with (i_addrs ip !! Z.to_nat 12). rewrite ip_addr by lia.
    destruct (Z.eqb_spec (addr_of (dins i) 12) 0); [done|]. rewrite Hdisk. do 2 f_equal. lia.
Qed.

Lemma ip_needs o : 0 ≤ o < dsize (dins i) → 0 ≤ o / 1024 < 268 ∧ bref m (dins i) (slot (o / 1024)) ≠ 0.
Proof.
  intros Ho. pose proof (fl_size _ _ Hf i Hi) as Hs. assert (MAXFILE * BSIZE = 274432) as Em by done.
  pose proof (slot_range (o / 1024) ltac:(change MAXFILE with 268; zlia)) as [Hsl _].
  split; [zlia|]. apply (fl_allot _ _ Hf i Hi _ Hsl). apply needs_byte. lia.
Qed.

Lemma ip_ok : file_ok mm ip.
Proof.
  pose proof (fl_ok _ _ Hf) as Hok. pose proof (fl_size _ _ Hf i Hi) as Hs. assert (MAXFILE * BSIZE = 274432) as Em by done. split.
  - by rewrite ip_size.
  - intros bn H1 H2. rewrite ip_size in H2. unfold BSIZE in H2.
    destruct (ip_needs (bn * 1024) ltac:(lia)) as [Hr H0]. rewrite Z.div_mul in * by done.
    rewrite ip_fblock by done. pose proof (slot_range bn ltac:(change MAXFILE with 268; lia)) as [Hsl _].
    pose proof (ind_range m dins i (slot bn) Hok Hi Hsl H0) as H. change nmeta with 46 in H. lia.
  - intros H12. rewrite ip_size in H12. change (i_addrs ip !! NDIRECT) with (i_addrs ip !! Z.to_nat 12). rewrite ip_addr by lia.
    assert (bref m (dins i) 12 ≠ 0) as H0 by (apply (fl_allot _ _ Hf i Hi 12 ltac:(unfold slots; lia)); exact H12).
    pose proof (ind_range m dins i 12 Hok Hi ltac:(unfold slots; lia) H0) as H. rewrite bref_12 in H. change nmeta with 46 in H. lia.
  - intros b. rewrite Hdisk, (io_size _ _ Hok). done.
Qed.

Lemma ip_bytes n : Z.of_nat n ≤ dsize (dins i) → file_bytes mm ip 0 n = fbytes m (dins i) n.
Proof.
  intros Hn. unfold file_bytes, fbytes. apply list_fmap_ext. intros j k [-> Hj]%lookup_seq.
  destruct (ip_needs (Z.of_nat (0 + j)) ltac:(lia)) as [Hr H0]. unfold file_byte, fbyte. change BSIZE with 1024. rewrite Z.add_0_l.
  by rewrite ip_fblock, Hdisk.
Qed.
End View.

(** ** The bitmap and the superblock *)

Lemma first_bits_set n : first_bits (S n) zeroes = set_bit (Z.of_nat n) (first_bits n zeroes).
Proof.
  cbn [first_bits]. unfold set_bit. f_equal. rewrite <- (Nat2Z.id (n / 8)), Nat2Z.inj_div. done.
Qed.

Lemma length_first_bits n : length (first_bits n zeroes) = 1024%nat.
Proof. induction n as [|n IH]; [done|]. rewrite first_bits_set, length_set_bit. done. Qed.

Lemma first_bits_spec n b : 0 ≤ b → Z.of_nat n ≤ 8192 → bit_set (first_bits n zeroes) b = (b <? Z.of_nat n).
Proof.
  intros Hb. induction n as [|n IH]; intros Hn.
  - destruct (Z.ltb_spec b (Z.of_nat 0)); [lia|]. cbn [first_bits]. unfold bit_set, zeroes.
    destruct (replicate (Z.to_nat BSIZE) 0 !! Z.to_nat (b / 8)) eqn:E; cbn [default]; [|apply Z.testbit_0_l].
    apply lookup_replicate in E as [-> _]. apply Z.testbit_0_l.
  - assert (Z.to_nat (Z.of_nat n / 8) < length (first_bits n zeroes))%nat as Hl.
    { rewrite length_first_bits. assert (Z.of_nat n / 8 < 1024) by zlia. lia. }
    rewrite first_bits_set, bit_set_set_bit, IH by (done || lia).
    destruct (Z.eqb_spec (Z.of_nat n) b), (Z.ltb_spec b (Z.of_nat n)), (Z.ltb_spec b (Z.of_nat (S n))); (done || lia).
Qed.

Lemma super_read : read_superblock (splice zeroes 0 (sb_bytes the_sb)) = the_sb.
Proof. vm_compute. reflexivity. Qed.
