(* ===== verification/MkfsBoot.v ===== *)
(** * MkfsBoot: the files of the image are found by name

    The kernel, started on the image, finds each file by its name and reads back
    the bytes that mkfs was given. *)

From S2P Require Import Prelude Params CString State ProcBase Virtio Bio Blocks Bytes Log LogCrash Fs FsRead FsWrite Mkfs MkfsInv MkfsAppend MkfsFiles MkfsMain MkfsImage.

(** ** Names *)

(** A name that fits into a directory entry. *)
Definition good_name (w : list Z) : Prop := w ≠ [] ∧ Forall (λ c, 0 < c < 256 ∧ c ≠ 47) w ∧ (length w ≤ DIRSIZ)%nat.

Lemma cstring_id w : Forall (λ c, 0 < c < 256 ∧ c ≠ 47) w → cstring w = w.
Proof. induction 1 as [|c w [Hc _] Hw IH]; [done|]. cbn [cstring]. destruct (Z.eqb_spec c 0); [lia|]. by rewrite IH. Qed.

Lemma dirent_inum i w : 0 ≤ i < 2 ^ 16 → de_inum (dirent i w) = i.
Proof.
  intros Hi. unfold de_inum, dirent. set (de := put16 (replicate 16 0) 0%nat (xshort i)).
  assert (length de = 16%nat) as Hl by (unfold de; rewrite length_put; [done|cbn; lia]).
  assert (length (take DIRSIZ (cstring w ++ replicate DIRSIZ 0)) = 14%nat) as H14 by (rewrite length_take, length_app, length_replicate; unfold DIRSIZ; lia).
  unfold get_le. rewrite slice_splice_ne by (rewrite ?Hl, ?H14; lia).
  change (of_le (slice de 0 2)) with (get16 de 0%nat). unfold de. rewrite get_put by (cbn; lia). rewrite xshort_id by done. by apply Z.mod_small.
Qed.

Lemma dirent_name i w : good_name w → de_name (dirent i w) = w ++ replicate (DIRSIZ - length w) 0.
Proof.
  intros (_ & Hw & Hl). unfold de_name, dirent. rewrite (cstring_id w Hw).
  set (de := put16 (replicate 16 0) 0%nat (xshort i)). set (nm := take DIRSIZ (w ++ replicate DIRSIZ 0)).
  assert (length de = 16%nat) as Hd by (unfold de; rewrite length_put; [done|cbn; lia]).
  assert (length nm = DIRSIZ) as Hn by (unfold nm; rewrite length_take, length_app, length_replicate; unfold DIRSIZ; lia).
  rewrite <- Hn at 1. rewrite slice_splice by (rewrite Hd, Hn; unfold DIRSIZ; lia).
  unfold nm. rewrite take_app_ge by done. by rewrite take_replicate, Nat.min_l by lia.
Qed.

Lemma two_bufs_left a b w : Forall (λ c, 0 < c < 256 ∧ c ≠ 47) w → (length w ≤ DIRSIZ)%nat → a = w ∨ a = w ++ [0] → cstr (two_bufs a b) 0 w.
Proof.
  intros Hw Hl Ha. assert (∀ k : nat, Z.of_nat k < 65536 → two_bufs a b (0 + Z.of_nat k) = default 0 (a !! k)) as Hm.
  { intros k Hk. unfold two_bufs. destruct (Z.ltb_spec (0 + Z.of_nat k) 65536); [|lia]. by rewrite Z.add_0_l, Nat2Z.id. }
  unfold DIRSIZ in Hl. split_and!.
  - eapply Forall_impl; [exact Hw|]. by intros c [? _].
  - intros k Hk. rewrite Hm by lia. assert (a !! k = w !! k) as -> by (destruct Ha as [->| ->]; [done|by rewrite lookup_app_l]).
    rewrite list_lookup_total_alt. destruct (lookup_lt_is_Some_2 w k Hk) as [c ->]. done.
  - rewrite Hm by lia. destruct Ha as [->| ->]; [by rewrite lookup_ge_None_2|by rewrite list_lookup_middle].
Qed.

Lemma two_bufs_right a w n : Forall (λ c, 0 < c < 256 ∧ c ≠ 47) w → (length w ≤ DIRSIZ)%nat → cstr (two_bufs a (w ++ replicate n 0)) 65536 w.
Proof.
  intros Hw Hl. assert (∀ k : nat, two_bufs a (w ++ replicate n 0) (65536 + Z.of_nat k) = default 0 ((w ++ replicate n 0) !! k)) as Hm.
  { intros k. unfold two_bufs. destruct (Z.ltb_spec (65536 + Z.of_nat k) 65536); [lia|]. do 2 f_equal. lia. }
  split_and!.
  - eapply Forall_impl; [exact Hw|]. by intros c [? _].
  - intros k Hk. rewrite Hm, lookup_app_l by done. rewrite list_lookup_total_alt. destruct (lookup_lt_is_Some_2 w k Hk) as [c ->]. done.
  - rewrite Hm, lookup_app_r, Nat.sub_diag by done. by destruct n.
Qed.

(** The kernel's comparison of a path element with an entry of the image. *)
Lemma namecmp_dirent i w v : good_name w → good_name v → (namecmp (elem_name w) (de_name (dirent i v)) =? 0) = bool_decide (w = v).
Proof.
  intros (_ & Hw & Hlw) Gv. pose proof Gv as (_ & Hv & Hlv). rewrite dirent_name by done. unfold namecmp.
  assert (elem_name w = w ∨ elem_name w = w ++ [0]) as He.
  { unfold elem_name. destruct (Nat.leb_spec DIRSIZ (length w)); [left; apply take_ge; lia|by right]. }
  pose proof (strncmp_zero_iff _ 0 65536 (Z.of_nat DIRSIZ) w v (two_bufs_left _ (v ++ replicate (DIRSIZ - length v) 0) w Hw Hlw He)
    (two_bufs_right (elem_name w) v (DIRSIZ - length v) Hv Hlv) ltac:(unfold DIRSIZ; lia)) as Hs.
  rewrite Nat2Z.id, !take_ge in Hs by done. apply eq_true_iff_eq. by rewrite Z.eqb_eq, bool_decide_eq_true.
Qed.

(** ** The root directory *)

(** Numbers and names of the entries. *)
Definition root_names (files : list (list Z * list Z)) : list (Z * list Z) :=
  (1, bytes_of ".") :: (1, bytes_of "..") :: imap (λ k f, (2 + Z.of_nat k, f.1)) files.

Lemma root_entries_names files : root_entries files = (λ p, dirent p.1 p.2) <$> root_names files.
Proof. unfold root_entries, root_names. cbn [fmap list_fmap]. do 2 f_equal. by rewrite fmap_imap. Qed.

Lemma root_names_lookup files k f : files !! k = Some f → root_names files !! S (S k) = Some (2 + Z.of_nat k, f.1).
Proof. intros Hk. unfold root_names. rewrite !lookup_cons. cbv iota. by rewrite list_lookup_imap, Hk. Qed.

Lemma find_entry_names w (names : list (Z * list Z)) rest k i off : good_name w →
  Forall (λ p, 0 < p.1 < 2 ^ 16 ∧ good_name p.2) names → names !! k = Some (i, w) → NoDup names.*2 →
  find_entry (elem_name w) (((λ p, dirent p.1 p.2) <$> names) ++ rest) off = Some (i, off + 16 * Z.of_nat k).
Proof.
  intros Gw. revert k off. induction names as [|[i' v] names IH]; intros k off Hall Hk Hnd; [done|].
  apply Forall_cons in Hall as [[Hi Gv] Hall]. cbn [fst snd] in *. cbn [fmap list_fmap fst snd] in Hnd. apply NoDup_cons in Hnd as [Hnin Hnd].
  cbn [fmap list_fmap app find_entry fst snd]. rewrite dirent_inum by lia. destruct (Z.eqb_spec i' 0); [lia|]. cbn [negb andb].
  rewrite namecmp_dirent by done. destruct k as [|k].
  - injection Hk as <- <-. rewrite bool_decide_true by done. do 2 f_equal. lia.
  - cbn in Hk. rewrite bool_decide_false.
    + rewrite (IH k) by done. do 2 f_equal. lia.
    + intros <-. apply Hnin. apply list_elem_of_fmap. exists (i, w). split; [done|]. by eapply list_elem_of_lookup_2.
Qed.

(** ** The kernel on an image *)

(** A machine that has read the superblock of the disk, with an empty inode table. *)
Definition boot (d : disk) (lg : log) : mini := Mini d [] ∅ lg (read_superblock (d 1)) (replicate NINODE inode0) [].

(** Open a file by its path and read [n] bytes from its start. *)
Definition read_path (path : list Z) (n : Z) : KM mini (Z * list Z) :=
  ip ← namei path;
  match ip with
  | None => mret (-1, [])
  | Some i => ilock i;; readi i LocalDst 0 n
  end.

Lemma iunlockput_run i ip (e : list (mini → mini)) m : mn_inodes m !! i = Some ip → 1 ≤ i_ref ip < 2 ^ 31 → i_nlink ip ≠ 0 →
  iunlockput i e m = Ret () e (m <| mn_inodes := <[i := ip <| i_ref := i_ref ip - 1 |>]> (mn_inodes m) |>).
Proof.
  intros Hi Hr Hn. unfold iunlockput, iunlock. cbn [kn_holdingsleep kn_releasesleep kern_mini]. rewrite bind_bind, mret_bind, bind_bind.
  run (inode_mini i ip e m Hi). cbn [negb orb]. destruct (Z.ltb_spec (i_ref ip) 1); [lia|]. rewrite bind_bind, panic_if_bind, mret_bind.
  unfold iput. cbn [kn_acquire kn_release kern_mini]. rewrite mret_bind. run (inode_mini i ip e m Hi).
  destruct (Z.eqb_spec (i_nlink ip) 0); [done|]. rewrite andb_false_r. rewrite when_bind.
  erewrite bind_Ret by (by apply (set_inode_mini i _ ip)). unfold mret, KM_ret. do 3 f_equal. f_equal.
  unfold set. f_equal. rewrite wraps_id by (change (2 ^ (32 - 1)) with 2147483648; change (2 ^ 31) with 2147483648 in Hr; lia). done.
Qed.

Lemma skip_root w : good_name w → skipelem (slash :: w) = Some (elem_name w, []) ∧ skipelem [] = None.
Proof.
  intros (Hne & Hw & _). split; [|done]. unfold skipelem. cbn [skip_slashes]. rewrite Z.eqb_refl.
  assert (skip_slashes w = w) as ->.
  { destruct w as [|c w]; [done|]. apply Forall_cons in Hw as [[_ Hc] _]. cbn. unfold slash. by destruct (Z.eqb_spec c 47). }
  assert (split_elem w = (w, [])) as Es.
  { clear Hne. induction Hw as [|c w [_ Hc] Hw IH]; [done|]. cbn [split_elem]. unfold slash in *. destruct (Z.eqb_spec c 47); [done|]. by rewrite IH. }
  destruct w as [|c w]; [done|]. cbv iota. by rewrite Es.
Qed.

Section Walk.
Variables (d : disk) (lg : log) (w : list Z) (inum off n : Z) (e : list (mini → mini)).
Hypothesis Hsb : read_superblock (d 1) = the_sb.
Hypothesis Hw : good_name w.
Hypothesis Hinum : 1 < inum ≤ 200.
Hypothesis Hn : 0 ≤ n < 2 ^ 32.
Let entry (i : Z) : inode := inode0 <| i_dev := ROOTDEV |> <| i_inum := i |> <| i_ref := 1 |> <| i_valid := true |>.
Let node (i : Z) : inode := kernel_inode d i (entry i).
Hypothesis Hroot : ∀ mm, (∀ b, content mm b = d b) → file_ok mm (node 1) ∧ find_entry (elem_name w) (entries mm (node 1)) 0 = Some (inum, off).
Hypothesis Hroot_type : i_type (node 1) = T_DIR ∧ i_nlink (node 1) ≠ 0 ∧ i_size (node 1) mod 16 = 0.
Hypothesis Hfile : ∀ mm, (∀ b, content mm b = d b) → file_ok mm (node inum).
Hypothesis Hfile_type : i_type (node inum) ≠ 0.

Lemma boot_content b : content (boot d lg) b = d b.
Proof. unfold content, boot. cbn [mn_cache mn_disk]. by rewrite lookup_empty. Qed.

Lemma iblock_pos m i : mn_sb m = the_sb → 1 ≤ i ≤ 200 → iblock m i = IBLOCK i the_sb ∧ 0 ≤ iblock m i.
Proof. intros E Hi. unfold iblock. rewrite E. pose proof (sb_inode_block i Hi). lia. Qed.

(** Locking an entry that has just been set up reads the inode. *)
Lemma lock_entry m j i : mn_inodes m !! j = Some (entry i <| i_valid := false |>) → mn_sb m = the_sb → (∀ b, content m b = d b) →
  1 ≤ i ≤ 200 → i_type (node i) ≠ 0 →
  ∃ m', ilock j e m = Ret () e m' ∧ mn_inodes m' = <[j := node i]> (mn_inodes m) ∧ mn_sb m' = the_sb ∧ (∀ b, content m' b = d b).
Proof.
  intros Hj Es Hc Hi Ht. destruct (iblock_pos m i Es Hi) as [Eb Hb].
  destruct (ilock_run j (entry i <| i_valid := false |>) e m Hj Hb) as (m1 & R & E); [done|done| |].
  - cbv zeta. change (i_inum (entry i <| i_valid := false |>)) with i. rewrite Eb, Hc. exact Ht.
  - eexists. split; [exact E|]. split_and!.
    + unfold set at 1; cbn [mn_inodes]. change (i_inum (entry i <| i_valid := false |>)) with i. rewrite Eb, Hc. reflexivity.
    + change (mn_sb m1 = the_sb). by rewrite (rd_sb _ _ R).
    + intros b. change (content m1 b = d b). by rewrite (rd_content _ _ R).
Qed.

(** The inode table, but for two entries, is as at the start. *)
Lemma namei_run : ∃ j m', namei (slash :: w) e (boot d lg) = Ret (Some j) e m' ∧
  mn_inodes m' !! j = Some (entry inum <| i_valid := false |>) ∧ mn_sb m' = the_sb ∧ (∀ b, content m' b = d b).
Proof.
  destruct (skip_root w Hw) as [Sk1 Sk2]. set (m0 := boot d lg).
  assert (∀ j y, mn_inodes m0 !! j = Some y → y = inode0) as Hfree by (intros j y Hy; by apply (lookup_replicate NINODE) in Hy as [-> _]).
  destruct (iget_run ROOTDEV ROOTINO e m0) as (k & x & E1 & Hk & _); [done|by exists 0%nat, inode0|].
  rewrite (Hfree _ _ Hk) in *. set (m1 := m0 <| mn_inodes := <[k := igot ROOTDEV ROOTINO inode0]> (mn_inodes m0) |>) in *.
  assert (k < NINODE)%nat as Hkl by (apply lookup_lt_Some in Hk; exact Hk).
  assert (mn_inodes m1 !! k = Some (entry 1 <| i_valid := false |>)) as Hk1.
  { unfold m1, set at 1. cbn [mn_inodes]. by rewrite list_lookup_insert_eq. }
  destruct Hroot_type as (Ht & Hl & Hs).
  destruct (lock_entry m1 k 1 Hk1) as (m2 & E2 & I2 & S2 & C2); [exact Hsb|apply boot_content|lia|by rewrite Ht|].
  assert (mn_inodes m2 !! k = Some (node 1)) as Hk2.
  { rewrite I2. apply list_lookup_insert_eq. unfold m1, set. cbn [mn_inodes]. by rewrite length_insert. }
  destruct (Hroot m2 C2) as [Hok2 Hfind].
  assert (∀ j y, j ≠ k → mn_inodes m2 !! j = Some y → y = inode0) as Hfree2.
  { intros j y Hne. rewrite I2, list_lookup_insert_ne by done. unfold m1, set. cbn [mn_inodes]. rewrite list_lookup_insert_ne by done. apply Hfree. }
  assert (length (mn_inodes m2) = NINODE) as Hlen2 by (rewrite I2, length_insert; unfold m1, set; cbn [mn_inodes]; by rewrite length_insert).
  destruct (dirlookup_run k (node 1) (elem_name w) e m2 Hk2 Hok2 Hs Hlen2) as (r & m3 & m4 & E3 & R3 & L).
  { exists (if decide (k = 0%nat) then 1%nat else 0%nat), inode0. split; [|done].
    destruct (lookup_lt_is_Some_2 (mn_inodes m2) (if decide (k = 0%nat) then 1%nat else 0%nat)) as [y Hy]; [rewrite Hlen2; unfold NINODE; destruct (decide _); lia|].
    rewrite Hy. f_equal. apply (Hfree2 (if decide (k = 0%nat) then 1%nat else 0%nat)); [destruct (decide _); congruence|done]. }
  { exact Ht. }
  rewrite Hfind in L. destruct L as (j & y & -> & Hy & -> & Hor).
  assert (j ≠ k) as Hjk.
  { intros ->. rewrite Hk2 in Hy. injection Hy as <-. destruct Hor as [Hr|[Hr _]]; [|discriminate Hr].
    unfold refers in Hr. apply Is_true_true_1 in Hr. rewrite !andb_true_iff, !Z.eqb_eq in Hr. destruct Hr as [_ Hr]. change (i_inum (node 1)) with 1 in Hr. lia. }
  rewrite (Hfree2 j y Hjk Hy) in *. clear Hor.
  set (m5 := m3 <| mn_inodes := <[j := igot (i_dev (node 1)) inum inode0]> (mn_inodes m3) |>) in *.
  assert (mn_inodes m5 !! k = Some (node 1)) as Hk5.
  { unfold m5, set. cbn [mn_inodes]. by rewrite list_lookup_insert_ne, (rd_inodes _ _ R3). }
  pose proof (iunlockput_run k (node 1) e m5 Hk5 ltac:(change (i_ref (node 1)) with 1; lia) Hl) as E5.
  set (m6 := m5 <| mn_inodes := <[k := node 1 <| i_ref := i_ref (node 1) - 1 |>]> (mn_inodes m5) |>) in *.
  exists j, m6. split_and!.
  - unfold namei, namex. cbn [head]. rewrite bool_decide_true by done. rewrite bind_bind. run E1.
    erewrite bind_Ret.
    2:{ apply (while_runs _ _ _ _ (1 + 1)); [|lia]. eapply runs_step.
      - rewrite Sk1. run E2. run (inode_mini k (node 1) e m2 Hk2). rewrite Ht. cbn [negb andb]. change (negb (T_DIR =? T_DIR)) with false. cbv iota. run E3. run E5. reflexivity.
      - apply runs_done. by rewrite Sk2. }
    reflexivity.
  - unfold m6, set at 1. cbn [mn_inodes]. rewrite list_lookup_insert_ne by done. unfold m5, set at 1. cbn [mn_inodes].
    rewrite list_lookup_insert_eq by (rewrite (rd_inodes _ _ R3); by eapply lookup_lt_Some). reflexivity.
  - change (mn_sb m3 = the_sb). by rewrite (rd_sb _ _ R3).
  - intros b. change (content m3 b = d b). by rewrite (rd_content _ _ R3).
Qed.

Lemma read_path_run : ∃ m', read_path (slash :: w) n e (boot d lg) =
    Ret (readable (node inum) 0 n, file_bytes m' (node inum) 0 (Z.to_nat (readable (node inum) 0 n))) e m' ∧ (∀ b, content m' b = d b).
Proof.
  destruct namei_run as (j & m1 & E1 & Hj & S1 & C1).
  destruct (lock_entry m1 j inum Hj S1 C1 ltac:(lia) Hfile_type) as (m2 & E2 & I2 & S2 & C2).
  assert (mn_inodes m2 !! j = Some (node inum)) as Hj2 by (rewrite I2; apply list_lookup_insert_eq; by eapply lookup_lt_Some).
  destruct (readi_run j (node inum) e LocalDst m2 0 n Hj2 (Hfile m2 C2) ltac:(lia) Hn) as (m3 & E3 & R3).
  exists m3. split.
  - unfold read_path. run E1. run E2. rewrite E3. by rewrite (file_bytes_reads m2 m3).
  - intros b. by rewrite (rd_content _ _ R3).
Qed.
End Walk.
