(* ===== verification/MkfsCorrect.v ===== *)
(** * MkfsCorrect: mkfs and the kernel agree on the file system

    The two statements about the image: its layout, and that the kernel opens
    every file on it by name and reads what the host's file held. *)

From S2P Require Import Prelude Params CString State ProcBase Virtio Bio Blocks Bytes Log LogCrash Fs FsRead FsWrite Mkfs MkfsInv MkfsAppend MkfsFiles MkfsMain MkfsImage MkfsBoot.

Lemma entries_split mm ip (l : list (list Z)) off : Forall (λ x, length x = 16%nat) l →
  file_bytes mm ip off (16 * length l) = concat l →
  (λ k : nat, file_bytes mm ip (off + 16 * Z.of_nat k) 16) <$> seq 0 (length l) = l.
Proof.
  intros Hl. revert off. induction Hl as [|x l Hx Hl IH]; intros off H; [done|]. cbn [length concat] in *.
  replace (16 * S (length l))%nat with (16 + 16 * length l)%nat in H by lia. rewrite file_bytes_app in H.
  assert (length (file_bytes mm ip off 16) = length x) as Hlen by (rewrite length_file_bytes; lia).
  destruct (app_inj_1 _ _ _ _ Hlen H) as [H1 H2]. change (Z.of_nat 16) with 16 in H2.
  cbn [seq fmap list_fmap]. f_equal; [by rewrite Z.add_0_r|].
  rewrite <- (IH (off + 16) H2) at 2. rewrite <- seq_shift, <- list_fmap_compose. apply list_fmap_ext. intros j k _. cbn -[Z.mul Z.of_nat]. by replace (off + 16 + 16 * Z.of_nat k) with (off + 16 * Z.of_nat (S k)) by lia.
Qed.

(** Reading from the start stops at the size or at the count. *)
Lemma readable_all ip n : 0 ≤ i_size ip → 0 ≤ n < 2 ^ 32 → readable ip 0 n = Z.min n (i_size ip).
Proof.
  intros Hs Hn. unfold readable. rewrite Z.add_0_l, wrapu_id by done.
  destruct (Z.ltb_spec (i_size ip) 0), (Z.ltb_spec n 0); cbn [orb]; lia.
Qed.

Lemma file_bytes_take mm ip n l : 0 ≤ n → file_bytes mm ip 0 (length l) = l →
  file_bytes mm ip 0 (Z.to_nat (Z.min n (Z.of_nat (length l)))) = take (Z.to_nat n) l.
Proof.
  intros Hn Hl. set (j := Z.to_nat (Z.min n (Z.of_nat (length l)))). replace (take (Z.to_nat n) l) with (take j l).
  - assert (length l = (j + (length l - j))%nat) as E by lia. rewrite <- Hl. rewrite E, file_bytes_app.
    by rewrite take_app_length' by (by rewrite length_file_bytes).
  - destruct (Z.le_gt_cases n (Z.of_nat (length l))); [f_equal; lia|]. by rewrite !take_ge by lia.
Qed.

Section Image.
Context (m : mkfs) (dins : Z → list Z) (files : list (list Z * list Z)).
Let root := put32 (dins 1) 8%nat (xint (rounded (dsize (dins 1)))).
Let m' := finished m (first_bits (Z.to_nat (mk_freeblock m)) zeroes) root.
Let dins' := upd dins 1 root.
Hypothesis B : built m dins files.
Hypothesis Hn : (length files ≤ 198)%nat.
Hypothesis F : files_ok m' dins'.
Hypothesis Hroot : dsize root = rounded (dsize (dins 1)).

Lemma img_live1 : live m 1.
Proof. unfold live. rewrite (bl_fi _ _ _ B). lia. Qed.

Lemma img_live k f : files !! k = Some f → live m (2 + Z.of_nat k).
Proof. intros Hk. apply lookup_lt_Some in Hk. unfold live. rewrite (bl_fi _ _ _ B). lia. Qed.

Lemma img_size1 : dsize (dins 1) = 16 * (2 + Z.of_nat (length files)).
Proof.
  pose proof (length_contents m (dins 1)) as Hl. rewrite (bl_root _ _ _ B) in Hl. pose proof (length_root_data files).
  pose proof (fl_size _ _ (bl_files _ _ _ B) 1 img_live1). lia.
Qed.

(** The last writes keep what was there. *)
Lemma img_kept j : live m j → kept m m' (dins j).
Proof.
  intros Hj. pose proof (fl_ok _ _ (bl_files _ _ _ B)) as Hok. assert (length root = 64%nat) as Hlr.
  { unfold root. pose proof (io_len _ _ Hok 1 img_live1). rewrite length_put; lia. }
  eapply kept_trans; [by apply (with_inode_kept m dins Hok 1 root j)|].
  apply (meta_kept (with_inode m 1 root) dins); [by apply with_inode_ok|change nmeta with 46; lia|done].
Qed.

Lemma img_contents k f : files !! k = Some f → contents m' (dins' (2 + Z.of_nat k)) = f.2 ∧ dsize (dins' (2 + Z.of_nat k)) = Z.of_nat (length f.2).
Proof.
  intros Hk. pose proof (img_live k f Hk) as Hl. pose proof (bl_files _ _ _ B) as Hf.
  assert (dins' (2 + Z.of_nat k) = dins (2 + Z.of_nat k)) as -> by (apply upd_ne; lia).
  pose proof (fl_size _ _ Hf _ Hl). pose proof (bl_data _ _ _ B k f Hk) as Hd. split.
  - rewrite <- Hd. apply kept_contents; [by apply img_kept|by apply (fl_allot _ _ Hf)|done].
  - pose proof (length_contents m (dins (2 + Z.of_nat k))) as Hlen. rewrite Hd in Hlen. lia.
Qed.

Lemma img_root : fbytes m' (dins' 1) (16 * (2 + length files)) = root_data files.
Proof.
  pose proof img_size1 as Hs. pose proof (bl_files _ _ _ B) as Hf. pose proof (fl_ok _ _ Hf) as Hok.
  rewrite <- (bl_root _ _ _ B). unfold contents. replace (Z.to_nat (dsize (dins 1))) with (16 * (2 + length files))%nat by lia.
  unfold fbytes. apply list_fmap_ext. intros j k [-> Hj]%lookup_seq. unfold dins'. rewrite upd_eq.
  set (o := Z.of_nat (0 + j)). assert (0 ≤ o < dsize (dins 1)) as Ho by lia.
  assert (MAXFILE * BSIZE = 274432) as Em by done. pose proof (fl_size _ _ Hf 1 img_live1) as Hs1.
  pose proof (slot_range (o / 1024) ltac:(change MAXFILE with 268; zlia)) as [Hsl _].
  rewrite <- (fbyte_kept m m' (dins 1) o); [|by apply img_kept, img_live1|lia|].
  - unfold fbyte. unfold root. rewrite bref_size; [done|apply (io_len _ _ Hok 1 img_live1)|lia].
  - apply (fl_allot _ _ Hf 1 img_live1 _ Hsl). by apply needs_byte.
Qed.

(** The entries of the root directory. *)
Lemma img_entries mm x : (∀ b, content mm b = blk m' b) →
  ∃ rest, entries mm (kernel_inode (blk m') 1 x) = root_entries files ++ rest.
Proof.
  intros Hc. assert (live m' 1) as L1 by exact img_live1. pose proof img_size1 as Hs.
  assert (dsize (dins' 1) = rounded (dsize (dins 1))) as Hsz by (unfold dins'; by rewrite upd_eq).
  assert (length (root_entries files) = (2 + length files)%nat) as Hlr by (unfold root_entries; cbn [length]; by rewrite length_imap).
  assert (16 * (2 + Z.of_nat (length files)) ≤ dsize (dins' 1)) as Hle by (rewrite Hsz, Hs; unfold rounded, BSIZE; zlia).
  assert (file_bytes mm (kernel_inode (blk m') 1 x) 0 (16 * length (root_entries files)) = concat (root_entries files)) as Hb.
  { rewrite Hlr. rewrite (ip_bytes m' dins' mm 1 x F L1 Hc) by lia. apply img_root. }
  unfold entries. rewrite (ip_size m' dins' 1 x F L1).
  replace (Z.to_nat (dsize (dins' 1) / 16)) with (length (root_entries files) + (Z.to_nat (dsize (dins' 1) / 16) - length (root_entries files)))%nat by zlia.
  rewrite seq_app, fmap_app. eexists. f_equal.
  rewrite <- (entries_split mm (kernel_inode (blk m') 1 x) (root_entries files) 0 (root_entries_16 files) Hb) at 2.
  apply list_fmap_ext. intros j k _. by rewrite Z.add_0_l.
Qed.

Lemma img_find mm x k f : (∀ b, content mm b = blk m' b) → files !! k = Some f →
  Forall (λ g, good_name g.1) files → NoDup (root_names files).*2 →
  find_entry (elem_name f.1) (entries mm (kernel_inode (blk m') 1 x)) 0 = Some (2 + Z.of_nat k, 0 + 16 * Z.of_nat (S (S k))).
Proof.
  intros Hc Hk Hg Hnd. destruct (img_entries mm x Hc) as [rest ->]. rewrite root_entries_names.
  apply find_entry_names with (k := S (S k)); [| |by apply root_names_lookup|done].
  - rewrite Forall_forall in Hg. apply (Hg f). by eapply list_elem_of_lookup_2.
  - assert (good_name (bytes_of ".") ∧ good_name (bytes_of "..")) as [G1 G2].
    { split; (split_and!; [done|repeat constructor; done|unfold DIRSIZ; cbn; lia]). }
    constructor; [split; [cbn [fst]; change (2 ^ 16) with 65536; lia|exact G1]|]. constructor; [split; [cbn [fst]; change (2 ^ 16) with 65536; lia|exact G2]|]. apply Forall_forall. intros p Hp.
    apply list_elem_of_lookup in Hp as [j Hj]. rewrite list_lookup_imap in Hj. apply fmap_Some in Hj as (g & Hj & ->). cbn [fst snd].
    pose proof (lookup_lt_Some _ _ _ Hj). split; [change (2 ^ 16) with 65536; lia|]. rewrite Forall_forall in Hg. apply (Hg g). by eapply list_elem_of_lookup_2.
Qed.

(** The inode of a file. *)
Lemma img_inode k f x : files !! k = Some f →
  let ip := kernel_inode (blk m') (2 + Z.of_nat k) x in
  i_type ip = T_FILE ∧ i_nlink ip = 1 ∧ i_size ip = Z.of_nat (length f.2) ∧
  ∀ mm, (∀ b, content mm b = blk m' b) → file_ok mm ip ∧ file_bytes mm ip 0 (length f.2) = f.2.
Proof.
  intros Hk ip. pose proof (img_live k f Hk) as Hl. change (live m' (2 + Z.of_nat k)) in Hl.
  destruct (img_contents k f Hk) as [Hd Hs]. destruct (bl_type _ _ _ B k f Hk) as [Ht Hnl].
  assert (dins' (2 + Z.of_nat k) = dins (2 + Z.of_nat k)) as Ed by (apply upd_ne; lia).
  split_and!.
  - unfold ip. rewrite (ip_type m' dins' _ x F Hl), Ed, Ht. reflexivity.
  - unfold ip. rewrite (ip_nlink m' dins' _ x F Hl), Ed, Hnl. reflexivity.
  - unfold ip. by rewrite (ip_size m' dins' _ x F Hl).
  - intros mm Hc. split; [by apply (ip_ok m' dins' mm _ x F Hl)|].
    unfold ip. rewrite (ip_bytes m' dins' mm _ x F Hl Hc) by lia. rewrite <- Hd at 2. unfold contents. by rewrite Hs, Nat2Z.id.
Qed.

(** The inode of the root directory. *)
Lemma img_root_inode x : let ip := kernel_inode (blk m') 1 x in
  i_type ip = T_DIR ∧ i_nlink ip = 1 ∧ i_size ip mod 16 = 0 ∧ ∀ mm, (∀ b, content mm b = blk m' b) → file_ok mm ip.
Proof.
  intros ip. assert (live m' 1) as L1 by exact img_live1. destruct (bl_root_type _ _ _ B) as [Ht Hnl].
  pose proof (io_len _ _ (fl_ok _ _ (bl_files _ _ _ B)) 1 img_live1) as Hl1.
  split_and!.
  - unfold ip. rewrite (ip_type m' dins' 1 x F L1). unfold dins'. rewrite upd_eq. unfold root. cbv beta. rewrite get_put_ne by lia. cbv beta in Ht. by rewrite Ht.
  - unfold ip. rewrite (ip_nlink m' dins' 1 x F L1). unfold dins'. rewrite upd_eq. unfold root. cbv beta. rewrite get_put_ne by lia. cbv beta in Hnl. by rewrite Hnl.
  - unfold ip. rewrite (ip_size m' dins' 1 x F L1). unfold dins'. rewrite upd_eq, Hroot. unfold rounded, BSIZE. zlia.
  - intros mm Hc. by apply (ip_ok m' dins' mm 1 x F L1).
Qed.

Lemma img_bits b : 0 ≤ b → bit_set (blk m' 45) b = (b <? mk_freeblock m).
Proof.
  intros Hb. pose proof (io_fb _ _ (fl_ok _ _ (bl_files _ _ _ B))) as Hfb. pose proof consts as (Hc1 & Hc2 & _).
  unfold m', finished. rewrite blk_wrote_eq, first_bits_spec by lia. by rewrite Z2Nat.id by lia.
Qed.

Lemma img_super : read_superblock (blk m' 1) = the_sb.
Proof.
  unfold m', finished. rewrite blk_wrote_ne by lia. rewrite with_inode_meta by lia. rewrite (bl_super _ _ _ B). apply super_read.
Qed.
End Image.

(** ** Statements *)

(** The disk [d] holds the files: its superblock is the one the kernel expects;
    the bitmap marks the blocks in use and no other; inode [2 + k] is file [k];
    every block of every file is marked, and belongs to one place of one file. *)
Record holds_files (d : disk) (files : list (list Z * list Z)) : Prop := HoldsFiles {
  hf_super : read_superblock (d 1) = the_sb;
  hf_map : ∀ b, 0 ≤ b < FSSIZE → bit_set (d (BBLOCK b the_sb)) (b mod BPB) = (b <? nmeta + blocks_used files);
  hf_file : ∀ k f, files !! k = Some f →
    let ip := kernel_inode d (2 + Z.of_nat k) inode0 in
    i_type ip = T_FILE ∧ i_nlink ip = 1 ∧ i_size ip = Z.of_nat (length f.2) ∧
    ∀ mm, (∀ b, content mm b = d b) → file_ok mm ip ∧ file_bytes mm ip 0 (length f.2) = f.2;
  hf_own : ∀ mm i bn i' bn', (∀ b, content mm b = d b) →
    let ip := kernel_inode d i inode0 in let ip' := kernel_inode d i' inode0 in
    1 ≤ i < 2 + Z.of_nat (length files) → 0 ≤ bn → bn * BSIZE < i_size ip →
    1 ≤ i' < 2 + Z.of_nat (length files) → 0 ≤ bn' → bn' * BSIZE < i_size ip' →
    nmeta ≤ fblock mm ip bn < nmeta + blocks_used files ∧ (fblock mm ip bn = fblock mm ip' bn' → i = i' ∧ bn = bn');
}.

Section Statements.
Variables (h : host) (a0 image : list Z) (paths : list (list Z)) (piecess : list (list (list Z))) (room : Z) (e : list (mkfs → mkfs)).
Let files := zip_with file_of paths piecess.
Hypothesis Hc : h_create h = true.
Hypothesis Hr : FSSIZE ≤ room.
Hypothesis Hall : Forall2 (addable h) paths piecess.
Hypothesis Hn : (length paths ≤ 198)%nat.
Hypothesis Hmod : (2 + Z.of_nat (length paths)) mod 64 ≠ 0.
Hypothesis Hused : blocks_used files ≤ nblocks.

Lemma length_files : length files = length paths.
Proof. unfold files. rewrite length_zip_with_l; [done|]. apply Forall2_length in Hall. lia. Qed.

Lemma image_holds m dins : built m dins files →
  let root := put32 (dins 1) 8%nat (xint (rounded (dsize (dins 1)))) in
  let m' := finished m (first_bits (Z.to_nat (mk_freeblock m)) zeroes) root in
  files_ok m' (upd dins 1 root) → holds_files (blk m') files.
Proof.
  intros B root m' F. pose proof length_files as Hlf. pose proof (bl_fb _ _ _ B) as Hfb. split.
  - exact (img_super m dins files B ltac:(lia)).
  - intros b Hb. change FSSIZE with 2000 in Hb. unfold BBLOCK. change BPB with 8192. change (sb_bmapstart the_sb) with 45.
    rewrite Z.div_small, Z.mod_small by lia. rewrite wrapu_id by (change (2 ^ 32) with 4294967296; lia). rewrite <- Hfb.
    apply (img_bits m dins files B ltac:(lia)). lia.
  - intros k f Hk. exact (img_inode m dins files B ltac:(lia) F k f inode0 Hk).
  - intros mm i bn i' bn' Hcont ip ip' Hi Hb Hbs Hi' Hb' Hbs'.
    assert (∀ j, 1 ≤ j < 2 + Z.of_nat (length files) → live m' j) as Hlive by (intros j Hj; change (live m j); unfold live; rewrite (bl_fi _ _ _ B); lia).
    assert (∀ j bj, 1 ≤ j < 2 + Z.of_nat (length files) → 0 ≤ bj → bj * BSIZE < i_size (kernel_inode (blk m') j inode0) →
      (0 ≤ slot bj < slots) ∧ bref m' (upd dins 1 root j) (slot bj) ≠ 0 ∧ fblock mm (kernel_inode (blk m') j inode0) bj = bref m' (upd dins 1 root j) (slot bj)) as Hblock.
    { intros j bj Hj Hbj Hs. pose proof (Hlive j Hj) as Lj. rewrite (ip_size m' (upd dins 1 root) j inode0 F Lj) in Hs. change BSIZE with 1024 in Hs.
      destruct (ip_needs m' (upd dins 1 root) j F Lj (bj * 1024) ltac:(lia)) as [Hrange H0]. rewrite Z.div_mul in * by done.
      split_and!; [apply slot_range; change MAXFILE with 268; lia|apply slot_range; change MAXFILE with 268; lia|done|by apply (ip_fblock m' (upd dins 1 root) mm j inode0 F Lj Hcont)]. }
    destruct (Hblock i bn Hi Hb Hbs) as (Hs1 & H1 & E1). destruct (Hblock i' bn' Hi' Hb' Hbs') as (Hs2 & H2 & E2).
    unfold ip, ip'. rewrite E1, E2. split.
    + rewrite <- Hfb. destruct (io_range _ _ (fl_ok _ _ F) i (slot bn) (Hlive i Hi) Hs1); [done|]. done.
    + intros E. destruct (io_inj _ _ (fl_ok _ _ F) i (slot bn) i' (slot bn') (Hlive i Hi) (Hlive i' Hi') Hs1 Hs2 H1 E) as [Ei Es].
      split; [done|]. revert Es. unfold slot. destruct (Z.ltb_spec bn 12), (Z.ltb_spec bn' 12); lia.
Qed.

Lemma built_image : ∃ img, Mkfs.main h (a0 :: image :: paths) e (mkfs0 room) = Ended (Exited 0) img ∧ holds_files (blk img) files.
Proof.
  destruct (main_run h e a0 image paths piecess room Hc Hr Hall Hn Hmod Hused) as (m & dins & B & E & F & Hs).
  eexists. split; [exact E|]. by apply (image_holds m dins).
Qed.

Hypothesis Hnames : Forall (λ f, good_name f.1) files.
Hypothesis Hdistinct : NoDup (root_names files).*2.

Lemma booted_image : ∃ img, Mkfs.main h (a0 :: image :: paths) e (mkfs0 room) = Ended (Exited 0) img ∧
  ∀ k f lg n e', files !! k = Some f → 0 ≤ n < 2 ^ 32 →
    ∃ m', read_path (slash :: f.1) n e' (boot (blk img) lg) =
      Ret (Z.min n (Z.of_nat (length f.2)), take (Z.to_nat n) f.2) e' m'.
Proof.
  destruct (main_run h e a0 image paths piecess room Hc Hr Hall Hn Hmod Hused) as (m & dins & B & E & F & Hs).
  eexists. split; [exact E|]. fold files in B. pose proof length_files as Hlf. intros k f lg n e' Hk Hn'.
  set (img := finished m _ _) in *. pose proof (lookup_lt_Some _ _ _ Hk) as Hkl.
  set (entry := λ i : Z, inode0 <| i_dev := ROOTDEV |> <| i_inum := i |> <| i_ref := 1 |> <| i_valid := true |>).
  destruct (img_inode m dins files B ltac:(lia) F k f (entry (2 + Z.of_nat k)) Hk) as (It & _ & Is & Ifile).
  destruct (img_root_inode m dins files B ltac:(lia) F Hs (entry 1)) as (Rt & Rn & Rs & Rok).
  fold img in It, Is, Ifile, Rt, Rn, Rs, Rok.
  destruct (read_path_run (blk img) lg f.1 (2 + Z.of_nat k) (0 + 16 * Z.of_nat (S (S k))) n e') as (mm & Er & Cmm).
  - exact (img_super m dins files B ltac:(lia)).
  - rewrite Forall_forall in Hnames. apply Hnames. by eapply list_elem_of_lookup_2.
  - lia.
  - done.
  - intros mm Hmm. split; [by apply Rok|]. exact (img_find m dins files B ltac:(lia) F Hs mm (entry 1) k f Hmm Hk Hnames Hdistinct).
  - split_and!; [exact Rt|by setoid_rewrite Rn|exact Rs].
  - intros mm Hmm. by apply Ifile.
  - by setoid_rewrite It.
  - exists mm. fold (entry (2 + Z.of_nat k)) in Er. destruct (Ifile mm Cmm) as [_ Hb]. clear Ifile Rt Rn Rs Rok It.
    set (ip := kernel_inode _ _ _) in *. clearbody ip img. rewrite Er. rewrite readable_all by (rewrite ?Is; lia). rewrite Is.
    rewrite (file_bytes_take mm ip n f.2 (proj1 Hn') Hb). reflexivity.
Qed.
End Statements.

(** C25: for files that the host can open, whose names have no slash after
    "user/" and which fit into the image - at most 198, the number not 2 less
    than a multiple of 64 - mkfs ends with status 0, never by a failed assert,
    and the image is a file system that holds them: the superblock is the one
    the kernel expects; the bitmap marks the blocks in use and no other; inode
    [2 + k], as the kernel reads it, is a regular file with one link and the size
    and the bytes of the host's file [k]; every block of a file or of the root
    directory is a data block in use, and belongs to one place of one file. *)
Theorem mkfs_correct h a0 image paths piecess room e : h_create h = true → FSSIZE ≤ room →
  Forall2 (addable h) paths piecess → (length paths ≤ 198)%nat → (2 + Z.of_nat (length paths)) mod 64 ≠ 0 →
  blocks_used (zip_with file_of paths piecess) ≤ nblocks →
  ∃ img, Mkfs.main h (a0 :: image :: paths) e (mkfs0 room) = Ended (Exited 0) img ∧ holds_files (blk img) (zip_with file_of paths piecess).
Proof. intros Hc Hr Hall Hn Hmod Hu. by apply (built_image h a0 image paths piecess room e). Qed.

(** C24: the kernel finds every file of such an image under its name, for names
    that are distinct and fit into a directory entry.  On a machine that has
    started from the image, with no block in its cache and an empty inode table,
    looking up "/" and the name with namei, locking the inode and reading [n]
    bytes from its start with readi ends without a panic and returns the first
    [n] bytes of the host's file, or all of them when there are fewer. *)
Theorem mkfs_boots h a0 image paths piecess room e : h_create h = true → FSSIZE ≤ room →
  Forall2 (addable h) paths piecess → (length paths ≤ 198)%nat → (2 + Z.of_nat (length paths)) mod 64 ≠ 0 →
  blocks_used (zip_with file_of paths piecess) ≤ nblocks →
  Forall (λ f, good_name f.1) (zip_with file_of paths piecess) → NoDup (root_names (zip_with file_of paths piecess)).*2 →
  ∃ img, Mkfs.main h (a0 :: image :: paths) e (mkfs0 room) = Ended (Exited 0) img ∧
  ∀ k f lg n e', zip_with file_of paths piecess !! k = Some f → 0 ≤ n < 2 ^ 32 →
    ∃ m', read_path (slash :: f.1) n e' (boot (blk img) lg) =
      Ret (Z.min n (Z.of_nat (length f.2)), take (Z.to_nat n) f.2) e' m'.
Proof. intros Hc Hr Hall Hn Hmod Hu Hg Hd. by apply (booted_image h a0 image paths piecess room e). Qed.

(** ** On a host with two files *)

Definition ex_host : host := Host true (λ path,
  if bool_decide (path = bytes_of "user/_cat") then Some [replicate 1024 7; [8; 9]]
  else if bool_decide (path = bytes_of "README") then Some [bytes_of "xv6"] else None).
Definition ex_files : list (list Z * list Z) := [(bytes_of "cat", replicate 1024 7 ++ [8; 9]); (bytes_of "README", bytes_of "xv6")].
Definition ex_image : list Z := bytes_of "fs.img".

Lemma ex_addable : Forall2 (addable ex_host) [bytes_of "user/_cat"; bytes_of "README"] [[replicate 1024 7; [8; 9]]; [bytes_of "xv6"]].
Proof.
  repeat constructor; try (vm_compute; reflexivity); try (apply (bool_decide_unpack _); vm_compute; exact I); try (vm_compute; discriminate).
Qed.

Lemma mkfs_correct_witness : ∃ img,
  Mkfs.main ex_host [bytes_of "mkfs"; ex_image; bytes_of "user/_cat"; bytes_of "README"] [] (mkfs0 2000) = Ended (Exited 0) img ∧ holds_files (blk img) ex_files.
Proof.
  apply (mkfs_correct ex_host (bytes_of "mkfs") ex_image [bytes_of "user/_cat"; bytes_of "README"] [[replicate 1024 7; [8; 9]]; [bytes_of "xv6"]] 2000 []).
  - reflexivity.
  - vm_compute; discriminate.
  - exact ex_addable.
  - vm_compute; repeat constructor.
  - vm_compute; discriminate.
  - vm_compute; discriminate.
Defined.

Lemma mkfs_boots_witness : ∃ img,
  Mkfs.main ex_host [bytes_of "mkfs"; ex_image; bytes_of "user/_cat"; bytes_of "README"] [] (mkfs0 2000) = Ended (Exited 0) img ∧
  ∀ lg, ∃ m', read_path (bytes_of "/README") 100 [] (boot (blk img) lg) = Ret (3, bytes_of "xv6") [] m'.
Proof.
  destruct (mkfs_boots ex_host (bytes_of "mkfs") ex_image [bytes_of "user/_cat"; bytes_of "README"] [[replicate 1024 7; [8; 9]]; [bytes_of "xv6"]] 2000 []) as (img & E & H).
  - reflexivity.
  - vm_compute; discriminate.
  - exact ex_addable.
  - vm_compute; repeat constructor.
  - vm_compute; discriminate.
  - vm_compute; discriminate.
  - repeat constructor; try (apply (bool_decide_unpack _); vm_compute; exact I).
  - apply (bool_decide_unpack _). vm_compute. exact I.
  - exists img. split; [exact E|]. intros lg.
    exact (H 1%nat (bytes_of "README", bytes_of "xv6") lg 100 [] eq_refl ltac:(lia)).
Defined.
